(* ===== verification/_CoqProject ===== *)
-Q . S2P
Prelude.v
Errors.v
Checked.v
TextUtil.v
Ids.v
Taxonomy.v
Float64.v
Policies.v
Cost.v
Records.v
Observation.v
Aggregate.v
Sequence.v
State.v
Attribution.v
Registry.v
Publishers.v
Ingest.v
Counters.v
Reconcile.v
Snapshot.v
System.v
Findings.v
PingPong.v
FalseSharing.v
Invalidations.v
RemoteAccess.v
Hotspots.v
Analysis.v
Codec.v
Protocol.v
Transport.v
Wire.v
WireResults.v
WireSnapshot.v
Sizes.v
Host.v
Trace.v
TraceRoundTrip.v
Synthetic.v
SyntheticRuns.v
Files.v
Coordinator.v
StateFile.v
StateRoundTrip.v
Persistence.v
Lifecycle.v
Client.v
Remote.v
RemoteAdmin.v
RemoteQuery.v
