(* ===== verification/Prelude.v ===== *)
(** * Coherence Observatory: verification library

    Coherence Observatory is a C++ runtime that collects evidence about memory
    coherence traffic.  Publishers (telemetry backends) register under a boot
    identity and send observations and counter samples; the runtime decides whether
    the sender has authority, protects against replay, attributes the evidence to
    regions, devices and domains that are current, aggregates it in bounded
    buckets, and hands out immutable snapshots with the findings of a set of
    analyzers.  All of this is one state ([detail::State]) behind one mutex, changed
    by the operations of the [Observatory] facade ([src/observatory.cpp]).  A
    coordinator ([src/coordinator.cpp]) serves that facade to publishers, clients
    and administrators over checksummed frames.

    ** How the code is modelled

    The model is a shallow embedding.  C++ structs are records with the same fields
    (with [r <| f := v |>] for assignment), enumerations are inductive types,
    [std::map] is a finite map whose iteration order is that of [entries],
    [std::deque] and [std::vector] are lists, [std::optional] is [option], and
    [Status]/[Result<T>] is the [result] sum of [Errors].  An enumeration that can
    arrive as an arbitrary byte has a constructor [Other] for the bytes without a
    name.  A [std::uint64_t] is a [Z]; additions that can leave the range are
    written with their wrap-around ([u64_add], [incr]), the checked ones as the code
    has them ([Checked]).  A [double] is an executable IEEE binary64 value
    ([Float64]).  An operation that leaves the state alone when it fails has type
    [State.t -> result State.t]; one that records its refusals returns the new state
    beside its answer.  Every definition of code is executable.  Clock readings
    ([monotonic_now_ns]) are arguments named [now].  Loops that are not structural
    carry a bound that is enough by construction: [trim_watermarks] takes as many
    rounds as the table has entries, [Memory.trim] and [evict_region] recurse on the
    queue they empty.  The coordinator's receive loop ([drain]) takes as much fuel as
    the buffer has bytes, plus one; every frame takes at least one byte off it, and
    [serve_total] proves that the fuel suffices.  The section loop of the state file
    ([parse_sections]) takes one round per byte, which [parse_sections_rounds] shows
    to be enough.  The burst loop of the invalidation
    analyzer runs past the end of its data under a negative window; it is given one
    round per timestamp and has no result ([None]) beyond that, and so have the
    analyses and handlers that call it.  Sockets are what crosses them: lists of
    received chunks and of sent frames.

    ** Files

    - [Prelude]: record update, machine integers, ordered iteration over maps,
      bounded queues.
    - [Errors]: [error.hpp], [limits.hpp]: error codes, results, limits.
    - [Checked], [TextUtil], [Ids], [Float64]: [checked.hpp], [text_util.cpp],
      [ids.cpp] and binary64 arithmetic.
    - [Taxonomy]: the enumerations with their byte codes and names (one class
      [NamedEnum] with its laws), precision, reality, granularity and locality.
    - [Cost]: [cost.cpp] and [estimate_cost].
    - [Records]: the registered entities, opaque handles, loss report.
    - [Observation]: [observation.cpp]: metadata, content hash, validation.
    - [Aggregate]: [aggregate.cpp]: contributions, buckets, store.
    - [Sequence]: the per-publisher replay window of [observatory.cpp].
    - [State]: [detail/state.hpp] and [apply_observation] of [state.cpp].
    - [Attribution]: [attribution.cpp]: the stages of [attribute_observation] in a
      monad with early return, and [attribute_region_state].
    - [Registry], [Publishers], [Ingest], [Counters], [Reconcile]: the operations of
      [observatory.cpp], by group.
    - [Snapshot]: fingerprints and snapshots of [state.cpp].
    - [System]: the operations as one alphabet, runs and what holds along them.
      [load_state] is not in the alphabet: it replaces registries, watermarks and
      publishers, and [Persistence] treats it on its own.
    - [Policies], [Findings]: [findings.hpp] and the shared part of [analysis.cpp].
    - [PingPong], [FalseSharing], [Invalidations], [RemoteAccess], [Hotspots],
      [Analysis]: the analyzers of [analysis.cpp] and the queries of
      [observatory.cpp] that run them.
    - [Host]: [backend.cpp]: the sink and registrar interfaces, the in-process
      publication host and the runner of collectors; [Trace]: the text format of
      [backends/imported_trace.cpp]; [TraceRoundTrip]: what rendering and importing
      preserve.
    - [Synthetic]: presets, fault injection and the collector of
      [backends/synthetic.cpp]; [SyntheticRuns]: what it does to an observatory.
    - [Codec], [Protocol], [Transport]: payload fields, CRC-32, frames and message
      types of [protocol.cpp]; reassembly of frames in [transport.cpp].
    - [Wire], [WireResults], [WireSnapshot]: the records, results and snapshots of
      [wire.cpp].
    - [StateFile]: the state file of [persistence.cpp]: sections, envelope, parser;
      [StateRoundTrip]: what is written is staged again; [Persistence]: saving,
      loading and recovery, and what a restart preserves.
    - [Files]: bounded reading and atomic replacement of files in [platform.cpp], over
      a device that may fail at any call.  What is written passes through the buffer of
      a stream first ([fwrite], [fflush], [fclose]).
    - [Coordinator]: sessions, authorization, handlers and the service loop of
      [coordinator.cpp], and the server as a machine driven by events; [Lifecycle]:
      [start], [io_loop] and [stop], which load and save the state file.
    - [Client]: the publisher, query and administration clients of [client.cpp] over
      a network that is a parameter; [Sizes]: how many bytes each record takes on the
      wire; [Remote], [RemoteQuery], [RemoteAdmin]: the network made of the
      coordinator, and the calls of the clients over it.

    ** What the theorems show

    - _Every run_ ([System]): the global invariant holds in every state reachable by
      operations of the alphabet with any arguments; registered entities never
      disappear and generations never roll back; a retired region is never again
      charged exactly at its retired generation; a fenced boot is never registered
      again while the watermark table has room.
    - _Ingestion_ ([Ingest], [Counters], [Sequence]): nothing is accepted without
      authority; what is refused changes nothing but counts of refusals; what is
      accepted is journalled with the outcome reported; a retry to a publisher that
      was not resumed is a duplicate; batches account for every event; wrapping
      counters are tracked exactly across wrap-around, and samples within the
      declared width never yield negative or invented traffic.
    - _Attribution_ ([Attribution], [Cost]): the exact conditions for an exact
      attribution; results are bounded and never more precise than their evidence;
      cost figures carry honest labels.
    - _Aggregation_ ([Aggregate], [State]): the store refines a log of accepted
      contributions, and refuses one exactly when it is full and the key is new; every
      total is a saturating sum, and totals are conserved per dimension; reality and
      precision labels are honest; evidence memory is bounded.
    - _Registries and publishers_ ([Registry], [Publishers], [Reconcile]): what each
      operation does on every branch, supersession and reconciliation.
    - _Snapshots_ ([Snapshot]): lookups agree with the state, the reality label is
      honest, a refused observation keeps the fingerprint.
    - _Analyzers_: the hotspot pass finds exactly the buckets that meet a threshold,
      with the reasons they meet; ping-pong findings are backed by a window of linked
      transfers, and alternating runs are found where no run outlasts the window;
      false sharing claims no more than the evidence of its region resolves; bursts of
      invalidations are found per group, with the sizes reported; remote accesses are counted once; operational findings hold if and only if
      their condition does; sorting and cutting findings loses only the last ones.
    - _Wire_ ([Codec] to [WireSnapshot]): every codec round-trips within its bounds
      and refuses truncated and extended payloads; frame decoding accepts exactly
      the encodings of valid frames, and no single-byte corruption; frames that leave
      room for a chunk in the receive buffer survive any chunking of the stream; what
      a snapshot carries over the wire and what it leaves out.
    - _Coordinator_: every event history has a result, served states are states of
      [System] and satisfy its invariant, only administrators change structural state,
      and a lost connection fences the publisher its session registered last.
    - _Life and files_ ([Files], [Lifecycle]): the death of the process while the state
      file is replaced atomically leaves the old or the new one in full (a loss of
      power is not modelled: the code does not sync); stopping ends, closes every
      session and, with atomic replacement, saves exactly the final state or nothing,
      and the next start resumes from it.
    - _Persistence_ ([StateRoundTrip], [Persistence]): a saved state that fits the
      format and passes the load's checks is restored as it was with both epochs
      advanced; exactly which saved states load again; any single damaged byte is
      refused; a restart keeps the global invariant and rolls no registry back, and
      lets nothing that a live publisher without an older watermark had accepted be
      replayed (fences, and watermarks at a second restart, do roll back).
    - _Clients_ ([Remote], [RemoteQuery], [RemoteAdmin]): over a coordinator, however
      the two streams are cut into chunks, publishing is ingesting, a query is the
      query of the observatory up to what the format carries, and each of the ten
      administrative calls that change the observatory is the operation; when their
      payloads fit the wire the calls return, and leave both sides ready for the next
      one.
    - _Collectors and traces_ ([Host], [TraceRoundTrip]): a host on an observatory
      that does not know its publisher publishes without loss; a rendered trace of
      imported evidence is imported again event by event and, if valid, accepted whole;
      an import without a counter line of eleven fields does nothing but operations of
      [System], and so does the synthetic backend ([SyntheticRuns]), which stays within
      its budgets.
    - Some theorems exhibit behaviour that departs from the
      program's own comments or documentation: the replay window under late
      arrival, eviction of fenced watermarks, a refused registration that bars the
      live boot, a refused counter sample that consumes its sequence, a fingerprint
      that forgets the registries, unenforced evidence generations, an off-by-one
      range check, one-way transfers reported as alternating, evidence cut off with
      the rendered text, synthetic evidence labelled mixed, unidentified lines
      reported as a line, a burst loop that runs past its data, a receive bound that
      refuses pipelined frames, bucket keys too long for the wire, a second
      registration that escapes the fence, publishers that speak for others, a
      refused frame that takes effect, replays accepted after a second restart, late
      delivery lost after a restart, saved states that cannot be loaded, a trace line
      read past its end, imported evidence that claims to be real, collectors left
      running by a failed start, events without a sequence that collide, an
      observation epoch reported as a topology generation, and a plain save that
      reports success although its bytes were lost.

    ** What is not modelled

    Explanations (text rendering), the host telemetry backends, sockets, clocks
    and the command-line tools.
    What a coordinator's sockets deliver and when they are ready, and whether its
    listener opens, are arguments of [Lifecycle]; the outcome of saving is a
    parameter of the SAVE_STATE handler.  What the file system reports and returns is
    an argument of [save_state] and [load_state].  [fence_publisher], [fence_all_publishers]
    and [ingest_batch] release the mutex between their parts and are modelled for a
    caller without interference; the parts are operations of [System] of their own.
    A client is alone with the coordinator while its call is under way; calls of
    several clients interleave between calls, as requests do in the I/O thread. *)

From stdpp Require Export base gmap sets list strings pretty sorting.
From Stdlib Require Export ZArith Lia.

#[global] Open Scope Z_scope.
#[global] Set Warnings "-notation-overridden".

(** ** Record update

    [r <| p := v |>] is the C++ assignment [r.p = v;] on a value: a copy of
    [r] whose field [p] holds [v].  [r <| p ::= f |>] applies [f] to the
    field's old value.  The update function of a projection is found from the
    record's eta expansion, which every record type declares once as an
    instance of [Eta]. *)

Class Eta (R : Type) := eta_expand : R → R.
Class Update {R E : Type} (p : R → E) := update_field : (E → E) → R → R.

Ltac solve_update R E p :=
  let inst := constr:(_ : Eta R) in
  let e := eval hnf in inst in
  let f := fresh "f" in
  let r := fresh "r" in
  intros f r;
  let b := eval cbv beta in (e r) in
  let g := eval pattern (p r) in b in
  lazymatch g with
  | ?h _ => let b' := eval cbv beta in (h (f (p r))) in exact b'
  end.

#[global] Hint Extern 1 (@Update ?R ?E ?p) => solve_update R E p : typeclass_instances.

Declare Scope record_scope.
Delimit Scope record_scope with record.
#[global] Open Scope record_scope.
Notation "r <| p := v |>" := (update_field (p := p) (fun _ => v) r)
  (at level 1, left associativity, p at next level, v at level 99) : record_scope.
Notation "r <| p ::= f |>" := (update_field (p := p) f r)
  (at level 1, left associativity, p at next level, f at level 99) : record_scope.

(** ** Machine integers

    A [std::uint64_t] is a [Z] in [0, 2^64); arithmetic that can leave the
    range is written with its wrap-around.  [std::int64_t] values are plain [Z];
    a [static_cast] to an unsigned type is [wrap64]. *)

Definition two64 : Z := 18446744073709551616.
Definition u64_max : Z := 18446744073709551615.
Definition wrap64 (x : Z) : Z := x mod two64.
Definition in_u64 (x : Z) : Prop := 0 ≤ x ≤ u64_max.

Definition u64_add (a b : Z) : Z := wrap64 (a + b).
Definition u64_sub (a b : Z) : Z := wrap64 (a - b).
Definition u64_mul (a b : Z) : Z := wrap64 (a * b).

(** [++counter] on a 64-bit counter. *)
Definition incr (n : Z) : Z := u64_add n 1.

Lemma wrap64_range x : in_u64 (wrap64 x).
Proof. unfold in_u64, wrap64, u64_max, two64. pose proof (Z.mod_pos_bound x 18446744073709551616). lia. Qed.

Lemma wrap64_small x : in_u64 x → wrap64 x = x.
Proof. unfold in_u64, wrap64, u64_max, two64. intros. apply Z.mod_small. lia. Qed.

Lemma u64_add_range a b : in_u64 (u64_add a b).
Proof. apply wrap64_range. Qed.

Lemma u64_add_small a b : in_u64 (a + b) → u64_add a b = a + b.
Proof. apply wrap64_small. Qed.

(** ** Sizes

    Container and string sizes as the integers the bounds are stated in. *)

Definition zlen {A} (l : list A) : Z := Z.of_nat (length l).
Definition slen (s : string) : Z := Z.of_nat (String.length s).
Definition zsize {K V} `{Countable K} (m : gmap K V) : Z := Z.of_nat (size m).

Definition sempty (s : string) : bool :=
  match s with EmptyString => true | _ => false end.

Lemma sempty_spec s : sempty s = true ↔ s = "".
Proof. destruct s; split; naive_solver. Qed.

Lemma zlen_nonneg {A} (l : list A) : 0 ≤ zlen l.
Proof. unfold zlen. lia. Qed.

Lemma zlen_app {A} (l k : list A) : zlen (l ++ k) = zlen l + zlen k.
Proof. unfold zlen. rewrite length_app. lia. Qed.

Lemma zlen_cons {A} (x : A) l : zlen (x :: l) = 1 + zlen l.
Proof. unfold zlen. simpl. lia. Qed.

Lemma zlen_nil {A} : zlen ([] : list A) = 0.
Proof. done. Qed.

Lemma zlen_snoc {A} (l : list A) x : zlen (l ++ [x]) = 1 + zlen l.
Proof. rewrite zlen_app, zlen_cons, zlen_nil. lia. Qed.

Lemma zsize_nonneg {K V} `{Countable K} (m : gmap K V) : 0 ≤ zsize m.
Proof. unfold zsize. lia. Qed.

Lemma zsize_insert_None {K V} `{Countable K} (m : gmap K V) k v :
  m !! k = None → zsize (<[k:=v]> m) = 1 + zsize m.
Proof. intros. unfold zsize. rewrite map_size_insert_None by done. lia. Qed.

Lemma zsize_insert_Some {K V} `{Countable K} (m : gmap K V) k v w :
  m !! k = Some w → zsize (<[k:=v]> m) = zsize m.
Proof. intros. unfold zsize. rewrite map_size_insert_Some by eauto. done. Qed.

Lemma zsize_insert_le {K V} `{Countable K} (m : gmap K V) k v :
  zsize (<[k:=v]> m) ≤ 1 + zsize m.
Proof.
  destruct (m !! k) eqn:E.
  - rewrite (zsize_insert_Some _ _ _ _ E). lia.
  - rewrite (zsize_insert_None _ _ _ E). lia.
Qed.

Lemma zsize_delete_Some {K V} `{Countable K} (m : gmap K V) k v :
  m !! k = Some v → zsize (delete k m) = zsize m - 1.
Proof.
  intros E. rewrite <-(insert_delete_id m k v E) at 2.
  rewrite zsize_insert_None by apply lookup_delete_eq. lia.
Qed.

(** ** Stable sorting

    [std::stable_sort] with the comparator [a < b]: elements that compare equal
    keep their order.  [R a b] is "not (b < a)". *)

Section stable_sort.
Context {A : Type} (R : A → A → Prop) `{!∀ a b, Decision (R a b)}.

Fixpoint insert_stable (x : A) (l : list A) : list A :=
  match l with
  | [] => [x]
  | y :: rest => if decide (R x y) then x :: y :: rest else y :: insert_stable x rest
  end.
Definition stable_sort (l : list A) : list A := foldr insert_stable [] l.

Lemma insert_stable_perm x l : insert_stable x l ≡ₚ x :: l.
Proof.
  induction l as [|y l IH]; simpl; [done|]. case_decide; [done|].
  rewrite IH. apply Permutation_swap.
Qed.

Lemma stable_sort_perm l : stable_sort l ≡ₚ l.
Proof. induction l as [|x l IH]; simpl; [done|]. by rewrite insert_stable_perm, IH. Qed.

Lemma stable_sort_length l : length (stable_sort l) = length l.
Proof. by rewrite stable_sort_perm. Qed.

Lemma stable_sort_sorted `{!Total R, !Transitive R} l : StronglySorted R (stable_sort l).
Proof.
  induction l as [|x l IH]; simpl; [constructor|].
  induction IH as [|y k Hk IHk Hy]; simpl; [by repeat constructor|].
  case_decide as Hxy.
  - constructor; [by constructor|]. constructor; [done|].
    eapply Forall_impl; [exact Hy|]. intros z Hz. by transitivity y.
  - constructor; [done|]. rewrite insert_stable_perm. constructor; [|done].
    by destruct (total R x y).
Qed.

(** Stability: the elements of a class of equals come out in their order. *)
Lemma stable_sort_stable (P : A → Prop) `{!∀ a, Decision (P a)} l :
  (∀ a b, P a → P b → R a b) → filter P (stable_sort l) = filter P l.
Proof.
  intros HP. induction l as [|x l IH]; simpl; [done|].
  enough (∀ k, filter P (insert_stable x k) = filter P (x :: k)) as ->.
  { rewrite !filter_cons. by rewrite IH. }
  clear l IH. induction k as [|y k IH]; simpl; [done|]. case_decide as Hxy; [done|].
  rewrite !filter_cons, IH, filter_cons.
  destruct (decide (P x)), (decide (P y)); try done. exfalso. naive_solver.
Qed.
End stable_sort.

(** ** Ordered iteration

    [std::map] iterates in key order, and [begin()] is the smallest key.  A map
    is a [gmap] (its lookups and updates) and [entries] is its iteration
    order.  [KeyOrder] states what the iteration relies on: a total order on
    the keys. *)

Class KeyOrder (K : Type) := {
  key_leb : K → K → bool;
  key_leb_total : ∀ a b, key_leb a b = true ∨ key_leb b a = true;
  key_leb_trans : ∀ a b c, key_leb a b = true → key_leb b c = true → key_leb a c = true;
  key_leb_antisym : ∀ a b, key_leb a b = true → key_leb b a = true → a = b;
}.

Definition key_le {K} `{KeyOrder K} (a b : K) : Prop := key_leb a b = true.
Definition entry_le {K V} `{KeyOrder K} (a b : K * V) : Prop := key_le a.1 b.1.
#[global] Instance key_le_dec {K} `{KeyOrder K} (a b : K) : Decision (key_le a b).
Proof. unfold key_le. apply _. Defined.
#[global] Instance entry_le_dec {K V} `{KeyOrder K} (a b : K * V) : Decision (entry_le a b).
Proof. unfold entry_le. apply _. Defined.

Section entries.
Context {K V : Type} `{Countable K} `{KeyOrder K}.
Implicit Types m : gmap K V.

Definition entries m : list (K * V) := merge_sort entry_le (map_to_list m).

Lemma entries_perm m : entries m ≡ₚ map_to_list m.
Proof. apply merge_sort_Permutation. Qed.

Lemma elem_of_entries m k v : (k, v) ∈ entries m ↔ m !! k = Some v.
Proof. rewrite entries_perm. apply elem_of_map_to_list. Qed.

Lemma entries_length m : zlen (entries m) = zsize m.
Proof. unfold zlen. rewrite entries_perm, length_map_to_list. done. Qed.

Lemma NoDup_entries m : NoDup (entries m).*1.
Proof. rewrite entries_perm. apply NoDup_fst_map_to_list. Qed.

#[global] Instance entry_le_total : Total (@entry_le K V _).
Proof. intros a b. apply key_leb_total. Qed.
#[global] Instance entry_le_trans : Transitive (@entry_le K V _).
Proof. intros a b c. apply key_leb_trans. Qed.

Lemma entries_sorted m : StronglySorted entry_le (entries m).
Proof. apply StronglySorted_merge_sort; apply _. Qed.

(** [m.erase(m.begin())]: drop the smallest key. *)
Definition erase_begin m : gmap K V :=
  match entries m with
  | [] => m
  | (k, _) :: _ => delete k m
  end.

Lemma zsize_erase_begin m : 0 < zsize m → zsize (erase_begin m) = zsize m - 1.
Proof.
  intros Hpos. unfold erase_begin. destruct (entries m) as [|[k v] l] eqn:E.
  - rewrite <-entries_length, E in Hpos. done.
  - apply zsize_delete_Some with v. apply elem_of_entries. rewrite E. left.
Qed.

Lemma erase_begin_subset m k v : erase_begin m !! k = Some v → m !! k = Some v.
Proof.
  unfold erase_begin. destruct (entries m) as [|[k' v'] l]; [done|].
  rewrite lookup_delete_Some. tauto.
Qed.
End entries.

(** Mapping over the values keeps the order of the keys. *)
Lemma entries_fmap {K V W} `{Countable K} `{KeyOrder K} (g : V → W) (m : gmap K V) :
  entries (g <$> m) = (λ e, (e.1, g e.2)) <$> entries m.
Proof.
  apply (StronglySorted_unique_strong entry_le).
  - intros [k v] [k' v'] Hin Hin' H1 H2. unfold entry_le, key_le in *. cbn in *.
    assert (k = k') as <- by (by apply key_leb_antisym). f_equal.
    apply list_elem_of_fmap in Hin' as ([k2 v2] & [= <- ->] & Hin').
    apply elem_of_entries in Hin, Hin'. rewrite lookup_fmap, Hin' in Hin. by injection Hin as ->.
  - apply entries_sorted.
  - pose proof (entries_sorted m) as Hs. induction Hs as [|e l _ IH Hall]; cbn; constructor; [done|].
    apply Forall_fmap. eapply Forall_impl; [exact Hall|]. done.
  - rewrite !entries_perm, map_to_list_fmap. apply reflexive_eq, list_fmap_ext. by intros ? [].
Qed.

(** The first value of a table with a given name, when values carry their key. *)
Lemma find_entries {K V W} `{Countable K} `{KeyOrder K} (g : V → W) (name : W → K)
    (find : K → list W → option W) (m : gmap K V) k :
  (∀ k, find k [] = None) →
  (∀ k w l, find k (w :: l) = if decide (name w = k) then Some w else find k l) →
  map_Forall (λ k v, name (g v) = k) m →
  find k ((λ e, g e.2) <$> entries m) = g <$> m !! k.
Proof.
  intros Hnil Hcons Hk.
  assert (Hin : ∀ k v, (k, v) ∈ entries m → name (g v) = k)
    by (intros k' v Hin%elem_of_entries; by apply Hk).
  assert (Hfind : ∀ l, (∀ k v, (k, v) ∈ l → name (g v) = k) → NoDup l.*1 →
    match find k ((λ e, g e.2) <$> l) with
    | Some w => ∃ v, (k, v) ∈ l ∧ w = g v
    | None => k ∉ l.*1
    end).
  { induction l as [|[k' v] l IH]; intros Hl Hnd; cbn [fmap list_fmap].
    - rewrite Hnil. apply not_elem_of_nil.
    - rewrite Hcons. cbn. rewrite (Hl k' v) by left. case_decide as E.
      + subst k'. exists v. split; [left|done].
      + apply NoDup_cons in Hnd as [_ Hnd]. specialize (IH (λ k v Hv, Hl k v (list_elem_of_further _ _ _ Hv)) Hnd).
        destruct (find k _) as [w|].
        * destruct IH as (v' & Hv & ->). exists v'. split; [by right|done].
        * rewrite not_elem_of_cons. done. }
  specialize (Hfind (entries m) Hin (NoDup_entries m)).
  destruct (find k _) as [w|].
  - destruct Hfind as (v & Hv%elem_of_entries & ->). by rewrite Hv.
  - destruct (m !! k) as [v|] eqn:E; [|done]. destruct Hfind.
    apply list_elem_of_fmap. exists (k, v). split; [done|]. by apply elem_of_entries.
Qed.

(** Keys of the program's maps: byte strings in [memcmp] order, integers. *)

Lemma string_leb_trans a b c :
  String.leb a b = true → String.leb b c = true → String.leb a c = true.
Proof.
  unfold String.leb. revert b c. induction a as [|x a IH]; intros [|y b] [|z c]; simpl; try done.
  unfold Ascii.compare.
  destruct (N.compare_spec (Ascii.N_of_ascii x) (Ascii.N_of_ascii y)),
    (N.compare_spec (Ascii.N_of_ascii y) (Ascii.N_of_ascii z)),
    (N.compare_spec (Ascii.N_of_ascii x) (Ascii.N_of_ascii z)); try done; try lia.
  apply IH.
Qed.

#[global] Instance string_order : KeyOrder string := {|
  key_leb := String.leb;
  key_leb_total := String.leb_total;
  key_leb_trans := string_leb_trans;
  key_leb_antisym := String.leb_antisym;
|}.

#[global] Program Instance Z_order : KeyOrder Z := {| key_leb := Z.leb |}.
Next Obligation. intros. lia. Qed.
Next Obligation. intros. lia. Qed.
Next Obligation. intros. lia. Qed.

(** ** Bounded queues

    The program's bounded buffers drop their oldest element when full and then
    append. *)

Definition fifo_push {A} (cap : Z) (x : A) (l : list A) : list A :=
  (if cap <=? zlen l then tail l else l) ++ [x].

Lemma fifo_push_bound {A} cap (x : A) l :
  0 < cap → zlen l ≤ cap → zlen (fifo_push cap x l) ≤ cap.
Proof.
  intros. unfold fifo_push. rewrite zlen_app, zlen_cons, zlen_nil.
  destruct (Z.leb_spec cap (zlen l)); [|lia].
  destruct l as [|y l]; rewrite ?zlen_cons in *; simpl; rewrite ?zlen_nil in *; lia.
Qed.

Lemma fifo_push_last {A} cap (x : A) l : last (fifo_push cap x l) = Some x.
Proof. apply last_snoc. Qed.

Lemma fifo_push_elem {A} cap (x y : A) l : y ∈ fifo_push cap x l → y = x ∨ y ∈ l.
Proof.
  unfold fifo_push. rewrite elem_of_app, list_elem_of_singleton.
  destruct (cap <=? zlen l); [|tauto]. destruct l; simpl; [tauto|].
  rewrite elem_of_cons. tauto.
Qed.

(** ** Automation *)

(** Case analysis on the scrutinee of a [match] or [if] of the goal or a
    hypothesis, keeping the equation. *)
Ltac break_goal :=
  match goal with
  | |- context [match ?x with _ => _ end] =>
      lazymatch x with
      | context [match _ with _ => _ end] => fail
      | _ => destruct x eqn:?
      end
  end.
Ltac break_in H :=
  match type of H with
  | context [match ?x with _ => _ end] =>
      lazymatch x with
      | context [match _ with _ => _ end] => fail
      | _ => destruct x eqn:?
      end
  end.

Create HintDb obs discriminated.
#[export] Hint Resolve wrap64_range u64_add_range zlen_nonneg zsize_nonneg : obs.
