(* ===== verification/Errors.v ===== *)
(** * Errors and results

    [include/coherence/error.hpp], [src/error.cpp] and the bounds of
    [include/coherence/limits.hpp].  Every fallible operation of the program
    returns a [Status] or a [Result<T>]; both are [result] here, a [Status]
    being a [result unit]. *)

From S2P Require Import Prelude.

(** ** Error codes *)

Module ErrorCode.
Inductive t :=
  | Ok
  | InvalidArgument | OutOfRange | TooLarge | TooMany | NotFound | AlreadyExists
  | Conflict | Capacity | Overflow | Saturated | Busy | Shutdown | IoError | Internal
  | Unauthorized | StaleEpoch | StaleBoot | StaleGeneration | StaleSequence
  | RetiredEntity | UnsupportedCapability | PrecisionInsufficient | Duplicate
  | InvalidMagic | UnsupportedVersion | UnknownMessageType | InvalidFlags | Truncated
  | IntegrityFailure | ProtocolError | TrailingBytes | ConnectionClosed
  | CorruptState | UnsupportedStateVersion | EmptyState.

#[global] Instance t_eq_dec : EqDecision t.
Proof. solve_decision. Defined.

(** The numeric value on the wire ([enum class ErrorCode : std::uint16_t]). *)
Definition code (c : t) : Z :=
  match c with
  | Ok => 0
  | InvalidArgument => 1 | OutOfRange => 2 | TooLarge => 3 | TooMany => 4
  | NotFound => 5 | AlreadyExists => 6 | Conflict => 7 | Capacity => 8
  | Overflow => 9 | Saturated => 10 | Busy => 11 | Shutdown => 12
  | IoError => 13 | Internal => 14
  | Unauthorized => 15 | StaleEpoch => 16 | StaleBoot => 17 | StaleGeneration => 18
  | StaleSequence => 19 | RetiredEntity => 20 | UnsupportedCapability => 21
  | PrecisionInsufficient => 22 | Duplicate => 23
  | InvalidMagic => 30 | UnsupportedVersion => 31 | UnknownMessageType => 32
  | InvalidFlags => 33 | Truncated => 34 | IntegrityFailure => 35
  | ProtocolError => 36 | TrailingBytes => 37 | ConnectionClosed => 38
  | CorruptState => 50 | UnsupportedStateVersion => 51 | EmptyState => 52
  end.

Definition to_string (c : t) : string :=
  match c with
  | Ok => "Ok"
  | InvalidArgument => "InvalidArgument"
  | OutOfRange => "OutOfRange"
  | TooLarge => "TooLarge"
  | TooMany => "TooMany"
  | NotFound => "NotFound"
  | AlreadyExists => "AlreadyExists"
  | Conflict => "Conflict"
  | Capacity => "Capacity"
  | Overflow => "Overflow"
  | Saturated => "Saturated"
  | Busy => "Busy"
  | Shutdown => "Shutdown"
  | IoError => "IoError"
  | Internal => "Internal"
  | Unauthorized => "Unauthorized"
  | StaleEpoch => "StaleEpoch"
  | StaleBoot => "StaleBoot"
  | StaleGeneration => "StaleGeneration"
  | StaleSequence => "StaleSequence"
  | RetiredEntity => "RetiredEntity"
  | UnsupportedCapability => "UnsupportedCapability"
  | PrecisionInsufficient => "PrecisionInsufficient"
  | Duplicate => "Duplicate"
  | InvalidMagic => "InvalidMagic"
  | UnsupportedVersion => "UnsupportedVersion"
  | UnknownMessageType => "UnknownMessageType"
  | InvalidFlags => "InvalidFlags"
  | Truncated => "Truncated"
  | IntegrityFailure => "IntegrityFailure"
  | ProtocolError => "ProtocolError"
  | TrailingBytes => "TrailingBytes"
  | ConnectionClosed => "ConnectionClosed"
  | CorruptState => "CorruptState"
  | UnsupportedStateVersion => "UnsupportedStateVersion"
  | EmptyState => "EmptyState"
  end.
End ErrorCode.

(** ** Error values *)

Module Error.
Record t := mk { code : ErrorCode.t; message : string; context : string }.

#[global] Instance t_eq_dec : EqDecision t.
Proof. solve_decision. Defined.

(** "code: message [context]", without the empty parts. *)
Definition describe (e : t) : string :=
  (ErrorCode.to_string (code e)
   +:+ (if sempty (message e) then "" else ": " +:+ message e)
   +:+ (if sempty (context e) then "" else " [" +:+ context e +:+ "]"))%string.
End Error.

(** ** Results *)

Inductive result (A : Type) : Type :=
  | Ok (a : A)
  | Err (e : Error.t).
Arguments Ok {A} _.
Arguments Err {A} _.

#[global] Instance result_ret : MRet result := fun A a => Ok a.
#[global] Instance result_bind : MBind result := fun A B f r =>
  match r with Ok a => f a | Err e => Err e end.

Definition is_ok {A} (r : result A) : bool :=
  match r with Ok _ => true | Err _ => false end.
(** [Result::code()]: [Ok] on success, the error's code otherwise. *)
Definition code_of {A} (r : result A) : ErrorCode.t :=
  match r with Ok _ => ErrorCode.Ok | Err e => Error.code e end.

(** [fail(code, message)] and [fail(code, message, context)]. *)
Definition fail {A} (c : ErrorCode.t) (message : string) : result A :=
  Err (Error.mk c message "").
Definition fail_ctx {A} (c : ErrorCode.t) (message context : string) : result A :=
  Err (Error.mk c message context).
Definition ok_status : result unit := Ok tt.

(** A guard [if (b) return fail(code, message);] in front of the rest. *)
Definition reject_if (b : bool) (c : ErrorCode.t) (message : string) : result unit :=
  if b then fail c message else Ok tt.
Definition reject_if_ctx (b : bool) (c : ErrorCode.t) (message context : string) : result unit :=
  if b then fail_ctx c message context else Ok tt.

(** An optional check: [if (x.has_value()) { s = check( *x ); if (!s.ok()) return s; }]. *)
Definition on_some {A} (o : option A) (check : A → result unit) : result unit :=
  match o with Some a => check a | None => Ok tt end.

(** Rewrites the message of a failed check, keeping its code; the old message
    becomes the context ([Status(Error(s.code(), what, s.error().message()))]). *)
Definition relabel (what : string) (r : result unit) : result unit :=
  match r with
  | Ok u => Ok u
  | Err e => Err (Error.mk (Error.code e) what (Error.message e))
  end.

Section result_lemmas.
Context {A B : Type}.

Lemma bind_Ok (r : result A) (f : A → result B) b :
  r ≫= f = Ok b ↔ ∃ a, r = Ok a ∧ f a = Ok b.
Proof. destruct r; split; naive_solver. Qed.

Lemma bind_Err (r : result A) (f : A → result B) e :
  r ≫= f = Err e ↔ r = Err e ∨ ∃ a, r = Ok a ∧ f a = Err e.
Proof. destruct r; split; naive_solver. Qed.
End result_lemmas.

Lemma seq_Ok {B} (r : result unit) (k : result B) b :
  (r ;; k) = Ok b ↔ r = Ok tt ∧ k = Ok b.
Proof. destruct r as [[]|]; split; naive_solver. Qed.

Lemma reject_if_Ok b c m u : reject_if b c m = Ok u ↔ b = false.
Proof. destruct b, u; split; naive_solver. Qed.

Lemma reject_if_ctx_Ok b c m x u : reject_if_ctx b c m x = Ok u ↔ b = false.
Proof. destruct b, u; split; naive_solver. Qed.

Lemma relabel_Ok w r u : relabel w r = Ok u ↔ r = Ok u.
Proof. destruct r; split; naive_solver. Qed.

Lemma on_some_Ok {A} (o : option A) f u :
  on_some o f = Ok u ↔ ∀ a, o = Some a → f a = Ok u.
Proof. destruct o, u; split; naive_solver. Qed.

(** Splits a successful chain of checks into one fact per check. *)
Ltac inv_checks :=
  repeat match goal with
  | H : (_ ;; _) = Ok _ |- _ => apply seq_Ok in H as [? H]
  | H : mbind _ _ = Ok _ |- _ => apply bind_Ok in H as (? & ? & H)
  | H : reject_if _ _ _ = Ok _ |- _ => apply reject_if_Ok in H
  | H : reject_if_ctx _ _ _ _ = Ok _ |- _ => apply reject_if_ctx_Ok in H
  | H : relabel _ _ = Ok _ |- _ => apply relabel_Ok in H
  | H : fail _ _ = Ok _ |- _ => discriminate H
  | H : fail_ctx _ _ _ = Ok _ |- _ => discriminate H
  | H : Err _ = Ok _ |- _ => discriminate H
  | H : Ok _ = Ok _ |- _ => injection H as H; subst
  end.

(** ** Limits

    [struct Limits] of [include/coherence/limits.hpp]. *)

Module Limits.
Definition kMaxNameLength : Z := 64.
Definition kMaxPublisherCount : Z := 256.
Definition kMaxNodeCount : Z := 64.
Definition kMaxProcessorCount : Z := 1024.
Definition kMaxAcceleratorCount : Z := 256.
Definition kMaxMemoryDomainCount : Z := 256.
Definition kMaxCoherenceDomainCount : Z := 256.
Definition kMaxRegionCount : Z := 100000.
Definition kMaxRegionAnnotationLength : Z := 96.
Definition kMaxTopologyLinkCount : Z := 4096.
Definition kMaxBatchEvents : Z := 1024.
Definition kMaxMetadataEntries : Z := 8.
Definition kMaxMetadataKeyLength : Z := 48.
Definition kMaxMetadataValueLength : Z := 160.
Definition kMaxPendingIngestion : Z := 16384.
Definition kMaxSequenceWindow : Z := 4096.
Definition kMaxRecentEventIds : Z := 4096.
Definition kMaxAggregateKeys : Z := 65536.
Definition kMaxFindings : Z := 4096.
Definition kMaxQueryResults : Z := 4096.
Definition kMaxAttributionCandidates : Z := 16.
Definition kMaxExplanationLines : Z := 512.
Definition kMaxEvidenceRefs : Z := 32.
Definition kMaxAttributionTargets : Z := 16.
Definition kMaxObservationJournal : Z := 16384.
Definition kMaxTrackedRegions : Z := 8192.
Definition kMaxRegionSamples : Z := 256.
Definition kMaxCounterRecords : Z := 4096.
Definition kMaxThreads : Z := 8.
Definition kMaxHistoryRecords : Z := 8192.               (* 1 << 13 *)
Definition kMaxHistoryAggregates : Z := 4096.
Definition kMaxPublisherWatermarks : Z := 256.
Definition kMaxPersistenceBytes : Z := 268435456.       (* 256 << 20 *)
Definition kStateVersion : Z := 1.
Definition kStateHeaderSize : Z := 64.
Definition kStateSectionHeaderSize : Z := 16.
Definition kStateTrailerSize : Z := 16.
Definition kFrameHeaderSize : Z := 32.
Definition kFrameTrailerSize : Z := 4.
Definition kMaxFramePayload : Z := 1048576.             (* 1 << 20 *)
Definition kMaxByteCount : Z := 281474976710656.        (* 1 << 48 *)
Definition kMaxLineCount : Z := 1099511627776.          (* 1 << 40 *)
Definition kMaxCounterWidth : Z := 64.
Definition kMaxTimestampNs : Z := 4611686018427387904.  (* 1 << 62 *)
Definition kMaxMeasuredDurationNs : Z := 4398046511104. (* 1 << 42 *)
End Limits.
