(* ===== verification/Checked.v ===== *)
(** * Checked arithmetic

    [include/coherence/checked.hpp]: saturating accumulation with an explicit
    overflow flag.  The functions only use operations that stay inside the
    64-bit range, as the C++ does, so no wrap-around appears in them. *)

From S2P Require Import Prelude.

Module AddResult.
Record t := mk { value : Z; overflowed : bool }.
End AddResult.

Definition checked_add (a b : Z) : AddResult.t :=
  if u64_max - b <? a then AddResult.mk u64_max true
  else AddResult.mk (a + b) false.

Definition checked_add_capped (a b cap : Z) : AddResult.t :=
  let r := checked_add a b in
  if negb (AddResult.overflowed r) && (cap <? AddResult.value r)
  then AddResult.mk cap true
  else r.

Definition add_fits (a b : Z) : bool := a <=? u64_max - b.

Definition checked_mul (a b : Z) : AddResult.t :=
  if (a =? 0) || (b =? 0) then AddResult.mk 0 false
  else if u64_max / b <? a then AddResult.mk u64_max true
  else AddResult.mk (a * b) false.

(** The saturated sum, used to state what accumulators hold. *)
Definition sat_add (a b : Z) : Z := Z.min u64_max (a + b).

Lemma checked_add_value a b : AddResult.value (checked_add a b) = sat_add a b.
Proof. unfold checked_add, sat_add. destruct (Z.ltb_spec (u64_max - b) a); simpl; lia. Qed.

Lemma checked_add_overflowed a b :
  AddResult.overflowed (checked_add a b) = (u64_max <? a + b).
Proof.
  unfold checked_add.
  destruct (Z.ltb_spec (u64_max - b) a), (Z.ltb_spec u64_max (a + b)); simpl; lia || done.
Qed.

Lemma sat_add_range a b : in_u64 a → in_u64 b → in_u64 (sat_add a b).
Proof. unfold in_u64, sat_add, u64_max. lia. Qed.

Lemma sat_add_exact a b : a + b ≤ u64_max → sat_add a b = a + b.
Proof. unfold sat_add. lia. Qed.

Lemma sat_add_0_r a : a ≤ u64_max → sat_add a 0 = a.
Proof. unfold sat_add. lia. Qed.

Lemma checked_mul_value a b :
  in_u64 a → in_u64 b → AddResult.value (checked_mul a b) = Z.min u64_max (a * b).
Proof.
  unfold in_u64, checked_mul. intros Ha Hb.
  destruct (Z.eqb_spec a 0) as [->|]; simpl; [unfold u64_max; lia|].
  destruct (Z.eqb_spec b 0) as [->|]; simpl; [unfold u64_max; lia|].
  destruct (Z.ltb_spec (u64_max / b) a) as [Hlt|Hge]; simpl.
  - apply Z.div_lt_upper_bound in Hlt || idtac.
    assert (u64_max < a * b); [|lia].
    pose proof (Z.mul_succ_div_gt u64_max b). nia.
  - assert (a * b ≤ u64_max); [|lia].
    pose proof (Z.mul_div_le u64_max b). nia.
Qed.

Create Rewrite HintDb checked.
#[export] Hint Rewrite checked_add_value checked_add_overflowed : checked.
#[export] Hint Resolve sat_add_range : obs.
