(* ===== verification/TextUtil.v ===== *)
(** * Text helpers and hashing

    [src/text_util.cpp]: ASCII case folding, joining, decimal formatting,
    truncation and the FNV-1a hash that identifies content.  Strings are byte
    strings; a byte's value is [byte_of]. *)

From S2P Require Import Prelude.
From Stdlib Require Import Ascii.

Definition byte_of (c : ascii) : Z := Z.of_N (N_of_ascii c).

(** ** Case folding *)

(** [if (c >= 'a' && c <= 'z') c = c - 'a' + 'A';] *)
Definition upper_char (c : ascii) : ascii :=
  let n := N_of_ascii c in
  if ((97 <=? n)%N && (n <=? 122)%N)%bool then ascii_of_N (n - 97 + 65) else c.

Fixpoint to_upper (s : string) : string :=
  match s with
  | EmptyString => EmptyString
  | String c s' => String (upper_char c) (to_upper s')
  end.

Fixpoint iequals_from (a b : string) : bool :=
  match a, b with
  | String ca a', String cb b' =>
      if decide (upper_char ca = upper_char cb) then iequals_from a' b' else false
  | _, _ => true
  end.

(** Sizes are compared first; then the loop runs over both strings. *)
Definition iequals (a b : string) : bool :=
  if negb (slen a =? slen b) then false else iequals_from a b.

Lemma iequals_from_spec a b :
  String.length a = String.length b →
  iequals_from a b = true ↔ to_upper a = to_upper b.
Proof.
  revert b. induction a as [|x a IH]; intros [|y b] Hl; simpl in *; try done.
  injection Hl as Hl. case_decide as Hc.
  - rewrite IH by done. rewrite Hc. split; [by intros ->|]. by intros [=].
  - split; [done|]. by intros [=].
Qed.

Lemma to_upper_length s : String.length (to_upper s) = String.length s.
Proof. induction s; simpl; congruence. Qed.

(** Case-insensitive equality is equality of the upper-cased copies. *)
Lemma iequals_spec a b : iequals a b = true ↔ to_upper a = to_upper b.
Proof.
  unfold iequals, slen. destruct (Z.eqb_spec (Z.of_nat (String.length a)) (Z.of_nat (String.length b))) as [E|E]; simpl.
  - apply iequals_from_spec. lia.
  - split; [done|]. intros H. apply (f_equal String.length) in H.
    rewrite !to_upper_length in H. lia.
Qed.

Lemma iequals_refl a : iequals a a = true.
Proof. by apply iequals_spec. Qed.

(** ** Joining and truncation *)

Fixpoint join (parts : list string) (separator : string) : string :=
  match parts with
  | [] => ""
  | [p] => p
  | p :: rest => (p +:+ separator +:+ join rest separator)%string
  end.

Definition truncate (text : string) (max_length : Z) : string :=
  if slen text <=? max_length then text
  else if max_length <=? 3 then String.substring 0 (Z.to_nat max_length) text
  else (String.substring 0 (Z.to_nat (max_length - 3)) text +:+ "...")%string.

Lemma slen_app a b : slen (a +:+ b) = slen a + slen b.
Proof.
  unfold slen. induction a as [|c a IH]; [done|].
  change (String c a +:+ b) with (String c (a +:+ b)). simpl String.length. lia.
Qed.

Lemma substring_length n s : (n ≤ String.length s)%nat → String.length (String.substring 0 n s) = n.
Proof.
  revert s. induction n as [|n IH]; intros [|c s] H; simpl in *; try lia.
  rewrite IH; lia.
Qed.

Lemma truncate_length text n : 0 ≤ n → slen (truncate text n) ≤ n.
Proof.
  intros Hn. unfold truncate. destruct (Z.leb_spec (slen text) n); [done|].
  destruct (Z.leb_spec n 3); rewrite ?slen_app; unfold slen in *;
    rewrite substring_length by lia; simpl; lia.
Qed.

Lemma truncate_short text n : slen text ≤ n → truncate text n = text.
Proof. intros H. unfold truncate. destruct (Z.leb_spec (slen text) n); [done|lia]. Qed.

(** ** Decimal formatting *)

Definition format_u64 (value : Z) : string := pretty (Z.to_N value).
Definition format_i64 (value : Z) : string := pretty value.

Lemma format_u64_inj a b : 0 ≤ a → 0 ≤ b → format_u64 a = format_u64 b → a = b.
Proof. unfold format_u64. intros ?? H. apply (inj pretty) in H. lia. Qed.

(** Every byte of the string satisfies [P]. *)
Fixpoint all_chars (P : ascii → Prop) (s : string) : Prop :=
  match s with
  | EmptyString => True
  | String c s' => P c ∧ all_chars P s'
  end.

Definition is_digit_char (c : ascii) : Prop := (48 ≤ N_of_ascii c ≤ 57)%N.

Lemma pretty_N_char_digit x : (x < 10)%N → is_digit_char (pretty_N_char x).
Proof.
  intros H. unfold is_digit_char.
  destruct x as [|p]; [vm_compute; split; congruence|].
  do 4 (destruct p as [p|p|]; try lia; try (vm_compute; split; congruence)).
Qed.

Lemma pretty_N_go_digits x s :
  all_chars is_digit_char s → all_chars is_digit_char (pretty_N_go x s).
Proof.
  revert s. induction (N.lt_wf_0 x) as [x _ IH]; intros s Hs.
  destruct (decide (0 < x)%N) as [Hx|Hx].
  - rewrite pretty_N_go_step by done. apply IH; [by apply N.div_lt|].
    simpl. split; [|done]. apply pretty_N_char_digit. by apply N.mod_lt.
  - assert (x = 0%N) as -> by lia. by rewrite pretty_N_go_0.
Qed.

Lemma format_u64_digits v : all_chars is_digit_char (format_u64 v).
Proof.
  unfold format_u64, pretty, pretty_N. case_decide.
  - simpl. split; [|done]. vm_compute. split; congruence.
  - by apply pretty_N_go_digits.
Qed.

(** ** FNV-1a *)

Definition fnv1a_init : Z := 1469598103934665603.

Definition fnv1a_byte (state b : Z) : Z := u64_mul (Z.lxor state b) 1099511628211.

(** [fnv1a(state, data, size)] over a byte sequence. *)
Definition fnv1a (state : Z) (data : list Z) : Z := foldl fnv1a_byte state data.

Definition le_bytes64 (value : Z) : list Z :=
  (λ i, Z.land (Z.shiftr value (8 * i)) 255) <$> [0; 1; 2; 3; 4; 5; 6; 7].

Definition fnv1a_u64 (state value : Z) : Z := fnv1a state (le_bytes64 value).

Definition string_bytes (s : string) : list Z := byte_of <$> String.list_ascii_of_string s.

Definition fnv1a_str (state : Z) (text : string) : Z :=
  fnv1a (fnv1a_u64 state (slen text)) (string_bytes text).

Lemma fnv1a_byte_range h b : in_u64 (fnv1a_byte h b).
Proof. apply wrap64_range. Qed.

Lemma fnv1a_range h data : in_u64 h → in_u64 (fnv1a h data).
Proof.
  revert h. induction data as [|b data IH]; intros h Hh; simpl; [done|].
  apply IH, fnv1a_byte_range.
Qed.

#[export] Hint Resolve fnv1a_range fnv1a_byte_range format_u64_digits iequals_refl : obs.
