(* ===== verification/Ids.v ===== *)
(** * Identities

    [include/coherence/ids.hpp] and [src/ids.cpp].  A name identity is a
    [string]; generations, epochs and opaque identities are 64-bit integers.
    [validate_identity_token] is the only admission check for names. *)

From S2P Require Import Prelude Errors TextUtil.
From Stdlib Require Import Ascii.

(** [CounterId::next()] and [is_zero()]. *)
Definition next_id (v : Z) : Z := u64_add v 1.
Definition is_zero (v : Z) : bool := v =? 0.

(** [std::isalnum] on an ASCII byte. *)
Definition is_alnum (c : ascii) : bool :=
  let n := N_of_ascii c in
  (((48 <=? n) && (n <=? 57)) || ((65 <=? n) && (n <=? 90)) || ((97 <=? n) && (n <=? 122)))%N%bool.

(** The punctuation of the [switch]: [. _ - : @ # +]. *)
Definition is_token_punct (c : ascii) : bool :=
  bool_decide (c ∈ ["."; "_"; "-"; ":"; "@"; "#"; "+"]%char).

Definition is_token_char (c : ascii) : bool :=
  ((N_of_ascii c <? 128)%N && (is_alnum c || is_token_punct c))%bool.

(** The loop over the token's bytes. *)
Fixpoint validate_token_chars (token : string) : result unit :=
  match token with
  | EmptyString => ok_status
  | String raw rest =>
      if (128 <=? N_of_ascii raw)%N then
        fail_ctx ErrorCode.InvalidArgument "identity token must be ASCII"
          ("byte=0x" +:+ format_u64 (byte_of raw))
      else if (is_alnum raw || is_token_punct raw)%bool then validate_token_chars rest
      else
        fail_ctx ErrorCode.InvalidArgument "identity token contains a forbidden character"
          ("char='" +:+ String raw "'")
  end.

Definition validate_identity_token (token : string) : result unit :=
  reject_if (sempty token) ErrorCode.InvalidArgument "identity token is empty";;
  reject_if_ctx (Limits.kMaxNameLength <? slen token) ErrorCode.TooLarge
    "identity token exceeds maximum length" ("length=" +:+ format_u64 (slen token));;
  validate_token_chars token.

(** A well-formed identity: 1 to 64 bytes, each an ASCII letter, digit or one
    of the seven punctuation bytes. *)
Definition valid_token (token : string) : Prop :=
  0 < slen token ≤ Limits.kMaxNameLength ∧ all_chars (λ c, is_token_char c = true) token.

Lemma validate_token_chars_ok token :
  validate_token_chars token = Ok tt ↔ all_chars (λ c, is_token_char c = true) token.
Proof.
  induction token as [|c token IH]; simpl; [done|].
  unfold is_token_char.
  destruct (N.leb_spec 128 (N_of_ascii c)), (N.ltb_spec (N_of_ascii c) 128); try lia; simpl.
  - split; [done|]. by intros [? _].
  - destruct (is_alnum c || is_token_punct c); [rewrite IH; tauto|].
    split; [done|]. by intros [? _].
Qed.

Lemma slen_pos s : 0 < slen s ↔ sempty s = false.
Proof. destruct s; unfold slen; simpl; split; done || lia. Qed.

Lemma validate_identity_token_ok token :
  validate_identity_token token = Ok tt ↔ valid_token token.
Proof.
  unfold validate_identity_token, valid_token.
  rewrite !seq_Ok, reject_if_Ok, reject_if_ctx_Ok, validate_token_chars_ok, slen_pos.
  rewrite Z.ltb_ge. tauto.
Qed.

Create Rewrite HintDb obs.
#[export] Hint Rewrite validate_identity_token_ok : obs.
