(* ===== verification/Taxonomy.v ===== *)
(** * Taxonomy

    The enumerations of [taxonomy.hpp], [precision.hpp], [provenance.hpp],
    [locality.hpp], [resource.hpp] and [region.hpp], with their text tables and
    classification functions from the matching [.cpp] files.

    A C++ [enum class : std::uint8_t] object holds any byte, and the program
    range-checks enumerators that come from callers.  Each enumeration is
    therefore an inductive type with the source's enumerators and one more
    constructor, [Other raw], for a byte that names none of them; [code] is
    [static_cast] to the underlying integer and [of_code] the cast back. *)

From S2P Require Import Prelude Errors TextUtil.

(** ** What an enumeration promises to its clients

    The text functions of every enumeration share one shape (an array of names
    indexed by the enumerator, a case-insensitive linear search back), so they
    are written once against [NamedEnum], and their properties once against
    [EnumLaws]. *)

Class NamedEnum (E : Type) := {
  enum_code : E → Z;
  enum_of_code : Z → E;
  enum_names : list string;
  enum_default : string;
  enum_what : string;
}.

Definition enum_count E `{NamedEnum E} : Z := zlen enum_names.

(** [index < names.size() ? names[index] : default]. *)
Definition enum_to_string {E} `{NamedEnum E} (e : E) : string :=
  default enum_default (if enum_code e <? 0 then None else enum_names !! Z.to_nat (enum_code e)).

(** The loop [for (i = 0; i < N; ++i) if (iequals(table[i], text)) return i;]. *)
Fixpoint find_name (table : list string) (i : Z) (text : string) : option Z :=
  match table with
  | [] => None
  | n :: rest => if iequals n text then Some i else find_name rest (i + 1) text
  end.

Definition parse_from_table {E} `{NamedEnum E} (text : string) : result E :=
  match find_name enum_names 0 text with
  | Some i => Ok (enum_of_code i)
  | None => fail_ctx ErrorCode.InvalidArgument ("unknown " +:+ enum_what) text
  end.

Class EnumLaws (E : Type) `{NamedEnum E} : Prop := {
  enum_code_of_code : ∀ n, enum_code (enum_of_code n) = n;
  enum_names_distinct : NoDup (to_upper <$> enum_names);
}.

Ltac solve_enum_laws :=
  constructor;
  [ intros n; lazymatch goal with
              | |- enum_code (enum_of_code _) = _ =>
                  let c := eval hnf in (enum_of_code n) in
                  change (enum_code c = n)
              end;
    repeat (break_goal; try reflexivity)
  | apply (bool_decide_unpack _); vm_compute; exact I ].

Section enum_text.
Context {E : Type} `{EnumLaws E}.

Lemma find_name_spec table i text k :
  find_name table i text = Some k →
  i ≤ k ∧ ∃ n, table !! Z.to_nat (k - i) = Some n ∧ iequals n text = true.
Proof.
  revert i. induction table as [|n rest IH]; intros i; simpl; [done|].
  destruct (iequals n text) eqn:En.
  - intros [= <-]. split; [lia|]. exists n. by rewrite Z.sub_diag.
  - intros Hk. apply IH in Hk as (Hle & m & Hm & Hi). split; [lia|].
    exists m. split; [|done].
    by replace (Z.to_nat (k - i)) with (S (Z.to_nat (k - (i + 1)))) by lia.
Qed.

Lemma find_name_found table i text k n :
  NoDup (to_upper <$> table) → table !! k = Some n → iequals n text = true →
  find_name table i text = Some (i + Z.of_nat k).
Proof.
  revert i k. induction table as [|m rest IH]; intros i k Hnd Hk Hi; [done|].
  simpl. apply NoDup_cons in Hnd as [Hm Hnd]. destruct k as [|k]; simpl in Hk.
  - injection Hk as ->. rewrite Hi. f_equal. lia.
  - destruct (iequals m text) eqn:Em.
    + exfalso. apply Hm. apply iequals_spec in Em, Hi. rewrite Em, <-Hi.
      apply list_elem_of_fmap. exists n. split; [done|].
      apply list_elem_of_lookup. eauto.
    + rewrite (IH (i + 1) k) by done. f_equal. lia.
Qed.

(** The name of an enumerator, in any case, parses back to it. *)
Lemma parse_to_string n text :
  0 ≤ n < enum_count E →
  iequals (enum_to_string (enum_of_code n)) text = true →
  parse_from_table text = Ok (enum_of_code n).
Proof.
  unfold enum_count, enum_to_string, zlen. intros Hn Hi. rewrite enum_code_of_code in Hi.
  destruct (Z.ltb_spec n 0); [lia|].
  destruct (lookup_lt_is_Some_2 enum_names (Z.to_nat n)) as [name Hname]; [lia|].
  rewrite Hname in Hi. simpl in Hi. unfold parse_from_table.
  rewrite (find_name_found _ 0 text _ _ enum_names_distinct Hname Hi).
  do 2 f_equal. lia.
Qed.

(** Only enumerators are ever parsed, and only from their own name. *)
Lemma parse_from_table_inv text e :
  parse_from_table text = Ok e →
  0 ≤ enum_code e < enum_count E ∧ iequals (enum_to_string e) text = true.
Proof.
  unfold parse_from_table. destruct (find_name enum_names 0 text) as [k|] eqn:Ek; [|done].
  intros [= <-]. apply find_name_spec in Ek as (Hk & n & Hn & Hi).
  rewrite Z.sub_0_r in Hn. pose proof (lookup_lt_Some _ _ _ Hn) as Hlt.
  unfold enum_count, enum_to_string, zlen. rewrite enum_code_of_code.
  destruct (Z.ltb_spec k 0); [lia|]. rewrite Hn. split; [lia|done].
Qed.
End enum_text.

(** ** Enumerations *)

(** Generic coherence event classes. *)
Module EventType.
Inductive t :=
  | RemoteRead | RemoteWrite | Invalidation | OwnershipTransfer
  | OwnershipUpgrade | OwnershipDowngrade | SharedRead | WriteExclusiveTransition
  | CacheToCacheTransfer | MemoryDomainTransfer | SnoopRequest | SnoopResponse
  | DirectoryLookup | DirectoryMiss | CoherenceRetry | CoherenceConflict
  | Writeback | RemoteAtomic | ConsistencyBarrier | Flush
  | Fence | RegionInvalidation | UnknownCoherenceEvent
  | Other (raw : Z).

#[global] Instance t_eq_dec : EqDecision t.
Proof. solve_decision. Defined.

Definition code (e : t) : Z :=
  match e with
  | RemoteRead => 0 | RemoteWrite => 1 | Invalidation => 2 | OwnershipTransfer => 3
  | OwnershipUpgrade => 4 | OwnershipDowngrade => 5 | SharedRead => 6 | WriteExclusiveTransition => 7
  | CacheToCacheTransfer => 8 | MemoryDomainTransfer => 9 | SnoopRequest => 10 | SnoopResponse => 11
  | DirectoryLookup => 12 | DirectoryMiss => 13 | CoherenceRetry => 14 | CoherenceConflict => 15
  | Writeback => 16 | RemoteAtomic => 17 | ConsistencyBarrier => 18 | Flush => 19
  | Fence => 20 | RegionInvalidation => 21 | UnknownCoherenceEvent => 22
  | Other raw => raw
  end.

Definition of_code (n : Z) : t :=
  match n with
  | 0 => RemoteRead | 1 => RemoteWrite | 2 => Invalidation | 3 => OwnershipTransfer
  | 4 => OwnershipUpgrade | 5 => OwnershipDowngrade | 6 => SharedRead | 7 => WriteExclusiveTransition
  | 8 => CacheToCacheTransfer | 9 => MemoryDomainTransfer | 10 => SnoopRequest | 11 => SnoopResponse
  | 12 => DirectoryLookup | 13 => DirectoryMiss | 14 => CoherenceRetry | 15 => CoherenceConflict
  | 16 => Writeback | 17 => RemoteAtomic | 18 => ConsistencyBarrier | 19 => Flush
  | 20 => Fence | 21 => RegionInvalidation | 22 => UnknownCoherenceEvent
  | raw => Other raw
  end.

Definition names : list string :=
  ["REMOTE_READ"; "REMOTE_WRITE"; "INVALIDATION"; "OWNERSHIP_TRANSFER";
   "OWNERSHIP_UPGRADE"; "OWNERSHIP_DOWNGRADE"; "SHARED_READ";
   "WRITE_EXCLUSIVE_TRANSITION"; "CACHE_TO_CACHE_TRANSFER";
   "MEMORY_DOMAIN_TRANSFER"; "SNOOP_REQUEST"; "SNOOP_RESPONSE"; "DIRECTORY_LOOKUP";
   "DIRECTORY_MISS"; "COHERENCE_RETRY"; "COHERENCE_CONFLICT"; "WRITEBACK";
   "REMOTE_ATOMIC"; "CONSISTENCY_BARRIER"; "FLUSH"; "FENCE"; "REGION_INVALIDATION";
   "UNKNOWN_COHERENCE_EVENT"]%string.

#[global] Instance named : NamedEnum t := {|
  enum_code := code; enum_of_code := of_code; enum_names := names;
  enum_default := "UNKNOWN_COHERENCE_EVENT"; enum_what := "event type" |}.
#[global] Instance laws : EnumLaws t.
Proof. solve_enum_laws. Qed.

Definition to_string (e : t) : string := enum_to_string e.
End EventType.

(** Direction of the memory access an observation describes. *)
Module AccessDirection.
Inductive t :=
  | None | Read | Write | ReadModifyWrite
  | Atomic | Unknown
  | Other (raw : Z).

#[global] Instance t_eq_dec : EqDecision t.
Proof. solve_decision. Defined.

Definition code (e : t) : Z :=
  match e with
  | None => 0 | Read => 1 | Write => 2 | ReadModifyWrite => 3
  | Atomic => 4 | Unknown => 5
  | Other raw => raw
  end.

Definition of_code (n : Z) : t :=
  match n with
  | 0 => None | 1 => Read | 2 => Write | 3 => ReadModifyWrite
  | 4 => Atomic | 5 => Unknown
  | raw => Other raw
  end.

Definition names : list string :=
  ["NONE"; "READ"; "WRITE"; "READ_MODIFY_WRITE"; "ATOMIC"; "UNKNOWN"]%string.

#[global] Instance named : NamedEnum t := {|
  enum_code := code; enum_of_code := of_code; enum_names := names;
  enum_default := "UNKNOWN"; enum_what := "access direction" |}.
#[global] Instance laws : EnumLaws t.
Proof. solve_enum_laws. Qed.

Definition to_string (e : t) : string := enum_to_string e.
End AccessDirection.

(** Observable coherence state of a region or line. *)
Module CoherenceState.
Inductive t :=
  | Unknown | Invalid | Shared | Exclusive
  | Modified | Owned | Forward | SharedClean
  | SharedDirty | ExclusiveDirty
  | Other (raw : Z).

#[global] Instance t_eq_dec : EqDecision t.
Proof. solve_decision. Defined.

Definition code (e : t) : Z :=
  match e with
  | Unknown => 0 | Invalid => 1 | Shared => 2 | Exclusive => 3
  | Modified => 4 | Owned => 5 | Forward => 6 | SharedClean => 7
  | SharedDirty => 8 | ExclusiveDirty => 9
  | Other raw => raw
  end.

Definition of_code (n : Z) : t :=
  match n with
  | 0 => Unknown | 1 => Invalid | 2 => Shared | 3 => Exclusive
  | 4 => Modified | 5 => Owned | 6 => Forward | 7 => SharedClean
  | 8 => SharedDirty | 9 => ExclusiveDirty
  | raw => Other raw
  end.

Definition names : list string :=
  ["UNKNOWN"; "INVALID"; "SHARED"; "EXCLUSIVE"; "MODIFIED"; "OWNED"; "FORWARD";
   "SHARED_CLEAN"; "SHARED_DIRTY"; "EXCLUSIVE_DIRTY"]%string.

#[global] Instance named : NamedEnum t := {|
  enum_code := code; enum_of_code := of_code; enum_names := names;
  enum_default := "UNKNOWN"; enum_what := "coherence state" |}.
#[global] Instance laws : EnumLaws t.
Proof. solve_enum_laws. Qed.

Definition to_string (e : t) : string := enum_to_string e.
End CoherenceState.

(** Finest granularity at which the evidence resolves. *)
Module EvidenceGranularity.
Inductive t :=
  | Unknown | CacheLine | Page | Region
  | Device | Domain | Aggregate
  | Other (raw : Z).

#[global] Instance t_eq_dec : EqDecision t.
Proof. solve_decision. Defined.

Definition code (e : t) : Z :=
  match e with
  | Unknown => 0 | CacheLine => 1 | Page => 2 | Region => 3
  | Device => 4 | Domain => 5 | Aggregate => 6
  | Other raw => raw
  end.

Definition of_code (n : Z) : t :=
  match n with
  | 0 => Unknown | 1 => CacheLine | 2 => Page | 3 => Region
  | 4 => Device | 5 => Domain | 6 => Aggregate
  | raw => Other raw
  end.

Definition names : list string :=
  ["UNKNOWN"; "CACHE_LINE"; "PAGE"; "REGION"; "DEVICE"; "DOMAIN"; "AGGREGATE"]%string.

#[global] Instance named : NamedEnum t := {|
  enum_code := code; enum_of_code := of_code; enum_names := names;
  enum_default := "UNKNOWN"; enum_what := "evidence granularity" |}.
#[global] Instance laws : EnumLaws t.
Proof. solve_enum_laws. Qed.

Definition to_string (e : t) : string := enum_to_string e.
End EvidenceGranularity.

(** Kind of resource an identity refers to. *)
Module ResourceKind.
Inductive t :=
  | Unknown | Node | Processor | Accelerator
  | MemoryDomain | CoherenceDomain
  | Other (raw : Z).

#[global] Instance t_eq_dec : EqDecision t.
Proof. solve_decision. Defined.

Definition code (e : t) : Z :=
  match e with
  | Unknown => 0 | Node => 1 | Processor => 2 | Accelerator => 3
  | MemoryDomain => 4 | CoherenceDomain => 5
  | Other raw => raw
  end.

Definition of_code (n : Z) : t :=
  match n with
  | 0 => Unknown | 1 => Node | 2 => Processor | 3 => Accelerator
  | 4 => MemoryDomain | 5 => CoherenceDomain
  | raw => Other raw
  end.

Definition names : list string :=
  ["UNKNOWN"; "NODE"; "PROCESSOR"; "ACCELERATOR"; "MEMORY_DOMAIN";
   "COHERENCE_DOMAIN"]%string.

#[global] Instance named : NamedEnum t := {|
  enum_code := code; enum_of_code := of_code; enum_names := names;
  enum_default := "UNKNOWN"; enum_what := "resource kind" |}.
#[global] Instance laws : EnumLaws t.
Proof. solve_enum_laws. Qed.

Definition to_string (e : t) : string := enum_to_string e.
End ResourceKind.

(** Kind of counter, which determines reset and wrap handling. *)
Module CounterKind.
Inductive t :=
  | Absolute | Delta | Resettable | Wrapping
  | Sampled
  | Other (raw : Z).

#[global] Instance t_eq_dec : EqDecision t.
Proof. solve_decision. Defined.

Definition code (e : t) : Z :=
  match e with
  | Absolute => 0 | Delta => 1 | Resettable => 2 | Wrapping => 3
  | Sampled => 4
  | Other raw => raw
  end.

Definition of_code (n : Z) : t :=
  match n with
  | 0 => Absolute | 1 => Delta | 2 => Resettable | 3 => Wrapping
  | 4 => Sampled
  | raw => Other raw
  end.

Definition names : list string :=
  ["ABSOLUTE"; "DELTA"; "RESETTABLE"; "WRAPPING"; "SAMPLED"]%string.

#[global] Instance named : NamedEnum t := {|
  enum_code := code; enum_of_code := of_code; enum_names := names;
  enum_default := "ABSOLUTE"; enum_what := "counter kind" |}.
#[global] Instance laws : EnumLaws t.
Proof. solve_enum_laws. Qed.

Definition to_string (e : t) : string := enum_to_string e.
End CounterKind.

(** What a counter value can be attributed to. *)
Module CounterScope.
Inductive t :=
  | Unknown | PerRegion | PerDevice | PerDomain
  | PerLink | PerProcess | Global
  | Other (raw : Z).

#[global] Instance t_eq_dec : EqDecision t.
Proof. solve_decision. Defined.

Definition code (e : t) : Z :=
  match e with
  | Unknown => 0 | PerRegion => 1 | PerDevice => 2 | PerDomain => 3
  | PerLink => 4 | PerProcess => 5 | Global => 6
  | Other raw => raw
  end.

Definition of_code (n : Z) : t :=
  match n with
  | 0 => Unknown | 1 => PerRegion | 2 => PerDevice | 3 => PerDomain
  | 4 => PerLink | 5 => PerProcess | 6 => Global
  | raw => Other raw
  end.

Definition names : list string :=
  ["UNKNOWN"; "PER_REGION"; "PER_DEVICE"; "PER_DOMAIN"; "PER_LINK"; "PER_PROCESS";
   "GLOBAL"]%string.

#[global] Instance named : NamedEnum t := {|
  enum_code := code; enum_of_code := of_code; enum_names := names;
  enum_default := "UNKNOWN"; enum_what := "counter scope" |}.
#[global] Instance laws : EnumLaws t.
Proof. solve_enum_laws. Qed.

Definition to_string (e : t) : string := enum_to_string e.
End CounterScope.

(** Cost accounting category. *)
Module CostDimension.
Inductive t :=
  | BytesTransferred | LatencyNanos | BandwidthBytesPerSecond | StallCycles
  | RetryOverhead | InvalidatedBytes | WritebackBytes | RemoteMemoryAccesses
  | OwnershipTransfers | CrossDomainTraffic | CrossNumaTraffic | CrossAcceleratorTraffic
  | CxlClassTraffic | ExecutionTimeImpact
  | Other (raw : Z).

#[global] Instance t_eq_dec : EqDecision t.
Proof. solve_decision. Defined.

Definition code (e : t) : Z :=
  match e with
  | BytesTransferred => 0 | LatencyNanos => 1 | BandwidthBytesPerSecond => 2 | StallCycles => 3
  | RetryOverhead => 4 | InvalidatedBytes => 5 | WritebackBytes => 6 | RemoteMemoryAccesses => 7
  | OwnershipTransfers => 8 | CrossDomainTraffic => 9 | CrossNumaTraffic => 10 | CrossAcceleratorTraffic => 11
  | CxlClassTraffic => 12 | ExecutionTimeImpact => 13
  | Other raw => raw
  end.

Definition of_code (n : Z) : t :=
  match n with
  | 0 => BytesTransferred | 1 => LatencyNanos | 2 => BandwidthBytesPerSecond | 3 => StallCycles
  | 4 => RetryOverhead | 5 => InvalidatedBytes | 6 => WritebackBytes | 7 => RemoteMemoryAccesses
  | 8 => OwnershipTransfers | 9 => CrossDomainTraffic | 10 => CrossNumaTraffic | 11 => CrossAcceleratorTraffic
  | 12 => CxlClassTraffic | 13 => ExecutionTimeImpact
  | raw => Other raw
  end.

Definition names : list string :=
  ["BYTES_TRANSFERRED"; "LATENCY_NANOS"; "BANDWIDTH_BYTES_PER_SECOND";
   "STALL_CYCLES"; "RETRY_OVERHEAD"; "INVALIDATED_BYTES"; "WRITEBACK_BYTES";
   "REMOTE_MEMORY_ACCESSES"; "OWNERSHIP_TRANSFERS"; "CROSS_DOMAIN_TRAFFIC";
   "CROSS_NUMA_TRAFFIC"; "CROSS_ACCELERATOR_TRAFFIC"; "CXL_CLASS_TRAFFIC";
   "EXECUTION_TIME_IMPACT"]%string.

#[global] Instance named : NamedEnum t := {|
  enum_code := code; enum_of_code := of_code; enum_names := names;
  enum_default := "UNKNOWN"; enum_what := "cost dimension" |}.
#[global] Instance laws : EnumLaws t.
Proof. solve_enum_laws. Qed.

Definition to_string (e : t) : string := enum_to_string e.
End CostDimension.

(** How precisely the evidence resolves the reported fact; larger codes are stronger. *)
Module Precision.
Inductive t :=
  | Unknown | Inferred | Derived | AggregatedCounter
  | SampledEvent | ExactCounterDelta | ExactEvent
  | Other (raw : Z).

#[global] Instance t_eq_dec : EqDecision t.
Proof. solve_decision. Defined.

Definition code (e : t) : Z :=
  match e with
  | Unknown => 0 | Inferred => 1 | Derived => 2 | AggregatedCounter => 3
  | SampledEvent => 4 | ExactCounterDelta => 5 | ExactEvent => 6
  | Other raw => raw
  end.

Definition of_code (n : Z) : t :=
  match n with
  | 0 => Unknown | 1 => Inferred | 2 => Derived | 3 => AggregatedCounter
  | 4 => SampledEvent | 5 => ExactCounterDelta | 6 => ExactEvent
  | raw => Other raw
  end.

Definition names : list string :=
  ["UNKNOWN"; "INFERRED"; "DERIVED"; "AGGREGATED_COUNTER"; "SAMPLED_EVENT";
   "EXACT_COUNTER_DELTA"; "EXACT_EVENT"]%string.

#[global] Instance named : NamedEnum t := {|
  enum_code := code; enum_of_code := of_code; enum_names := names;
  enum_default := "UNKNOWN"; enum_what := "precision" |}.
#[global] Instance laws : EnumLaws t.
Proof. solve_enum_laws. Qed.

Definition to_string (e : t) : string := enum_to_string e.
End Precision.

(** Where an observation came from. *)
Module Provenance.
Inductive t :=
  | Unknown | HardwarePerformanceCounter | VendorTelemetryApi | OsTelemetry
  | RuntimeInstrumentation | ApplicationInstrumentation | FabricProvidedState | SyntheticBackend
  | ImportedTrace | DerivedAggregation
  | Other (raw : Z).

#[global] Instance t_eq_dec : EqDecision t.
Proof. solve_decision. Defined.

Definition code (e : t) : Z :=
  match e with
  | Unknown => 0 | HardwarePerformanceCounter => 1 | VendorTelemetryApi => 2 | OsTelemetry => 3
  | RuntimeInstrumentation => 4 | ApplicationInstrumentation => 5 | FabricProvidedState => 6 | SyntheticBackend => 7
  | ImportedTrace => 8 | DerivedAggregation => 9
  | Other raw => raw
  end.

Definition of_code (n : Z) : t :=
  match n with
  | 0 => Unknown | 1 => HardwarePerformanceCounter | 2 => VendorTelemetryApi | 3 => OsTelemetry
  | 4 => RuntimeInstrumentation | 5 => ApplicationInstrumentation | 6 => FabricProvidedState | 7 => SyntheticBackend
  | 8 => ImportedTrace | 9 => DerivedAggregation
  | raw => Other raw
  end.

Definition names : list string :=
  ["UNKNOWN"; "HARDWARE_PERFORMANCE_COUNTER"; "VENDOR_TELEMETRY_API";
   "OS_TELEMETRY"; "RUNTIME_INSTRUMENTATION"; "APPLICATION_INSTRUMENTATION";
   "FABRIC_PROVIDED_STATE"; "SYNTHETIC_BACKEND"; "IMPORTED_TRACE";
   "DERIVED_AGGREGATION"]%string.

#[global] Instance named : NamedEnum t := {|
  enum_code := code; enum_of_code := of_code; enum_names := names;
  enum_default := "UNKNOWN"; enum_what := "provenance" |}.
#[global] Instance laws : EnumLaws t.
Proof. solve_enum_laws. Qed.

Definition to_string (e : t) : string := enum_to_string e.
End Provenance.

(** Reality class of evidence or of a derived result. *)
Module Reality.
Inductive t :=
  | Real | Synthetic | Mixed
  | Other (raw : Z).

#[global] Instance t_eq_dec : EqDecision t.
Proof. solve_decision. Defined.

Definition code (e : t) : Z :=
  match e with
  | Real => 0 | Synthetic => 1 | Mixed => 2
  | Other raw => raw
  end.

Definition of_code (n : Z) : t :=
  match n with
  | 0 => Real | 1 => Synthetic | 2 => Mixed
  | raw => Other raw
  end.

Definition names : list string :=
  ["REAL"; "SYNTHETIC"; "MIXED"]%string.

#[global] Instance named : NamedEnum t := {|
  enum_code := code; enum_of_code := of_code; enum_names := names;
  enum_default := "MIXED"; enum_what := "reality" |}.
#[global] Instance laws : EnumLaws t.
Proof. solve_enum_laws. Qed.

Definition to_string (e : t) : string := enum_to_string e.
End Reality.

(** Classification of a hardware-facing capability. *)
Module CapabilityStatus.
Inductive t :=
  | Real | Synthetic | Unsupported
  | Other (raw : Z).

#[global] Instance t_eq_dec : EqDecision t.
Proof. solve_decision. Defined.

Definition code (e : t) : Z :=
  match e with
  | Real => 0 | Synthetic => 1 | Unsupported => 2
  | Other raw => raw
  end.

Definition of_code (n : Z) : t :=
  match n with
  | 0 => Real | 1 => Synthetic | 2 => Unsupported
  | raw => Other raw
  end.

Definition names : list string :=
  ["REAL"; "SYNTHETIC"; "UNSUPPORTED"]%string.

#[global] Instance named : NamedEnum t := {|
  enum_code := code; enum_of_code := of_code; enum_names := names;
  enum_default := "UNSUPPORTED"; enum_what := "capability status" |}.
#[global] Instance laws : EnumLaws t.
Proof. solve_enum_laws. Qed.

Definition to_string (e : t) : string := enum_to_string e.
End CapabilityStatus.

(** Locality classes. *)
Module Locality.
Inductive t :=
  | Unknown | LocalProcessor | LocalNuma | RemoteNuma
  | LocalAccelerator | PeerAccelerator | SameRootComplex | RemoteAccelerator
  | CxlAttached | PooledMemory | RemoteNode
  | Other (raw : Z).

#[global] Instance t_eq_dec : EqDecision t.
Proof. solve_decision. Defined.

Definition code (e : t) : Z :=
  match e with
  | Unknown => 0 | LocalProcessor => 1 | LocalNuma => 2 | RemoteNuma => 3
  | LocalAccelerator => 4 | PeerAccelerator => 5 | SameRootComplex => 6 | RemoteAccelerator => 7
  | CxlAttached => 8 | PooledMemory => 9 | RemoteNode => 10
  | Other raw => raw
  end.

Definition of_code (n : Z) : t :=
  match n with
  | 0 => Unknown | 1 => LocalProcessor | 2 => LocalNuma | 3 => RemoteNuma
  | 4 => LocalAccelerator | 5 => PeerAccelerator | 6 => SameRootComplex | 7 => RemoteAccelerator
  | 8 => CxlAttached | 9 => PooledMemory | 10 => RemoteNode
  | raw => Other raw
  end.

Definition names : list string :=
  ["UNKNOWN"; "LOCAL_PROCESSOR"; "LOCAL_NUMA"; "REMOTE_NUMA"; "LOCAL_ACCELERATOR";
   "PEER_ACCELERATOR"; "SAME_ROOT_COMPLEX"; "REMOTE_ACCELERATOR"; "CXL_ATTACHED";
   "POOLED_MEMORY"; "REMOTE_NODE"]%string.

#[global] Instance named : NamedEnum t := {|
  enum_code := code; enum_of_code := of_code; enum_names := names;
  enum_default := "UNKNOWN"; enum_what := "locality" |}.
#[global] Instance laws : EnumLaws t.
Proof. solve_enum_laws. Qed.

Definition to_string (e : t) : string := enum_to_string e.
End Locality.

(** Kind of memory a domain provides. *)
Module MemoryDomainKind.
Inductive t :=
  | Unknown | HostDram | DeviceMemory | HighBandwidthMemory
  | CxlAttached | PooledMemory | RemoteNodeMemory
  | Other (raw : Z).

#[global] Instance t_eq_dec : EqDecision t.
Proof. solve_decision. Defined.

Definition code (e : t) : Z :=
  match e with
  | Unknown => 0 | HostDram => 1 | DeviceMemory => 2 | HighBandwidthMemory => 3
  | CxlAttached => 4 | PooledMemory => 5 | RemoteNodeMemory => 6
  | Other raw => raw
  end.

Definition of_code (n : Z) : t :=
  match n with
  | 0 => Unknown | 1 => HostDram | 2 => DeviceMemory | 3 => HighBandwidthMemory
  | 4 => CxlAttached | 5 => PooledMemory | 6 => RemoteNodeMemory
  | raw => Other raw
  end.

Definition names : list string :=
  ["UNKNOWN"; "HOST_DRAM"; "DEVICE_MEMORY"; "HIGH_BANDWIDTH_MEMORY"; "CXL_ATTACHED";
   "POOLED_MEMORY"; "REMOTE_NODE_MEMORY"]%string.

#[global] Instance named : NamedEnum t := {|
  enum_code := code; enum_of_code := of_code; enum_names := names;
  enum_default := "UNKNOWN"; enum_what := "memory domain kind" |}.
#[global] Instance laws : EnumLaws t.
Proof. solve_enum_laws. Qed.

Definition to_string (e : t) : string := enum_to_string e.
End MemoryDomainKind.

(** Who can observe a region. *)
Module SharingScope.
Inductive t :=
  | Unknown | Private | ProcessShared | DeviceShared
  | CrossNode | Pooled
  | Other (raw : Z).

#[global] Instance t_eq_dec : EqDecision t.
Proof. solve_decision. Defined.

Definition code (e : t) : Z :=
  match e with
  | Unknown => 0 | Private => 1 | ProcessShared => 2 | DeviceShared => 3
  | CrossNode => 4 | Pooled => 5
  | Other raw => raw
  end.

Definition of_code (n : Z) : t :=
  match n with
  | 0 => Unknown | 1 => Private | 2 => ProcessShared | 3 => DeviceShared
  | 4 => CrossNode | 5 => Pooled
  | raw => Other raw
  end.

Definition names : list string :=
  ["UNKNOWN"; "PRIVATE"; "PROCESS_SHARED"; "DEVICE_SHARED"; "CROSS_NODE"; "POOLED"]%string.

#[global] Instance named : NamedEnum t := {|
  enum_code := code; enum_of_code := of_code; enum_names := names;
  enum_default := "UNKNOWN"; enum_what := "sharing scope" |}.
#[global] Instance laws : EnumLaws t.
Proof. solve_enum_laws. Qed.

Definition to_string (e : t) : string := enum_to_string e.
End SharingScope.

(** ** Classification *)

Definition kEventTypeCount : Z := 23.
Definition kLocalityCount : Z := 11.

(** [parse_event_type]: the alias [UNKNOWN] comes before the table. *)
Definition parse_event_type (text : string) : result EventType.t :=
  if iequals text "UNKNOWN" then Ok EventType.UnknownCoherenceEvent
  else parse_from_table text.

Definition is_ownership_event (type : EventType.t) : bool :=
  match type with
  | EventType.OwnershipTransfer | EventType.OwnershipUpgrade
  | EventType.OwnershipDowngrade | EventType.WriteExclusiveTransition
  | EventType.CacheToCacheTransfer | EventType.MemoryDomainTransfer => true
  | _ => false
  end.

Definition is_traffic_event (type : EventType.t) : bool :=
  match type with
  | EventType.RemoteRead | EventType.RemoteWrite | EventType.RemoteAtomic
  | EventType.CacheToCacheTransfer | EventType.MemoryDomainTransfer
  | EventType.Writeback | EventType.Flush | EventType.SharedRead => true
  | _ => false
  end.

Definition granularity_rank (g : EvidenceGranularity.t) : Z :=
  match g with
  | EvidenceGranularity.CacheLine => 6
  | EvidenceGranularity.Page => 5
  | EvidenceGranularity.Region => 4
  | EvidenceGranularity.Device => 3
  | EvidenceGranularity.Domain => 2
  | EvidenceGranularity.Aggregate => 1
  | EvidenceGranularity.Unknown => 0
  | EvidenceGranularity.Other _ => 0
  end.

(** ** Precision *)

Definition precision_rank (p : Precision.t) : Z :=
  let index := Precision.code p in
  if (0 <=? index) && (index <? zlen Precision.names) then index else 0.

Definition weakest (a b : Precision.t) : Precision.t :=
  if precision_rank a <=? precision_rank b then a else b.

(** The loop of [weakest_of]: the first element, then the running minimum. *)
Definition weakest_of (ps : list Precision.t) : Precision.t :=
  match ps with
  | [] => Precision.Unknown
  | p :: rest => foldl weakest p rest
  end.

Definition precision_within (claimed supported : Precision.t) : bool :=
  precision_rank claimed <=? precision_rank supported.

Definition precision_ceiling_for_granularity (rank : Z) : Precision.t :=
  match rank with
  | 6 => Precision.ExactEvent
  | 5 => Precision.SampledEvent
  | 4 => Precision.SampledEvent
  | 3 => Precision.AggregatedCounter
  | 2 => Precision.AggregatedCounter
  | 1 => Precision.AggregatedCounter
  | _ => Precision.Unknown
  end.

Lemma weakest_rank a b :
  precision_rank (weakest a b) = Z.min (precision_rank a) (precision_rank b).
Proof. unfold weakest. destruct (Z.leb_spec (precision_rank a) (precision_rank b)); lia. Qed.

Lemma weakest_of_spec ps p :
  p ∈ ps → precision_rank (weakest_of ps) ≤ precision_rank p.
Proof.
  destruct ps as [|q rest]; [by rewrite elem_of_nil|]. simpl. revert p q.
  induction rest as [|r rest IH]; intros p q Hp; simpl.
  - apply list_elem_of_singleton in Hp as ->. done.
  - apply elem_of_cons in Hp as [->|Hp].
    + etransitivity; [apply (IH (weakest q r) (weakest q r)); left|]. rewrite weakest_rank. lia.
    + apply elem_of_cons in Hp as [->|Hp].
      * etransitivity; [apply (IH (weakest q r) (weakest q r)); left|]. rewrite weakest_rank. lia.
      * apply IH. by right.
Qed.

Lemma weakest_of_elem ps : ps ≠ [] → weakest_of ps ∈ ps.
Proof.
  destruct ps as [|q rest]; [done|]. intros _. simpl. revert q.
  induction rest as [|r rest IH]; intros q; simpl; [left|].
  specialize (IH (weakest q r)). apply elem_of_cons in IH as [->|IH].
  - unfold weakest. destruct (_ <=? _); [left|right; left].
  - right. by right.
Qed.

(** ** Provenance and reality *)

Definition is_real_provenance (p : Provenance.t) : bool :=
  match p with
  | Provenance.HardwarePerformanceCounter | Provenance.VendorTelemetryApi
  | Provenance.OsTelemetry | Provenance.RuntimeInstrumentation
  | Provenance.ApplicationInstrumentation | Provenance.FabricProvidedState => true
  | _ => false
  end.

Definition is_synthetic_provenance (p : Provenance.t) : bool :=
  bool_decide (p = Provenance.SyntheticBackend).

Definition reality_of (p : Provenance.t) : Reality.t :=
  if is_synthetic_provenance p then Reality.Synthetic
  else if is_real_provenance p then Reality.Real
  else Reality.Mixed.

Definition combine_reality (a b : Reality.t) : Reality.t :=
  if decide (a = b) then a else Reality.Mixed.

Lemma reality_of_cases p :
  reality_of p = Reality.Real ∨ reality_of p = Reality.Synthetic ∨ reality_of p = Reality.Mixed.
Proof. unfold reality_of. repeat break_goal; auto. Qed.

(** ** Locality *)

Definition is_remote_locality (l : Locality.t) : bool :=
  match l with
  | Locality.RemoteNuma | Locality.RemoteAccelerator | Locality.RemoteNode
  | Locality.CxlAttached | Locality.PooledMemory => true
  | _ => false
  end.

Definition is_cxl_class_locality (l : Locality.t) : bool :=
  bool_decide (l = Locality.CxlAttached) || bool_decide (l = Locality.PooledMemory).

(** ** Capabilities *)

Module Capability.
Record t := mk {
  key : string;
  status : CapabilityStatus.t;
  detail : string;
  mechanism : string;
}.
End Capability.

Definition capability_status_explanation (status : CapabilityStatus.t) : string :=
  match status with
  | CapabilityStatus.Real => "observable on this host and observed"
  | CapabilityStatus.Synthetic => "not observable on this host; proven synthetically"
  | CapabilityStatus.Unsupported => "not observable on this host; not simulated"
  | CapabilityStatus.Other _ => "unknown"
  end.

(** The comparator of [sort_capabilities]: by key, then by status ordinal. *)
Definition capability_le (a b : Capability.t) : Prop :=
  if decide (Capability.key a = Capability.key b)
  then CapabilityStatus.code (Capability.status a) ≤ CapabilityStatus.code (Capability.status b)
  else key_le (Capability.key a) (Capability.key b).

#[global] Instance capability_le_dec a b : Decision (capability_le a b).
Proof. unfold capability_le. case_decide; apply _. Defined.

(** [std::unique] on the key: keep the first of each run of equal keys. *)
Fixpoint unique_keys (l : list Capability.t) : list Capability.t :=
  match l with
  | a :: ((b :: _) as rest) =>
      match unique_keys rest with
      | b' :: rest' =>
          if decide (Capability.key a = Capability.key b') then a :: rest' else a :: b' :: rest'
      | [] => [a]
      end
  | _ => l
  end.

(** [std::sort] leaves the order of records with equal key and status
    unspecified; the model uses a stable sort. *)
Definition sort_capabilities (l : list Capability.t) : list Capability.t :=
  unique_keys (merge_sort capability_le l).
