(* ===== verification/Float64.v ===== *)
(** * IEEE 754 binary64

    The program's [double] values, as the executable binary64 of the standard
    library's [SpecFloat] (precision 53, maximal exponent 1024, rounding to
    nearest even), which is what the C++ arithmetic operators, comparisons and
    integer conversions compute. *)

From S2P Require Import Prelude.
From Stdlib Require Import SpecFloat.

Definition double : Type := spec_float.

Definition dadd : double → double → double := SFadd 53 1024.
Definition dmul : double → double → double := SFmul 53 1024.
Definition ddiv : double → double → double := SFdiv 53 1024.
Definition dopp : double → double := SFopp.

(** [==], [<] and [<=]: false as soon as one side is NaN. *)
Definition deqb : double → double → bool := SFeqb.
Definition dltb : double → double → bool := SFltb.
Definition dleb : double → double → bool := SFleb.

(** [static_cast<double>(n)] for an integer [n]. *)
Definition d_of_Z (n : Z) : double := binary_normalize 53 1024 n 0 false.

(** The literal [n / m] correctly rounded, for decimal constants. *)
Definition d_ratio (n m : Z) : double := ddiv (d_of_Z n) (d_of_Z m).

Definition d0 : double := S754_zero false.
Definition d1 : double := d_of_Z 1.

(** [finite_within] of [checked.hpp]. *)
Definition finite_within (v bound : double) : bool :=
  deqb v v && dleb v bound && dleb (dopp bound) v.

Lemma deqb_refl_not_nan v : deqb v v = true ↔ v ≠ S754_nan.
Proof.
  unfold deqb, SFeqb, SFcompare.
  destruct v as [[]|[]| |[] m e]; try (split; done).
  all: split; [done|intros _].
  all: by rewrite Z.compare_refl, Pos.compare_cont_refl.
Qed.

(** ** The interchange format

    What copying the bytes of a [double] into a 64-bit integer and back does:
    one sign bit, eleven exponent bits, fifty-two fraction bits.  A NaN is
    written as the default quiet NaN, and every NaN pattern reads as NaN. *)

Definition sign_bit (s : bool) : Z := if s then 2 ^ 63 else 0.

Definition bits_of_double (d : double) : Z :=
  match d with
  | S754_zero s => sign_bit s
  | S754_infinity s => sign_bit s + 2047 * 2 ^ 52
  | S754_nan => 2047 * 2 ^ 52 + 2 ^ 51
  | S754_finite s m e =>
      if Zpos m <? 2 ^ 52 then sign_bit s + Zpos m
      else sign_bit s + ((e + 1075) * 2 ^ 52 + (Zpos m - 2 ^ 52))
  end.

Definition double_of_bits (b : Z) : double :=
  let s := 2 ^ 63 <=? b in
  let e := (b / 2 ^ 52) mod 2048 in
  let m := b mod 2 ^ 52 in
  if e =? 0 then match m with Zpos p => S754_finite s p (-1074) | _ => S754_zero s end
  else if e =? 2047 then if m =? 0 then S754_infinity s else S754_nan
  else match m + 2 ^ 52 with Zpos p => S754_finite s p (e - 1075) | _ => S754_nan end.

Definition valid_double (d : double) : bool := valid_binary 53 1024 d.

Lemma digits2_pos_bounds m :
  2 ^ (Zpos (digits2_pos m) - 1) ≤ Zpos m < 2 ^ Zpos (digits2_pos m).
Proof.
  assert (digits2_pos m = Pos.size m) as -> by (induction m; simpl; congruence).
  assert (Zpos (Pos.size m) = Z.log2 (Zpos m) + 1) as ->
    by (destruct m; simpl; rewrite ?Pos2Z.inj_succ; lia).
  replace (Z.log2 (Zpos m) + 1 - 1) with (Z.log2 (Zpos m)) by lia.
  by apply Z.log2_spec.
Qed.

(** A valid finite number is subnormal with the least exponent, or normal. *)
Lemma valid_finite_cases s m e :
  valid_double (S754_finite s m e) = true →
  (e = -1074 ∧ Zpos m < 2 ^ 52) ∨ (2 ^ 52 ≤ Zpos m < 2 ^ 53 ∧ -1074 ≤ e ≤ 971).
Proof.
  unfold valid_double, valid_binary, bounded, canonical_mantissa, fexp, SpecFloat.emin.
  rewrite andb_true_iff, Z.leb_le. intros [Hc Hmax]. apply Z.eqb_eq in Hc.
  pose proof (digits2_pos_bounds m) as [Hlo Hhi].
  assert (Zpos (digits2_pos m) ≤ 53) as Hd by lia.
  assert (Zpos m < 2 ^ 53) by
    (eapply Z.lt_le_trans; [exact Hhi|apply Z.pow_le_mono_r; lia]).
  destruct (Z.ltb_spec (Zpos m) (2 ^ 52)) as [Hm|Hm]; [left|right; lia].
  split; [|done].
  assert (Zpos (digits2_pos m) - 1 < 52) by
    (apply (Z.pow_lt_mono_r_iff 2); [lia..|]; by eapply Z.le_lt_trans).
  lia.
Qed.

Lemma sign_split s r : 0 ≤ r < 2 ^ 63 →
  (2 ^ 63 <=? sign_bit s + r) = s ∧
  (sign_bit s + r) / 2 ^ 52 mod 2048 = r / 2 ^ 52 ∧ (sign_bit s + r) mod 2 ^ 52 = r mod 2 ^ 52.
Proof.
  intros Hr. destruct s; simpl sign_bit.
  - change (2 ^ 63) with (2048 * 2 ^ 52) in *. split_and!.
    + apply Z.leb_le. lia.
    + rewrite Z.add_comm, Z.div_add by lia. rewrite <- Z.add_mod_idemp_r by lia.
      rewrite Z.mod_same, Z.add_0_r by lia. apply Z.mod_small.
      split; [apply Z.div_pos; lia|apply Z.div_lt_upper_bound; lia].
    + by rewrite Z.add_comm, Z.mod_add by lia.
  - rewrite Z.add_0_l. split_and!; [apply Z.leb_gt; lia| |done].
    apply Z.mod_small. change (2 ^ 63) with (2048 * 2 ^ 52) in Hr.
    split; [apply Z.div_pos; lia|apply Z.div_lt_upper_bound; lia].
Qed.

Lemma double_of_bits_split s x f : 0 ≤ x < 2048 → 0 ≤ f < 2 ^ 52 →
  double_of_bits (sign_bit s + (x * 2 ^ 52 + f)) =
    if x =? 0 then match f with Zpos p => S754_finite s p (-1074) | _ => S754_zero s end
    else if x =? 2047 then if f =? 0 then S754_infinity s else S754_nan
    else match f + 2 ^ 52 with Zpos p => S754_finite s p (x - 1075) | _ => S754_nan end.
Proof.
  intros Hx Hf. unfold double_of_bits.
  destruct (sign_split s (x * 2 ^ 52 + f)) as (-> & -> & ->); [lia|].
  rewrite (Z.add_comm (x * _)), Z.div_add, Z.div_small, Z.add_0_l, Z.mod_add, Z.mod_small by lia.
  done.
Qed.

(** Every valid number survives the trip through its bit pattern. *)
Lemma double_of_bits_of_double d :
  valid_double d = true → double_of_bits (bits_of_double d) = d.
Proof.
  destruct d as [s|s| |s m e]; intros Hv; [by destruct s|by destruct s|done|].
  unfold bits_of_double. destruct (valid_finite_cases s m e Hv) as [[-> Hm]|[Hm He]].
  - rewrite (proj2 (Z.ltb_lt _ _)) by done.
    change (Zpos m) with (0 * 2 ^ 52 + Zpos m). by rewrite double_of_bits_split by lia.
  - rewrite (proj2 (Z.ltb_ge _ _)) by lia. rewrite double_of_bits_split by lia.
    rewrite (proj2 (Z.eqb_neq _ _)), (proj2 (Z.eqb_neq _ _)) by lia.
    replace (Zpos m - 2 ^ 52 + 2 ^ 52) with (Zpos m) by lia. f_equal. lia.
Qed.

Lemma bits_of_double_range d : valid_double d = true → 0 ≤ bits_of_double d < 2 ^ 64.
Proof.
  change (2 ^ 64) with (2 * 2 ^ 63). unfold bits_of_double.
  destruct d as [s|s| |s m e]; intros Hv; [by destruct s|by destruct s|done|].
  assert (0 ≤ sign_bit s ≤ 2 ^ 63) by by destruct s.
  destruct (valid_finite_cases s m e Hv) as [[-> Hm]|[Hm He]];
    destruct (Z.ltb_spec (Zpos m) (2 ^ 52)); lia.
Qed.
