(* ===== verification/Policies.v ===== *)
(** * Analysis policies

    The thresholds of [include/coherence/findings.hpp] with their default
    values, and the choice of analyzers ([FindingsOptions] of
    [include/coherence/observatory.hpp]). *)

From S2P Require Import Prelude Errors Taxonomy Float64.

Module HotspotPolicy.
Record t := mk {
  version : Z;
  min_remote_read_rate_per_second : double; min_remote_write_rate_per_second : double;
  min_remote_accesses : Z; min_ownership_transfers : Z; min_invalidations : Z;
  min_region_events : Z; min_cross_numa_bytes : Z; min_cross_device_bytes : Z;
  min_cross_domain_bytes : Z; min_cxl_class_bytes : Z;
  min_coherence_byte_share : double; min_source_target_concentration : double;
  max_hotspots : Z;
}.
Definition default : t :=
  mk 1 (d_of_Z 1000) (d_of_Z 500) 64 16 32 64 1048576 1048576 1048576 1048576
    (d_ratio 1 4) (d_ratio 4 5) 64.
End HotspotPolicy.

Module PingPongPolicy.
Record t := mk {
  version : Z; min_alternations : Z; window_ns : Z; max_gap_ns : Z;
  min_precision : Precision.t; min_participants : Z; max_findings : Z;
}.
Definition default : t := mk 1 4 1000000000 100000000 Precision.ExactEvent 2 64.
End PingPongPolicy.

Module FalseSharingPolicy.
Record t := mk {
  version : Z; min_distinct_writers : Z; min_invalidations : Z; min_shared_reads : Z;
  window_ns : Z; min_precision : Precision.t; max_findings : Z;
}.
Definition default : t := mk 1 2 4 2 1000000000 Precision.ExactEvent 64.
End FalseSharingPolicy.

Module InvalidationPolicy.
Record t := mk { version : Z; burst_threshold : Z; burst_window_ns : Z; max_findings : Z }.
Definition default : t := mk 1 8 1000000 64.
End InvalidationPolicy.

Module RemoteAccessPolicy.
Record t := mk {
  version : Z; max_rows : Z; concentration_threshold : double; max_findings : Z;
}.
Definition default : t := mk 1 256 (d_ratio 1 2) 32.
End RemoteAccessPolicy.

Module FindingsOptions.
Record t := mk {
  compute_hotspots : bool; compute_ping_pong : bool; compute_false_sharing : bool;
  compute_invalidation : bool; compute_remote_access : bool; include_operational : bool;
  max_findings : Z;
}.
Definition default : t := mk true true true true true true Limits.kMaxFindings.
End FindingsOptions.
