(* ===== verification/Cost.v ===== *)
(** * Cost model and cost estimation

    [include/coherence/cost.hpp], [src/cost.cpp], [src/detail/cost.hpp] and the
    [locality_multiplier] / [estimate_cost] functions of [src/attribution.cpp]. *)

From S2P Require Import Prelude Errors TextUtil Taxonomy Float64.
From Stdlib Require Import SpecFloat.

(** ** Data *)

Module CostKind.
Inductive t := Measured | CounterDerived | ModelEstimated | Unknown.
#[global] Instance t_eq_dec : EqDecision t.
Proof. solve_decision. Defined.
Definition to_string (k : t) : string :=
  match k with
  | Measured => "MEASURED"
  | CounterDerived => "COUNTER_DERIVED"
  | ModelEstimated => "MODEL_ESTIMATED"
  | Unknown => "UNKNOWN"
  end.
End CostKind.

Module CostTerm.
Record t := mk {
  name : string;
  dimension : CostDimension.t;
  value : double;
  kind : CostKind.t;
  coefficient : double;
  quantity : double;
  unit_ : string;
}.
End CostTerm.

Module CostModel.
Record t := mk {
  id : string;
  version : Z;
  defined : bool;
  remote_read_latency_ns : double;
  remote_write_latency_ns : double;
  invalidation_latency_ns : double;
  ownership_transfer_latency_ns : double;
  retry_latency_ns : double;
  conflict_stall_ns : double;
  bandwidth_bytes_per_ns : double;
  cxl_multiplier : double;
  pooled_multiplier : double;
  remote_node_multiplier : double;
}.
#[global] Instance eta : Eta t := fun m =>
  mk (id m) (version m) (defined m) (remote_read_latency_ns m) (remote_write_latency_ns m)
    (invalidation_latency_ns m) (ownership_transfer_latency_ns m) (retry_latency_ns m)
    (conflict_stall_ns m) (bandwidth_bytes_per_ns m) (cxl_multiplier m)
    (pooled_multiplier m) (remote_node_multiplier m).
End CostModel.

Module CostEstimate.
Record t := mk {
  kind : CostKind.t;
  latency_ns : double;
  bytes : Z;
  bandwidth_bytes_per_ns : double;
  remote_accesses : Z;
  ownership_transfers : Z;
  invalidations : Z;
  retries : Z;
  stall_cycles : Z;
  terms : list CostTerm.t;
  model_id : string;
  model_version : Z;
  precision : Precision.t;
  lower_bound : bool;
}.
#[global] Instance eta : Eta t := fun c =>
  mk (kind c) (latency_ns c) (bytes c) (bandwidth_bytes_per_ns c) (remote_accesses c)
    (ownership_transfers c) (invalidations c) (retries c) (stall_cycles c) (terms c)
    (model_id c) (model_version c) (precision c) (lower_bound c).
(** A default-constructed [CostEstimate]. *)
Definition empty : t :=
  mk CostKind.Unknown d0 0 d0 0 0 0 0 0 [] "" 0 Precision.Unknown false.
End CostEstimate.

Module CostInputs.
Record t := mk {
  bytes : Z;
  remote_reads : Z;
  remote_writes : Z;
  invalidations : Z;
  ownership_transfers : Z;
  retries : Z;
  conflicts : Z;
  measured_duration_ns : Z;
  locality : Locality.t;
  locality_known : bool;
  precision : Precision.t;
}.
End CostInputs.

(** ** Model validation *)

Definition validate_coefficient (name : string) (value lower upper : double) : result unit :=
  reject_if (negb (finite_within value upper) || dltb value lower)
    ErrorCode.OutOfRange ("cost coefficient out of range: " +:+ name).

(** [CostModel::validate]. *)
Definition validate_cost_model (m : CostModel.t) : result unit :=
  let e12 := d_of_Z 1000000000000 in
  let e9 := d_of_Z 1000000000 in
  let e6 := d_of_Z 1000000 in
  reject_if (sempty (CostModel.id m)) ErrorCode.InvalidArgument "cost model id must not be empty";;
  reject_if (96 <? slen (CostModel.id m)) ErrorCode.TooLarge "cost model id too long";;
  validate_coefficient "remote_read_latency_ns" (CostModel.remote_read_latency_ns m) d0 e12;;
  validate_coefficient "remote_write_latency_ns" (CostModel.remote_write_latency_ns m) d0 e12;;
  validate_coefficient "invalidation_latency_ns" (CostModel.invalidation_latency_ns m) d0 e12;;
  validate_coefficient "ownership_transfer_latency_ns"
    (CostModel.ownership_transfer_latency_ns m) d0 e12;;
  validate_coefficient "retry_latency_ns" (CostModel.retry_latency_ns m) d0 e12;;
  validate_coefficient "conflict_stall_ns" (CostModel.conflict_stall_ns m) d0 e12;;
  validate_coefficient "bandwidth_bytes_per_ns" (CostModel.bandwidth_bytes_per_ns m) d0 e9;;
  validate_coefficient "cxl_multiplier" (CostModel.cxl_multiplier m) d0 e6;;
  validate_coefficient "pooled_multiplier" (CostModel.pooled_multiplier m) d0 e6;;
  validate_coefficient "remote_node_multiplier" (CostModel.remote_node_multiplier m) d0 e6;;
  reject_if (CostModel.version m =? 0) ErrorCode.InvalidArgument
    "cost model version must be non-zero".

Definition default_cost_model : CostModel.t := {|
  CostModel.id := "generic-numa-latency";
  CostModel.version := 1;
  CostModel.defined := true;
  CostModel.remote_read_latency_ns := d_of_Z 180;
  CostModel.remote_write_latency_ns := d_of_Z 220;
  CostModel.invalidation_latency_ns := d_of_Z 90;
  CostModel.ownership_transfer_latency_ns := d_of_Z 240;
  CostModel.retry_latency_ns := d_of_Z 400;
  CostModel.conflict_stall_ns := d_of_Z 600;
  CostModel.bandwidth_bytes_per_ns := d_of_Z 12;
  CostModel.cxl_multiplier := d_ratio 18 10;
  CostModel.pooled_multiplier := d_ratio 21 10;
  CostModel.remote_node_multiplier := d_of_Z 3;
|}.

(** ** Estimation *)

Definition locality_multiplier (m : CostModel.t) (l : Locality.t) : double :=
  match l with
  | Locality.CxlAttached => CostModel.cxl_multiplier m
  | Locality.PooledMemory => CostModel.pooled_multiplier m
  | Locality.RemoteNode => CostModel.remote_node_multiplier m
  | _ => d1
  end.

(** One of the exact-fact terms: a count reported with coefficient one. *)
Definition fact_term (name : string) (dim : CostDimension.t) (kind : CostKind.t)
    (count : Z) (unit_ : string) : list CostTerm.t :=
  if count =? 0 then []
  else [CostTerm.mk name dim (d_of_Z count) kind d1 (d_of_Z count) unit_].

Definition fact_terms (i : CostInputs.t) : list CostTerm.t :=
  fact_term "transfer.bytes" CostDimension.BytesTransferred
    (if 0 <=? CostInputs.measured_duration_ns i then CostKind.Measured else CostKind.CounterDerived)
    (CostInputs.bytes i) "bytes"
  ++ fact_term "remote_read.count" CostDimension.RemoteMemoryAccesses CostKind.CounterDerived
       (CostInputs.remote_reads i) "accesses"
  ++ fact_term "remote_write.count" CostDimension.RemoteMemoryAccesses CostKind.CounterDerived
       (CostInputs.remote_writes i) "accesses"
  ++ fact_term "invalidation.count" CostDimension.InvalidatedBytes CostKind.CounterDerived
       (CostInputs.invalidations i) "invalidations"
  ++ fact_term "ownership_transfer.count" CostDimension.OwnershipTransfers CostKind.CounterDerived
       (CostInputs.ownership_transfers i) "transfers"
  ++ fact_term "retry.count" CostDimension.RetryOverhead CostKind.CounterDerived
       (CostInputs.retries i) "retries".

(** The [model_term] lambda: appends a term and adds its value to the latency,
    unless the quantity is zero. *)
Definition model_term (multiplier : double) (name : string) (dim : CostDimension.t)
    (coefficient quantity : double) (unit_ : string) (c : CostEstimate.t) : CostEstimate.t :=
  if deqb quantity d0 then c
  else
    let coef := dmul coefficient multiplier in
    let value := dmul coef quantity in
    c <| CostEstimate.latency_ns ::= fun l => dadd l value |>
      <| CostEstimate.terms ::= fun ts =>
           ts ++ [CostTerm.mk name dim value CostKind.ModelEstimated coef quantity unit_] |>.

Definition bandwidth_term (m : CostModel.t) (bytes : Z) (c : CostEstimate.t) : CostEstimate.t :=
  if dltb d0 (CostModel.bandwidth_bytes_per_ns m) && negb (bytes =? 0) then
    let coef := ddiv d1 (CostModel.bandwidth_bytes_per_ns m) in
    let quantity := d_of_Z bytes in
    let value := dmul coef quantity in
    c <| CostEstimate.latency_ns ::= fun l => dadd l value |>
      <| CostEstimate.terms ::= fun ts =>
           ts ++ [CostTerm.mk "transfer.bandwidth_time" CostDimension.LatencyNanos value
                    CostKind.ModelEstimated coef quantity "ns"] |>
  else c.

(** The branch that applies a defined model. *)
Definition apply_model (m : CostModel.t) (multiplier : double) (i : CostInputs.t)
    (c : CostEstimate.t) : CostEstimate.t :=
  let c := c <| CostEstimate.kind := CostKind.ModelEstimated |>
             <| CostEstimate.model_id := CostModel.id m |>
             <| CostEstimate.model_version := CostModel.version m |>
             <| CostEstimate.bandwidth_bytes_per_ns := CostModel.bandwidth_bytes_per_ns m |> in
  let term := model_term multiplier in
  let c := term "remote_read.latency" CostDimension.LatencyNanos
             (CostModel.remote_read_latency_ns m) (d_of_Z (CostInputs.remote_reads i)) "ns" c in
  let c := term "remote_write.latency" CostDimension.LatencyNanos
             (CostModel.remote_write_latency_ns m) (d_of_Z (CostInputs.remote_writes i)) "ns" c in
  let c := term "invalidation.latency" CostDimension.LatencyNanos
             (CostModel.invalidation_latency_ns m) (d_of_Z (CostInputs.invalidations i)) "ns" c in
  let c := term "ownership_transfer.latency" CostDimension.LatencyNanos
             (CostModel.ownership_transfer_latency_ns m)
             (d_of_Z (CostInputs.ownership_transfers i)) "ns" c in
  let c := term "retry.latency" CostDimension.LatencyNanos
             (CostModel.retry_latency_ns m) (d_of_Z (CostInputs.retries i)) "ns" c in
  let c := term "conflict.stall" CostDimension.StallCycles
             (CostModel.conflict_stall_ns m) (d_of_Z (CostInputs.conflicts i)) "ns" c in
  bandwidth_term m (CostInputs.bytes i) c.

Definition apply_measurement (duration : Z) (c : CostEstimate.t) : CostEstimate.t :=
  let latency := d_of_Z duration in
  c <| CostEstimate.kind := CostKind.Measured |>
    <| CostEstimate.latency_ns := latency |>
    <| CostEstimate.terms ::= fun ts =>
         ts ++ [CostTerm.mk "measured.duration" CostDimension.LatencyNanos latency
                  CostKind.Measured d1 d1 "ns"] |>.

(** [if (!(latency == latency) || latency < 0.0) { latency = 0.0; lower_bound = true; }] *)
Definition clamp_latency (c : CostEstimate.t) : CostEstimate.t :=
  if negb (deqb (CostEstimate.latency_ns c) (CostEstimate.latency_ns c))
     || dltb (CostEstimate.latency_ns c) d0
  then c <| CostEstimate.latency_ns := d0 |> <| CostEstimate.lower_bound := true |>
  else c.

Definition term_le (a b : CostTerm.t) : Prop := key_le (CostTerm.name a) (CostTerm.name b).
#[global] Instance term_le_dec a b : Decision (term_le a b).
Proof. unfold term_le. apply _. Defined.

(** The counts that are reported as they are, and their terms. *)
Definition initial_estimate (i : CostInputs.t) : CostEstimate.t :=
  CostEstimate.empty
    <| CostEstimate.precision := CostInputs.precision i |>
    <| CostEstimate.bytes := CostInputs.bytes i |>
    <| CostEstimate.remote_accesses :=
         u64_add (CostInputs.remote_reads i) (CostInputs.remote_writes i) |>
    <| CostEstimate.ownership_transfers := CostInputs.ownership_transfers i |>
    <| CostEstimate.invalidations := CostInputs.invalidations i |>
    <| CostEstimate.retries := CostInputs.retries i |>
    <| CostEstimate.terms := fact_terms i |>.

(** The three-way choice between a measurement, no model and a model. *)
Definition raw_estimate (m : CostModel.t) (i : CostInputs.t) : CostEstimate.t :=
  let c := initial_estimate i in
  let multiplier :=
    if CostInputs.locality_known i then locality_multiplier m (CostInputs.locality i) else d1 in
  if 0 <=? CostInputs.measured_duration_ns i
  then apply_measurement (CostInputs.measured_duration_ns i) c
  else if negb (CostModel.defined m)
  then c <| CostEstimate.kind :=
              match CostEstimate.terms c with
              | [] => CostKind.Unknown
              | _ => CostKind.CounterDerived
              end |>
  else apply_model m multiplier i c.

Definition estimate_cost (m : CostModel.t) (i : CostInputs.t) : CostEstimate.t :=
  (clamp_latency (raw_estimate m i)) <| CostEstimate.terms ::= merge_sort term_le |>.

(** ** Properties *)

Section estimate_lemmas.
Variables (m : CostModel.t) (i : CostInputs.t).

(** Kinds that may appear in a term list, and the names it may use. *)
Definition kinds_in (ks : list CostKind.t) (ts : list CostTerm.t) : Prop :=
  Forall (λ t, CostTerm.kind t ∈ ks) ts.
Definition names_in (ns : list string) (ts : list CostTerm.t) : Prop :=
  (CostTerm.name <$> ts) `sublist_of` ns.

Lemma kinds_in_app ks ts us : kinds_in ks ts → kinds_in ks us → kinds_in ks (ts ++ us).
Proof. intros. by apply Forall_app_2. Qed.
Lemma names_in_app ns ms ts us :
  names_in ns ts → names_in ms us → names_in (ns ++ ms) (ts ++ us).
Proof. unfold names_in. rewrite fmap_app. apply sublist_app. Qed.

Lemma kinds_in_one ks n d v k c q u : k ∈ ks → kinds_in ks [CostTerm.mk n d v k c q u].
Proof. intros. by constructor. Qed.
Lemma names_in_one n d v k c q u : names_in [n] [CostTerm.mk n d v k c q u].
Proof. unfold names_in. done. Qed.
Lemma names_in_nil ns : names_in ns [].
Proof. apply sublist_nil_l. Qed.

Lemma fact_term_kinds ks n d k c u : k ∈ ks → kinds_in ks (fact_term n d k c u).
Proof. unfold fact_term. intros. destruct (c =? 0); [constructor|by apply kinds_in_one]. Qed.
Lemma fact_term_names n d k c u : names_in [n] (fact_term n d k c u).
Proof. unfold fact_term. destruct (c =? 0); [apply names_in_nil|apply names_in_one]. Qed.

(** The effect of a model term on the estimate: at most one estimated term. *)
Lemma model_term_terms mu n d co q u c : ∃ ts,
  CostEstimate.terms (model_term mu n d co q u c) = CostEstimate.terms c ++ ts
  ∧ kinds_in [CostKind.ModelEstimated] ts ∧ names_in [n] ts
  ∧ CostEstimate.kind (model_term mu n d co q u c) = CostEstimate.kind c.
Proof.
  unfold model_term. destruct (deqb q d0); simpl.
  - exists []. rewrite app_nil_r. repeat split; [constructor|apply names_in_nil].
  - eexists. repeat split; [by apply kinds_in_one, list_elem_of_singleton|apply names_in_one].
Qed.

Lemma bandwidth_term_terms b c : ∃ ts,
  CostEstimate.terms (bandwidth_term m b c) = CostEstimate.terms c ++ ts
  ∧ kinds_in [CostKind.ModelEstimated] ts ∧ names_in ["transfer.bandwidth_time"%string] ts
  ∧ CostEstimate.kind (bandwidth_term m b c) = CostEstimate.kind c.
Proof.
  unfold bandwidth_term. destruct (_ && _); simpl.
  - eexists. repeat split; [by apply kinds_in_one, list_elem_of_singleton|apply names_in_one].
  - exists []. rewrite app_nil_r. repeat split; [constructor|apply names_in_nil].
Qed.

Definition model_names : list string :=
  ["remote_read.latency"; "remote_write.latency"; "invalidation.latency";
   "ownership_transfer.latency"; "retry.latency"; "conflict.stall";
   "transfer.bandwidth_time"]%string.
Definition fact_names : list string :=
  ["transfer.bytes"; "remote_read.count"; "remote_write.count"; "invalidation.count";
   "ownership_transfer.count"; "retry.count"]%string.

Lemma fact_terms_names : names_in fact_names (fact_terms i).
Proof.
  unfold fact_terms.
  apply (names_in_app [_] [_; _; _; _; _]); [apply fact_term_names|].
  apply (names_in_app [_] [_; _; _; _]); [apply fact_term_names|].
  apply (names_in_app [_] [_; _; _]); [apply fact_term_names|].
  apply (names_in_app [_] [_; _]); [apply fact_term_names|].
  apply (names_in_app [_] [_]); apply fact_term_names.
Qed.

Lemma fact_terms_kinds :
  kinds_in (if 0 <=? CostInputs.measured_duration_ns i
            then [CostKind.Measured; CostKind.CounterDerived] else [CostKind.CounterDerived])
    (fact_terms i).
Proof.
  unfold fact_terms. destruct (0 <=? _);
    repeat (apply kinds_in_app; [apply fact_term_kinds; set_solver|]);
    apply fact_term_kinds; set_solver.
Qed.

Lemma apply_model_terms mu c : ∃ ts,
  CostEstimate.terms (apply_model m mu i c) = CostEstimate.terms c ++ ts
  ∧ kinds_in [CostKind.ModelEstimated] ts ∧ names_in model_names ts
  ∧ CostEstimate.kind (apply_model m mu i c) = CostKind.ModelEstimated.
Proof.
  unfold apply_model. cbv zeta.
  match goal with |- context [bandwidth_term m ?b ?c] =>
    destruct (bandwidth_term_terms b c) as (t7 & E7 & K7 & N7 & H7) end.
  rewrite E7, H7. clear E7 H7.
  do 6 match goal with |- context [model_term mu ?n ?d ?co ?q ?u ?c] =>
    let t := fresh "t" in let E := fresh "E" in let H := fresh "H" in
    destruct (model_term_terms mu n d co q u c) as (t & E & ? & ? & H);
    rewrite ?E, ?H; clear E H end.
  simpl. rewrite <-!app_assoc. eexists. split; [reflexivity|]. repeat split.
  - repeat (apply kinds_in_app; [assumption|]). assumption.
  - apply (names_in_app [_] [_; _; _; _; _; _]); [assumption|].
    apply (names_in_app [_] [_; _; _; _; _]); [assumption|].
    apply (names_in_app [_] [_; _; _; _]); [assumption|].
    apply (names_in_app [_] [_; _; _]); [assumption|].
    apply (names_in_app [_] [_; _]); [assumption|].
    by apply (names_in_app [_] [_]).
Qed.
End estimate_lemmas.

Lemma clamp_latency_same c :
  CostEstimate.terms (clamp_latency c) = CostEstimate.terms c
  ∧ CostEstimate.kind (clamp_latency c) = CostEstimate.kind c.
Proof. unfold clamp_latency. by destruct (_ || _). Qed.

Lemma estimate_cost_raw m i :
  CostEstimate.terms (estimate_cost m i) = merge_sort term_le (CostEstimate.terms (raw_estimate m i))
  ∧ CostEstimate.kind (estimate_cost m i) = CostEstimate.kind (raw_estimate m i).
Proof.
  destruct (clamp_latency_same (raw_estimate m i)) as [Ht Hk].
  unfold estimate_cost, update_field. cbn [CostEstimate.terms CostEstimate.kind].
  by rewrite Ht, Hk.
Qed.

(** Labels and names of the estimate before the final sort. *)
Lemma raw_estimate_terms m i :
  let c := raw_estimate m i in
  names_in (fact_names ++ ["measured.duration"%string] ++ model_names) (CostEstimate.terms c)
  ∧ if 0 <=? CostInputs.measured_duration_ns i then
      CostEstimate.kind c = CostKind.Measured
      ∧ kinds_in [CostKind.Measured; CostKind.CounterDerived] (CostEstimate.terms c)
    else if CostModel.defined m then
      CostEstimate.kind c = CostKind.ModelEstimated
      ∧ kinds_in [CostKind.CounterDerived; CostKind.ModelEstimated] (CostEstimate.terms c)
    else
      CostEstimate.kind c ∈ [CostKind.Unknown; CostKind.CounterDerived]
      ∧ kinds_in [CostKind.CounterDerived] (CostEstimate.terms c).
Proof.
  pose proof (fact_terms_names i) as Hn. pose proof (fact_terms_kinds i) as Hk.
  unfold raw_estimate. cbv zeta.
  destruct (0 <=? _) eqn:Hd; simpl.
  - split; [|split; [done|]].
    + apply (names_in_app fact_names (["measured.duration"%string] ++ model_names)); [done|].
      by apply (names_in_app [_] model_names [_] [] (names_in_one _ _ _ _ _ _ _)), names_in_nil.
    + apply kinds_in_app; [done|]. apply kinds_in_one. set_solver.
  - destruct (CostModel.defined m); simpl.
    + match goal with |- context [apply_model m ?mu i ?c] =>
        destruct (apply_model_terms m i mu c) as (ts & -> & Hts & Hns & ->) end.
      simpl. split; [|split; [done|]].
      * apply (names_in_app fact_names (["measured.duration"%string] ++ model_names)); [done|].
        by apply (names_in_app ["measured.duration"%string] model_names [] ts (names_in_nil _)).
      * apply kinds_in_app; eapply Forall_impl; try eassumption; simpl; set_solver.
    + split; [|split; [|done]].
      * rewrite <-(app_nil_r (fact_terms i)).
        apply (names_in_app fact_names _ _ []); [done|apply names_in_nil].
      * destruct (fact_terms i); set_solver.
Qed.

(** An estimate is never presented as a measurement and a measurement
    never as an estimate: the figure is labelled MEASURED exactly when the
    source supplied a duration, no term of an unmeasured figure is labelled
    MEASURED, and a MODEL_ESTIMATED term only occurs in a figure labelled
    MODEL_ESTIMATED, computed without a measurement by a defined model. *)
Theorem estimate_cost_labels_honest m i t :
  let c := estimate_cost m i in
  (CostEstimate.kind c = CostKind.Measured ↔ 0 ≤ CostInputs.measured_duration_ns i)
  ∧ (t ∈ CostEstimate.terms c → CostTerm.kind t = CostKind.Measured →
       0 ≤ CostInputs.measured_duration_ns i)
  ∧ (t ∈ CostEstimate.terms c → CostTerm.kind t = CostKind.ModelEstimated →
       CostEstimate.kind c = CostKind.ModelEstimated
       ∧ CostModel.defined m = true ∧ CostInputs.measured_duration_ns i < 0).
Proof.
  cbv zeta. destruct (estimate_cost_raw m i) as [-> ->].
  destruct (raw_estimate_terms m i) as (_ & H). set (c := raw_estimate m i) in *. clearbody c.
  rewrite merge_sort_Permutation.
  destruct (Z.leb_spec 0 (CostInputs.measured_duration_ns i)) as [Hd|Hd];
    [|destruct (CostModel.defined m)]; destruct H as [Hc Hk];
    (split; [|split; intros Ht Hkt; unfold kinds_in in Hk; rewrite Forall_forall in Hk;
              specialize (Hk _ Ht); simpl in Hk; rewrite Hkt in Hk]).
  all: try (rewrite Hc; naive_solver lia). all: try set_solver.
  split; [|lia]. intros E. rewrite E in Hc. set_solver.
Qed.

Lemma clamp_latency_ok c :
  let l := CostEstimate.latency_ns (clamp_latency c) in
  deqb l l = true ∧ dltb l d0 = false.
Proof.
  unfold clamp_latency. cbv zeta.
  destruct (negb _ || _) eqn:E; simpl; [done|].
  apply orb_false_iff in E as [E1 E2]. by rewrite negb_false_iff in E1.
Qed.

#[global] Instance term_le_total : Total term_le.
Proof. intros a b. apply key_leb_total. Qed.

(** The reported latency is never NaN and never negative, whatever
    the coefficients and counts, and the decomposition lists each named term at
    most once, in name order, so equal inputs render identically. *)
Theorem estimate_cost_well_formed m i :
  let c := estimate_cost m i in
  let l := CostEstimate.latency_ns c in
  deqb l l = true ∧ dltb l d0 = false
  ∧ NoDup (CostTerm.name <$> CostEstimate.terms c)
  ∧ Sorted term_le (CostEstimate.terms c).
Proof.
  cbv zeta. destruct (estimate_cost_raw m i) as [Ht _].
  destruct (raw_estimate_terms m i) as (Hn & _).
  destruct (clamp_latency_ok (raw_estimate m i)) as [??]. rewrite Ht.
  split; [assumption|]. split; [assumption|]. split.
  - rewrite (merge_sort_Permutation term_le). eapply sublist_NoDup; [|exact Hn].
    apply (bool_decide_unpack _). by vm_compute.
  - apply Sorted_merge_sort, _.
Qed.
