(* ===== verification/Records.v ===== *)
(** * Registered entities

    The records of [resource.hpp], [region.hpp], [topology.hpp] and
    [publisher.hpp] with their functions ([src/region.cpp], [src/topology.cpp],
    [src/publisher.cpp]).  Name identities are strings; generations, epochs and
    boot identities are 64-bit integers; [Nanos] is a signed integer. *)

From S2P Require Import Prelude Errors Checked TextUtil Ids Taxonomy.

#[global] Instance in_u64_dec x : Decision (in_u64 x).
Proof. unfold in_u64. apply _. Defined.

(** ** Resources *)

Module ResourceRef.
Record t := mk { kind : ResourceKind.t; id : string; generation : Z }.
#[global] Instance t_eq_dec : EqDecision t.
Proof. solve_decision. Defined.
Definition empty (r : t) : bool := sempty (id r).
(** A default-constructed reference. *)
Definition none : t := mk ResourceKind.Unknown "" 0.
End ResourceRef.

Module NodeRecord.
Record t := mk { id : string; display_name : string; registered_at_ns : Z }.
#[global] Instance eta : Eta t := fun r => mk (id r) (display_name r) (registered_at_ns r).
End NodeRecord.

Module ProcessorRecord.
Record t := mk {
  id : string; node : string; generation : Z;
  logical_processor_count : Z; physical_core_count : Z;
  numa_node_index : Z; numa_node_index_known : bool;
  local_memory_domain : string; retired : bool; registered_at_ns : Z;
}.
#[global] Instance eta : Eta t := fun r =>
  mk (id r) (node r) (generation r) (logical_processor_count r) (physical_core_count r)
    (numa_node_index r) (numa_node_index_known r) (local_memory_domain r) (retired r)
    (registered_at_ns r).
End ProcessorRecord.

Module AcceleratorRecord.
Record t := mk {
  id : string; node : string; generation : Z;
  vendor : string; vendor_uuid : string; local_memory_domain : string;
  peer_coherent_capable : bool; peer_coherent_capability_known : bool;
  retired : bool; registered_at_ns : Z;
}.
#[global] Instance eta : Eta t := fun r =>
  mk (id r) (node r) (generation r) (vendor r) (vendor_uuid r) (local_memory_domain r)
    (peer_coherent_capable r) (peer_coherent_capability_known r) (retired r)
    (registered_at_ns r).
End AcceleratorRecord.

Module MemoryDomainRecord.
Record t := mk {
  id : string; generation : Z; node : string; kind : MemoryDomainKind.t;
  coherence_domain : string;
  coherent_with_host : bool; coherent_with_host_known : bool;
  capacity_bytes : Z; capacity_known : bool; retired : bool; registered_at_ns : Z;
}.
#[global] Instance eta : Eta t := fun r =>
  mk (id r) (generation r) (node r) (kind r) (coherence_domain r) (coherent_with_host r)
    (coherent_with_host_known r) (capacity_bytes r) (capacity_known r) (retired r)
    (registered_at_ns r).
End MemoryDomainRecord.

Module CoherenceDomainRecord.
Record t := mk {
  id : string; generation : Z; protocol_family : string;
  members : list ResourceRef.t; retired : bool; registered_at_ns : Z;
}.
#[global] Instance eta : Eta t := fun r =>
  mk (id r) (generation r) (protocol_family r) (members r) (retired r) (registered_at_ns r).
End CoherenceDomainRecord.

(** ** Regions *)

Module RegionRecord.
Record t := mk {
  id : string; generation : Z; opaque_handle : Z; owner : string;
  memory_domain : string; memory_domain_generation : Z; coherence_domain : string;
  sharing_scope : SharingScope.t;
  size_bytes : Z; size_known : bool; page_size_bytes : Z; page_size_known : bool;
  allocation_generation : Z; mapping_generation : Z;
  workload : string; annotation : string; retired : bool;
  registered_at_ns : Z; retired_at_ns : Z; loaded_from_state : bool;
}.
#[global] Instance eta : Eta t := fun r =>
  mk (id r) (generation r) (opaque_handle r) (owner r) (memory_domain r)
    (memory_domain_generation r) (coherence_domain r) (sharing_scope r) (size_bytes r)
    (size_known r) (page_size_bytes r) (page_size_known r) (allocation_generation r)
    (mapping_generation r) (workload r) (annotation r) (retired r) (registered_at_ns r)
    (retired_at_ns r) (loaded_from_state r).
End RegionRecord.

(** splitmix64 finalizer; [xorshift k value] is [value ^ (value >> k)]. *)
Definition xorshift (k value : Z) : Z := Z.lxor value (Z.shiftr value k).

Definition mix64 (value : Z) : Z :=
  let value := u64_add value 0x9E3779B97F4A7C15 in
  let value := u64_mul (xorshift 30 value) 0xBF58476D1CE4E5B9 in
  let value := u64_mul (xorshift 27 value) 0x94D049BB133111EB in
  xorshift 31 value.

Definition make_opaque_handle (address owner_salt : Z) : Z :=
  mix64 (Z.lxor address (mix64 (Z.lxor owner_salt 0xA5A5A5A5A5A5A5A5))).

Definition bool_u64 (b : bool) : Z := if b then 1 else 0.

Definition region_identity_fingerprint (r : RegionRecord.t) : Z :=
  let h := fnv1a_init in
  let h := fnv1a_str h (RegionRecord.id r) in
  let h := fnv1a_u64 h (RegionRecord.generation r) in
  let h := fnv1a_u64 h (RegionRecord.opaque_handle r) in
  let h := fnv1a_str h (RegionRecord.owner r) in
  let h := fnv1a_str h (RegionRecord.memory_domain r) in
  let h := fnv1a_u64 h (RegionRecord.memory_domain_generation r) in
  let h := fnv1a_str h (RegionRecord.coherence_domain r) in
  let h := fnv1a_u64 h (SharingScope.code (RegionRecord.sharing_scope r)) in
  let h := fnv1a_u64 h (RegionRecord.size_bytes r) in
  let h := fnv1a_u64 h (RegionRecord.page_size_bytes r) in
  let h := fnv1a_u64 h (RegionRecord.allocation_generation r) in
  let h := fnv1a_u64 h (RegionRecord.mapping_generation r) in
  fnv1a_u64 h (bool_u64 (RegionRecord.retired r)).

(** *** The handle mixer is a bijection of the 64-bit words *)

Lemma lxor_u64 a b : in_u64 a → in_u64 b → in_u64 (Z.lxor a b).
Proof.
  unfold in_u64, u64_max. intros Ha Hb. split; [apply Z.lxor_nonneg; lia|].
  destruct (Z.eq_dec (Z.lxor a b) 0) as [->|Hne]; [lia|].
  assert (Z.log2 (Z.lxor a b) < 64) as Hl.
  { pose proof (Z.log2_lxor a b ltac:(lia) ltac:(lia)).
    assert (∀ x, 0 ≤ x ≤ 18446744073709551615 → Z.log2 x < 64).
    { intros x Hx. destruct (Z.eq_dec x 0) as [->|]; [done|]. apply Z.log2_lt_pow2; lia. }
    pose proof (H0 a Ha). pose proof (H0 b Hb). lia. }
  apply Z.log2_lt_pow2 in Hl; [lia|]. pose proof (Z.lxor_nonneg a b). lia.
Qed.

Lemma xorshift_inj k a b :
  0 < k → 0 ≤ a → 0 ≤ b →
  xorshift k a = xorshift k b → a = b.
Proof.
  unfold xorshift. intros Hk Ha Hb E. set (d := Z.lxor a b).
  assert (d = Z.shiftr d k) as Hd.
  { unfold d. rewrite Z.shiftr_lxor. apply Z.lxor_eq.
    replace (Z.lxor (Z.lxor a b) (Z.lxor (Z.shiftr a k) (Z.shiftr b k)))
      with (Z.lxor (Z.lxor a (Z.shiftr a k)) (Z.lxor b (Z.shiftr b k))).
    - rewrite E. apply Z.lxor_nilpotent.
    - apply Z.bits_inj'. intros n _. rewrite !Z.lxor_spec.
      destruct (Z.testbit a n), (Z.testbit b n), (Z.testbit (Z.shiftr a k) n),
        (Z.testbit (Z.shiftr b k) n); done. }
  assert (0 ≤ d) by (apply Z.lxor_nonneg; lia).
  rewrite Z.shiftr_div_pow2 in Hd by lia.
  apply Z.lxor_eq. fold d. destruct (Z.eq_dec d 0); [done|].
  assert (d / 2 ^ k < d); [|lia].
  apply Z.div_lt; [lia|]. apply Z.pow_gt_1; lia.
Qed.

(** Multiplication by an odd constant, given its inverse modulo 2^64. *)
Lemma mul_inj m minv a b :
  wrap64 (m * minv) = 1 → in_u64 a → in_u64 b → u64_mul a m = u64_mul b m → a = b.
Proof.
  unfold u64_mul. intros Hm Ha Hb E.
  rewrite <-(wrap64_small a Ha), <-(wrap64_small b Hb).
  assert (∀ x, wrap64 x = wrap64 (wrap64 (x * m) * minv)) as Hx.
  { intros x. unfold wrap64 in *. rewrite Z.mul_mod_idemp_l by done.
    rewrite <-Z.mul_assoc, Z.mul_mod, Hm by done. rewrite Z.mul_1_r.
    by rewrite Z.mod_mod. }
  rewrite (Hx a), (Hx b), E. done.
Qed.

Lemma xorshift_range k a : 0 ≤ k → in_u64 a → in_u64 (xorshift k a).
Proof.
  intros Hk Ha. apply lxor_u64; [done|].
  unfold in_u64 in *. rewrite Z.shiftr_div_pow2 by lia. split.
  - apply Z.div_pos; [lia|]. by apply Z.pow_pos_nonneg.
  - assert (a / 2 ^ k ≤ a); [|lia]. apply Z.div_le_upper_bound; [by apply Z.pow_pos_nonneg|].
    pose proof (Z.pow_pos_nonneg 2 k). nia.
Qed.

Lemma u64_add_inj c a b : in_u64 a → in_u64 b → u64_add a c = u64_add b c → a = b.
Proof.
  unfold u64_add. intros Ha Hb E. rewrite <-(wrap64_small a Ha), <-(wrap64_small b Hb).
  assert (∀ x, wrap64 x = wrap64 (wrap64 (x + c) - c)) as Hx.
  { intros x. unfold wrap64. rewrite Zminus_mod_idemp_l. f_equal. lia. }
  rewrite (Hx a), (Hx b), E. done.
Qed.

Lemma mix64_range v : in_u64 (mix64 v).
Proof. apply xorshift_range; [lia|apply wrap64_range]. Qed.

Lemma mix64_inj a b : in_u64 a → in_u64 b → mix64 a = mix64 b → a = b.
Proof.
  intros Ha Hb E. unfold mix64 in E.
  apply xorshift_inj in E; [|lia|apply wrap64_range..].
  apply (mul_inj _ 0x319642B2D24D8EC3) in E;
    [|by vm_compute|apply xorshift_range; [lia|apply wrap64_range]..].
  apply xorshift_inj in E; [|lia|apply wrap64_range..].
  apply (mul_inj _ 0x96DE1B173F119089) in E;
    [|by vm_compute|apply xorshift_range; [lia|apply wrap64_range]..].
  apply xorshift_inj in E; [|lia|apply wrap64_range..].
  by apply u64_add_inj in E.
Qed.

(** Distinct addresses of one owner never share an opaque handle: for
    a fixed salt the handle is an injective function of the 64-bit address, so
    handle equality is address equality although the address is not stored. *)
Theorem make_opaque_handle_injective salt a b :
  in_u64 a → in_u64 b → a ≠ b → make_opaque_handle a salt ≠ make_opaque_handle b salt.
Proof.
  unfold make_opaque_handle. intros Ha Hb Hne E. apply Hne.
  assert (in_u64 (mix64 (Z.lxor salt 0xA5A5A5A5A5A5A5A5))) as Hs by apply mix64_range.
  revert E Hs. generalize (mix64 (Z.lxor salt 0xA5A5A5A5A5A5A5A5)). intros s E Hs.
  apply mix64_inj in E; [|by apply lxor_u64..].
  apply (f_equal (λ x, Z.lxor x s)) in E.
  by rewrite !Z.lxor_assoc, !Z.lxor_nilpotent, !Z.lxor_0_r in E.
Qed.

Lemma make_opaque_handle_injective_witness :
  make_opaque_handle 4096 7 ≠ make_opaque_handle 8192 7.
Proof. apply (make_opaque_handle_injective 7 4096 8192); unfold in_u64, u64_max; lia. Defined.

(** ** Topology *)

Module TopologyLink.
Record t := mk {
  from : ResourceRef.t; to : ResourceRef.t; locality : Locality.t;
  latency_ns : Z; bandwidth_bytes_per_second : Z; provenance : Provenance.t;
}.
End TopologyLink.

Module TopologyRecord.
Record t := mk {
  generation : Z; links : list TopologyLink.t; created_at_ns : Z; loaded_from_state : bool;
}.
#[global] Instance eta : Eta t := fun r =>
  mk (generation r) (links r) (created_at_ns r) (loaded_from_state r).
End TopologyRecord.

Definition same_resource (a b : ResourceRef.t) : bool :=
  bool_decide (ResourceRef.kind a = ResourceRef.kind b)
  && bool_decide (ResourceRef.id a = ResourceRef.id b).

(** The loop over the links: the first link that joins the two identities. *)
Fixpoint link_locality (links : list TopologyLink.t) (from to : ResourceRef.t) : Locality.t :=
  match links with
  | [] => Locality.Unknown
  | l :: rest =>
      if same_resource (TopologyLink.from l) from && same_resource (TopologyLink.to l) to
      then TopologyLink.locality l
      else link_locality rest from to
  end.

Definition locality_between (topology : TopologyRecord.t) (from to : ResourceRef.t) : Locality.t :=
  if ResourceRef.empty from || ResourceRef.empty to then Locality.Unknown
  else if same_resource from to then
    if ResourceRef.generation from =? ResourceRef.generation to
    then Locality.LocalProcessor else Locality.Unknown
  else link_locality (TopologyRecord.links topology) from to.

(** ** Publishers *)

Module FenceReason.
Inductive t :=
  | NotFenced | ConnectionClosed | Administrative | LivenessDeadline
  | CoordinatorRestart | SupersededByNewBoot.
#[global] Instance t_eq_dec : EqDecision t.
Proof. solve_decision. Defined.
Definition to_string (r : t) : string :=
  match r with
  | NotFenced => "NOT_FENCED"
  | ConnectionClosed => "CONNECTION_CLOSED"
  | Administrative => "ADMINISTRATIVE"
  | LivenessDeadline => "LIVENESS_DEADLINE"
  | CoordinatorRestart => "COORDINATOR_RESTART"
  | SupersededByNewBoot => "SUPERSEDED_BY_NEW_BOOT"
  end.
End FenceReason.

Module SequenceState.
Record t := mk {
  high_watermark : Z; next_expected : Z; accepted : Z; duplicates : Z;
  conflicting_duplicates : Z; late_events : Z; missing_events : Z; rejected_stale : Z;
  counter_resets : Z; counter_wraps : Z; sequence_gaps : Z;
}.
#[global] Instance eta : Eta t := fun r =>
  mk (high_watermark r) (next_expected r) (accepted r) (duplicates r)
    (conflicting_duplicates r) (late_events r) (missing_events r) (rejected_stale r)
    (counter_resets r) (counter_wraps r) (sequence_gaps r).
Definition empty : t := mk 0 0 0 0 0 0 0 0 0 0 0.
End SequenceState.

Module PublisherView.
Record t := mk {
  id : string; boot : Z; observer : string; node : string; display_name : string;
  provenance : Provenance.t; reality : Reality.t;
  registered_epoch : Z; evidence_generation : Z; sampling_epoch : Z;
  registered_at_ns : Z; last_seen_ns : Z;
  current : bool; fenced : bool; fence_reason : FenceReason.t; fence_detail : string;
  loaded_from_state : bool; sequences : SequenceState.t;
  accepted_events : Z; accepted_batches : Z; accepted_counters : Z; rejected_events : Z;
}.
#[global] Instance eta : Eta t := fun r =>
  mk (id r) (boot r) (observer r) (node r) (display_name r) (provenance r) (reality r)
    (registered_epoch r) (evidence_generation r) (sampling_epoch r) (registered_at_ns r)
    (last_seen_ns r) (current r) (fenced r) (fence_reason r) (fence_detail r)
    (loaded_from_state r) (sequences r) (accepted_events r) (accepted_batches r)
    (accepted_counters r) (rejected_events r).
(** A default-constructed view. *)
Definition empty : t :=
  mk "" 0 "" "" "" Provenance.Unknown Reality.Real 0 0 0 0 0 false false
    FenceReason.NotFenced "" false SequenceState.empty 0 0 0 0.
End PublisherView.

Module StaleEvidenceRecord.
(** [StaleEvidenceRecord::Kind]. *)
Inductive Kind :=
  | StaleGeneration | RetiredRegion | TopologySuperseded | StaleBoot | StaleEpoch
  | StaleSequence | FencedPublisher.
Definition kind_code (k : Kind) : Z :=
  match k with
  | StaleGeneration => 0 | RetiredRegion => 1 | TopologySuperseded => 2 | StaleBoot => 3
  | StaleEpoch => 4 | StaleSequence => 5 | FencedPublisher => 6
  end.
Definition kind_to_string (k : Kind) : string :=
  match k with
  | StaleGeneration => "STALE_GENERATION"
  | RetiredRegion => "RETIRED_REGION"
  | TopologySuperseded => "TOPOLOGY_SUPERSEDED"
  | StaleBoot => "STALE_BOOT"
  | StaleEpoch => "STALE_EPOCH"
  | StaleSequence => "STALE_SEQUENCE"
  | FencedPublisher => "FENCED_PUBLISHER"
  end.
Record t := mk {
  kind : Kind; event_id : Z; publisher : string; publisher_boot : Z; region : string;
  event_type : EventType.t; observed_at_ns : Z; detail : string;
}.
#[global] Instance eta : Eta t := fun r =>
  mk (kind r) (event_id r) (publisher r) (publisher_boot r) (region r) (event_type r)
    (observed_at_ns r) (detail r).
Definition empty : t :=
  mk StaleGeneration 0 "" 0 "" EventType.UnknownCoherenceEvent 0 "".
End StaleEvidenceRecord.

Module LossReport.
Record t := mk {
  rejected_observations : Z; rejected_duplicates : Z; rejected_conflicting_duplicates : Z;
  rejected_stale_sequences : Z; rejected_unauthorized : Z; rejected_malformed : Z;
  rejected_overflow : Z; dropped_aggregate_updates : Z; dropped_journal_entries : Z;
  dropped_region_samples : Z; evicted_history_records : Z; missing_sequences : Z;
  backpressure_rejections : Z;
}.
#[global] Instance eta : Eta t := fun r =>
  mk (rejected_observations r) (rejected_duplicates r) (rejected_conflicting_duplicates r)
    (rejected_stale_sequences r) (rejected_unauthorized r) (rejected_malformed r)
    (rejected_overflow r) (dropped_aggregate_updates r) (dropped_journal_entries r)
    (dropped_region_samples r) (evicted_history_records r) (missing_sequences r)
    (backpressure_rejections r).
Definition empty : t := mk 0 0 0 0 0 0 0 0 0 0 0 0 0.

(** The array summed by [total_rejected]. *)
Definition values (r : t) : list Z :=
  [rejected_observations r; rejected_duplicates r; rejected_conflicting_duplicates r;
   rejected_stale_sequences r; rejected_unauthorized r; rejected_malformed r;
   rejected_overflow r; dropped_aggregate_updates r; dropped_journal_entries r;
   dropped_region_samples r; evicted_history_records r; missing_sequences r;
   backpressure_rejections r].

Definition total_rejected (r : t) : Z :=
  foldl (λ total v, AddResult.value (checked_add total v)) 0 (values r).
Definition any (r : t) : bool := negb (total_rejected r =? 0).
End LossReport.

(** The saturating sum of non-negative counters. *)
Lemma foldl_sat_add l a :
  0 ≤ a → Forall (λ v, 0 ≤ v) l →
  foldl (λ total v, AddResult.value (checked_add total v)) (Z.min u64_max a) l
  = Z.min u64_max (a + foldr Z.add 0 l).
Proof.
  revert a. induction l as [|v l IH]; intros a Ha Hl; simpl; [f_equal; lia|].
  apply Forall_cons in Hl as [Hv Hl]. rewrite checked_add_value. unfold sat_add.
  replace (Z.min u64_max (Z.min u64_max a + v)) with (Z.min u64_max (a + v)) by lia.
  rewrite IH by (done || lia). f_equal. lia.
Qed.

(** Loss accounting is never silent: for counters in range the
    reported total is the exact sum of the thirteen loss counters, saturated at
    the 64-bit maximum, so it is zero only if every counter is zero. *)
Theorem loss_total_saturating_sum r :
  Forall in_u64 (LossReport.values r) →
  LossReport.total_rejected r = Z.min u64_max (foldr Z.add 0 (LossReport.values r))
  ∧ (LossReport.any r = false ↔ Forall (λ v, v = 0) (LossReport.values r)).
Proof.
  intros Hr. assert (Forall (λ v, 0 ≤ v) (LossReport.values r)) as Hp.
  { eapply Forall_impl; [exact Hr|]. unfold in_u64. intros; lia. }
  assert (LossReport.total_rejected r = Z.min u64_max (foldr Z.add 0 (LossReport.values r))) as E.
  { apply (foldl_sat_add _ 0); [lia|done]. }
  split; [done|]. unfold LossReport.any. rewrite negb_false_iff, Z.eqb_eq, E.
  clear E Hr. induction Hp as [|v l Hv Hl IH]; simpl; [done|].
  assert (0 ≤ foldr Z.add 0 l) by (clear IH; induction Hl; simpl; lia).
  rewrite Forall_cons, <-IH. unfold u64_max in *. lia.
Qed.

Lemma loss_total_saturating_sum_witness :
  LossReport.total_rejected (LossReport.mk 0 2 0 0 5 0 0 u64_max 0 0 0 0 0) = u64_max.
Proof.
  rewrite (proj1 (loss_total_saturating_sum (LossReport.mk 0 2 0 0 5 0 0 u64_max 0 0 0 0 0)
    ltac:(apply (bool_decide_unpack _); vm_compute; exact I))).
  reflexivity.
Defined.
