(* ===== verification/Observation.v ===== *)
(** * Observations and counter publications

    [include/coherence/observation.hpp] and [src/observation.cpp]: bounded
    metadata, the observation record, its canonical content hash and the
    structural validation that runs before anything is mutated. *)

From S2P Require Import Prelude Errors TextUtil Ids Taxonomy Records.

(** ** Bounded metadata

    Key/value entries in insertion order. *)

Module BoundedMetadata.
Definition t : Type := list (string * string).

Fixpoint find (key : string) (entries : t) : option string :=
  match entries with
  | [] => None
  | (k, v) :: rest => if decide (k = key) then Some v else find key rest
  end.

Definition contains (key : string) (entries : t) : bool :=
  match find key entries with Some _ => true | None => false end.

Definition add (key value : string) (entries : t) : result t :=
  reject_if (sempty key) ErrorCode.InvalidArgument "metadata key must not be empty";;
  reject_if (Limits.kMaxMetadataKeyLength <? slen key) ErrorCode.TooLarge
    "metadata key exceeds maximum length";;
  reject_if (Limits.kMaxMetadataValueLength <? slen value) ErrorCode.TooLarge
    "metadata value exceeds maximum length";;
  reject_if (Limits.kMaxMetadataEntries <=? zlen entries) ErrorCode.TooMany
    "metadata entry limit reached";;
  reject_if_ctx (contains key entries) ErrorCode.AlreadyExists "duplicate metadata key" key;;
  Ok (entries ++ [(key, value)]).

Definition sorted_entries (entries : t) : t := merge_sort entry_le entries.

Definition canonical_hash (entries : t) : Z :=
  foldl (λ h '(k, v), fnv1a_str (fnv1a_str h k) v) fnv1a_init (sorted_entries entries).

(** What the [add] calls maintain: at most eight entries, bounded non-empty
    keys without duplicates, bounded values. *)
Definition wf (entries : t) : Prop :=
  zlen entries ≤ Limits.kMaxMetadataEntries
  ∧ NoDup entries.*1
  ∧ Forall (λ e, 0 < slen e.1 ≤ Limits.kMaxMetadataKeyLength
                 ∧ slen e.2 ≤ Limits.kMaxMetadataValueLength) entries.

Lemma find_Some key entries v : find key entries = Some v → (key, v) ∈ entries.
Proof.
  induction entries as [|[k w] rest IH]; simpl; [done|].
  case_decide as E; [intros [= ->]; subst; left|]. intros H. right. auto.
Qed.

Lemma contains_false key entries : contains key entries = false ↔ key ∉ entries.*1.
Proof.
  unfold contains. induction entries as [|[k w] rest IH]; simpl; [set_solver|].
  case_decide as E.
  - split; [done|]. intros H. exfalso. apply H. subst. left.
  - rewrite IH, not_elem_of_cons. naive_solver.
Qed.

Lemma add_Ok key value entries entries' :
  add key value entries = Ok entries' ↔
  (0 < slen key ≤ Limits.kMaxMetadataKeyLength) ∧ slen value ≤ Limits.kMaxMetadataValueLength
  ∧ zlen entries < Limits.kMaxMetadataEntries ∧ (key ∉ entries.*1)
  ∧ entries' = entries ++ [(key, value)].
Proof.
  unfold add. rewrite !seq_Ok, !reject_if_Ok, reject_if_ctx_Ok, contains_false, slen_pos.
  rewrite !Z.ltb_ge, Z.leb_gt. naive_solver.
Qed.

Lemma add_wf key value entries entries' :
  wf entries → add key value entries = Ok entries' → wf entries'.
Proof.
  intros (Hn & Hd & Hf). rewrite add_Ok. intros (Hk & Hv & Hl & Hnew & ->). repeat split.
  - rewrite zlen_app, zlen_cons, zlen_nil. lia.
  - rewrite fmap_app. apply NoDup_app. split; [done|]. simpl. split; [set_solver|].
    apply NoDup_singleton.
  - apply Forall_app_2; [done|]. constructor; [|constructor]. simpl. tauto.
Qed.

Lemma sorted_entries_wf m : wf m → wf (sorted_entries m).
Proof.
  intros (Hn & Hd & Hf). pose proof (merge_sort_Permutation entry_le m) as Hp.
  unfold sorted_entries. split_and!.
  - unfold zlen in *. by rewrite Hp.
  - rewrite Hp. exact Hd.
  - rewrite Hp. exact Hf.
Qed.

(** Sorting by a key without duplicates forgets the insertion order. *)
Lemma sorted_entries_perm (l k : t) :
  NoDup l.*1 → l ≡ₚ k → sorted_entries l = sorted_entries k.
Proof.
  intros Hnd Hp. apply (StronglySorted_unique_strong entry_le).
  - unfold sorted_entries. intros [k1 v1] [k2 v2]. rewrite !merge_sort_Permutation, <-Hp.
    intros H1 H2 Hle Hge. assert (k1 = k2) as -> by (by apply key_leb_antisym).
    f_equal. apply list_elem_of_lookup in H1 as [i Hi], H2 as [j Hj].
    assert (i = j) as ->.
    { eapply (NoDup_lookup l.*1); [done|rewrite list_lookup_fmap, Hi; done|].
      by rewrite list_lookup_fmap, Hj. }
    rewrite Hi in Hj. by injection Hj.
  - apply StronglySorted_merge_sort; apply _.
  - apply StronglySorted_merge_sort; apply _.
  - unfold sorted_entries. by rewrite !merge_sort_Permutation.
Qed.

(** The canonical metadata hash does not depend on the order in which
    the entries were added: two well-formed metadata sets with the same entries
    hash alike, so re-sending an observation with reordered metadata is
    recognised as the same content. *)
Theorem canonical_hash_order_independent (l k : t) :
  wf l → l ≡ₚ k → canonical_hash l = canonical_hash k.
Proof. intros (_ & Hd & _) Hp. unfold canonical_hash. by rewrite (sorted_entries_perm l k). Qed.

Lemma canonical_hash_order_independent_witness :
  canonical_hash [("b", "1"); ("a", "2")]%string = canonical_hash [("a", "2"); ("b", "1")]%string.
Proof.
  apply (canonical_hash_order_independent [("b", "1"); ("a", "2")]%string).
  - repeat split.
    + done.
    + apply (bool_decide_unpack _). by vm_compute.
    + repeat constructor; vm_compute; congruence.
  - constructor.
Defined.
End BoundedMetadata.

(** ** Observations *)

Module Observation.
Record t := mk {
  event_id : Z; type : EventType.t;
  source_publisher : string; publisher_boot : Z; coordinator_epoch : Z;
  sampling_epoch : Z; evidence_generation : Z; sequence : Z;
  timestamp_ns : Z;
  source : option ResourceRef.t; target : option ResourceRef.t;
  region : option string; region_generation : option Z;
  coherence_domain : option string; coherence_domain_generation : option Z;
  topology_generation : Z; workload : option string; process : option string;
  direction : AccessDirection.t; state_before : CoherenceState.t; state_after : CoherenceState.t;
  counter_delta : option Z; counter_generation : Z;
  bytes : Z; lines : Z; pages : Z; region_count : Z; measured_duration_ns : Z;
  locality : Locality.t; locality_declared : bool;
  provenance : Provenance.t; precision : Precision.t; granularity : EvidenceGranularity.t;
  metadata : BoundedMetadata.t;
  accepted_epoch : Z; late : bool;
}.
#[global] Instance eta : Eta t := fun o =>
  mk (event_id o) (type o) (source_publisher o) (publisher_boot o) (coordinator_epoch o)
    (sampling_epoch o) (evidence_generation o) (sequence o) (timestamp_ns o) (source o)
    (target o) (region o) (region_generation o) (coherence_domain o)
    (coherence_domain_generation o) (topology_generation o) (workload o) (process o)
    (direction o) (state_before o) (state_after o) (counter_delta o) (counter_generation o)
    (bytes o) (lines o) (pages o) (region_count o) (measured_duration_ns o) (locality o)
    (locality_declared o) (provenance o) (precision o) (granularity o) (metadata o)
    (accepted_epoch o) (late o).
(** A default-constructed observation. *)
Definition empty : t :=
  mk 0 EventType.UnknownCoherenceEvent "" 0 0 0 0 0 0 None None None None None None 0 None None
    AccessDirection.None CoherenceState.Unknown CoherenceState.Unknown None 0 0 0 0 0 (-1)
    Locality.Unknown false Provenance.Unknown Precision.Unknown EvidenceGranularity.Unknown []
    0 false.
End Observation.

(** *** Content hash *)

Definition hash_resource (tag : Z) (r : option ResourceRef.t) (h : Z) : Z :=
  match r with
  | Some r =>
      let h := fnv1a_u64 h tag in
      let h := fnv1a_u64 h (ResourceKind.code (ResourceRef.kind r)) in
      let h := fnv1a_str h (ResourceRef.id r) in
      fnv1a_u64 h (ResourceRef.generation r)
  | None => h
  end.

Definition hash_bound_name (tag : Z) (name : option string) (generation : option Z) (h : Z) : Z :=
  match name with
  | Some n =>
      let h := fnv1a_u64 h tag in
      let h := fnv1a_str h n in
      fnv1a_u64 h (default 0 generation)
  | None => h
  end.

Definition hash_name (name : option string) (h : Z) : Z :=
  match name with Some n => fnv1a_str h n | None => h end.

Definition content_hash (o : Observation.t) : Z :=
  let h := fnv1a_init in
  let h := fnv1a_u64 h (Observation.event_id o) in
  let h := fnv1a_u64 h (EventType.code (Observation.type o)) in
  let h := fnv1a_str h (Observation.source_publisher o) in
  let h := fnv1a_u64 h (Observation.publisher_boot o) in
  let h := fnv1a_u64 h (Observation.coordinator_epoch o) in
  let h := fnv1a_u64 h (Observation.sampling_epoch o) in
  let h := fnv1a_u64 h (Observation.evidence_generation o) in
  let h := fnv1a_u64 h (Observation.sequence o) in
  let h := fnv1a_u64 h (wrap64 (Observation.timestamp_ns o)) in
  let h := hash_resource 1 (Observation.source o) h in
  let h := hash_resource 2 (Observation.target o) h in
  let h := hash_bound_name 3 (Observation.region o) (Observation.region_generation o) h in
  let h := hash_bound_name 4 (Observation.coherence_domain o)
             (Observation.coherence_domain_generation o) h in
  let h := fnv1a_u64 h (Observation.topology_generation o) in
  let h := hash_name (Observation.workload o) h in
  let h := hash_name (Observation.process o) h in
  let h := fnv1a_u64 h (AccessDirection.code (Observation.direction o)) in
  let h := fnv1a_u64 h (CoherenceState.code (Observation.state_before o)) in
  let h := fnv1a_u64 h (CoherenceState.code (Observation.state_after o)) in
  let h := match Observation.counter_delta o with
           | Some d => fnv1a_u64 (fnv1a_u64 h 5) d
           | None => h
           end in
  let h := fnv1a_u64 h (Observation.counter_generation o) in
  let h := fnv1a_u64 h (Observation.bytes o) in
  let h := fnv1a_u64 h (Observation.lines o) in
  let h := fnv1a_u64 h (Observation.pages o) in
  let h := fnv1a_u64 h (Observation.region_count o) in
  let h := fnv1a_u64 h (wrap64 (Observation.measured_duration_ns o)) in
  let h := fnv1a_u64 h (Locality.code (Observation.locality o)) in
  let h := fnv1a_u64 h (bool_u64 (Observation.locality_declared o)) in
  let h := fnv1a_u64 h (Provenance.code (Observation.provenance o)) in
  let h := fnv1a_u64 h (Precision.code (Observation.precision o)) in
  let h := fnv1a_u64 h (EvidenceGranularity.code (Observation.granularity o)) in
  fnv1a_u64 h (BoundedMetadata.canonical_hash (Observation.metadata o)).

(** The runtime's own annotations are not content. *)
Lemma content_hash_ignores_annotations o epoch late :
  content_hash (o <| Observation.accepted_epoch := epoch |> <| Observation.late := late |>)
  = content_hash o.
Proof.
  destruct o. unfold content_hash, update_field.
  cbn -[fnv1a_u64 fnv1a_str BoundedMetadata.canonical_hash hash_resource hash_bound_name
        hash_name wrap64 fnv1a_init].
  reflexivity.
Qed.

(** *** Structural validation *)

Definition kBackendEventKey : string := "backend.event".

Definition validate_resource_ref (role : string) (r : ResourceRef.t) : result unit :=
  reject_if (sempty (ResourceRef.id r)) ErrorCode.InvalidArgument
    (role +:+ " resource id is empty");;
  relabel (role +:+ " resource id invalid") (validate_identity_token (ResourceRef.id r));;
  match ResourceRef.kind r with
  | ResourceKind.Node =>
      reject_if (negb (ResourceRef.generation r =? 0)) ErrorCode.InvalidArgument
        (role +:+ " node reference must not carry a device generation")
  | ResourceKind.Processor | ResourceKind.Accelerator
  | ResourceKind.MemoryDomain | ResourceKind.CoherenceDomain =>
      reject_if (ResourceRef.generation r =? 0) ErrorCode.InvalidArgument
        (role +:+ " reference requires a non-zero generation")
  | ResourceKind.Unknown =>
      fail ErrorCode.InvalidArgument (role +:+ " reference has unknown resource kind")
  | ResourceKind.Other _ => ok_status
  end.

(** [!g.has_value() || g->is_zero()]. *)
Definition missing_generation (g : option Z) : bool :=
  match g with Some v => is_zero v | None => true end.

Definition is_some {A} (o : option A) : bool := match o with Some _ => true | None => false end.

(** A name with its generation: the name valid and the generation non-zero, or
    both absent. *)
Definition validate_bound_name (invalid missing unexpected : string)
    (name : option string) (generation : option Z) : result unit :=
  match name with
  | Some n =>
      relabel invalid (validate_identity_token n);;
      reject_if (missing_generation generation) ErrorCode.InvalidArgument missing
  | None => reject_if (is_some generation) ErrorCode.InvalidArgument unexpected
  end.

Definition validate_endpoints (o : Observation.t) : result unit :=
  on_some (Observation.source o) (validate_resource_ref "source");;
  on_some (Observation.target o) (validate_resource_ref "target");;
  match Observation.source o, Observation.target o with
  | Some s, Some t =>
      reject_if_ctx (same_resource s t) ErrorCode.InvalidArgument
        "source and target refer to the same resource" (ResourceRef.id s)
  | _, _ => ok_status
  end.

Definition validate_enum_ranges (o : Observation.t) : result unit :=
  reject_if (5 <? AccessDirection.code (Observation.direction o)) ErrorCode.InvalidArgument
    "access direction out of range";;
  reject_if ((9 <? CoherenceState.code (Observation.state_before o))
             || (9 <? CoherenceState.code (Observation.state_after o)))
    ErrorCode.InvalidArgument "coherence state out of range";;
  reject_if (kLocalityCount <? Locality.code (Observation.locality o)) ErrorCode.InvalidArgument
    "locality class out of range";;
  reject_if (9 <? Provenance.code (Observation.provenance o)) ErrorCode.InvalidArgument
    "provenance out of range";;
  reject_if (6 <? Precision.code (Observation.precision o)) ErrorCode.InvalidArgument
    "precision out of range";;
  reject_if (6 <? EvidenceGranularity.code (Observation.granularity o)) ErrorCode.InvalidArgument
    "evidence granularity out of range".

Definition validate_quantities (o : Observation.t) : result unit :=
  reject_if (Limits.kMaxByteCount <? Observation.bytes o) ErrorCode.OutOfRange
    "byte count exceeds the maximum accepted value";;
  reject_if ((Limits.kMaxLineCount <? Observation.lines o)
             || (Limits.kMaxLineCount <? Observation.pages o))
    ErrorCode.OutOfRange "line/page count exceeds the maximum accepted value";;
  reject_if (Limits.kMaxRegionCount <? Observation.region_count o) ErrorCode.OutOfRange
    "region count exceeds the maximum accepted value";;
  reject_if ((Observation.measured_duration_ns o <? -1)
             || (Limits.kMaxMeasuredDurationNs <? Observation.measured_duration_ns o))
    ErrorCode.OutOfRange "measured duration out of range".

Definition validate_claims (o : Observation.t) : result unit :=
  reject_if ((precision_rank Precision.ExactCounterDelta <=? precision_rank (Observation.precision o))
             && bool_decide (Observation.granularity o = EvidenceGranularity.Unknown))
    ErrorCode.InvalidArgument "exact precision requires an explicit evidence granularity";;
  reject_if (is_some (Observation.counter_delta o)
             && bool_decide (Observation.precision o = Precision.ExactEvent))
    ErrorCode.InvalidArgument "counter-derived evidence must not claim exact-event precision";;
  reject_if (is_some (Observation.counter_delta o) && is_zero (Observation.counter_generation o))
    ErrorCode.InvalidArgument "counter-derived evidence requires a non-zero counter generation";;
  reject_if (negb (is_some (Observation.counter_delta o))
             && negb (is_zero (Observation.counter_generation o)))
    ErrorCode.InvalidArgument "counter generation present without a counter delta";;
  reject_if (negb (Observation.locality_declared o)
             && negb (bool_decide (Observation.locality o = Locality.Unknown)))
    ErrorCode.InvalidArgument "locality class present without the declared flag";;
  reject_if_ctx (bool_decide (Observation.type o = EventType.UnknownCoherenceEvent)
                 && negb (BoundedMetadata.contains kBackendEventKey (Observation.metadata o)))
    ErrorCode.InvalidArgument "unknown coherence event must retain backend event detail"
    kBackendEventKey.

Definition validate_observation_structure (o : Observation.t) : result unit :=
  reject_if (is_zero (Observation.event_id o)) ErrorCode.InvalidArgument
    "event id must be non-zero";;
  reject_if (kEventTypeCount <=? EventType.code (Observation.type o)) ErrorCode.InvalidArgument
    "event type out of range";;
  reject_if (sempty (Observation.source_publisher o)) ErrorCode.InvalidArgument
    "source publisher is empty";;
  relabel "source publisher identity invalid"
    (validate_identity_token (Observation.source_publisher o));;
  reject_if (is_zero (Observation.publisher_boot o)) ErrorCode.InvalidArgument
    "publisher boot identity must be non-zero";;
  reject_if ((Observation.timestamp_ns o <? 0)
             || (Limits.kMaxTimestampNs <? Observation.timestamp_ns o))
    ErrorCode.OutOfRange "observation timestamp out of range";;
  reject_if (is_zero (Observation.sequence o)) ErrorCode.InvalidArgument
    "event sequence must be non-zero";;
  validate_endpoints o;;
  validate_bound_name "region identity invalid"
    "a region reference must carry a non-zero region generation"
    "region generation present without a region"
    (Observation.region o) (Observation.region_generation o);;
  validate_bound_name "coherence domain identity invalid"
    "a coherence domain reference must carry a non-zero generation"
    "coherence domain generation present without a domain"
    (Observation.coherence_domain o) (Observation.coherence_domain_generation o);;
  on_some (Observation.workload o)
    (λ w, relabel "workload identity invalid" (validate_identity_token w));;
  on_some (Observation.process o)
    (λ p, relabel "process identity invalid" (validate_identity_token p));;
  validate_enum_ranges o;;
  validate_quantities o;;
  validate_claims o.


(** *** What validation guarantees *)

(** A subject that is named carries a valid name and a non-zero generation. *)
Definition bound_name_ok (name : option string) (generation : option Z) : Prop :=
  match name, generation with
  | Some n, Some g => valid_token n ∧ g ≠ 0
  | None, None => True
  | _, _ => False
  end.

(** An endpoint: a valid name, a stated kind, and a device generation exactly
    when the kind is not a node. *)
Definition resource_ref_ok (r : ResourceRef.t) : Prop :=
  valid_token (ResourceRef.id r) ∧ ResourceRef.kind r ≠ ResourceKind.Unknown
  ∧ (ResourceRef.kind r = ResourceKind.Node → ResourceRef.generation r = 0)
  ∧ (ResourceRef.kind r ∈ [ResourceKind.Processor; ResourceKind.Accelerator;
                            ResourceKind.MemoryDomain; ResourceKind.CoherenceDomain] →
     ResourceRef.generation r ≠ 0).

Lemma missing_generation_false g :
  missing_generation g = false ↔ ∃ v, g = Some v ∧ v ≠ 0.
Proof.
  unfold missing_generation, is_zero. destruct g; [|naive_solver].
  rewrite Z.eqb_neq. naive_solver.
Qed.

Lemma is_some_false {A} (o : option A) : is_some o = false ↔ o = None.
Proof. destruct o; naive_solver. Qed.

Lemma validate_bound_name_Ok i m u name generation :
  validate_bound_name i m u name generation = Ok tt ↔ bound_name_ok name generation.
Proof.
  unfold validate_bound_name, bound_name_ok. destruct name.
  - rewrite seq_Ok, relabel_Ok, reject_if_Ok, validate_identity_token_ok, missing_generation_false.
    destruct generation; naive_solver.
  - rewrite reject_if_Ok, is_some_false. destruct generation; naive_solver.
Qed.

Lemma validate_resource_ref_Ok role r :
  validate_resource_ref role r = Ok tt ↔ resource_ref_ok r.
Proof.
  unfold validate_resource_ref, resource_ref_ok.
  rewrite !seq_Ok, relabel_Ok, reject_if_Ok, validate_identity_token_ok.
  assert (Hne : valid_token (ResourceRef.id r) → sempty (ResourceRef.id r) = false).
  { rewrite <-slen_pos. unfold valid_token. tauto. }
  destruct (ResourceRef.kind r);
    rewrite ?reject_if_Ok, ?negb_false_iff, ?Z.eqb_eq, ?Z.eqb_neq; unfold ok_status, fail;
    set_solver.
Qed.

Lemma validated_endpoints (o : Observation.t) :
  validate_observation_structure o = Ok tt →
  ∀ r, Observation.source o = Some r ∨ Observation.target o = Some r → resource_ref_ok r.
Proof.
  unfold validate_observation_structure. rewrite !seq_Ok.
  intros (_ & _ & _ & _ & _ & _ & _ & Hends & _).
  unfold validate_endpoints in Hends. rewrite !seq_Ok, !on_some_Ok in Hends.
  destruct Hends as (Hs & Ht & _).
  intros r [E|E]; [apply Hs in E|apply Ht in E]; by apply validate_resource_ref_Ok in E.
Qed.

(** Quantities and enumerators within their bounds (the locality aside, whose range check
    admits one byte too many: [locality_range_check_off_by_one]). *)
Record in_bounds (o : Observation.t) : Prop := {
  ib_time : 0 ≤ Observation.timestamp_ns o ≤ Limits.kMaxTimestampNs;
  ib_bytes : Observation.bytes o ≤ Limits.kMaxByteCount;
  ib_lines : Observation.lines o ≤ Limits.kMaxLineCount;
  ib_pages : Observation.pages o ≤ Limits.kMaxLineCount;
  ib_regions : Observation.region_count o ≤ Limits.kMaxRegionCount;
  ib_duration : -1 ≤ Observation.measured_duration_ns o ≤ Limits.kMaxMeasuredDurationNs;
  ib_type : EventType.code (Observation.type o) < kEventTypeCount;
  ib_direction : AccessDirection.code (Observation.direction o) ≤ 5;
  ib_states : CoherenceState.code (Observation.state_before o) ≤ 9
    ∧ CoherenceState.code (Observation.state_after o) ≤ 9;
  ib_provenance : Provenance.code (Observation.provenance o) ≤ 9;
  ib_precision : Precision.code (Observation.precision o) ≤ 6;
  ib_granularity : EvidenceGranularity.code (Observation.granularity o) ≤ 6;
}.

Lemma validated_in_bounds (o : Observation.t) : validate_observation_structure o = Ok tt → in_bounds o.
Proof.
  unfold validate_observation_structure. rewrite !seq_Ok, !reject_if_Ok, !orb_false_iff, !Z.ltb_ge, !Z.leb_gt.
  intros (_ & Ht & _ & _ & _ & Hts & _ & _ & _ & _ & _ & _ & He & Hq & _).
  unfold validate_enum_ranges, validate_quantities in *.
  repeat first [rewrite seq_Ok in He | rewrite reject_if_Ok in He | rewrite orb_false_iff in He | rewrite Z.ltb_ge in He].
  repeat first [rewrite seq_Ok in Hq | rewrite reject_if_Ok in Hq | rewrite orb_false_iff in Hq | rewrite Z.ltb_ge in Hq].
  constructor; tauto.
Qed.

(** Claim C36.  An observation that passes structural validation is internally
    consistent, so nothing downstream has to guess: its timestamp, bytes, lines, pages,
    regions and duration are within their bounds and its enumerators (but the locality)
    name something; it has an identity, a publisher boot and a sequence; its publisher, workload and process names are
    valid tokens; its endpoints are well-formed and distinct; a region or a
    coherence domain is named exactly when its non-zero generation is given; a
    counter generation is present exactly when a counter delta is; evidence
    derived from a counter does not claim to be an exact event; an exact
    precision comes with a stated granularity; a locality class is present only
    when declared; and an unmapped event keeps its backend-native identity. *)
Theorem validated_observation_consistent (o : Observation.t) :
  validate_observation_structure o = Ok tt →
  in_bounds o
  ∧ Observation.event_id o ≠ 0 ∧ Observation.publisher_boot o ≠ 0 ∧ Observation.sequence o ≠ 0
  ∧ valid_token (Observation.source_publisher o)
  ∧ (∀ w, Observation.workload o = Some w → valid_token w)
  ∧ (∀ p, Observation.process o = Some p → valid_token p)
  ∧ (∀ r, Observation.source o = Some r ∨ Observation.target o = Some r → resource_ref_ok r)
  ∧ (∀ r1 r2, Observation.source o = Some r1 → Observation.target o = Some r2 →
       same_resource r1 r2 = false)
  ∧ bound_name_ok (Observation.region o) (Observation.region_generation o)
  ∧ bound_name_ok (Observation.coherence_domain o) (Observation.coherence_domain_generation o)
  ∧ (Observation.counter_generation o ≠ 0 ↔ is_Some (Observation.counter_delta o))
  ∧ (is_Some (Observation.counter_delta o) → Observation.precision o ≠ Precision.ExactEvent)
  ∧ (precision_rank Precision.ExactCounterDelta ≤ precision_rank (Observation.precision o) →
     Observation.granularity o ≠ EvidenceGranularity.Unknown)
  ∧ (Observation.locality o ≠ Locality.Unknown → Observation.locality_declared o = true)
  ∧ (Observation.type o = EventType.UnknownCoherenceEvent →
     kBackendEventKey ∈ (Observation.metadata o).*1).
Proof.
  intros H. split; [by apply validated_in_bounds|]. pose proof (validated_endpoints o H) as Hrefs. unfold validate_observation_structure in H.
  rewrite !seq_Ok, !reject_if_Ok, relabel_Ok, validate_identity_token_ok in H.
  destruct H as (Hid & _ & _ & Hpub & Hboot & _ & Hseq & Hends & Hreg & Hdom & Hw & Hp & _ & _ & Hc).
  apply validate_bound_name_Ok in Hreg, Hdom. rewrite on_some_Ok in Hw, Hp.
  unfold validate_endpoints in Hends. rewrite !seq_Ok in Hends. destruct Hends as (_ & _ & Hst).
  unfold validate_claims in Hc.
  rewrite !seq_Ok, !reject_if_Ok, reject_if_ctx_Ok in Hc.
  destruct Hc as (Hg & He & Hcg & Hcg' & Hl & Hu).
  unfold is_zero in *. rewrite Z.eqb_neq in Hid, Hboot, Hseq.
  do 4 (split; [done|]). split; [intros w E; by apply Hw, relabel_Ok, validate_identity_token_ok in E|].
  split; [intros p E; by apply Hp, relabel_Ok, validate_identity_token_ok in E|].
  split; [exact Hrefs|].
  split; [intros r1 r2 E1 E2; rewrite E1, E2 in Hst; by apply reject_if_ctx_Ok in Hst|].
  do 2 (split; [done|]).
  split; [destruct (Observation.counter_delta o), (Z.eqb_spec (Observation.counter_generation o) 0);
          unfold is_Some; naive_solver|].
  split; [intros [d E] Ep; rewrite E, bool_decide_true in He by done; done|].
  split; [intros Hle Eg; rewrite bool_decide_true, andb_true_r, Z.leb_gt in Hg by done; lia|].
  split; [intros Hn; rewrite bool_decide_false, andb_true_r in Hl by done; by destruct (Observation.locality_declared o)|].
  intros Ety. rewrite bool_decide_true in Hu by done. simpl in Hu.
  apply negb_false_iff in Hu. apply dec_stable. intros Hn.
  apply BoundedMetadata.contains_false in Hn. congruence.
Qed.

(** A remote read of a region on an accelerator, used as a concrete input. *)
Definition sample_observation : Observation.t :=
  Observation.empty
    <| Observation.event_id := 7 |>
    <| Observation.type := EventType.RemoteRead |>
    <| Observation.source_publisher := "pub.a" |>
    <| Observation.publisher_boot := 1 |>
    <| Observation.coordinator_epoch := 1 |>
    <| Observation.sequence := 1 |>
    <| Observation.timestamp_ns := 1000 |>
    <| Observation.source := Some (ResourceRef.mk ResourceKind.Accelerator "acc0" 1) |>
    <| Observation.region := Some "buf"%string |>
    <| Observation.region_generation := Some 1 |>
    <| Observation.topology_generation := 1 |>
    <| Observation.bytes := 4096 |>
    <| Observation.precision := Precision.ExactEvent |>
    <| Observation.granularity := EvidenceGranularity.CacheLine |>
    <| Observation.provenance := Provenance.HardwarePerformanceCounter |>.

Lemma validated_observation_consistent_witness :
  bound_name_ok (Observation.region sample_observation)
    (Observation.region_generation sample_observation).
Proof. apply (validated_observation_consistent sample_observation). by vm_compute. Defined.

(** The locality range check compares with [>] against the number of
    classes: a locality byte equal to [kLocalityCount], which names no class, is
    accepted. *)
Theorem locality_range_check_off_by_one :
  validate_observation_structure
    (sample_observation <| Observation.locality := Locality.Other kLocalityCount |>
                        <| Observation.locality_declared := true |>) = Ok tt
  ∧ Locality.of_code kLocalityCount = Locality.Other kLocalityCount.
Proof. split; vm_compute; reflexivity. Qed.

(** ** Counter publications *)

Module CounterPublication.
Record t := mk {
  publisher : string; publisher_boot : Z; coordinator_epoch : Z; evidence_generation : Z;
  counter : string; mapped_type : EventType.t; kind : CounterKind.t; scope : CounterScope.t;
  width_bits : Z; generation : Z; sampling_epoch : Z; raw_value : Z; bytes_per_unit : Z;
  sequence : Z; timestamp_ns : Z;
  source : option ResourceRef.t; target : option ResourceRef.t;
  region : option string; region_generation : option Z; workload : option string;
  topology_generation : Z; provenance : Provenance.t; granularity : EvidenceGranularity.t;
  metadata : BoundedMetadata.t;
}.
#[global] Instance eta : Eta t := fun p =>
  mk (publisher p) (publisher_boot p) (coordinator_epoch p) (evidence_generation p) (counter p)
    (mapped_type p) (kind p) (scope p) (width_bits p) (generation p) (sampling_epoch p)
    (raw_value p) (bytes_per_unit p) (sequence p) (timestamp_ns p) (source p) (target p)
    (region p) (region_generation p) (workload p) (topology_generation p) (provenance p)
    (granularity p) (metadata p).
(** A default-constructed publication. *)
Definition empty : t :=
  mk "" 0 0 0 "" EventType.UnknownCoherenceEvent CounterKind.Absolute CounterScope.Unknown 64 0 0
    0 0 0 0 None None None None None 0 Provenance.Unknown EvidenceGranularity.Unknown [].
End CounterPublication.

Definition validate_counter_fields (p : CounterPublication.t) : result unit :=
  reject_if (sempty (CounterPublication.publisher p)) ErrorCode.InvalidArgument
    "counter publisher is empty";;
  reject_if (is_zero (CounterPublication.publisher_boot p)) ErrorCode.InvalidArgument
    "counter publisher boot must be non-zero";;
  reject_if (sempty (CounterPublication.counter p)) ErrorCode.InvalidArgument
    "counter identity is empty";;
  relabel "counter identity invalid" (validate_identity_token (CounterPublication.counter p));;
  reject_if (kEventTypeCount <=? EventType.code (CounterPublication.mapped_type p))
    ErrorCode.InvalidArgument "counter mapped event type out of range";;
  reject_if (4 <? CounterKind.code (CounterPublication.kind p)) ErrorCode.InvalidArgument
    "counter kind out of range";;
  reject_if (6 <? CounterScope.code (CounterPublication.scope p)) ErrorCode.InvalidArgument
    "counter scope out of range";;
  reject_if (bool_decide (CounterPublication.scope p = CounterScope.Unknown))
    ErrorCode.InvalidArgument "counter scope must be stated";;
  reject_if ((CounterPublication.width_bits p =? 0)
             || (Limits.kMaxCounterWidth <? CounterPublication.width_bits p))
    ErrorCode.OutOfRange "counter width out of range";;
  reject_if (Limits.kMaxByteCount <? CounterPublication.bytes_per_unit p) ErrorCode.OutOfRange
    "counter bytes-per-unit out of range";;
  reject_if (is_zero (CounterPublication.sequence p)) ErrorCode.InvalidArgument
    "counter sequence must be non-zero";;
  reject_if ((CounterPublication.timestamp_ns p <? 0)
             || (Limits.kMaxTimestampNs <? CounterPublication.timestamp_ns p))
    ErrorCode.OutOfRange "counter timestamp out of range";;
  reject_if (9 <? Provenance.code (CounterPublication.provenance p)) ErrorCode.InvalidArgument
    "counter provenance out of range";;
  reject_if (6 <? EvidenceGranularity.code (CounterPublication.granularity p))
    ErrorCode.InvalidArgument "counter granularity out of range".

Definition validate_counter_region (p : CounterPublication.t) : result unit :=
  let per_region := bool_decide (CounterPublication.scope p = CounterScope.PerRegion) in
  match CounterPublication.region p with
  | Some _ =>
      reject_if_ctx (negb per_region) ErrorCode.InvalidArgument
        "a counter that is not genuinely per-region must not name a region"
        (CounterScope.to_string (CounterPublication.scope p));;
      reject_if (missing_generation (CounterPublication.region_generation p))
        ErrorCode.InvalidArgument "per-region counter requires a non-zero region generation"
  | None =>
      reject_if per_region ErrorCode.InvalidArgument
        "per-region counter requires a region identity";;
      reject_if (is_some (CounterPublication.region_generation p)) ErrorCode.InvalidArgument
        "region generation present without a region on a counter"
  end.

Definition validate_counter_publication (p : CounterPublication.t) : result unit :=
  validate_counter_fields p;;
  validate_counter_region p;;
  reject_if_ctx (negb (bool_decide (CounterPublication.scope p = CounterScope.PerRegion))
                 && (granularity_rank EvidenceGranularity.Device
                       <? granularity_rank (CounterPublication.granularity p)))
    ErrorCode.InvalidArgument "counter scope cannot support the claimed evidence granularity"
    (CounterScope.to_string (CounterPublication.scope p));;
  reject_if (bool_decide (CounterPublication.scope p ∈ [CounterScope.PerDevice;
                            CounterScope.PerDomain; CounterScope.PerLink])
             && negb (is_some (CounterPublication.source p)))
    ErrorCode.InvalidArgument "a device/domain/link scoped counter requires a source resource".

(** A counter publication that passes validation cannot overstate what
    the counter resolves: it names a region exactly when its scope is per-region
    (and then with a non-zero generation); a counter of any other scope claims no
    evidence finer than a device; device, domain and link counters name the
    resource they count on; and the counter width is between 1 and 64 bits. *)
Theorem validated_counter_scope (p : CounterPublication.t) :
  0 ≤ CounterPublication.width_bits p →
  validate_counter_publication p = Ok tt →
  (is_Some (CounterPublication.region p) ↔ CounterPublication.scope p = CounterScope.PerRegion)
  ∧ (is_Some (CounterPublication.region p) ↔ is_Some (CounterPublication.region_generation p))
  ∧ CounterPublication.region_generation p ≠ Some 0
  ∧ (CounterPublication.scope p ≠ CounterScope.PerRegion →
     granularity_rank (CounterPublication.granularity p) ≤ granularity_rank EvidenceGranularity.Device)
  ∧ (CounterPublication.scope p ∈ [CounterScope.PerDevice; CounterScope.PerDomain;
       CounterScope.PerLink] → is_Some (CounterPublication.source p))
  ∧ CounterPublication.scope p ≠ CounterScope.Unknown
  ∧ 1 ≤ CounterPublication.width_bits p ≤ 64.
Proof.
  intros Hw0 H. unfold validate_counter_publication, validate_counter_fields in H.
  rewrite !seq_Ok, !reject_if_Ok, reject_if_ctx_Ok in H.
  destruct H as ((_ & _ & _ & _ & _ & _ & _ & Hsc & Hw & _) & Hr & Hgran & Hsrc).
  apply bool_decide_eq_false in Hsc. apply orb_false_iff in Hw as [Hw1 Hw2].
  assert (Hregion : match CounterPublication.region p with
    | Some _ => CounterPublication.scope p = CounterScope.PerRegion
                ∧ ∃ g, CounterPublication.region_generation p = Some g ∧ g ≠ 0
    | None => CounterPublication.scope p ≠ CounterScope.PerRegion
              ∧ CounterPublication.region_generation p = None end).
  { unfold validate_counter_region in Hr. destruct (CounterPublication.region p).
    - rewrite seq_Ok, reject_if_Ok, reject_if_ctx_Ok, missing_generation_false, negb_false_iff,
        bool_decide_eq_true in Hr. done.
    - rewrite seq_Ok, !reject_if_Ok, is_some_false, bool_decide_eq_false in Hr. done. }
  unfold Limits.kMaxCounterWidth in Hw2. split_and!; try lia; try done.
  - destruct (CounterPublication.region p); unfold is_Some; naive_solver.
  - destruct (CounterPublication.region p); unfold is_Some; naive_solver.
  - destruct (CounterPublication.region p); naive_solver.
  - intros Hne. rewrite bool_decide_false in Hgran by done. lia.
  - intros Hin. rewrite bool_decide_true in Hsrc by done.
    destruct (CounterPublication.source p); [eauto|done].
Qed.

Definition sample_counter : CounterPublication.t :=
  CounterPublication.empty
    <| CounterPublication.publisher := "pub.a" |>
    <| CounterPublication.publisher_boot := 1 |>
    <| CounterPublication.coordinator_epoch := 1 |>
    <| CounterPublication.counter := "ctr0" |>
    <| CounterPublication.mapped_type := EventType.Invalidation |>
    <| CounterPublication.scope := CounterScope.PerDevice |>
    <| CounterPublication.source := Some (ResourceRef.mk ResourceKind.Accelerator "acc0" 1) |>
    <| CounterPublication.generation := 1 |>
    <| CounterPublication.raw_value := 100 |>
    <| CounterPublication.sequence := 1 |>
    <| CounterPublication.provenance := Provenance.HardwarePerformanceCounter |>
    <| CounterPublication.granularity := EvidenceGranularity.Device |>.

Lemma validated_counter_scope_witness :
  is_Some (CounterPublication.source sample_counter).
Proof.
  apply (validated_counter_scope sample_counter); [done|by vm_compute|].
  apply (bool_decide_unpack _). by vm_compute.
Defined.
