(* ===== verification/Aggregate.v ===== *)
(** * Bounded aggregation

    [include/coherence/aggregate.hpp] and [src/aggregate.cpp]: the bucket store
    that every accepted observation is accumulated into, once per dimension.

    The abstract content of a store is the log of the updates it accepted, a
    list of keys with contributions; [represents] relates the two and the
    theorems at the end state what the buckets and the per-dimension totals say
    about that log. *)

From S2P Require Import Prelude Errors Checked TextUtil Taxonomy Float64 Records Observation.

(** ** Dimensions and keys *)

Module AggregateDimension.
Inductive t :=
  | EventType | Device | Domain | Region | Workload | Locality | TimeBucket | Publisher
  | CoherenceDomain | SourceTargetPair | kCount.

#[global] Instance t_eq_dec : EqDecision t.
Proof. solve_decision. Defined.

Definition code (d : t) : Z :=
  match d with
  | EventType => 0 | Device => 1 | Domain => 2 | Region => 3 | Workload => 4 | Locality => 5
  | TimeBucket => 6 | Publisher => 7 | CoherenceDomain => 8 | SourceTargetPair => 9
  | kCount => 10
  end.

Definition all : list t :=
  [EventType; Device; Domain; Region; Workload; Locality; TimeBucket; Publisher;
   CoherenceDomain; SourceTargetPair].

Definition names : list string :=
  ["EVENT_TYPE"; "DEVICE"; "DOMAIN"; "REGION"; "WORKLOAD"; "LOCALITY"; "TIME_BUCKET";
   "PUBLISHER"; "COHERENCE_DOMAIN"; "SOURCE_TARGET_PAIR"]%string.

Definition to_string (d : t) : string := default "UNKNOWN"%string (names !! Z.to_nat (code d)).

Definition of_code (n : Z) : option t := (all ++ [kCount]) !! Z.to_nat n.

#[global] Instance t_countable : Countable t.
Proof. apply (inj_countable code of_code). by intros []. Defined.

#[global] Instance code_inj : Inj (=) (=) code.
Proof. by intros [] []. Qed.
End AggregateDimension.

Definition kAggregateDimensionCount : Z := 10.

Module AggregateKey.
Record t := mk { dimension : AggregateDimension.t; value : string }.

#[global] Instance t_eq_dec : EqDecision t.
Proof. solve_decision. Defined.
#[global] Instance t_countable : Countable t.
Proof.
  apply (inj_countable' (λ k, (dimension k, value k)) (λ p, mk p.1 p.2)). by intros [].
Defined.

(** [operator<=>]: the dimension, then the value. *)
Definition leb (a b : t) : bool :=
  let x := AggregateDimension.code (dimension a) in
  let y := AggregateDimension.code (dimension b) in
  (x <? y) || ((x =? y) && String.leb (value a) (value b)).

#[global] Program Instance order : KeyOrder t := {| key_leb := leb |}.
Next Obligation.
  intros a b. unfold leb. destruct (String.leb_total (value a) (value b)) as [E|E]; rewrite E; lia.
Qed.
Next Obligation.
  intros a b c. unfold leb.
  pose proof (string_leb_trans (value a) (value b) (value c)).
  destruct (String.leb (value a) (value b)), (String.leb (value b) (value c)),
    (String.leb (value a) (value c)); intuition lia.
Qed.
Next Obligation.
  intros [d1 v1] [d2 v2]. unfold leb. simpl. intros H1 H2.
  assert (AggregateDimension.code d1 = AggregateDimension.code d2) as E by lia.
  apply (inj AggregateDimension.code) in E as ->.
  rewrite Z.ltb_irrefl, Z.eqb_refl in H1, H2. simpl in *. f_equal. by apply String.leb_antisym.
Qed.
End AggregateKey.

(** ** Buckets and contributions *)

Module AggregateValue.
Record t := mk {
  observations : Z; bytes : Z; lines : Z; pages : Z; regions_touched : Z;
  remote_accesses : Z; remote_reads : Z; remote_writes : Z; ownership_transfers : Z;
  invalidations : Z; retries : Z; conflicts : Z; writebacks : Z; counter_delta_total : Z;
  first_timestamp_ns : Z; last_timestamp_ns : Z; has_timestamps : bool;
  precision_counts : list Z; provenance_counts : list Z;
  saturated : bool; synthetic_contribution : bool; mixed_contribution : bool;
  weakest_precision : Precision.t; has_observations : bool;
}.
#[global] Instance eta : Eta t := fun v =>
  mk (observations v) (bytes v) (lines v) (pages v) (regions_touched v) (remote_accesses v)
    (remote_reads v) (remote_writes v) (ownership_transfers v) (invalidations v) (retries v)
    (conflicts v) (writebacks v) (counter_delta_total v) (first_timestamp_ns v)
    (last_timestamp_ns v) (has_timestamps v) (precision_counts v) (provenance_counts v)
    (saturated v) (synthetic_contribution v) (mixed_contribution v) (weakest_precision v)
    (has_observations v).
(** [AggregateValue{}]. *)
Definition empty : t :=
  mk 0 0 0 0 0 0 0 0 0 0 0 0 0 0 0 0 false (replicate 7 0) (replicate 10 0) false false false
    Precision.ExactEvent false.

Definition reality (v : t) : Reality.t :=
  if mixed_contribution v then Reality.Mixed
  else if synthetic_contribution v then Reality.Synthetic else Reality.Real.

Definition rate_per_second (v : t) : double :=
  if negb (has_timestamps v) || (last_timestamp_ns v <=? first_timestamp_ns v) then d0
  else
    let span_ns := d_of_Z (last_timestamp_ns v - first_timestamp_ns v) in
    ddiv (dmul (d_of_Z (observations v)) (d_of_Z 1000000000)) span_ns.
End AggregateValue.

Module ObservationContribution.
Record t := mk {
  bytes : Z; lines : Z; pages : Z; regions_touched : Z;
  remote_access : bool; remote_read : bool; remote_write : bool; ownership_transfer : bool;
  invalidation : bool; retry : bool; conflict : bool; writeback : bool;
  counter_delta : Z; timestamp_ns : Z; precision : Precision.t; provenance : Provenance.t;
}.
End ObservationContribution.

Definition is_remote_access_type (t : EventType.t) : bool :=
  match t with
  | EventType.RemoteRead | EventType.RemoteWrite | EventType.RemoteAtomic => true
  | _ => false
  end.

Definition contribution_of (o : Observation.t) : ObservationContribution.t :=
  let type_is t := bool_decide (Observation.type o = t) in
  let dir d := bool_decide (Observation.direction o = d) in
  let remote_locality :=
    Observation.locality_declared o && is_remote_locality (Observation.locality o) in
  {| ObservationContribution.bytes := Observation.bytes o;
     ObservationContribution.lines := Observation.lines o;
     ObservationContribution.pages := Observation.pages o;
     ObservationContribution.regions_touched := Observation.region_count o;
     ObservationContribution.remote_access :=
       is_remote_access_type (Observation.type o) || remote_locality;
     ObservationContribution.remote_read :=
       type_is EventType.RemoteRead || (remote_locality && dir AccessDirection.Read);
     ObservationContribution.remote_write :=
       type_is EventType.RemoteWrite || type_is EventType.RemoteAtomic
       || (remote_locality && (dir AccessDirection.Write || dir AccessDirection.ReadModifyWrite
                               || dir AccessDirection.Atomic));
     ObservationContribution.ownership_transfer := is_ownership_event (Observation.type o);
     ObservationContribution.invalidation :=
       type_is EventType.Invalidation || type_is EventType.RegionInvalidation;
     ObservationContribution.retry := type_is EventType.CoherenceRetry;
     ObservationContribution.conflict := type_is EventType.CoherenceConflict;
     ObservationContribution.writeback := type_is EventType.Writeback;
     ObservationContribution.counter_delta := default 0 (Observation.counter_delta o);
     ObservationContribution.timestamp_ns := Observation.timestamp_ns o;
     ObservationContribution.precision := Observation.precision o;
     ObservationContribution.provenance := Observation.provenance o |}.

(** ** Bucket values *)

Definition kUnknownBucket : string := "unknown".

Definition actor_of (o : Observation.t) : option ResourceRef.t :=
  match Observation.source o with
  | Some r => Some r
  | None => Observation.target o
  end.

Definition resource_aggregate_text (r : ResourceRef.t) : string :=
  if ResourceRef.empty r then kUnknownBucket else ResourceRef.id r.

Definition ref_id (r : option ResourceRef.t) : string :=
  match r with Some r => ResourceRef.id r | None => kUnknownBucket end.

Definition memory_domain_id (r : option ResourceRef.t) : option string :=
  match r with
  | Some r => if decide (ResourceRef.kind r = ResourceKind.MemoryDomain)
              then Some (ResourceRef.id r) else None
  | None => None
  end.

Definition aggregate_value_text (o : Observation.t) (d : AggregateDimension.t)
    (time_bucket_ns : Z) : string :=
  match d with
  | AggregateDimension.EventType => EventType.to_string (Observation.type o)
  | AggregateDimension.Device => ref_id (actor_of o)
  | AggregateDimension.Domain =>
      match memory_domain_id (Observation.source o), memory_domain_id (Observation.target o) with
      | Some id, _ => id
      | None, Some id => id
      | None, None => kUnknownBucket
      end
  | AggregateDimension.Region => default kUnknownBucket (Observation.region o)
  | AggregateDimension.Workload => default kUnknownBucket (Observation.workload o)
  | AggregateDimension.Locality =>
      if negb (Observation.locality_declared o)
         || bool_decide (Observation.locality o = Locality.Unknown)
      then kUnknownBucket else Locality.to_string (Observation.locality o)
  | AggregateDimension.TimeBucket =>
      if (time_bucket_ns <=? 0) || (Observation.timestamp_ns o <? 0) then kUnknownBucket
      else format_i64 (Z.quot (Observation.timestamp_ns o) time_bucket_ns)
  | AggregateDimension.Publisher =>
      if sempty (Observation.source_publisher o) then kUnknownBucket
      else Observation.source_publisher o
  | AggregateDimension.CoherenceDomain => default kUnknownBucket (Observation.coherence_domain o)
  | AggregateDimension.SourceTargetPair =>
      ref_id (Observation.source o) +:+ "->" +:+ ref_id (Observation.target o)
  | AggregateDimension.kCount => kUnknownBucket
  end.

(** ** Accumulation

    The lambda [add] of [accumulate]: a saturating addition into one counter
    that raises [overflowed_here]. *)

Definition accumulator : Type := AggregateValue.t * bool.

Definition add_field (p : AggregateValue.t → Z) `{!Update p} (amount : Z)
    (acc : accumulator) : accumulator :=
  let r := checked_add (p acc.1) amount in
  (acc.1 <| p := AddResult.value r |>, acc.2 || AddResult.overflowed r).

Definition add_if (cond : bool) (p : AggregateValue.t → Z) `{!Update p}
    (acc : accumulator) : accumulator :=
  if cond then add_field p 1 acc else acc.

(** [if (index < counts.size()) add(counts[index], 1);] *)
Definition add_count (p : AggregateValue.t → list Z) `{!Update p} (index : Z)
    (acc : accumulator) : accumulator :=
  match (if index <? 0 then None else p acc.1 !! Z.to_nat index) with
  | Some n =>
      let r := checked_add n 1 in
      (acc.1 <| p := <[Z.to_nat index := AddResult.value r]> (p acc.1) |>,
       acc.2 || AddResult.overflowed r)
  | None => acc
  end.

Definition add_counters (c : ObservationContribution.t) (acc : accumulator) : accumulator :=
  let acc := add_field AggregateValue.observations 1 acc in
  let acc := add_field AggregateValue.bytes (ObservationContribution.bytes c) acc in
  let acc := add_field AggregateValue.lines (ObservationContribution.lines c) acc in
  let acc := add_field AggregateValue.pages (ObservationContribution.pages c) acc in
  let acc := add_field AggregateValue.regions_touched
               (ObservationContribution.regions_touched c) acc in
  let acc := add_field AggregateValue.counter_delta_total
               (ObservationContribution.counter_delta c) acc in
  let acc := add_if (ObservationContribution.remote_access c) AggregateValue.remote_accesses acc in
  let acc := add_if (ObservationContribution.remote_read c) AggregateValue.remote_reads acc in
  let acc := add_if (ObservationContribution.remote_write c) AggregateValue.remote_writes acc in
  let acc := add_if (ObservationContribution.ownership_transfer c)
               AggregateValue.ownership_transfers acc in
  let acc := add_if (ObservationContribution.invalidation c) AggregateValue.invalidations acc in
  let acc := add_if (ObservationContribution.retry c) AggregateValue.retries acc in
  let acc := add_if (ObservationContribution.conflict c) AggregateValue.conflicts acc in
  add_if (ObservationContribution.writeback c) AggregateValue.writebacks acc.

Definition note_timestamp (ts : Z) (b : AggregateValue.t) : AggregateValue.t :=
  if negb (AggregateValue.has_timestamps b) then
    b <| AggregateValue.first_timestamp_ns := ts |>
      <| AggregateValue.last_timestamp_ns := ts |>
      <| AggregateValue.has_timestamps := true |>
  else
    let b := if ts <? AggregateValue.first_timestamp_ns b
             then b <| AggregateValue.first_timestamp_ns := ts |> else b in
    if AggregateValue.last_timestamp_ns b <? ts
    then b <| AggregateValue.last_timestamp_ns := ts |> else b.

Definition note_reality (r : Reality.t) (b : AggregateValue.t) : AggregateValue.t :=
  if decide (r = Reality.Synthetic) then
    (if AggregateValue.synthetic_contribution b && (1 <? AggregateValue.observations b) then b
     else if AggregateValue.has_observations b && (1 <? AggregateValue.observations b)
          then b <| AggregateValue.mixed_contribution := true |> else b)
      <| AggregateValue.synthetic_contribution := true |>
  else if decide (r = Reality.Mixed) then
    b <| AggregateValue.mixed_contribution := true |>
      <| AggregateValue.synthetic_contribution := true |>
  else if AggregateValue.synthetic_contribution b then
    b <| AggregateValue.mixed_contribution := true |>
  else b.

Definition note_precision (p : Precision.t) (b : AggregateValue.t) : AggregateValue.t :=
  if negb (AggregateValue.has_observations b) then
    b <| AggregateValue.weakest_precision := p |> <| AggregateValue.has_observations := true |>
  else b <| AggregateValue.weakest_precision := weakest (AggregateValue.weakest_precision b) p |>.

(** What [accumulate] does to a bucket it found or created; the flag is
    [overflowed_here]. *)
Definition contribute (c : ObservationContribution.t) (b : AggregateValue.t) : accumulator :=
  let acc := add_counters c (b, false) in
  let acc := (note_timestamp (ObservationContribution.timestamp_ns c) acc.1, acc.2) in
  let acc := add_count AggregateValue.precision_counts
               (precision_rank (ObservationContribution.precision c)) acc in
  let acc := add_count AggregateValue.provenance_counts
               (Provenance.code (ObservationContribution.provenance c)) acc in
  let b := note_reality (reality_of (ObservationContribution.provenance c)) acc.1 in
  let b := note_precision (ObservationContribution.precision c) b in
  (if acc.2 then b <| AggregateValue.saturated := true |> else b, acc.2).

Module AggregateStore.
Record t := mk {
  buckets : gmap AggregateKey.t AggregateValue.t; saturations : Z; refused_updates : Z;
}.
#[global] Instance eta : Eta t := fun s => mk (buckets s) (saturations s) (refused_updates s).
Definition empty : t := mk ∅ 0 0.

Definition accumulate (key : AggregateKey.t) (c : ObservationContribution.t) (s : t) : t * bool :=
  let found := buckets s !! key in
  match found, Limits.kMaxAggregateKeys <=? zsize (buckets s) with
  | None, true => (s <| refused_updates ::= λ n, u64_add n 1 |>, false)
  | _, _ =>
      let '(b, overflowed_here) := contribute c (default AggregateValue.empty found) in
      let s := s <| buckets ::= <[key := b]> |> in
      (if overflowed_here : bool then s <| saturations ::= λ n, u64_add n 1 |> else s, true)
  end.

Definition find (key : AggregateKey.t) (s : t) : option AggregateValue.t := buckets s !! key.

(** The summing loop of [observations_in] and [bytes_in], with its early exit
    on overflow. *)
Fixpoint sum_dimension (d : AggregateDimension.t) (field : AggregateValue.t → Z)
    (l : list (AggregateKey.t * AggregateValue.t)) (total : Z) : Z :=
  match l with
  | [] => total
  | (key, v) :: rest =>
      if decide (AggregateKey.dimension key = d) then
        let r := checked_add total (field v) in
        if AddResult.overflowed r then AddResult.value r
        else sum_dimension d field rest (AddResult.value r)
      else sum_dimension d field rest total
  end.

Definition observations_in (d : AggregateDimension.t) (s : t) : Z :=
  sum_dimension d AggregateValue.observations (entries (buckets s)) 0.
Definition bytes_in (d : AggregateDimension.t) (s : t) : Z :=
  sum_dimension d AggregateValue.bytes (entries (buckets s)) 0.

Definition restore (bs : gmap AggregateKey.t AggregateValue.t) (s : t) : t :=
  s <| buckets := bs |> <| saturations := 0 |> <| refused_updates := 0 |>.
Definition clear (s : t) : t :=
  s <| buckets := ∅ |> <| saturations := 0 |> <| refused_updates := 0 |>.
End AggregateStore.

(** ** What a bucket holds

    The fourteen totals of a bucket by name, with what one contribution adds to
    each. *)

Module Total.
Inductive t :=
  | Observations | Bytes | Lines | Pages | RegionsTouched | CounterDelta
  | RemoteAccesses | RemoteReads | RemoteWrites | OwnershipTransfers | Invalidations
  | Retries | Conflicts | Writebacks.
End Total.

Definition total (f : Total.t) (b : AggregateValue.t) : Z :=
  match f with
  | Total.Observations => AggregateValue.observations b
  | Total.Bytes => AggregateValue.bytes b
  | Total.Lines => AggregateValue.lines b
  | Total.Pages => AggregateValue.pages b
  | Total.RegionsTouched => AggregateValue.regions_touched b
  | Total.CounterDelta => AggregateValue.counter_delta_total b
  | Total.RemoteAccesses => AggregateValue.remote_accesses b
  | Total.RemoteReads => AggregateValue.remote_reads b
  | Total.RemoteWrites => AggregateValue.remote_writes b
  | Total.OwnershipTransfers => AggregateValue.ownership_transfers b
  | Total.Invalidations => AggregateValue.invalidations b
  | Total.Retries => AggregateValue.retries b
  | Total.Conflicts => AggregateValue.conflicts b
  | Total.Writebacks => AggregateValue.writebacks b
  end.

Definition amount (f : Total.t) (c : ObservationContribution.t) : Z :=
  match f with
  | Total.Observations => 1
  | Total.Bytes => ObservationContribution.bytes c
  | Total.Lines => ObservationContribution.lines c
  | Total.Pages => ObservationContribution.pages c
  | Total.RegionsTouched => ObservationContribution.regions_touched c
  | Total.CounterDelta => ObservationContribution.counter_delta c
  | Total.RemoteAccesses => bool_u64 (ObservationContribution.remote_access c)
  | Total.RemoteReads => bool_u64 (ObservationContribution.remote_read c)
  | Total.RemoteWrites => bool_u64 (ObservationContribution.remote_write c)
  | Total.OwnershipTransfers => bool_u64 (ObservationContribution.ownership_transfer c)
  | Total.Invalidations => bool_u64 (ObservationContribution.invalidation c)
  | Total.Retries => bool_u64 (ObservationContribution.retry c)
  | Total.Conflicts => bool_u64 (ObservationContribution.conflict c)
  | Total.Writebacks => bool_u64 (ObservationContribution.writeback c)
  end.

(** The bucket that a list of contributions builds from a fresh one, and the
    exact sum of what they add to a total. *)
Definition bucket_of (cs : list ObservationContribution.t) : AggregateValue.t :=
  foldl (λ b c, (contribute c b).1) AggregateValue.empty cs.
Definition sum_of (f : Total.t) (cs : list ObservationContribution.t) : Z :=
  foldr (λ c n, amount f c + n) 0 cs.

(** The counters of a contribution are unsigned. *)
Definition contribution_ok (c : ObservationContribution.t) : Prop := ∀ f, 0 ≤ amount f c.

Section accumulate_lemmas.
Context (p : AggregateValue.t → Z) `{Hu : !Update p}.
Implicit Types acc : accumulator.

Lemma add_field_frame {X} (q : AggregateValue.t → X) n acc :
  (∀ g b, q (update_field (p:=p) g b) = q b) → q (add_field p n acc).1 = q acc.1.
Proof. intros H. apply H. Qed.

Lemma add_if_frame {X} (q : AggregateValue.t → X) cond acc :
  (∀ g b, q (update_field (p:=p) g b) = q b) → q (add_if cond p acc).1 = q acc.1.
Proof. intros H. destruct cond; [apply H|done]. Qed.

Lemma add_field_same q n acc :
  (∀ g b, q (update_field (p:=p) g b) = g (p b)) → (∀ b, q b = p b) →
  q (add_field p n acc).1 = sat_add (q acc.1) n.
Proof. intros H E. rewrite (E acc.1). etransitivity; [apply H|]. apply checked_add_value. Qed.

Lemma add_if_same q cond acc :
  (∀ g b, q (update_field (p:=p) g b) = g (p b)) → (∀ b, q b = p b) →
  q acc.1 ≤ u64_max → q (add_if cond p acc).1 = sat_add (q acc.1) (bool_u64 cond).
Proof.
  intros H E Hle. destruct cond; simpl; [by apply add_field_same|].
  by rewrite sat_add_0_r.
Qed.

Lemma add_field_flag n acc : (add_field p n acc).2 = acc.2 || (u64_max <? p acc.1 + n).
Proof. unfold add_field. simpl. by rewrite checked_add_overflowed. Qed.

Lemma add_if_flag cond acc :
  p acc.1 ≤ u64_max → (add_if cond p acc).2 = acc.2 || (u64_max <? p acc.1 + bool_u64 cond).
Proof.
  intros Hle. destruct cond; simpl; [apply add_field_flag|].
  rewrite (proj2 (Z.ltb_ge _ _)), orb_false_r by lia. done.
Qed.
End accumulate_lemmas.

(** Pushes a projection through the chain of additions. *)
Ltac frame_adds :=
  repeat first [ rewrite add_if_frame by reflexivity
               | rewrite add_field_frame by reflexivity
               | rewrite add_if_same by (reflexivity || (repeat first
                   [rewrite add_if_frame by reflexivity | rewrite add_field_frame by reflexivity]; done))
               | rewrite add_field_same by reflexivity ].

Definition bucket_in_range (b : AggregateValue.t) : Prop := ∀ f, total f b ≤ u64_max.

Lemma add_counters_total c b fl f :
  bucket_in_range b → total f (add_counters c (b, fl)).1 = sat_add (total f b) (amount f c).
Proof. intros Hb. unfold add_counters. specialize (Hb f). destruct f; frame_adds; done. Qed.

(** The remaining steps of [contribute] leave the totals alone. *)
Lemma note_timestamp_total ts b f : total f (note_timestamp ts b) = total f b.
Proof. unfold note_timestamp. by destruct f; repeat case_match. Qed.
Lemma note_reality_total r b f : total f (note_reality r b) = total f b.
Proof. unfold note_reality. by destruct f; repeat case_match. Qed.
Lemma note_precision_total p b f : total f (note_precision p b) = total f b.
Proof. unfold note_precision. by destruct f; repeat case_match. Qed.
Lemma add_count_frame {X} (q : AggregateValue.t → X) (p : AggregateValue.t → list Z)
    `{!Update p} i acc :
  (∀ g b, q (update_field (p:=p) g b) = q b) → q (add_count p i acc).1 = q acc.1.
Proof. intros H. unfold add_count. destruct (if i <? 0 then _ else _); [apply H|done]. Qed.

Lemma contribute_total c b f :
  bucket_in_range b → total f (contribute c b).1 = sat_add (total f b) (amount f c).
Proof.
  intros Hb. unfold contribute. cbn [fst].
  rewrite <-(add_counters_total c b false f Hb).
  etransitivity; [|apply (note_timestamp_total (ObservationContribution.timestamp_ns c))].
  transitivity (total f (note_precision (ObservationContribution.precision c)
    (note_reality (reality_of (ObservationContribution.provenance c))
      (add_count AggregateValue.provenance_counts (Provenance.code (ObservationContribution.provenance c))
        (add_count AggregateValue.precision_counts (precision_rank (ObservationContribution.precision c))
          (note_timestamp (ObservationContribution.timestamp_ns c) (add_counters c (b, false)).1,
             (add_counters c (b, false)).2))).1))).
  { destruct f; case_match; reflexivity. }
  rewrite note_precision_total, note_reality_total.
  destruct f; by rewrite !add_count_frame by reflexivity.
Qed.

Lemma contribute_in_range c b : bucket_in_range b → bucket_in_range (contribute c b).1.
Proof. intros Hb f. rewrite contribute_total by done. unfold sat_add. lia. Qed.

Lemma bucket_of_snoc cs c : bucket_of (cs ++ [c]) = (contribute c (bucket_of cs)).1.
Proof. unfold bucket_of. by rewrite foldl_snoc. Qed.

Lemma sum_of_app f cs ds : sum_of f (cs ++ ds) = sum_of f cs + sum_of f ds.
Proof. induction cs as [|c cs IH]; simpl; [done|]. rewrite IH. lia. Qed.

Lemma sum_of_nonneg f cs : Forall contribution_ok cs → 0 ≤ sum_of f cs.
Proof. induction 1 as [|c cs Hc _ IH]; simpl; [done|]. specialize (Hc f). lia. Qed.

Lemma bucket_of_in_range cs : bucket_in_range (bucket_of cs).
Proof.
  induction cs as [|c cs IH] using rev_ind; [by intros []|].
  rewrite bucket_of_snoc. by apply contribute_in_range.
Qed.

Lemma bucket_of_total f cs :
  Forall contribution_ok cs → total f (bucket_of cs) = Z.min u64_max (sum_of f cs).
Proof.
  induction cs as [|c cs IH] using rev_ind; intros Hcs; [by destruct f|].
  apply Forall_app in Hcs as [Hcs Hc]. rewrite bucket_of_snoc, sum_of_app.
  rewrite contribute_total by apply bucket_of_in_range. rewrite (IH Hcs). simpl.
  apply Forall_cons in Hc as [Hc _]. specialize (Hc f). unfold sat_add. lia.
Qed.

(** The per-precision and per-provenance counts never exceed the number of
    observations, so they cannot overflow before it does. *)
Definition counts_le (b : AggregateValue.t) : Prop :=
  Forall (λ n, n ≤ AggregateValue.observations b) (AggregateValue.precision_counts b)
  ∧ Forall (λ n, n ≤ AggregateValue.observations b) (AggregateValue.provenance_counts b).

(** Reads a projection of the final bucket: the steps that do not touch it are
    dropped. *)
Lemma contribute_proj {X} (q : AggregateValue.t → X) c b :
  (∀ v x, q (v <| AggregateValue.saturated := x |>) = q v) →
  q (contribute c b).1 =
  q (note_precision (ObservationContribution.precision c)
      (note_reality (reality_of (ObservationContribution.provenance c))
        (add_count AggregateValue.provenance_counts (Provenance.code (ObservationContribution.provenance c))
          (add_count AggregateValue.precision_counts (precision_rank (ObservationContribution.precision c))
            (note_timestamp (ObservationContribution.timestamp_ns c) (add_counters c (b, false)).1,
               (add_counters c (b, false)).2))).1)).
Proof. intros H. unfold contribute. cbn [fst]. case_match; [apply H|done]. Qed.

Lemma note_counts ts r p b :
  AggregateValue.precision_counts (note_precision p (note_reality r b))
    = AggregateValue.precision_counts b
  ∧ AggregateValue.provenance_counts (note_precision p (note_reality r b))
    = AggregateValue.provenance_counts b
  ∧ AggregateValue.precision_counts (note_timestamp ts b) = AggregateValue.precision_counts b
  ∧ AggregateValue.provenance_counts (note_timestamp ts b) = AggregateValue.provenance_counts b.
Proof. unfold note_precision, note_reality, note_timestamp. repeat split; repeat case_match; done. Qed.

Lemma add_counters_counts c acc :
  AggregateValue.precision_counts (add_counters c acc).1 = AggregateValue.precision_counts acc.1
  ∧ AggregateValue.provenance_counts (add_counters c acc).1 = AggregateValue.provenance_counts acc.1.
Proof. unfold add_counters. split; frame_adds; done. Qed.

Lemma add_count_le (p : AggregateValue.t → list Z) `{!Update p} i acc m :
  (∀ g b, p (update_field (p:=p) g b) = g (p b)) → m ≤ u64_max →
  Forall (λ n, n ≤ m) (p acc.1) → Forall (λ n, n ≤ sat_add m 1) (p (add_count p i acc).1).
Proof.
  intros Hp Hm H. assert (H' : Forall (λ n, n ≤ sat_add m 1) (p acc.1)).
  { eapply Forall_impl; [exact H|]. unfold sat_add. simpl. lia. }
  unfold add_count. destruct (if i <? 0 then _ else _) as [n|] eqn:E; [|done].
  cbn [fst]. rewrite Hp. apply Forall_insert; [done|]. rewrite checked_add_value.
  destruct (i <? 0); [done|]. rewrite Forall_lookup in H. apply H in E. unfold sat_add. lia.
Qed.

Lemma add_count_flag (p : AggregateValue.t → list Z) `{!Update p} i acc m :
  Forall (λ n, n ≤ m) (p acc.1) → m < u64_max → (add_count p i acc).2 = acc.2.
Proof.
  intros H Hm. unfold add_count. destruct (if i <? 0 then _ else _) as [n|] eqn:E; [|done].
  simpl. destruct (i <? 0); [done|]. rewrite Forall_lookup in H. apply H in E.
  rewrite checked_add_overflowed, (proj2 (Z.ltb_ge _ _)), orb_false_r by lia. done.
Qed.

Lemma add_count_flag_mono (p : AggregateValue.t → list Z) `{!Update p} i acc :
  acc.2 = true → (add_count p i acc).2 = true.
Proof. intros H. unfold add_count. destruct (if i <? 0 then _ else _); simpl; by rewrite ?H. Qed.

Lemma add_counters_flag c b :
  bucket_in_range b →
  ((add_counters c (b, false)).2 = true ↔ ∃ f, u64_max < total f b + amount f c).
Proof.
  intros Hb.
  assert (Hall : (add_counters c (b, false)).2 = true ↔
    ∃ f, (u64_max <? total f b + amount f c) = true).
  { unfold add_counters.
    repeat (rewrite add_if_flag by (frame_adds; apply (Hb _) ||
      first [apply (Hb Total.RemoteAccesses)|apply (Hb Total.RemoteReads)|apply (Hb Total.RemoteWrites)
            |apply (Hb Total.OwnershipTransfers)|apply (Hb Total.Invalidations)|apply (Hb Total.Retries)
            |apply (Hb Total.Conflicts)|apply (Hb Total.Writebacks)])).
    rewrite !add_field_flag. frame_adds. cbn [fst snd]. rewrite !orb_true_iff. split.
    - intros H. repeat destruct H as [H|H]; try done;
        first [by exists Total.Observations|by exists Total.Bytes|by exists Total.Lines
              |by exists Total.Pages|by exists Total.RegionsTouched|by exists Total.CounterDelta
              |by exists Total.RemoteAccesses|by exists Total.RemoteReads|by exists Total.RemoteWrites
              |by exists Total.OwnershipTransfers|by exists Total.Invalidations|by exists Total.Retries
              |by exists Total.Conflicts|by exists Total.Writebacks].
    - intros [f H]. destruct f; cbn [total amount] in H; rewrite H; tauto. }
  rewrite Hall. split; intros [f H]; exists f; lia.
Qed.

Lemma contribute_flag c b :
  bucket_in_range b → counts_le b →
  ((contribute c b).2 = true ↔ ∃ f, u64_max < total f b + amount f c).
Proof.
  intros Hb [Hp Hv]. rewrite <-add_counters_flag by done. unfold contribute. cbn [snd].
  destruct (add_counters_counts c (b, false)) as [Ep Ev].
  set (acc := (note_timestamp _ _, _)).
  destruct (note_counts (ObservationContribution.timestamp_ns c) Reality.Real Precision.Unknown
    (add_counters c (b, false)).1) as (_ & _ & Tp & Tv).
  destruct (Z_lt_dec (AggregateValue.observations b) u64_max) as [Hlt|Hge].
  - erewrite add_count_flag; [|rewrite add_count_frame by reflexivity; cbn [acc fst];
      rewrite Tv, Ev; exact Hv|done].
    erewrite add_count_flag; [done|cbn [acc fst]; rewrite Tp, Ep; exact Hp|done].
  - assert (Hf : (add_counters c (b, false)).2 = true).
    { apply add_counters_flag; [done|]. exists Total.Observations. simpl. lia. }
    split; [done|]. intros _. by apply add_count_flag_mono, add_count_flag_mono.
Qed.

Lemma contribute_counts_le c b :
  bucket_in_range b → counts_le b → counts_le (contribute c b).1.
Proof.
  intros Hb [Hp Hv]. pose proof (contribute_total c b Total.Observations Hb) as Ho.
  cbn [total amount] in Ho. unfold counts_le. rewrite Ho.
  destruct (add_counters_counts c (b, false)) as [Ep Ev].
  rewrite !(contribute_proj _ c b) by reflexivity.
  edestruct (note_counts 0) as (-> & -> & _).
  edestruct (note_counts (ObservationContribution.timestamp_ns c) Reality.Real Precision.Unknown
    (add_counters c (b, false)).1) as (_ & _ & Tp & Tv).
  pose proof (Hb Total.Observations). split.
  - rewrite add_count_frame by reflexivity. apply add_count_le; [reflexivity|done|].
    cbn [fst]. by rewrite Tp, Ep.
  - apply add_count_le; [reflexivity|done|]. rewrite add_count_frame by reflexivity.
    cbn [fst]. by rewrite Tv, Ev.
Qed.

Lemma bucket_of_counts_le cs : counts_le (bucket_of cs).
Proof.
  induction cs as [|c cs IH] using rev_ind.
  - split; by repeat constructor.
  - rewrite bucket_of_snoc. apply contribute_counts_le; [apply bucket_of_in_range|done].
Qed.

Lemma contribute_saturated c b :
  AggregateValue.saturated (contribute c b).1
  = AggregateValue.saturated b || (contribute c b).2.
Proof.
  assert (Hs : ∀ ts r p v, AggregateValue.saturated (note_timestamp ts v) = AggregateValue.saturated v
    ∧ AggregateValue.saturated (note_precision p (note_reality r v)) = AggregateValue.saturated v).
  { intros ts r p v. unfold note_timestamp, note_precision, note_reality.
    split; repeat case_match; done. }
  unfold contribute. cbn [fst snd]. case_match eqn:E.
  - cbn. by rewrite orb_true_r.
  - rewrite orb_false_r. edestruct Hs as [_ ->]. rewrite !add_count_frame by reflexivity.
    cbn [fst]. edestruct (Hs (ObservationContribution.timestamp_ns c)) as [-> _].
    unfold add_counters. by frame_adds.
Unshelve. all: first [exact 0|exact Reality.Real|exact Precision.Unknown].
Qed.

(** Accumulation never loses a count silently.  After any list of
    contributions, each of the fourteen totals of the bucket is the exact sum of
    what was contributed, capped at the 64-bit maximum, and the bucket is
    flagged saturated exactly when some exact sum exceeds that maximum: an
    unflagged bucket is exact in every total. *)
Lemma bucket_sums (cs : list ObservationContribution.t) :
  Forall contribution_ok cs →
  (∀ f, total f (bucket_of cs) = Z.min u64_max (sum_of f cs))
  ∧ (AggregateValue.saturated (bucket_of cs) = true ↔ ∃ f, u64_max < sum_of f cs).
Proof.
  intros Hcs. split; [intros f; by apply bucket_of_total|].
  induction cs as [|c cs IH] using rev_ind.
  - split; [done|]. intros [f H]. simpl in H. unfold u64_max in H. lia.
  - apply Forall_app in Hcs as [Hcs Hc]. apply Forall_cons in Hc as [Hc _].
    rewrite bucket_of_snoc, contribute_saturated, orb_true_iff, (IH Hcs).
    rewrite contribute_flag by (apply bucket_of_in_range || apply bucket_of_counts_le).
    setoid_rewrite bucket_of_total; [|done]. setoid_rewrite sum_of_app. simpl.
    split.
    + intros [[f H]|[f H]]; exists f; specialize (Hc f); lia.
    + intros [f H]. destruct (Z_lt_dec u64_max (sum_of f cs)); [left|right]; exists f; lia.
Qed.

(** A contribution used as a concrete input. *)
Definition sample_contribution (bytes : Z) (p : Provenance.t) : ObservationContribution.t :=
  {| ObservationContribution.bytes := bytes; ObservationContribution.lines := 1;
     ObservationContribution.pages := 0; ObservationContribution.regions_touched := 1;
     ObservationContribution.remote_access := true; ObservationContribution.remote_read := true;
     ObservationContribution.remote_write := false;
     ObservationContribution.ownership_transfer := false;
     ObservationContribution.invalidation := false; ObservationContribution.retry := false;
     ObservationContribution.conflict := false; ObservationContribution.writeback := false;
     ObservationContribution.counter_delta := 0; ObservationContribution.timestamp_ns := bytes;
     ObservationContribution.precision := Precision.ExactEvent;
     ObservationContribution.provenance := p |}.

(** *** Evidence quality of a bucket *)

Definition reality_of_all (cs : list ObservationContribution.t) : Reality.t :=
  match map (λ c, reality_of (ObservationContribution.provenance c)) cs with
  | [] => Reality.Real
  | r :: rest => foldl combine_reality r rest
  end.

(** Which fields each step writes. *)
Lemma note_timestamp_frame {X} (q : AggregateValue.t → X) ts b :
  (∀ g b, q (update_field (p:=AggregateValue.first_timestamp_ns) g b) = q b) →
  (∀ g b, q (update_field (p:=AggregateValue.last_timestamp_ns) g b) = q b) →
  (∀ g b, q (update_field (p:=AggregateValue.has_timestamps) g b) = q b) →
  q (note_timestamp ts b) = q b.
Proof.
  intros H1 H2 H3. unfold note_timestamp. repeat case_match; rewrite ?H3, ?H2, ?H1; done.
Qed.

Lemma note_reality_frame {X} (q : AggregateValue.t → X) r b :
  (∀ g b, q (update_field (p:=AggregateValue.mixed_contribution) g b) = q b) →
  (∀ g b, q (update_field (p:=AggregateValue.synthetic_contribution) g b) = q b) →
  q (note_reality r b) = q b.
Proof. intros H1 H2. unfold note_reality. repeat case_match; rewrite ?H2, ?H1; done. Qed.

Lemma note_precision_frame {X} (q : AggregateValue.t → X) p b :
  (∀ g b, q (update_field (p:=AggregateValue.weakest_precision) g b) = q b) →
  (∀ g b, q (update_field (p:=AggregateValue.has_observations) g b) = q b) →
  q (note_precision p b) = q b.
Proof. intros H1 H2. unfold note_precision. case_match; rewrite ?H2, ?H1; done. Qed.

Ltac frame_notes :=
  repeat first [ rewrite note_precision_frame by reflexivity
               | rewrite note_reality_frame by reflexivity
               | rewrite add_count_frame by reflexivity
               | rewrite note_timestamp_frame by reflexivity
               | progress cbn [fst] ].

Lemma note_reality_spec r v :
  r = Reality.Real ∨ r = Reality.Synthetic ∨ r = Reality.Mixed →
  (AggregateValue.observations v = 1 → AggregateValue.synthetic_contribution v = false →
   AggregateValue.mixed_contribution v = false → AggregateValue.reality (note_reality r v) = r)
  ∧ (1 < AggregateValue.observations v → AggregateValue.has_observations v = true →
     AggregateValue.reality (note_reality r v) = combine_reality (AggregateValue.reality v) r).
Proof.
  intros Hr. unfold AggregateValue.reality, note_reality, combine_reality.
  split; [intros Ho Hs Hm|intros Ho Hh].
  - destruct v; cbn in *; subst. by destruct Hr as [->|[->| ->]], has_observations.
  - apply Z.ltb_lt in Ho. rewrite Ho, Hh, andb_true_r. destruct v; cbn in *.
    by destruct Hr as [->|[->| ->]], mixed_contribution, synthetic_contribution.
Qed.

(** What [contribute] does to the quality fields of a bucket. *)
Lemma contribute_quality c b :
  AggregateValue.observations b ≤ u64_max →
  let b' := (contribute c b).1 in
  let r := reality_of (ObservationContribution.provenance c) in
  (AggregateValue.observations b = 0 → AggregateValue.synthetic_contribution b = false →
   AggregateValue.mixed_contribution b = false → AggregateValue.reality b' = r)
  ∧ (1 ≤ AggregateValue.observations b → AggregateValue.has_observations b = true →
     AggregateValue.reality b' = combine_reality (AggregateValue.reality b) r)
  ∧ AggregateValue.has_observations b' = true
  ∧ AggregateValue.weakest_precision b' =
      (if AggregateValue.has_observations b
       then weakest (AggregateValue.weakest_precision b) (ObservationContribution.precision c)
       else ObservationContribution.precision c).
Proof.
  intros Hmax. cbn zeta. rewrite !(contribute_proj _ c b) by reflexivity.
  set (acc := add_count AggregateValue.provenance_counts _ _).
  assert (Hq : AggregateValue.synthetic_contribution acc.1 = AggregateValue.synthetic_contribution b
    ∧ AggregateValue.mixed_contribution acc.1 = AggregateValue.mixed_contribution b
    ∧ AggregateValue.has_observations acc.1 = AggregateValue.has_observations b
    ∧ AggregateValue.weakest_precision acc.1 = AggregateValue.weakest_precision b
    ∧ AggregateValue.observations acc.1 = sat_add (AggregateValue.observations b) 1).
  { unfold acc, add_counters. split_and!; frame_notes; frame_adds; done. }
  destruct Hq as (Es & Em & Eh & Ew & Eo).
  assert (Er : AggregateValue.reality acc.1 = AggregateValue.reality b).
  { unfold AggregateValue.reality. by rewrite Em, Es. }
  destruct (note_reality_spec _ acc.1 (reality_of_cases (ObservationContribution.provenance c)))
    as [Hfirst Hnext]. unfold sat_add, u64_max in *.
  rewrite note_precision_frame by reflexivity. split_and!.
  - intros H0 Hs Hm. apply Hfirst; [lia|congruence..].
  - intros H1 Hh. rewrite <-Er. apply Hnext; [lia|congruence].
  - unfold note_precision. rewrite note_reality_frame by reflexivity. rewrite Eh.
    destruct (AggregateValue.has_observations b) eqn:E; simpl; [|done].
    transitivity (AggregateValue.has_observations acc.1); [|congruence].
    by apply note_reality_frame.
  - unfold note_precision. rewrite note_reality_frame by reflexivity. rewrite Eh.
    destruct (AggregateValue.has_observations b); cbn [negb]; [|reflexivity].
    rewrite <-Ew, <-(note_reality_frame AggregateValue.weakest_precision
      (reality_of (ObservationContribution.provenance c)) acc.1) by reflexivity. reflexivity.
Qed.

Lemma foldl_combine_reality r x rs :
  r ≠ Reality.Mixed →
  (foldl combine_reality x rs = r ↔ x = r ∧ Forall (λ y, y = r) rs).
Proof.
  intros Hr. revert x. induction rs as [|y rs IH]; intros x; simpl.
  { split; [intros ->; split; [done|constructor]|by intros [? _]]. }
  rewrite IH, Forall_cons. unfold combine_reality. case_decide; [subst; tauto|].
  split; [intros [<- _]; done|]. intros (-> & -> & _). done.
Qed.

Lemma bucket_of_quality c cs :
  Forall contribution_ok (c :: cs) →
  let b := bucket_of (c :: cs) in
  1 ≤ AggregateValue.observations b
  ∧ AggregateValue.has_observations b = true
  ∧ AggregateValue.reality b = reality_of_all (c :: cs)
  ∧ AggregateValue.weakest_precision b
    = weakest_of (map ObservationContribution.precision (c :: cs)).
Proof.
  induction cs as [|d cs IH] using rev_ind; intros Hok; cbn zeta.
  - pose proof (bucket_of_total Total.Observations [c] Hok) as Hn. cbn [total] in Hn.
    destruct (contribute_quality c AggregateValue.empty) as (Hr & _ & Hh & Hw); [done|].
    change (bucket_of [c]) with (contribute c AggregateValue.empty).1 in *.
    split_and!; [rewrite Hn; by vm_compute|done|by apply Hr|exact Hw].
  - rewrite app_comm_cons in Hok |- *. apply Forall_app in Hok as [Hok Hd].
    destruct (IH Hok) as (Hn & Hh & Hr & Hw). rewrite bucket_of_snoc.
    pose proof (bucket_of_in_range (c :: cs)) as Hrange.
    destruct (contribute_quality d (bucket_of (c :: cs)) (Hrange Total.Observations))
      as (_ & Hr' & Hh' & Hw').
    pose proof (contribute_total d _ Total.Observations Hrange) as Hn'. cbn [total amount] in Hn'.
    specialize (Hrange Total.Observations). cbn [total] in Hrange.
    split_and!; [rewrite Hn'; unfold sat_add, u64_max in *; lia|done| |].
    + rewrite Hr' by done. rewrite Hr. unfold reality_of_all. simpl.
      rewrite map_app; simpl. by rewrite foldl_snoc.
    + rewrite Hw', Hh, Hw. simpl. rewrite map_app; simpl. by rewrite foldl_snoc.
Qed.

(** A bucket reports evidence quality honestly: whatever mixture of
    contributions built it, its reported precision is a contribution's precision
    and no stronger than any of them, it is reported Real only when every
    contribution is real evidence, Synthetic only when every one is synthetic,
    and Mixed otherwise. *)
Lemma bucket_honest (cs : list ObservationContribution.t) :
  cs ≠ [] → Forall contribution_ok cs →
  let b := bucket_of cs in
  AggregateValue.weakest_precision b ∈ map ObservationContribution.precision cs
  ∧ (∀ c, c ∈ cs → precision_rank (AggregateValue.weakest_precision b)
                   ≤ precision_rank (ObservationContribution.precision c))
  ∧ (∀ r, r = Reality.Real ∨ r = Reality.Synthetic →
       (AggregateValue.reality b = r ↔
        ∀ c, c ∈ cs → reality_of (ObservationContribution.provenance c) = r))
  ∧ (AggregateValue.reality b = Reality.Mixed ∨ AggregateValue.reality b = Reality.Real
     ∨ AggregateValue.reality b = Reality.Synthetic).
Proof.
  intros Hne Hok. destruct cs as [|c cs]; [done|]. cbn zeta.
  destruct (bucket_of_quality c cs Hok) as (_ & _ & Hr & Hw). rewrite Hr, Hw. split_and!.
  - by apply weakest_of_elem.
  - intros d Hd. apply weakest_of_spec, list_elem_of_fmap. eauto.
  - intros r Hrr. unfold reality_of_all. cbn [map].
    rewrite <-Forall_forall, Forall_cons.
    rewrite (foldl_combine_reality r) by (destruct Hrr as [->| ->]; done).
    by rewrite Forall_map.
  - unfold AggregateValue.reality. rewrite <-Hr. unfold AggregateValue.reality.
    repeat case_match; auto.
Qed.

(** ** The store and its log *)

Abbreviation log := (list (AggregateKey.t * ObservationContribution.t)).

Definition contributions_to (key : AggregateKey.t) (l : log) : list ObservationContribution.t :=
  (filter (λ e, e.1 = key) l).*2.

(** Every bucket holds exactly the contributions logged under its key, and a key
    has a bucket as soon as it is logged. *)
Definition represents (s : AggregateStore.t) (l : log) : Prop :=
  ∀ key, AggregateStore.find key s =
    match contributions_to key l with
    | [] => None
    | cs => Some (bucket_of cs)
    end.

Lemma contributions_to_snoc key l k c :
  contributions_to key (l ++ [(k, c)])
  = contributions_to key l ++ (if decide (k = key) then [c] else []).
Proof.
  unfold contributions_to. rewrite filter_app, fmap_app, filter_cons. simpl.
  case_decide; done.
Qed.

(** The two outcomes of [accumulate]. *)
Lemma accumulate_cases key c s :
  (AggregateStore.accumulate key c s
     = (s <| AggregateStore.refused_updates ::= λ n, u64_add n 1 |>, false)
   ∧ AggregateStore.find key s = None
   ∧ Limits.kMaxAggregateKeys ≤ zsize (AggregateStore.buckets s))
  ∨ (∃ n, AggregateStore.accumulate key c s
     = (s <| AggregateStore.buckets ::=
              <[key := (contribute c (default AggregateValue.empty (AggregateStore.find key s))).1]> |>
          <| AggregateStore.saturations := n |>, true)
   ∧ (AggregateStore.find key s = None →
      zsize (AggregateStore.buckets s) < Limits.kMaxAggregateKeys)).
Proof.
  unfold AggregateStore.accumulate, AggregateStore.find.
  destruct (AggregateStore.buckets s !! key) as [b|] eqn:E;
    destruct (Z.leb_spec Limits.kMaxAggregateKeys (zsize (AggregateStore.buckets s)));
    [right|right|left; by split_and!|right];
    match goal with |- context [contribute c ?v] => destruct (contribute c v) as [b' []] end;
    eexists; (split; [reflexivity|done || lia]).
Qed.

(** Accumulation refines appending to the log: an accepted update extends the
    log the store represents, a refused one leaves it as it is. *)
Lemma accumulate_represents key c s l :
  represents s l →
  let '(s', accepted) := AggregateStore.accumulate key c s in
  represents s' (if accepted then l ++ [(key, c)] else l).
Proof.
  intros Hr. destruct (accumulate_cases key c s) as [(-> & _)|(n & -> & _)]; [exact Hr|].
  intros k. rewrite contributions_to_snoc. unfold AggregateStore.find.
  cbn [AggregateStore.buckets update_field]. specialize (Hr k) as Hk.
  destruct (decide (key = k)) as [->|Hne].
  - transitivity (Some (contribute c (default AggregateValue.empty (AggregateStore.find k s))).1).
    { apply lookup_insert_eq. }
    rewrite Hk. destruct (contributions_to k l) as [|d cs]; [done|].
    rewrite <-app_comm_cons. rewrite app_comm_cons, bucket_of_snoc. done.
  - rewrite app_nil_r, <-Hk. apply lookup_insert_ne. done.
Qed.

(** A run of updates, with the updates the store accepted. *)
Fixpoint accumulate_all (us : log) (s : AggregateStore.t) (accepted : log)
    : AggregateStore.t * log :=
  match us with
  | [] => (s, accepted)
  | (key, c) :: rest =>
      let '(s, ok) := AggregateStore.accumulate key c s in
      accumulate_all rest s (if ok then accepted ++ [(key, c)] else accepted)
  end.

Definition store_bounded (s : AggregateStore.t) : Prop :=
  zsize (AggregateStore.buckets s) ≤ Limits.kMaxAggregateKeys.

Lemma accumulate_bounded key c s :
  store_bounded s → store_bounded (AggregateStore.accumulate key c s).1.
Proof.
  unfold store_bounded. intros Hb.
  destruct (accumulate_cases key c s) as [(-> & _)|(n & -> & Hn)]; [exact Hb|].
  unfold AggregateStore.find in Hn. cbn [fst].
  change (zsize (<[key := (contribute c (default AggregateValue.empty (AggregateStore.find key s))).1]>
    (AggregateStore.buckets s)) ≤ Limits.kMaxAggregateKeys).
  destruct (AggregateStore.buckets s !! key) as [b|] eqn:E.
  - by rewrite (zsize_insert_Some _ _ _ _ E).
  - rewrite zsize_insert_None by done. specialize (Hn eq_refl). lia.
Qed.

Lemma accumulate_all_spec us : ∀ s l,
  represents s l → store_bounded s → in_u64 (AggregateStore.refused_updates s) →
  let '(s', l') := accumulate_all us s l in
  represents s' l' ∧ store_bounded s'
  ∧ (∃ kept, l' = l ++ kept ∧ kept `sublist_of` us
     ∧ AggregateStore.refused_updates s'
       = wrap64 (AggregateStore.refused_updates s + (zlen us - zlen kept))).
Proof.
  induction us as [|[key c] us IH]; intros s l Hr Hb Hu; simpl.
  { split_and!; [done..|]. exists []. rewrite app_nil_r. split_and!; [done..|].
    rewrite Z.add_0_r. by rewrite wrap64_small. }
  pose proof (accumulate_represents key c s l Hr) as Hr'.
  pose proof (accumulate_bounded key c s Hb) as Hb'.
  destruct (accumulate_cases key c s) as [(E & _)|(n & E & _)]; rewrite E in Hr', Hb' |- *; cbn [fst] in *.
  - specialize (IH _ _ Hr' Hb' (u64_add_range _ _)). destruct (accumulate_all us _ _) as [s' l'].
    destruct IH as (H1 & H2 & kept & -> & Hk & Hn). split_and!; [done..|]. exists kept.
    split_and!; [done|by apply sublist_cons|]. rewrite Hn. cbn. unfold u64_add, wrap64.
    rewrite Zplus_mod_idemp_l, zlen_cons. f_equal. lia.
  - specialize (IH _ _ Hr' Hb' Hu). destruct (accumulate_all us _ _) as [s' l'].
    destruct IH as (H1 & H2 & kept & -> & Hk & Hn). split_and!; [done..|]. exists ((key, c) :: kept).
    split_and!; [by rewrite <-app_assoc|by apply sublist_skip|]. rewrite Hn. cbn.
    rewrite !zlen_cons. f_equal. lia.
Qed.

Lemma store_run_represents us :
  represents (accumulate_all us AggregateStore.empty []).1 (accumulate_all us AggregateStore.empty []).2.
Proof.
  pose proof (accumulate_all_spec us AggregateStore.empty []) as H.
  destruct (accumulate_all us _ _) as [s l]. apply H; by vm_compute.
Qed.

(** *** What a bucket reports

    The updates a store admits, by their keys alone: those to a key that has a bucket, and
    those to a new one as long as there are fewer keys than the store holds. *)
Fixpoint admitted (us : log) (seen : gset AggregateKey.t) : log :=
  match us with
  | [] => []
  | (key, c) :: rest =>
      if bool_decide (key ∈ seen) || (Z.of_nat (size seen) <? Limits.kMaxAggregateKeys)
      then (key, c) :: admitted rest ({[key]} ∪ seen)
      else admitted rest seen
  end.

Lemma accumulate_all_admitted us : ∀ s l,
  (accumulate_all us s l).2 = l ++ admitted us (dom (AggregateStore.buckets s)).
Proof.
  induction us as [|[key c] us IH]; intros s l; cbn [accumulate_all admitted]; [by rewrite app_nil_r|].
  destruct (accumulate_cases key c s) as [(-> & Hf & Hz)|(n & -> & Hroom)]; cbv iota beta.
  - rewrite IH, bool_decide_false by (by apply not_elem_of_dom). unfold zsize in Hz. rewrite size_dom.
    rewrite (proj2 (Z.ltb_ge _ _)) by done. done.
  - rewrite IH, <- app_assoc. cbn [app].
    replace (bool_decide (key ∈ dom (AggregateStore.buckets s)) || (Z.of_nat (size (dom (AggregateStore.buckets s)))
      <? Limits.kMaxAggregateKeys)) with true.
    + do 2 f_equal. match goal with |- admitted us ?x = admitted us ?y => replace x with y; [done|] end.
      apply set_eq. intros k. symmetry.
      etransitivity; [apply (elem_of_dom (<[key := _]> (AggregateStore.buckets s)))|].
      rewrite lookup_insert_is_Some', <- (elem_of_dom (AggregateStore.buckets s)). set_solver.
    + symmetry. apply orb_true_iff. rewrite bool_decide_eq_true, size_dom, Z.ltb_lt, elem_of_dom.
      destruct (AggregateStore.find key s) as [b|] eqn:E; [left; by exists b|right; by apply Hroom].
Qed.

Lemma contribute_times c b :
  let b' := (contribute c b).1 in
  let t := ObservationContribution.timestamp_ns c in
  AggregateValue.has_timestamps b' = true
  ∧ AggregateValue.first_timestamp_ns b'
    = (if AggregateValue.has_timestamps b then Z.min (AggregateValue.first_timestamp_ns b) t else t)
  ∧ AggregateValue.last_timestamp_ns b'
    = (if AggregateValue.has_timestamps b then Z.max (AggregateValue.last_timestamp_ns b) t else t).
Proof.
  cbn zeta. rewrite !(contribute_proj _ c b) by reflexivity.
  rewrite !note_precision_frame, !note_reality_frame, !add_count_frame by reflexivity. cbn [fst].
  set (t := ObservationContribution.timestamp_ns c).
  assert (∀ acc, AggregateValue.has_timestamps (add_counters c acc).1 = AggregateValue.has_timestamps acc.1
    ∧ AggregateValue.first_timestamp_ns (add_counters c acc).1 = AggregateValue.first_timestamp_ns acc.1
    ∧ AggregateValue.last_timestamp_ns (add_counters c acc).1 = AggregateValue.last_timestamp_ns acc.1) as H
    by (intros acc; unfold add_counters; split_and!; frame_adds; done).
  destruct (H (b, false)) as (Eh & Ef & El). cbn [fst] in Eh, Ef, El.
  set (v := (add_counters c (b, false)).1) in *. clearbody v. unfold note_timestamp. rewrite <- Eh, <- Ef, <- El.
  destruct (AggregateValue.has_timestamps v) eqn:E; cbn [negb]; [|by split_and!].
  destruct (Z.ltb_spec t (AggregateValue.first_timestamp_ns v)) as [H1|H1].
  - rewrite (Z.min_r _ t) by lia. cbn [AggregateValue.last_timestamp_ns update_field].
    change (AggregateValue.last_timestamp_ns (v <| AggregateValue.first_timestamp_ns := t |>))
      with (AggregateValue.last_timestamp_ns v).
    destruct (Z.ltb_spec (AggregateValue.last_timestamp_ns v) t); split_and!; try done; cbn; lia.
  - rewrite (Z.min_l _ t) by lia.
    destruct (Z.ltb_spec (AggregateValue.last_timestamp_ns v) t); split_and!; try done; cbn; lia.
Qed.

Lemma bucket_of_times cs :
  cs ≠ [] →
  let b := bucket_of cs in
  AggregateValue.has_timestamps b = true
  ∧ (∃ c, c ∈ cs ∧ AggregateValue.first_timestamp_ns b = ObservationContribution.timestamp_ns c)
  ∧ (∃ c, c ∈ cs ∧ AggregateValue.last_timestamp_ns b = ObservationContribution.timestamp_ns c)
  ∧ ∀ c, c ∈ cs → AggregateValue.first_timestamp_ns b ≤ ObservationContribution.timestamp_ns c
                  ≤ AggregateValue.last_timestamp_ns b.
Proof.
  cbn zeta. induction cs as [|c cs IH] using rev_ind; [done|]. intros _. rewrite bucket_of_snoc.
  destruct (contribute_times c (bucket_of cs)) as (-> & -> & ->). split; [done|].
  destruct cs as [|d cs]; [cbn [bucket_of foldl AggregateValue.empty AggregateValue.has_timestamps app];
    split_and!; [exists c; set_solver..|intros e ->%list_elem_of_singleton; lia]|].
  destruct IH as (-> & (f & Hf & Ef) & (l & Hl & El) & Hall); [done|]. set (cs' := d :: cs) in *.
  set (t := ObservationContribution.timestamp_ns c). split_and!.
  - destruct (Z.min_spec (AggregateValue.first_timestamp_ns (bucket_of cs')) t) as [[_ ->]|[_ ->]];
      [exists f; set_solver|exists c; set_solver].
  - destruct (Z.max_spec (AggregateValue.last_timestamp_ns (bucket_of cs')) t) as [[_ ->]|[_ ->]];
      [exists c; set_solver|exists l; set_solver].
  - intros e [He| ->%list_elem_of_singleton]%elem_of_app; [specialize (Hall e He); lia|].
    fold t. specialize (Hall f Hf). lia.
Qed.

(** How many of the contributions have value [i] of a classification. *)
Definition count_of (class : ObservationContribution.t → Z) (i : Z) (cs : list ObservationContribution.t) : Z :=
  zlen (List.filter (λ c, class c =? i) cs).

Lemma add_count_lookup (p : AggregateValue.t → list Z) `{!Update p} i acc j :
  (∀ g b, p (update_field (p:=p) g b) = g (p b)) → Forall (λ n, n ≤ u64_max) (p acc.1) →
  p (add_count p i acc).1 !! j = (λ n, if Z.of_nat j =? i then sat_add n 1 else n) <$> p acc.1 !! j.
Proof.
  intros Hp Hle. unfold add_count. destruct (Z.ltb_spec i 0) as [Hi|Hi].
  { rewrite (proj2 (Z.eqb_neq _ _)) by lia. by destruct (p acc.1 !! j). }
  destruct (p acc.1 !! Z.to_nat i) as [n|] eqn:E.
  - cbn [fst]. rewrite Hp. destruct (Z.eqb_spec (Z.of_nat j) i) as [<-|Hne].
    + rewrite Nat2Z.id in E |- *. rewrite E. cbn [fmap option_fmap option_map].
      rewrite list_lookup_insert_eq by by eapply lookup_lt_Some. by rewrite checked_add_value.
    + rewrite list_lookup_insert_ne by lia. by destruct (p acc.1 !! j).
  - destruct (Z.eqb_spec (Z.of_nat j) i) as [<-|Hne]; [rewrite Nat2Z.id in E; by rewrite E|by destruct (p acc.1 !! j)].
Qed.

Lemma contribute_counts c b j :
  Forall (λ n, n ≤ u64_max) (AggregateValue.precision_counts b) →
  Forall (λ n, n ≤ u64_max) (AggregateValue.provenance_counts b) →
  AggregateValue.precision_counts (contribute c b).1 !! j
    = (λ n, if Z.of_nat j =? precision_rank (ObservationContribution.precision c) then sat_add n 1 else n)
        <$> AggregateValue.precision_counts b !! j
  ∧ AggregateValue.provenance_counts (contribute c b).1 !! j
    = (λ n, if Z.of_nat j =? Provenance.code (ObservationContribution.provenance c) then sat_add n 1 else n)
        <$> AggregateValue.provenance_counts b !! j.
Proof.
  intros Hp Hv. rewrite !(contribute_proj _ c b) by reflexivity.
  edestruct (note_counts 0) as (-> & -> & _).
  destruct (add_counters_counts c (b, false)) as [Ep Ev].
  edestruct (note_counts (ObservationContribution.timestamp_ns c) Reality.Real Precision.Unknown
    (add_counters c (b, false)).1) as (_ & _ & Tp & Tv).
  split.
  - rewrite add_count_frame by reflexivity. rewrite add_count_lookup; cbn [fst]; by rewrite ?Tp, ?Ep.
  - rewrite add_count_lookup; [|reflexivity|];
      rewrite add_count_frame by reflexivity; cbn [fst]; by rewrite Tv, Ev.
Qed.

Lemma bucket_of_counts cs :
  (∀ j, (j < 7)%nat → AggregateValue.precision_counts (bucket_of cs) !! j
     = Some (Z.min u64_max (count_of (λ c, precision_rank (ObservationContribution.precision c)) (Z.of_nat j) cs)))
  ∧ (∀ j, (j < 10)%nat → AggregateValue.provenance_counts (bucket_of cs) !! j
     = Some (Z.min u64_max (count_of (λ c, Provenance.code (ObservationContribution.provenance c)) (Z.of_nat j) cs))).
Proof.
  induction cs as [|c cs [IHp IHv]] using rev_ind.
  { split; intros j Hj; (etransitivity; [by apply lookup_replicate_2|done]). }
  destruct (bucket_of_counts_le cs) as [Hp Hv]. pose proof (bucket_of_in_range cs Total.Observations) as Ho. cbn [total] in Ho.
  rewrite bucket_of_snoc.
  assert (∀ class i, count_of class i (cs ++ [c]) = count_of class i cs + (if i =? class c then 1 else 0)) as Hsnoc.
  { intros class i. unfold count_of. rewrite List.filter_app, zlen_app. cbn [List.filter]. rewrite (Z.eqb_sym i).
    by destruct (class c =? i). }
  assert (∀ class i, 0 ≤ count_of class i cs) as Hpos by (intros; apply zlen_nonneg).
  split; intros j Hj; destruct (contribute_counts c (bucket_of cs) j) as [Ep Ev];
    try (eapply Forall_impl; [exact Hp || exact Hv|]; intros n Hn; etransitivity; [exact Hn|exact Ho]).
  - rewrite Ep, IHp by done. cbn [fmap option_fmap option_map]. rewrite Hsnoc. specialize (Hpos (λ c, precision_rank (ObservationContribution.precision c)) (Z.of_nat j)).
    f_equal. cbv beta. destruct (Z.of_nat j =? _); unfold sat_add, u64_max in *; lia.
  - rewrite Ev, IHv by done. cbn [fmap option_fmap option_map]. rewrite Hsnoc. specialize (Hpos (λ c, Provenance.code (ObservationContribution.provenance c)) (Z.of_nat j)).
    f_equal. cbv beta. set (n := count_of _ _ _) in *. clearbody n. clear - Hpos.
    destruct (Z.of_nat j =? _); unfold sat_add, u64_max in *; lia.
Qed.

(** What a bucket says of the contributions [cs] to it. *)
Record reports (cs : list ObservationContribution.t) (b : AggregateValue.t) : Prop := {
  rp_totals f : total f b = Z.min u64_max (sum_of f cs);
  rp_saturated : AggregateValue.saturated b = true ↔ ∃ f, u64_max < sum_of f cs;
  rp_precision : AggregateValue.weakest_precision b ∈ map ObservationContribution.precision cs
    ∧ ∀ c, c ∈ cs → precision_rank (AggregateValue.weakest_precision b)
                    ≤ precision_rank (ObservationContribution.precision c);
  rp_reality r : r = Reality.Real ∨ r = Reality.Synthetic →
    (AggregateValue.reality b = r ↔
       ∀ c, c ∈ cs → reality_of (ObservationContribution.provenance c) = r);
  rp_first : ∃ c, c ∈ cs ∧ AggregateValue.first_timestamp_ns b = ObservationContribution.timestamp_ns c;
  rp_last : ∃ c, c ∈ cs ∧ AggregateValue.last_timestamp_ns b = ObservationContribution.timestamp_ns c;
  rp_span : AggregateValue.has_timestamps b = true
    ∧ ∀ c, c ∈ cs → AggregateValue.first_timestamp_ns b ≤ ObservationContribution.timestamp_ns c
                    ≤ AggregateValue.last_timestamp_ns b;
  rp_precisions j : (j < 7)%nat → AggregateValue.precision_counts b !! j
    = Some (Z.min u64_max (count_of (λ c, precision_rank (ObservationContribution.precision c)) (Z.of_nat j) cs));
  rp_provenances j : (j < 10)%nat → AggregateValue.provenance_counts b !! j
    = Some (Z.min u64_max (count_of (λ c, Provenance.code (ObservationContribution.provenance c)) (Z.of_nat j) cs));
}.

(** *** Totals across a dimension *)

Definition zsum (l : list Z) : Z := foldr Z.add 0 l.

Lemma zsum_app l k : zsum (l ++ k) = zsum l + zsum k.
Proof. induction l as [|x l IH]; simpl; [done|]. rewrite IH. lia. Qed.

Lemma zsum_nonneg l : Forall (λ x, 0 ≤ x) l → 0 ≤ zsum l.
Proof. induction 1; simpl; lia. Qed.

(** The loop of [observations_in] computes the capped sum over the buckets of
    the dimension, early exit included. *)
Lemma sum_dimension_spec d field l : ∀ n,
  0 ≤ n ≤ u64_max → Forall (λ e, 0 ≤ field e.2) l →
  AggregateStore.sum_dimension d field l n =
  Z.min u64_max (n + zsum (map (λ e, if decide (AggregateKey.dimension e.1 = d) then field e.2 else 0) l)).
Proof.
  induction l as [|[key v] l IH]; intros n Hn Hl; [cbn; lia|].
  apply Forall_cons in Hl as [Hv Hl]. cbn [fst snd] in Hv.
  cbn [AggregateStore.sum_dimension map zsum foldr fst snd].
  fold (zsum (map (λ e, if decide (AggregateKey.dimension e.1 = d) then field e.2 else 0) l)).
  assert (Hpos : 0 ≤ zsum (map (λ e, if decide (AggregateKey.dimension e.1 = d) then field e.2 else 0) l)).
  { apply zsum_nonneg, Forall_map. eapply Forall_impl; [exact Hl|]. intros e He. unfold compose. by case_decide. }
  case_decide; [|rewrite IH by done; f_equal; lia].
  rewrite checked_add_overflowed, checked_add_value. unfold sat_add.
  destruct (Z.ltb_spec u64_max (n + field v)); [lia|]. rewrite IH by (done || lia). lia.
Qed.

(** Capping each summand first does not change a capped sum. *)
Lemma zsum_capped {A} (f g : A → Z) l :
  Forall (λ x, 0 ≤ g x ∧ f x = Z.min u64_max (g x)) l →
  Z.min u64_max (zsum (map f l)) = Z.min u64_max (zsum (map g l)).
Proof.
  intros H. assert (0 ≤ zsum (map g l) ∧ 0 ≤ zsum (map f l)).
  { split; apply zsum_nonneg, Forall_map; (eapply Forall_impl; [exact H|]); intros y [? Hy]; unfold compose, u64_max in *; lia. }
  induction H as [|x l Hx Hl IH]; simpl in *; [done|].
  assert (0 ≤ zsum (map g l) ∧ 0 ≤ zsum (map f l)).
  { split; apply zsum_nonneg, Forall_map; (eapply Forall_impl; [exact Hl|]); intros y [? Hy]; unfold compose, u64_max in *; lia. }
  unfold u64_max in *. lia.
Qed.

(** Summing over the keys of a map what the log holds under each key sums the
    log. *)
Lemma zsum_partition (f : ObservationContribution.t → Z) (P : AggregateKey.t → bool)
    (ks : list AggregateKey.t) (l : log) :
  NoDup ks → (∀ e, e ∈ l → e.1 ∈ ks) →
  zsum (map (λ k, if P k then zsum (map f (contributions_to k l)) else 0) ks)
  = zsum (map (λ e, if P e.1 then f e.2 else 0) l).
Proof.
  intros Hnd. induction l as [|[k c] l IH] using rev_ind; intros Hin.
  - simpl. clear. induction ks as [|k ks IH]; simpl; [done|]. rewrite IH. by destruct (P k).
  - rewrite map_app, zsum_app, <-IH by (intros e He; apply Hin; set_solver). simpl.
    assert (Hk : k ∈ ks) by (apply (Hin (k, c)); set_solver). clear Hin IH.
    induction Hnd as [|k' ks Hk' Hnd IH]; [by apply elem_of_nil in Hk|]. simpl.
    rewrite contributions_to_snoc, map_app, zsum_app.
    apply elem_of_cons in Hk as [->|Hk].
    + assert (Hrest : map (λ k, if P k then zsum (map f (contributions_to k (l ++ [(k', c)]))) else 0) ks
        = map (λ k, if P k then zsum (map f (contributions_to k l)) else 0) ks).
      { apply list_fmap_ext. intros i x Hx. rewrite contributions_to_snoc, decide_False, app_nil_r; [done|].
        intros ->. apply Hk'. by eapply list_elem_of_lookup_2. }
      rewrite Hrest, decide_True by done. simpl. destruct (P k'); lia.
    + rewrite (IH Hk), decide_False by (intros ->; done). simpl. destruct (P k'); lia.
Qed.

Definition log_total (f : Total.t) (d : AggregateDimension.t) (l : log) : Z :=
  zsum (map (λ e, if bool_decide (AggregateKey.dimension e.1 = d) then amount f e.2 else 0) l).

Lemma sum_of_zsum f cs : sum_of f cs = zsum (map (amount f) cs).
Proof. induction cs as [|c cs IH]; simpl; [done|]. by rewrite IH. Qed.

Lemma contributions_to_ok k l :
  Forall (λ e, contribution_ok e.2) l → Forall contribution_ok (contributions_to k l).
Proof.
  intros H. unfold contributions_to. rewrite Forall_fmap. rewrite Forall_forall in H |- *.
  intros e He. apply H. by apply list_elem_of_filter in He as [_ He].
Qed.

Lemma represents_entry s l k b :
  represents s l → (k, b) ∈ entries (AggregateStore.buckets s) → b = bucket_of (contributions_to k l).
Proof.
  intros Hr Hin. apply elem_of_entries in Hin. specialize (Hr k). unfold AggregateStore.find in Hr.
  rewrite Hin in Hr. destruct (contributions_to k l); [done|]. by injection Hr.
Qed.

Lemma represents_keys s l e :
  represents s l → e ∈ l → e.1 ∈ (entries (AggregateStore.buckets s)).*1.
Proof.
  intros Hr He. specialize (Hr e.1). unfold AggregateStore.find in Hr.
  destruct (contributions_to e.1 l) as [|c cs] eqn:E.
  - assert (Hin : e.2 ∈ contributions_to e.1 l); [|rewrite E in Hin; by apply elem_of_nil in Hin].
    apply list_elem_of_fmap. exists e. split; [done|]. by apply list_elem_of_filter.
  - apply elem_of_entries in Hr. apply list_elem_of_fmap. by exists (e.1, bucket_of (c :: cs)).
Qed.

Lemma map_fmap {A B C} (f : B → C) (g : A → B) l : map f (g <$> l) = map (λ x, f (g x)) l.
Proof. induction l as [|x l IH]; [done|]. simpl. f_equal. exact IH. Qed.

Lemma dimension_total f d s l :
  represents s l → Forall (λ e, contribution_ok e.2) l →
  AggregateStore.sum_dimension d (total f) (entries (AggregateStore.buckets s)) 0
  = Z.min u64_max (log_total f d l).
Proof.
  intros Hr Hok.
  assert (Hfield : ∀ e, e ∈ entries (AggregateStore.buckets s) →
    0 ≤ zsum (map (amount f) (contributions_to e.1 l))
    ∧ total f e.2 = Z.min u64_max (zsum (map (amount f) (contributions_to e.1 l)))).
  { intros [k b] He. rewrite (represents_entry s l k b Hr He), <-sum_of_zsum.
    split; [by apply sum_of_nonneg, contributions_to_ok|]. by apply bucket_of_total, contributions_to_ok. }
  rewrite sum_dimension_spec; [|done|].
  2: { apply Forall_forall. intros e He. destruct (Hfield e He) as [? ->]. unfold u64_max. lia. }
  rewrite Z.add_0_l. unfold log_total.
  pose proof (zsum_partition (amount f) (λ k, bool_decide (AggregateKey.dimension k = d))
    (entries (AggregateStore.buckets s)).*1 l (NoDup_entries _)
    (λ e He, represents_keys s l e Hr He)) as Hpart.
  cbv beta in Hpart. rewrite <-Hpart. clear Hpart.
  rewrite map_fmap. apply zsum_capped, Forall_forall. intros e He.
  destruct (Hfield e He) as [? E]. cbv beta. rewrite E.
  case_decide; [rewrite bool_decide_true by done|rewrite bool_decide_false by done]; by split.
Qed.

Lemma log_total_filter f d l :
  log_total f d l = zsum (map (λ e, amount f e.2) (filter (λ e, AggregateKey.dimension e.1 = d) l)).
Proof.
  induction l as [|e l IH]; [done|]. rewrite filter_cons.
  transitivity ((if bool_decide (AggregateKey.dimension e.1 = d) then amount f e.2 else 0)
    + log_total f d l); [done|]. rewrite IH.
  case_decide; [rewrite bool_decide_true by done|rewrite bool_decide_false by done]; done.
Qed.

Lemma zsum_ones {A} (l : list A) : zsum (map (λ _, 1) l) = zlen l.
Proof. induction l as [|x l IH]; [done|]. rewrite zlen_cons, <-IH. done. Qed.

(** Dimension totals are conserved: the observation count (or byte
    count) that [observations_in] (or [bytes_in]) reports for a dimension is the
    number of accepted updates (or the sum of their bytes) in that dimension, however
    they were spread over its buckets, capped at the 64-bit maximum even when
    single buckets saturated. *)
Theorem dimension_totals_conserved (d : AggregateDimension.t) (s : AggregateStore.t) (l : log) :
  represents s l → Forall (λ e, contribution_ok e.2) l →
  AggregateStore.observations_in d s
    = Z.min u64_max (zlen (filter (λ e, AggregateKey.dimension e.1 = d) l))
  ∧ AggregateStore.bytes_in d s
    = Z.min u64_max (zsum (map (λ e, ObservationContribution.bytes e.2)
                             (filter (λ e, AggregateKey.dimension e.1 = d) l))).
Proof.
  intros Hr Hok.
  pose proof (dimension_total Total.Observations d s l Hr Hok) as H1.
  pose proof (dimension_total Total.Bytes d s l Hr Hok) as H2.
  rewrite log_total_filter in H1, H2. split; [|exact H2].
  etransitivity; [exact H1|]. f_equal. apply zsum_ones.
Qed.

Lemma dimension_totals_conserved_witness :
  let key v := AggregateKey.mk AggregateDimension.Region v in
  let us := [(key "a", sample_contribution 10 Provenance.OsTelemetry);
             (key "b", sample_contribution 20 Provenance.OsTelemetry);
             (key "a", sample_contribution 30 Provenance.OsTelemetry)]%string in
  AggregateStore.bytes_in AggregateDimension.Region (accumulate_all us AggregateStore.empty []).1
  = 60.
Proof.
  cbn zeta. set (us := [_; _; _]).
  destruct (dimension_totals_conserved AggregateDimension.Region
    (accumulate_all us AggregateStore.empty []).1 us) as [_ H].
  - assert (E : (accumulate_all us AggregateStore.empty []).2 = us) by (vm_compute; reflexivity).
    pose proof (store_run_represents us) as Hr. rewrite E in Hr. exact Hr.
  - repeat constructor; by intros [].
  - etransitivity; [exact H|]. by vm_compute.
Defined.

(** ** Claims *)

(** Claim C33. The aggregate store refines its update log.  Starting from an empty store,
    after any sequence of updates with unsigned amounts: an update is refused exactly when
    its key has no bucket and the store holds as many as it may, and the refused ones are
    counted (modulo the 64-bit counter); there is a bucket for exactly the keys with an
    accepted update; and each bucket reports its accepted updates - every one of its
    fourteen totals is their sum capped at the 64-bit maximum, it is marked saturated
    exactly when a sum exceeds that, and it gives the weakest of their precisions, their
    common reality or Mixed, the first and the last of their timestamps, and how many have
    each precision and provenance. *)
Theorem store_refines_log (us : log) :
  Forall (λ e, contribution_ok e.2) us →
  let '(s, accepted) := accumulate_all us AggregateStore.empty [] in
  accepted = admitted us ∅
  ∧ AggregateStore.refused_updates s = wrap64 (zlen us - zlen accepted)
  ∧ (∀ key, is_Some (AggregateStore.find key s) ↔ key ∈ accepted.*1)
  ∧ ∀ key b, AggregateStore.find key s = Some b → reports (contributions_to key accepted) b.
Proof.
  intros Hok. pose proof (accumulate_all_spec us AggregateStore.empty []) as H.
  pose proof (accumulate_all_admitted us AggregateStore.empty []) as Hadm.
  destruct (accumulate_all us _ _) as [s l]. cbn [snd] in Hadm. destruct H as (Hr & _ & kept & -> & Hk & Hn).
  { by intros key. } { by vm_compute. } { by vm_compute. }
  rewrite app_nil_l in *. split; [|split; [by rewrite Hn|split]].
  - rewrite Hadm. by f_equal.
  - intros key. rewrite (Hr key). split.
    + destruct (contributions_to key kept) as [|c cs] eqn:E; [by intros []|]. intros _.
      assert (c ∈ contributions_to key kept) as Hc by (rewrite E; set_solver).
      apply list_elem_of_fmap in Hc as (e & _ & [<- He]%list_elem_of_filter). by apply list_elem_of_fmap_2.
    + intros ((k & c) & -> & He)%list_elem_of_fmap. assert (c ∈ contributions_to k kept) as Hc.
      { apply list_elem_of_fmap. exists (k, c). split; [done|]. by apply list_elem_of_filter. }
      cbn [fst]. destruct (contributions_to k kept); [by apply elem_of_nil in Hc|by eexists].
  - intros key b Hb. rewrite (Hr key) in Hb.
    assert (Forall contribution_ok (contributions_to key kept)) as Hcs.
    { apply contributions_to_ok, Forall_forall. intros e He. rewrite Forall_forall in Hok. apply Hok. by eapply elem_of_sublist. }
    destruct (contributions_to key kept) as [|c cs] eqn:E; [done|]. rewrite <- E in *. injection Hb as <-.
    assert (contributions_to key kept ≠ []) as Hne by (by rewrite E).
    destruct (bucket_sums _ Hcs) as [Ht Hs]. destruct (bucket_honest _ Hne Hcs) as (Hw & Hw' & Hre & _).
    destruct (bucket_of_times _ Hne) as (Hh & Hf & Hl & Hspan). destruct (bucket_of_counts (contributions_to key kept)).
    by constructor.
Qed.

Lemma store_refines_log_witness :
  let key v := AggregateKey.mk AggregateDimension.Region v in
  let us := [(key "a", sample_contribution u64_max Provenance.OsTelemetry);
             (key "a", sample_contribution 5 Provenance.SyntheticBackend)]%string in
  ∃ b, AggregateStore.find (key "a"%string) (accumulate_all us AggregateStore.empty []).1 = Some b
    ∧ total Total.Bytes b = u64_max ∧ total Total.Observations b = 2.
Proof.
  cbn zeta. set (us := [_; _]).
  assert (Forall (λ e, contribution_ok e.2) us) as Hok by (repeat constructor; by intros []).
  pose proof (store_refines_log us Hok) as H.
  assert ((accumulate_all us AggregateStore.empty []).2 = us) as E by (vm_compute; reflexivity).
  destruct (accumulate_all us AggregateStore.empty []) as [s accepted]. cbn [fst snd] in *.
  destruct H as (_ & _ & Hd & Hb). subst accepted.
  destruct (proj2 (Hd (AggregateKey.mk AggregateDimension.Region "a"))) as [b Eb]; [vm_compute; left|].
  exists b. split; [exact Eb|]. destruct (Hb _ _ Eb) as [Ht _ _ _ _ _ _ _ _]. rewrite !Ht. by vm_compute.
Defined.
