(* ===== verification/Sequence.v ===== *)
(** * Publisher sequences

    The replay protection of [src/observatory.cpp] ([account_sequence],
    [commit_sequence], [commit_event_id]) over the [PublisherState] of
    [src/detail/state.hpp]: sequence watermark, retention window and recent
    event identities of one publisher boot. *)

From S2P Require Import Prelude Errors TextUtil Taxonomy Records.

Module IngestionDisposition.
Inductive t := Accepted | AcceptedLate | Duplicate | Rejected.
#[global] Instance t_eq_dec : EqDecision t.
Proof. solve_decision. Defined.
Definition to_string (d : t) : string :=
  match d with
  | Accepted => "ACCEPTED"
  | AcceptedLate => "ACCEPTED_LATE"
  | Duplicate => "DUPLICATE"
  | Rejected => "REJECTED"
  end.
End IngestionDisposition.

(** ** Bounded memories

    A [std::map] from a key to its content hash beside the [std::deque] of its
    keys in insertion order. *)

Module Memory.
Record t := mk { table : gmap Z Z; order : list Z }.
Definition empty : t := mk ∅ [].

(** [while (order.size() > cap) { erase(order.front()); order.pop_front(); }] *)
Fixpoint trim (cap : Z) (order : list Z) (table : gmap Z Z) : t :=
  match order with
  | victim :: rest =>
      if cap <? zlen order then trim cap rest (delete victim table) else mk table order
  | [] => mk table []
  end.

(** Insert when absent, then evict the oldest keys beyond the capacity. *)
Definition remember (cap key hash : Z) (m : t) : t :=
  let m := match table m !! key with
           | None => mk (<[key := hash]> (table m)) (order m ++ [key])
           | Some _ => m
           end in
  trim cap (order m) (table m).
End Memory.

Module PublisherState.
Record t := mk {
  view : PublisherView.t;
  has_watermark : bool; high_watermark : Z; durable_watermark : bool;
  (** [window] with [window_order], [recent_event_ids] with
      [recent_event_order]. *)
  window : Memory.t; recent_events : Memory.t;
  boot_incarnations : Z;
}.
#[global] Instance eta : Eta t := fun p =>
  mk (view p) (has_watermark p) (high_watermark p) (durable_watermark p) (window p)
    (recent_events p) (boot_incarnations p).
(** [PublisherState{}]. *)
Definition empty : t := mk PublisherView.empty false 0 false Memory.empty Memory.empty 1.
End PublisherState.

(** ** Accounting *)

Module SequenceDecision.
Record t := mk {
  disposition : IngestionDisposition.t; code : ErrorCode.t; detail : string;
  missing : Z; mutate : bool;
}.
End SequenceDecision.

Definition refuse (d : IngestionDisposition.t) (c : ErrorCode.t) (detail : string)
    : SequenceDecision.t := SequenceDecision.mk d c detail 0 false.

Definition account_sequence (p : PublisherState.t) (sequence content_hash : Z)
    : SequenceDecision.t :=
  let window := Limits.kMaxSequenceWindow in
  let high := PublisherState.high_watermark p in
  if negb (PublisherState.has_watermark p) then
    SequenceDecision.mk IngestionDisposition.Accepted ErrorCode.Ok "" 0 true
  else if PublisherState.durable_watermark p && (sequence <=? high) then
    refuse IngestionDisposition.Rejected ErrorCode.StaleSequence
      "sequence at or below the durable replay watermark"
  else if high <? sequence then
    let missing := sequence - high - 1 in
    SequenceDecision.mk IngestionDisposition.Accepted ErrorCode.Ok
      (if missing =? 0 then "" else "sequence gap of " +:+ format_u64 missing) missing true
  else
    match Memory.table (PublisherState.window p) !! sequence with
    | Some seen =>
        if seen =? content_hash then
          refuse IngestionDisposition.Duplicate ErrorCode.Duplicate "duplicate observation"
        else
          refuse IngestionDisposition.Rejected ErrorCode.Conflict
            "conflicting duplicate: same sequence, different content"
    | None =>
        if (window <=? high) && (sequence <=? high - window) then
          refuse IngestionDisposition.Rejected ErrorCode.StaleSequence
            "sequence below the retention window"
        else SequenceDecision.mk IngestionDisposition.AcceptedLate ErrorCode.Ok "" 0 true
    end.

Definition commit_sequence (sequence content_hash : Z) (p : PublisherState.t)
    : PublisherState.t :=
  let p := if negb (PublisherState.has_watermark p) || (PublisherState.high_watermark p <? sequence)
           then p <| PublisherState.high_watermark := sequence |>
                  <| PublisherState.has_watermark := true |>
           else p in
  p <| PublisherState.window ::= Memory.remember Limits.kMaxSequenceWindow sequence content_hash |>.

Definition commit_event_id (event_id content_hash : Z) (p : PublisherState.t)
    : PublisherState.t :=
  p <| PublisherState.recent_events ::=
         Memory.remember Limits.kMaxRecentEventIds event_id content_hash |>.

(** ** Memories *)

Module MemoryFacts.
Import Memory.

(** The queue lists the keys of the table once each, within the capacity. *)
Definition inv (cap : Z) (m : t) : Prop :=
  NoDup (order m) ∧ (∀ k, k ∈ order m ↔ is_Some (table m !! k)) ∧ zlen (order m) ≤ cap.

Lemma trim_spec cap l : ∀ tb,
  0 ≤ cap → NoDup l → (∀ k, k ∈ l ↔ is_Some (tb !! k)) →
  let m := trim cap l tb in
  inv cap m ∧ (∃ evicted, l = evicted ++ order m ∧ zlen evicted = Z.max 0 (zlen l - cap))
  ∧ (∀ k, k ∈ order m → table m !! k = tb !! k).
Proof.
  induction l as [|x l IH]; intros tb Hcap Hnd Hdom; cbn zeta.
  - simpl. split_and!; [split_and!; [constructor|done|done]|exists []; split; [done|]; rewrite zlen_nil; lia|done].
  - cbn [trim]. destruct (Z.ltb_spec cap (zlen (x :: l))) as [Hlt|Hge].
    + apply NoDup_cons in Hnd as [Hx Hnd]. destruct (IH (delete x tb) Hcap Hnd) as (Hi & (ev & El & En) & Ht).
      { intros k. destruct (decide (k = x)) as [->|Hne].
        - rewrite lookup_delete_eq. split; [done|]. by intros [? ?].
        - rewrite lookup_delete_ne by done. rewrite <-Hdom, elem_of_cons. naive_solver. }
      split_and!; [exact Hi| |].
      * exists (x :: ev). rewrite zlen_cons, En, zlen_cons. rewrite zlen_cons in Hlt.
        split; [simpl; congruence|]. lia.
      * intros k Hk. rewrite (Ht k Hk). apply lookup_delete_ne. intros ->. apply Hx.
        rewrite El. apply elem_of_app. by right.
    + split_and!; [split_and!; [exact Hnd|done|done]| |done].
      exists []. split; [done|]. rewrite zlen_nil. lia.
Qed.

Lemma remember_spec cap key hash m :
  0 < cap → inv cap m →
  let m' := remember cap key hash m in
  inv cap m' ∧
  match table m !! key with
  | Some _ => m' = m
  | None =>
      table m' !! key = Some hash
      ∧ (∃ evicted, order m ++ [key] = evicted ++ order m'
                    ∧ zlen evicted = Z.max 0 (1 + zlen (order m) - cap))
      ∧ (∀ k, k ∈ order m' → k ≠ key → table m' !! k = table m !! k)
  end.
Proof.
  intros Hcap (Hnd & Hdom & Hlen). cbn zeta. unfold remember.
  destruct (table m !! key) as [h|] eqn:E.
  - assert (Hfix : trim cap (order m) (table m) = m).
    { destruct m as [tb [|x l]]; [done|]. cbn [order table trim] in *.
      destruct (Z.ltb_spec cap (zlen (x :: l))); [lia|done]. }
    rewrite Hfix. by split_and!.
  - cbn [order table]. destruct (trim_spec cap (order m ++ [key]) (<[key:=hash]> (table m)))
      as (Hi & (ev & El & En) & Ht); [lia| | |].
    + apply NoDup_app. split_and!; [done| |apply NoDup_singleton].
      intros k Hk. rewrite list_elem_of_singleton. intros ->. apply Hdom in Hk as [? ?]. congruence.
    + intros k. rewrite elem_of_app, list_elem_of_singleton, Hdom.
      destruct (decide (k = key)) as [->|Hne].
      * rewrite lookup_insert_eq. split; [eauto|]. by right.
      * rewrite lookup_insert_ne by done. tauto.
    + assert (Hz : zlen (order m ++ [key]) = 1 + zlen (order m)).
      { rewrite zlen_app, zlen_cons, zlen_nil. lia. }
      rewrite Hz in En. split; [exact Hi|]. split_and!.
      * rewrite Ht; [by rewrite lookup_insert_eq|].
        assert (Hlast : last (order m ++ [key]) = Some key) by apply last_snoc.
        rewrite El in Hlast. destruct (order (trim cap (order m ++ [key]) (<[key:=hash]> (table m)))) as [|y l] eqn:Eo.
        { exfalso. rewrite app_nil_r in El. apply (f_equal zlen) in El.
          pose proof (zlen_nonneg (order m)). lia. }
        rewrite last_app_cons in Hlast. by apply last_Some_elem_of in Hlast.
      * exists ev. split; [done|]. lia.
      * intros k Hk Hne. rewrite Ht by done. by apply lookup_insert_ne.
Qed.

Lemma inv_empty cap : 0 ≤ cap → inv cap empty.
Proof. intros H. split_and!; [constructor| |done]. intros k. split; [set_solver|]. by intros [? ?]. Qed.
End MemoryFacts.

(** ** The publisher's sequence state *)

Definition sequence_inv (p : PublisherState.t) : Prop :=
  MemoryFacts.inv Limits.kMaxSequenceWindow (PublisherState.window p)
  ∧ MemoryFacts.inv Limits.kMaxRecentEventIds (PublisherState.recent_events p)
  ∧ (∀ k, k ∈ Memory.order (PublisherState.window p) →
       PublisherState.has_watermark p = true ∧ k ≤ PublisherState.high_watermark p).

(** Offering a sequence: account for it, commit it when accepted. *)
Definition offer (x : Z * Z) (p : PublisherState.t) : PublisherState.t * SequenceDecision.t :=
  let d := account_sequence p x.1 x.2 in
  (if SequenceDecision.mutate d then commit_sequence x.1 x.2 p else p, d).

Fixpoint offer_all (l : list (Z * Z)) (p : PublisherState.t)
    : PublisherState.t * list SequenceDecision.t :=
  match l with
  | [] => (p, [])
  | x :: rest =>
      let '(p, d) := offer x p in
      let '(p, ds) := offer_all rest p in (p, d :: ds)
  end.

Lemma sequence_inv_empty : sequence_inv PublisherState.empty.
Proof.
  split_and!; [by apply MemoryFacts.inv_empty..|]. intros k Hk. by apply elem_of_nil in Hk.
Qed.

Lemma commit_sequence_fields s h p :
  PublisherState.has_watermark (commit_sequence s h p) = true
  ∧ PublisherState.high_watermark (commit_sequence s h p)
    = (if PublisherState.has_watermark p then Z.max (PublisherState.high_watermark p) s else s)
  ∧ PublisherState.durable_watermark (commit_sequence s h p) = PublisherState.durable_watermark p
  ∧ PublisherState.recent_events (commit_sequence s h p) = PublisherState.recent_events p
  ∧ PublisherState.window (commit_sequence s h p)
    = Memory.remember Limits.kMaxSequenceWindow s h (PublisherState.window p).
Proof.
  unfold commit_sequence. destruct p as [v [] high dw w r b]; cbn -[Memory.remember];
    [|split_and!; reflexivity].
  destruct (Z.ltb_spec high s); cbn -[Memory.remember]; split_and!; try reflexivity; lia.
Qed.

Lemma commit_sequence_inv s h p : sequence_inv p → sequence_inv (commit_sequence s h p).
Proof.
  intros (Hw & Hr & Hle).
  destruct (commit_sequence_fields s h p) as (Eh & Ehigh & _ & Er & Ew).
  unfold sequence_inv. rewrite Eh, Ehigh, Er, Ew.
  destruct (MemoryFacts.remember_spec Limits.kMaxSequenceWindow s h (PublisherState.window p))
    as [Hi Hcase]; [done..|].
  split_and!; [done..|]. intros k Hk. split; [done|].
  assert (Hold : k ∈ Memory.order (PublisherState.window p) ∨ k = s).
  { destruct (Memory.table (PublisherState.window p) !! s).
    - rewrite Hcase in Hk. by left.
    - destruct Hcase as (_ & (ev & E & _) & _).
      assert (Hin : k ∈ Memory.order (PublisherState.window p) ++ [s]).
      { rewrite E. apply elem_of_app. by right. }
      apply elem_of_app in Hin as [?|Hin]; [by left|]. right. by apply list_elem_of_singleton in Hin. }
  destruct Hold as [Hold| ->].
  - destruct (Hle k Hold) as [-> ?]. lia.
  - destruct (PublisherState.has_watermark p); lia.
Qed.

Lemma commit_event_id_inv e h p : sequence_inv p → sequence_inv (commit_event_id e h p).
Proof.
  intros (Hw & Hr & Hle). split_and!; [exact Hw| |exact Hle].
  by apply (MemoryFacts.remember_spec Limits.kMaxRecentEventIds).
Qed.

Lemma offer_inv x p : sequence_inv p → sequence_inv (offer x p).1.
Proof.
  intros H. unfold offer. simpl. destruct (SequenceDecision.mutate _); [|done].
  by apply commit_sequence_inv.
Qed.

#[export] Hint Resolve sequence_inv_empty commit_sequence_inv commit_event_id_inv offer_inv : obs.

(** The four ways a sequence is accounted for. *)
Lemma account_cases p s h :
  let d := account_sequence p s h in
  (PublisherState.has_watermark p = false ∧ SequenceDecision.mutate d = true
   ∧ SequenceDecision.disposition d = IngestionDisposition.Accepted)
  ∨ (PublisherState.has_watermark p = true ∧ PublisherState.high_watermark p < s
     ∧ SequenceDecision.mutate d = true
     ∧ SequenceDecision.disposition d = IngestionDisposition.Accepted
     ∧ SequenceDecision.missing d = s - PublisherState.high_watermark p - 1)
  ∨ (PublisherState.has_watermark p = true ∧ s ≤ PublisherState.high_watermark p
     ∧ PublisherState.durable_watermark p = false
     ∧ Memory.table (PublisherState.window p) !! s = None
     ∧ ~ (Limits.kMaxSequenceWindow ≤ PublisherState.high_watermark p
          ∧ s ≤ PublisherState.high_watermark p - Limits.kMaxSequenceWindow)
     ∧ SequenceDecision.mutate d = true
     ∧ SequenceDecision.disposition d = IngestionDisposition.AcceptedLate)
  ∨ (PublisherState.has_watermark p = true ∧ s ≤ PublisherState.high_watermark p
     ∧ SequenceDecision.mutate d = false).
Proof.
  cbn zeta. unfold account_sequence.
  destruct (PublisherState.has_watermark p); simpl; [|by auto].
  destruct (PublisherState.durable_watermark p), (Z.leb_spec s (PublisherState.high_watermark p)),
    (Z.ltb_spec (PublisherState.high_watermark p) s); simpl; try lia; try (right; left; by split_and!);
    try (right; right; right; by split_and!).
  destruct (_ !! s) as [seen|] eqn:E; [destruct (seen =? h); right; right; right; by split_and!|].
  destruct (Z.leb_spec Limits.kMaxSequenceWindow (PublisherState.high_watermark p)),
    (Z.leb_spec s (PublisherState.high_watermark p - Limits.kMaxSequenceWindow)); simpl;
    first [right; right; right; by split_and! | right; right; left; split_and!; done || lia].
Qed.

(** *** Replay protection

    [held s h n p]: the window still holds sequence [s] with content [h], with
    [n] younger entries behind it. *)

Definition held (s h n : Z) (p : PublisherState.t) : Prop :=
  Memory.table (PublisherState.window p) !! s = Some h
  ∧ ∃ pre post, Memory.order (PublisherState.window p) = pre ++ s :: post ∧ zlen post = n.

Lemma commit_new_held s h p :
  sequence_inv p → Memory.table (PublisherState.window p) !! s = None →
  held s h 0 (commit_sequence s h p).
Proof.
  intros (Hw & _) Hnew. destruct (commit_sequence_fields s h p) as (_ & _ & _ & _ & Ew).
  destruct (MemoryFacts.remember_spec Limits.kMaxSequenceWindow s h (PublisherState.window p))
    as [Hi Hcase]; [done..|]. rewrite Hnew in Hcase. destruct Hcase as (Hs & (ev & E & _) & _).
  unfold held. rewrite Ew. split; [done|].
  destruct (Memory.order (Memory.remember _ _ _ _)) as [|x l] eqn:Eo using rev_ind.
  - destruct Hi as (_ & Hdom & _). rewrite Eo in Hdom.
    assert (Hin : s ∈ []) by (apply Hdom; eauto). by apply elem_of_nil in Hin.
  - rewrite app_assoc in E. apply app_inj_2 in E as [_ E]; [|done].
    injection E as <-. exists l, []. by split.
Qed.

(** Committing another sequence pushes [s] one place down the window, or out of
    it when it was the oldest entry of a full window. *)
Lemma commit_held s h n s' h' p :
  sequence_inv p → held s h n p →
  Memory.table (PublisherState.window p) !! s' = None →
  held s h (n + 1) (commit_sequence s' h' p) ∨ n + 1 = Limits.kMaxSequenceWindow.
Proof.
  intros (Hw & _) (Hs & pre & post & Eo & En) Hnew.
  destruct (commit_sequence_fields s' h' p) as (_ & _ & _ & _ & Ew).
  destruct (MemoryFacts.remember_spec Limits.kMaxSequenceWindow s' h' (PublisherState.window p))
    as [Hi Hcase]; [done..|]. rewrite Hnew in Hcase. destruct Hcase as (_ & (ev & E & Hev) & Ht).
  destruct Hw as (Hnd & _ & Hlen). rewrite Eo in E, Hev, Hlen, Hnd.
  rewrite zlen_app, zlen_cons, En in Hev, Hlen.
  assert (Hpos : 0 ≤ n) by (rewrite <-En; apply zlen_nonneg).
  pose proof (zlen_nonneg pre). destruct pre as [|y pre].
  - pose proof (@zlen_nil Z). destruct (decide (n + 1 = Limits.kMaxSequenceWindow)); [by right|left].
    assert (zlen ev = 0) as Hev0 by (unfold Limits.kMaxSequenceWindow in *; lia).
    destruct ev; [|rewrite zlen_cons in Hev0; pose proof (zlen_nonneg ev); lia]. simpl in E.
    unfold held. rewrite Ew, <-E. split.
    + rewrite Ht; [done|rewrite <-E; left|congruence].
    + exists [], (post ++ [s']). split; [done|]. rewrite zlen_app, En. done.
  - left. rewrite zlen_cons in Hev, Hlen. pose proof (zlen_nonneg pre).
    assert (∃ pre', Memory.order (Memory.remember Limits.kMaxSequenceWindow s' h' (PublisherState.window p))
      = pre' ++ s :: post ++ [s']) as [pre' Eo'].
    { destruct ev as [|z ev]; [exists (y :: pre); simpl in *; by rewrite <-E, <-app_assoc|].
      destruct ev as [|z' ev]; [|rewrite !zlen_cons in Hev; pose proof (zlen_nonneg ev);
        unfold Limits.kMaxSequenceWindow in *; lia].
      exists pre. simpl in E. injection E as _ E. by rewrite <-E, <-app_assoc. }
    unfold held. rewrite Ew. split.
    + rewrite Ht; [done|rewrite Eo'; apply elem_of_app; right; left|congruence].
    + exists pre', (post ++ [s']). split; [done|]. rewrite zlen_app, En. done.
Qed.

Lemma accepted_fresh p s h :
  sequence_inv p → SequenceDecision.mutate (account_sequence p s h) = true →
  Memory.table (PublisherState.window p) !! s = None.
Proof.
  intros ((_ & Hdom & _) & _ & Hle) Hm. destruct (_ !! s) eqn:E; [|done]. exfalso.
  destruct (Hle s) as [Hw Hs]; [apply Hdom; eauto|].
  destruct (account_cases p s h) as [(? & _)|[(? & ? & _)|[(_ & _ & _ & Hn & _)|(_ & _ & ?)]]];
    [congruence|lia|congruence..].
Qed.

(** A watermark once set stays, never moves down, and stays as durable as it
    was. *)
Lemma offer_watermark x p :
  PublisherState.has_watermark p = true →
  PublisherState.has_watermark (offer x p).1 = true
  ∧ PublisherState.high_watermark p ≤ PublisherState.high_watermark (offer x p).1
  ∧ PublisherState.durable_watermark (offer x p).1 = PublisherState.durable_watermark p.
Proof.
  intros Hw. unfold offer. simpl. destruct (SequenceDecision.mutate _); [|done].
  destruct (commit_sequence_fields x.1 x.2 p) as (? & Eh & ? & _). rewrite Eh, Hw. split_and!; [done|lia|done].
Qed.

Lemma offer_held s h n x p :
  sequence_inv p → held s h n p → n + 1 < Limits.kMaxSequenceWindow →
  ∃ n', held s h n' (offer x p).1 ∧ n ≤ n' ≤ n + 1.
Proof.
  intros Hi Hh Hn. unfold offer. simpl. destruct (SequenceDecision.mutate _) eqn:E.
  - destruct (commit_held s h n x.1 x.2 p Hi Hh); [by eapply accepted_fresh|eauto with lia|lia].
  - exists n. split; [done|lia].
Qed.

Lemma offer_all_held l : ∀ s h n p,
  sequence_inv p → held s h n p → PublisherState.has_watermark p = true →
  s ≤ PublisherState.high_watermark p →
  n + zlen l < Limits.kMaxSequenceWindow →
  let p' := (offer_all l p).1 in
  (∃ n', held s h n' p') ∧ PublisherState.has_watermark p' = true
  ∧ s ≤ PublisherState.high_watermark p'
  ∧ PublisherState.durable_watermark p' = PublisherState.durable_watermark p.
Proof.
  induction l as [|x l IH]; intros s h n p Hi Hh Hw Hs Hn; cbn zeta; cbn [offer_all]; [eauto|].
  rewrite zlen_cons in Hn. pose proof (zlen_nonneg l).
  destruct (offer_held s h n x p Hi Hh) as (n' & Hh' & Hn'); [lia|].
  destruct (offer_watermark x p Hw) as (Hw' & Hs' & Ed).
  pose proof (offer_inv x p Hi) as Hi'. destruct (offer x p) as [p1 d]. simpl in *.
  specialize (IH s h n' p1 Hi' Hh' Hw'). destruct (offer_all l p1) as [p2 ds]. simpl in *.
  rewrite <-Ed. apply IH; lia.
Qed.

(** Replay protection inside the retention window: once a publisher's
    sequence is accepted, offering it again is never accepted while fewer than
    4096 further observations have been offered.  The same content is recognised
    as a duplicate and different content under the same sequence as a conflict
    (a watermark restored from durable state refuses both as stale). *)
Theorem accepted_sequence_not_replayed (p : PublisherState.t) (s h : Z) (l : list (Z * Z)) (h' : Z) :
  sequence_inv p →
  SequenceDecision.mutate (account_sequence p s h) = true →
  zlen l < Limits.kMaxSequenceWindow →
  let p' := (offer_all l (commit_sequence s h p)).1 in
  let d := account_sequence p' s h' in
  SequenceDecision.mutate d = false
  ∧ SequenceDecision.code d =
      (if PublisherState.durable_watermark p then ErrorCode.StaleSequence
       else if h =? h' then ErrorCode.Duplicate else ErrorCode.Conflict).
Proof.
  intros Hi Hm Hl. cbn zeta.
  destruct (commit_sequence_fields s h p) as (Hw & Eh & Ed & _).
  destruct (offer_all_held l s h 0 (commit_sequence s h p)) as ((n & Ht & _) & Hw' & Hs & Ed').
  - by apply commit_sequence_inv.
  - apply commit_new_held; [done|]. by eapply accepted_fresh.
  - done.
  - rewrite Eh. destruct (PublisherState.has_watermark p); lia.
  - lia.
  - unfold account_sequence. rewrite Hw', Ed', Ed, Ht. simpl.
    rewrite (proj2 (Z.leb_le _ _) Hs), (proj2 (Z.ltb_ge _ _) Hs).
    destruct (PublisherState.durable_watermark p); [done|]. simpl. by destruct (h =? h').
Qed.

Lemma accepted_sequence_not_replayed_witness :
  SequenceDecision.mutate
    (account_sequence (offer_all [(8, 1); (5, 2); (6, 9)] (commit_sequence 7 42 PublisherState.empty)).1
       7 42) = false.
Proof.
  apply (accepted_sequence_not_replayed PublisherState.empty 7 42 [(8, 1); (5, 2); (6, 9)] 42).
  - apply sequence_inv_empty.
  - reflexivity.
  - reflexivity.
Defined.

(** *** Unbounded runs

    [n] acceptances after [s]: either the window still holds [s], or the
    watermark has moved a full window past it. *)
Definition guarded (s h n : Z) (p : PublisherState.t) : Prop :=
  sequence_inv p ∧ PublisherState.has_watermark p = true
  ∧ s + n ≤ PublisherState.high_watermark p ∧ 0 ≤ n
  ∧ (held s h n p ∨ Limits.kMaxSequenceWindow ≤ n).

Definition in_order (d : SequenceDecision.t) : Prop :=
  SequenceDecision.mutate d = true →
  SequenceDecision.disposition d = IngestionDisposition.Accepted.

Lemma offer_guarded s h n x p :
  guarded s h n p → in_order (offer x p).2 → ∃ n', guarded s h n' (offer x p).1.
Proof.
  intros (Hi & Hw & Hs & Hn & Hg). unfold offer, in_order. cbn [fst snd]. intros Hio.
  destruct (SequenceDecision.mutate (account_sequence p x.1 x.2)) eqn:Em; [|exists n; by split_and!].
  destruct (account_cases p x.1 x.2) as [(? & _)|[(_ & Hlt & _)|[(_ & _ & _ & _ & _ & _ & Hl)|(_ & _ & ?)]]];
    [congruence| |specialize (Hio eq_refl); congruence|congruence].
  exists (n + 1).
  destruct (commit_sequence_fields x.1 x.2 p) as (Hw' & Eh & _). rewrite Hw in Eh.
  split_and!; [by apply commit_sequence_inv|done|lia|lia|].
  destruct Hg as [Hh|Hbig]; [|right; lia].
  destruct (commit_held s h n x.1 x.2 p Hi Hh); [by eapply accepted_fresh|by left|right; lia].
Qed.

Lemma offer_all_guarded l : ∀ s h n p,
  guarded s h n p → Forall in_order (offer_all l p).2 →
  ∃ n', guarded s h n' (offer_all l p).1.
Proof.
  induction l as [|x l IH]; intros s h n p Hg Ho; cbn [offer_all] in *; [eauto|].
  pose proof (offer_guarded s h n x p Hg) as Hstep. destruct (offer x p) as [p1 d]. simpl in *.
  specialize (IH s h). destruct (offer_all l p1) as [p2 ds] eqn:E. simpl in *.
  apply Forall_cons in Ho as [Hd Ho]. destruct (Hstep Hd) as [n' Hg'].
  specialize (IH n' p1 Hg'). rewrite E in IH. by apply IH.
Qed.

(** Exactly-once acceptance of in-order publishers, without a bound on
    the length of the run: an accepted sequence (late or not) is never accepted
    again, however many observations follow it, as long as those that are
    accepted arrive in increasing order. *)
Theorem in_order_never_replayed (p : PublisherState.t) (s h : Z) (l : list (Z * Z)) (h' : Z) :
  0 ≤ s → sequence_inv p →
  SequenceDecision.mutate (account_sequence p s h) = true →
  Forall in_order (offer_all l (commit_sequence s h p)).2 →
  SequenceDecision.mutate
    (account_sequence (offer_all l (commit_sequence s h p)).1 s h') = false.
Proof.
  intros Hs0 Hi Hm Ho.
  destruct (commit_sequence_fields s h p) as (Hw & Eh & _).
  destruct (offer_all_guarded l s h 0 (commit_sequence s h p)) as (n & Hi' & Hw' & Hs & Hn & Hg); [|done|].
  { split_and!; [by apply commit_sequence_inv|done| |done|left; apply commit_new_held; eauto using accepted_fresh].
    rewrite Eh. destruct (PublisherState.has_watermark p); lia. }
  unfold account_sequence. rewrite Hw'. simpl.
  set (p' := (offer_all l (commit_sequence s h p)).1) in *.
  rewrite (proj2 (Z.leb_le s (PublisherState.high_watermark p'))),
    (proj2 (Z.ltb_ge (PublisherState.high_watermark p') s)) by lia.
  destruct (PublisherState.durable_watermark p'); [done|]. simpl.
  destruct Hg as [[-> _]|Hbig]; [by destruct (h =? h')|].
  destruct (_ !! s) as [h''|]; [by destruct (h'' =? h')|].
  rewrite (proj2 (Z.leb_le Limits.kMaxSequenceWindow _)), (proj2 (Z.leb_le s _)) by lia. done.
Qed.

Lemma in_order_never_replayed_witness :
  SequenceDecision.mutate
    (account_sequence (offer_all [(8, 1); (9, 2); (20, 9)] (commit_sequence 7 42 PublisherState.empty)).1
       7 43) = false.
Proof.
  apply (in_order_never_replayed PublisherState.empty 7 42 [(8, 1); (9, 2); (20, 9)] 43).
  - done.
  - apply sequence_inv_empty.
  - reflexivity.
  - vm_compute. repeat constructor; done.
Defined.

(** *** Late arrivals against the window

    The retention floor is the watermark minus 4096, but the window evicts its
    oldest {e arrival}: a late arrival takes a place without moving the
    watermark. *)

Fixpoint ascending (n : nat) (from : Z) : list (Z * Z) :=
  match n with
  | O => []
  | S n => (from, 1) :: ascending n (from + 1)
  end.

Lemma forallb_Forall_true {A} (f : A → bool) l : forallb f l = true → Forall (λ x, f x = true) l.
Proof. induction l as [|x l IH]; simpl; [constructor|]. rewrite andb_true_iff. intros []. auto. Qed.

(** Sequence 10000, a late 5905, then 10001 .. 14095. *)
Definition late_run : list (Z * Z) := (10000, 1) :: (5905, 1) :: ascending 4095 10001.

(** The window eviction and the retention floor disagree after a late
    arrival: on this run of 4097 offers, all accepted, sequence 10000 has left the
    window while the watermark is only 4095 above it, so the very same observation
    is accepted a second time, as a late one, and counted twice. *)
Theorem late_arrival_defeats_replay_window :
  Forall (λ d, SequenceDecision.mutate d = true) (offer_all late_run PublisherState.empty).2
  ∧ SequenceDecision.disposition
      (account_sequence (offer_all late_run PublisherState.empty).1 10000 1)
    = IngestionDisposition.AcceptedLate.
Proof.
  split; [apply forallb_Forall_true|]; vm_compute; reflexivity.
Qed.
