(* ===== verification/State.v ===== *)
(** * Runtime state

    The authoritative state of the observatory ([src/detail/state.hpp]) and the
    application of accepted evidence to it ([src/state.cpp]: [record_stale],
    [apply_observation]).

    The analysis policies of [ObservatoryOptions] belong to the analyzers, and
    [overflow_policy], [attestations_accepted], [attestations_rejected] and
    [schema_configured] are read by nothing; they are not part of the model. *)

From S2P Require Import Prelude Errors Checked TextUtil Taxonomy Float64 Cost Records.
From S2P Require Import Policies Observation Aggregate Sequence.

(** ** Attribution outcomes and policy *)

Module AttributionOutcome.
Inductive t :=
  | AttributedExact | AttributedPartial | AttributedAggregateOnly | Ambiguous
  | Unattributed | StaleEvidence | Unsupported.
#[global] Instance t_eq_dec : EqDecision t.
Proof. solve_decision. Defined.

Definition code (o : t) : Z :=
  match o with
  | AttributedExact => 0 | AttributedPartial => 1 | AttributedAggregateOnly => 2
  | Ambiguous => 3 | Unattributed => 4 | StaleEvidence => 5 | Unsupported => 6
  end.

Definition all : list t :=
  [AttributedExact; AttributedPartial; AttributedAggregateOnly; Ambiguous; Unattributed;
   StaleEvidence; Unsupported].
Definition names : list string :=
  ["ATTRIBUTED_EXACT"; "ATTRIBUTED_PARTIAL"; "ATTRIBUTED_AGGREGATE_ONLY"; "AMBIGUOUS";
   "UNATTRIBUTED"; "STALE_EVIDENCE"; "UNSUPPORTED"]%string.

Definition to_string (o : t) : string :=
  default "UNATTRIBUTED"%string (names !! Z.to_nat (code o)).

Definition parse (text : string) : result t :=
  match find_name names 0 text with
  | Some i => Ok (default Unattributed (all !! Z.to_nat i))
  | None => fail_ctx ErrorCode.InvalidArgument "unknown attribution outcome" text
  end.
End AttributionOutcome.

Module AttributionPolicy.
Record t := mk {
  require_current_coordinator_epoch : bool; require_current_publisher : bool;
  require_current_topology : bool; require_current_region_generation : bool;
  derive_locality_from_topology : bool; max_candidates : Z;
}.
Definition default : t := mk true true true true true Limits.kMaxAttributionCandidates.
End AttributionPolicy.

Module ObservatoryOptions.
Record t := mk {
  observer_id : string; node_id : string; display_name : string;
  initial_coordinator_epoch : Z; cost_model : CostModel.t;
  attribution_policy : AttributionPolicy.t;
  hotspot_policy : HotspotPolicy.t; ping_pong_policy : PingPongPolicy.t;
  false_sharing_policy : FalseSharingPolicy.t; invalidation_policy : InvalidationPolicy.t;
  remote_access_policy : RemoteAccessPolicy.t;
  time_bucket_ns : Z; max_pending_ingestion : Z; enforce_current_publisher : bool;
}.
#[global] Instance eta : Eta t := fun o =>
  mk (observer_id o) (node_id o) (display_name o) (initial_coordinator_epoch o) (cost_model o)
    (attribution_policy o) (hotspot_policy o) (ping_pong_policy o) (false_sharing_policy o)
    (invalidation_policy o) (remote_access_policy o) (time_bucket_ns o) (max_pending_ingestion o)
    (enforce_current_publisher o).
Definition default : t :=
  mk "" "" "" 1 default_cost_model AttributionPolicy.default HotspotPolicy.default
    PingPongPolicy.default FalseSharingPolicy.default InvalidationPolicy.default
    RemoteAccessPolicy.default 1000000000
    Limits.kMaxPendingIngestion true.
End ObservatoryOptions.

(** ** Components of the state *)

Module PublisherWatermark.
Record t := mk {
  publisher : string; boot : Z; high_watermark : Z; has_watermark : bool;
  fence_reason : FenceReason.t; fenced : bool; boot_incarnations : Z; last_seen_ns : Z;
}.
#[global] Instance eta : Eta t := fun w =>
  mk (publisher w) (boot w) (high_watermark w) (has_watermark w) (fence_reason w) (fenced w)
    (boot_incarnations w) (last_seen_ns w).
End PublisherWatermark.

Module CounterKey.
Record t := mk { publisher : string; boot : Z; counter : string }.
#[global] Instance t_eq_dec : EqDecision t.
Proof. solve_decision. Defined.
#[global] Instance t_countable : Countable t.
Proof.
  apply (inj_countable' (λ k, (publisher k, boot k, counter k)) (λ p, mk p.1.1 p.1.2 p.2)).
  by intros [].
Defined.

(** [operator<=>]: publisher, boot, counter. *)
Definition leb (a b : t) : bool :=
  if decide (publisher a = publisher b) then
    (boot a <? boot b) || ((boot a =? boot b) && String.leb (counter a) (counter b))
  else String.leb (publisher a) (publisher b).

#[global] Program Instance order : KeyOrder t := {| key_leb := leb |}.
Next Obligation.
  intros a b. unfold leb. repeat case_decide; try congruence.
  - destruct (String.leb_total (counter a) (counter b)) as [E|E]; rewrite E; lia.
  - apply String.leb_total.
Qed.
Next Obligation.
  intros a b c. unfold leb.
  pose proof (string_leb_trans (counter a) (counter b) (counter c)).
  repeat case_decide; try congruence.
  - destruct (String.leb (counter a) (counter b)), (String.leb (counter b) (counter c)),
      (String.leb (counter a) (counter c)); intuition lia.
  - intros Ha Hb. exfalso. assert (publisher a = publisher b); [|done].
    apply String.leb_antisym; congruence.
  - apply string_leb_trans.
Qed.
Next Obligation.
  intros [p1 b1 c1] [p2 b2 c2]. unfold leb. simpl. repeat case_decide; try congruence.
  - intros Ha Hb. subst. assert (b1 = b2) as -> by lia.
    rewrite Z.ltb_irrefl, Z.eqb_refl in Ha, Hb. simpl in *. f_equal. by apply String.leb_antisym.
  - intros Ha Hb. exfalso. assert (p1 = p2); [|done]. by apply String.leb_antisym.
Qed.
End CounterKey.

Module CounterState.
Record t := mk {
  kind : CounterKind.t; scope : CounterScope.t; width_bits : Z; generation : Z;
  bytes_per_unit : Z; mapped_type : EventType.t;
  has_last : bool; last_raw : Z; accumulated : Z; saturated : bool;
  samples : Z; resets : Z; wraps : Z; has_time : bool; first_ns : Z; last_ns : Z;
  provenance : Provenance.t; granularity : EvidenceGranularity.t;
  source : option ResourceRef.t; target : option ResourceRef.t;
  region : option string; region_generation : option Z; workload : option string;
  topology_generation : Z;
}.
#[global] Instance eta : Eta t := fun c =>
  mk (kind c) (scope c) (width_bits c) (generation c) (bytes_per_unit c) (mapped_type c)
    (has_last c) (last_raw c) (accumulated c) (saturated c) (samples c) (resets c) (wraps c)
    (has_time c) (first_ns c) (last_ns c) (provenance c) (granularity c) (source c) (target c)
    (region c) (region_generation c) (workload c) (topology_generation c).
(** [CounterState{}]. *)
Definition empty : t :=
  mk CounterKind.Absolute CounterScope.Unknown 64 0 0 EventType.UnknownCoherenceEvent
    false 0 0 false 0 0 0 false 0 0 Provenance.Unknown EvidenceGranularity.Unknown
    None None None None None 0.
End CounterState.

Module JournalEntry.
Record t := mk {
  observation : Observation.t; outcome : AttributionOutcome.t;
  locality : Locality.t; locality_established : bool;
}.
End JournalEntry.

Module OwnershipSample.
Record t := mk {
  event_id : Z; sequence : Z; timestamp_ns : Z; from : ResourceRef.t; to : ResourceRef.t;
  type : EventType.t; before : CoherenceState.t; after : CoherenceState.t;
  direction : AccessDirection.t; precision : Precision.t; provenance : Provenance.t;
  granularity : EvidenceGranularity.t; publisher : string; publisher_boot : Z;
  region_generation : Z; line_index : string;
}.
End OwnershipSample.

Module RegionEvidence.
Record t := mk {
  samples : list OwnershipSample.t; relevant_total : Z; evicted : Z; last_update_ns : Z;
}.
#[global] Instance eta : Eta t := fun r =>
  mk (samples r) (relevant_total r) (evicted r) (last_update_ns r).
(** [RegionEvidence{}]. *)
Definition empty : t := mk [] 0 0 0.
End RegionEvidence.

Module HistoricalEvidence.
Record t := mk {
  region : string; event_type : EventType.t; observations : Z; bytes : Z;
  last_timestamp_ns : Z; precision : Precision.t; provenance : Provenance.t;
  source_coordinator_epoch : Z;
}.
End HistoricalEvidence.

(** ** The state *)

Module State.
Record t := mk {
  options : ObservatoryOptions.t;
  coordinator_epoch : Z; observation_epoch : Z; topology_generation : Z;
  snapshot_generation : Z; evidence_generation : Z;
  nodes : gmap string NodeRecord.t;
  processors : gmap string ProcessorRecord.t;
  accelerators : gmap string AcceleratorRecord.t;
  memory_domains : gmap string MemoryDomainRecord.t;
  coherence_domains : gmap string CoherenceDomainRecord.t;
  regions : gmap string RegionRecord.t;
  topology : TopologyRecord.t;
  publishers : gmap string PublisherState.t;
  counters : gmap CounterKey.t CounterState.t;
  watermarks : gmap string PublisherWatermark.t;
  aggregates : AggregateStore.t; historical_aggregates : AggregateStore.t;
  journal : list JournalEntry.t;
  region_evidence : gmap string RegionEvidence.t; region_evidence_order : list string;
  stale : list StaleEvidenceRecord.t;
  capabilities : gmap string Capability.t;
  history : list HistoricalEvidence.t; historical_observation_count : Z;
  history_source_epoch : Z;
  loss : LossReport.t;
  next_attribution : Z; next_finding : Z; started_at_ns : Z; pending_ingestion : Z;
}.
#[global] Instance eta : Eta t := fun s =>
  mk (options s) (coordinator_epoch s) (observation_epoch s) (topology_generation s)
    (snapshot_generation s) (evidence_generation s) (nodes s) (processors s) (accelerators s)
    (memory_domains s) (coherence_domains s) (regions s) (topology s) (publishers s)
    (counters s) (watermarks s) (aggregates s) (historical_aggregates s) (journal s)
    (region_evidence s) (region_evidence_order s) (stale s) (capabilities s) (history s)
    (historical_observation_count s) (history_source_epoch s) (loss s) (next_attribution s)
    (next_finding s) (started_at_ns s) (pending_ingestion s).
(** [State{}] with the options moved in. *)
Definition initial (options : ObservatoryOptions.t) : t :=
  mk options 1 1 1 1 1 ∅ ∅ ∅ ∅ ∅ ∅ (TopologyRecord.mk 1 [] 0 false) ∅ ∅ ∅
    AggregateStore.empty AggregateStore.empty [] ∅ [] [] ∅ [] 0 0 LossReport.empty 1 1 0 0.
End State.

(** ** Applying evidence *)

Definition is_region_relevant (t : EventType.t) : bool :=
  is_ownership_event t
  || match t with
     | EventType.Invalidation | EventType.RegionInvalidation | EventType.RemoteWrite
     | EventType.RemoteRead | EventType.CoherenceConflict | EventType.CoherenceRetry
     | EventType.SharedRead | EventType.Writeback | EventType.SnoopRequest
     | EventType.SnoopResponse | EventType.DirectoryLookup | EventType.DirectoryMiss
     | EventType.RemoteAtomic | EventType.MemoryDomainTransfer => true
     | _ => false
     end.

Definition counts_as_current_evidence (o : AttributionOutcome.t) : bool :=
  match o with
  | AttributionOutcome.StaleEvidence | AttributionOutcome.Unsupported => false
  | _ => true
  end.

Definition record_stale (r : StaleEvidenceRecord.t) (s : State.t) : State.t :=
  let r := r <| StaleEvidenceRecord.detail ::= (λ d, truncate d 240) |> in
  s <| State.stale ::= fifo_push Limits.kMaxFindings r |>.

(** One iteration of the loop over the dimensions. *)
Definition accumulate_dimension (o : Observation.t) (s : State.t) (d : AggregateDimension.t)
    : State.t :=
  let key := AggregateKey.mk d (aggregate_value_text o d
               (ObservatoryOptions.time_bucket_ns (State.options s))) in
  let '(aggregates, ok) := AggregateStore.accumulate key (contribution_of o) (State.aggregates s) in
  let s := s <| State.aggregates := aggregates |> in
  if ok : bool then s
  else s <| State.loss ::= λ l, l <| LossReport.dropped_aggregate_updates ::= incr |> |>.

Definition accumulate_observation (o : Observation.t) (s : State.t) : State.t :=
  foldl (accumulate_dimension o) s AggregateDimension.all.

Definition append_journal (e : JournalEntry.t) (s : State.t) : State.t :=
  let s := if Limits.kMaxObservationJournal <=? zlen (State.journal s) then
             s <| State.journal ::= tail |>
               <| State.loss ::= λ l, l <| LossReport.dropped_journal_entries ::= incr |> |>
           else s in
  s <| State.journal ::= λ j, j ++ [e] |>.

(** The eviction loop over [region_evidence_order]: drop names from the front
    until one of them was still tracked. *)
Fixpoint evict_region (order : list string) (s : State.t) : State.t :=
  match order with
  | [] => s <| State.region_evidence_order := [] |>
  | victim :: rest =>
      match State.region_evidence s !! victim with
      | Some _ =>
          s <| State.region_evidence_order := rest |>
            <| State.region_evidence ::= delete victim |>
            <| State.loss ::= λ l, l <| LossReport.dropped_region_samples ::= incr |> |>
      | None => evict_region rest s
      end
  end.

(** The entry for a region, created (and an older one evicted) when absent. *)
Definition track_region (key : string) (s : State.t) : State.t :=
  match State.region_evidence s !! key with
  | Some _ => s
  | None =>
      let s := if Limits.kMaxTrackedRegions <=? zsize (State.region_evidence s)
               then evict_region (State.region_evidence_order s) s else s in
      s <| State.region_evidence_order ::= λ l, l ++ [key] |>
        <| State.region_evidence ::= <[key := RegionEvidence.empty]> |>
  end.

Definition ownership_sample (o : Observation.t) : OwnershipSample.t :=
  {| OwnershipSample.event_id := Observation.event_id o;
     OwnershipSample.sequence := Observation.sequence o;
     OwnershipSample.timestamp_ns := Observation.timestamp_ns o;
     OwnershipSample.from := default ResourceRef.none (Observation.source o);
     OwnershipSample.to := default ResourceRef.none (Observation.target o);
     OwnershipSample.type := Observation.type o;
     OwnershipSample.before := Observation.state_before o;
     OwnershipSample.after := Observation.state_after o;
     OwnershipSample.direction := Observation.direction o;
     OwnershipSample.precision := Observation.precision o;
     OwnershipSample.provenance := Observation.provenance o;
     OwnershipSample.granularity := Observation.granularity o;
     OwnershipSample.publisher := Observation.source_publisher o;
     OwnershipSample.publisher_boot := Observation.publisher_boot o;
     OwnershipSample.region_generation := default 0 (Observation.region_generation o);
     OwnershipSample.line_index :=
       default ""%string (BoundedMetadata.find "line.index" (Observation.metadata o)) |}.

Definition add_sample (o : Observation.t) (e : RegionEvidence.t) : RegionEvidence.t * bool :=
  let e := e <| RegionEvidence.relevant_total ::= incr |> in
  let full := Limits.kMaxRegionSamples <=? zlen (RegionEvidence.samples e) in
  let e := if full then e <| RegionEvidence.samples ::= tail |> <| RegionEvidence.evicted ::= incr |>
           else e in
  (e <| RegionEvidence.last_update_ns := Observation.timestamp_ns o |>
     <| RegionEvidence.samples ::= λ l, l ++ [ownership_sample o] |>, full).

Definition apply_region_evidence (key : string) (o : Observation.t) (s : State.t) : State.t :=
  let s := track_region key s in
  let '(e, full) := add_sample o (default RegionEvidence.empty (State.region_evidence s !! key)) in
  let s := if full : bool
           then s <| State.loss ::= λ l, l <| LossReport.dropped_region_samples ::= incr |> |>
           else s in
  s <| State.region_evidence ::= <[key := e]> |>.

Definition apply_observation (o : Observation.t) (outcome : AttributionOutcome.t)
    (locality : Locality.t) (locality_established : bool) (s : State.t) : State.t :=
  let counted := counts_as_current_evidence outcome in
  let s := if counted then accumulate_observation o s else s in
  let s := append_journal (JournalEntry.mk o outcome locality locality_established) s in
  match Observation.region o with
  | Some key =>
      if counted && is_region_relevant (Observation.type o)
      then apply_region_evidence key o s else s
  | None => s
  end.

(** ** What evidence application touches *)

Definition with_evidence (a : AggregateStore.t) (j : list JournalEntry.t)
    (re : gmap string RegionEvidence.t) (ro : list string) (l : LossReport.t) (s : State.t)
    : State.t :=
  s <| State.aggregates := a |> <| State.journal := j |> <| State.region_evidence := re |>
    <| State.region_evidence_order := ro |> <| State.loss := l |>.

(** [s'] differs from [s] in the evidence fields only: registries, epochs,
    publishers, counters, watermarks, capabilities and history are the same. *)
Definition evidence_only (s s' : State.t) : Prop :=
  ∃ a j re ro l, s' = with_evidence a j re ro l s.

#[global] Instance evidence_only_refl : Reflexive evidence_only.
Proof.
  intros s. exists (State.aggregates s), (State.journal s), (State.region_evidence s),
    (State.region_evidence_order s), (State.loss s). by destruct s.
Qed.
#[global] Instance evidence_only_trans : Transitive evidence_only.
Proof.
  intros s1 s2 s3 (a & j & re & ro & l & ->) (a' & j' & re' & ro' & l' & ->).
  by exists a', j', re', ro', l'.
Qed.

Ltac solve_evidence_only :=
  match goal with
  | |- evidence_only ?s ?s' =>
      exists (State.aggregates s'), (State.journal s'), (State.region_evidence s'),
        (State.region_evidence_order s'), (State.loss s'); reflexivity
  end.

Lemma accumulate_dimension_frame o s d : evidence_only s (accumulate_dimension o s d).
Proof.
  unfold accumulate_dimension. destruct (AggregateStore.accumulate _ _ _) as [a []];
    solve_evidence_only.
Qed.

Lemma accumulate_observation_frame o s : evidence_only s (accumulate_observation o s).
Proof.
  unfold accumulate_observation. generalize AggregateDimension.all. intros ds.
  revert s. induction ds as [|d ds IH]; intros s; simpl; [done|].
  etransitivity; [apply accumulate_dimension_frame|apply IH].
Qed.

Lemma append_journal_frame e s : evidence_only s (append_journal e s).
Proof. unfold append_journal. case_match; solve_evidence_only. Qed.

Lemma evict_region_frame order s : evidence_only s (evict_region order s).
Proof.
  induction order as [|v rest IH]; simpl; [solve_evidence_only|].
  case_match; [solve_evidence_only|done].
Qed.

Lemma track_region_frame key s : evidence_only s (track_region key s).
Proof.
  unfold track_region. case_match; [done|]. etransitivity; [|solve_evidence_only].
  case_match; [apply evict_region_frame|done].
Qed.

Lemma apply_region_evidence_frame key o s : evidence_only s (apply_region_evidence key o s).
Proof.
  unfold apply_region_evidence. pose proof (track_region_frame key s) as H. revert H.
  generalize (track_region key s). intros s' H. etransitivity; [exact H|].
  destruct (add_sample _ _) as [e []]; solve_evidence_only.
Qed.

Lemma apply_observation_frame o outcome loc le s :
  evidence_only s (apply_observation o outcome loc le s).
Proof.
  unfold apply_observation.
  set (s1 := if counts_as_current_evidence outcome then _ else _).
  assert (H1 : evidence_only s s1)
    by (unfold s1; case_match; [apply accumulate_observation_frame|done]).
  etransitivity; [exact H1|]. etransitivity; [apply append_journal_frame|].
  case_match; [|done]. case_match; [apply apply_region_evidence_frame|done].
Qed.

(** ** Bounded evidence *)

Definition region_evidence_ok (e : RegionEvidence.t) : Prop :=
  zlen (RegionEvidence.samples e) ≤ Limits.kMaxRegionSamples
  ∧ wrap64 (zlen (RegionEvidence.samples e) + RegionEvidence.evicted e)
    = RegionEvidence.relevant_total e.

Definition tracking_ok (order : list string) (m : gmap string RegionEvidence.t) : Prop :=
  NoDup order ∧ (∀ k, k ∈ order ↔ is_Some (m !! k)) ∧ zsize m ≤ Limits.kMaxTrackedRegions.

Record evidence_ok (s : State.t) : Prop := {
  ok_journal : zlen (State.journal s) ≤ Limits.kMaxObservationJournal;
  ok_stale : zlen (State.stale s) ≤ Limits.kMaxFindings;
  ok_aggregates : store_bounded (State.aggregates s);
  ok_tracking : tracking_ok (State.region_evidence_order s) (State.region_evidence s);
  ok_regions : map_Forall (λ _, region_evidence_ok) (State.region_evidence s);
}.

Lemma accumulate_dimension_eq o s d :
  ∃ l, accumulate_dimension o s d
    = s <| State.aggregates := (AggregateStore.accumulate (AggregateKey.mk d (aggregate_value_text o d
             (ObservatoryOptions.time_bucket_ns (State.options s)))) (contribution_of o)
             (State.aggregates s)).1 |>
        <| State.loss := l |>.
Proof.
  unfold accumulate_dimension. destruct (AggregateStore.accumulate _ _ _) as [a []]; eexists; reflexivity.
Qed.

Lemma accumulate_observation_ok o s : evidence_ok s → evidence_ok (accumulate_observation o s).
Proof.
  unfold accumulate_observation. generalize AggregateDimension.all. intros ds.
  revert s. induction ds as [|d ds IH]; intros s Hs; simpl; [done|]. apply IH.
  destruct (accumulate_dimension_eq o s d) as [l ->]. destruct Hs. constructor; try done.
  by apply accumulate_bounded.
Qed.

Lemma append_journal_ok e s : evidence_ok s → evidence_ok (append_journal e s).
Proof.
  intros []. assert (Hj : State.journal (append_journal e s)
    = fifo_push Limits.kMaxObservationJournal e (State.journal s)).
  { unfold append_journal, fifo_push. by case_match. }
  constructor; [rewrite Hj; by apply fifo_push_bound|..];
    unfold append_journal; case_match; done.
Qed.

Lemma record_stale_ok r s : evidence_ok s → evidence_ok (record_stale r s).
Proof. intros []. constructor; try done. by apply fifo_push_bound. Qed.

(** Evicting removes the oldest tracked region and makes room. *)
Lemma evict_region_tracking s :
  tracking_ok (State.region_evidence_order s) (State.region_evidence s) →
  0 < zsize (State.region_evidence s) →
  let s' := evict_region (State.region_evidence_order s) s in
  tracking_ok (State.region_evidence_order s') (State.region_evidence s')
  ∧ zsize (State.region_evidence s') = zsize (State.region_evidence s) - 1
  ∧ ∃ victim rest, State.region_evidence_order s = victim :: rest
      ∧ State.region_evidence_order s' = rest
      ∧ State.region_evidence s' = delete victim (State.region_evidence s).
Proof.
  intros (Hnd & Hdom & Hsz) Hpos. cbn zeta.
  destruct (State.region_evidence_order s) as [|v rest] eqn:Eo.
  { exfalso. destruct (map_choose (State.region_evidence s)) as (k & e & Hk).
    - intros E. rewrite E in Hpos. done.
    - assert (k ∈ []) as Hin by (apply Hdom; eauto). by apply elem_of_nil in Hin. }
  assert (is_Some (State.region_evidence s !! v)) as [e He] by (apply Hdom; left).
  cbn [evict_region]. rewrite He. cbn [State.region_evidence_order State.region_evidence].
  apply NoDup_cons in Hnd as [Hv Hnd]. pose proof (zsize_delete_Some _ _ _ He) as Hz.
  split_and!; [|exact Hz|by exists v, rest].
  split_and!; [exact Hnd| |].
  - intros k. change (k ∈ rest ↔ is_Some (delete v (State.region_evidence s) !! k)).
    destruct (decide (k = v)) as [->|Hne].
    + rewrite lookup_delete_eq. split; [done|]. by intros [? ?].
    + rewrite lookup_delete_ne, <-Hdom, elem_of_cons by done. naive_solver.
  - change (zsize (delete v (State.region_evidence s)) ≤ Limits.kMaxTrackedRegions). lia.
Qed.

Lemma region_evidence_empty_ok : region_evidence_ok RegionEvidence.empty.
Proof. by split. Qed.

Lemma add_sample_ok o e : region_evidence_ok e → region_evidence_ok (add_sample o e).1.
Proof.
  intros [Hn Ht]. unfold add_sample. cbn [fst].
  change (RegionEvidence.samples (e <| RegionEvidence.relevant_total ::= incr |>))
    with (RegionEvidence.samples e).
  destruct (Z.leb_spec Limits.kMaxRegionSamples (zlen (RegionEvidence.samples e))) as [Hfull|Hroom];
    split; cbn [update_field RegionEvidence.samples RegionEvidence.evicted RegionEvidence.relevant_total];
    rewrite zlen_app, zlen_cons, zlen_nil; unfold incr, u64_add, wrap64 in *;
    unfold Limits.kMaxRegionSamples in *.
  - destruct (RegionEvidence.samples e); rewrite ?zlen_cons in *; simpl; rewrite ?zlen_nil in *; lia.
  - rewrite <-Ht, Zplus_mod_idemp_r, Zplus_mod_idemp_l. f_equal.
    destruct (RegionEvidence.samples e); [rewrite zlen_nil in Hfull; lia|].
    simpl. rewrite zlen_cons. lia.
  - lia.
  - rewrite <-Ht, Zplus_mod_idemp_l. f_equal. lia.
Qed.

Lemma evict_region_keeps order s :
  State.journal (evict_region order s) = State.journal s
  ∧ State.stale (evict_region order s) = State.stale s
  ∧ State.aggregates (evict_region order s) = State.aggregates s.
Proof. induction order as [|v rest IH]; simpl; [done|]. by case_match. Qed.

Lemma track_region_ok key s :
  evidence_ok s →
  evidence_ok (track_region key s) ∧ is_Some (State.region_evidence (track_region key s) !! key).
Proof.
  intros Hs. unfold track_region. destruct (State.region_evidence s !! key) as [e|] eqn:E; [eauto|].
  set (s1 := if _ <=? _ then _ else _).
  assert (H1 : evidence_ok s1 ∧ zsize (State.region_evidence s1) < Limits.kMaxTrackedRegions
    ∧ State.region_evidence s1 !! key = None).
  { unfold s1. destruct (Z.leb_spec Limits.kMaxTrackedRegions (zsize (State.region_evidence s)));
      [|by split_and!]. destruct Hs as [Hj Hst Ha Ht Hr].
    destruct (evict_region_tracking s Ht) as (Ht' & Hz & v & rest & _ & _ & Ed).
    { unfold Limits.kMaxTrackedRegions in *. lia. }
    destruct (evict_region_keeps (State.region_evidence_order s) s) as (Ej & Es & Ea).
    destruct Ht as (_ & _ & Hsz). split_and!; [|lia|rewrite Ed, lookup_delete_None; by right].
    constructor; [by rewrite Ej|by rewrite Es|by rewrite Ea|exact Ht'|].
    rewrite Ed. by apply map_Forall_delete. }
  clearbody s1. destruct H1 as ([Hj Hst Ha (Hnd & Hdom & _) Hr] & Hlt & Hk).
  assert (Hnew : key ∉ State.region_evidence_order s1) by (rewrite Hdom, Hk; by intros [? ?]).
  split; [|exists RegionEvidence.empty; apply lookup_insert_eq].
  constructor; [done..| |apply map_Forall_insert_2; [apply region_evidence_empty_ok|done]].
  split_and!.
  - apply NoDup_app. split_and!; [done| |apply NoDup_singleton].
    intros k Hin. rewrite list_elem_of_singleton. by intros ->.
  - intros k. change (k ∈ State.region_evidence_order s1 ++ [key]
      ↔ is_Some (<[key:=RegionEvidence.empty]> (State.region_evidence s1) !! k)).
    rewrite elem_of_app, list_elem_of_singleton, Hdom, lookup_insert_is_Some.
    destruct (decide (k = key)); naive_solver.
  - change (zsize (<[key:=RegionEvidence.empty]> (State.region_evidence s1)) ≤ Limits.kMaxTrackedRegions).
    rewrite zsize_insert_None by done. lia.
Qed.

Lemma apply_region_evidence_ok key o s :
  evidence_ok s → evidence_ok (apply_region_evidence key o s).
Proof.
  intros Hs. unfold apply_region_evidence. destruct (track_region_ok key s Hs) as [H [e He]].
  generalize dependent (track_region key s). intros s1 H1 He. rewrite He. cbn [default from_option id].
  pose proof (add_sample_ok o e) as Hadd. destruct (add_sample o e) as [e' full]. cbn [fst] in Hadd.
  destruct H1 as [Hj Hst Ha (Hnd & Hdom & Hsz) Hr].
  assert (Hre : region_evidence_ok e') by (apply Hadd; by apply (Hr key)).
  assert (Ht : tracking_ok (State.region_evidence_order s1) (<[key:=e']> (State.region_evidence s1))).
  { split_and!; [done| |by rewrite (zsize_insert_Some _ _ _ _ He)].
    intros k. rewrite lookup_insert_is_Some, Hdom. destruct (decide (key = k)) as [->|]; naive_solver. }
  destruct full; constructor; try done; by apply map_Forall_insert_2.
Qed.

Lemma apply_observation_ok o outcome loc le s :
  evidence_ok s → evidence_ok (apply_observation o outcome loc le s).
Proof.
  intros Hs. unfold apply_observation.
  assert (H1 : evidence_ok (if counts_as_current_evidence outcome then accumulate_observation o s else s))
    by (case_match; [by apply accumulate_observation_ok|done]).
  apply (append_journal_ok (JournalEntry.mk o outcome loc le)) in H1.
  destruct (Observation.region o) as [key|]; [|done].
  destruct (_ && _); [|done]. by apply apply_region_evidence_ok.
Qed.

Lemma initial_evidence_ok options : evidence_ok (State.initial options).
Proof.
  constructor; try done. split_and!; [constructor| |done].
  intros k. split; [set_solver|]. by intros [? ?].
Qed.

#[export] Hint Resolve apply_observation_ok record_stale_ok initial_evidence_ok : obs.

(** Evidence memory is bounded whatever is ingested: applying any
    observation keeps the journal, the tracked regions, the samples of each region
    and the aggregate buckets within their limits, keeps the FIFO of tracked
    regions in step with the table, and keeps the accounting of each region exact
    (samples retained plus samples evicted make the number of relevant events). *)
Theorem apply_observation_bounded (o : Observation.t) (outcome : AttributionOutcome.t)
    (loc : Locality.t) (established : bool) (s : State.t) :
  evidence_ok s → evidence_ok (apply_observation o outcome loc established s).
Proof. apply apply_observation_ok. Qed.

Lemma apply_observation_bounded_witness :
  evidence_ok (apply_observation sample_observation AttributionOutcome.AttributedExact
                 Locality.Unknown false (State.initial ObservatoryOptions.default)).
Proof. apply apply_observation_bounded. apply initial_evidence_ok. Defined.

(** ** Evidence and aggregates *)

(** The ten updates one observation makes, one per dimension. *)
Definition updates_of (bucket_ns : Z) (o : Observation.t) (ds : list AggregateDimension.t) : log :=
  map (λ d, (AggregateKey.mk d (aggregate_value_text o d bucket_ns), contribution_of o)) ds.

Definition dropped_updates (s : State.t) : Z :=
  LossReport.dropped_aggregate_updates (State.loss s).

Lemma accumulate_dimensions_refines o ds : ∀ s l,
  represents (State.aggregates s) l → in_u64 (dropped_updates s) →
  let s' := foldl (accumulate_dimension o) s ds in
  ∃ kept, kept `sublist_of`
      updates_of (ObservatoryOptions.time_bucket_ns (State.options s)) o ds
    ∧ represents (State.aggregates s') (l ++ kept)
    ∧ dropped_updates s' = wrap64 (dropped_updates s + (zlen ds - zlen kept)).
Proof.
  induction ds as [|d ds IH]; intros s l Hr Hd; cbn zeta; cbn [foldl updates_of map].
  { exists []. rewrite app_nil_r. split_and!; [done..|]. rewrite Z.add_0_r. by rewrite wrap64_small. }
  set (key := AggregateKey.mk d _).
  pose proof (accumulate_represents key (contribution_of o) (State.aggregates s) l Hr) as Hstep.
  assert (Hs1 : ∃ ok : bool, represents (State.aggregates (accumulate_dimension o s d))
      (if ok then l ++ [(key, contribution_of o)] else l)
    ∧ dropped_updates (accumulate_dimension o s d)
      = wrap64 (dropped_updates s + (if ok then 0 else 1))
    ∧ State.options (accumulate_dimension o s d) = State.options s).
  { unfold accumulate_dimension. fold key.
    destruct (AggregateStore.accumulate key _ _) as [a ok]. exists ok.
    destruct ok; split_and!; try done. unfold dropped_updates in *. cbn. rewrite Z.add_0_r.
    by rewrite wrap64_small. }
  destruct Hs1 as (ok & Hr1 & Hd1 & Ho1).
  destruct (IH _ _ Hr1) as (kept & Hsub & Hr2 & Hd2); [rewrite Hd1; apply wrap64_range|].
  rewrite Ho1 in Hsub. rewrite Hd1 in Hd2. unfold wrap64 in Hd2. rewrite Zplus_mod_idemp_l in Hd2.
  destruct ok.
  - exists ((key, contribution_of o) :: kept). rewrite <-app_assoc in Hr2.
    split_and!; [by apply sublist_skip|exact Hr2|]. rewrite Hd2, !zlen_cons. unfold wrap64. f_equal. lia.
  - exists kept. split_and!; [by apply sublist_cons|exact Hr2|].
    rewrite Hd2, !zlen_cons. unfold wrap64. f_equal. lia.
Qed.

Lemma evict_region_dropped order s : dropped_updates (evict_region order s) = dropped_updates s.
Proof. induction order as [|v rest IH]; simpl; [done|]. by case_match. Qed.

Lemma track_region_aggregates key s :
  State.aggregates (track_region key s) = State.aggregates s
  ∧ dropped_updates (track_region key s) = dropped_updates s.
Proof.
  unfold track_region. case_match; [done|]. case_match; [|done].
  destruct (evict_region_keeps (State.region_evidence_order s) s) as (_ & _ & <-).
  by rewrite <-(evict_region_dropped (State.region_evidence_order s) s).
Qed.

Lemma apply_region_evidence_aggregates key o s :
  State.aggregates (apply_region_evidence key o s) = State.aggregates s
  ∧ dropped_updates (apply_region_evidence key o s) = dropped_updates s.
Proof.
  unfold apply_region_evidence. destruct (track_region_aggregates key s) as [<- <-].
  destruct (add_sample _ _) as [e []]; done.
Qed.

Lemma apply_observation_aggregates o outcome loc le s :
  let s0 := if counts_as_current_evidence outcome then accumulate_observation o s else s in
  State.aggregates (apply_observation o outcome loc le s) = State.aggregates s0
  ∧ dropped_updates (apply_observation o outcome loc le s) = dropped_updates s0.
Proof.
  cbn zeta. unfold apply_observation.
  set (s0 := if counts_as_current_evidence outcome then _ else _). clearbody s0.
  set (s1 := append_journal _ s0).
  assert (H1 : State.aggregates s1 = State.aggregates s0 ∧ dropped_updates s1 = dropped_updates s0).
  { unfold s1, append_journal. by case_match. }
  destruct (Observation.region o) as [key|]; [|done]. destruct (_ && _); [|done].
  destruct (apply_region_evidence_aggregates key o s1) as [-> ->]. done.
Qed.

(** What is counted, and how often: evidence judged stale or unsupported
    leaves the aggregates untouched, and evidence that counts updates each of the
    ten dimensions exactly once, into the bucket of its own value on that
    dimension; an update the full store refuses is the only one missing, and each
    is counted as a dropped update. *)
Theorem apply_observation_aggregation (o : Observation.t) (outcome : AttributionOutcome.t)
    (loc : Locality.t) (established : bool) (s : State.t) (l : log) :
  represents (State.aggregates s) l → in_u64 (dropped_updates s) →
  let s' := apply_observation o outcome loc established s in
  if counts_as_current_evidence outcome then
    ∃ kept, kept `sublist_of` updates_of (ObservatoryOptions.time_bucket_ns (State.options s)) o
                                AggregateDimension.all
      ∧ represents (State.aggregates s') (l ++ kept)
      ∧ dropped_updates s' = wrap64 (dropped_updates s + (kAggregateDimensionCount - zlen kept))
  else State.aggregates s' = State.aggregates s ∧ dropped_updates s' = dropped_updates s.
Proof.
  intros Hr Hd. cbn zeta.
  destruct (apply_observation_aggregates o outcome loc established s) as [Ea Ed].
  rewrite Ea, Ed. destruct (counts_as_current_evidence outcome); [|done].
  by apply (accumulate_dimensions_refines o AggregateDimension.all).
Qed.

Lemma apply_observation_aggregation_witness :
  ∃ kept, represents (State.aggregates
    (apply_observation sample_observation AttributionOutcome.AttributedExact Locality.Unknown false
       (State.initial ObservatoryOptions.default))) ([] ++ kept).
Proof.
  destruct (apply_observation_aggregation sample_observation AttributionOutcome.AttributedExact
    Locality.Unknown false (State.initial ObservatoryOptions.default) []) as (kept & _ & H & _).
  - intros key. reflexivity.
  - split; by vm_compute.
  - exists kept. exact H.
Defined.
