(* ===== verification/Attribution.v ===== *)
(** * Attribution

    [src/attribution.cpp]: which subject an observation may be charged to, and
    how strongly.  [attribute_observation] is a sequence of stages over the
    result under construction; a stage may return early with the outcome it
    reached, which is the [Return] of the [flow] type below. *)

From S2P Require Import Prelude Errors TextUtil Ids Taxonomy Float64 Cost Records Observation.
From S2P Require Import Aggregate Sequence State.
From Stdlib Require Import Ascii.

(** ** Results *)

Module AttributionTargetKind.
Inductive t :=
  | Resource | MemoryDomain | CoherenceDomain | Region | Workload | Process | TopologyEdge
  | LocalityClass | EventClass.
#[global] Instance t_eq_dec : EqDecision t.
Proof. solve_decision. Defined.
Definition to_string (k : t) : string :=
  match k with
  | Resource => "RESOURCE"
  | MemoryDomain => "MEMORY_DOMAIN"
  | CoherenceDomain => "COHERENCE_DOMAIN"
  | Region => "REGION"
  | Workload => "WORKLOAD"
  | Process => "PROCESS"
  | TopologyEdge => "TOPOLOGY_EDGE"
  | LocalityClass => "LOCALITY_CLASS"
  | EventClass => "EVENT_CLASS"
  end.
End AttributionTargetKind.

Module AttributionTarget.
Record t := mk { kind : AttributionTargetKind.t; value : string; generation : Z }.
#[global] Instance t_eq_dec : EqDecision t.
Proof. solve_decision. Defined.
End AttributionTarget.

Module EvidenceRef.
Record t := mk {
  event_id : Z; publisher : string; publisher_boot : Z; sequence : Z;
  event_type : EventType.t; precision : Precision.t; provenance : Provenance.t;
}.
End EvidenceRef.

Module GenerationBindings.
Record t := mk {
  coordinator_epoch : Z; observation_epoch : Z; topology_generation : Z;
  evidence_generation : Z; source_device_generation : Z; target_device_generation : Z;
  region_generation : Z; region_generation_bound : bool;
  source_domain_generation : Z; target_domain_generation : Z;
}.
#[global] Instance eta : Eta t := fun b =>
  mk (coordinator_epoch b) (observation_epoch b) (topology_generation b)
    (evidence_generation b) (source_device_generation b) (target_device_generation b)
    (region_generation b) (region_generation_bound b) (source_domain_generation b)
    (target_domain_generation b).
Definition empty : t := mk 0 0 0 0 0 0 0 false 0 0.
End GenerationBindings.

Module attribution_reason.
Definition kBoundToRegionGeneration : string := "bound.region_generation".
Definition kBoundToDevice : string := "bound.device".
Definition kBoundToDomain : string := "bound.memory_domain".
Definition kBoundToLocality : string := "bound.locality_class".
Definition kBoundToEdge : string := "bound.topology_edge".
Definition kBoundToWorkload : string := "bound.workload".
Definition kBoundToProcess : string := "bound.process".
Definition kNoRegionIdentified : string := "missing.region_identity".
Definition kCoarseGranularity : string := "limited.evidence_granularity".
Definition kCounterScopeCoarser : string := "limited.counter_scope".
Definition kStaleCoordinatorEpoch : string := "stale.coordinator_epoch".
Definition kStalePublisher : string := "stale.publisher_not_current".
Definition kStaleRegionGeneration : string := "stale.region_generation".
Definition kRetiredRegion : string := "stale.region_retired".
Definition kStaleTopology : string := "stale.topology_generation".
Definition kUnknownResource : string := "unattributed.unknown_resource".
Definition kUnknownPublisher : string := "unattributed.unknown_publisher".
Definition kNoSubject : string := "unattributed.no_subject".
Definition kMultipleCandidates : string := "ambiguous.multiple_regions".
Definition kConflictingLocality : string := "ambiguous.locality_mismatch".
Definition kUnsupportedCapability : string := "unsupported.capability".
End attribution_reason.

Module AttributionResult.
Record t := mk {
  id : Z; outcome : AttributionOutcome.t; event_type : EventType.t;
  region : string; region_generation : Z;
  reasons : list string; targets : list AttributionTarget.t; evidence : list EvidenceRef.t;
  precision : Precision.t; provenance : Provenance.t; reality : Reality.t;
  bindings : GenerationBindings.t;
  candidate_count : Z; candidates : list string; cost : CostEstimate.t;
  locality : Locality.t; locality_established : bool;
}.
#[global] Instance eta : Eta t := fun r =>
  mk (id r) (outcome r) (event_type r) (region r) (region_generation r) (reasons r) (targets r)
    (evidence r) (precision r) (provenance r) (reality r) (bindings r) (candidate_count r)
    (candidates r) (cost r) (locality r) (locality_established r).
(** A default-constructed result. *)
Definition empty : t :=
  mk 0 AttributionOutcome.Unattributed EventType.UnknownCoherenceEvent "" 0 [] [] []
    Precision.Unknown Provenance.Unknown Reality.Real GenerationBindings.empty 0 []
    CostEstimate.empty Locality.Unknown false.

Definition exact (r : t) : bool := bool_decide (outcome r = AttributionOutcome.AttributedExact).
Definition bound (r : t) : bool :=
  bool_decide (outcome r = AttributionOutcome.AttributedExact)
  || bool_decide (outcome r = AttributionOutcome.AttributedPartial)
  || bool_decide (outcome r = AttributionOutcome.AttributedAggregateOnly).
Definition has_reason (reason : string) (r : t) : bool := bool_decide (reason ∈ reasons r).
End AttributionResult.

(** ** Helpers *)

Definition kCapabilityCacheLineOwnership : string := "coherence.cache_line_ownership".
Definition kCapabilityCxlTelemetry : string := "memory.cxl_telemetry".

Definition capability_status (s : State.t) (key : string) : CapabilityStatus.t :=
  match State.capabilities s !! key with
  | Some c => Capability.status c
  | None => CapabilityStatus.Unsupported
  end.

Definition add_target (kind : AttributionTargetKind.t) (value : string) (generation : Z)
    (r : AttributionResult.t) : AttributionResult.t :=
  let target := AttributionTarget.mk kind value generation in
  if sempty value then r
  else if Limits.kMaxAttributionTargets <=? zlen (AttributionResult.targets r) then r
  else if bool_decide (target ∈ AttributionResult.targets r) then r
  else r <| AttributionResult.targets ::= λ ts, ts ++ [target] |>.

Definition add_reason (reason : string) (r : AttributionResult.t) : AttributionResult.t :=
  if bool_decide (reason ∈ AttributionResult.reasons r) then r
  else r <| AttributionResult.reasons ::= λ rs, rs ++ [reason] |>.

Definition add_evidence (o : Observation.t) (r : AttributionResult.t) : AttributionResult.t :=
  if Limits.kMaxEvidenceRefs <=? zlen (AttributionResult.evidence r) then r
  else r <| AttributionResult.evidence ::= λ es, es ++
         [EvidenceRef.mk (Observation.event_id o) (Observation.source_publisher o)
            (Observation.publisher_boot o) (Observation.sequence o) (Observation.type o)
            (Observation.precision o) (Observation.provenance o)] |>.

Definition add_resource_target (ref : ResourceRef.t) (r : AttributionResult.t)
    : AttributionResult.t :=
  if ResourceRef.empty ref then r
  else
    let add kind := add_target kind (ResourceRef.id ref) (ResourceRef.generation ref) r in
    match ResourceRef.kind ref with
    | ResourceKind.MemoryDomain => add AttributionTargetKind.MemoryDomain
    | ResourceKind.CoherenceDomain => add AttributionTargetKind.CoherenceDomain
    | ResourceKind.Node | ResourceKind.Processor | ResourceKind.Accelerator
    | ResourceKind.Unknown => add AttributionTargetKind.Resource
    | ResourceKind.Other _ => r
    end.

Definition binds_any_subject (r : AttributionResult.t) : bool :=
  existsb (λ t, negb (bool_decide (AttributionTarget.kind t = AttributionTargetKind.EventClass)))
    (AttributionResult.targets r).

(** The loop of [regions_for_workload], which stops once it has more than the
    candidate limit. *)
Fixpoint collect_regions (workload : string) (l : list (string * RegionRecord.t))
    (found : list string) : list string :=
  match l with
  | [] => found
  | (name, r) :: rest =>
      if RegionRecord.retired r then collect_regions workload rest found
      else if decide (RegionRecord.workload r = workload) then
        let found := found ++ [name] in
        if Limits.kMaxAttributionCandidates <? zlen found then found
        else collect_regions workload rest found
      else collect_regions workload rest found
  end.

Definition regions_for_workload (s : State.t) (workload : string) : list string :=
  collect_regions workload (entries (State.regions s)) [].

Definition resource_text (ref : ResourceRef.t) : string :=
  if ResourceRef.empty ref then "unknown"
  else ResourceKind.to_string (ResourceRef.kind ref) +:+ ":" +:+ ResourceRef.id ref +:+ "@"
       +:+ format_u64 (ResourceRef.generation ref).

Definition boot_key (publisher : string) (boot : Z) : string :=
  publisher +:+ "#" +:+ format_u64 boot.

Definition resource_is_current (s : State.t) (ref : ResourceRef.t) : bool :=
  let id := ResourceRef.id ref in
  let live (retired : bool) (generation : Z) :=
    negb retired && (generation =? ResourceRef.generation ref) in
  match ResourceRef.kind ref with
  | ResourceKind.Processor =>
      match State.processors s !! id with
      | Some r => live (ProcessorRecord.retired r) (ProcessorRecord.generation r)
      | None => false
      end
  | ResourceKind.Accelerator =>
      match State.accelerators s !! id with
      | Some r => live (AcceleratorRecord.retired r) (AcceleratorRecord.generation r)
      | None => false
      end
  | ResourceKind.MemoryDomain =>
      match State.memory_domains s !! id with
      | Some r => live (MemoryDomainRecord.retired r) (MemoryDomainRecord.generation r)
      | None => false
      end
  | ResourceKind.CoherenceDomain =>
      match State.coherence_domains s !! id with
      | Some r => live (CoherenceDomainRecord.retired r) (CoherenceDomainRecord.generation r)
      | None => false
      end
  | ResourceKind.Node => match State.nodes s !! id with Some _ => true | None => false end
  | ResourceKind.Unknown | ResourceKind.Other _ => false
  end.

(** [bump_topology]: [now] is the reading of the monotonic clock. *)
Definition bump_topology (now : Z) (reason : string) (s : State.t) : State.t :=
  let g := next_id (State.topology_generation s) in
  let s := s <| State.topology_generation := g |>
             <| State.topology ::= λ t,
                  t <| TopologyRecord.generation := g |>
                    <| TopologyRecord.created_at_ns := now |>
                    <| TopologyRecord.loaded_from_state := false |> |> in
  record_stale (StaleEvidenceRecord.empty
                  <| StaleEvidenceRecord.kind := StaleEvidenceRecord.TopologySuperseded |>
                  <| StaleEvidenceRecord.observed_at_ns := now |>
                  <| StaleEvidenceRecord.detail := "topology generation advanced: " +:+ reason |>) s.

(** ** Attributing an observation *)

(** A stage either returns the final result or goes on with what it has. *)
Inductive flow (A : Type) : Type :=
  | Return (r : AttributionResult.t)
  | Continue (a : A).
Arguments Return {A} _.
Arguments Continue {A} _.

#[global] Instance flow_ret : MRet flow := fun A a => Continue a.
#[global] Instance flow_bind : MBind flow := fun A B f x =>
  match x with Return r => Return r | Continue a => f a end.

(** [add_reason(result, reason); result.outcome = outcome; return result;] *)
Definition conclude {A} (reason : string) (outcome : AttributionOutcome.t)
    (r : AttributionResult.t) : flow A :=
  Return ((add_reason reason r) <| AttributionResult.outcome := outcome |>).

Definition initial_bindings (s : State.t) (o : Observation.t) : GenerationBindings.t :=
  GenerationBindings.empty
    <| GenerationBindings.coordinator_epoch := State.coordinator_epoch s |>
    <| GenerationBindings.observation_epoch := State.observation_epoch s |>
    <| GenerationBindings.topology_generation := Observation.topology_generation o |>
    <| GenerationBindings.evidence_generation := Observation.evidence_generation o |>
    <| GenerationBindings.source_device_generation :=
         match Observation.source o with Some r => ResourceRef.generation r | None => 0 end |>
    <| GenerationBindings.target_device_generation :=
         match Observation.target o with Some r => ResourceRef.generation r | None => 0 end |>
    <| GenerationBindings.region_generation := default 0 (Observation.region_generation o) |>
    <| GenerationBindings.region_generation_bound := is_some (Observation.region_generation o) |>.

Definition initial_result (s : State.t) (o : Observation.t) : AttributionResult.t :=
  add_target AttributionTargetKind.EventClass (EventType.to_string (Observation.type o)) 0
    (AttributionResult.empty
       <| AttributionResult.event_type := Observation.type o |>
       <| AttributionResult.precision := Observation.precision o |>
       <| AttributionResult.provenance := Observation.provenance o |>
       <| AttributionResult.reality := reality_of (Observation.provenance o) |>
       <| AttributionResult.bindings := initial_bindings s o |>
       <| AttributionResult.region := default ""%string (Observation.region o) |>
       <| AttributionResult.region_generation := default 0 (Observation.region_generation o) |>).

Section stages.
Variables (s : State.t) (o : Observation.t).
Let policy := ObservatoryOptions.attribution_policy (State.options s).

(** Authority and currentness. *)
Definition check_authority (r : AttributionResult.t) : flow AttributionResult.t :=
  if AttributionPolicy.require_current_coordinator_epoch policy
     && negb (Observation.coordinator_epoch o =? State.coordinator_epoch s)
  then conclude attribution_reason.kStaleCoordinatorEpoch AttributionOutcome.StaleEvidence r
  else
    match State.publishers s !! Observation.source_publisher o with
    | None => conclude attribution_reason.kUnknownPublisher AttributionOutcome.Unattributed r
    | Some publisher =>
        let view := PublisherState.view publisher in
        if negb (PublisherView.boot view =? Observation.publisher_boot o)
        then conclude attribution_reason.kStalePublisher AttributionOutcome.StaleEvidence r
        else if AttributionPolicy.require_current_publisher policy
                && (negb (PublisherView.current view) || PublisherView.fenced view)
        then conclude attribution_reason.kStalePublisher AttributionOutcome.StaleEvidence r
        else if AttributionPolicy.require_current_topology policy
                && negb (Observation.topology_generation o =? State.topology_generation s)
        then conclude attribution_reason.kStaleTopology AttributionOutcome.StaleEvidence r
        else Continue r
    end.

(** Targets that a live region record brings with it. *)
Definition add_region_targets (record : RegionRecord.t) (r : AttributionResult.t)
    : AttributionResult.t :=
  let r := r <| AttributionResult.bindings ::= λ b,
                b <| GenerationBindings.region_generation := RegionRecord.generation record |>
                  <| GenerationBindings.region_generation_bound := true |> |> in
  let r := add_target AttributionTargetKind.Region (RegionRecord.id record)
             (RegionRecord.generation record) r in
  let r := if sempty (RegionRecord.memory_domain record) then r
           else (add_target AttributionTargetKind.MemoryDomain (RegionRecord.memory_domain record)
                   (RegionRecord.memory_domain_generation record) r)
                <| AttributionResult.bindings ::= λ b,
                     b <| GenerationBindings.source_domain_generation :=
                            RegionRecord.memory_domain_generation record |> |> in
  let r := if sempty (RegionRecord.coherence_domain record) then r
           else add_target AttributionTargetKind.CoherenceDomain
                  (RegionRecord.coherence_domain record) 0 r in
  if sempty (RegionRecord.workload record) then r
  else add_target AttributionTargetKind.Workload (RegionRecord.workload record) 0 r.

(** Region binding; the flag is [region_bound]. *)
Definition bind_region (r : AttributionResult.t) : flow (AttributionResult.t * bool) :=
  match Observation.region o with
  | None => Continue (r, false)
  | Some name =>
      match State.regions s !! name with
      | None => Continue (add_reason attribution_reason.kUnknownResource r, false)
      | Some record =>
          if RegionRecord.retired record
          then conclude attribution_reason.kRetiredRegion AttributionOutcome.StaleEvidence r
          else if AttributionPolicy.require_current_region_generation policy
                  && negb (bool_decide (Observation.region_generation o
                                        = Some (RegionRecord.generation record)))
          then conclude attribution_reason.kStaleRegionGeneration
                 AttributionOutcome.StaleEvidence r
          else Continue (add_region_targets record r, true)
      end
  end.

(** Capability gating. *)
Definition check_capabilities (r : AttributionResult.t) : flow AttributionResult.t :=
  let real := is_real_provenance (Observation.provenance o) in
  if real && bool_decide (Observation.granularity o = EvidenceGranularity.CacheLine)
     && negb (bool_decide (capability_status s kCapabilityCacheLineOwnership
                           = CapabilityStatus.Real))
  then conclude attribution_reason.kUnsupportedCapability AttributionOutcome.Unsupported r
  else if real && Observation.locality_declared o
          && is_cxl_class_locality (Observation.locality o)
          && negb (bool_decide (capability_status s kCapabilityCxlTelemetry
                                = CapabilityStatus.Real))
  then conclude attribution_reason.kUnsupportedCapability AttributionOutcome.Unsupported r
  else Continue r.

(** One endpoint: its target, then its currentness. *)
Definition bind_endpoint (ref : option ResourceRef.t)
    (set_generation : Z → GenerationBindings.t → GenerationBindings.t)
    (r : AttributionResult.t) : flow AttributionResult.t :=
  match ref with
  | None => Continue r
  | Some ref =>
      let r := add_resource_target ref r in
      if negb (resource_is_current s ref)
      then conclude attribution_reason.kStaleRegionGeneration AttributionOutcome.StaleEvidence r
      else Continue (r <| AttributionResult.bindings ::=
                            set_generation (ResourceRef.generation ref) |>)
  end.

Definition bind_coherence_domain (r : AttributionResult.t) : flow AttributionResult.t :=
  match Observation.coherence_domain o with
  | None => Continue r
  | Some name =>
      match State.coherence_domains s !! name with
      | None => Continue (add_reason attribution_reason.kUnknownResource r)
      | Some domain =>
          if CoherenceDomainRecord.retired domain
          then conclude attribution_reason.kRetiredRegion AttributionOutcome.StaleEvidence r
          else if match Observation.coherence_domain_generation o with
                  | Some g => negb (CoherenceDomainRecord.generation domain =? g)
                  | None => false
                  end
          then conclude attribution_reason.kStaleRegionGeneration
                 AttributionOutcome.StaleEvidence r
          else Continue (add_target AttributionTargetKind.CoherenceDomain
                           (CoherenceDomainRecord.id domain)
                           (CoherenceDomainRecord.generation domain) r)
      end
  end.

(** Resource and workload bindings. *)
Definition bind_resources (r : AttributionResult.t) : flow AttributionResult.t :=
  r ← bind_endpoint (Observation.source o)
        (λ g b, b <| GenerationBindings.source_device_generation := g |>) r;
  r ← bind_endpoint (Observation.target o)
        (λ g b, b <| GenerationBindings.target_device_generation := g |>) r;
  let r := match Observation.workload o with
           | Some w => add_target AttributionTargetKind.Workload w 0 r
           | None => r
           end in
  let r := match Observation.process o with
           | Some p => add_target AttributionTargetKind.Process p 0 r
           | None => r
           end in
  bind_coherence_domain r.
End stages.

(** Locality: declared by the source, derived from the topology, or both. *)
Definition declared_locality (o : Observation.t) : Locality.t :=
  if Observation.locality_declared o then Observation.locality o else Locality.Unknown.

Definition derived_locality (s : State.t) (o : Observation.t) : Locality.t :=
  match Observation.source o, Observation.target o with
  | Some src, Some dst =>
      if AttributionPolicy.derive_locality_from_topology
           (ObservatoryOptions.attribution_policy (State.options s))
      then locality_between (State.topology s) src dst
      else Locality.Unknown
  | _, _ => Locality.Unknown
  end.

Definition bind_edge (o : Observation.t) (derived : Locality.t) (r : AttributionResult.t)
    : AttributionResult.t :=
  match Observation.source o, Observation.target o with
  | Some src, Some dst =>
      if decide (derived = Locality.Unknown) then r
      else add_reason attribution_reason.kBoundToEdge
             (add_target AttributionTargetKind.TopologyEdge
                (ResourceRef.id src +:+ "->" +:+ ResourceRef.id dst) 0 r)
  | _, _ => r
  end.

Definition bind_locality (s : State.t) (o : Observation.t) (r : AttributionResult.t)
    : AttributionResult.t :=
  let declared := declared_locality o in
  let derived := derived_locality s o in
  let r := bind_edge o derived r in
  let unknown l := bool_decide (l = Locality.Unknown) in
  if negb (unknown declared) && negb (unknown derived)
     && negb (bool_decide (declared = derived))
  then
    (add_reason attribution_reason.kConflictingLocality r)
      <| AttributionResult.candidates ::= λ cs, cs ++
           ["declared:" +:+ Locality.to_string declared;
            "topology:" +:+ Locality.to_string derived] |>
      <| AttributionResult.candidate_count := 2 |>
  else
    let effective := if unknown declared then derived else declared in
    if unknown effective then r
    else
      add_reason attribution_reason.kBoundToLocality
        (add_target AttributionTargetKind.LocalityClass (Locality.to_string effective) 0
           (r <| AttributionResult.locality := effective |>
              <| AttributionResult.locality_established := true |>)).

Definition claims_region_level (o : Observation.t) : bool :=
  granularity_rank EvidenceGranularity.Region <=? granularity_rank (Observation.granularity o).

Definition sort_reasons (r : AttributionResult.t) : AttributionResult.t :=
  r <| AttributionResult.reasons ::= merge_sort key_le |>.

(** [std::unique]: keep the first of each run of equal neighbours. *)
Fixpoint unique (l : list string) : list string :=
  match l with
  | [] => []
  | x :: rest =>
      match rest with
      | y :: _ => if decide (x = y) then unique rest else x :: unique rest
      | [] => [x]
      end
  end.

(** Ambiguity: a region-level claim with several candidate regions. *)
Definition check_ambiguity (s : State.t) (o : Observation.t) (region_bound : bool)
    (r : AttributionResult.t) : flow AttributionResult.t :=
  match Observation.workload o with
  | Some workload =>
      if negb region_bound && claims_region_level o then
        let candidates := regions_for_workload s workload in
        if 1 <? zlen candidates then
          let r := (add_reason attribution_reason.kMultipleCandidates r)
                     <| AttributionResult.candidates := candidates |>
                     <| AttributionResult.candidate_count := zlen candidates |>
                     <| AttributionResult.outcome := AttributionOutcome.Ambiguous |> in
          Return (add_evidence o (sort_reasons r))
        else Continue r
      else Continue r
  | None => Continue r
  end.

Definition is_region_target (t : AttributionTarget.t) : bool :=
  bool_decide (AttributionTarget.kind t = AttributionTargetKind.Region).

(** The granularity does not support the region claim: drop it. *)
Definition drop_region_claim (r : AttributionResult.t) : AttributionResult.t :=
  r <| AttributionResult.targets ::= List.filter (λ t, negb (is_region_target t)) |>
    <| AttributionResult.region := ""%string |>
    <| AttributionResult.region_generation := 0 |>
    <| AttributionResult.bindings ::= λ b,
         b <| GenerationBindings.region_generation_bound := false |> |>
    <| AttributionResult.precision ::= λ p, weakest p Precision.AggregatedCounter |>.

Definition decide_outcome (o : Observation.t) (region_bound : bool) (r : AttributionResult.t)
    : AttributionResult.t :=
  if region_bound then
    if claims_region_level o then
      (add_reason attribution_reason.kBoundToRegionGeneration r)
        <| AttributionResult.outcome := AttributionOutcome.AttributedExact |>
    else
      drop_region_claim
        ((add_reason attribution_reason.kCoarseGranularity r)
           <| AttributionResult.outcome := AttributionOutcome.AttributedAggregateOnly |>)
  else if binds_any_subject r then
    (match Observation.region o with
     | None => add_reason attribution_reason.kNoRegionIdentified r
     | Some _ => r
     end) <| AttributionResult.outcome := AttributionOutcome.AttributedPartial |>
  else
    (add_reason attribution_reason.kNoSubject r)
      <| AttributionResult.outcome := AttributionOutcome.Unattributed |>.

Definition limit_counter_precision (o : Observation.t) (r : AttributionResult.t)
    : AttributionResult.t :=
  if is_some (Observation.counter_delta o)
     && negb (bool_decide (Observation.precision o = Precision.ExactCounterDelta))
     && (precision_rank Precision.ExactCounterDelta <? precision_rank (Observation.precision o))
  then
    (add_reason attribution_reason.kCounterScopeCoarser r)
      <| AttributionResult.precision ::= λ p, weakest p Precision.ExactCounterDelta |>
  else r.

Definition finish (o : Observation.t) (r : AttributionResult.t) : AttributionResult.t :=
  add_evidence o ((sort_reasons r) <| AttributionResult.reasons ::= unique |>).

Definition attribution_flow (s : State.t) (o : Observation.t) : flow AttributionResult.t :=
  r ← check_authority s o (initial_result s o);
  x ← bind_region s o r;
  let '(r, region_bound) := x in
  r ← check_capabilities s o r;
  r ← bind_resources s o r;
  let r := bind_locality s o r in
  r ← check_ambiguity s o region_bound r;
  let r := decide_outcome o region_bound r in
  mret (finish o (limit_counter_precision o r)).

Definition attribute_observation (s : State.t) (o : Observation.t) : AttributionResult.t :=
  match attribution_flow s o with Return r => r | Continue r => r end.

(** ** Attributing a region *)

Definition has_region_granularity (s : State.t) (region : string) : bool :=
  match State.region_evidence s !! region with
  | None => false
  | Some e =>
      existsb (λ x, granularity_rank EvidenceGranularity.Region
                    <=? granularity_rank (OwnershipSample.granularity x))
        (RegionEvidence.samples e)
  end.

Definition region_cost_inputs (b : AggregateValue.t) : CostInputs.t :=
  {| CostInputs.bytes := AggregateValue.bytes b;
     CostInputs.remote_reads := AggregateValue.remote_reads b;
     CostInputs.remote_writes := AggregateValue.remote_writes b;
     CostInputs.invalidations := AggregateValue.invalidations b;
     CostInputs.ownership_transfers := AggregateValue.ownership_transfers b;
     CostInputs.retries := AggregateValue.retries b;
     CostInputs.conflicts := AggregateValue.conflicts b;
     CostInputs.measured_duration_ns := -1;
     CostInputs.locality := Locality.Unknown;
     CostInputs.locality_known := false;
     CostInputs.precision := AggregateValue.weakest_precision b |}.

Definition region_result (s : State.t) (region : string) : AttributionResult.t :=
  add_target AttributionTargetKind.Region region 0
    (AttributionResult.empty
       <| AttributionResult.region := region |>
       <| AttributionResult.bindings ::= λ b,
            b <| GenerationBindings.coordinator_epoch := State.coordinator_epoch s |>
              <| GenerationBindings.observation_epoch := State.observation_epoch s |>
              <| GenerationBindings.topology_generation := State.topology_generation s |> |>).

Definition region_record_targets (record : RegionRecord.t) (r : AttributionResult.t)
    : AttributionResult.t :=
  let r := r <| AttributionResult.bindings ::= λ b,
                b <| GenerationBindings.region_generation := RegionRecord.generation record |>
                  <| GenerationBindings.region_generation_bound := true |> |>
             <| AttributionResult.targets := [] |> in
  let r := add_target AttributionTargetKind.Region (RegionRecord.id record)
             (RegionRecord.generation record) r in
  let r := if sempty (RegionRecord.memory_domain record) then r
           else add_target AttributionTargetKind.MemoryDomain (RegionRecord.memory_domain record)
                  (RegionRecord.memory_domain_generation record) r in
  let r := if sempty (RegionRecord.coherence_domain record) then r
           else add_target AttributionTargetKind.CoherenceDomain
                  (RegionRecord.coherence_domain record) 0 r in
  let r := if sempty (RegionRecord.workload record) then r
           else add_target AttributionTargetKind.Workload (RegionRecord.workload record) 0 r in
  add_target AttributionTargetKind.EventClass "AGGREGATE" 0 r.

Definition attribute_region_state (s : State.t) (region : string) : AttributionResult.t :=
  let r := region_result s region in
  match State.regions s !! region with
  | None =>
      (add_reason attribution_reason.kUnknownResource r)
        <| AttributionResult.outcome := AttributionOutcome.Unattributed |>
  | Some record =>
      let r := region_record_targets record r in
      if RegionRecord.retired record then
        (add_reason attribution_reason.kRetiredRegion r)
          <| AttributionResult.outcome := AttributionOutcome.StaleEvidence |>
      else
        match AggregateStore.find (AggregateKey.mk AggregateDimension.Region region)
                (State.aggregates s) with
        | Some bucket =>
            if AggregateValue.observations bucket =? 0 then
              (add_reason attribution_reason.kNoSubject r)
                <| AttributionResult.outcome := AttributionOutcome.Unattributed |>
            else
              let r := r <| AttributionResult.precision := AggregateValue.weakest_precision bucket |>
                         <| AttributionResult.provenance := Provenance.DerivedAggregation |>
                         <| AttributionResult.reality := AggregateValue.reality bucket |>
                         <| AttributionResult.cost :=
                              estimate_cost (ObservatoryOptions.cost_model (State.options s))
                                (region_cost_inputs bucket) |> in
              sort_reasons
                (if has_region_granularity s region then
                   (add_reason attribution_reason.kBoundToRegionGeneration r)
                     <| AttributionResult.outcome := AttributionOutcome.AttributedExact |>
                 else
                   (add_reason attribution_reason.kCoarseGranularity r)
                     <| AttributionResult.outcome := AttributionOutcome.AttributedAggregateOnly |>)
        | None =>
            (add_reason attribution_reason.kNoSubject r)
              <| AttributionResult.outcome := AttributionOutcome.Unattributed |>
        end
  end.

(** ** When evidence is current

    The conditions under which each stage lets an observation through. *)

Section conditions.
Variables (s : State.t) (o : Observation.t).
Let policy := ObservatoryOptions.attribution_policy (State.options s).

(** The live coordinator epoch, the live unfenced boot of a registered
    publisher, the live topology generation. *)
Definition authority_ok : Prop :=
  (AttributionPolicy.require_current_coordinator_epoch policy = true →
   Observation.coordinator_epoch o = State.coordinator_epoch s)
  ∧ (∃ p, State.publishers s !! Observation.source_publisher o = Some p
     ∧ PublisherView.boot (PublisherState.view p) = Observation.publisher_boot o
     ∧ (AttributionPolicy.require_current_publisher policy = true →
        PublisherView.current (PublisherState.view p) = true
        ∧ PublisherView.fenced (PublisherState.view p) = false))
  ∧ (AttributionPolicy.require_current_topology policy = true →
     Observation.topology_generation o = State.topology_generation s).

(** The named region is registered, not retired, and at the named generation. *)
Definition region_live : Prop :=
  ∃ name record, Observation.region o = Some name ∧ State.regions s !! name = Some record
    ∧ RegionRecord.retired record = false
    ∧ (AttributionPolicy.require_current_region_generation policy = true →
       Observation.region_generation o = Some (RegionRecord.generation record)).

(** Real evidence of cache lines, or of CXL-class memory, needs the host's
    capability for it. *)
Definition capabilities_ok : Prop :=
  is_real_provenance (Observation.provenance o) = true →
  (Observation.granularity o = EvidenceGranularity.CacheLine →
   capability_status s kCapabilityCacheLineOwnership = CapabilityStatus.Real)
  ∧ (Observation.locality_declared o = true →
     is_cxl_class_locality (Observation.locality o) = true →
     capability_status s kCapabilityCxlTelemetry = CapabilityStatus.Real).

Definition endpoints_current : Prop :=
  ∀ ref, Observation.source o = Some ref ∨ Observation.target o = Some ref →
  resource_is_current s ref = true.

(** A coherence domain that is named and registered is live at the named
    generation. *)
Definition domain_ok : Prop :=
  ∀ name d, Observation.coherence_domain o = Some name →
  State.coherence_domains s !! name = Some d →
  CoherenceDomainRecord.retired d = false
  ∧ (∀ g, Observation.coherence_domain_generation o = Some g →
     CoherenceDomainRecord.generation d = g).
End conditions.

(** Outcomes a [conclude] stage may produce before the final decision. *)
Definition is_refusal (out : AttributionOutcome.t) : Prop :=
  out = AttributionOutcome.StaleEvidence ∨ out = AttributionOutcome.Unattributed
  ∨ out = AttributionOutcome.Unsupported.

(** The guards of the stages as implications. *)
Lemma guard_eqb b x y : b && negb (x =? y) = false ↔ (b = true → x = y).
Proof. destruct b, (Z.eqb_spec x y); simpl; naive_solver. Qed.
Lemma guard_unless b c f : b && (negb c || f) = false ↔ (b = true → c = true ∧ f = false).
Proof. destruct b, c, f; simpl; naive_solver. Qed.
Lemma guard_decide (b : bool) (P : Prop) `{!Decision P} :
  b && negb (bool_decide P) = false ↔ (b = true → P).
Proof. destruct b; simpl; [|naive_solver]. rewrite negb_false_iff, bool_decide_eq_true. naive_solver. Qed.

Section stage_lemmas.
Variables (s : State.t) (o : Observation.t).

(** A stage that lets the observation through says its condition holds, and
    one that stops says so with a refusal. *)
Lemma check_authority_inv r :
  match check_authority s o r with
  | Continue r' => r' = r ∧ authority_ok s o
  | Return r' => ∃ reason out, r' = (add_reason reason r) <| AttributionResult.outcome := out |>
                               ∧ is_refusal out
  end.
Proof.
  unfold check_authority, authority_ok, conclude, is_refusal.
  destruct (_ && negb _) eqn:E1; [eauto 6|]. rewrite guard_eqb in E1.
  destruct (State.publishers s !! _) as [p|]; [|eauto 7].
  destruct (Z.eqb_spec (PublisherView.boot (PublisherState.view p)) (Observation.publisher_boot o))
    as [E2|]; simpl; [|eauto 6].
  destruct (_ && (_ || _)) eqn:E3; [eauto 6|]. rewrite guard_unless in E3.
  destruct (_ && negb _) eqn:E4; [eauto 6|]. rewrite guard_eqb in E4. eauto 8.
Qed.

Lemma check_authority_ok r : authority_ok s o → check_authority s o r = Continue r.
Proof.
  unfold check_authority, authority_ok. intros (E1 & (p & Ep & Eb & E3) & E4).
  apply guard_eqb in E1, E4. apply guard_unless in E3. rewrite E1, Ep, Eb, Z.eqb_refl, E3, E4. done.
Qed.

Lemma bind_region_inv r :
  match bind_region s o r with
  | Continue (r', true) => region_live s o ∧ ∃ record, r' = add_region_targets record r
  | Continue (r', false) => r' = r ∨ r' = add_reason attribution_reason.kUnknownResource r
  | Return r' => ∃ reason, r' = (add_reason reason r)
                                  <| AttributionResult.outcome := AttributionOutcome.StaleEvidence |>
  end.
Proof.
  unfold bind_region, region_live, conclude. destruct (Observation.region o) as [name|]; [|eauto].
  destruct (State.regions s !! name) as [record|] eqn:E; [|eauto].
  destruct (RegionRecord.retired record) eqn:Er; [eauto|].
  destruct (_ && negb _) eqn:Eg; [eauto|]. rewrite guard_decide in Eg. eauto 10.
Qed.

Lemma bind_region_ok r :
  region_live s o → ∃ record, bind_region s o r = Continue (add_region_targets record r, true).
Proof.
  unfold bind_region. intros (name & record & -> & -> & -> & Eg).
  rewrite (proj2 (guard_decide _ _) Eg). eauto.
Qed.

Lemma check_capabilities_inv r :
  match check_capabilities s o r with
  | Continue r' => r' = r ∧ capabilities_ok s o
  | Return r' => r' = (add_reason attribution_reason.kUnsupportedCapability r)
                        <| AttributionResult.outcome := AttributionOutcome.Unsupported |>
  end.
Proof.
  unfold check_capabilities, capabilities_ok, conclude.
  destruct (_ && negb _) eqn:E1; [done|]. destruct (_ && _ && _ && _) eqn:E2; [done|].
  rewrite guard_decide in E1, E2. rewrite !andb_true_iff in E1, E2. rewrite bool_decide_eq_true in E1.
  split; [done|]. intros Hr. split; [intros Hg; by apply E1|intros Hl Hc; apply E2; by rewrite Hr, Hl].
Qed.

Lemma check_capabilities_ok r : capabilities_ok s o → check_capabilities s o r = Continue r.
Proof.
  unfold check_capabilities, capabilities_ok. intros H.
  rewrite (proj2 (guard_decide _ _)), (proj2 (guard_decide _ _)); [done| |];
    rewrite !andb_true_iff, ?bool_decide_eq_true; naive_solver.
Qed.

Lemma bind_endpoint_inv ref set r :
  match bind_endpoint s ref set r with
  | Continue _ => ∀ x, ref = Some x → resource_is_current s x = true
  | Return r' => AttributionResult.outcome r' = AttributionOutcome.StaleEvidence
  end.
Proof.
  unfold bind_endpoint, conclude. destruct ref as [x|]; [|done].
  destruct (resource_is_current s x) eqn:E; simpl; [|done]. naive_solver.
Qed.

Lemma bind_coherence_domain_inv r :
  match bind_coherence_domain s o r with
  | Continue _ => domain_ok s o
  | Return r' => AttributionResult.outcome r' = AttributionOutcome.StaleEvidence
  end.
Proof.
  unfold bind_coherence_domain, conclude, domain_ok.
  destruct (Observation.coherence_domain o) as [name|]; [|done].
  destruct (State.coherence_domains s !! name) as [d|] eqn:E; [|naive_solver].
  destruct (CoherenceDomainRecord.retired d) eqn:Er; [done|].
  destruct (Observation.coherence_domain_generation o) as [g|];
    [destruct (Z.eqb_spec (CoherenceDomainRecord.generation d) g)|]; simpl; try done; naive_solver.
Qed.

Lemma bind_resources_inv r :
  match bind_resources s o r with
  | Continue _ => endpoints_current s o ∧ domain_ok s o
  | Return r' => AttributionResult.outcome r' = AttributionOutcome.StaleEvidence
  end.
Proof.
  unfold bind_resources.
  match goal with |- context [bind_endpoint s (Observation.source o) ?f r] =>
    pose proof (bind_endpoint_inv (Observation.source o) f r) as H1; revert H1;
    destruct (bind_endpoint s (Observation.source o) f r) as [r1|r1]; cbn; intros H1; [done|] end.
  match goal with |- context [bind_endpoint s (Observation.target o) ?f r1] =>
    pose proof (bind_endpoint_inv (Observation.target o) f r1) as H2; revert H2;
    destruct (bind_endpoint s (Observation.target o) f r1) as [r2|r2]; cbn; intros H2; [done|] end.
  match goal with |- context [bind_coherence_domain s o ?x] =>
    pose proof (bind_coherence_domain_inv x) as H3; revert H3;
    destruct (bind_coherence_domain s o x) as [r3|r3]; intros H3; [done|] end.
  split; [|done]. intros ref [E|E]; eauto.
Qed.

Lemma bind_resources_ok r :
  endpoints_current s o → domain_ok s o → ∃ r', bind_resources s o r = Continue r'.
Proof.
  intros He Hd. unfold bind_resources.
  assert (Hep : ∀ ref set r, (∀ x, ref = Some x → resource_is_current s x = true) →
    ∃ r', bind_endpoint s ref set r = Continue r').
  { intros ref set r0 Hc. unfold bind_endpoint. destruct ref as [x|]; [|eauto].
    rewrite (Hc x eq_refl). simpl. eauto. }
  edestruct (Hep (Observation.source o)) as [r1 ->]; [intros x E; apply He; by left|]. cbn.
  edestruct (Hep (Observation.target o)) as [r2 ->]; [intros x E; apply He; by right|]. cbn.
  unfold bind_coherence_domain. destruct (Observation.coherence_domain o) as [name|] eqn:En; [|eauto].
  destruct (State.coherence_domains s !! name) as [d|] eqn:Ed; [|eauto].
  destruct (Hd name d En Ed) as [-> Hg].
  destruct (Observation.coherence_domain_generation o) as [g|]; [|eauto].
  rewrite (Hg g eq_refl), Z.eqb_refl. simpl. eauto.
Qed.
End stage_lemmas.

Lemma add_reason_outcome reason r :
  AttributionResult.outcome (add_reason reason r) = AttributionResult.outcome r.
Proof. unfold add_reason. by case_match. Qed.
Lemma add_evidence_outcome o r :
  AttributionResult.outcome (add_evidence o r) = AttributionResult.outcome r.
Proof. unfold add_evidence. by case_match. Qed.

Lemma finish_outcome o r :
  AttributionResult.outcome (finish o (limit_counter_precision o r)) = AttributionResult.outcome r.
Proof.
  unfold finish. rewrite add_evidence_outcome. cbn. unfold limit_counter_precision.
  destruct (_ && _); [|done]. cbn. by rewrite add_reason_outcome.
Qed.

Lemma check_ambiguity_inv s o rb r :
  match check_ambiguity s o rb r with
  | Continue r' => r' = r
  | Return r' => rb = false ∧ AttributionResult.outcome r' = AttributionOutcome.Ambiguous
  end.
Proof.
  unfold check_ambiguity. destruct (Observation.workload o); [|done].
  destruct rb; [done|]. simpl. destruct (claims_region_level o); [|done].
  destruct (1 <? _); [|done]. split; [done|]. by rewrite add_evidence_outcome.
Qed.

(** The whole pipeline: it stops with a refusal or an ambiguity, or reaches the
    final decision with every currentness condition met. *)
Lemma attribution_flow_inv s o :
  match attribution_flow s o with
  | Return r => is_refusal (AttributionResult.outcome r)
                ∨ AttributionResult.outcome r = AttributionOutcome.Ambiguous
  | Continue r =>
      authority_ok s o ∧ capabilities_ok s o ∧ endpoints_current s o ∧ domain_ok s o
      ∧ ∃ region_bound r0, (region_bound = true → region_live s o)
        ∧ r = finish o (limit_counter_precision o (decide_outcome o region_bound r0))
  end.
Proof.
  unfold attribution_flow, is_refusal.
  pose proof (check_authority_inv s o (initial_result s o)) as H1.
  destruct (check_authority s o _) as [r1|r1]; cbn.
  { destruct H1 as (reason & out & -> & H). by left. }
  destruct H1 as [-> Hauth]. pose proof (bind_region_inv s o (initial_result s o)) as H2.
  destruct (bind_region s o _) as [r2|[r2 rb]]; cbn.
  { destruct H2 as [reason ->]. left. by left. }
  assert (Hlive : rb = true → region_live s o) by (intros ->; by destruct H2).
  pose proof (check_capabilities_inv s o r2) as H3.
  destruct (check_capabilities s o r2) as [r3|r3]; cbn; [subst r3; left; right; right; reflexivity|].
  destruct H3 as [-> Hcap]. pose proof (bind_resources_inv s o r2) as H4.
  destruct (bind_resources s o r2) as [r4|r4]; cbn; [left; left; exact H4|].
  destruct H4 as [He Hd]. pose proof (check_ambiguity_inv s o rb (bind_locality s o r4)) as H5.
  destruct (check_ambiguity s o rb _) as [r5|r5]; cbn; [right; by destruct H5|].
  split_and!; [done..|]. by exists rb, r5.
Qed.

Lemma decide_outcome_exact o rb r :
  AttributionResult.outcome (decide_outcome o rb r) = AttributionOutcome.AttributedExact
  ↔ rb = true ∧ claims_region_level o = true.
Proof.
  unfold decide_outcome. destruct rb; [destruct (claims_region_level o); naive_solver|].
  destruct (binds_any_subject r); naive_solver.
Qed.

Lemma attributed_exact_inv s o :
  AttributionResult.outcome (attribute_observation s o) = AttributionOutcome.AttributedExact →
  authority_ok s o ∧ region_live s o ∧ capabilities_ok s o ∧ endpoints_current s o
  ∧ domain_ok s o ∧ claims_region_level o = true.
Proof.
  unfold attribute_observation.
  pose proof (attribution_flow_inv s o) as H. destruct (attribution_flow s o) as [r|r].
  - intros E. unfold is_refusal in H. rewrite E in H. naive_solver.
  - destruct H as (Ha & Hc & He & Hd & rb & r0 & Hl & ->).
    rewrite finish_outcome, decide_outcome_exact. intros [-> Hg]. split_and!; auto.
Qed.

(** Claim C18. Evidence is charged to a specific region exactly when that is
    justified: the outcome is AttributedExact if and only if the observation comes
    from the live epoch, the live unfenced boot of a registered publisher and the
    live topology (as far as the policy requires), names a registered, unretired
    region at its live generation, has endpoints that are current, names no stale
    coherence domain, claims no capability the host lacks, and is fine enough to
    resolve a region. *)
Theorem attributed_exact_iff (s : State.t) (o : Observation.t) :
  AttributionResult.outcome (attribute_observation s o) = AttributionOutcome.AttributedExact
  ↔ authority_ok s o ∧ region_live s o ∧ capabilities_ok s o ∧ endpoints_current s o
    ∧ domain_ok s o ∧ claims_region_level o = true.
Proof.
  split; [apply attributed_exact_inv|]. unfold attribute_observation.
  intros (Ha & Hl & Hc & He & Hd & Hg). unfold attribution_flow.
  rewrite check_authority_ok by done. cbn.
  destruct (bind_region_ok s o (initial_result s o) Hl) as [record ->]. cbn.
  rewrite check_capabilities_ok by done. cbn.
  destruct (bind_resources_ok s o (add_region_targets record (initial_result s o)) He Hd) as [r ->]. cbn.
  pose proof (check_ambiguity_inv s o true (bind_locality s o r)) as Hamb.
  destruct (check_ambiguity s o true _) as [r'|r']; [by destruct Hamb|].
  etransitivity; [apply finish_outcome|]. by rewrite Hg.
Qed.

(** ** Bounds on results

    What every stage maintains of the result under construction: bounded targets
    without repetition, reasons without repetition, bounded evidence, and a
    precision no stronger than that of the observation. *)

Record attribution_ok (p : Precision.t) (r : AttributionResult.t) : Prop := {
  ok_targets_bound : zlen (AttributionResult.targets r) ≤ Limits.kMaxAttributionTargets;
  ok_targets_nodup : NoDup (AttributionResult.targets r);
  ok_reasons_nodup : NoDup (AttributionResult.reasons r);
  ok_evidence_bound : zlen (AttributionResult.evidence r) ≤ Limits.kMaxEvidenceRefs;
  ok_precision : precision_rank (AttributionResult.precision r) ≤ precision_rank p;
}.

Section attribution_ok.
Variable p : Precision.t.
Implicit Types r : AttributionResult.t.

(** Updates of the other fields. *)
Lemma update_ok {E} (q : AttributionResult.t → E) `{!Update q} g r :
  (∀ r, AttributionResult.targets (update_field (p:=q) g r) = AttributionResult.targets r) →
  (∀ r, AttributionResult.reasons (update_field (p:=q) g r) = AttributionResult.reasons r) →
  (∀ r, AttributionResult.evidence (update_field (p:=q) g r) = AttributionResult.evidence r) →
  (∀ r, AttributionResult.precision (update_field (p:=q) g r) = AttributionResult.precision r) →
  attribution_ok p r → attribution_ok p (update_field (p:=q) g r).
Proof. intros E1 E2 E3 E4 []. constructor; rewrite ?E1, ?E2, ?E3, ?E4; done. Qed.

Lemma add_target_ok k v g r : attribution_ok p r → attribution_ok p (add_target k v g r).
Proof.
  intros H. unfold add_target. case_match; [done|].
  destruct (Z.leb_spec Limits.kMaxAttributionTargets (zlen (AttributionResult.targets r))); [done|].
  case_bool_decide as Hin; [done|]. destruct H. constructor; try done; cbn.
  - rewrite zlen_app, zlen_cons, zlen_nil. lia.
  - apply NoDup_app. split_and!; [done| |apply NoDup_singleton].
    intros x Hx. rewrite list_elem_of_singleton. by intros ->.
Qed.

Lemma add_reason_ok x r : attribution_ok p r → attribution_ok p (add_reason x r).
Proof.
  intros H. unfold add_reason. case_bool_decide as Hin; [done|]. destruct H.
  constructor; try done; cbn. apply NoDup_app. split_and!; [done| |apply NoDup_singleton].
  intros y Hy. rewrite list_elem_of_singleton. by intros ->.
Qed.

Lemma add_evidence_ok o r : attribution_ok p r → attribution_ok p (add_evidence o r).
Proof.
  intros H. unfold add_evidence.
  destruct (Z.leb_spec Limits.kMaxEvidenceRefs (zlen (AttributionResult.evidence r))); [done|].
  destruct H. constructor; try done; cbn. rewrite zlen_app, zlen_cons, zlen_nil. lia.
Qed.

Lemma add_resource_target_ok ref r : attribution_ok p r → attribution_ok p (add_resource_target ref r).
Proof. intros H. unfold add_resource_target. repeat case_match; auto using add_target_ok. Qed.

Lemma sort_reasons_ok r : attribution_ok p r → attribution_ok p (sort_reasons r).
Proof.
  intros []. constructor; try done. cbn. by rewrite merge_sort_Permutation.
Qed.

Lemma unique_sublist l : unique l `sublist_of` l.
Proof.
  induction l as [|x l IH]; [done|]. cbn [unique]. destruct l as [|y l]; [done|].
  case_decide; [by apply sublist_cons|by apply sublist_skip].
Qed.

Lemma unique_ok r :
  attribution_ok p r → attribution_ok p (r <| AttributionResult.reasons ::= unique |>).
Proof.
  intros []. constructor; try done. cbn. eapply sublist_NoDup; [done|apply unique_sublist].
Qed.

Lemma weaken_ok q r :
  attribution_ok p r → attribution_ok p (r <| AttributionResult.precision ::= λ x, weakest x q |>).
Proof. intros []. constructor; try done. cbn. rewrite weakest_rank. lia. Qed.

Lemma filter_targets_ok f r :
  attribution_ok p r → attribution_ok p (r <| AttributionResult.targets ::= List.filter f |>).
Proof.
  intros []. constructor; try done; cbn.
  - etransitivity; [|done]. unfold zlen. apply Nat2Z.inj_le, List.filter_length_le.
  - by apply NoDup_ListNoDup, List.NoDup_filter, NoDup_ListNoDup.
Qed.
End attribution_ok.

(** Peels the last step off a result. *)
Ltac ok_step :=
  first [ assumption
        | apply add_target_ok | apply add_reason_ok | apply add_evidence_ok
        | apply add_resource_target_ok | apply sort_reasons_ok | apply unique_ok
        | apply weaken_ok | apply filter_targets_ok
        | apply update_ok; [reflexivity..|] ].
Ltac ok_solve := repeat ok_step.

Definition flow_ok {A} (p : Precision.t) (get : A → AttributionResult.t) (f : flow A) : Prop :=
  match f with Return r => attribution_ok p r | Continue a => attribution_ok p (get a) end.

Section stages_ok.
Variables (s : State.t) (o : Observation.t).
Let p := Observation.precision o.

Lemma initial_result_ok : attribution_ok p (initial_result s o).
Proof.
  unfold initial_result. apply add_target_ok.
  constructor; cbn; try done; constructor.
Qed.

Lemma check_authority_keeps r : attribution_ok p r → flow_ok p id (check_authority s o r).
Proof. intros H. unfold check_authority, conclude. repeat case_match; cbn [flow_ok id]; ok_solve. Qed.

Lemma bind_region_keeps r : attribution_ok p r → flow_ok p fst (bind_region s o r).
Proof.
  intros H. unfold bind_region, conclude, add_region_targets. repeat case_match; cbn [flow_ok fst]; ok_solve.
Qed.

Lemma check_capabilities_keeps r : attribution_ok p r → flow_ok p id (check_capabilities s o r).
Proof. intros H. unfold check_capabilities, conclude. repeat case_match; cbn [flow_ok id]; ok_solve. Qed.
Lemma bind_endpoint_keeps ref set r :
  attribution_ok p r → flow_ok p id (bind_endpoint s ref set r).
Proof. intros H. unfold bind_endpoint, conclude. repeat case_match; cbn [flow_ok id]; ok_solve. Qed.

Lemma bind_coherence_domain_keeps r :
  attribution_ok p r → flow_ok p id (bind_coherence_domain s o r).
Proof.
  intros H. unfold bind_coherence_domain, conclude. repeat case_match; cbn [flow_ok id]; ok_solve.
Qed.

Lemma bind_locality_keeps r : attribution_ok p r → attribution_ok p (bind_locality s o r).
Proof.
  intros H. unfold bind_locality, bind_edge.
  destruct (Observation.source o), (Observation.target o);
    repeat case_match; ok_solve.
Qed.

Lemma check_ambiguity_keeps rb r : attribution_ok p r → flow_ok p id (check_ambiguity s o rb r).
Proof. intros H. unfold check_ambiguity. repeat case_match; cbn [flow_ok id]; ok_solve. Qed.

Lemma decide_outcome_keeps rb r : attribution_ok p r → attribution_ok p (decide_outcome o rb r).
Proof. intros H. unfold decide_outcome, drop_region_claim. repeat case_match; ok_solve. Qed.

Lemma finish_keeps r : attribution_ok p r → attribution_ok p (finish o (limit_counter_precision o r)).
Proof. intros H. unfold finish, limit_counter_precision. case_match; ok_solve. Qed.
End stages_ok.

Lemma flow_ok_bind {A B} p (get : A → AttributionResult.t) (get' : B → AttributionResult.t)
    (f : flow A) (k : A → flow B) :
  flow_ok p get f → (∀ a, attribution_ok p (get a) → flow_ok p get' (k a)) →
  flow_ok p get' (f ≫= k).
Proof. destruct f as [r|a]; cbn; auto. Qed.

Lemma attribution_flow_ok s o : flow_ok (Observation.precision o) id (attribution_flow s o).
Proof.
  unfold attribution_flow. apply (flow_ok_bind _ id); [apply check_authority_keeps, initial_result_ok|].
  intros r1 H1. apply (flow_ok_bind _ fst); [by apply bind_region_keeps|].
  intros [r2 rb] H2. apply (flow_ok_bind _ id); [by apply check_capabilities_keeps|].
  intros r3 H3. apply (flow_ok_bind _ id).
  { unfold bind_resources. apply (flow_ok_bind _ id); [by apply bind_endpoint_keeps|]. intros r4 H4.
    apply (flow_ok_bind _ id); [by apply bind_endpoint_keeps|]. intros r5 H5.
    apply bind_coherence_domain_keeps. repeat case_match; ok_solve. }
  intros r6 H6. apply (flow_ok_bind _ id); [by apply check_ambiguity_keeps, bind_locality_keeps|].
  intros r7 H7. cbn [flow_ok mret flow_ret id]. by apply finish_keeps, decide_outcome_keeps.
Qed.

(** An attribution never overstates its evidence and never grows without
    bound: for every state and observation the result has at most sixteen distinct
    targets, no reason twice, at most thirty-two evidence references, and a
    precision no stronger than the observation's. *)
Theorem attribution_within_evidence (s : State.t) (o : Observation.t) :
  let r := attribute_observation s o in
  zlen (AttributionResult.targets r) ≤ Limits.kMaxAttributionTargets
  ∧ NoDup (AttributionResult.targets r) ∧ NoDup (AttributionResult.reasons r)
  ∧ zlen (AttributionResult.evidence r) ≤ Limits.kMaxEvidenceRefs
  ∧ precision_rank (AttributionResult.precision r) ≤ precision_rank (Observation.precision o).
Proof.
  cbn zeta. pose proof (attribution_flow_ok s o) as H. unfold attribute_observation.
  destruct (attribution_flow s o) as [r|r]; by destruct H.
Qed.

(** The last two steps touch neither targets nor region bindings, and cap the
    precision of counter-derived evidence. *)
Lemma finish_frame {X} (q : AttributionResult.t → X) o r :
  (∀ g r, q (update_field (p:=AttributionResult.reasons) g r) = q r) →
  (∀ g r, q (update_field (p:=AttributionResult.evidence) g r) = q r) →
  q (finish o r) = q r.
Proof.
  intros H1 H2. unfold finish, add_evidence, sort_reasons. case_match; rewrite ?H2, ?H1; done.
Qed.

Lemma limit_frame {X} (q : AttributionResult.t → X) o r :
  (∀ g r, q (update_field (p:=AttributionResult.reasons) g r) = q r) →
  (∀ g r, q (update_field (p:=AttributionResult.precision) g r) = q r) →
  q (limit_counter_precision o r) = q r.
Proof.
  intros H1 H2. unfold limit_counter_precision, add_reason. repeat case_match; rewrite ?H2, ?H1; done.
Qed.

Lemma add_reason_precision x r :
  AttributionResult.precision (add_reason x r) = AttributionResult.precision r.
Proof. unfold add_reason. by case_match. Qed.

Lemma limit_precision o r :
  precision_rank (AttributionResult.precision (limit_counter_precision o r))
    ≤ precision_rank (AttributionResult.precision r)
  ∧ (is_Some (Observation.counter_delta o) →
     precision_rank (AttributionResult.precision (limit_counter_precision o r))
       ≤ precision_rank (Observation.precision o) →
     precision_rank (AttributionResult.precision (limit_counter_precision o r))
       ≤ precision_rank Precision.ExactCounterDelta).
Proof.
  unfold limit_counter_precision. destruct (_ && _ && _) eqn:E; cbn; rewrite ?add_reason_precision.
  - rewrite weakest_rank. split; lia.
  - split; [done|]. intros [d Hd] Hr. rewrite Hd in E. simpl in E.
    apply andb_false_iff in E as [E|E]; [|apply Z.ltb_ge in E; lia].
    apply negb_false_iff, bool_decide_eq_true in E. by rewrite E in Hr.
Qed.

(** A region claim the evidence cannot support is withdrawn: when the
    outcome is AttributedAggregateOnly the result names no region, has no region
    target and no region generation bound, and its precision is at most that of an
    aggregated counter; and whenever a subject is bound, evidence derived from a
    counter is reported at most as an exact counter delta. *)
Theorem unsupported_region_claim_withdrawn (s : State.t) (o : Observation.t) :
  let r := attribute_observation s o in
  (AttributionResult.outcome r = AttributionOutcome.AttributedAggregateOnly →
   AttributionResult.region r = ""%string ∧ AttributionResult.region_generation r = 0
   ∧ GenerationBindings.region_generation_bound (AttributionResult.bindings r) = false
   ∧ Forall (λ t, AttributionTarget.kind t ≠ AttributionTargetKind.Region)
       (AttributionResult.targets r)
   ∧ precision_rank (AttributionResult.precision r) ≤ precision_rank Precision.AggregatedCounter)
  ∧ (AttributionResult.bound r = true → is_Some (Observation.counter_delta o) →
     precision_rank (AttributionResult.precision r) ≤ precision_rank Precision.ExactCounterDelta).
Proof.
  cbn zeta. pose proof (attribution_flow_inv s o) as Hinv. unfold attribute_observation.
  destruct (attribution_flow s o) as [r|r] eqn:Ef.
  { unfold AttributionResult.bound, is_refusal in *. split.
    - intros E. rewrite E in Hinv. naive_solver.
    - intros E. exfalso. destruct Hinv as [[H|[H|H]]|H]; rewrite H in E; discriminate E. }
  destruct Hinv as (_ & _ & _ & _ & rb & r0 & _ & ->).
  set (r1 := decide_outcome o rb r0) in *. split.
  - rewrite finish_outcome. intros E.
    assert (Hd : ∃ r2, r1 = drop_region_claim r2).
    { unfold r1, decide_outcome in *. destruct rb; [destruct (claims_region_level o)|]; [done|eauto|].
      destruct (binds_any_subject r0); done. }
    destruct Hd as [r2 Hd]. destruct (limit_precision o r1) as [Hp _].
    rewrite !finish_frame by reflexivity. rewrite !(limit_frame _ o r1) by reflexivity.
    rewrite Hd in Hp |- *. split_and!; [reflexivity..| |].
    + cbn. apply Forall_forall. intros t Ht. apply list_elem_of_In, List.filter_In in Ht as [_ Ht].
      unfold is_region_target in Ht. by apply negb_true_iff, bool_decide_eq_false in Ht.
    + cbn in Hp. rewrite weakest_rank in Hp. lia.
  - intros _ Hc. rewrite finish_frame by reflexivity.
    destruct (limit_precision o r1) as [_ Hp]. apply Hp; [done|].
    pose proof (attribution_flow_ok s o) as Hok. rewrite Ef in Hok. cbn [flow_ok id] in Hok.
    destruct Hok as [_ _ _ _ Hok]. rewrite finish_frame in Hok by reflexivity. exact Hok.
Qed.

(** ** Boot keys *)

Lemma string_cons_app x a k : String x a +:+ k = String x (a +:+ k).
Proof. reflexivity. Qed.
Lemma string_nil_app k : "" +:+ k = k.
Proof. reflexivity. Qed.

(** Digits hold no ['#']. *)
Lemma digits_no_hash a d : ~ all_chars is_digit_char (a +:+ String "#"%char d).
Proof.
  induction a as [|z a IH]; rewrite ?string_cons_app, ?string_nil_app; intros [H H'].
  - destruct H as [H _]. vm_compute in H. congruence.
  - done.
Qed.

(** A suffix without ['#'] after the last ['#'] splits the key uniquely. *)
Lemma boot_key_split a b d e :
  all_chars is_digit_char d → all_chars is_digit_char e →
  a +:+ String "#"%char d = b +:+ String "#"%char e → a = b ∧ d = e.
Proof.
  intros Hd He. revert b. induction a as [|x a IH]; intros [|y b];
    rewrite ?string_cons_app, ?string_nil_app.
  - intros [= ->]. done.
  - intros [= <- ->]. by apply digits_no_hash in Hd.
  - intros [= -> <-]. by apply digits_no_hash in He.
  - intros [= -> E]. apply IH in E as [-> ->]. done.
Qed.

Lemma boot_key_inj p q a b : 0 ≤ a → 0 ≤ b → boot_key p a = boot_key q b → p = q ∧ a = b.
Proof.
  intros Ha Hb E. unfold boot_key in E.
  apply boot_key_split in E as [-> E]; [|apply format_u64_digits..].
  split; [done|]. by apply format_u64_inj.
Qed.

(** The replay-protection key of a publisher boot identifies it: two
    (publisher, boot) pairs share a key only when they are the same pair, although
    publisher names may themselves contain the separator. *)
Theorem boot_key_injective (p q : string) (a b : Z) :
  0 ≤ a → 0 ≤ b → boot_key p a = boot_key q b → p = q ∧ a = b.
Proof. apply boot_key_inj. Qed.

Lemma boot_key_injective_witness : boot_key "pub#1" 2 ≠ boot_key "pub" 12.
Proof. intros E. by destruct (boot_key_injective "pub#1" "pub" 2 12 ltac:(lia) ltac:(lia) E). Defined.
