(* ===== verification/Registry.v ===== *)
(** * Structural registration

    The registration half of [src/observatory.cpp]: the constructor, nodes,
    processors, accelerators, memory and coherence domains, regions and their
    retirement, topology links and generation, capabilities and cost model.

    An operation that fails leaves the state alone, so each returns the new
    state in the [result].  The mutex serialises calls, so an operation is one
    step; [now] is the reading of the monotonic clock it would take. *)

From S2P Require Import Prelude Errors TextUtil Ids Taxonomy Policies Cost Records Observation.
From S2P Require Import Aggregate Sequence State Attribution.

(** ** Construction *)

Definition default_capabilities : list Capability.t :=
  [ Capability.mk "coherence.cache_line_ownership" CapabilityStatus.Unsupported
      "no operating-system or vendor interface on this host reports per-cache-line ownership or coherent sharer lists"
      "none";
    Capability.mk "coherence.invalidation_counters" CapabilityStatus.Unsupported
      "no interface on this host reports coherence invalidation counts; aggregate cache counters do not identify invalidations"
      "none";
    Capability.mk "accelerator.coherence_telemetry" CapabilityStatus.Unsupported
      "no vendor interface on this host exposes accelerator cache-line ownership or peer-coherence transitions"
      "none";
    Capability.mk "memory.cxl_telemetry" CapabilityStatus.Unsupported
      "no CXL device or CXL telemetry interface was detected on this host"
      "none";
    Capability.mk "memory.pooled_telemetry" CapabilityStatus.Unsupported
      "no pooled-memory fabric telemetry interface was detected on this host"
      "none" ].

Definition install_capability (s : State.t) (c : Capability.t) : State.t :=
  s <| State.capabilities ::= <[Capability.key c := c]> |>.

Definition install_default_capabilities (s : State.t) : State.t :=
  foldl install_capability s default_capabilities.

Definition normalize_options (o : ObservatoryOptions.t) : ObservatoryOptions.t :=
  let o := if sempty (ObservatoryOptions.observer_id o)
           then o <| ObservatoryOptions.observer_id := "observer.local" |> else o in
  let o := if sempty (ObservatoryOptions.node_id o)
           then o <| ObservatoryOptions.node_id := "node.local" |> else o in
  let o := if is_zero (ObservatoryOptions.initial_coordinator_epoch o)
           then o <| ObservatoryOptions.initial_coordinator_epoch := 1 |> else o in
  if CostModel.defined (ObservatoryOptions.cost_model o) then o
  else o <| ObservatoryOptions.cost_model := default_cost_model |>.

(** [Observatory::Observatory] and [Impl::Impl]. *)
Definition make_observatory (now : Z) (options : ObservatoryOptions.t) : State.t :=
  let options := normalize_options options in
  let s := (State.initial options)
             <| State.started_at_ns := now |>
             <| State.topology ::= λ t, t <| TopologyRecord.created_at_ns := now |> |>
             <| State.coordinator_epoch := ObservatoryOptions.initial_coordinator_epoch options |> in
  let s := install_default_capabilities s in
  let id := ObservatoryOptions.node_id options in
  let name := if sempty (ObservatoryOptions.display_name options) then id
              else ObservatoryOptions.display_name options in
  s <| State.nodes ::= <[id := NodeRecord.mk id name now]> |>.

(** ** Checks *)

Definition validate_generation_rollback (existing incoming : Z) (what : string) : result unit :=
  reject_if_ctx (incoming <? existing) ErrorCode.StaleGeneration
    (what +:+ " generation would roll back")
    ("existing=" +:+ format_u64 existing +:+ " incoming=" +:+ format_u64 incoming).

Definition is_power_of_two (value : Z) : bool :=
  negb (value =? 0) && (Z.land value (u64_sub value 1) =? 0).

Definition valid_enum_range (value exclusive_max : Z) : bool := value <? exclusive_max.

(** [if (record.registered_at_ns == 0) record.registered_at_ns = now;] *)
Definition stamp (now t : Z) : Z := if t =? 0 then now else t.

(** A reference by name that, when present, must be registered. *)
Definition require_registered {V} (m : gmap string V) (name what : string) : result unit :=
  reject_if_ctx (negb (sempty name) && negb (is_some (m !! name))) ErrorCode.InvalidArgument
    what name.

(** Capacity for a new key, no generation rollback for an existing one. *)
Definition check_slot {V} (m : gmap string V) (id : string) (capacity : Z)
    (existing_check : V → result unit) (full : string) : result unit :=
  match m !! id with
  | None => reject_if (capacity <=? zsize m) ErrorCode.TooMany full
  | Some existing => existing_check existing
  end.

(** ** Operations *)

Definition register_node (now : Z) (r : NodeRecord.t) (s : State.t) : result State.t :=
  validate_identity_token (NodeRecord.id r);;
  reject_if (Limits.kMaxRegionAnnotationLength <? slen (NodeRecord.display_name r))
    ErrorCode.TooLarge "node display name too long";;
  reject_if (negb (is_some (State.nodes s !! NodeRecord.id r))
             && (Limits.kMaxNodeCount <=? zsize (State.nodes s)))
    ErrorCode.TooMany "node capacity reached";;
  let r := r <| NodeRecord.registered_at_ns ::= stamp now |> in
  Ok (s <| State.nodes ::= <[NodeRecord.id r := r]> |>).

Definition register_processor (now : Z) (r : ProcessorRecord.t) (s : State.t) : result State.t :=
  validate_identity_token (ProcessorRecord.id r);;
  reject_if (is_zero (ProcessorRecord.generation r)) ErrorCode.InvalidArgument
    "processor generation must be non-zero";;
  check_slot (State.processors s) (ProcessorRecord.id r) Limits.kMaxProcessorCount
    (λ e, validate_generation_rollback (ProcessorRecord.generation e)
            (ProcessorRecord.generation r) "processor")
    "processor capacity reached";;
  require_registered (State.memory_domains s) (ProcessorRecord.local_memory_domain r)
    "processor references an unregistered memory domain";;
  let r := r <| ProcessorRecord.registered_at_ns ::= stamp now |> in
  Ok (s <| State.processors ::= <[ProcessorRecord.id r := r]> |>).

Definition check_accelerator_identity (e r : AcceleratorRecord.t) : result unit :=
  validate_generation_rollback (AcceleratorRecord.generation e) (AcceleratorRecord.generation r)
    "accelerator";;
  reject_if_ctx (negb (bool_decide (AcceleratorRecord.vendor_uuid e = AcceleratorRecord.vendor_uuid r))
                 && negb (sempty (AcceleratorRecord.vendor_uuid r))
                 && negb (sempty (AcceleratorRecord.vendor_uuid e)))
    ErrorCode.Conflict "accelerator identity would change meaning without a generation change"
    (AcceleratorRecord.id r).

Definition register_accelerator (now : Z) (r : AcceleratorRecord.t) (s : State.t)
    : result State.t :=
  validate_identity_token (AcceleratorRecord.id r);;
  reject_if (is_zero (AcceleratorRecord.generation r)) ErrorCode.InvalidArgument
    "accelerator generation must be non-zero";;
  reject_if ((Limits.kMaxNameLength <? slen (AcceleratorRecord.vendor r))
             || (Limits.kMaxRegionAnnotationLength <? slen (AcceleratorRecord.vendor_uuid r)))
    ErrorCode.TooLarge "accelerator description too long";;
  check_slot (State.accelerators s) (AcceleratorRecord.id r) Limits.kMaxAcceleratorCount
    (λ e, check_accelerator_identity e r) "accelerator capacity reached";;
  require_registered (State.memory_domains s) (AcceleratorRecord.local_memory_domain r)
    "accelerator references an unregistered memory domain";;
  let r := r <| AcceleratorRecord.registered_at_ns ::= stamp now |> in
  Ok (s <| State.accelerators ::= <[AcceleratorRecord.id r := r]> |>).

Definition register_memory_domain (now : Z) (r : MemoryDomainRecord.t) (s : State.t)
    : result State.t :=
  validate_identity_token (MemoryDomainRecord.id r);;
  reject_if (is_zero (MemoryDomainRecord.generation r)) ErrorCode.InvalidArgument
    "memory domain generation must be non-zero";;
  reject_if (negb (valid_enum_range (MemoryDomainKind.code (MemoryDomainRecord.kind r)) 7))
    ErrorCode.InvalidArgument "memory domain kind out of range";;
  reject_if (MemoryDomainRecord.capacity_known r
             && (Limits.kMaxByteCount <? MemoryDomainRecord.capacity_bytes r))
    ErrorCode.OutOfRange "memory domain capacity out of range";;
  check_slot (State.memory_domains s) (MemoryDomainRecord.id r) Limits.kMaxMemoryDomainCount
    (λ e, validate_generation_rollback (MemoryDomainRecord.generation e)
            (MemoryDomainRecord.generation r) "memory domain")
    "memory domain capacity reached";;
  require_registered (State.coherence_domains s) (MemoryDomainRecord.coherence_domain r)
    "memory domain references an unregistered coherence domain";;
  let r := r <| MemoryDomainRecord.registered_at_ns ::= stamp now |> in
  Ok (s <| State.memory_domains ::= <[MemoryDomainRecord.id r := r]> |>).

Fixpoint check_members (s : State.t) (members : list ResourceRef.t) : result unit :=
  match members with
  | [] => ok_status
  | m :: rest =>
      reject_if (ResourceRef.empty m) ErrorCode.InvalidArgument
        "coherence domain member reference is empty";;
      reject_if_ctx (negb (resource_is_current s m)) ErrorCode.InvalidArgument
        "coherence domain member is not a current registered resource" (resource_text m);;
      check_members s rest
  end.

Definition register_coherence_domain (now : Z) (r : CoherenceDomainRecord.t) (s : State.t)
    : result State.t :=
  validate_identity_token (CoherenceDomainRecord.id r);;
  reject_if (is_zero (CoherenceDomainRecord.generation r)) ErrorCode.InvalidArgument
    "coherence domain generation must be non-zero";;
  reject_if (Limits.kMaxRegionAnnotationLength <? slen (CoherenceDomainRecord.protocol_family r))
    ErrorCode.TooLarge "coherence domain protocol family too long";;
  reject_if (Limits.kMaxTopologyLinkCount <? zlen (CoherenceDomainRecord.members r))
    ErrorCode.TooMany "too many coherence domain members";;
  check_slot (State.coherence_domains s) (CoherenceDomainRecord.id r)
    Limits.kMaxCoherenceDomainCount
    (λ e, validate_generation_rollback (CoherenceDomainRecord.generation e)
            (CoherenceDomainRecord.generation r) "coherence domain")
    "coherence domain capacity reached";;
  check_members s (CoherenceDomainRecord.members r);;
  let r := r <| CoherenceDomainRecord.registered_at_ns ::= stamp now |> in
  Ok (s <| State.coherence_domains ::= <[CoherenceDomainRecord.id r := r]> |>).

Definition check_region_identity (e r : RegionRecord.t) : result unit :=
  validate_generation_rollback (RegionRecord.generation e) (RegionRecord.generation r) "region";;
  reject_if_ctx (RegionRecord.retired e && (RegionRecord.generation r =? RegionRecord.generation e))
    ErrorCode.RetiredEntity
    "region generation is retired and cannot be re-registered at the same generation"
    (RegionRecord.id r).

(** The memory domain of a region: registered, and its generation filled in or
    matched. *)
Definition resolve_region_domain (s : State.t) (r : RegionRecord.t) : result RegionRecord.t :=
  if sempty (RegionRecord.memory_domain r) then Ok r
  else
    match State.memory_domains s !! RegionRecord.memory_domain r with
    | None =>
        fail_ctx ErrorCode.InvalidArgument "region references an unregistered memory domain"
          (RegionRecord.memory_domain r)
    | Some d =>
        if is_zero (RegionRecord.memory_domain_generation r)
        then Ok (r <| RegionRecord.memory_domain_generation := MemoryDomainRecord.generation d |>)
        else if negb (MemoryDomainRecord.generation d =? RegionRecord.memory_domain_generation r)
        then fail_ctx ErrorCode.StaleGeneration
               "region references a superseded memory domain generation"
               (RegionRecord.memory_domain r)
        else Ok r
    end.

Definition register_region (now : Z) (r : RegionRecord.t) (s : State.t) : result State.t :=
  validate_identity_token (RegionRecord.id r);;
  reject_if (is_zero (RegionRecord.generation r)) ErrorCode.InvalidArgument
    "region generation must be non-zero";;
  reject_if (negb (valid_enum_range (SharingScope.code (RegionRecord.sharing_scope r)) 6))
    ErrorCode.InvalidArgument "sharing scope out of range";;
  reject_if ((Limits.kMaxRegionAnnotationLength <? slen (RegionRecord.owner r))
             || (Limits.kMaxRegionAnnotationLength <? slen (RegionRecord.annotation r)))
    ErrorCode.TooLarge "region annotation too long";;
  reject_if (RegionRecord.size_known r && (Limits.kMaxByteCount <? RegionRecord.size_bytes r))
    ErrorCode.OutOfRange "region size out of range";;
  reject_if (RegionRecord.page_size_known r
             && (negb (is_power_of_two (RegionRecord.page_size_bytes r))
                 || (2 ^ 30 <? RegionRecord.page_size_bytes r)))
    ErrorCode.InvalidArgument "region page size must be a power of two";;
  check_slot (State.regions s) (RegionRecord.id r) Limits.kMaxRegionCount
    (λ e, check_region_identity e r) "region capacity reached";;
  r ← resolve_region_domain s r;
  require_registered (State.coherence_domains s) (RegionRecord.coherence_domain r)
    "region references an unregistered coherence domain";;
  let r := r <| RegionRecord.registered_at_ns ::= stamp now |>
             <| RegionRecord.loaded_from_state := false |> in
  Ok (s <| State.regions ::= <[RegionRecord.id r := r]> |>).

Definition retire_region (now : Z) (region : string) (generation : Z) (reason : string)
    (s : State.t) : result State.t :=
  match State.regions s !! region with
  | None => fail_ctx ErrorCode.NotFound "unknown region" region
  | Some r =>
      reject_if_ctx (negb (RegionRecord.generation r =? generation)) ErrorCode.StaleGeneration
        "region retirement names a superseded generation" region;;
      reject_if_ctx (RegionRecord.retired r) ErrorCode.RetiredEntity
        "region is already retired" region;;
      let r := r <| RegionRecord.retired := true |> <| RegionRecord.retired_at_ns := now |> in
      Ok (record_stale
            (StaleEvidenceRecord.empty
               <| StaleEvidenceRecord.kind := StaleEvidenceRecord.RetiredRegion |>
               <| StaleEvidenceRecord.region := region |>
               <| StaleEvidenceRecord.observed_at_ns := now |>
               <| StaleEvidenceRecord.detail :=
                    "region retired at generation " +:+ format_u64 generation +:+ ": " +:+ reason |>)
            (s <| State.regions ::= <[region := r]> |>))
  end.

(** The loop that replaces the first link with the same endpoints. *)
Fixpoint replace_link (link : TopologyLink.t) (links : list TopologyLink.t)
    : option (list TopologyLink.t) :=
  match links with
  | [] => None
  | l :: rest =>
      if decide (TopologyLink.from l = TopologyLink.from link
                 ∧ TopologyLink.to l = TopologyLink.to link)
      then Some (link :: rest)
      else match replace_link link rest with
           | Some rest' => Some (l :: rest')
           | None => None
           end
  end.

Definition set_topology_link (link : TopologyLink.t) (s : State.t) : result State.t :=
  let from := TopologyLink.from link in
  let to := TopologyLink.to link in
  reject_if (ResourceRef.empty from || ResourceRef.empty to) ErrorCode.InvalidArgument
    "topology link endpoints must not be empty";;
  reject_if (bool_decide (from = to)) ErrorCode.InvalidArgument
    "topology link must connect two distinct resources";;
  reject_if (negb (valid_enum_range (Locality.code (TopologyLink.locality link)) kLocalityCount))
    ErrorCode.InvalidArgument "topology link locality out of range";;
  reject_if ((TopologyLink.latency_ns link <? -1)
             || (Limits.kMaxMeasuredDurationNs <? TopologyLink.latency_ns link))
    ErrorCode.OutOfRange "topology link latency out of range";;
  reject_if (Limits.kMaxByteCount <? TopologyLink.bandwidth_bytes_per_second link)
    ErrorCode.OutOfRange "topology link bandwidth out of range";;
  reject_if_ctx (negb (resource_is_current s from)) ErrorCode.InvalidArgument
    "topology link source is not a current resource" (resource_text from);;
  reject_if_ctx (negb (resource_is_current s to)) ErrorCode.InvalidArgument
    "topology link target is not a current resource" (resource_text to);;
  let links := TopologyRecord.links (State.topology s) in
  let set ls := s <| State.topology ::= λ t, t <| TopologyRecord.links := ls |> |> in
  match replace_link link links with
  | Some links => Ok (set links)
  | None =>
      reject_if (Limits.kMaxTopologyLinkCount <=? zlen links) ErrorCode.TooMany
        "topology link capacity reached";;
      Ok (set (links ++ [link]))
  end.

Definition bump_topology_generation (now : Z) (reason : string) (s : State.t)
    : result (State.t * Z) :=
  reject_if (Limits.kMaxRegionAnnotationLength <? slen reason) ErrorCode.TooLarge
    "topology change reason too long";;
  let s := bump_topology now reason s in
  Ok (s, State.topology_generation s).

Definition set_capability (c : Capability.t) (s : State.t) : result State.t :=
  reject_if (sempty (Capability.key c) || (Limits.kMaxNameLength <? slen (Capability.key c)))
    ErrorCode.InvalidArgument "capability key must be a bounded non-empty token";;
  reject_if ((512 <? slen (Capability.detail c)) || (128 <? slen (Capability.mechanism c)))
    ErrorCode.TooLarge "capability description too long";;
  reject_if (negb (valid_enum_range (CapabilityStatus.code (Capability.status c)) 3))
    ErrorCode.InvalidArgument "capability status out of range";;
  Ok (install_capability s c).

Definition set_cost_model (m : CostModel.t) (s : State.t) : result State.t :=
  validate_cost_model m;;
  let m := m <| CostModel.defined := true |> in
  Ok (s <| State.options ::= λ o, o <| ObservatoryOptions.cost_model := m |> |>).

(** ** Facts about the checks *)

Lemma require_registered_Ok {V} (m : gmap string V) name what u :
  require_registered m name what = Ok u ↔ (name ≠ ""%string → is_Some (m !! name)).
Proof.
  unfold require_registered. rewrite reject_if_ctx_Ok. split.
  - intros H Hne. destruct (sempty name) eqn:E; [by apply sempty_spec in E|]. simpl in H.
    destruct (m !! name); [eauto|done].
  - intros H. destruct (sempty name) eqn:E; [done|]. simpl. destruct H as [v ->]; [|done].
    intros ->. done.
Qed.

Lemma check_slot_Ok {V} (m : gmap string V) id cap f full :
  check_slot m id cap f full = Ok tt ↔
  match m !! id with None => zsize m < cap | Some e => f e = Ok tt end.
Proof. unfold check_slot. destruct (m !! id); [done|]. rewrite reject_if_Ok, Z.leb_gt. done. Qed.

Lemma validate_generation_rollback_Ok e i what :
  validate_generation_rollback e i what = Ok tt ↔ e ≤ i.
Proof. unfold validate_generation_rollback. by rewrite reject_if_ctx_Ok, Z.ltb_ge. Qed.

Lemma check_slot_size {V} (m : gmap string V) id cap f full v :
  check_slot m id cap f full = Ok tt → zsize m ≤ cap → zsize (<[id := v]> m) ≤ cap.
Proof.
  rewrite check_slot_Ok. destruct (m !! id) as [e|] eqn:E; intros H Hsz.
  - by rewrite (zsize_insert_Some _ _ _ _ E).
  - rewrite zsize_insert_None by done. lia.
Qed.

(** The page-size check is exact: on 64-bit values the bit trick accepts
    precisely the powers of two. *)
Theorem is_power_of_two_spec (v : Z) :
  in_u64 v → is_power_of_two v = true ↔ ∃ k, 0 ≤ k ∧ v = 2 ^ k.
Proof.
  intros [H0 Hmax]. unfold is_power_of_two. rewrite andb_true_iff, negb_true_iff, Z.eqb_neq, Z.eqb_eq.
  assert (Hs : v ≠ 0 → u64_sub v 1 = v - 1).
  { intros Hv. unfold u64_sub. apply wrap64_small. unfold in_u64. lia. }
  split.
  - intros [Hv Hl]. rewrite Hs in Hl by done. exists (Z.log2 v). split; [apply Z.log2_nonneg|].
    destruct (Z.log2_spec v) as [Hlo Hhi]; [lia|].
    destruct (Z.eq_dec v (2 ^ Z.log2 v)) as [|Hne]; [done|]. exfalso.
    assert (v ≠ 1) by (intros ->; done).
    assert (Ht : Z.testbit (Z.land v (v - 1)) (Z.log2 v) = true).
    { rewrite Z.land_spec, Z.bit_log2 by lia. simpl.
      replace (Z.log2 v) with (Z.log2 (v - 1)); [apply Z.bit_log2; lia|].
      apply Z.log2_unique; [apply Z.log2_nonneg|]. lia. }
    rewrite Hl, Z.bits_0 in Ht. done.
  - intros (k & Hk & ->). assert (Hp : 0 < 2 ^ k) by (apply Z.pow_pos_nonneg; lia).
    split; [lia|]. rewrite Hs by lia. replace (2 ^ k - 1) with (Z.ones k) by (rewrite Z.ones_equiv; lia).
    rewrite Z.land_ones, Z.mod_same by lia. done.
Qed.

Lemma is_power_of_two_spec_witness : is_power_of_two 4096 = true.
Proof. apply (is_power_of_two_spec 4096); [split; by vm_compute|]. by exists 12. Defined.

(** ** The registry invariant

    Records are stored under their own identity at a non-zero generation, every
    name a record refers to is registered, a region is never bound to a memory
    domain generation that does not exist yet, no two topology links join the same
    endpoints, and every table is within its capacity. *)

Definition refers {V} (m : gmap string V) (name : string) : Prop :=
  name ≠ ""%string → is_Some (m !! name).

Lemma refers_insert {V} (m : gmap string V) k v name : refers m name → refers (<[k := v]> m) name.
Proof. intros H Hne. rewrite lookup_insert_is_Some'. right. by apply H. Qed.

Definition link_ends (l : TopologyLink.t) : ResourceRef.t * ResourceRef.t :=
  (TopologyLink.from l, TopologyLink.to l).

Definition domain_generation_known (m : gmap string MemoryDomainRecord.t) (name : string) (g : Z)
    : Prop :=
  name ≠ ""%string → ∃ d, m !! name = Some d ∧ g ≠ 0 ∧ g ≤ MemoryDomainRecord.generation d.

Record registry_ok (s : State.t) : Prop := {
  reg_processors : map_Forall (λ k r, ProcessorRecord.id r = k ∧ ProcessorRecord.generation r ≠ 0
    ∧ refers (State.memory_domains s) (ProcessorRecord.local_memory_domain r)) (State.processors s);
  reg_accelerators : map_Forall (λ k r, AcceleratorRecord.id r = k
    ∧ AcceleratorRecord.generation r ≠ 0
    ∧ refers (State.memory_domains s) (AcceleratorRecord.local_memory_domain r)) (State.accelerators s);
  reg_memory_domains : map_Forall (λ k r, MemoryDomainRecord.id r = k
    ∧ MemoryDomainRecord.generation r ≠ 0
    ∧ refers (State.coherence_domains s) (MemoryDomainRecord.coherence_domain r)) (State.memory_domains s);
  reg_coherence_domains : map_Forall (λ k r, CoherenceDomainRecord.id r = k
    ∧ CoherenceDomainRecord.generation r ≠ 0) (State.coherence_domains s);
  reg_regions : map_Forall (λ k r, RegionRecord.id r = k ∧ RegionRecord.generation r ≠ 0
    ∧ domain_generation_known (State.memory_domains s) (RegionRecord.memory_domain r)
        (RegionRecord.memory_domain_generation r)
    ∧ refers (State.coherence_domains s) (RegionRecord.coherence_domain r)) (State.regions s);
  reg_links : NoDup (link_ends <$> TopologyRecord.links (State.topology s))
    ∧ Forall (λ l, TopologyLink.from l ≠ TopologyLink.to l) (TopologyRecord.links (State.topology s));
  reg_bounds : zsize (State.nodes s) ≤ Limits.kMaxNodeCount
    ∧ zsize (State.processors s) ≤ Limits.kMaxProcessorCount
    ∧ zsize (State.accelerators s) ≤ Limits.kMaxAcceleratorCount
    ∧ zsize (State.memory_domains s) ≤ Limits.kMaxMemoryDomainCount
    ∧ zsize (State.coherence_domains s) ≤ Limits.kMaxCoherenceDomainCount
    ∧ zsize (State.regions s) ≤ Limits.kMaxRegionCount
    ∧ zlen (TopologyRecord.links (State.topology s)) ≤ Limits.kMaxTopologyLinkCount;
}.

(** The invalidation policy in force, which no operation changes. *)
Definition invalidation_policy_of (s : State.t) : InvalidationPolicy.t :=
  ObservatoryOptions.invalidation_policy (State.options s).

(** The registries and the invalidation policies of two states coincide. *)
Definition same_registry (s s' : State.t) : Prop :=
  State.nodes s' = State.nodes s ∧ State.processors s' = State.processors s
  ∧ State.accelerators s' = State.accelerators s
  ∧ State.memory_domains s' = State.memory_domains s
  ∧ State.coherence_domains s' = State.coherence_domains s
  ∧ State.regions s' = State.regions s
  ∧ TopologyRecord.links (State.topology s') = TopologyRecord.links (State.topology s)
  ∧ invalidation_policy_of s' = invalidation_policy_of s.

#[global] Instance same_registry_refl : Reflexive same_registry.
Proof. intros s. by split_and!. Qed.
#[global] Instance same_registry_trans : Transitive same_registry.
Proof. unfold same_registry. intros s1 s2 s3 H1 H2. naive_solver congruence. Qed.

Lemma registry_ok_same s s' : same_registry s s' → registry_ok s → registry_ok s'.
Proof.
  intros (E1 & E2 & E3 & E4 & E5 & E6 & E7 & _) []. constructor; rewrite ?E1, ?E2, ?E3, ?E4, ?E5, ?E6, ?E7; done.
Qed.

(** *** Growth

    Registered entities never disappear, generations never roll back, and a
    retired region stays retired for as long as it stays at its generation. *)

Definition gen_grows {V} (gen : V → Z) (m m' : gmap string V) : Prop :=
  ∀ k v, m !! k = Some v → ∃ v', m' !! k = Some v' ∧ gen v ≤ gen v'.

Definition regions_grow (m m' : gmap string RegionRecord.t) : Prop :=
  ∀ k r, m !! k = Some r → ∃ r', m' !! k = Some r'
    ∧ (RegionRecord.generation r < RegionRecord.generation r'
       ∨ RegionRecord.generation r = RegionRecord.generation r'
         ∧ (RegionRecord.retired r = true → RegionRecord.retired r' = true)).

Definition registry_grows (s s' : State.t) : Prop :=
  gen_grows (λ _, 0) (State.nodes s) (State.nodes s')
  ∧ gen_grows ProcessorRecord.generation (State.processors s) (State.processors s')
  ∧ gen_grows AcceleratorRecord.generation (State.accelerators s) (State.accelerators s')
  ∧ gen_grows MemoryDomainRecord.generation (State.memory_domains s) (State.memory_domains s')
  ∧ gen_grows CoherenceDomainRecord.generation (State.coherence_domains s) (State.coherence_domains s')
  ∧ regions_grow (State.regions s) (State.regions s').

Lemma gen_grows_refl {V} (gen : V → Z) m : gen_grows gen m m.
Proof. intros k v Hk. exists v. split; [done|lia]. Qed.
Lemma gen_grows_trans {V} (gen : V → Z) m1 m2 m3 :
  gen_grows gen m1 m2 → gen_grows gen m2 m3 → gen_grows gen m1 m3.
Proof.
  intros H1 H2 k v Hk. destruct (H1 k v Hk) as (v2 & Hk2 & ?). destruct (H2 k v2 Hk2) as (v3 & ? & ?).
  exists v3. split; [done|lia].
Qed.
Lemma gen_grows_insert {V} (gen : V → Z) m k v :
  (∀ e, m !! k = Some e → gen e ≤ gen v) → gen_grows gen m (<[k := v]> m).
Proof.
  intros H k' v' Hk'. destruct (decide (k = k')) as [->|Hne].
  - exists v. rewrite lookup_insert_eq. auto.
  - exists v'. rewrite lookup_insert_ne by done. split; [done|lia].
Qed.

Lemma regions_grow_refl m : regions_grow m m.
Proof. intros k r Hk. exists r. auto. Qed.
Lemma regions_grow_trans m1 m2 m3 : regions_grow m1 m2 → regions_grow m2 m3 → regions_grow m1 m3.
Proof.
  intros H1 H2 k r Hk. destruct (H1 k r Hk) as (r2 & Hk2 & Hc). destruct (H2 k r2 Hk2) as (r3 & Hk3 & Hd).
  exists r3. split; [done|]. destruct Hc as [Hc|[Hc Hr]], Hd as [Hd|[Hd Hs]]; [left; lia..|].
  right. split; [lia|auto].
Qed.

#[global] Instance registry_grows_refl : Reflexive registry_grows.
Proof. intros s. unfold registry_grows. split_and!; auto using gen_grows_refl, regions_grow_refl. Qed.
#[global] Instance registry_grows_trans : Transitive registry_grows.
Proof.
  unfold registry_grows. intros s1 s2 s3 (?&?&?&?&?&?) (?&?&?&?&?&?).
  split_and!; eauto using gen_grows_trans, regions_grow_trans.
Qed.

Lemma same_registry_grows s s' : same_registry s s' → registry_grows s s'.
Proof.
  intros (E1 & E2 & E3 & E4 & E5 & E6 & _). unfold registry_grows. rewrite E1, E2, E3, E4, E5, E6.
  split_and!; auto using gen_grows_refl, regions_grow_refl.
Qed.

Ltac growth_solve :=
  split_and!;
  try (apply gen_grows_refl); try (apply regions_grow_refl);
  try (apply gen_grows_insert).

(** *** Each operation keeps the invariant and only grows the registry *)

Section operations.
Variables (now : Z) (s s' : State.t).
Hypothesis (Hok : registry_ok s).

Lemma register_node_step r :
  register_node now r s = Ok s' → registry_ok s' ∧ registry_grows s s'.
Proof.
  unfold register_node. rewrite !seq_Ok, !reject_if_Ok. intros (_ & _ & Hcap & [= <-]).
  destruct Hok as [H1 H2 H3 H4 H5 H6 H7]. split; [constructor; try done|]; cbn.
  - destruct H7 as (Hn & H7). split; [|exact H7]. cbn.
    destruct (State.nodes s !! NodeRecord.id r) as [e|] eqn:E; simpl in Hcap.
    + by rewrite (zsize_insert_Some _ _ _ _ E).
    + rewrite zsize_insert_None by done. lia.
  - unfold registry_grows. cbn. growth_solve. intros; lia.
Qed.

Lemma register_processor_step r :
  register_processor now r s = Ok s' → registry_ok s' ∧ registry_grows s s'.
Proof.
  unfold register_processor. rewrite !seq_Ok, reject_if_Ok, require_registered_Ok.
  intros (_ & Hg & Hslot & Hdom & [= <-]).
  destruct Hok as [H1 H2 H3 H4 H5 H6 (B1 & B2 & B3 & B4 & B5 & B6 & B7)].
  unfold is_zero in Hg. apply Z.eqb_neq in Hg. split; [constructor; try done|]; cbn.
  - apply map_Forall_insert_2; [done|exact H1].
  - split_and!; try done. by eapply check_slot_size.
  - unfold registry_grows. cbn. growth_solve. intros e He. cbn.
    rewrite check_slot_Ok, He in Hslot. by apply validate_generation_rollback_Ok in Hslot.
Qed.

Lemma register_accelerator_step r :
  register_accelerator now r s = Ok s' → registry_ok s' ∧ registry_grows s s'.
Proof.
  unfold register_accelerator. rewrite !seq_Ok, !reject_if_Ok, require_registered_Ok.
  intros (_ & Hg & _ & Hslot & Hdom & [= <-]).
  destruct Hok as [H1 H2 H3 H4 H5 H6 (B1 & B2 & B3 & B4 & B5 & B6 & B7)].
  unfold is_zero in Hg. apply Z.eqb_neq in Hg. split; [constructor; try done|]; cbn.
  - apply map_Forall_insert_2; [done|exact H2].
  - split_and!; try done. by eapply check_slot_size.
  - unfold registry_grows. cbn. growth_solve. intros e He. cbn.
    rewrite check_slot_Ok, He in Hslot. unfold check_accelerator_identity in Hslot.
    rewrite seq_Ok, validate_generation_rollback_Ok in Hslot. tauto.
Qed.

Lemma register_memory_domain_step r :
  register_memory_domain now r s = Ok s' → registry_ok s' ∧ registry_grows s s'.
Proof.
  unfold register_memory_domain. rewrite !seq_Ok, !reject_if_Ok, require_registered_Ok.
  intros (_ & Hg & _ & _ & Hslot & Hdom & [= <-]).
  destruct Hok as [H1 H2 H3 H4 H5 H6 (B1 & B2 & B3 & B4 & B5 & B6 & B7)].
  unfold is_zero in Hg. apply Z.eqb_neq in Hg.
  assert (Hmono : ∀ e, State.memory_domains s !! MemoryDomainRecord.id r = Some e →
    MemoryDomainRecord.generation e ≤ MemoryDomainRecord.generation r).
  { intros e He. rewrite check_slot_Ok, He in Hslot. by apply validate_generation_rollback_Ok in Hslot. }
  split; [constructor; try done|]; cbn.
  - eapply map_Forall_impl; [exact H1|]. cbn. intros k v (? & ? & ?). auto using refers_insert.
  - eapply map_Forall_impl; [exact H2|]. cbn. intros k v (? & ? & ?). auto using refers_insert.
  - apply map_Forall_insert_2; [done|exact H3].
  - eapply map_Forall_impl; [exact H5|]. cbn. intros k v (? & ? & Hd & ?). split_and!; try done.
    intros Hne. destruct (Hd Hne) as (d & Ed & Hnz & Hle).
    destruct (decide (MemoryDomainRecord.id r = RegionRecord.memory_domain v)) as [E|E].
    + eexists. rewrite E, lookup_insert_eq. split; [done|]. rewrite <-E in Ed. apply Hmono in Ed. cbn. lia.
    + exists d. by rewrite lookup_insert_ne.
  - split_and!; try done. by eapply check_slot_size.
  - unfold registry_grows. cbn. growth_solve. exact Hmono.
Qed.

Lemma register_coherence_domain_step r :
  register_coherence_domain now r s = Ok s' → registry_ok s' ∧ registry_grows s s'.
Proof.
  unfold register_coherence_domain. rewrite !seq_Ok, !reject_if_Ok.
  intros (_ & Hg & _ & _ & Hslot & _ & [= <-]).
  destruct Hok as [H1 H2 H3 H4 H5 H6 (B1 & B2 & B3 & B4 & B5 & B6 & B7)].
  unfold is_zero in Hg. apply Z.eqb_neq in Hg. split; [constructor; try done|]; cbn.
  - eapply map_Forall_impl; [exact H3|]. cbn. intros k v (? & ? & ?). auto using refers_insert.
  - apply map_Forall_insert_2; [done|exact H4].
  - eapply map_Forall_impl; [exact H5|]. cbn. intros k v (? & ? & ? & ?). auto using refers_insert.
  - split_and!; try done. by eapply check_slot_size.
  - unfold registry_grows. cbn. growth_solve. intros e He. cbn.
    rewrite check_slot_Ok, He in Hslot. by apply validate_generation_rollback_Ok in Hslot.
Qed.
End operations.

Lemma resolve_region_domain_Ok s r r' :
  registry_ok s → resolve_region_domain s r = Ok r' →
  ∃ g, r' = r <| RegionRecord.memory_domain_generation := g |>
    ∧ domain_generation_known (State.memory_domains s) (RegionRecord.memory_domain r) g.
Proof.
  intros Hok. unfold resolve_region_domain, domain_generation_known.
  destruct (sempty (RegionRecord.memory_domain r)) eqn:Ee.
  { intros [= <-]. exists (RegionRecord.memory_domain_generation r). split; [by destruct r|].
    apply sempty_spec in Ee. by rewrite Ee. }
  destruct (State.memory_domains s !! _) as [d|] eqn:Ed; [|done].
  pose proof (reg_memory_domains s Hok _ _ Ed) as (_ & Hnz & _).
  destruct (is_zero (RegionRecord.memory_domain_generation r)) eqn:Ez.
  - intros [= <-]. exists (MemoryDomainRecord.generation d). split; [done|]. intros _. exists d.
    split_and!; [done|done|lia].
  - destruct (Z.eqb_spec (MemoryDomainRecord.generation d) (RegionRecord.memory_domain_generation r)) as [E|];
      [|done]. intros [= <-]. exists (RegionRecord.memory_domain_generation r). split; [by destruct r|].
    intros _. exists d. split_and!; [done|by rewrite <-E|lia].
Qed.

Section region_operations.
Variables (now : Z) (s s' : State.t).
Hypothesis (Hok : registry_ok s).

Lemma register_region_step r :
  register_region now r s = Ok s' → registry_ok s' ∧ registry_grows s s'.
Proof.
  unfold register_region. rewrite !seq_Ok, !reject_if_Ok.
  intros (_ & Hg & _ & _ & _ & _ & Hslot & H). apply bind_Ok in H as (r' & Hres & H).
  rewrite seq_Ok, require_registered_Ok in H. destruct H as [Hcd [= <-]].
  destruct (resolve_region_domain_Ok s r r' Hok Hres) as (g & -> & Hdom).
  destruct Hok as [H1 H2 H3 H4 H5 H6 (B1 & B2 & B3 & B4 & B5 & B6 & B7)].
  unfold is_zero in Hg. apply Z.eqb_neq in Hg. split; [constructor; try done|]; cbn.
  - apply map_Forall_insert_2; [|exact H5]. by split_and!.
  - split_and!; try done. by eapply check_slot_size.
  - unfold registry_grows. cbn. growth_solve. intros k e He.
    destruct (decide (RegionRecord.id r = k)) as [E|E]; [|exists e; rewrite lookup_insert_ne by done; auto].
    eexists. rewrite E, lookup_insert_eq. split; [done|]. cbn.
    rewrite check_slot_Ok, E, He in Hslot. unfold check_region_identity in Hslot.
    rewrite seq_Ok, validate_generation_rollback_Ok, reject_if_ctx_Ok in Hslot.
    destruct Hslot as [Hle Hret].
    destruct (Z.eqb_spec (RegionRecord.generation r) (RegionRecord.generation e)); [right|left; lia].
    split; [done|]. intros Hr. by rewrite Hr in Hret.
Qed.

Lemma retire_region_step name g reason :
  retire_region now name g reason s = Ok s' → registry_ok s' ∧ registry_grows s s'.
Proof.
  unfold retire_region. destruct (State.regions s !! name) as [r|] eqn:E; [|done].
  rewrite !seq_Ok, !reject_if_ctx_Ok. intros (_ & Hr & [= <-]).
  destruct Hok as [H1 H2 H3 H4 H5 H6 (B1 & B2 & B3 & B4 & B5 & B6 & B7)].
  pose proof (H5 _ _ E) as Hrec. cbn in Hrec. split; [constructor; try done|]; cbn.
  - apply map_Forall_insert_2; [exact Hrec|exact H5].
  - split_and!; try done. by rewrite (zsize_insert_Some _ _ _ _ E).
  - unfold registry_grows. cbn. growth_solve. intros k e He.
    destruct (decide (name = k)) as [->|Hne]; [|exists e; rewrite lookup_insert_ne by done; auto].
    eexists. rewrite lookup_insert_eq. split; [done|]. right. rewrite E in He. by injection He as ->.
Qed.

Lemma replace_link_spec link ls ls' :
  replace_link link ls = Some ls' →
  link_ends <$> ls' = link_ends <$> ls ∧ zlen ls' = zlen ls
  ∧ (∀ l, l ∈ ls' → l = link ∨ l ∈ ls).
Proof.
  clear. revert ls'. induction ls as [|l ls IH]; intros ls'; cbn [replace_link]; [done|].
  case_decide as E.
  - intros [= <-]. rewrite !zlen_cons. destruct E as [E1 E2]. split_and!; [|done|set_solver].
    cbn. unfold link_ends. by rewrite E1, E2.
  - destruct (replace_link link ls) as [ls1|]; [|done]. intros [= <-].
    destruct (IH ls1 eq_refl) as (Em & El & Hin). rewrite !zlen_cons. split_and!; [|lia|set_solver].
    rewrite !fmap_cons. by f_equal.
Qed.

Lemma replace_link_None link ls : replace_link link ls = None → link_ends link ∉ link_ends <$> ls.
Proof.
  clear. induction ls as [|l ls IH]; cbn [replace_link]; [intros _; set_solver|].
  case_decide as E; [done|]. destruct (replace_link link ls) as [ls1|]; [done|]. intros _.
  rewrite fmap_cons, elem_of_cons. intros [Heq|Hin]; [|by apply IH].
  apply E. unfold link_ends in Heq. by injection Heq as -> ->.
Qed.

Lemma set_topology_link_step link :
  set_topology_link link s = Ok s' → registry_ok s' ∧ registry_grows s s'.
Proof.
  unfold set_topology_link. rewrite !seq_Ok, !reject_if_Ok.
  intros (_ & Hne & _ & _ & _ & _ & _ & H). apply bool_decide_eq_false in Hne.
  destruct Hok as [H1 H2 H3 H4 H5 [Hnd Hdist] (B1 & B2 & B3 & B4 & B5 & B6 & B7)].
  destruct (replace_link link _) as [ls|] eqn:E.
  - injection H as <-. destruct (replace_link_spec _ _ _ E) as (Em & El & Hin).
    split; [constructor; try done|unfold registry_grows; growth_solve]; cbn.
    + rewrite Em. split; [done|]. rewrite Forall_forall in Hdist |- *.
      intros l [->|Hl]%Hin; [done|by apply Hdist].
    + split_and!; try done. cbn. lia.
  - rewrite seq_Ok, reject_if_Ok, Z.leb_gt in H. destruct H as [Hcap [= <-]].
    apply replace_link_None in E. split; [constructor; try done|unfold registry_grows; growth_solve]; cbn.
    + rewrite fmap_app. split.
      * apply NoDup_app. split_and!; [done| |apply NoDup_singleton].
        intros x Hx. cbn. rewrite list_elem_of_singleton. by intros ->.
      * apply Forall_app_2; [done|]. by constructor.
    + split_and!; try done. cbn. rewrite zlen_app, zlen_cons, zlen_nil. lia.
Qed.
End region_operations.

Lemma bump_topology_same now reason s : same_registry s (bump_topology now reason s).
Proof. by split_and!. Qed.
Lemma set_capability_same c s s' : set_capability c s = Ok s' → same_registry s s'.
Proof. unfold set_capability. rewrite !seq_Ok. intros (_ & _ & _ & [= <-]). by split_and!. Qed.
Lemma set_cost_model_same m s s' : set_cost_model m s = Ok s' → same_registry s s'.
Proof. unfold set_cost_model. rewrite seq_Ok. intros (_ & [= <-]). by split_and!. Qed.
Lemma record_stale_same r s : same_registry s (record_stale r s).
Proof. by split_and!. Qed.
Lemma evidence_only_same s s' : evidence_only s s' → same_registry s s'.
Proof. intros (a & j & re & ro & l & ->). by split_and!. Qed.

Lemma install_default_capabilities_same s : same_registry s (install_default_capabilities s).
Proof. by split_and!. Qed.

Lemma make_observatory_registry_ok now options : registry_ok (make_observatory now options).
Proof.
  constructor; cbn; try apply map_Forall_empty; [split; constructor|].
  unfold zlen. cbn. rewrite zsize_insert_None by done. by split_and!.
Qed.

Lemma make_observatory_evidence_ok now options : evidence_ok (make_observatory now options).
Proof. destruct (initial_evidence_ok (normalize_options options)). constructor; assumption. Qed.

(** ** Properties of single operations *)

(** Retirement is exact: it succeeds precisely when the region is
    registered, live and at the named generation, so a stale retirement request can
    never retire a live region; on success the region is retired at that
    generation, nothing else in the registry changes, and one stale-evidence record
    is added. *)
Theorem retire_region_exact (now : Z) (name : string) (g : Z) (reason : string) (s : State.t) :
  match retire_region now name g reason s with
  | Ok s' =>
      ∃ r, State.regions s !! name = Some r ∧ RegionRecord.generation r = g
        ∧ RegionRecord.retired r = false
        ∧ State.regions s' = <[name := r <| RegionRecord.retired := true |>
                                         <| RegionRecord.retired_at_ns := now |>]> (State.regions s)
        ∧ (∃ x, last (State.stale s') = Some x ∧ StaleEvidenceRecord.region x = name
                ∧ StaleEvidenceRecord.kind x = StaleEvidenceRecord.RetiredRegion)
        ∧ State.memory_domains s' = State.memory_domains s
        ∧ State.coherence_domains s' = State.coherence_domains s
        ∧ State.processors s' = State.processors s
        ∧ State.accelerators s' = State.accelerators s ∧ State.nodes s' = State.nodes s
  | Err _ =>
      ¬ ∃ r, State.regions s !! name = Some r ∧ RegionRecord.generation r = g
         ∧ RegionRecord.retired r = false
  end.
Proof.
  unfold retire_region. destruct (State.regions s !! name) as [r|] eqn:E; [|by intros (r & ? & _)].
  destruct (Z.eqb_spec (RegionRecord.generation r) g) as [Eg|Eg];
    [|cbn; intros (r' & [= <-] & ? & _); congruence].
  destruct (RegionRecord.retired r) eqn:Er; [cbn; intros (r' & [= <-] & _ & ?); congruence|].
  cbn [reject_if_ctx negb mbind result_bind].
  exists r. split_and!; try done. eexists. split; [apply fifo_push_last|done].
Qed.

(** An accelerator that was replaced can never be registered under its
    identity again: the check that is meant to refuse a changed vendor UUID
    "without a generation change" refuses it under a higher generation as well. *)
Theorem replaced_accelerator_refused (now : Z) (e r : AcceleratorRecord.t) (s : State.t) :
  State.accelerators s !! AcceleratorRecord.id r = Some e →
  AcceleratorRecord.vendor_uuid e ≠ ""%string → AcceleratorRecord.vendor_uuid r ≠ ""%string →
  AcceleratorRecord.vendor_uuid e ≠ AcceleratorRecord.vendor_uuid r →
  is_ok (register_accelerator now r s) = false.
Proof.
  intros He Hne1 Hne2 Hne. unfold is_ok. destruct (register_accelerator now r s) as [s'|] eqn:E; [|done].
  unfold register_accelerator in E. rewrite !seq_Ok, check_slot_Ok, He in E.
  destruct E as (_ & _ & _ & E & _). unfold check_accelerator_identity in E.
  rewrite seq_Ok, reject_if_ctx_Ok in E. destruct E as [_ E].
  rewrite bool_decide_false in E by done.
  destruct (sempty (AcceleratorRecord.vendor_uuid r)) eqn:E1; [by apply sempty_spec in E1|].
  destruct (sempty (AcceleratorRecord.vendor_uuid e)) eqn:E2; [by apply sempty_spec in E2|]. done.
Qed.

Definition sample_accelerator (g : Z) (uuid : string) : AcceleratorRecord.t :=
  AcceleratorRecord.mk "acc0" "node.local" g "vendor" uuid "" false false false 5.

Definition sample_state : State.t := make_observatory 1 ObservatoryOptions.default.

Lemma replaced_accelerator_refused_witness :
  is_ok (register_accelerator 9 (sample_accelerator 2 "uuid-b")
           (match register_accelerator 8 (sample_accelerator 1 "uuid-a") sample_state with
            | Ok s => s | Err _ => sample_state end)) = false.
Proof.
  apply (replaced_accelerator_refused 9 (sample_accelerator 1 "uuid-a")
           (sample_accelerator 2 "uuid-b")); by vm_compute.
Defined.

(** Setting a topology link does not advance the topology generation,
    although it changes the locality that evidence of the same generation resolves
    to. *)
Theorem set_topology_link_keeps_generation (link : TopologyLink.t) (s s' : State.t) :
  set_topology_link link s = Ok s' →
  State.topology_generation s' = State.topology_generation s
  ∧ TopologyRecord.generation (State.topology s') = TopologyRecord.generation (State.topology s)
  ∧ link ∈ TopologyRecord.links (State.topology s').
Proof.
  unfold set_topology_link. rewrite !seq_Ok. intros (_ & _ & _ & _ & _ & _ & _ & H).
  destruct (replace_link link _) as [ls|] eqn:E.
  - injection H as <-. split_and!; [done..|]. cbn. revert E. clear.
    generalize (TopologyRecord.links (State.topology s)). intros l0. revert ls.
    induction l0 as [|l l0 IH]; intros ls; cbn [replace_link]; [done|].
    case_decide; [intros [= <-]; left|]. destruct (replace_link link l0); [|done].
    intros [= <-]. right. auto.
  - rewrite seq_Ok in H. destruct H as [_ [= <-]]. split_and!; [done..|]. cbn. set_solver.
Qed.

Lemma set_topology_link_keeps_generation_witness :
  let node n := NodeRecord.mk n n 3 in
  let ref n := ResourceRef.mk ResourceKind.Node n 0 in
  let link := TopologyLink.mk (ref "n1") (ref "n2") Locality.RemoteNode 100 0 Provenance.OsTelemetry in
  ∃ s s', set_topology_link link s = Ok s'
    ∧ State.topology_generation s' = State.topology_generation s.
Proof.
  cbn zeta.
  set (s := sample_state <| State.nodes ::= λ m, <["n1"%string := NodeRecord.mk "n1" "n1" 3]>
                              (<["n2"%string := NodeRecord.mk "n2" "n2" 3]> m) |>).
  set (link := TopologyLink.mk _ _ _ _ _ _).
  exists s. eexists. split; [reflexivity|].
  apply (set_topology_link_keeps_generation link s). reflexivity.
Defined.
