(* ===== verification/Publishers.v ===== *)
(** * Publisher authority

    [register_publisher], [fence_publisher_boot], [fence_publisher],
    [fence_all_publishers] and [publisher] of [src/observatory.cpp].

    A registration can change the state and still fail (a replacement boot
    supersedes the live one before the replacement itself is refused), so these
    operations return the state beside their result.  Each operation holds the
    state mutex for its whole body and is one step; [fence_publisher] and
    [fence_all_publishers] release it between their parts, which are steps of
    their own and are given here for a caller without interference. *)

From S2P Require Import Prelude Errors TextUtil Ids Taxonomy Cost Records Observation.
From S2P Require Import Aggregate Sequence State Attribution Registry.

Module PublisherRegistration.
Record t := mk {
  id : string; boot : Z; observer : string; node : string; display_name : string;
  coordinator_epoch : Z; evidence_generation : Z; sampling_epoch : Z;
  provenance : Provenance.t;
}.
#[global] Instance eta : Eta t := fun g =>
  mk (id g) (boot g) (observer g) (node g) (display_name g) (coordinator_epoch g)
    (evidence_generation g) (sampling_epoch g) (provenance g).
End PublisherRegistration.

(** An optional name: absent, or a valid token. *)
Definition validate_optional_token (name : string) : result unit :=
  if sempty name then ok_status else validate_identity_token name.

Definition validate_registration (g : PublisherRegistration.t) : result unit :=
  validate_identity_token (PublisherRegistration.id g);;
  reject_if (is_zero (PublisherRegistration.boot g)) ErrorCode.InvalidArgument
    "publisher boot identity must be non-zero";;
  validate_optional_token (PublisherRegistration.observer g);;
  validate_optional_token (PublisherRegistration.node g);;
  reject_if (Limits.kMaxRegionAnnotationLength <? slen (PublisherRegistration.display_name g))
    ErrorCode.TooLarge "publisher display name too long";;
  reject_if (negb (valid_enum_range (Provenance.code (PublisherRegistration.provenance g)) 10))
    ErrorCode.InvalidArgument "publisher provenance out of range".

(** The watermark left behind for the boot a publisher is leaving. *)
Definition watermark_of (p : PublisherState.t) (reason : FenceReason.t) : PublisherWatermark.t :=
  let view := PublisherState.view p in
  {| PublisherWatermark.publisher := PublisherView.id view;
     PublisherWatermark.boot := PublisherView.boot view;
     PublisherWatermark.high_watermark := PublisherState.high_watermark p;
     PublisherWatermark.has_watermark := PublisherState.has_watermark p;
     PublisherWatermark.fence_reason := reason;
     PublisherWatermark.fenced := true;
     PublisherWatermark.boot_incarnations := PublisherState.boot_incarnations p;
     PublisherWatermark.last_seen_ns := PublisherView.last_seen_ns view |}.

(** A replacement boot supersedes the previous one. *)
Definition supersede (now : Z) (p : PublisherState.t) (s : State.t) : result State.t :=
  let w := watermark_of p FenceReason.SupersededByNewBoot in
  let key := boot_key (PublisherWatermark.publisher w) (PublisherWatermark.boot w) in
  reject_if ((Limits.kMaxPublisherWatermarks <=? zsize (State.watermarks s))
             && negb (is_some (State.watermarks s !! key)))
    ErrorCode.TooMany "publisher boot watermark capacity reached";;
  Ok (record_stale
        (StaleEvidenceRecord.empty
           <| StaleEvidenceRecord.kind := StaleEvidenceRecord.StaleBoot |>
           <| StaleEvidenceRecord.publisher := PublisherWatermark.publisher w |>
           <| StaleEvidenceRecord.publisher_boot := PublisherWatermark.boot w |>
           <| StaleEvidenceRecord.observed_at_ns := now |>
           <| StaleEvidenceRecord.detail :=
                "publisher boot superseded by a replacement incarnation" |>)
        (s <| State.watermarks ::= <[key := w]> |>)).

(** The checks on the publisher's existing entry, with the supersession. *)
Definition admit_boot (now : Z) (g : PublisherRegistration.t) (s : State.t) : result State.t :=
  let key := PublisherRegistration.id g in
  match State.publishers s !! key with
  | None =>
      reject_if (Limits.kMaxPublisherCount <=? zsize (State.publishers s)) ErrorCode.TooMany
        "publisher capacity reached";;
      Ok s
  | Some p =>
      if PublisherView.boot (PublisherState.view p) =? PublisherRegistration.boot g then
        reject_if_ctx (PublisherView.fenced (PublisherState.view p)) ErrorCode.StaleBoot
          "a fenced publisher boot identity is never re-admitted" key;;
        Ok s
      else supersede now p s
  end.

Definition or_one (v : Z) : Z := if is_zero v then 1 else v.

(** The view a successful registration installs, before the reset of a rebound
    publisher. *)
Definition registered_view (now : Z) (g : PublisherRegistration.t) (epoch : Z)
    (v : PublisherView.t) : PublisherView.t :=
  v <| PublisherView.id := PublisherRegistration.id g |>
    <| PublisherView.boot := PublisherRegistration.boot g |>
    <| PublisherView.observer := PublisherRegistration.observer g |>
    <| PublisherView.node := PublisherRegistration.node g |>
    <| PublisherView.display_name := PublisherRegistration.display_name g |>
    <| PublisherView.provenance := PublisherRegistration.provenance g |>
    <| PublisherView.reality := reality_of (PublisherRegistration.provenance g) |>
    <| PublisherView.registered_epoch := epoch |>
    <| PublisherView.evidence_generation := or_one (PublisherRegistration.evidence_generation g) |>
    <| PublisherView.sampling_epoch := or_one (PublisherRegistration.sampling_epoch g) |>
    <| PublisherView.registered_at_ns := now |>
    <| PublisherView.last_seen_ns := now |>
    <| PublisherView.current := true |>
    <| PublisherView.fenced := false |>
    <| PublisherView.fence_reason := FenceReason.NotFenced |>
    <| PublisherView.fence_detail := ""%string |>
    <| PublisherView.loaded_from_state := false |>.

(** [if (rebinding)]: a new boot starts its sequences afresh. *)
Definition rebind (p : PublisherState.t) : PublisherState.t :=
  p <| PublisherState.view ::= λ v,
         v <| PublisherView.sequences := SequenceState.empty |>
           <| PublisherView.accepted_events := 0 |>
           <| PublisherView.accepted_batches := 0 |>
           <| PublisherView.accepted_counters := 0 |>
           <| PublisherView.rejected_events := 0 |> |>
    <| PublisherState.has_watermark := false |>
    <| PublisherState.high_watermark := 0 |>
    <| PublisherState.window := Memory.empty |>
    <| PublisherState.recent_events := Memory.empty |>
    <| PublisherState.boot_incarnations ::= incr |>.

(** Restoring a durable replay watermark of the same boot. *)
Definition restore_watermark (w : PublisherWatermark.t) (p : PublisherState.t)
    : PublisherState.t :=
  if PublisherWatermark.has_watermark w && negb (PublisherState.has_watermark p) then
    p <| PublisherState.has_watermark := true |>
      <| PublisherState.high_watermark := PublisherWatermark.high_watermark w |>
      <| PublisherState.durable_watermark := true |>
      <| PublisherState.view ::= λ v, v <| PublisherView.sequences ::= λ q,
           q <| SequenceState.high_watermark := PublisherWatermark.high_watermark w |> |> |>
  else p.

Definition install_publisher (now : Z) (g : PublisherRegistration.t) (s : State.t)
    : State.t * PublisherView.t :=
  let key := PublisherRegistration.id g in
  let bkey := boot_key key (PublisherRegistration.boot g) in
  let p := default PublisherState.empty (State.publishers s !! key) in
  let rebinding := negb (PublisherView.boot (PublisherState.view p) =? PublisherRegistration.boot g) in
  let p := p <| PublisherState.view ::= registered_view now g (State.coordinator_epoch s) |> in
  let p := if rebinding then rebind p else p in
  match State.watermarks s !! bkey with
  | Some w =>
      if PublisherWatermark.boot w =? PublisherRegistration.boot g then
        let p := restore_watermark w p in
        let w := w <| PublisherWatermark.fenced := false |>
                   <| PublisherWatermark.fence_reason := FenceReason.NotFenced |> in
        (s <| State.publishers ::= <[key := p]> |> <| State.watermarks ::= <[bkey := w]> |>,
         PublisherState.view p)
      else (s <| State.publishers ::= <[key := p]> |>, PublisherState.view p)
  | None => (s <| State.publishers ::= <[key := p]> |>, PublisherState.view p)
  end.

Definition is_fenced_watermark (w : option PublisherWatermark.t) : bool :=
  match w with Some w => PublisherWatermark.fenced w | None => false end.

(** [now_stale] and [now] are the two clock readings, in order. *)
Definition register_publisher (now_stale now : Z) (g : PublisherRegistration.t) (s : State.t)
    : State.t * result PublisherView.t :=
  match validate_registration g with
  | Err e => (s, Err e)
  | Ok _ =>
      let epoch := PublisherRegistration.coordinator_epoch g in
      if negb (is_zero epoch) && negb (epoch =? State.coordinator_epoch s) then
        (s, fail_ctx ErrorCode.StaleEpoch "publisher presented a stale coordinator epoch"
              (format_u64 epoch))
      else
        match admit_boot now_stale g s with
        | Err e => (s, Err e)
        | Ok s =>
            let bkey := boot_key (PublisherRegistration.id g) (PublisherRegistration.boot g) in
            if is_fenced_watermark (State.watermarks s !! bkey) then
              (s, fail_ctx ErrorCode.StaleBoot
                    "publisher boot identity was fenced and can never be re-admitted" bkey)
            else
              let '(s, v) := install_publisher now g s in (s, Ok v)
        end
  end.

(** [while (size > max) erase(begin());]: as many rounds as there are entries
    suffice, since each round removes one. *)
Fixpoint trim_watermarks (rounds : nat) (m : gmap string PublisherWatermark.t)
    : gmap string PublisherWatermark.t :=
  match rounds with
  | O => m
  | S rounds =>
      if Limits.kMaxPublisherWatermarks <? zsize m
      then trim_watermarks rounds (erase_begin m) else m
  end.

Definition fence_publisher_boot (now : Z) (publisher : string) (boot : Z)
    (reason : FenceReason.t) (detail : string) (s : State.t) : result (State.t * PublisherView.t) :=
  reject_if (Limits.kMaxRegionAnnotationLength <? slen detail) ErrorCode.TooLarge
    "fence detail too long";;
  match State.publishers s !! publisher with
  | None => fail_ctx ErrorCode.NotFound "unknown publisher" publisher
  | Some p =>
      reject_if_ctx (negb (PublisherView.boot (PublisherState.view p) =? boot)) ErrorCode.StaleBoot
        "fence names a publisher boot that is not current" (format_u64 boot);;
      let p := p <| PublisherState.view ::= λ v,
                      v <| PublisherView.current := false |>
                        <| PublisherView.fenced := true |>
                        <| PublisherView.fence_reason := reason |>
                        <| PublisherView.fence_detail := detail |> |> in
      let w := (watermark_of p reason) <| PublisherWatermark.publisher := publisher |>
                                       <| PublisherWatermark.boot := boot |> in
      let ws := <[boot_key publisher boot := w]> (State.watermarks s) in
      let s := s <| State.publishers ::= <[publisher := p]> |>
                 <| State.watermarks := trim_watermarks (size ws) ws |> in
      Ok (record_stale
            (StaleEvidenceRecord.empty
               <| StaleEvidenceRecord.kind := StaleEvidenceRecord.FencedPublisher |>
               <| StaleEvidenceRecord.publisher := publisher |>
               <| StaleEvidenceRecord.publisher_boot := boot |>
               <| StaleEvidenceRecord.observed_at_ns := now |>
               <| StaleEvidenceRecord.detail :=
                    "publisher fenced (" +:+ FenceReason.to_string reason +:+ "): " +:+ detail |>)
            s, PublisherState.view p)
  end.

Definition fence_publisher (now : Z) (publisher : string) (reason : FenceReason.t)
    (detail : string) (s : State.t) : result (State.t * PublisherView.t) :=
  match State.publishers s !! publisher with
  | None => fail_ctx ErrorCode.NotFound "unknown publisher" publisher
  | Some p =>
      fence_publisher_boot now publisher (PublisherView.boot (PublisherState.view p)) reason detail s
  end.

Definition publisher_boots (s : State.t) : list (string * Z) :=
  (λ e, (PublisherView.id (PublisherState.view e.2), PublisherView.boot (PublisherState.view e.2)))
    <$> entries (State.publishers s).

(** The loop over the collected boots; it stops at the first error that is not
    NotFound, keeping the fences already made. *)
Fixpoint fence_boots (now : Z) (boots : list (string * Z)) (reason : FenceReason.t)
    (detail : string) (s : State.t) : State.t * result unit :=
  match boots with
  | [] => (s, ok_status)
  | (id, boot) :: rest =>
      match fence_publisher_boot now id boot reason detail s with
      | Ok (s, _) => fence_boots now rest reason detail s
      | Err e =>
          if decide (Error.code e = ErrorCode.NotFound)
          then fence_boots now rest reason detail s
          else (s, Err e)
      end
  end.

Definition fence_all_publishers (now : Z) (reason : FenceReason.t) (detail : string)
    (s : State.t) : State.t * result unit :=
  fence_boots now (publisher_boots s) reason detail s.

Definition publisher (id : string) (s : State.t) : result PublisherView.t :=
  match State.publishers s !! id with
  | None => fail_ctx ErrorCode.NotFound "unknown publisher" id
  | Some p => Ok (PublisherState.view p)
  end.

(** ** The publisher invariant *)

Record publishers_ok (s : State.t) : Prop := {
  pub_entries : map_Forall (λ k p, PublisherView.id (PublisherState.view p) = k
    ∧ sequence_inv p
    ∧ (PublisherView.fenced (PublisherState.view p) = true →
       PublisherView.current (PublisherState.view p) = false)) (State.publishers s);
  pub_count : zsize (State.publishers s) ≤ Limits.kMaxPublisherCount;
  pub_watermarks : zsize (State.watermarks s) ≤ Limits.kMaxPublisherWatermarks;
}.

(** Publishers and watermarks of two states coincide. *)
Definition same_publishers (s s' : State.t) : Prop :=
  State.publishers s' = State.publishers s ∧ State.watermarks s' = State.watermarks s.

Lemma publishers_ok_same s s' : same_publishers s s' → publishers_ok s → publishers_ok s'.
Proof. intros [E1 E2] []. constructor; rewrite ?E1, ?E2; done. Qed.

Lemma supersede_spec now p s s' :
  supersede now p s = Ok s' →
  let key := boot_key (PublisherView.id (PublisherState.view p))
               (PublisherView.boot (PublisherState.view p)) in
  State.publishers s' = State.publishers s
  ∧ State.watermarks s' = <[key := watermark_of p FenceReason.SupersededByNewBoot]> (State.watermarks s)
  ∧ (zsize (State.watermarks s) ≤ Limits.kMaxPublisherWatermarks →
     zsize (State.watermarks s') ≤ Limits.kMaxPublisherWatermarks)
  ∧ same_registry s s'.
Proof.
  unfold supersede. rewrite seq_Ok, reject_if_Ok. intros [Hcap [= <-]]. cbn zeta.
  split_and!; try done. cbn. intros Hsz. revert Hcap. cbn.
  set (key := boot_key _ _). destruct (State.watermarks s !! key) as [w|] eqn:E; cbn.
  - intros _. by rewrite (zsize_insert_Some _ _ _ _ E).
  - rewrite andb_true_r, Z.leb_gt. intros Hlt. rewrite zsize_insert_None by done. lia.
Qed.

(** What the admission stage leaves: the same publishers, and one more fenced
    watermark when a boot was superseded. *)
Lemma admit_boot_spec now g s s' :
  admit_boot now g s = Ok s' →
  State.publishers s' = State.publishers s ∧ same_registry s s'
  ∧ (zsize (State.watermarks s) ≤ Limits.kMaxPublisherWatermarks →
     zsize (State.watermarks s') ≤ Limits.kMaxPublisherWatermarks)
  ∧ (∀ k, is_fenced_watermark (State.watermarks s !! k) = true →
          is_fenced_watermark (State.watermarks s' !! k) = true)
  ∧ match State.publishers s !! PublisherRegistration.id g with
    | None => zsize (State.publishers s) < Limits.kMaxPublisherCount
    | Some p =>
        if PublisherView.boot (PublisherState.view p) =? PublisherRegistration.boot g
        then PublisherView.fenced (PublisherState.view p) = false
        else is_fenced_watermark (State.watermarks s'
               !! boot_key (PublisherView.id (PublisherState.view p))
                    (PublisherView.boot (PublisherState.view p))) = true
    end.
Proof.
  unfold admit_boot. destruct (State.publishers s !! _) as [p|].
  - destruct (_ =? _) eqn:Eb.
    + rewrite seq_Ok, reject_if_ctx_Ok. intros [Hf [= <-]]. split_and!; done.
    + intros H. destruct (supersede_spec now p s s' H) as (Hp & Hw & Hsz & Hr).
      split_and!; try done; rewrite Hw.
      * intros k Hk. destruct (decide (boot_key (PublisherView.id (PublisherState.view p))
          (PublisherView.boot (PublisherState.view p)) = k)) as [<-|Hne];
          [by rewrite lookup_insert_eq|by rewrite lookup_insert_ne].
      * by rewrite lookup_insert_eq.
  - rewrite seq_Ok, reject_if_Ok, Z.leb_gt. intros [Hc [= <-]]. split_and!; done.
Qed.

Lemma rebind_inv p : sequence_inv (rebind p).
Proof.
  split_and!; [by apply MemoryFacts.inv_empty..|]. intros k Hk. by apply elem_of_nil in Hk.
Qed.

Lemma restore_watermark_inv w p : sequence_inv p → sequence_inv (restore_watermark w p).
Proof.
  intros Hp. unfold restore_watermark. destruct (_ && _) eqn:E; [|done].
  apply andb_true_iff in E as [_ E]. apply negb_true_iff in E. destruct Hp as (Hw & Hr & Hle).
  split_and!; [done..|]. intros k Hk. destruct (Hle k Hk). congruence.
Qed.

Lemma restore_watermark_view w p :
  PublisherView.id (PublisherState.view (restore_watermark w p)) = PublisherView.id (PublisherState.view p)
  ∧ PublisherView.boot (PublisherState.view (restore_watermark w p))
    = PublisherView.boot (PublisherState.view p)
  ∧ PublisherView.current (PublisherState.view (restore_watermark w p))
    = PublisherView.current (PublisherState.view p)
  ∧ PublisherView.fenced (PublisherState.view (restore_watermark w p))
    = PublisherView.fenced (PublisherState.view p).
Proof. unfold restore_watermark. by case_match. Qed.

(** The entry a registration installs. *)
Lemma install_publisher_spec now g s :
  map_Forall (λ _ p, sequence_inv p) (State.publishers s) →
  let '(s', v) := install_publisher now g s in
  ∃ p, State.publishers s' = <[PublisherRegistration.id g := p]> (State.publishers s)
    ∧ v = PublisherState.view p ∧ sequence_inv p
    ∧ PublisherView.id v = PublisherRegistration.id g
    ∧ PublisherView.boot v = PublisherRegistration.boot g
    ∧ PublisherView.current v = true ∧ PublisherView.fenced v = false
    ∧ same_registry s s'
    ∧ zsize (State.watermarks s') = zsize (State.watermarks s)
    ∧ (∀ k, k ≠ boot_key (PublisherRegistration.id g) (PublisherRegistration.boot g) →
            State.watermarks s' !! k = State.watermarks s !! k).
Proof.
  intros Hseq. unfold install_publisher.
  set (p0 := default PublisherState.empty _). set (p1 := p0 <| _ ::= _ |>).
  set (p2 := if negb _ then rebind p1 else p1).
  assert (H0 : sequence_inv p0).
  { unfold p0. destruct (State.publishers s !! _) as [p|] eqn:E; [by apply (Hseq _ _ E)|]. apply sequence_inv_empty. }
  assert (H2 : sequence_inv p2) by (unfold p2; case_match; [apply rebind_inv|exact H0]).
  assert (Hv : PublisherView.id (PublisherState.view p2) = PublisherRegistration.id g
    ∧ PublisherView.boot (PublisherState.view p2) = PublisherRegistration.boot g
    ∧ PublisherView.current (PublisherState.view p2) = true
    ∧ PublisherView.fenced (PublisherState.view p2) = false) by (unfold p2; by case_match).
  clearbody p2. destruct Hv as (Hid & Hb & Hc & Hf).
  destruct (State.watermarks s !! _) as [w|] eqn:Ew; [destruct (_ =? _)|].
  - destruct (restore_watermark_view w p2) as (R1 & R2 & R3 & R4).
    exists (restore_watermark w p2). rewrite R1, R2, R3, R4.
    split_and!; try done; [by apply restore_watermark_inv|cbn; by rewrite (zsize_insert_Some _ _ _ _ Ew)|].
    intros k Hk. cbn. by rewrite lookup_insert_ne.
  - by exists p2.
  - by exists p2.
Qed.

(** The outcomes of a registration: nothing changed, only the supersession
    happened, or the publisher was installed. *)
Lemma register_publisher_cases now1 now g s :
  let '(s', r) := register_publisher now1 now g s in
  (s' = s ∧ ∃ e, r = Err e)
  ∨ ∃ s1, admit_boot now1 g s = Ok s1
     ∧ ((is_fenced_watermark (State.watermarks s1 !!
           boot_key (PublisherRegistration.id g) (PublisherRegistration.boot g)) = true
         ∧ s' = s1 ∧ ∃ e, r = Err e)
        ∨ (is_fenced_watermark (State.watermarks s1 !!
             boot_key (PublisherRegistration.id g) (PublisherRegistration.boot g)) = false
           ∧ s' = (install_publisher now g s1).1 ∧ r = Ok (install_publisher now g s1).2)).
Proof.
  unfold register_publisher. destruct (validate_registration g) as [u|e]; [|eauto].
  destruct (_ && _); [left; eauto|]. destruct (admit_boot now1 g s) as [s1|e]; [|eauto].
  destruct (is_fenced_watermark _) eqn:E.
  - right. exists s1. split; [done|]. left. eauto.
  - destruct (install_publisher now g s1) as [s2 v] eqn:Ei. right. exists s1. split; [done|].
    right. rewrite Ei. by split_and!.
Qed.

Lemma publishers_ok_seq s :
  publishers_ok s → map_Forall (λ _ p, sequence_inv p) (State.publishers s).
Proof. intros [H _ _]. eapply map_Forall_impl; [exact H|]. cbn. tauto. Qed.

Lemma register_publisher_ok now1 now g s :
  publishers_ok s → publishers_ok (register_publisher now1 now g s).1
    ∧ same_registry s (register_publisher now1 now g s).1.
Proof.
  intros Hok. pose proof (register_publisher_cases now1 now g s) as H.
  destruct (register_publisher now1 now g s) as [s' r]. cbn [fst].
  destruct H as [[-> _]|(s1 & Ha & H)]; [done|].
  destruct (admit_boot_spec now1 g s s1 Ha) as (Hp1 & Hr1 & Hsz1 & _ & Hcase).
  destruct Hok as [He Hc Hw].
  assert (Hok1 : publishers_ok s1) by (constructor; [by rewrite Hp1|by rewrite Hp1|auto]).
  destruct H as [(_ & -> & _)|(_ & -> & _)]; [done|].
  pose proof (install_publisher_spec now g s1 (publishers_ok_seq s1 Hok1)) as Hi.
  destruct (install_publisher now g s1) as [s2 v]. cbn [fst].
  destruct Hi as (p & Hpub & -> & Hseq & Hid & Hb & Hcur & Hf & Hreg & Hsz2 & _).
  split; [|by etransitivity]. constructor.
  - rewrite Hpub, Hp1. apply map_Forall_insert_2; [|exact He]. split_and!; [done..|]. congruence.
  - rewrite Hpub, Hp1. destruct (State.publishers s !! PublisherRegistration.id g) as [q|] eqn:Eq.
    + by rewrite (zsize_insert_Some _ _ _ _ Eq).
    + rewrite zsize_insert_None by done. lia.
  - rewrite Hsz2. auto.
Qed.

(** *** Fencing *)

Lemma trim_watermarks_id rounds m :
  zsize m ≤ Limits.kMaxPublisherWatermarks → trim_watermarks rounds m = m.
Proof.
  intros H. destruct rounds; cbn [trim_watermarks]; [done|].
  destruct (Z.ltb_spec Limits.kMaxPublisherWatermarks (zsize m)); [lia|done].
Qed.

Lemma trim_watermarks_bound rounds : ∀ m,
  zsize m ≤ Z.of_nat rounds → zsize (trim_watermarks rounds m) ≤ Limits.kMaxPublisherWatermarks.
Proof.
  induction rounds as [|n IH]; intros m Hm; cbn [trim_watermarks].
  - unfold Limits.kMaxPublisherWatermarks. lia.
  - destruct (Z.ltb_spec Limits.kMaxPublisherWatermarks (zsize m)); [|done].
    apply IH. rewrite zsize_erase_begin; unfold Limits.kMaxPublisherWatermarks in *; lia.
Qed.

(** What a successful fence does. *)
Lemma fence_publisher_boot_spec now id boot reason detail s s' v :
  fence_publisher_boot now id boot reason detail s = Ok (s', v) →
  ∃ p w, State.publishers s !! id = Some p
    ∧ PublisherView.boot (PublisherState.view p) = boot
    ∧ State.publishers s' = <[id := p <| PublisherState.view := v |>]> (State.publishers s)
    ∧ PublisherView.id v = PublisherView.id (PublisherState.view p)
    ∧ PublisherView.boot v = boot ∧ PublisherView.current v = false ∧ PublisherView.fenced v = true
    ∧ PublisherWatermark.fenced w = true
    ∧ State.watermarks s' = trim_watermarks (size (<[boot_key id boot := w]> (State.watermarks s)))
        (<[boot_key id boot := w]> (State.watermarks s))
    ∧ same_registry s s'.
Proof.
  unfold fence_publisher_boot. rewrite seq_Ok. intros [_ H].
  destruct (State.publishers s !! id) as [p|] eqn:E; [|done].
  rewrite seq_Ok, reject_if_ctx_Ok, negb_false_iff, Z.eqb_eq in H. destruct H as [Hb [= <- <-]].
  exists p. eexists. split_and!; [done|done|done|done|exact Hb|done|done| |reflexivity|by split_and!].
  done.
Qed.

Lemma fence_publisher_boot_ok now id boot reason detail s s' v :
  publishers_ok s → fence_publisher_boot now id boot reason detail s = Ok (s', v) →
  publishers_ok s' ∧ same_registry s s'.
Proof.
  intros [He Hc Hw] H.
  destruct (fence_publisher_boot_spec _ _ _ _ _ _ _ _ H)
    as (p & w & Ep & Eb & Hp & Hid & _ & Hcur & _ & _ & Hws & Hr). split; [|done].
  destruct (He _ _ Ep) as (Hid' & Hseq & _). constructor.
  - rewrite Hp. apply map_Forall_insert_2; [|exact He]. cbn. split_and!; [congruence|exact Hseq|done].
  - rewrite Hp. by rewrite (zsize_insert_Some _ _ _ _ Ep).
  - rewrite Hws. by apply trim_watermarks_bound.
Qed.

(** ** Fenced boots *)

(** A boot that must never publish again: the fenced live boot of its publisher,
    or one whose watermark is fenced. *)
Definition barred (s : State.t) (id : string) (boot : Z) : Prop :=
  (∃ p, State.publishers s !! id = Some p ∧ PublisherView.boot (PublisherState.view p) = boot
        ∧ PublisherView.fenced (PublisherState.view p) = true)
  ∨ is_fenced_watermark (State.watermarks s !! boot_key id boot) = true.

Lemma barred_same s s' id boot : same_publishers s s' → barred s id boot → barred s' id boot.
Proof. intros [E1 E2]. unfold barred. by rewrite E1, E2. Qed.

Lemma register_publisher_barred now1 now g s id boot :
  publishers_ok s → barred s id boot → barred (register_publisher now1 now g s).1 id boot.
Proof.
  intros Hok Hb. pose proof (register_publisher_cases now1 now g s) as H.
  destruct (register_publisher now1 now g s) as [s' r]. cbn [fst].
  destruct H as [[-> _]|(s1 & Ha & H)]; [done|].
  destruct (admit_boot_spec now1 g s s1 Ha) as (Hp1 & _ & _ & Hmono & Hcase).
  assert (Hb1 : barred s1 id boot).
  { destruct Hb as [(p & Ep & Eb & Ef)|Hw]; [left; exists p; by rewrite Hp1|right; auto]. }
  destruct H as [(_ & -> & _)|(Hnf & -> & _)]; [done|].
  assert (Hseq : map_Forall (λ _ p, sequence_inv p) (State.publishers s1))
    by (rewrite Hp1; by apply publishers_ok_seq).
  pose proof (install_publisher_spec now g s1 Hseq) as Hi.
  destruct (install_publisher now g s1) as [s2 v]. cbn [fst].
  destruct Hi as (q & Hpub & _ & _ & _ & _ & _ & _ & _ & _ & Hkeep).
  assert (Hw : is_fenced_watermark (State.watermarks s1 !! boot_key id boot) = true →
    barred s2 id boot).
  { intros Hf. right. rewrite Hkeep; [done|]. intros E. rewrite E in Hf. congruence. }
  destruct Hb1 as [(p & Ep & Eb & Ef)|Hf]; [|auto].
  destruct (decide (id = PublisherRegistration.id g)) as [->|Hne].
  - apply Hw. rewrite Hp1 in Ep. rewrite Ep in Hcase.
    destruct (_ =? _); [congruence|]. destruct (pub_entries s Hok _ _ Ep) as (Hid & _).
    by rewrite Hid, Eb in Hcase.
  - left. exists p. by rewrite Hpub, lookup_insert_ne.
Qed.

Lemma fence_publisher_boot_barred now id' boot' reason detail s s' v id boot :
  publishers_ok s → zsize (State.watermarks s) < Limits.kMaxPublisherWatermarks →
  fence_publisher_boot now id' boot' reason detail s = Ok (s', v) →
  barred s id boot → barred s' id boot.
Proof.
  intros Hok Hsz H Hb.
  destruct (fence_publisher_boot_spec _ _ _ _ _ _ _ _ H)
    as (p & w & Ep & Eb & Hp & _ & Hvb & _ & Hvf & Hwf & Hws & _).
  rewrite trim_watermarks_id in Hws by (pose proof (zsize_insert_le (State.watermarks s) (boot_key id' boot') w); lia).
  destruct Hb as [(q & Eq & Eqb & Eqf)|Hf].
  - left. destruct (decide (id = id')) as [->|Hne].
    + exists (p <| PublisherState.view := v |>). rewrite Hp, lookup_insert_eq. split_and!; [done| |done].
      cbn. rewrite Hvb, <-Eqb, <-Eb. by rewrite Ep in Eq; injection Eq as ->.
    + exists q. by rewrite Hp, lookup_insert_ne.
  - right. rewrite Hws. destruct (decide (boot_key id' boot' = boot_key id boot)) as [E|E].
    + by rewrite E, lookup_insert_eq.
    + by rewrite lookup_insert_ne.
Qed.

Lemma fence_publisher_boot_bars now id boot reason detail s s' v :
  fence_publisher_boot now id boot reason detail s = Ok (s', v) → barred s' id boot.
Proof.
  intros H. destruct (fence_publisher_boot_spec _ _ _ _ _ _ _ _ H)
    as (p & w & _ & _ & Hp & _ & Hvb & _ & Hvf & _).
  left. exists (p <| PublisherState.view := v |>). by rewrite Hp, lookup_insert_eq.
Qed.

Lemma barred_refused now1 now g s :
  barred s (PublisherRegistration.id g) (PublisherRegistration.boot g) →
  is_ok (register_publisher now1 now g s).2 = false.
Proof.
  intros Hb. pose proof (register_publisher_cases now1 now g s) as H.
  destruct (register_publisher now1 now g s) as [s' r]. cbn [snd].
  destruct H as [[_ [e ->]]|(s1 & Ha & [(_ & _ & e & ->)|(Hnf & _ & ->)])]; [done..|]. exfalso.
  destruct (admit_boot_spec now1 g s s1 Ha) as (_ & _ & _ & Hmono & Hcase).
  destruct Hb as [(p & Ep & Eb & Ef)|Hf]; [|apply Hmono in Hf; congruence].
  rewrite Ep, Eb, Z.eqb_refl in Hcase. congruence.
Qed.

(** A replacement boot takes over cleanly: when a registration succeeds,
    the publisher is live and unfenced under exactly the registered boot, and if it
    was registered under another boot before, that boot is barred from then on. *)
Theorem registration_supersedes (now1 now : Z) (g : PublisherRegistration.t) (s : State.t)
    (v : PublisherView.t) :
  publishers_ok s → (register_publisher now1 now g s).2 = Ok v →
  let s' := (register_publisher now1 now g s).1 in
  let id := PublisherRegistration.id g in
  (∃ p, State.publishers s' !! id = Some p ∧ PublisherState.view p = v
    ∧ PublisherView.boot v = PublisherRegistration.boot g
    ∧ PublisherView.current v = true ∧ PublisherView.fenced v = false)
  ∧ (∀ q, State.publishers s !! id = Some q →
       PublisherView.boot (PublisherState.view q) ≠ PublisherRegistration.boot g →
       barred s' id (PublisherView.boot (PublisherState.view q))).
Proof.
  intros Hok Hr. cbn zeta. pose proof (register_publisher_cases now1 now g s) as H.
  destruct (register_publisher now1 now g s) as [s' r]. cbn [fst snd] in *.
  destruct H as [(_ & e & ->)|(s1 & Ha & [(_ & _ & e & ->)|(Hnf & -> & Ev)])]; [done..|].
  rewrite Ev in Hr. injection Hr as Hr.
  destruct (admit_boot_spec now1 g s s1 Ha) as (Hp1 & _ & _ & _ & Hcase).
  assert (Hseq : map_Forall (λ _ p, sequence_inv p) (State.publishers s1))
    by (rewrite Hp1; by apply publishers_ok_seq).
  pose proof (install_publisher_spec now g s1 Hseq) as Hi.
  destruct (install_publisher now g s1) as [s2 v2]. cbn [fst snd] in *. subst v2.
  destruct Hi as (p & Hpub & Hv & _ & _ & Hb & Hc & Hf & _ & _ & Hkeep). split.
  - exists p. by rewrite Hpub, lookup_insert_eq.
  - intros q Eq Hne. rewrite Eq in Hcase. apply Z.eqb_neq in Hne. rewrite Hne in Hcase.
    destruct (pub_entries s Hok _ _ Eq) as (Hid & _). rewrite Hid in Hcase.
    right. rewrite Hkeep; [done|]. intros E. rewrite E in Hcase. congruence.
Qed.

Definition sample_registration (id : string) (boot : Z) : PublisherRegistration.t :=
  PublisherRegistration.mk id boot "" "" "" 0 1 1 Provenance.OsTelemetry.

Definition register (id : string) (boot : Z) (s : State.t) : State.t :=
  (register_publisher 2 3 (sample_registration id boot) s).1.
Definition fence (id : string) (s : State.t) : State.t :=
  match fence_publisher 4 id FenceReason.Administrative "" s with Ok (s, _) => s | Err _ => s end.

Lemma make_observatory_publishers_ok now options : publishers_ok (make_observatory now options).
Proof. constructor; cbn; [apply map_Forall_empty|done..]. Qed.

Lemma registration_supersedes_witness :
  barred (register "pub" 2 (register "pub" 1 sample_state)) "pub" 1.
Proof.
  destruct (registration_supersedes 2 3 (sample_registration "pub" 2) (register "pub" 1 sample_state)
    (match (register_publisher 2 3 (sample_registration "pub" 2) (register "pub" 1 sample_state)).2 with
     | Ok v => v | Err _ => PublisherView.empty end)) as [_ H].
  - apply register_publisher_ok, make_observatory_publishers_ok.
  - by vm_compute.
  - destruct (State.publishers (register "pub" 1 sample_state) !! "pub"%string) as [q|] eqn:E;
      [|vm_compute in E; discriminate E].
    assert (Eb : PublisherView.boot (PublisherState.view q) = 1) by (vm_compute in E; by injection E as <-).
    specialize (H q E). rewrite Eb in H. apply H. done.
Defined.

(** *** Where permanence fails *)

Fixpoint restart_publisher (n : nat) (boot : Z) (s : State.t) : State.t :=
  match n with
  | O => s
  | S n => restart_publisher n (boot + 1) (fence "pub" (register "pub" boot s))
  end.

(** A fenced boot can come back: the table of fenced boots is bounded to
    256 and drops its smallest key when full, so after one publisher has been
    registered and fenced under boots 1 to 257 the boot fenced first is admitted
    again, although it was refused before. *)
Theorem fenced_boot_readmitted_after_eviction :
  is_ok (register_publisher 2 3 (sample_registration "pub" 1)
           (restart_publisher 256 1 sample_state)).2 = false
  ∧ is_ok (register_publisher 2 3 (sample_registration "pub" 1)
             (restart_publisher 257 1 sample_state)).2 = true.
Proof. split; vm_compute; reflexivity. Qed.

(** A publisher live under boot 1 whose boot 2 is fenced. *)
Definition contested_state : State.t :=
  register "pub" 1 (sample_state <| State.watermarks ::=
    <[boot_key "pub" 2 := PublisherWatermark.mk "pub" 2 0 false FenceReason.Administrative true 1 0]> |>).

(** A refused registration is not free of effects: when a fenced boot
    tries to replace a live one it is refused, but the live boot has by then been
    written down as superseded, so the live publisher can no longer renew its own
    registration. *)
Theorem refused_registration_bars_live_boot :
  let s := contested_state in
  let s' := (register_publisher 2 3 (sample_registration "pub" 2) s).1 in
  is_ok (register_publisher 2 3 (sample_registration "pub" 2) s).2 = false
  ∧ is_ok (register_publisher 2 3 (sample_registration "pub" 1) s).2 = true
  ∧ is_ok (register_publisher 2 3 (sample_registration "pub" 1) s').2 = false
  ∧ is_ok (publisher "pub" s') = true.
Proof. vm_compute. by split_and!. Qed.
