(* ===== verification/Ingest.v ===== *)
(** * Ingestion

    [ingest_locked], [ingest] and [ingest_batch] of [src/observatory.cpp].

    Every refusal is recorded in the loss report, so these operations return the
    state beside their outcome.  [now] is the clock reading an accepted
    observation takes. *)

From S2P Require Import Prelude Errors Checked TextUtil Ids Taxonomy Cost Records Observation.
From S2P Require Import Aggregate Sequence State Attribution Registry Publishers.

(** ** Outcomes *)

Module IngestionOutcome.
Record t := mk {
  disposition : IngestionDisposition.t; code : ErrorCode.t; detail : string;
  counted : bool; missing_sequences : Z;
  attribution : AttributionOutcome.t; attribution_reason : string;
}.
Definition rejected (c : ErrorCode.t) (detail : string) : t :=
  mk IngestionDisposition.Rejected c detail false 0 AttributionOutcome.Unattributed "".
End IngestionOutcome.

Module BatchOutcome.
Record t := mk {
  accepted : Z; accepted_late : Z; duplicates : Z; rejected : Z; missing_sequences : Z;
  per_event : list IngestionOutcome.t;
}.
#[global] Instance eta : Eta t := fun b =>
  mk (accepted b) (accepted_late b) (duplicates b) (rejected b) (missing_sequences b) (per_event b).
Definition empty : t := mk 0 0 0 0 0 [].
End BatchOutcome.

(** ** Shared steps *)

Definition lose (f : LossReport.t → LossReport.t) (s : State.t) : State.t :=
  s <| State.loss ::= f |>.
Definition set_publisher (id : string) (p : PublisherState.t) (s : State.t) : State.t :=
  s <| State.publishers ::= <[id := p]> |>.
Definition on_view (f : PublisherView.t → PublisherView.t) (p : PublisherState.t)
    : PublisherState.t := p <| PublisherState.view ::= f |>.
Definition on_sequences (f : SequenceState.t → SequenceState.t) (p : PublisherState.t)
    : PublisherState.t := on_view (λ v, v <| PublisherView.sequences ::= f |>) p.

(** The publisher's own accounting of an accepted sequence. *)
Definition note_accepted (now : Z) (d : SequenceDecision.t) (p : PublisherState.t)
    : PublisherState.t :=
  let high := PublisherState.high_watermark p in
  let missing := SequenceDecision.missing d in
  let late q := if decide (SequenceDecision.disposition d = IngestionDisposition.AcceptedLate)
                then q <| SequenceState.late_events ::= incr |> else q in
  let gap q := if missing =? 0 then q
               else q <| SequenceState.missing_events ::= λ n, u64_add n missing |>
                      <| SequenceState.sequence_gaps ::= incr |> in
  on_view (λ v, v <| PublisherView.last_seen_ns := now |>)
    (on_sequences (λ q, (gap (late q)) <| SequenceState.accepted ::= incr |>
                                       <| SequenceState.high_watermark := high |>
                                       <| SequenceState.next_expected := next_id high |>) p).

Definition lose_missing (d : SequenceDecision.t) (s : State.t) : State.t :=
  if SequenceDecision.missing d =? 0 then s
  else lose (λ l, l <| LossReport.missing_sequences ::=
                        λ n, u64_add n (SequenceDecision.missing d) |>) s.

(** ** Observations *)

(** The authority checks on a registered publisher. *)
Definition refuse_authority (s : State.t) (p : PublisherState.t) (o : Observation.t)
    : option (ErrorCode.t * string) :=
  let v := PublisherState.view p in
  if negb (PublisherView.boot v =? Observation.publisher_boot o)
  then Some (ErrorCode.StaleBoot, "superseded publisher boot"%string)
  else if negb (Observation.coordinator_epoch o =? State.coordinator_epoch s)
  then Some (ErrorCode.StaleEpoch, "stale coordinator epoch"%string)
  else if negb (PublisherView.current v && negb (PublisherView.fenced v))
          && ObservatoryOptions.enforce_current_publisher (State.options s)
  then Some (ErrorCode.StaleBoot, "publisher boot is not current"%string)
  else None.

(** A duplicate event id with different content, under an acceptable sequence. *)
Definition conflicting_event (p : PublisherState.t) (o : Observation.t) (hash : Z)
    (d : SequenceDecision.t) : bool :=
  match Memory.table (PublisherState.recent_events p) !! Observation.event_id o with
  | Some prior => negb (prior =? hash) && SequenceDecision.mutate d
  | None => false
  end.

Definition stale_kind (a : AttributionResult.t) : StaleEvidenceRecord.Kind :=
  if AttributionResult.has_reason attribution_reason.kRetiredRegion a
  then StaleEvidenceRecord.RetiredRegion
  else if AttributionResult.has_reason attribution_reason.kStaleTopology a
  then StaleEvidenceRecord.TopologySuperseded
  else if AttributionResult.has_reason attribution_reason.kStaleRegionGeneration a
  then StaleEvidenceRecord.StaleGeneration
  else StaleEvidenceRecord.StaleBoot.

Definition first_reason (default_text : string) (a : AttributionResult.t) : string :=
  match AttributionResult.reasons a with [] => default_text | r :: _ => r end.

Definition stale_record (o : Observation.t) (a : AttributionResult.t) : StaleEvidenceRecord.t :=
  let detail := "attribution outcome " +:+ AttributionOutcome.to_string (AttributionResult.outcome a)
                +:+ " (" +:+ first_reason "no reason" a +:+ ")" in
  let stale := bool_decide (AttributionResult.outcome a = AttributionOutcome.StaleEvidence) in
  {| StaleEvidenceRecord.kind := if stale then stale_kind a else StaleEvidenceRecord.StaleGeneration;
     StaleEvidenceRecord.event_id := Observation.event_id o;
     StaleEvidenceRecord.publisher := Observation.source_publisher o;
     StaleEvidenceRecord.publisher_boot := Observation.publisher_boot o;
     StaleEvidenceRecord.region := default ""%string (Observation.region o);
     StaleEvidenceRecord.event_type := Observation.type o;
     StaleEvidenceRecord.observed_at_ns := Observation.timestamp_ns o;
     StaleEvidenceRecord.detail :=
       if stale then detail else "unsupported observability claim: " +:+ detail |}.

(** Attribution and application of an observation whose sequence was accepted. *)
Definition apply_attributed (record : Observation.t → AttributionResult.t → StaleEvidenceRecord.t)
    (o : Observation.t) (s : State.t) : State.t * AttributionResult.t :=
  let a := attribute_observation s o in
  let s := if counts_as_current_evidence (AttributionResult.outcome a) then s
           else record_stale (record o a) s in
  (apply_observation o (AttributionResult.outcome a) (AttributionResult.locality a)
     (AttributionResult.locality_established a) s, a).

Definition accept_observation (now : Z) (o : Observation.t) (hash : Z) (d : SequenceDecision.t)
    (p : PublisherState.t) (s : State.t) : State.t * IngestionOutcome.t :=
  let id := Observation.source_publisher o in
  let p := commit_sequence (Observation.sequence o) hash p in
  let p := commit_event_id (Observation.event_id o) hash p in
  let p := on_view (λ v, v <| PublisherView.accepted_events ::= incr |>) (note_accepted now d p) in
  let o := if decide (SequenceDecision.disposition d = IngestionDisposition.AcceptedLate)
           then o <| Observation.late := true |> else o in
  let s := lose_missing d (set_publisher id p s) in
  let o := o <| Observation.accepted_epoch := State.observation_epoch s |> in
  let '(s, a) := apply_attributed stale_record o s in
  (s, {| IngestionOutcome.disposition := SequenceDecision.disposition d;
         IngestionOutcome.code := ErrorCode.Ok;
         IngestionOutcome.detail := SequenceDecision.detail d;
         IngestionOutcome.counted := counts_as_current_evidence (AttributionResult.outcome a);
         IngestionOutcome.missing_sequences := SequenceDecision.missing d;
         IngestionOutcome.attribution := AttributionResult.outcome a;
         IngestionOutcome.attribution_reason := first_reason "" a |}).

Definition ingest_locked (now : Z) (o : Observation.t) (s : State.t)
    : State.t * IngestionOutcome.t :=
  match validate_observation_structure o with
  | Err e => (lose (λ l, l <| LossReport.rejected_malformed ::= incr |>) s,
              IngestionOutcome.rejected (Error.code e) (Error.describe e))
  | Ok _ =>
  let id := Observation.source_publisher o in
  let unauthorized := lose (λ l, l <| LossReport.rejected_unauthorized ::= incr |>) s in
  match State.publishers s !! id with
  | None => (unauthorized, IngestionOutcome.rejected ErrorCode.Unauthorized "unknown publisher")
  | Some p =>
  match refuse_authority s p o with
  | Some (c, detail) => (unauthorized, IngestionOutcome.rejected c detail)
  | None =>
  let hash := content_hash o in
  let d := account_sequence p (Observation.sequence o) hash in
  let conflicting := λ q, q <| SequenceState.conflicting_duplicates ::= incr |> in
  let lose_conflicting := lose (λ l, l <| LossReport.rejected_conflicting_duplicates ::= incr |>) in
  let reject_event := on_view (λ v, v <| PublisherView.rejected_events ::= incr |>) in
  if conflicting_event p o hash d then
    (lose_conflicting (set_publisher id (reject_event (on_sequences conflicting p)) s),
     IngestionOutcome.rejected ErrorCode.Conflict
       "conflicting duplicate: same event id, different content")
  else
  match SequenceDecision.disposition d with
  | IngestionDisposition.Duplicate =>
      (lose (λ l, l <| LossReport.rejected_duplicates ::= incr |>)
         (set_publisher id (on_sequences (λ q, q <| SequenceState.duplicates ::= incr |>) p) s),
       IngestionOutcome.mk IngestionDisposition.Duplicate ErrorCode.Duplicate
         (SequenceDecision.detail d) false 0 AttributionOutcome.Unattributed "")
  | IngestionDisposition.Rejected =>
      let outcome := IngestionOutcome.rejected (SequenceDecision.code d) (SequenceDecision.detail d) in
      if decide (SequenceDecision.code d = ErrorCode.StaleSequence) then
        (lose (λ l, l <| LossReport.rejected_stale_sequences ::= incr |>)
           (set_publisher id
              (reject_event (on_sequences (λ q, q <| SequenceState.rejected_stale ::= incr |>) p)) s),
         outcome)
      else
        (lose_conflicting (set_publisher id (reject_event (on_sequences conflicting p)) s), outcome)
  | _ => accept_observation now o hash d p s
  end
  end
  end
  end.

(** [Observatory::ingest] never fails as a call. *)
Definition ingest (now : Z) (o : Observation.t) (s : State.t) : State.t * IngestionOutcome.t :=
  ingest_locked now o s.

(** *** Batches *)

Definition note_event (b : BatchOutcome.t) (r : IngestionOutcome.t) : BatchOutcome.t :=
  let b := match IngestionOutcome.disposition r with
           | IngestionDisposition.Accepted => b <| BatchOutcome.accepted ::= incr |>
           | IngestionDisposition.AcceptedLate => b <| BatchOutcome.accepted_late ::= incr |>
           | IngestionDisposition.Duplicate => b <| BatchOutcome.duplicates ::= incr |>
           | IngestionDisposition.Rejected => b <| BatchOutcome.rejected ::= incr |>
           end in
  b <| BatchOutcome.missing_sequences ::= λ n, u64_add n (IngestionOutcome.missing_sequences r) |>
    <| BatchOutcome.per_event ::= λ l, l ++ [r] |>.

Fixpoint ingest_events (now : Z) (os : list Observation.t) (s : State.t) (b : BatchOutcome.t)
    : State.t * BatchOutcome.t :=
  match os with
  | [] => (s, b)
  | o :: rest =>
      let '(s, r) := ingest now o s in
      ingest_events now rest s (note_event b r)
  end.

Definition ingest_batch (now : Z) (os : list Observation.t) (s : State.t)
    : State.t * result BatchOutcome.t :=
  if zlen os =? 0 then (s, fail ErrorCode.InvalidArgument "empty batch")
  else if Limits.kMaxBatchEvents <? zlen os then
    (s, fail_ctx ErrorCode.TooLarge "batch exceeds the maximum event count" (format_u64 (zlen os)))
  else if ObservatoryOptions.max_pending_ingestion (State.options s)
            <? u64_add (State.pending_ingestion s) (zlen os) then
    (lose (λ l, l <| LossReport.backpressure_rejections ::= λ n, u64_add n (zlen os) |>) s,
     fail_ctx ErrorCode.Capacity "ingestion capacity reached; batch rejected"
       (format_u64 (State.pending_ingestion s)))
  else
    let s := s <| State.pending_ingestion ::= λ n, u64_add n (zlen os) |> in
    let '(s, b) := ingest_events now os s BatchOutcome.empty in
    (s <| State.pending_ingestion ::= λ n, u64_sub n (zlen os) |>, Ok b).

(** ** What ingestion leaves alone *)

(** Everything but the loss counters and the publishers' own accounting is
    untouched: registries, epochs, counters, watermarks, aggregates, journal,
    region evidence, stale records, capabilities, history. *)
Definition same_evidence (s s' : State.t) : Prop :=
  s' = s <| State.publishers := State.publishers s' |> <| State.loss := State.loss s' |>.

(** What replay protection and authority depend on in a publisher. *)
Definition replay_state (p : PublisherState.t) :=
  (PublisherState.has_watermark p, PublisherState.high_watermark p,
   PublisherState.durable_watermark p, PublisherState.window p, PublisherState.recent_events p,
   PublisherState.boot_incarnations p,
   (PublisherView.id (PublisherState.view p), PublisherView.boot (PublisherState.view p),
    PublisherView.current (PublisherState.view p), PublisherView.fenced (PublisherState.view p),
    PublisherView.accepted_events (PublisherState.view p),
    SequenceState.accepted (PublisherView.sequences (PublisherState.view p)))).

(** Only counters of refusals may differ between the publishers. *)
Definition same_replay (s s' : State.t) : Prop :=
  replay_state <$> State.publishers s' = replay_state <$> State.publishers s.

Lemma set_publisher_replay id p p' s :
  State.publishers s !! id = Some p → replay_state p' = replay_state p →
  same_replay s (set_publisher id p' s).
Proof.
  intros E H. unfold same_replay. cbn. rewrite fmap_insert, H, <-fmap_insert.
  by rewrite insert_id.
Qed.

Definition refused (r : IngestionOutcome.t) : Prop :=
  IngestionOutcome.disposition r = IngestionDisposition.Rejected
  ∨ IngestionOutcome.disposition r = IngestionDisposition.Duplicate.

Lemma account_disposition p s h :
  SequenceDecision.mutate (account_sequence p s h) = true ↔
  (SequenceDecision.disposition (account_sequence p s h) = IngestionDisposition.Accepted
   ∨ SequenceDecision.disposition (account_sequence p s h) = IngestionDisposition.AcceptedLate).
Proof. unfold account_sequence. repeat case_match; cbn; naive_solver. Qed.

(** The outcomes of offering an observation: a refusal that touches nothing but
    loss and refusal counters, or an acceptance. *)
Lemma ingest_cases now o s :
  let '(s', r) := ingest_locked now o s in
  (refused r ∧ same_evidence s s' ∧ same_replay s s' ∧ IngestionOutcome.counted r = false)
  ∨ (validate_observation_structure o = Ok tt ∧ ∃ p,
     State.publishers s !! Observation.source_publisher o = Some p
     ∧ refuse_authority s p o = None
     ∧ SequenceDecision.mutate (account_sequence p (Observation.sequence o) (content_hash o)) = true
     ∧ conflicting_event p o (content_hash o)
         (account_sequence p (Observation.sequence o) (content_hash o)) = false
     ∧ (s', r) = accept_observation now o (content_hash o)
                   (account_sequence p (Observation.sequence o) (content_hash o)) p s).
Proof.
  unfold ingest_locked. destruct (validate_observation_structure o) as [[]|e] eqn:Ev.
  2: { left. split; [by left|]. by split_and!. }
  destruct (State.publishers s !! _) as [p|] eqn:Ep.
  2: { left. split; [by left|]. by split_and!. }
  destruct (refuse_authority s p o) as [[c d]|] eqn:Ea.
  { left. split; [by left|]. by split_and!. }
  set (d := account_sequence p _ _).
  destruct (conflicting_event p o _ d) eqn:Ec.
  { left. split; [by left|]. split_and!; try done. by apply (set_publisher_replay _ p). }
  destruct (SequenceDecision.disposition d) eqn:Ed.
  - destruct (accept_observation _ _ _ d _ _) as [s' r] eqn:E. right. split; [done|]. exists p.
    split_and!; [done..|apply account_disposition; by left|done|done].
  - destruct (accept_observation _ _ _ d _ _) as [s' r] eqn:E. right. split; [done|]. exists p.
    split_and!; [done..|apply account_disposition; by right|done|done].
  - left. split; [by right|]. split_and!; try done. by apply (set_publisher_replay _ p).
  - case_decide; left; (split; [by left|]; split_and!; try done; by apply (set_publisher_replay _ p)).
Qed.

(** ** Acceptance *)

(** The publisher entry an accepted observation leaves. *)
Definition accepted_publisher (now : Z) (o : Observation.t) (hash : Z) (d : SequenceDecision.t)
    (p : PublisherState.t) : PublisherState.t :=
  on_view (λ v, v <| PublisherView.accepted_events ::= incr |>)
    (note_accepted now d
       (commit_event_id (Observation.event_id o) hash
          (commit_sequence (Observation.sequence o) hash p))).

(** The observation as it is journalled. *)
Definition annotated (d : SequenceDecision.t) (epoch : Z) (o : Observation.t) : Observation.t :=
  (if decide (SequenceDecision.disposition d = IngestionDisposition.AcceptedLate)
   then o <| Observation.late := true |> else o) <| Observation.accepted_epoch := epoch |>.

(** The state in which an accepted observation is attributed. *)
Definition admitted (now : Z) (o : Observation.t) (hash : Z) (d : SequenceDecision.t)
    (p : PublisherState.t) (s : State.t) : State.t :=
  lose_missing d (set_publisher (Observation.source_publisher o)
    (accepted_publisher now o hash d p) s).

Lemma accept_observation_eq now o hash d p s :
  let s1 := admitted now o hash d p s in
  let o1 := annotated d (State.observation_epoch s1) o in
  let a := attribute_observation s1 o1 in
  (accept_observation now o hash d p s).1
    = apply_observation o1 (AttributionResult.outcome a) (AttributionResult.locality a)
        (AttributionResult.locality_established a)
        (if counts_as_current_evidence (AttributionResult.outcome a) then s1
         else record_stale (stale_record o1 a) s1)
  ∧ IngestionOutcome.disposition (accept_observation now o hash d p s).2 = SequenceDecision.disposition d
  ∧ IngestionOutcome.counted (accept_observation now o hash d p s).2
    = counts_as_current_evidence (AttributionResult.outcome a)
  ∧ IngestionOutcome.attribution (accept_observation now o hash d p s).2 = AttributionResult.outcome a
  ∧ IngestionOutcome.missing_sequences (accept_observation now o hash d p s).2
    = SequenceDecision.missing d.
Proof. by split_and!. Qed.

(** Updates of loss counters and publishers leave the rest of the state. *)
Lemma admitted_frame {X} (q : State.t → X) now o hash d p s :
  (∀ g s, q (update_field (p:=State.loss) g s) = q s) →
  (∀ g s, q (update_field (p:=State.publishers) g s) = q s) →
  q (admitted now o hash d p s) = q s.
Proof. intros H1 H2. unfold admitted, lose_missing, lose, set_publisher. case_match; by rewrite ?H1, ?H2. Qed.

Lemma apply_observation_proj {X} (q : State.t → X) o out loc le s :
  (∀ a j re ro l s, q (with_evidence a j re ro l s) = q s) →
  q (apply_observation o out loc le s) = q s.
Proof.
  intros H. destruct (apply_observation_frame o out loc le s) as (a & j & re & ro & l & ->). apply H.
Qed.

Lemma accept_publishers now o hash d p s :
  State.publishers (accept_observation now o hash d p s).1
  = <[Observation.source_publisher o := accepted_publisher now o hash d p]> (State.publishers s).
Proof.
  destruct (accept_observation_eq now o hash d p s) as [-> _].
  rewrite apply_observation_proj by reflexivity.
  assert (E : State.publishers (admitted now o hash d p s)
    = <[Observation.source_publisher o := accepted_publisher now o hash d p]> (State.publishers s))
    by (unfold admitted, lose_missing; by case_match).
  by case_match.
Qed.

(** Fields outside publishers, loss, stale records and evidence. *)
Lemma accept_frame {X} (q : State.t → X) now o hash d p s :
  (∀ a j re ro l s, q (with_evidence a j re ro l s) = q s) →
  (∀ g s, q (update_field (p:=State.loss) g s) = q s) →
  (∀ g s, q (update_field (p:=State.publishers) g s) = q s) →
  (∀ g s, q (update_field (p:=State.stale) g s) = q s) →
  q (accept_observation now o hash d p s).1 = q s.
Proof.
  intros H1 H2 H3 H4. destruct (accept_observation_eq now o hash d p s) as [-> _].
  rewrite apply_observation_proj by done. rewrite <-(admitted_frame q now o hash d p s) by done.
  case_match; [done|]. apply H4.
Qed.

Lemma note_accepted_inv now d p : sequence_inv p → sequence_inv (note_accepted now d p).
Proof. done. Qed.

Lemma accepted_publisher_inv now o hash d p :
  sequence_inv p → sequence_inv (accepted_publisher now o hash d p).
Proof. intros H. by apply note_accepted_inv, commit_event_id_inv, commit_sequence_inv. Qed.

Lemma accepted_publisher_view now o hash d p :
  let v := PublisherState.view p in
  let v' := PublisherState.view (accepted_publisher now o hash d p) in
  PublisherView.id v' = PublisherView.id v ∧ PublisherView.boot v' = PublisherView.boot v
  ∧ PublisherView.current v' = PublisherView.current v ∧ PublisherView.fenced v' = PublisherView.fenced v
  ∧ PublisherView.accepted_events v' = incr (PublisherView.accepted_events v)
  ∧ SequenceState.accepted (PublisherView.sequences v') = incr (SequenceState.accepted (PublisherView.sequences v)).
Proof.
  cbn zeta. unfold accepted_publisher, note_accepted, commit_event_id, commit_sequence, on_sequences, on_view.
  destruct (negb _ || _), (SequenceDecision.missing d =? 0); split_and!; try done; cbn; by case_decide.
Qed.

(** *** Every state invariant survives ingestion *)

Lemma same_evidence_ok s s' : same_evidence s s' → evidence_ok s → evidence_ok s'.
Proof. unfold same_evidence. intros -> []. by constructor. Qed.
Lemma same_evidence_registry s s' : same_evidence s s' → same_registry s s'.
Proof. unfold same_evidence. intros ->. by split_and!. Qed.
Lemma same_evidence_watermarks s s' : same_evidence s s' → State.watermarks s' = State.watermarks s.
Proof. unfold same_evidence. by intros ->. Qed.

(** Publishers that agree on their replay state satisfy the same invariant. *)
Lemma same_replay_publishers s s' :
  same_replay s s' → State.watermarks s' = State.watermarks s → publishers_ok s → publishers_ok s'.
Proof.
  intros Hr Hw [He Hc Hk]. unfold same_replay in Hr. constructor.
  - intros k p' Hp'. pose proof (f_equal (.!! k) Hr) as E. cbn in E.
    rewrite !lookup_fmap, Hp' in E. destruct (State.publishers s !! k) as [p|] eqn:Ep; [|done].
    cbn in E. injection E as E1 E2 E3 E4 E5 E6 E7 E8 E9 E10 _ _.
    destruct (He k p Ep) as (Hid & (Hs1 & Hs2 & Hs3) & Hf). cbn.
    split_and!; [congruence| |by rewrite E9, E10].
    unfold sequence_inv. rewrite E1, E2, E4, E5. by split_and!.
  - unfold zsize in *. rewrite <-(map_size_fmap replay_state), Hr, map_size_fmap. done.
  - by rewrite Hw.
Qed.

Lemma ingest_ok now o s :
  let s' := (ingest_locked now o s).1 in
  (evidence_ok s → evidence_ok s') ∧ (publishers_ok s → publishers_ok s') ∧ same_registry s s'
  ∧ State.watermarks s' = State.watermarks s ∧ State.counters s' = State.counters s.
Proof.
  pose proof (ingest_cases now o s) as H. destruct (ingest_locked now o s) as [s' r]. cbn [fst].
  destruct H as [(_ & He & Hr & _)|(Hv & p & Ep & Ha & Hm & Hc & E)].
  - split_and!; [by apply same_evidence_ok| |by apply same_evidence_registry
      |by apply same_evidence_watermarks|].
    + apply same_replay_publishers; [done|]. by apply same_evidence_watermarks.
    + unfold same_evidence in He. by rewrite He.
  - apply (f_equal fst) in E. cbn [fst] in E. set (d := account_sequence _ _ _) in *. split_and!.
    + intros He. rewrite E. destruct (accept_observation_eq now o (content_hash o) d p s) as [-> _].
      apply apply_observation_ok.
      assert (evidence_ok (admitted now o (content_hash o) d p s)).
      { destruct He. constructor; repeat rewrite admitted_frame by reflexivity; done. }
      case_match; [done|by apply record_stale_ok].
    + intros [Hp Hk Hw]. constructor; rewrite E.
      * rewrite accept_publishers. apply map_Forall_insert_2; [|exact Hp].
        destruct (Hp _ _ Ep) as (Hid & Hseq & Hf).
        destruct (accepted_publisher_view now o (content_hash o) d p) as (-> & _ & -> & -> & _).
        split_and!; [done|by apply accepted_publisher_inv|done].
      * rewrite accept_publishers. by rewrite (zsize_insert_Some _ _ _ _ Ep).
      * rewrite accept_frame by reflexivity. done.
    + rewrite E. unfold same_registry. split_and!; by rewrite accept_frame by reflexivity.
    + rewrite E. by rewrite accept_frame by reflexivity.
    + rewrite E. by rewrite accept_frame by reflexivity.
Qed.

Lemma apply_region_evidence_journal key o s :
  State.journal (apply_region_evidence key o s) = State.journal s.
Proof.
  unfold apply_region_evidence.
  assert (E : State.journal (track_region key s) = State.journal s).
  { unfold track_region. case_match; [done|]. case_match; [|done].
    by destruct (evict_region_keeps (State.region_evidence_order s) s) as (<- & _). }
  rewrite <-E. by destruct (add_sample _ _) as [e []].
Qed.

(** The journal ends with the applied observation. *)
Lemma apply_observation_journal o out loc le s :
  last (State.journal (apply_observation o out loc le s)) = Some (JournalEntry.mk o out loc le).
Proof.
  unfold apply_observation. set (s0 := if counts_as_current_evidence out then _ else _). clearbody s0.
  assert (E : last (State.journal (append_journal (JournalEntry.mk o out loc le) s0))
    = Some (JournalEntry.mk o out loc le)) by apply last_snoc.
  destruct (Observation.region o) as [key|]; [|done]. destruct (_ && _); [|done].
  by rewrite apply_region_evidence_journal.
Qed.

Lemma annotated_hash d epoch o : content_hash (annotated d epoch o) = content_hash o.
Proof.
  unfold annotated. case_decide.
  - etransitivity; [|apply (content_hash_ignores_annotations o epoch true)]. by destruct o.
  - etransitivity; [|apply (content_hash_ignores_annotations o epoch (Observation.late o))]. by destruct o.
Qed.

(** ** Properties of ingestion *)

Lemma ingest_refused now o s s' r :
  ingest now o s = (s', r) →
  IngestionOutcome.disposition r = IngestionDisposition.Rejected
  ∨ IngestionOutcome.disposition r = IngestionDisposition.Duplicate →
  same_evidence s s' ∧ same_replay s s' ∧ IngestionOutcome.counted r = false.
Proof.
  unfold ingest. intros Ei Hr. pose proof (ingest_cases now o s) as H. rewrite Ei in H.
  destruct H as [(_ & He & Hp & Hc)|(_ & p & _ & _ & Hm & _ & E)]; [done|]. exfalso.
  apply (f_equal snd) in E. cbn [snd] in E. subst r.
  destruct (accept_observation_eq now o (content_hash o)
    (account_sequence p (Observation.sequence o) (content_hash o)) p s) as (_ & Ed & _).
  rewrite Ed in Hr. apply account_disposition in Hm. naive_solver congruence.
Qed.

(** *** What a refusal leaves *)

(** A publisher, a loss report and a state without their counts of refusals. *)
Definition without_refusals (p : PublisherState.t) : PublisherState.t :=
  on_view (λ v, v <| PublisherView.rejected_events := 0 |>)
    (on_sequences (λ q, q <| SequenceState.duplicates := 0 |> <| SequenceState.conflicting_duplicates := 0 |>
                          <| SequenceState.rejected_stale := 0 |>) p).
Definition loss_without_refusals (l : LossReport.t) : LossReport.t :=
  l <| LossReport.rejected_malformed := 0 |> <| LossReport.rejected_unauthorized := 0 |>
    <| LossReport.rejected_duplicates := 0 |> <| LossReport.rejected_conflicting_duplicates := 0 |>
    <| LossReport.rejected_stale_sequences := 0 |>.
Definition forget_refusals (s : State.t) : State.t :=
  s <| State.publishers ::= fmap without_refusals |> <| State.loss ::= loss_without_refusals |>.

Lemma forget_lose f s :
  (∀ l, loss_without_refusals (f l) = loss_without_refusals l) → forget_refusals (lose f s) = forget_refusals s.
Proof.
  intros H. change (forget_refusals (lose f s)) with
    (s <| State.publishers ::= fmap without_refusals |>
       <| State.loss := loss_without_refusals (f (State.loss s)) |>). by rewrite H.
Qed.

Lemma forget_set_publisher id p p' s :
  State.publishers s !! id = Some p → without_refusals p' = without_refusals p →
  forget_refusals (set_publisher id p' s) = forget_refusals s.
Proof.
  intros E H. change (forget_refusals (set_publisher id p' s)) with
    (s <| State.publishers := without_refusals <$> <[id := p']> (State.publishers s) |>
       <| State.loss ::= loss_without_refusals |>).
  rewrite fmap_insert, H, <- fmap_insert. by rewrite insert_id.
Qed.

Lemma ingest_locked_refused now o s :
  refused (ingest_locked now o s).2 → forget_refusals (ingest_locked now o s).1 = forget_refusals s.
Proof.
  unfold ingest_locked. destruct (validate_observation_structure o); [|intros _; by apply forget_lose].
  destruct (State.publishers s !! _) as [p|] eqn:Ep; [|intros _; by apply forget_lose].
  destruct (refuse_authority s p o) as [[c d]|]; [intros _; by apply forget_lose|].
  set (d := account_sequence p _ _).
  destruct (conflicting_event p o _ d);
    [intros _; cbn [fst]; rewrite forget_lose by done; by eapply forget_set_publisher|].
  destruct (SequenceDecision.disposition d) eqn:Ed.
  1, 2: intros Hr; exfalso; destruct (accept_observation_eq now o (content_hash o) d p s) as (_ & E & _);
    unfold refused in Hr; rewrite E in Hr; naive_solver congruence.
  - intros _. cbn [fst]. rewrite forget_lose by done. by eapply forget_set_publisher.
  - intros _. case_decide; cbn [fst]; rewrite forget_lose by done; by eapply forget_set_publisher.
Qed.

(** Claim C31. A refused observation changes nothing but counts of refusals: whenever
    ingestion answers Rejected or Duplicate, the state before and after is the same, every
    field of it, up to five counters of the loss report (malformed, unauthorized,
    duplicates, conflicting duplicates, stale sequences) and four counters of each
    publisher (rejected events, duplicates, conflicting duplicates, rejected as stale);
    and nothing was counted. *)
Theorem refused_observation_inert (now : Z) (o : Observation.t) (s s' : State.t)
    (r : IngestionOutcome.t) :
  ingest now o s = (s', r) →
  IngestionOutcome.disposition r = IngestionDisposition.Rejected
  ∨ IngestionOutcome.disposition r = IngestionDisposition.Duplicate →
  forget_refusals s' = forget_refusals s ∧ IngestionOutcome.counted r = false.
Proof.
  intros E Hr. split; [|by apply (ingest_refused now o s s' r E Hr)].
  pose proof (ingest_locked_refused now o s) as H. unfold ingest in E. rewrite E in H. exact (H Hr).
Qed.

Lemma refused_observation_inert_witness :
  let s := register "pub.a" 1 sample_state in
  let o := sample_observation <| Observation.publisher_boot := 9 |> in
  IngestionOutcome.code (ingest 5 o s).2 = ErrorCode.StaleBoot
  ∧ IngestionOutcome.counted (ingest 5 o s).2 = false.
Proof.
  cbn zeta. split; [by vm_compute|].
  set (o := sample_observation <| Observation.publisher_boot := 9 |>).
  set (s := register "pub.a" 1 sample_state).
  destruct (refused_observation_inert 5 o s (ingest 5 o s).1 (ingest 5 o s).2) as (_ & H).
  - apply surjective_pairing.
  - left. by vm_compute.
  - exact H.
Defined.

(** Claim C6. Nothing is accepted without authority, and what is accepted is
    recorded: when ingestion answers Accepted or AcceptedLate the observation is
    structurally valid and comes from the live epoch and the registered boot of a
    publisher that is current and unfenced (unless the options waive that); the
    journal ends with it and with the attribution outcome reported; the publisher's
    accepted count goes up by one and its watermark covers the sequence; and it is
    reported as counted exactly when its attribution is neither stale nor
    unsupported. *)
Theorem accepted_observation_recorded (now : Z) (o : Observation.t) (s s' : State.t)
    (r : IngestionOutcome.t) :
  ingest now o s = (s', r) →
  IngestionOutcome.disposition r = IngestionDisposition.Accepted
  ∨ IngestionOutcome.disposition r = IngestionDisposition.AcceptedLate →
  validate_observation_structure o = Ok tt
  ∧ Observation.coordinator_epoch o = State.coordinator_epoch s
  ∧ (∃ p p', State.publishers s !! Observation.source_publisher o = Some p
     ∧ PublisherView.boot (PublisherState.view p) = Observation.publisher_boot o
     ∧ (ObservatoryOptions.enforce_current_publisher (State.options s) = true →
        PublisherView.current (PublisherState.view p) = true
        ∧ PublisherView.fenced (PublisherState.view p) = false)
     ∧ State.publishers s' !! Observation.source_publisher o = Some p'
     ∧ PublisherView.accepted_events (PublisherState.view p')
       = incr (PublisherView.accepted_events (PublisherState.view p))
     ∧ PublisherState.has_watermark p' = true
     ∧ Observation.sequence o ≤ PublisherState.high_watermark p')
  ∧ (∃ e, last (State.journal s') = Some e
     ∧ content_hash (JournalEntry.observation e) = content_hash o
     ∧ JournalEntry.outcome e = IngestionOutcome.attribution r)
  ∧ IngestionOutcome.counted r = counts_as_current_evidence (IngestionOutcome.attribution r).
Proof.
  unfold ingest. intros Ei Hr. pose proof (ingest_cases now o s) as H. rewrite Ei in H. clear Ei.
  destruct H as [(Hf & _)|(Hv & p & Ep & Ha & Hm & Hc & E)].
  { destruct Hf, Hr; congruence. }
  set (d := account_sequence p (Observation.sequence o) (content_hash o)) in *.
  destruct (accept_observation_eq now o (content_hash o) d p s) as (Es & _ & Ecnt & Eatt & _).
  apply (f_equal fst) in E as E1. apply (f_equal snd) in E as E2. cbn [fst snd] in E1, E2. subst s' r.
  unfold refuse_authority in Ha.
  destruct (Z.eqb_spec (PublisherView.boot (PublisherState.view p)) (Observation.publisher_boot o)) as [Hb|];
    [|done].
  destruct (Z.eqb_spec (Observation.coordinator_epoch o) (State.coordinator_epoch s)) as [Hep|]; [|done].
  cbn [negb] in Ha. destruct (negb _ && _) eqn:Hcur; [done|].
  split_and!; [done|done| | |by rewrite Ecnt, Eatt].
  - exists p. eexists. rewrite accept_publishers, lookup_insert_eq.
    destruct (accepted_publisher_view now o (content_hash o) d p) as (_ & _ & _ & _ & Hacc & _).
    split_and!; [done|done| |done|done| |].
    + intros He. rewrite He, andb_true_r in Hcur. apply negb_false_iff, andb_true_iff in Hcur as [Hcur Hf].
      by apply negb_true_iff in Hf.
    + apply (commit_sequence_fields (Observation.sequence o) (content_hash o) p).
    + destruct (commit_sequence_fields (Observation.sequence o) (content_hash o) p) as (_ & Eh & _).
      change (Observation.sequence o ≤ PublisherState.high_watermark
        (commit_sequence (Observation.sequence o) (content_hash o) p)).
      rewrite Eh. destruct (PublisherState.has_watermark p); lia.
  - rewrite Es, Eatt, apply_observation_journal. eexists. split; [done|]. split; [|done].
    apply annotated_hash.
Qed.

Lemma accepted_observation_recorded_witness :
  ∃ e, last (State.journal (ingest 5 sample_observation (register "pub.a" 1 sample_state)).1) = Some e
    ∧ content_hash (JournalEntry.observation e) = content_hash sample_observation.
Proof.
  destruct (accepted_observation_recorded 5 sample_observation (register "pub.a" 1 sample_state)
    (ingest 5 sample_observation (register "pub.a" 1 sample_state)).1
    (ingest 5 sample_observation (register "pub.a" 1 sample_state)).2)
    as (_ & _ & _ & (e & He & Hh & _) & _).
  - apply surjective_pairing.
  - left. by vm_compute.
  - exists e. exact (conj He Hh).
Defined.

(** *** Resubmission *)

(** The publisher [id] still holds sequence [sq] with content [h], at most [n]
    acceptances ago, and its authority is [auth]. *)
Definition retains (id : string) (sq h n : Z) (auth : Z * bool * bool) (s : State.t) : Prop :=
  ∃ p m, State.publishers s !! id = Some p ∧ sequence_inv p ∧ held sq h m p ∧ m ≤ n
    ∧ PublisherState.has_watermark p = true ∧ sq ≤ PublisherState.high_watermark p
    ∧ PublisherState.durable_watermark p = false
    ∧ (PublisherView.boot (PublisherState.view p), PublisherView.current (PublisherState.view p),
       PublisherView.fenced (PublisherState.view p)) = auth.

Lemma accepted_publisher_window now o hash d p :
  PublisherState.window (accepted_publisher now o hash d p)
    = PublisherState.window (commit_sequence (Observation.sequence o) hash p)
  ∧ PublisherState.has_watermark (accepted_publisher now o hash d p) = true
  ∧ PublisherState.high_watermark (accepted_publisher now o hash d p)
    = PublisherState.high_watermark (commit_sequence (Observation.sequence o) hash p)
  ∧ PublisherState.durable_watermark (accepted_publisher now o hash d p)
    = PublisherState.durable_watermark p.
Proof.
  destruct (commit_sequence_fields (Observation.sequence o) hash p) as (Hw & _ & Hd & _).
  split_and!; [done|exact Hw|done|exact Hd].
Qed.

Lemma ingest_retains now x s id sq h n auth :
  retains id sq h n auth s → n + 1 < Limits.kMaxSequenceWindow →
  retains id sq h (n + 1) auth (ingest_locked now x s).1.
Proof.
  intros (p & m & Ep & Hi & Hh & Hm & Hw & Hs & Hd & Ha) Hn.
  pose proof (ingest_cases now x s) as H. destruct (ingest_locked now x s) as [s' r]. cbn [fst].
  destruct H as [(_ & _ & Hr & _)|(_ & q & Eq & _ & Hmut & _ & E)].
  - pose proof (f_equal (.!! id) Hr) as E. cbn in E. rewrite !lookup_fmap, Ep in E.
    destruct (State.publishers s' !! id) as [p'|] eqn:Ep'; [|done].
    cbn in E. injection E as E1 E2 E3 E4 E5 _ E7 E8 E9 E10 _ _. exists p', m.
    destruct Hi as (Hi1 & Hi2 & Hi3), Hh as [Hh1 Hh2].
    unfold sequence_inv, held. rewrite E1, E2, E3, E4, E5, E8, E9, E10. split_and!; try done; lia.
  - apply (f_equal fst) in E. cbn [fst] in E. subst s'.
    unfold retains. rewrite accept_publishers.
    destruct (decide (Observation.source_publisher x = id)) as [<-|Hne].
    + rewrite Ep in Eq. injection Eq as <-. rewrite lookup_insert_eq. set (d := account_sequence _ _ _) in *.
      destruct (accepted_publisher_window now x (content_hash x) d p) as (W1 & W2 & W3 & W4).
      destruct (accepted_publisher_view now x (content_hash x) d p) as (_ & V1 & V2 & V3 & _).
      destruct (commit_held sq h m (Observation.sequence x) (content_hash x) p Hi Hh) as [Hh'|];
        [by eapply accepted_fresh| |lia].
      destruct (commit_sequence_fields (Observation.sequence x) (content_hash x) p) as (_ & Eh & _).
      exists (accepted_publisher now x (content_hash x) d p), (m + 1).
      unfold held. rewrite W1, W2, W3, W4, V1, V2, V3, Eh, Hw.
      split_and!; try done; [by apply accepted_publisher_inv|apply Hh'|apply Hh'|lia|lia].
    + exists p, m. rewrite lookup_insert_ne by done. split_and!; try done. lia.
Qed.

Fixpoint ingest_all (now : Z) (os : list Observation.t) (s : State.t) : State.t :=
  match os with
  | [] => s
  | o :: rest => ingest_all now rest (ingest now o s).1
  end.

Lemma ingest_all_retains now os : ∀ s id sq h n auth,
  retains id sq h n auth s → n + zlen os < Limits.kMaxSequenceWindow →
  retains id sq h (n + zlen os) auth (ingest_all now os s).
Proof.
  induction os as [|x os IH]; intros s id sq h n auth H Hn; cbn [ingest_all].
  - rewrite zlen_nil, Z.add_0_r. done.
  - rewrite zlen_cons in *. pose proof (zlen_nonneg os).
    replace (n + (1 + zlen os)) with (n + 1 + zlen os) by lia. apply IH; [|lia].
    apply ingest_retains; [done|lia].
Qed.

Lemma ingest_all_epoch now os : ∀ s,
  State.coordinator_epoch (ingest_all now os s) = State.coordinator_epoch s
  ∧ State.options (ingest_all now os s) = State.options s.
Proof.
  induction os as [|x os IH]; intros s; cbn [ingest_all]; [done|].
  destruct (IH (ingest now x s).1) as [-> ->]. unfold ingest.
  pose proof (ingest_cases now x s) as H. destruct (ingest_locked now x s) as [s' r]. cbn [fst].
  destruct H as [(_ & He & _)|(_ & q & _ & _ & _ & _ & E)].
  - unfold same_evidence in He. by rewrite He.
  - apply (f_equal fst) in E. cbn [fst] in E. subst s'. split; by rewrite accept_frame by reflexivity.
Qed.

Lemma ingest_all_pending now os : ∀ s,
  State.pending_ingestion (ingest_all now os s) = State.pending_ingestion s.
Proof.
  induction os as [|x os IH]; intros s; cbn [ingest_all]; [done|]. rewrite IH. unfold ingest.
  pose proof (ingest_cases now x s) as H. destruct (ingest_locked now x s) as [s' r]. cbn [fst].
  destruct H as [(_ & He & _)|(_ & q & _ & _ & _ & _ & E)].
  - unfold same_evidence in He. by rewrite He.
  - apply (f_equal fst) in E. cbn [fst] in E. subst s'. by rewrite accept_frame by reflexivity.
Qed.

(** Claim C15. Ingestion is idempotent: an accepted observation of a publisher that was
    not resumed from a restored watermark, sent again after fewer than 4096 other
    observations from any publishers, is answered as a duplicate (and then changes
    nothing), so retries never count twice.  (After a resumption the resubmission is
    refused as a stale sequence, and does not count twice either.) *)
Theorem resubmission_is_duplicate (now now' : Z) (o : Observation.t) (os : list Observation.t)
    (s : State.t) :
  publishers_ok s →
  (∀ p, State.publishers s !! Observation.source_publisher o = Some p →
        PublisherState.durable_watermark p = false) →
  IngestionOutcome.disposition (ingest now o s).2 = IngestionDisposition.Accepted
  ∨ IngestionOutcome.disposition (ingest now o s).2 = IngestionDisposition.AcceptedLate →
  zlen os < Limits.kMaxSequenceWindow →
  IngestionOutcome.disposition (ingest now' o (ingest_all now os (ingest now o s).1)).2
  = IngestionDisposition.Duplicate.
Proof.
  intros Hok Hdur Hacc Hlen.
  assert (Hfirst : validate_observation_structure o = Ok tt
    ∧ ∃ p, State.publishers s !! Observation.source_publisher o = Some p
      ∧ refuse_authority s p o = None
      ∧ retains (Observation.source_publisher o) (Observation.sequence o) (content_hash o) 0
         (PublisherView.boot (PublisherState.view p), PublisherView.current (PublisherState.view p),
          PublisherView.fenced (PublisherState.view p)) (ingest now o s).1).
  { unfold ingest in *. pose proof (ingest_cases now o s) as H.
    destruct (ingest_locked now o s) as [s' r]. cbn [fst snd] in *.
    destruct H as [(Hf & _)|(Hv & p & Ep & Ha & Hm & _ & E)]; [destruct Hf, Hacc; congruence|].
    split; [done|]. exists p. split_and!; [done..|]. apply (f_equal fst) in E. cbn [fst] in E. subst s'.
    destruct (pub_entries s Hok _ _ Ep) as (_ & Hi & _). set (d := account_sequence _ _ _) in *.
    destruct (accepted_publisher_window now o (content_hash o) d p) as (W1 & W2 & W3 & W4).
    destruct (accepted_publisher_view now o (content_hash o) d p) as (_ & V1 & V2 & V3 & _).
    destruct (commit_sequence_fields (Observation.sequence o) (content_hash o) p) as (_ & Eh & _).
    assert (Hheld : held (Observation.sequence o) (content_hash o) 0
      (commit_sequence (Observation.sequence o) (content_hash o) p))
      by (apply commit_new_held; [done|]; by eapply accepted_fresh).
    exists (accepted_publisher now o (content_hash o) d p), 0.
    rewrite accept_publishers, lookup_insert_eq. unfold held. rewrite W1, W2, W3, W4, V1, V2, V3, Eh.
    split_and!; try done; [by apply accepted_publisher_inv|apply Hheld|apply Hheld| |by apply Hdur].
    destruct (PublisherState.has_watermark p); lia. }
  destruct Hfirst as (Hv & p & Ep & Ha & Hret).
  apply (ingest_all_retains now os) in Hret; [|lia].
  destruct (ingest_all_epoch now os (ingest now o s).1) as [Eep Eopt].
  destruct (ingest_all_epoch now [o] s) as [Eep1 Eopt1]. cbn [ingest_all] in Eep1, Eopt1.
  destruct Hret as (q & m & Eq & Hi & [Ht _] & _ & Hw & Hs & Hd & Hauth). injection Hauth as A1 A2 A3.
  unfold ingest at 1, ingest_locked. rewrite Hv, Eq.
  assert (Ha' : refuse_authority (ingest_all now os (ingest now o s).1) q o = None).
  { unfold refuse_authority in *. by rewrite A1, A2, A3, Eep, Eopt, Eep1, Eopt1. }
  rewrite Ha'.
  assert (Hdec : account_sequence q (Observation.sequence o) (content_hash o)
    = refuse IngestionDisposition.Duplicate ErrorCode.Duplicate "duplicate observation").
  { unfold account_sequence. rewrite Hw, Hd, Ht, Z.eqb_refl. simpl.
    by rewrite (proj2 (Z.ltb_ge _ _) Hs). }
  rewrite Hdec. unfold conflicting_event. cbn. destruct (_ !! Observation.event_id o); [|done].
  by rewrite andb_false_r.
Qed.

Lemma resubmission_is_duplicate_witness :
  IngestionOutcome.disposition
    (ingest 6 sample_observation
       (ingest_all 5 [] (ingest 5 sample_observation (register "pub.a" 1 sample_state)).1)).2
  = IngestionDisposition.Duplicate.
Proof.
  apply (resubmission_is_duplicate 5 6 sample_observation [] (register "pub.a" 1 sample_state)).
  - apply register_publisher_ok, make_observatory_publishers_ok.
  - intros p E. vm_compute in E. by injection E as <-.
  - left. by vm_compute.
  - by vm_compute.
Defined.

(** *** Batches *)

Definition batch_total (b : BatchOutcome.t) : Z :=
  BatchOutcome.accepted b + BatchOutcome.accepted_late b + BatchOutcome.duplicates b
  + BatchOutcome.rejected b.

Definition batch_ok (b : BatchOutcome.t) : Prop :=
  0 ≤ BatchOutcome.accepted b ∧ 0 ≤ BatchOutcome.accepted_late b
  ∧ 0 ≤ BatchOutcome.duplicates b ∧ 0 ≤ BatchOutcome.rejected b
  ∧ batch_total b = zlen (BatchOutcome.per_event b).

Lemma note_event_ok b r :
  batch_ok b → zlen (BatchOutcome.per_event b) < Limits.kMaxBatchEvents →
  batch_ok (note_event b r) ∧ zlen (BatchOutcome.per_event (note_event b r)) = 1 + zlen (BatchOutcome.per_event b).
Proof.
  intros (H1 & H2 & H3 & H4 & Ht) Hl. unfold batch_total in Ht.
  assert (Hi : ∀ n, 0 ≤ n → n ≤ Limits.kMaxBatchEvents → incr n = n + 1).
  { intros n ??. unfold incr. apply u64_add_small. unfold in_u64, u64_max, Limits.kMaxBatchEvents in *. lia. }
  unfold batch_ok, batch_total, note_event.
  destruct (IngestionOutcome.disposition r); cbn -[incr zlen]; rewrite ?Hi by lia;
    rewrite !zlen_snoc; split_and!; lia.
Qed.

Lemma ingest_events_spec now os : ∀ s b,
  batch_ok b → zlen (BatchOutcome.per_event b) + zlen os ≤ Limits.kMaxBatchEvents →
  let '(s', b') := ingest_events now os s b in
  batch_ok b' ∧ zlen (BatchOutcome.per_event b') = zlen (BatchOutcome.per_event b) + zlen os
  ∧ s' = ingest_all now os s.
Proof.
  induction os as [|o os IH]; intros s b Hb Hl; cbn [ingest_events ingest_all].
  - rewrite zlen_nil. split_and!; [done|lia|done].
  - rewrite zlen_cons in Hl. pose proof (zlen_nonneg os).
    destruct (ingest now o s) as [s1 r]. cbn [fst].
    destruct (note_event_ok b r Hb) as [Hb1 Hl1]; [lia|].
    specialize (IH s1 (note_event b r) Hb1). destruct (ingest_events now os s1 _) as [s' b'].
    destruct IH as (H1 & H2 & H3); [lia|]. rewrite zlen_cons. split_and!; [done|lia|done].
Qed.

(** A batch accounts for every event it was given: either the whole batch
    is refused before any event is looked at, or there is one outcome per event, the
    four disposition counts add up to the number of events, the state is that of
    ingesting the events one after the other, and the admission counter is back where
    it was. *)
Theorem batch_accounts_for_every_event (now : Z) (os : list Observation.t) (s : State.t) :
  in_u64 (State.pending_ingestion s) →
  match ingest_batch now os s with
  | (s', Ok b) =>
      BatchOutcome.accepted b + BatchOutcome.accepted_late b + BatchOutcome.duplicates b
        + BatchOutcome.rejected b = zlen os
      ∧ zlen (BatchOutcome.per_event b) = zlen os
      ∧ State.pending_ingestion s' = State.pending_ingestion s
      ∧ ∃ n, s' = (ingest_all now os (s <| State.pending_ingestion := n |>))
                    <| State.pending_ingestion := State.pending_ingestion s |>
  | (s', Err e) => s' = s <| State.loss := State.loss s' |>
  end.
Proof.
  intros Hp. unfold ingest_batch. destruct (Z.eqb_spec (zlen os) 0) as [_|Hne]; [by destruct s|].
  destruct (Z.ltb_spec Limits.kMaxBatchEvents (zlen os)); [by destruct s|].
  destruct (_ <? u64_add _ _); [done|].
  set (n := u64_add (State.pending_ingestion s) (zlen os)).
  change (s <| State.pending_ingestion ::= λ m, u64_add m (zlen os) |>)
    with (s <| State.pending_ingestion := n |>).
  pose proof (ingest_events_spec now os (s <| State.pending_ingestion := n |>) BatchOutcome.empty) as Hs.
  destruct (ingest_events now os _ _) as [s' b].
  destruct Hs as ((_ & _ & _ & _ & Ht) & Hl & ->); [by split_and!|cbn; rewrite zlen_nil; lia|].
  cbn in Hl. rewrite zlen_nil in Hl. unfold batch_total in Ht.
  assert (Ep : u64_sub (State.pending_ingestion (ingest_all now os (s <| State.pending_ingestion := n |>)))
    (zlen os) = State.pending_ingestion s).
  { rewrite ingest_all_pending. cbn. unfold n, u64_sub, u64_add, wrap64.
    rewrite Zminus_mod_idemp_l, Z.add_simpl_r. by apply wrap64_small. }
  split_and!; [lia|lia|exact Ep|]. exists n.
  transitivity ((ingest_all now os (s <| State.pending_ingestion := n |>))
    <| State.pending_ingestion := u64_sub (State.pending_ingestion
         (ingest_all now os (s <| State.pending_ingestion := n |>))) (zlen os) |>); [done|].
  by rewrite Ep.
Qed.

Lemma batch_accounts_for_every_event_witness :
  match ingest_batch 5 [sample_observation; sample_observation] (register "pub.a" 1 sample_state) with
  | (_, Ok b) => zlen (BatchOutcome.per_event b) = 2
  | (_, Err _) => True
  end.
Proof.
  pose proof (batch_accounts_for_every_event 5 [sample_observation; sample_observation]
    (register "pub.a" 1 sample_state)) as H.
  destruct (ingest_batch 5 _ _) as [s' [b|e]]; [|done]. apply H. split; by vm_compute.
Defined.
