(* ===== verification/Counters.v ===== *)
(** * Counters

    [ingest_counter] of [src/observatory.cpp]: turning samples of a hardware or
    software counter into deltas, and the deltas into observations. *)

From S2P Require Import Prelude Errors Checked TextUtil Ids Taxonomy Cost Records Observation.
From S2P Require Import Aggregate Sequence State Attribution Registry Publishers Ingest.

Module CounterOutcome.
Record t := mk {
  accepted : bool; code : ErrorCode.t; detail : string; produced_delta : bool; delta : Z;
  discontinuity : bool; discontinuity_reason : string;
}.
#[global] Instance eta : Eta t := fun c =>
  mk (accepted c) (code c) (detail c) (produced_delta c) (delta c) (discontinuity c)
    (discontinuity_reason c).
Definition empty : t := mk false ErrorCode.Ok "" false 0 false "".
End CounterOutcome.

Definition counter_event_id (counter : string) (sequence : Z) : Z :=
  fnv1a_u64 (fnv1a_str fnv1a_init counter) sequence.

Definition counter_hash (p : CounterPublication.t) : Z :=
  fnv1a_str (fnv1a_str fnv1a_init (CounterPublication.counter p))
    (format_u64 (CounterPublication.raw_value p)).

Definition width_max (width_bits : Z) : Z :=
  if 64 <=? width_bits then u64_max else 2 ^ width_bits - 1.

(** [identity_changed]: the same counter under another descriptor. *)
Definition identity_changed (c : CounterState.t) (p : CounterPublication.t) : bool :=
  negb (CounterState.samples c =? 0)
  && (negb (CounterState.generation c =? CounterPublication.generation p)
      || negb (bool_decide (CounterState.kind c = CounterPublication.kind p))
      || negb (bool_decide (CounterState.scope c = CounterPublication.scope p))
      || negb (CounterState.width_bits c =? CounterPublication.width_bits p)
      || negb (bool_decide (CounterState.mapped_type c = CounterPublication.mapped_type p))).

Definition restart_counter (c : CounterState.t) : CounterState.t :=
  c <| CounterState.accumulated := 0 |> <| CounterState.has_last := false |>
    <| CounterState.saturated := false |>.

Definition describe_counter (p : CounterPublication.t) (c : CounterState.t) : CounterState.t :=
  c <| CounterState.kind := CounterPublication.kind p |>
    <| CounterState.scope := CounterPublication.scope p |>
    <| CounterState.width_bits := CounterPublication.width_bits p |>
    <| CounterState.generation := CounterPublication.generation p |>
    <| CounterState.bytes_per_unit := CounterPublication.bytes_per_unit p |>
    <| CounterState.mapped_type := CounterPublication.mapped_type p |>
    <| CounterState.provenance := CounterPublication.provenance p |>
    <| CounterState.granularity := CounterPublication.granularity p |>
    <| CounterState.source := CounterPublication.source p |>
    <| CounterState.target := CounterPublication.target p |>
    <| CounterState.region := CounterPublication.region p |>
    <| CounterState.region_generation := CounterPublication.region_generation p |>
    <| CounterState.workload := CounterPublication.workload p |>
    <| CounterState.topology_generation := CounterPublication.topology_generation p |>.

(** How a sample continues the previous one. *)
Inductive continuity := Continuous | Wrapped | WasReset.

Definition counter_delta (p : CounterPublication.t) (c : CounterState.t) : Z * continuity :=
  let raw := CounterPublication.raw_value p in
  let last := CounterState.last_raw c in
  let wmax := width_max (CounterPublication.width_bits p) in
  match CounterPublication.kind p with
  | CounterKind.Delta => (raw, Continuous)
  | CounterKind.Sampled => (0, Continuous)
  | _ =>
      if negb (CounterState.has_last c) then (0, Continuous)
      else if last <=? raw then (raw - last, Continuous)
      else if bool_decide (CounterPublication.kind p = CounterKind.Wrapping)
              && (CounterPublication.width_bits p <? 64)
              && (wmax / 2 <? last - raw)
      then (wmax - last + raw + 1, Wrapped)
      else (0, WasReset)
  end.

Definition note_sample (p : CounterPublication.t) (delta : Z) (k : continuity)
    (c : CounterState.t) : CounterState.t :=
  let c := match k with
           | Continuous => c
           | Wrapped => c <| CounterState.wraps ::= incr |>
           | WasReset => c <| CounterState.resets ::= incr |>
           end in
  let c := c <| CounterState.has_last := true |>
             <| CounterState.last_raw := CounterPublication.raw_value p |>
             <| CounterState.samples ::= incr |> in
  let c := if CounterState.has_time c then c
           else c <| CounterState.first_ns := CounterPublication.timestamp_ns p |>
                  <| CounterState.has_time := true |> in
  let c := c <| CounterState.last_ns := CounterPublication.timestamp_ns p |> in
  let r := checked_add (CounterState.accumulated c) delta in
  let c := c <| CounterState.accumulated := AddResult.value r |> in
  if AddResult.overflowed r then c <| CounterState.saturated := true |> else c.

Definition derived_direction (t : EventType.t) : AccessDirection.t :=
  match t with
  | EventType.RemoteRead | EventType.SharedRead | EventType.DirectoryLookup => AccessDirection.Read
  | EventType.RemoteWrite | EventType.Writeback | EventType.WriteExclusiveTransition =>
      AccessDirection.Write
  | EventType.RemoteAtomic => AccessDirection.Atomic
  | _ => AccessDirection.None
  end.

Definition derived_observation (p : CounterPublication.t) (delta : Z) (s : State.t)
    : Observation.t :=
  let scaled := AddResult.value (checked_mul delta (CounterPublication.bytes_per_unit p)) in
  Observation.empty
    <| Observation.event_id :=
         counter_event_id (CounterPublication.counter p) (CounterPublication.sequence p) |>
    <| Observation.type := CounterPublication.mapped_type p |>
    <| Observation.source_publisher := CounterPublication.publisher p |>
    <| Observation.publisher_boot := CounterPublication.publisher_boot p |>
    <| Observation.coordinator_epoch := State.coordinator_epoch s |>
    <| Observation.sampling_epoch := CounterPublication.sampling_epoch p |>
    <| Observation.evidence_generation := CounterPublication.evidence_generation p |>
    <| Observation.sequence := CounterPublication.sequence p |>
    <| Observation.timestamp_ns := CounterPublication.timestamp_ns p |>
    <| Observation.source := CounterPublication.source p |>
    <| Observation.target := CounterPublication.target p |>
    <| Observation.region := CounterPublication.region p |>
    <| Observation.region_generation := CounterPublication.region_generation p |>
    <| Observation.topology_generation := CounterPublication.topology_generation p |>
    <| Observation.workload := CounterPublication.workload p |>
    <| Observation.direction := derived_direction (CounterPublication.mapped_type p) |>
    <| Observation.counter_delta := Some delta |>
    <| Observation.counter_generation := CounterPublication.generation p |>
    <| Observation.bytes := if Limits.kMaxByteCount <? scaled then Limits.kMaxByteCount else scaled |>
    <| Observation.precision := Precision.ExactCounterDelta |>
    <| Observation.granularity := CounterPublication.granularity p |>
    <| Observation.provenance := CounterPublication.provenance p |>
    <| Observation.locality := Locality.Unknown |>
    <| Observation.locality_declared := false |>
    <| Observation.metadata := CounterPublication.metadata p |>
    <| Observation.accepted_epoch := State.observation_epoch s |>.

Definition counter_stale_record (o : Observation.t) (a : AttributionResult.t)
    : StaleEvidenceRecord.t :=
  {| StaleEvidenceRecord.kind := StaleEvidenceRecord.StaleGeneration;
     StaleEvidenceRecord.event_id := Observation.event_id o;
     StaleEvidenceRecord.publisher := Observation.source_publisher o;
     StaleEvidenceRecord.publisher_boot := Observation.publisher_boot o;
     StaleEvidenceRecord.region := default ""%string (Observation.region o);
     StaleEvidenceRecord.event_type := Observation.type o;
     StaleEvidenceRecord.observed_at_ns := Observation.timestamp_ns o;
     StaleEvidenceRecord.detail :=
       "counter-derived evidence not current: " +:+ first_reason "no reason" a |}.

Definition counter_key (p : CounterPublication.t) : CounterKey.t :=
  CounterKey.mk (CounterPublication.publisher p) (CounterPublication.publisher_boot p)
    (CounterPublication.counter p).

(** The counter part, after the sequence was committed in [s]. *)
Definition advance_counter (p : CounterPublication.t) (pub : PublisherState.t) (s : State.t)
    : State.t * result CounterOutcome.t :=
  let id := CounterPublication.publisher p in
  let key := counter_key p in
  if negb (is_some (State.counters s !! key))
     && (Limits.kMaxCounterRecords <=? zsize (State.counters s)) then
    (lose (λ l, l <| LossReport.rejected_overflow ::= incr |>) (set_publisher id pub s),
     fail ErrorCode.Capacity "counter capacity reached")
  else
    let c := default CounterState.empty (State.counters s !! key) in
    let changed := identity_changed c p in
    let c := if changed then restart_counter c else c in
    let resets q := q <| SequenceState.counter_resets ::= incr |> in
    let wraps q := q <| SequenceState.counter_wraps ::= incr |> in
    let pub := if changed then on_sequences resets pub else pub in
    let c := describe_counter p c in
    let store c pub := (set_publisher id pub s) <| State.counters ::= <[key := c]> |> in
    if negb (bool_decide (CounterPublication.kind p = CounterKind.Delta))
       && negb (bool_decide (CounterPublication.kind p = CounterKind.Sampled))
       && (width_max (CounterPublication.width_bits p) <? CounterPublication.raw_value p) then
      (lose (λ l, l <| LossReport.rejected_malformed ::= incr |>) (store c pub),
       fail ErrorCode.OutOfRange "counter value exceeds its declared width")
    else
      let '(delta, k) := counter_delta p c in
      let c := note_sample p delta k c in
      let pub := match k with
                 | Continuous => pub
                 | Wrapped => on_sequences wraps pub
                 | WasReset => on_sequences resets pub
                 end in
      let reason := match k with
                    | Continuous =>
                        if changed then "counter generation or descriptor changed" else ""
                    | Wrapped => "counter wrapped"
                    | WasReset => "counter reset"
                    end%string in
      let discontinuity := match k with Continuous => changed | _ => true end in
      let outcome := CounterOutcome.mk true ErrorCode.Ok "" (negb (delta =? 0)) delta
                       discontinuity reason in
      let s := store c pub in
      if delta =? 0 then (s, Ok outcome)
      else ((apply_attributed counter_stale_record (derived_observation p delta s) s).1, Ok outcome).

Definition ingest_counter (now : Z) (p : CounterPublication.t) (s : State.t)
    : State.t * result CounterOutcome.t :=
  let malformed := lose (λ l, l <| LossReport.rejected_malformed ::= incr |>) s in
  let unauthorized := lose (λ l, l <| LossReport.rejected_unauthorized ::= incr |>) s in
  match validate_counter_publication p with
  | Err e => (malformed, Err e)
  | Ok _ =>
  if decide (CounterPublication.granularity p = EvidenceGranularity.Unknown) then
    (malformed, fail ErrorCode.InvalidArgument
                  "a counter publication must state its evidence granularity")
  else
  let id := CounterPublication.publisher p in
  match State.publishers s !! id with
  | None => (unauthorized, fail ErrorCode.Unauthorized "unknown publisher")
  | Some pub =>
  let v := PublisherState.view pub in
  if negb (PublisherView.boot v =? CounterPublication.publisher_boot p) then
    (unauthorized, fail ErrorCode.StaleBoot "superseded publisher boot")
  else if negb (CounterPublication.coordinator_epoch p =? State.coordinator_epoch s) then
    (unauthorized, fail ErrorCode.StaleEpoch "stale coordinator epoch")
  else if negb (PublisherView.current v) || PublisherView.fenced v then
    (unauthorized, fail ErrorCode.StaleBoot "publisher boot is not current")
  else
  let d := account_sequence pub (CounterPublication.sequence p) (counter_hash p) in
  match SequenceDecision.disposition d with
  | IngestionDisposition.Duplicate =>
      (lose (λ l, l <| LossReport.rejected_duplicates ::= incr |>)
         (set_publisher id (on_sequences (λ q, q <| SequenceState.duplicates ::= incr |>) pub) s),
       Ok (CounterOutcome.empty <| CounterOutcome.detail := "duplicate counter sample" |>))
  | IngestionDisposition.Rejected =>
      let s := set_publisher id (on_view (λ v, v <| PublisherView.rejected_events ::= incr |>) pub) s in
      (if decide (SequenceDecision.code d = ErrorCode.StaleSequence)
       then lose (λ l, l <| LossReport.rejected_stale_sequences ::= incr |>) s
       else lose (λ l, l <| LossReport.rejected_conflicting_duplicates ::= incr |>) s,
       fail (SequenceDecision.code d) (SequenceDecision.detail d))
  | _ =>
      let pub := commit_sequence (CounterPublication.sequence p) (counter_hash p) pub in
      let pub := on_view (λ v, v <| PublisherView.accepted_counters ::= incr |>)
                   (note_accepted now d pub) in
      advance_counter p pub (lose_missing d s)
  end
  end
  end.

(** ** What a sample can change *)

(** Applying an attributed observation changes evidence and stale records only. *)
Lemma apply_attributed_frame {X} (q : State.t → X) record o s :
  (∀ a j re ro l s, q (with_evidence a j re ro l s) = q s) →
  (∀ g s, q (update_field (p:=State.stale) g s) = q s) →
  q (apply_attributed record o s).1 = q s.
Proof.
  intros H1 H2. unfold apply_attributed. cbn [fst]. rewrite apply_observation_proj by done.
  case_match; [done|]. apply H2.
Qed.

Lemma apply_attributed_ok record o s : evidence_ok s → evidence_ok (apply_attributed record o s).1.
Proof.
  intros H. unfold apply_attributed. cbn [fst]. apply apply_observation_ok.
  case_match; [done|by apply record_stale_ok].
Qed.

Lemma apply_attributed_journal record o s :
  ∃ e, last (State.journal (apply_attributed record o s).1) = Some e
    ∧ JournalEntry.observation e = o
    ∧ JournalEntry.outcome e = AttributionResult.outcome (apply_attributed record o s).2.
Proof. unfold apply_attributed. cbn [fst snd]. rewrite apply_observation_journal. by eexists. Qed.

(** Two publisher entries that agree on identity and authority, the second with a
    sound replay window if the first has one. *)
Definition same_authority (p p' : PublisherState.t) : Prop :=
  PublisherView.id (PublisherState.view p') = PublisherView.id (PublisherState.view p)
  ∧ PublisherView.boot (PublisherState.view p') = PublisherView.boot (PublisherState.view p)
  ∧ PublisherView.current (PublisherState.view p') = PublisherView.current (PublisherState.view p)
  ∧ PublisherView.fenced (PublisherState.view p') = PublisherView.fenced (PublisherState.view p)
  ∧ (sequence_inv p → sequence_inv p').

#[global] Instance same_authority_refl : Reflexive same_authority.
Proof. intros p. by split_and!. Qed.
#[global] Instance same_authority_trans : Transitive same_authority.
Proof.
  intros p1 p2 p3 (A1&A2&A3&A4&A5) (B1&B2&B3&B4&B5). split_and!; [congruence..|auto].
Qed.

Lemma on_sequences_authority f p : same_authority p (on_sequences f p).
Proof. by split_and!. Qed.
Lemma commit_sequence_authority sq h p : same_authority p (commit_sequence sq h p).
Proof.
  unfold same_authority. split_and!; [unfold commit_sequence; by case_match..|].
  apply commit_sequence_inv.
Qed.
Lemma note_accepted_authority now d p : same_authority p (note_accepted now d p).
Proof. by split_and!. Qed.
#[export] Hint Resolve on_sequences_authority commit_sequence_authority note_accepted_authority : obs.

(** A step that may touch one publisher's accounting, counters, loss, stale
    records and evidence, and nothing else. *)
Record accounting_step (s s' : State.t) : Prop := {
  as_evidence : evidence_ok s → evidence_ok s';
  as_registry : same_registry s s';
  as_watermarks : State.watermarks s' = State.watermarks s;
  as_publishers : ∀ k, match State.publishers s !! k, State.publishers s' !! k with
                       | Some p, Some p' => same_authority p p'
                       | None, None => True
                       | _, _ => False
                       end;
  as_counters : zsize (State.counters s) ≤ Limits.kMaxCounterRecords →
                zsize (State.counters s') ≤ Limits.kMaxCounterRecords;
}.

#[global] Instance accounting_step_refl : Reflexive accounting_step.
Proof. intros s. constructor; try done. intros k. by destruct (_ !! k). Qed.
#[global] Instance accounting_step_trans : Transitive accounting_step.
Proof.
  intros s1 s2 s3 [A1 A2 A3 A4 A5] [B1 B2 B3 B4 B5]. constructor; [auto|by etransitivity|congruence| |auto].
  intros k. specialize (A4 k). specialize (B4 k).
  destruct (State.publishers s1 !! k), (State.publishers s2 !! k), (State.publishers s3 !! k); try done.
  by etransitivity.
Qed.

Lemma accounting_lose f s : accounting_step s (lose f s).
Proof.
  constructor; try done; [by intros []; constructor|]. intros k. cbn. by destruct (_ !! k).
Qed.

Lemma accounting_set_publisher id p p' s :
  State.publishers s !! id = Some p → same_authority p p' →
  accounting_step s (set_publisher id p' s).
Proof.
  intros E H. constructor; try done; [by intros []; constructor|]. intros k. cbn.
  destruct (decide (k = id)) as [->|Hne].
  - by rewrite E, lookup_insert_eq.
  - rewrite lookup_insert_ne by done. by destruct (_ !! k).
Qed.

Lemma accounting_counters (k : CounterKey.t) c s :
  is_Some (State.counters s !! k) ∨ zsize (State.counters s) < Limits.kMaxCounterRecords →
  accounting_step s (s <| State.counters ::= <[k := c]> |>).
Proof.
  intros H. constructor; try done; [by intros []; constructor| |].
  - intros i. cbn. by destruct (_ !! i).
  - cbn. intros Hs. destruct H as [[c0 H]|H]; [by rewrite (zsize_insert_Some _ _ _ _ H)|].
    pose proof (zsize_insert_le (State.counters s) k c). lia.
Qed.

Lemma accounting_apply record o s : accounting_step s (apply_attributed record o s).1.
Proof.
  constructor; [apply apply_attributed_ok|..].
  - unfold same_registry. split_and!; by rewrite apply_attributed_frame by reflexivity.
  - by rewrite apply_attributed_frame by reflexivity.
  - intros k. rewrite apply_attributed_frame by reflexivity. by destruct (_ !! k).
  - by rewrite apply_attributed_frame by reflexivity.
Qed.

Lemma accounting_lose_missing d s : accounting_step s (lose_missing d s).
Proof. unfold lose_missing. case_match; [done|apply accounting_lose]. Qed.

Lemma accounting_step_publishers s s' : accounting_step s s' → publishers_ok s → publishers_ok s'.
Proof.
  intros [_ _ Hw Hp _] [He Hc Hk]. constructor; [| |by rewrite Hw].
  - intros k p' Ep'. specialize (Hp k). rewrite Ep' in Hp.
    destruct (State.publishers s !! k) as [p|] eqn:Ep; [|done].
    destruct Hp as (-> & _ & -> & -> & Hseq). destruct (He _ _ Ep) as (? & ? & ?). auto.
  - assert (E : dom (State.publishers s') = dom (State.publishers s)).
    { apply set_eq. intros k. rewrite !elem_of_dom. specialize (Hp k).
      destruct (State.publishers s !! k), (State.publishers s' !! k); try done; split; by intros []. }
    unfold zsize in *. by rewrite <-size_dom, E, size_dom.
Qed.

Lemma accounting_step_barred s s' id boot : accounting_step s s' → barred s id boot → barred s' id boot.
Proof.
  intros [_ _ Hw Hp _] [(p & Ep & Eb & Ef)|Hf]; [left|right; by rewrite Hw].
  specialize (Hp id). rewrite Ep in Hp. destruct (State.publishers s' !! id) as [p'|]; [|done].
  destruct Hp as (_ & Hb & _ & Hfen & _). exists p'. by rewrite Hb, Hfen.
Qed.

(** No observation was recorded. *)
Definition same_observations (s s' : State.t) : Prop :=
  State.aggregates s' = State.aggregates s ∧ State.journal s' = State.journal s
  ∧ State.region_evidence s' = State.region_evidence s
  ∧ State.region_evidence_order s' = State.region_evidence_order s
  ∧ State.stale s' = State.stale s.

(** The counter record a sample is measured against. *)
Definition baseline (p : CounterPublication.t) (s : State.t) : CounterState.t :=
  let c := default CounterState.empty (State.counters s !! counter_key p) in
  describe_counter p (if identity_changed c p then restart_counter c else c).

Definition within_width (p : CounterPublication.t) : Prop :=
  CounterPublication.kind p = CounterKind.Delta ∨ CounterPublication.kind p = CounterKind.Sampled
  ∨ CounterPublication.raw_value p ≤ width_max (CounterPublication.width_bits p).

(** What an accepted sample leaves in the state. *)
Definition sample_effect (p : CounterPublication.t) (s s' : State.t) (out : CounterOutcome.t) : Prop :=
  let c := baseline p s in
  let '(delta, k) := counter_delta p c in
  within_width p
  ∧ CounterOutcome.accepted out = true ∧ CounterOutcome.delta out = delta
  ∧ CounterOutcome.produced_delta out = negb (delta =? 0)
  ∧ State.counters s' = <[counter_key p := note_sample p delta k c]> (State.counters s)
  ∧ (if delta =? 0 then same_observations s s'
     else ∃ e, last (State.journal s') = Some e
            ∧ JournalEntry.observation e = derived_observation p delta s).

Lemma advance_counter_spec p q pub s :
  State.publishers s !! CounterPublication.publisher p = Some q → same_authority q pub →
  let '(s', r) := advance_counter p pub s in
  accounting_step s s'
  ∧ match r with
    | Err e => same_observations s s'
        ∧ (State.counters s' = State.counters s
           ∨ State.counters s' = <[counter_key p := baseline p s]> (State.counters s))
    | Ok out => sample_effect p s s' out
    end.
Proof.
  intros Eq Ha. unfold advance_counter.
  destruct (negb (is_some _) && _) eqn:Efull.
  { split; [|split_and!; [done..|by left]]. etransitivity; [|apply accounting_lose].
    by eapply accounting_set_publisher. }
  assert (Hroom : is_Some (State.counters s !! counter_key p)
    ∨ zsize (State.counters s) < Limits.kMaxCounterRecords).
  { destruct (State.counters s !! counter_key p); [left; eauto|].
    right. cbn in Efull. by apply Z.leb_gt in Efull. }
  fold (baseline p s).
  assert (Hstore : ∀ c pub', same_authority q pub' → accounting_step s
    ((set_publisher (CounterPublication.publisher p) pub' s) <| State.counters ::= <[counter_key p := c]> |>)).
  { intros c pub' Ha'. etransitivity; [by eapply accounting_set_publisher|]. by apply accounting_counters. }
  set (changed := identity_changed _ p). cbn zeta.
  set (pub1 := if changed then on_sequences _ pub else pub).
  assert (Ha1 : same_authority q pub1).
  { unfold pub1. destruct changed; [|done]. etransitivity; [done|]. auto with obs. }
  clearbody pub1.
  destruct (negb _ && negb _ && _) eqn:Ew.
  { split; [|split_and!; [done..|by right]]. etransitivity; [|apply accounting_lose]. by apply Hstore. }
  assert (Hw : within_width p).
  { unfold within_width. destruct (CounterPublication.kind p); cbn in Ew; auto;
      right; right; by apply Z.ltb_ge in Ew. }
  unfold sample_effect. destruct (counter_delta p (baseline p s)) as [delta k].
  set (pub2 := match k with Continuous => _ | _ => _ end).
  assert (Ha2 : same_authority q pub2).
  { unfold pub2. destruct k; [done|..]; (etransitivity; [done|]; auto with obs). }
  clearbody pub2. destruct (delta =? 0) eqn:Ed.
  { split; [by apply Hstore|]. by split_and!. }
  split; [etransitivity; [by apply Hstore|apply accounting_apply]|].
  split_and!; [done..|by rewrite apply_attributed_frame by reflexivity|].
  destruct (apply_attributed_journal counter_stale_record
    (derived_observation p delta
       ((set_publisher (CounterPublication.publisher p) pub2 s)
          <| State.counters ::= <[counter_key p := note_sample p delta k (baseline p s)]> |>))
    ((set_publisher (CounterPublication.publisher p) pub2 s)
          <| State.counters ::= <[counter_key p := note_sample p delta k (baseline p s)]> |>))
    as (e & He & Ho & _).
  by exists e.
Qed.

Lemma ingest_counter_cases now p s :
  let '(s', r) := ingest_counter now p s in
  accounting_step s s'
  ∧ match r with
    | Err e => same_observations s s'
        ∧ (State.counters s' = State.counters s
           ∨ State.counters s' = <[counter_key p := baseline p s]> (State.counters s))
    | Ok out =>
        if CounterOutcome.accepted out
        then sample_effect p s s' out
             ∧ validate_counter_publication p = Ok tt
             ∧ CounterPublication.coordinator_epoch p = State.coordinator_epoch s
             ∧ ∃ q, State.publishers s !! CounterPublication.publisher p = Some q
                ∧ PublisherView.boot (PublisherState.view q) = CounterPublication.publisher_boot p
                ∧ PublisherView.current (PublisherState.view q) = true
                ∧ PublisherView.fenced (PublisherState.view q) = false
        else same_observations s s' ∧ State.counters s' = State.counters s
    end.
Proof.
  unfold ingest_counter. destruct (validate_counter_publication p) as [[]|e] eqn:Ev.
  2: { split; [apply accounting_lose|]. split; [by split_and!|by left]. }
  case_decide as Hg. { split; [apply accounting_lose|]. split; [by split_and!|by left]. }
  destruct (State.publishers s !! _) as [q|] eqn:Eq.
  2: { split; [apply accounting_lose|]. split; [by split_and!|by left]. }
  destruct (negb (PublisherView.boot _ =? _)) eqn:Eb.
  { split; [apply accounting_lose|]. split; [by split_and!|by left]. }
  destruct (negb (CounterPublication.coordinator_epoch p =? _)) eqn:Ee.
  { split; [apply accounting_lose|]. split; [by split_and!|by left]. }
  destruct (negb (PublisherView.current _) || _) eqn:Ec.
  { split; [apply accounting_lose|]. split; [by split_and!|by left]. }
  apply negb_false_iff, Z.eqb_eq in Eb, Ee. apply orb_false_iff in Ec as [Ec Ef].
  apply negb_false_iff in Ec. set (d := account_sequence _ _ _).
  assert (Hadv : ∀ pub, same_authority q pub →
    let '(s', r) := advance_counter p pub (lose_missing d s) in
    accounting_step s s' ∧ match r with
    | Err e => same_observations s s'
        ∧ (State.counters s' = State.counters s
           ∨ State.counters s' = <[counter_key p := baseline p s]> (State.counters s))
    | Ok out => sample_effect p s s' out
    end).
  { intros pub Hpub. pose proof (advance_counter_spec p q pub (lose_missing d s)) as H.
    destruct (advance_counter p pub (lose_missing d s)) as [s' r].
    destruct H as [H1 H2]; [unfold lose_missing; by case_match|done|].
    split; [etransitivity; [apply accounting_lose_missing|exact H1]|].
    unfold lose_missing in H2. by destruct (SequenceDecision.missing d =? 0). }
  set (pub := on_view _ (note_accepted now d _)).
  assert (Hpub : same_authority q pub).
  { transitivity (commit_sequence (CounterPublication.sequence p) (counter_hash p) q); [|by split_and!].
    auto with obs. }
  specialize (Hadv pub Hpub). clearbody pub. destruct (SequenceDecision.disposition d).
  1, 2: destruct (advance_counter p pub _) as [s' [out|e]]; destruct Hadv as [H1 H2]; [|done];
    split; [done|]; assert (Hacc : CounterOutcome.accepted out = true)
      by (unfold sample_effect in H2; destruct (counter_delta p _); apply H2);
    rewrite Hacc; split_and!; try done; by exists q.
  - split; [|by split_and!]. etransitivity; [|apply accounting_lose].
    eapply accounting_set_publisher; [done|]. auto with obs.
  - split; [|case_decide; (split; [by split_and!|by left])].
    transitivity (set_publisher (CounterPublication.publisher p)
      (on_view (λ v, v <| PublisherView.rejected_events ::= incr |>) q) s).
    + by eapply accounting_set_publisher.
    + case_decide; apply accounting_lose.
Qed.

(** ** Deltas *)

(** A free-running counter of [w] bits, sampled before it has advanced by more than
    half its range. *)
Lemma counter_delta_wrapping p c w t a :
  CounterPublication.kind p = CounterKind.Wrapping → CounterPublication.width_bits p = w →
  1 ≤ w < 64 → CounterState.has_last c = true → CounterState.last_raw c = t mod 2 ^ w →
  CounterPublication.raw_value p = (t + a) mod 2 ^ w → 0 ≤ a ≤ 2 ^ (w - 1) →
  (counter_delta p c).1 = a.
Proof.
  intros Hk Ew Hw Hl El Er Ha. unfold counter_delta. rewrite Hk, Ew, Hl, El, Er.
  unfold width_max. destruct (Z.leb_spec 64 w); [lia|]. destruct (Z.ltb_spec w 64); [|lia].
  set (m := 2 ^ (w - 1)) in *. assert (Em : 2 ^ w = 2 * m).
  { unfold m. rewrite <-Z.pow_succ_r by lia. f_equal. lia. }
  rewrite Em in *. assert (Hm : 0 < m) by (unfold m; apply Z.pow_pos_nonneg; lia). clearbody m.
  rewrite <-(Zplus_mod_idemp_l t a). pose proof (Z.mod_pos_bound t (2 * m)) as Hb.
  set (last := t mod (2 * m)) in *. clearbody last. cbn [negb].
  assert (Ehalf : (2 * m - 1) / 2 = m - 1) by (symmetry; apply (Z.div_unique_pos _ _ _ 1); lia).
  rewrite Ehalf. destruct (Z.lt_ge_cases (last + a) (2 * m)) as [Hlt|Hge].
  - rewrite Z.mod_small by lia. destruct (Z.leb_spec last (last + a)); [cbn; lia|lia].
  - assert (E1 : (last + a) mod (2 * m) = last + a - 2 * m)
      by (symmetry; apply (Z.mod_unique_pos _ _ 1); lia).
    rewrite E1. destruct (Z.leb_spec last (last + a - 2 * m)); [cbn; lia|].
    rewrite bool_decide_eq_true_2 by done. cbn [andb].
    destruct (Z.ltb_spec (m - 1) (last - (last + a - 2 * m))); cbn; lia.
Qed.

(** Claim C35.  A counter never yields negative or invented traffic: when the new sample
    and the last one are inside the declared width the delta lies between zero and the
    width's maximum; a counter of deltas yields the value itself and a sampled one nothing; a cumulative
    counter yields nothing on its first sample and on a reset, and otherwise the delta
    carries the last value to the new one, modulo the width when it wrapped. *)
Theorem counter_delta_sound (p : CounterPublication.t) (c : CounterState.t) :
  let wmax := width_max (CounterPublication.width_bits p) in
  0 ≤ CounterPublication.raw_value p ≤ wmax → 0 ≤ CounterState.last_raw c ≤ wmax →
  let '(delta, k) := counter_delta p c in
  0 ≤ delta ≤ wmax
  ∧ (k = WasReset → delta = 0)
  ∧ (CounterPublication.kind p = CounterKind.Delta → delta = CounterPublication.raw_value p ∧ k = Continuous)
  ∧ (CounterPublication.kind p = CounterKind.Sampled → delta = 0 ∧ k = Continuous)
  ∧ (CounterPublication.kind p ≠ CounterKind.Delta → CounterPublication.kind p ≠ CounterKind.Sampled →
     if CounterState.has_last c
     then match k with
          | Continuous => CounterState.last_raw c + delta = CounterPublication.raw_value p
          | Wrapped => CounterState.last_raw c + delta = CounterPublication.raw_value p + (wmax + 1)
          | WasReset => CounterPublication.raw_value p < CounterState.last_raw c
          end
     else delta = 0 ∧ k = Continuous).
Proof.
  cbn zeta. set (wmax := width_max _). intros Hr Hl. unfold counter_delta. fold wmax.
  destruct (CounterPublication.kind p); try (intros; split_and!; (lia || done)).
  all: destruct (CounterState.has_last c); cbn [negb]; [|intros; split_and!; (lia || done)].
  all: destruct (Z.leb_spec (CounterState.last_raw c) (CounterPublication.raw_value p));
    [intros; split_and!; (lia || done)|].
  all: destruct (_ && _); intros; split_and!; (lia || done).
Qed.

Definition wrapping_sample (sequence raw : Z) : CounterPublication.t :=
  sample_counter <| CounterPublication.kind := CounterKind.Wrapping |>
    <| CounterPublication.width_bits := 8 |>
    <| CounterPublication.sequence := sequence |>
    <| CounterPublication.raw_value := raw |>.

Lemma counter_delta_sound_witness :
  let c := CounterState.empty <| CounterState.has_last := true |> <| CounterState.last_raw := 250 |> in
  counter_delta (wrapping_sample 2 4) c = (10, Wrapped)
  ∧ 0 ≤ (counter_delta (wrapping_sample 2 4) c).1 ≤ 255.
Proof.
  cbn zeta. split; [by vm_compute|].
  exact (proj1 (counter_delta_sound (wrapping_sample 2 4)
    (CounterState.empty <| CounterState.has_last := true |> <| CounterState.last_raw := 250 |>)
    ltac:(by vm_compute) ltac:(by vm_compute))).
Defined.

(** ** Runs of a free-running counter *)

Definition same_counter (ref p : CounterPublication.t) : Prop :=
  counter_key p = counter_key ref
  ∧ CounterPublication.generation p = CounterPublication.generation ref
  ∧ CounterPublication.kind p = CounterPublication.kind ref
  ∧ CounterPublication.scope p = CounterPublication.scope ref
  ∧ CounterPublication.width_bits p = CounterPublication.width_bits ref
  ∧ CounterPublication.mapped_type p = CounterPublication.mapped_type ref.

(** The record [c] describes [ref] and last saw the counter at [total]. *)
Definition continues (ref : CounterPublication.t) (total : Z) (c : CounterState.t) : Prop :=
  CounterState.generation c = CounterPublication.generation ref
  ∧ CounterState.kind c = CounterPublication.kind ref
  ∧ CounterState.scope c = CounterPublication.scope ref
  ∧ CounterState.width_bits c = CounterPublication.width_bits ref
  ∧ CounterState.mapped_type c = CounterPublication.mapped_type ref
  ∧ CounterState.has_last c = true
  ∧ CounterState.last_raw c = total mod 2 ^ CounterPublication.width_bits ref.

(** [counter_run ref s t s' t']: from a state in which the device stood at [t],
    samples of the counter [ref], observations and samples of other counters lead to
    [s'], the device standing at [t'].  The device advances by at most half its
    range between two samples. *)
Inductive counter_run (ref : CounterPublication.t) (s : State.t) (t : Z) : State.t → Z → Prop :=
| run_start : counter_run ref s t s t
| run_sample s1 t1 now p a s2 out :
    counter_run ref s t s1 t1 → same_counter ref p →
    0 ≤ a ≤ 2 ^ (CounterPublication.width_bits ref - 1) →
    CounterPublication.raw_value p = (t1 + a) mod 2 ^ CounterPublication.width_bits ref →
    ingest_counter now p s1 = (s2, Ok out) → CounterOutcome.accepted out = true →
    counter_run ref s t s2 (t1 + a)
| run_observation s1 t1 now o :
    counter_run ref s t s1 t1 → counter_run ref s t (ingest now o s1).1 t1
| run_other s1 t1 now p :
    counter_run ref s t s1 t1 → counter_key p ≠ counter_key ref →
    counter_run ref s t (ingest_counter now p s1).1 t1.

Lemma continues_unchanged ref p t c :
  same_counter ref p → continues ref t c → identity_changed c p = false.
Proof.
  intros (_ & G & K & S & W & M) (G' & K' & S' & W' & M' & _). unfold identity_changed.
  rewrite G, K, S, W, M, G', K', S', W', M', !Z.eqb_refl, !bool_decide_eq_true_2 by done.
  apply andb_false_r.
Qed.

Lemma note_sample_fields p delta k c :
  CounterState.accumulated (note_sample p delta k c) = sat_add (CounterState.accumulated c) delta
  ∧ CounterState.has_last (note_sample p delta k c) = true
  ∧ CounterState.last_raw (note_sample p delta k c) = CounterPublication.raw_value p
  ∧ CounterState.generation (note_sample p delta k c) = CounterState.generation c
  ∧ CounterState.kind (note_sample p delta k c) = CounterState.kind c
  ∧ CounterState.scope (note_sample p delta k c) = CounterState.scope c
  ∧ CounterState.width_bits (note_sample p delta k c) = CounterState.width_bits c
  ∧ CounterState.mapped_type (note_sample p delta k c) = CounterState.mapped_type c.
Proof.
  rewrite <-checked_add_value. unfold note_sample.
  destruct c as [kd sc w g bpu mt hl lr acc sat n rs wr ht f l pv gr so ta re rg wl tg].
  destruct k, ht; cbn -[checked_add];
    (destruct (AddResult.overflowed (checked_add acc delta)); cbn -[checked_add];
     by split_and!).
Qed.

Lemma run_sample_step ref now p s s' out t a c :
  CounterPublication.kind ref = CounterKind.Wrapping →
  1 ≤ CounterPublication.width_bits ref < 64 → same_counter ref p →
  0 ≤ a ≤ 2 ^ (CounterPublication.width_bits ref - 1) →
  CounterPublication.raw_value p = (t + a) mod 2 ^ CounterPublication.width_bits ref →
  ingest_counter now p s = (s', Ok out) → CounterOutcome.accepted out = true →
  State.counters s !! counter_key ref = Some c → continues ref t c →
  ∃ c', State.counters s' !! counter_key ref = Some c' ∧ continues ref (t + a) c'
    ∧ CounterState.accumulated c' = sat_add (CounterState.accumulated c) a.
Proof.
  intros Hk Hw Hsame Ha Hraw Hing Hacc Hc Hcont.
  pose proof (ingest_counter_cases now p s) as H. rewrite Hing in H. rewrite Hacc in H.
  destruct H as (_ & Heff & _). unfold sample_effect in Heff.
  assert (Eb : baseline p s = describe_counter p c).
  { unfold baseline. rewrite (proj1 Hsame), Hc. change (default _ (Some c)) with c. cbn zeta.
    by rewrite (continues_unchanged ref p t c Hsame Hcont). }
  destruct Hcont as (G & K & S & W & M & L & R). pose proof Hsame as (Hkey & G' & K' & S' & W' & M').
  rewrite Eb in Heff.
  pose proof (counter_delta_wrapping p (describe_counter p c) (CounterPublication.width_bits ref) t a)
    as Hd.
  rewrite K', W' in Hd. specialize (Hd Hk eq_refl Hw L R Hraw Ha).
  destruct (counter_delta p (describe_counter p c)) as [delta k]. cbn [fst] in Hd. subst delta.
  destruct Heff as (_ & _ & _ & _ & Ectr & _).
  exists (note_sample p a k (describe_counter p c)). rewrite Ectr, Hkey, lookup_insert_eq.
  destruct (note_sample_fields p a k (describe_counter p c)) as (Eacc & El & Er & E1 & E2 & E3 & E4 & E5).
  split_and!; [done| |exact Eacc]. unfold continues. rewrite El, Er, E1, E2, E3, E4, E5.
  by split_and!.
Qed.

(** Claim C34. Counter evidence is exact across wrap-around: along any run in which a
    free-running counter of fewer than 64 bits is sampled before it has advanced by
    more than half its range, interleaved with observations and other counters'
    samples, the accumulated total grows by exactly what the device counted, up to
    saturation at the 64-bit maximum. *)
Theorem wrapping_counter_tracks_traffic (ref : CounterPublication.t) (s s' : State.t) (t t' : Z)
    (c : CounterState.t) :
  CounterPublication.kind ref = CounterKind.Wrapping →
  1 ≤ CounterPublication.width_bits ref < 64 →
  State.counters s !! counter_key ref = Some c → continues ref t c →
  CounterState.accumulated c ≤ u64_max →
  counter_run ref s t s' t' →
  ∃ c', State.counters s' !! counter_key ref = Some c' ∧ continues ref t' c'
    ∧ t ≤ t'
    ∧ CounterState.accumulated c' = Z.min u64_max (CounterState.accumulated c + (t' - t)).
Proof.
  intros Hk Hw Hc Hcont Hmax Hrun.
  induction Hrun as [|s1 t1 now p a s2 out _ IH Hsame Ha Hraw Hing Hacc|s1 t1 now o _ IH
    |s1 t1 now p _ IH Hne].
  - exists c. split_and!; [done..|]. lia.
  - destruct IH as (c1 & Hc1 & Hcont1 & Ht & Eacc).
    destruct (run_sample_step ref now p s1 s2 out t1 a c1) as (c2 & Hc2 & Hcont2 & Eacc2); try done.
    exists c2. split_and!; [done..|lia|]. rewrite Eacc2, Eacc. unfold sat_add. lia.
  - destruct (ingest_ok now o s1) as (_ & _ & _ & _ & E). unfold ingest. by rewrite E.
  - pose proof (ingest_counter_cases now p s1) as H. destruct (ingest_counter now p s1) as [s2 r].
    cbn [fst]. assert (E : State.counters s2 !! counter_key ref = State.counters s1 !! counter_key ref).
    { destruct H as [_ H]. destruct r as [out|e].
      - destruct (CounterOutcome.accepted out); [|by destruct H as [_ ->]].
        destruct H as [H _]. unfold sample_effect in H. destruct (counter_delta p _).
        destruct H as (_ & _ & _ & _ & -> & _). by rewrite lookup_insert_ne.
      - destruct H as [_ [-> | ->]]; [done|by rewrite lookup_insert_ne]. }
    by rewrite E.
Qed.

Definition sampled_state : State.t :=
  (ingest_counter 5 (wrapping_sample 1 250) (register "pub.a" 1 sample_state)).1.

Lemma wrapping_counter_tracks_traffic_witness :
  let s' := (ingest_counter 6 (wrapping_sample 2 4) sampled_state).1 in
  ∃ c', State.counters s' !! counter_key (wrapping_sample 1 250) = Some c'
    ∧ CounterState.accumulated c' = 10.
Proof.
  cbn zeta.
  destruct (wrapping_counter_tracks_traffic (wrapping_sample 1 250) sampled_state
    (ingest_counter 6 (wrapping_sample 2 4) sampled_state).1 250 260
    (default CounterState.empty (State.counters sampled_state !! counter_key (wrapping_sample 1 250))))
    as (c' & Hc & _ & _ & Hacc).
  - done.
  - by vm_compute.
  - by vm_compute.
  - vm_compute. by split_and!.
  - by vm_compute.
  - apply (run_sample _ _ _ sampled_state 250 6 (wrapping_sample 2 4) 10 _
      (CounterOutcome.mk true ErrorCode.Ok "" true 10 true "counter wrapped")).
    + apply run_start.
    + by split_and!.
    + by vm_compute.
    + by vm_compute.
    + rewrite (surjective_pairing (ingest_counter 6 (wrapping_sample 2 4) sampled_state)) at 1.
      apply pair_equal_spec. split; [done|by vm_compute].
    + done.
  - exists c'. split; [exact Hc|]. rewrite Hacc. by vm_compute.
Defined.

(** ** Counter evidence *)

Lemma derived_bytes p delta s :
  in_u64 delta → in_u64 (CounterPublication.bytes_per_unit p) →
  Observation.bytes (derived_observation p delta s)
  = Z.min Limits.kMaxByteCount (delta * CounterPublication.bytes_per_unit p).
Proof.
  intros Hd Hb. cbn -[checked_mul]. rewrite checked_mul_value by done.
  assert (Limits.kMaxByteCount ≤ u64_max) by by vm_compute.
  destruct (Z.ltb_spec Limits.kMaxByteCount
    (Z.min u64_max (delta * CounterPublication.bytes_per_unit p))); lia.
Qed.

(** Counter evidence enters the record exactly once and exactly as
    measured: a sample that is refused, a duplicate, or a sample without traffic
    records no observation at all (aggregates, journal, region evidence and stale
    records unchanged); an accepted sample with traffic appends one journal entry for
    its publisher, boot, sequence and region, carrying the delta as an exact counter
    delta, no locality claim, and the delta times the unit size capped at the byte
    limit; and it is only accepted from the live, unfenced boot in the live epoch. *)
Theorem counter_evidence_recorded (now : Z) (p : CounterPublication.t) (s : State.t) :
  let '(s', r) := ingest_counter now p s in
  match r with
  | Err _ => same_observations s s'
  | Ok out =>
      if CounterOutcome.accepted out then
        CounterPublication.coordinator_epoch p = State.coordinator_epoch s
        ∧ (∃ q, State.publishers s !! CounterPublication.publisher p = Some q
            ∧ PublisherView.boot (PublisherState.view q) = CounterPublication.publisher_boot p
            ∧ PublisherView.current (PublisherState.view q) = true
            ∧ PublisherView.fenced (PublisherState.view q) = false)
        ∧ if CounterOutcome.delta out =? 0 then same_observations s s'
          else ∃ e, last (State.journal s') = Some e
            ∧ let o := JournalEntry.observation e in
              Observation.source_publisher o = CounterPublication.publisher p
              ∧ Observation.publisher_boot o = CounterPublication.publisher_boot p
              ∧ Observation.sequence o = CounterPublication.sequence p
              ∧ Observation.region o = CounterPublication.region p
              ∧ Observation.type o = CounterPublication.mapped_type p
              ∧ Observation.counter_delta o = Some (CounterOutcome.delta out)
              ∧ Observation.precision o = Precision.ExactCounterDelta
              ∧ Observation.locality_declared o = false
              ∧ (in_u64 (CounterOutcome.delta out) → in_u64 (CounterPublication.bytes_per_unit p) →
                 Observation.bytes o = Z.min Limits.kMaxByteCount
                   (CounterOutcome.delta out * CounterPublication.bytes_per_unit p))
      else same_observations s s'
  end.
Proof.
  pose proof (ingest_counter_cases now p s) as H. destruct (ingest_counter now p s) as [s' [out|e]];
    [|apply H].
  destruct H as [_ H]. destruct (CounterOutcome.accepted out); [|apply H].
  destruct H as (Heff & _ & Hep & Hq). split_and!; [done..|]. unfold sample_effect in Heff.
  destruct (counter_delta p _) as [delta k]. destruct Heff as (_ & _ & -> & _ & _ & Hj).
  destruct (delta =? 0); [done|]. destruct Hj as (e & He & Ho). exists e. split; [done|].
  cbn zeta. rewrite Ho. split_and!; try done. apply derived_bytes.
Qed.

(** A counter sample refused for exceeding its declared width has already
    consumed its sequence number: the answer is OutOfRange, yet the publisher's
    watermark covers the sequence, the sample counts as an accepted counter, and the
    corrected sample sent under the same sequence is refused as a conflicting
    duplicate. *)
Theorem out_of_range_sample_consumes_sequence :
  let s := register "pub.a" 1 sample_state in
  let '(s1, r1) := ingest_counter 5 (wrapping_sample 1 300) s in
  let '(s2, r2) := ingest_counter 6 (wrapping_sample 1 200) s1 in
  code_of r1 = ErrorCode.OutOfRange ∧ code_of r2 = ErrorCode.Conflict
  ∧ (λ p, (PublisherState.has_watermark p, PublisherState.high_watermark p,
           PublisherView.accepted_counters (PublisherState.view p))) <$> State.publishers s1 !! "pub.a"%string
    = Some (true, 1, 1).
Proof. vm_compute. by split_and!. Qed.
