(* ===== verification/Reconcile.v ===== *)
(** * Reconciliation and attribution queries

    [attribute], [attribute_region] and [reconcile_current_evidence] of
    [src/observatory.cpp]. *)

From S2P Require Import Prelude Errors Checked TextUtil Ids Taxonomy Cost Records Observation.
From S2P Require Import Aggregate Sequence State Attribution Registry Publishers Ingest.
From S2P Require Import Counters.

(** ** Queries that only read *)

Definition attribute (o : Observation.t) (s : State.t) : result AttributionResult.t :=
  validate_observation_structure o;; Ok (attribute_observation s o).

Definition attribute_region (region : string) (s : State.t) : result AttributionResult.t :=
  validate_identity_token region;; Ok (attribute_region_state s region).

(** ** Reconciliation *)

Module ReconcileReport.
Record t := mk {
  coordinator_epoch : Z; observation_epoch : Z; publishers_marked_stale : Z;
  evidence_generations_retired : Z; stale_records : Z; findings_invalidated : Z;
}.
#[global] Instance eta : Eta t := fun r =>
  mk (coordinator_epoch r) (observation_epoch r) (publishers_marked_stale r)
    (evidence_generations_retired r) (stale_records r) (findings_invalidated r).
End ReconcileReport.

(** One publisher; [now] is the clock reading of its stale record. *)
Definition reconcile_publisher (now : Z) (id : string) (p : PublisherState.t)
    (x : State.t * ReconcileReport.t) : State.t * ReconcileReport.t :=
  let '(s, r) := x in
  let v := PublisherState.view p in
  let r := if PublisherView.current v then r
           else r <| ReconcileReport.publishers_marked_stale ::= incr |> in
  let p := on_view (λ v, v <| PublisherView.evidence_generation ::= next_id |>) p in
  let s := record_stale
             (StaleEvidenceRecord.empty
                <| StaleEvidenceRecord.kind := StaleEvidenceRecord.StaleGeneration |>
                <| StaleEvidenceRecord.publisher := PublisherView.id v |>
                <| StaleEvidenceRecord.publisher_boot := PublisherView.boot v |>
                <| StaleEvidenceRecord.observed_at_ns := now |>
                <| StaleEvidenceRecord.detail :=
                     "evidence generation retired by reconciliation; fresh publication required" |>)
             (set_publisher id p s) in
  (s, r <| ReconcileReport.evidence_generations_retired ::= incr |>
        <| ReconcileReport.stale_records ::= incr |>).

(** The loop over the publishers; [clk i] is the [i]-th clock reading. *)
Fixpoint reconcile_all (clk : nat → Z) (i : nat) (l : list (string * PublisherState.t))
    (x : State.t * ReconcileReport.t) : State.t * ReconcileReport.t :=
  match l with
  | [] => x
  | (id, p) :: rest => reconcile_all clk (S i) rest (reconcile_publisher (clk i) id p x)
  end.

Definition reconcile_current_evidence (clk : nat → Z) (s : State.t) : State.t * ReconcileReport.t :=
  let s := s <| State.observation_epoch ::= next_id |> in
  let report := ReconcileReport.mk (State.coordinator_epoch s) (State.observation_epoch s) 0 0 0 0 in
  let '(s, report) := reconcile_all clk 0 (entries (State.publishers s)) (s, report) in
  (s, report <| ReconcileReport.findings_invalidated := zlen (State.stale s) |>).

(** ** What reconciliation does *)

Definition retired (p : PublisherState.t) : PublisherState.t :=
  on_view (λ v, v <| PublisherView.evidence_generation ::= next_id |>) p.

Definition is_stale_publisher (e : string * PublisherState.t) : bool :=
  negb (PublisherView.current (PublisherState.view e.2)).

Definition stale_count (l : list (string * PublisherState.t)) : Z :=
  zlen (List.filter is_stale_publisher l).

(** Fields outside publishers and stale records. *)
Lemma reconcile_all_frame {X} (q : State.t → X) clk l : ∀ i s r,
  (∀ g s, q (update_field (p:=State.publishers) g s) = q s) →
  (∀ g s, q (update_field (p:=State.stale) g s) = q s) →
  q (reconcile_all clk i l (s, r)).1 = q s.
Proof.
  induction l as [|[id p] l IH]; intros i s r H1 H2; cbn [reconcile_all reconcile_publisher]; [done|].
  rewrite IH by done. unfold record_stale, set_publisher. by rewrite H2, H1.
Qed.

Lemma reconcile_all_publishers clk l : ∀ i s r,
  NoDup l.*1 →
  let s' := (reconcile_all clk i l (s, r)).1 in
  (∀ k p, (k, p) ∈ l → State.publishers s' !! k = Some (retired p))
  ∧ (∀ k, k ∉ l.*1 → State.publishers s' !! k = State.publishers s !! k).
Proof.
  induction l as [|[id p] l IH]; intros i s r Hnd; cbn [reconcile_all reconcile_publisher fst].
  { split; [|done]. intros k p Hin. by apply elem_of_nil in Hin. }
  apply NoDup_cons in Hnd as [Hnot Hnd].
  match goal with |- context [reconcile_all clk (S i) l (?s1, ?r1)] => destruct (IH (S i) s1 r1 Hnd) as [H1 H2] end.
  split.
  - intros k q [[= -> ->]|Hin]%elem_of_cons; [|auto].
    rewrite H2 by exact Hnot. cbn. by rewrite lookup_insert_eq.
  - intros k Hk. rewrite fmap_cons, elem_of_cons in Hk. rewrite H2 by tauto. cbn.
    rewrite lookup_insert_ne; [done|]. cbn in Hk. naive_solver.
Qed.

Lemma reconcile_all_evidence clk l : ∀ i s r,
  evidence_ok s → evidence_ok (reconcile_all clk i l (s, r)).1.
Proof.
  induction l as [|[id p] l IH]; intros i s r H; cbn [reconcile_all reconcile_publisher]; [done|].
  apply IH, record_stale_ok. destruct H. by constructor.
Qed.

Lemma reconcile_all_report clk l : ∀ i s r,
  0 ≤ ReconcileReport.publishers_marked_stale r → 0 ≤ ReconcileReport.evidence_generations_retired r →
  ReconcileReport.publishers_marked_stale r + zlen l ≤ u64_max →
  ReconcileReport.evidence_generations_retired r + zlen l ≤ u64_max →
  let r' := (reconcile_all clk i l (s, r)).2 in
  ReconcileReport.publishers_marked_stale r' = ReconcileReport.publishers_marked_stale r + stale_count l
  ∧ ReconcileReport.evidence_generations_retired r'
    = ReconcileReport.evidence_generations_retired r + zlen l
  ∧ ReconcileReport.coordinator_epoch r' = ReconcileReport.coordinator_epoch r
  ∧ ReconcileReport.observation_epoch r' = ReconcileReport.observation_epoch r.
Proof.
  unfold stale_count.
  induction l as [|[id p] l IH]; intros i s r P1 P2 B1 B2; cbn [reconcile_all reconcile_publisher snd].
  { cbn [List.filter]. rewrite !zlen_nil. split_and!; [lia|lia|done|done]. }
  rewrite zlen_cons in *. pose proof (zlen_nonneg l).
  assert (Hi : ∀ n, 0 ≤ n → n + 1 ≤ u64_max → incr n = n + 1).
  { intros n ??. unfold incr. apply u64_add_small. unfold in_u64. lia. }
  cbn [List.filter is_stale_publisher snd].
  match goal with |- context [reconcile_all clk (S i) l (?s1, ?r1)] => specialize (IH (S i) s1 r1) end.
  cbn [is_stale_publisher] in *. unfold is_stale_publisher at 1. cbn [snd].
  destruct (PublisherView.current (PublisherState.view p)); cbn [negb] in *;
    cbn -[incr zlen reconcile_all] in IH; rewrite !Hi in IH by lia;
    destruct IH as (E1 & E2 & E3 & E4); try lia;
    rewrite ?zlen_cons; split_and!; cbn -[incr zlen] in *; (lia || done).
Qed.

Lemma reconcile_steps clk s :
  let s' := (reconcile_current_evidence clk s).1 in
  (evidence_ok s → evidence_ok s') ∧ same_registry s s'
  ∧ State.publishers s' = retired <$> State.publishers s
  ∧ State.watermarks s' = State.watermarks s ∧ State.counters s' = State.counters s
  ∧ State.aggregates s' = State.aggregates s ∧ State.journal s' = State.journal s
  ∧ State.region_evidence s' = State.region_evidence s
  ∧ State.observation_epoch s' = next_id (State.observation_epoch s)
  ∧ State.coordinator_epoch s' = State.coordinator_epoch s.
Proof.
  cbn zeta. unfold reconcile_current_evidence. set (s0 := s <| State.observation_epoch ::= next_id |>).
  set (r0 := ReconcileReport.mk _ _ _ _ _ _).
  rewrite (surjective_pairing (reconcile_all clk 0 _ _)). cbn [fst].
  split_and!; try (by rewrite reconcile_all_frame by reflexivity);
    try (unfold same_registry; split_and!; by rewrite reconcile_all_frame by reflexivity).
  - intros H. apply reconcile_all_evidence. destruct H. by constructor.
  - apply map_eq. intros k. rewrite lookup_fmap.
    destruct (reconcile_all_publishers clk (entries (State.publishers s0)) 0 s0 r0 (NoDup_entries _))
      as [H1 H2].
    destruct (State.publishers s !! k) as [p|] eqn:E; cbn [fmap option_fmap option_map].
    + by apply H1, elem_of_entries.
    + rewrite H2; [exact E|]. intros ([k' p] & -> & Hin)%list_elem_of_fmap.
      apply elem_of_entries in Hin. cbn in *. congruence.
Qed.

Lemma reconcile_accounting clk s : accounting_step s (reconcile_current_evidence clk s).1.
Proof.
  destruct (reconcile_steps clk s) as (He & Hr & Hp & Hw & Hc & _). constructor; [done..| |by rewrite Hc].
  intros k. rewrite Hp, lookup_fmap. destruct (State.publishers s !! k) as [p|]; [|done]. by split_and!.
Qed.

(** Reconciliation retires every publisher's evidence generation and
    reports it truthfully: each publisher's generation moves to its successor and
    nothing else about a publisher changes, the report counts every publisher as
    retired and exactly the non-current ones as stale, the observation epoch advances
    once, and aggregates, journal, region evidence, counters, watermarks and
    registries are untouched. *)
Theorem reconcile_retires_every_generation (clk : nat → Z) (s : State.t) :
  publishers_ok s →
  let '(s', r) := reconcile_current_evidence clk s in
  State.publishers s' = retired <$> State.publishers s
  ∧ ReconcileReport.evidence_generations_retired r = zsize (State.publishers s)
  ∧ ReconcileReport.publishers_marked_stale r = stale_count (entries (State.publishers s))
  ∧ ReconcileReport.observation_epoch r = next_id (State.observation_epoch s)
  ∧ State.observation_epoch s' = next_id (State.observation_epoch s)
  ∧ ReconcileReport.findings_invalidated r = zlen (State.stale s')
  ∧ State.aggregates s' = State.aggregates s ∧ State.journal s' = State.journal s
  ∧ State.region_evidence s' = State.region_evidence s ∧ State.counters s' = State.counters s
  ∧ State.watermarks s' = State.watermarks s ∧ same_registry s s'.
Proof.
  intros [_ Hc _]. destruct (reconcile_steps clk s) as (_ & Hr & Hp & Hw & Hct & Ha & Hj & Hre & Ho & _).
  revert Hr Hp Hw Hct Ha Hj Hre Ho. unfold reconcile_current_evidence.
  set (s0 := s <| State.observation_epoch ::= next_id |>). set (r0 := ReconcileReport.mk _ _ _ _ _ _).
  assert (zlen (entries (State.publishers s0)) ≤ u64_max).
  { rewrite entries_length. change (State.publishers s0) with (State.publishers s).
    unfold Limits.kMaxPublisherCount, u64_max in *. lia. }
  destruct (reconcile_all_report clk (entries (State.publishers s0)) 0 s0 r0) as (E1 & E2 & _ & E4);
    [done|done|done|done|].
  destruct (reconcile_all clk 0 _ _) as [s' r']. cbn [fst snd] in *. intros.
  split_and!; try done. cbn. rewrite E2, entries_length. done.
Qed.

Lemma reconcile_retires_every_generation_witness :
  let s := register "pub.b" 7 (register "pub.a" 1 sample_state) in
  ReconcileReport.evidence_generations_retired (reconcile_current_evidence (λ _, 9) s).2 = 2.
Proof.
  cbn zeta. set (s := register "pub.b" 7 (register "pub.a" 1 sample_state)).
  pose proof (reconcile_retires_every_generation (λ _, 9) s) as H.
  destruct (reconcile_current_evidence (λ _, 9) s) as [s' r]. cbn [snd].
  destruct H as (_ & -> & _); [|by vm_compute].
  apply register_publisher_ok, register_publisher_ok, make_observatory_publishers_ok.
Defined.

(** Ingestion does not look at the evidence generation an observation
    declares: the generation a publisher registered under, once retired by
    reconciliation, is still accepted, and so is an observation that declares no
    generation at all. *)
Theorem evidence_generation_not_enforced :
  let s := register "pub.a" 1 sample_state in
  let s' := (reconcile_current_evidence (λ _, 5) s).1 in
  let generation_of s := PublisherView.evidence_generation ∘ PublisherState.view
    <$> State.publishers s !! "pub.a"%string in
  let answer g := IngestionOutcome.disposition
    (ingest 6 (sample_observation <| Observation.evidence_generation := g |>) s').2 in
  generation_of s = Some 1 ∧ generation_of s' = Some 2
  ∧ answer 1 = IngestionDisposition.Accepted ∧ answer 0 = IngestionDisposition.Accepted.
Proof. vm_compute. by split_and!. Qed.
