(* ===== verification/Snapshot.v ===== *)
(** * Fingerprints and snapshots

    [src/state.cpp]: [aggregate_fingerprint], [state_fingerprint],
    [SnapshotAssembler::build] and the queries of [Snapshot]
    ([include/coherence/snapshot.hpp]), with [Observatory::snapshot].

    The findings a snapshot carries are computed by the analyzers; the assembly
    takes them as an argument. *)

From S2P Require Import Prelude Errors Checked TextUtil Ids Taxonomy Cost Records Observation.
From S2P Require Import Aggregate Sequence State Attribution Registry Publishers Ingest.
From S2P Require Import Counters Reconcile.

(** ** Fingerprints *)

Definition hash_bucket (h : Z) (e : AggregateKey.t * AggregateValue.t) : Z :=
  let '(key, value) := e in
  let h := fnv1a_u64 h (AggregateDimension.code (AggregateKey.dimension key)) in
  let h := fnv1a_str h (AggregateKey.value key) in
  let h := fnv1a_u64 h (AggregateValue.observations value) in
  let h := fnv1a_u64 h (AggregateValue.bytes value) in
  let h := fnv1a_u64 h (AggregateValue.remote_accesses value) in
  let h := fnv1a_u64 h (AggregateValue.remote_reads value) in
  let h := fnv1a_u64 h (AggregateValue.remote_writes value) in
  let h := fnv1a_u64 h (AggregateValue.invalidations value) in
  let h := fnv1a_u64 h (AggregateValue.ownership_transfers value) in
  let h := fnv1a_u64 h (AggregateValue.counter_delta_total value) in
  let h := fnv1a_u64 h (bool_u64 (AggregateValue.saturated value)) in
  fnv1a_u64 h (Precision.code (AggregateValue.weakest_precision value)).

Definition aggregate_fingerprint (s : State.t) : Z :=
  let a := State.aggregates s in
  let h := foldl hash_bucket fnv1a_init (entries (AggregateStore.buckets a)) in
  let h := fnv1a_u64 h (zsize (AggregateStore.buckets a)) in
  let h := fnv1a_u64 h (AggregateStore.refused_updates a) in
  fnv1a_u64 h (AggregateStore.saturations a).

(** The loops of [state_fingerprint], one per table. *)
Definition hash_node (h : Z) (e : string * NodeRecord.t) : Z :=
  fnv1a_str (fnv1a_str h e.1) (NodeRecord.display_name e.2).
Definition hash_processor (h : Z) (e : string * ProcessorRecord.t) : Z :=
  let h := fnv1a_str h e.1 in
  let h := fnv1a_u64 h (ProcessorRecord.generation e.2) in
  let h := fnv1a_u64 h (ProcessorRecord.logical_processor_count e.2) in
  fnv1a_u64 h (bool_u64 (ProcessorRecord.retired e.2)).
Definition hash_accelerator (h : Z) (e : string * AcceleratorRecord.t) : Z :=
  let h := fnv1a_str h e.1 in
  let h := fnv1a_u64 h (AcceleratorRecord.generation e.2) in
  let h := fnv1a_str h (AcceleratorRecord.vendor_uuid e.2) in
  fnv1a_u64 h (bool_u64 (AcceleratorRecord.retired e.2)).
Definition hash_memory_domain (h : Z) (e : string * MemoryDomainRecord.t) : Z :=
  let h := fnv1a_str h e.1 in
  let h := fnv1a_u64 h (MemoryDomainRecord.generation e.2) in
  let h := fnv1a_u64 h (MemoryDomainKind.code (MemoryDomainRecord.kind e.2)) in
  fnv1a_u64 h (bool_u64 (MemoryDomainRecord.retired e.2)).
Definition hash_coherence_domain (h : Z) (e : string * CoherenceDomainRecord.t) : Z :=
  let h := fnv1a_str h e.1 in
  let h := fnv1a_u64 h (CoherenceDomainRecord.generation e.2) in
  let h := fnv1a_str h (CoherenceDomainRecord.protocol_family e.2) in
  fnv1a_u64 h (bool_u64 (CoherenceDomainRecord.retired e.2)).
(** The assignment replaces the hash instead of folding into it. *)
Definition hash_region (h : Z) (e : string * RegionRecord.t) : Z :=
  region_identity_fingerprint e.2.
Definition hash_link (h : Z) (l : TopologyLink.t) : Z :=
  let h := fnv1a_str h (resource_text (TopologyLink.from l)) in
  let h := fnv1a_str h (resource_text (TopologyLink.to l)) in
  fnv1a_u64 h (Locality.code (TopologyLink.locality l)).
Definition hash_publisher (h : Z) (e : string * PublisherState.t) : Z :=
  let v := PublisherState.view e.2 in
  let h := fnv1a_str h e.1 in
  let h := fnv1a_u64 h (PublisherView.boot v) in
  let h := fnv1a_u64 h (bool_u64 (PublisherView.current v)) in
  let h := fnv1a_u64 h (bool_u64 (PublisherView.fenced v)) in
  let h := fnv1a_u64 h (PublisherView.accepted_events v) in
  let h := fnv1a_u64 h (PublisherState.high_watermark e.2) in
  fnv1a_u64 h (zsize (Memory.table (PublisherState.window e.2))).
Definition hash_counter (h : Z) (e : CounterKey.t * CounterState.t) : Z :=
  let h := fnv1a_str h (CounterKey.publisher e.1) in
  let h := fnv1a_u64 h (CounterKey.boot e.1) in
  let h := fnv1a_str h (CounterKey.counter e.1) in
  let h := fnv1a_u64 h (CounterState.generation e.2) in
  let h := fnv1a_u64 h (CounterState.accumulated e.2) in
  let h := fnv1a_u64 h (CounterState.resets e.2) in
  fnv1a_u64 h (CounterState.wraps e.2).
Definition hash_watermark (h : Z) (e : string * PublisherWatermark.t) : Z :=
  let h := fnv1a_str h e.1 in
  let h := fnv1a_u64 h (PublisherWatermark.high_watermark e.2) in
  fnv1a_u64 h (bool_u64 (PublisherWatermark.fenced e.2)).
Definition hash_journal_entry (h : Z) (e : JournalEntry.t) : Z :=
  fnv1a_u64 (fnv1a_u64 h (content_hash (JournalEntry.observation e)))
    (AttributionOutcome.code (JournalEntry.outcome e)).
Definition hash_sample (h : Z) (x : OwnershipSample.t) : Z :=
  let h := fnv1a_u64 h (OwnershipSample.event_id x) in
  let h := fnv1a_u64 h (OwnershipSample.sequence x) in
  let h := fnv1a_u64 h (EventType.code (OwnershipSample.type x)) in
  let h := fnv1a_str h (ResourceRef.id (OwnershipSample.from x)) in
  fnv1a_str h (ResourceRef.id (OwnershipSample.to x)).
Definition hash_region_evidence (h : Z) (e : string * RegionEvidence.t) : Z :=
  let h := fnv1a_str h e.1 in
  let h := fnv1a_u64 h (RegionEvidence.relevant_total e.2) in
  let h := fnv1a_u64 h (RegionEvidence.evicted e.2) in
  foldl hash_sample h (RegionEvidence.samples e.2).
Definition hash_stale (h : Z) (r : StaleEvidenceRecord.t) : Z :=
  let h := fnv1a_u64 h (StaleEvidenceRecord.kind_code (StaleEvidenceRecord.kind r)) in
  let h := fnv1a_u64 h (StaleEvidenceRecord.event_id r) in
  let h := fnv1a_str h (StaleEvidenceRecord.publisher r) in
  let h := fnv1a_str h (StaleEvidenceRecord.region r) in
  fnv1a_str h (StaleEvidenceRecord.detail r).
Definition hash_capability (h : Z) (e : string * Capability.t) : Z :=
  let h := fnv1a_str h e.1 in
  let h := fnv1a_u64 h (CapabilityStatus.code (Capability.status e.2)) in
  fnv1a_str h (Capability.detail e.2).
Definition hash_history (h : Z) (r : HistoricalEvidence.t) : Z :=
  let h := fnv1a_str h (HistoricalEvidence.region r) in
  let h := fnv1a_u64 h (HistoricalEvidence.observations r) in
  fnv1a_u64 h (HistoricalEvidence.bytes r).

(** The epochs and the registries up to the regions. *)
Definition hash_registries (s : State.t) : Z :=
  let h := fnv1a_init in
  let h := fnv1a_u64 h (State.coordinator_epoch s) in
  let h := fnv1a_u64 h (State.observation_epoch s) in
  let h := fnv1a_u64 h (State.topology_generation s) in
  let h := fnv1a_u64 h (State.evidence_generation s) in
  let h := foldl hash_node h (entries (State.nodes s)) in
  let h := foldl hash_processor h (entries (State.processors s)) in
  let h := foldl hash_accelerator h (entries (State.accelerators s)) in
  let h := foldl hash_memory_domain h (entries (State.memory_domains s)) in
  let h := foldl hash_coherence_domain h (entries (State.coherence_domains s)) in
  foldl hash_region h (entries (State.regions s)).

(** Topology, publishers, counters and watermarks. *)
Definition hash_sources (s : State.t) (h : Z) : Z :=
  let h := fnv1a_u64 h (zlen (TopologyRecord.links (State.topology s))) in
  let h := foldl hash_link h (TopologyRecord.links (State.topology s)) in
  let h := foldl hash_publisher h (entries (State.publishers s)) in
  let h := foldl hash_counter h (entries (State.counters s)) in
  foldl hash_watermark h (entries (State.watermarks s)).

(** Aggregates, journal, region evidence, stale records, capabilities and
    history. *)
Definition hash_evidence (s : State.t) (h : Z) : Z :=
  let h := fnv1a_u64 h (aggregate_fingerprint s) in
  let h := fnv1a_u64 h (zlen (State.journal s)) in
  let h := foldl hash_journal_entry h (State.journal s) in
  let h := fnv1a_u64 h (zsize (State.region_evidence s)) in
  let h := foldl hash_region_evidence h (entries (State.region_evidence s)) in
  let h := fnv1a_u64 h (zlen (State.stale s)) in
  let h := foldl hash_stale h (State.stale s) in
  let h := foldl hash_capability h (entries (State.capabilities s)) in
  let h := fnv1a_u64 h (zlen (State.history s)) in
  let h := foldl hash_history h (State.history s) in
  let h := fnv1a_u64 h (State.historical_observation_count s) in
  fnv1a_u64 h (State.history_source_epoch s).

Definition state_fingerprint (s : State.t) : Z :=
  hash_evidence s (hash_sources s (hash_registries s)).

(** ** Snapshots *)

Module SnapshotLoss.
Record t := mk { loss : LossReport.t; aggregate_saturations : Z }.
End SnapshotLoss.

Module Snapshot.
Record t (Finding : Type) := mk {
  generation : Z; coordinator_epoch : Z; observation_epoch : Z; topology_generation : Z;
  captured_at_ns : Z; reality : Reality.t;
  publishers : list PublisherView.t; nodes : list NodeRecord.t;
  processors : list ProcessorRecord.t; accelerators : list AcceleratorRecord.t;
  memory_domains : list MemoryDomainRecord.t; coherence_domains : list CoherenceDomainRecord.t;
  regions : list RegionRecord.t; topology : TopologyRecord.t;
  aggregates : AggregateStore.t; aggregate_buckets_total : Z; aggregate_buckets_omitted : Z;
  findings : list Finding; stale : list StaleEvidenceRecord.t;
  capabilities : list Capability.t; loss : SnapshotLoss.t; cost_model : CostModel.t;
  historical_aggregates : gmap AggregateKey.t AggregateValue.t;
  history : list HistoricalEvidence.t; historical_aggregate_count : Z;
  historical_observation_count : Z; history_source_epoch : Z;
}.
#[global] Arguments mk {Finding}.
#[global] Arguments generation {Finding}.
#[global] Arguments coordinator_epoch {Finding}.
#[global] Arguments observation_epoch {Finding}.
#[global] Arguments topology_generation {Finding}.
#[global] Arguments reality {Finding}.
#[global] Arguments publishers {Finding}.
#[global] Arguments regions {Finding}.
#[global] Arguments capabilities {Finding}.
#[global] Arguments aggregates {Finding}.
#[global] Arguments stale {Finding}.
#[global] Arguments loss {Finding}.
#[global] Arguments captured_at_ns {Finding}.
#[global] Arguments nodes {Finding}.
#[global] Arguments processors {Finding}.
#[global] Arguments accelerators {Finding}.
#[global] Arguments memory_domains {Finding}.
#[global] Arguments coherence_domains {Finding}.
#[global] Arguments topology {Finding}.
#[global] Arguments aggregate_buckets_total {Finding}.
#[global] Arguments aggregate_buckets_omitted {Finding}.
#[global] Arguments findings {Finding}.
#[global] Arguments cost_model {Finding}.
#[global] Arguments historical_aggregates {Finding}.
#[global] Arguments history {Finding}.
#[global] Arguments historical_aggregate_count {Finding}.
#[global] Arguments historical_observation_count {Finding}.
#[global] Arguments history_source_epoch {Finding}.

Definition is_live (v : PublisherView.t) : bool :=
  PublisherView.current v && negb (PublisherView.fenced v).

Definition current_publisher_count {F} (x : t F) : Z :=
  zlen (List.filter is_live (publishers x)).
Definition current_region_count {F} (x : t F) : Z :=
  zlen (List.filter (λ r, negb (RegionRecord.retired r)) (regions x)).

Fixpoint find_view (id : string) (l : list PublisherView.t) : option PublisherView.t :=
  match l with
  | [] => None
  | v :: rest => if decide (PublisherView.id v = id) then Some v else find_view id rest
  end.
Definition find_publisher {F} (id : string) (x : t F) : option PublisherView.t :=
  find_view id (publishers x).

Fixpoint find_record (id : string) (l : list RegionRecord.t) : option RegionRecord.t :=
  match l with
  | [] => None
  | r :: rest => if decide (RegionRecord.id r = id) then Some r else find_record id rest
  end.
Definition find_region {F} (id : string) (x : t F) : option RegionRecord.t :=
  find_record id (regions x).

Definition is_current {F} (coordinator observation : Z) (x : t F) : bool :=
  (coordinator_epoch x =? coordinator) && (observation_epoch x =? observation).
End Snapshot.

(** The loop over the publishers that combines their realities. *)
Fixpoint fold_reality (l : list PublisherView.t) (any : bool) (r : Reality.t) : Reality.t * bool :=
  match l with
  | [] => (r, any)
  | v :: rest =>
      fold_reality rest true
        (if any then combine_reality r (PublisherView.reality v) else PublisherView.reality v)
  end.

(** [SnapshotAssembler::build]; [now] is the clock reading and [findings] what
    the analyzers report. *)
Definition build {F} (now : Z) (findings : list F) (s : State.t) : Snapshot.t F :=
  let publishers := (λ e, PublisherState.view e.2) <$> entries (State.publishers s) in
  let '(reality, any) := fold_reality publishers false Reality.Real in
  {| Snapshot.generation := State.snapshot_generation s;
     Snapshot.coordinator_epoch := State.coordinator_epoch s;
     Snapshot.observation_epoch := State.observation_epoch s;
     Snapshot.topology_generation := State.topology_generation s;
     Snapshot.captured_at_ns := now;
     Snapshot.reality := if any then reality else Reality.Real;
     Snapshot.publishers := publishers;
     Snapshot.nodes := (entries (State.nodes s)).*2;
     Snapshot.processors := (entries (State.processors s)).*2;
     Snapshot.accelerators := (entries (State.accelerators s)).*2;
     Snapshot.memory_domains := (entries (State.memory_domains s)).*2;
     Snapshot.coherence_domains := (entries (State.coherence_domains s)).*2;
     Snapshot.regions := (entries (State.regions s)).*2;
     Snapshot.topology := State.topology s;
     Snapshot.aggregates := State.aggregates s;
     Snapshot.aggregate_buckets_total := zsize (AggregateStore.buckets (State.aggregates s));
     Snapshot.aggregate_buckets_omitted := 0;
     Snapshot.findings := findings;
     Snapshot.stale := State.stale s;
     Snapshot.capabilities := sort_capabilities (entries (State.capabilities s)).*2;
     Snapshot.loss := SnapshotLoss.mk (State.loss s) (AggregateStore.saturations (State.aggregates s));
     Snapshot.cost_model := ObservatoryOptions.cost_model (State.options s);
     Snapshot.historical_aggregates := AggregateStore.buckets (State.historical_aggregates s);
     Snapshot.history := State.history s;
     Snapshot.historical_aggregate_count := zsize (AggregateStore.buckets (State.historical_aggregates s));
     Snapshot.historical_observation_count := State.historical_observation_count s;
     Snapshot.history_source_epoch := State.history_source_epoch s |}.

(** [Observatory::snapshot]: advances the snapshot generation, then assembles;
    [analyze] stands for [analyze_all] on the state it is given. *)
Definition snapshot {F} (now : Z) (analyze : State.t → list F) (s : State.t)
    : State.t * Snapshot.t F :=
  let s := s <| State.snapshot_generation ::= next_id |> in
  (s, build now (analyze s) s).

Definition capabilities (s : State.t) : list Capability.t :=
  sort_capabilities (entries (State.capabilities s)).*2.

(** ** What a snapshot shows *)

Lemma combine_reality_real a b :
  combine_reality a b = Reality.Real ↔ a = Reality.Real ∧ b = Reality.Real.
Proof. unfold combine_reality. case_decide; naive_solver. Qed.

Lemma fold_reality_real l : ∀ any r,
  let '(r', any') := fold_reality l any r in
  ((if any' then r' else Reality.Real) = Reality.Real
   ↔ (any = true → r = Reality.Real) ∧ Forall (λ v, PublisherView.reality v = Reality.Real) l).
Proof.
  induction l as [|v l IH]; intros any r; cbn [fold_reality].
  - rewrite Forall_nil. destruct any; naive_solver.
  - specialize (IH true (if any then combine_reality r (PublisherView.reality v)
                         else PublisherView.reality v)).
    destruct (fold_reality l true _) as [r' any']. rewrite IH, Forall_cons.
    destruct any; [rewrite combine_reality_real|]; naive_solver.
Qed.

(** A snapshot never passes synthetic evidence off as real: it is labelled
    Real exactly when every registered publisher is real, and Mixed or Synthetic
    otherwise. *)
Theorem snapshot_reality_honest {F} (now : Z) (findings : list F) (s : State.t) :
  Snapshot.reality (build now findings s) = Reality.Real
  ↔ map_Forall (λ _ p, PublisherView.reality (PublisherState.view p) = Reality.Real)
      (State.publishers s).
Proof.
  unfold build. set (views := _ <$> entries (State.publishers s)).
  pose proof (fold_reality_real views false Reality.Real) as H.
  destruct (fold_reality views false Reality.Real) as [r any]. cbn [Snapshot.reality]. rewrite H.
  unfold views. rewrite Forall_fmap, Forall_forall. split.
  - intros [_ Hall] k p Hp. apply (Hall (k, p)). by apply elem_of_entries.
  - intros Hall. split; [done|]. intros [k p] Hin%elem_of_entries. by apply (Hall k p).
Qed.

(** A snapshot is a faithful, immutable view of the state it was taken
    from: looking up a publisher or a region in it gives exactly what the state
    holds under that name, it carries the state's epochs, aggregates, stale records
    and loss counters, it is current for those epochs, its generation is the
    successor of the previous one, and taking it changes nothing else. *)
Theorem snapshot_faithful {F} (now : Z) (analyze : State.t → list F) (s : State.t) (name : string) :
  publishers_ok s → registry_ok s →
  let '(s', x) := snapshot now analyze s in
  Snapshot.find_publisher name x = PublisherState.view <$> State.publishers s !! name
  ∧ Snapshot.find_region name x = State.regions s !! name
  ∧ Snapshot.is_current (State.coordinator_epoch s') (State.observation_epoch s') x = true
  ∧ Snapshot.generation x = next_id (State.snapshot_generation s)
  ∧ Snapshot.aggregates x = State.aggregates s ∧ Snapshot.stale x = State.stale s
  ∧ SnapshotLoss.loss (Snapshot.loss x) = State.loss s
  ∧ s' = s <| State.snapshot_generation := next_id (State.snapshot_generation s) |>.
Proof.
  intros Hp Hr. unfold snapshot, build.
  set (views := _ <$> entries (State.publishers _)).
  destruct (fold_reality views false Reality.Real) as [r any].
  split_and!; try done.
  - unfold Snapshot.find_publisher. cbn [Snapshot.publishers]. unfold views.
    apply (find_entries PublisherState.view PublisherView.id Snapshot.find_view); [done..|].
    intros k p Hk. by apply (pub_entries s Hp).
  - unfold Snapshot.find_region. cbn [Snapshot.regions].
    etransitivity; [|apply option_fmap_id].
    apply (find_entries id RegionRecord.id Snapshot.find_record); [done..|].
    intros k p Hk. by apply (reg_regions s Hr).
  - unfold Snapshot.is_current. cbn. by rewrite !Z.eqb_refl.
Qed.

Lemma snapshot_faithful_witness :
  let s := register "pub.a" 1 sample_state in
  Snapshot.find_publisher "pub.a" (snapshot 9 (λ _, @nil unit) s).2
  = PublisherState.view <$> State.publishers s !! "pub.a"%string.
Proof.
  cbn zeta. set (s := register "pub.a" 1 sample_state).
  pose proof (snapshot_faithful 9 (λ _, @nil unit) s "pub.a") as H.
  destruct (snapshot 9 (λ _, @nil unit) s) as [s' x]. cbn [snd]. apply H.
  - apply register_publisher_ok, make_observatory_publishers_ok.
  - eapply registry_ok_same; [|apply make_observatory_registry_ok].
    apply register_publisher_ok, make_observatory_publishers_ok.
Defined.

(** ** What the fingerprint covers *)

(** The hash of the publishers only depends on their replay state. *)
Definition hash_replay (h : Z)
    (e : string * (bool * Z * bool * Memory.t * Memory.t * Z * (string * Z * bool * bool * Z * Z)))
    : Z :=
  let '(_, high, _, window, _, _, (_, boot, current, fenced, accepted, _)) := e.2 in
  let h := fnv1a_str h e.1 in
  let h := fnv1a_u64 h boot in
  let h := fnv1a_u64 h (bool_u64 current) in
  let h := fnv1a_u64 h (bool_u64 fenced) in
  let h := fnv1a_u64 h accepted in
  let h := fnv1a_u64 h high in
  fnv1a_u64 h (zsize (Memory.table window)).

Lemma hash_publisher_replay h e : hash_publisher h e = hash_replay h (e.1, replay_state e.2).
Proof. unfold hash_publisher, hash_replay, replay_state. cbn [fst snd]. reflexivity. Qed.

Lemma hash_publishers_replay h (m : gmap string PublisherState.t) :
  foldl hash_publisher h (entries m) = foldl hash_replay h (entries (replay_state <$> m)).
Proof.
  rewrite entries_fmap. revert h. induction (entries m) as [|e l IH]; intros h; cbn [foldl fmap list_fmap];
    [reflexivity|]. rewrite hash_publisher_replay. apply IH.
Qed.

(** Publishers and loss counters are all that a refusal may touch. *)
Section fingerprint_frame.
Context (s : State.t) (ps : gmap string PublisherState.t) (l : LossReport.t).
Let s' : State.t := s <| State.publishers := ps |> <| State.loss := l |>.

Lemma hash_registries_frame : hash_registries s' = hash_registries s.
Proof. unfold hash_registries, s'. destruct s. reflexivity. Qed.

Lemma hash_evidence_frame h : hash_evidence s' h = hash_evidence s h.
Proof. unfold hash_evidence, aggregate_fingerprint, s'. destruct s. reflexivity. Qed.

Lemma hash_sources_frame h :
  replay_state <$> ps = replay_state <$> State.publishers s → hash_sources s' h = hash_sources s h.
Proof.
  intros E. unfold hash_sources. rewrite !hash_publishers_replay.
  change (State.publishers s') with ps. rewrite E. unfold s'. destruct s. reflexivity.
Qed.
End fingerprint_frame.

Lemma state_fingerprint_replay s s' :
  same_evidence s s' → same_replay s s' → state_fingerprint s' = state_fingerprint s.
Proof.
  unfold same_evidence, same_replay. generalize (State.publishers s') as ps, (State.loss s') as l.
  intros ps l -> Hr. unfold state_fingerprint.
  by rewrite hash_evidence_frame, hash_sources_frame, hash_registries_frame.
Qed.

(** The fingerprint does what it is for: whenever an observation is
    refused, as malformed, unauthorized, stale, conflicting or duplicate, the
    fingerprint of the state is exactly what it was. *)
Theorem refused_observation_keeps_fingerprint (now : Z) (o : Observation.t) (s s' : State.t)
    (r : IngestionOutcome.t) :
  ingest now o s = (s', r) →
  IngestionOutcome.disposition r = IngestionDisposition.Rejected
  ∨ IngestionOutcome.disposition r = IngestionDisposition.Duplicate →
  state_fingerprint s' = state_fingerprint s.
Proof.
  intros E Hr. destruct (ingest_refused now o s s' r E Hr) as (He & Hs & _).
  by apply state_fingerprint_replay.
Qed.

Lemma refused_observation_keeps_fingerprint_witness :
  let s := register "pub.a" 1 sample_state in
  let o := sample_observation <| Observation.publisher_boot := 9 |> in
  state_fingerprint (ingest 5 o s).1 = state_fingerprint s.
Proof.
  cbn zeta. set (o := sample_observation <| Observation.publisher_boot := 9 |>).
  set (s := register "pub.a" 1 sample_state).
  apply (refused_observation_keeps_fingerprint 5 o s (ingest 5 o s).1 (ingest 5 o s).2).
  - apply surjective_pairing.
  - left. by vm_compute.
Defined.

Lemma hash_regions_forget l : l ≠ [] → ∀ h h', foldl hash_region h l = foldl hash_region h' l.
Proof. destruct l as [|e l]; [done|]. intros _ h h'. cbn [foldl]. unfold hash_region at 2 4. reflexivity. Qed.

Lemma entries_nonempty {V} (m : gmap string V) : m ≠ ∅ → entries m ≠ [].
Proof.
  intros Hm E. apply Hm. apply map_size_empty_inv. pose proof (entries_length m) as Hl.
  rewrite E in Hl. unfold zsize, zlen in Hl. cbn in Hl. lia.
Qed.

(** With at least one region registered the fingerprint covers neither the
    epochs nor the nodes, processors, accelerators, memory domains and coherence
    domains: replacing all of them leaves it unchanged, because each region's
    fingerprint overwrites the running hash. *)
Theorem fingerprint_forgets_registries (s : State.t) (coordinator observation topology evidence : Z)
    (ns : gmap string NodeRecord.t) (ps : gmap string ProcessorRecord.t)
    (acs : gmap string AcceleratorRecord.t) (ms : gmap string MemoryDomainRecord.t)
    (cs : gmap string CoherenceDomainRecord.t) :
  State.regions s ≠ ∅ →
  state_fingerprint
    (s <| State.coordinator_epoch := coordinator |> <| State.observation_epoch := observation |>
       <| State.topology_generation := topology |> <| State.evidence_generation := evidence |>
       <| State.nodes := ns |> <| State.processors := ps |> <| State.accelerators := acs |>
       <| State.memory_domains := ms |> <| State.coherence_domains := cs |>)
  = state_fingerprint s.
Proof.
  intros Hr. unfold state_fingerprint.
  set (s' := s <| State.coordinator_epoch := _ |> <| _ := _ |> <| _ := _ |> <| _ := _ |> <| _ := _ |>
    <| _ := _ |> <| _ := _ |> <| _ := _ |> <| _ := _ |>).
  assert (Er : hash_registries s' = hash_registries s).
  { apply (hash_regions_forget (entries (State.regions s))). by apply entries_nonempty. }
  assert (Es : ∀ h, hash_sources s' h = hash_sources s h)
    by (intros h; unfold hash_sources, s'; destruct s; reflexivity).
  assert (Ee : ∀ h, hash_evidence s' h = hash_evidence s h)
    by (intros h; unfold hash_evidence, aggregate_fingerprint, s'; destruct s; reflexivity).
  by rewrite Ee, Es, Er.
Qed.

Definition one_region : State.t :=
  sample_state <| State.regions := {["buf"%string := RegionRecord.mk "buf" 1 1 "" "" 0 ""
    SharingScope.Unknown 0 false 0 false 0 0 "" "" false 0 0 false]} |>.

Lemma fingerprint_forgets_registries_witness :
  state_fingerprint
    (one_region <| State.coordinator_epoch := 99 |> <| State.observation_epoch := 1 |>
       <| State.topology_generation := 1 |> <| State.evidence_generation := 1 |>
       <| State.nodes := ∅ |> <| State.processors := ∅ |> <| State.accelerators := ∅ |>
       <| State.memory_domains := ∅ |> <| State.coherence_domains := ∅ |>)
  = state_fingerprint one_region.
Proof. apply (fingerprint_forgets_registries one_region 99 1 1 1 ∅ ∅ ∅ ∅ ∅). by vm_compute. Defined.
