(* ===== verification/System.v ===== *)
(** * The observatory as a state machine

    The operations of the [Observatory] facade that change its state as one alphabet,
    [load_state] excepted, runs of them from construction, and what holds along every
    run.  (Loading replaces registries, watermarks and publishers by those of a file and
    is modelled in [Persistence]; nothing here speaks of runs in which a state is loaded.)
    Each operation takes the state mutex for its whole body, so an interleaving of
    concurrent callers is a sequence of these operations.  [fence_publisher], [fence_all_publishers] and
    [ingest_batch] release the mutex between their parts: the first two are
    sequences of [FencePublisherBoot], and [IngestBatch] is a batch that is not
    interleaved with other callers, whose events are otherwise [Ingest] operations.
    The state after a snapshot does not depend on the findings, so [TakeSnapshot]
    reports none. *)

From S2P Require Import Prelude Errors Checked TextUtil Ids Taxonomy Cost Records Observation.
From S2P Require Import Aggregate Sequence State Attribution Registry Publishers Ingest.
From S2P Require Import Counters Reconcile Snapshot.

(** The facade's operations other than [load_state]; queries and [save_state] change
    nothing. *)
Inductive Operation :=
| RegisterNode (now : Z) (r : NodeRecord.t)
| RegisterProcessor (now : Z) (r : ProcessorRecord.t)
| RegisterAccelerator (now : Z) (r : AcceleratorRecord.t)
| RegisterMemoryDomain (now : Z) (r : MemoryDomainRecord.t)
| RegisterCoherenceDomain (now : Z) (r : CoherenceDomainRecord.t)
| RegisterRegion (now : Z) (r : RegionRecord.t)
| RetireRegion (now : Z) (region : string) (generation : Z) (reason : string)
| SetTopologyLink (link : TopologyLink.t)
| BumpTopology (now : Z) (reason : string)
| SetCapability (c : Capability.t)
| SetCostModel (m : CostModel.t)
| RegisterPublisher (now1 now : Z) (g : PublisherRegistration.t)
| FencePublisherBoot (now : Z) (id : string) (boot : Z) (reason : FenceReason.t) (detail : string)
| Ingest (now : Z) (o : Observation.t)
| IngestBatch (now : Z) (os : list Observation.t)
| IngestCounter (now : Z) (p : CounterPublication.t)
| Reconcile (clk : nat → Z)
| TakeSnapshot (now : Z).

(** The state after an operation that leaves it alone when it fails. *)
Definition commit (s : State.t) (r : result State.t) : State.t :=
  match r with Ok s' => s' | Err _ => s end.

Definition exec (op : Operation) (s : State.t) : State.t :=
  match op with
  | RegisterNode now r => commit s (register_node now r s)
  | RegisterProcessor now r => commit s (register_processor now r s)
  | RegisterAccelerator now r => commit s (register_accelerator now r s)
  | RegisterMemoryDomain now r => commit s (register_memory_domain now r s)
  | RegisterCoherenceDomain now r => commit s (register_coherence_domain now r s)
  | RegisterRegion now r => commit s (register_region now r s)
  | RetireRegion now region g reason => commit s (retire_region now region g reason s)
  | SetTopologyLink link => commit s (set_topology_link link s)
  | BumpTopology now reason =>
      match bump_topology_generation now reason s with Ok (s', _) => s' | Err _ => s end
  | SetCapability c => commit s (set_capability c s)
  | SetCostModel m => commit s (set_cost_model m s)
  | RegisterPublisher now1 now g => (register_publisher now1 now g s).1
  | FencePublisherBoot now id boot reason detail =>
      match fence_publisher_boot now id boot reason detail s with Ok (s', _) => s' | Err _ => s end
  | Ingest now o => (ingest now o s).1
  | IngestBatch now os => (ingest_batch now os s).1
  | IngestCounter now p => (ingest_counter now p s).1
  | Reconcile clk => (reconcile_current_evidence clk s).1
  | TakeSnapshot now => (snapshot now (λ _, @nil unit) s).1
  end.

Definition run (ops : list Operation) (s : State.t) : State.t := foldl (λ s op, exec op s) s ops.

(** ** The global invariant *)

Record invariant (s : State.t) : Prop := {
  inv_registry : registry_ok s;
  inv_evidence : evidence_ok s;
  inv_publishers : publishers_ok s;
  inv_counters : zsize (State.counters s) ≤ Limits.kMaxCounterRecords;
}.

(** What registry operations leave alone. *)
Record registry_only (s s' : State.t) : Prop := {
  ro_evidence : evidence_ok s → evidence_ok s';
  ro_publishers : same_publishers s s';
  ro_counters : State.counters s' = State.counters s;
  ro_policy : invalidation_policy_of s' = invalidation_policy_of s;
}.

Ltac unwind H :=
  repeat match type of H with
         | (_ ;; _) = Ok _ => apply seq_Ok in H as [_ H]
         | mbind _ _ = Ok _ => apply bind_Ok in H as (? & _ & H)
         end.

Ltac registry_frame :=
  let H := fresh in
  intros H; unwind H; injection H as <-; constructor; [intros []; by constructor|done..].

Lemma register_node_frame now r s s' : register_node now r s = Ok s' → registry_only s s'.
Proof. unfold register_node. registry_frame. Qed.
Lemma register_processor_frame now r s s' : register_processor now r s = Ok s' → registry_only s s'.
Proof. unfold register_processor. registry_frame. Qed.
Lemma register_accelerator_frame now r s s' : register_accelerator now r s = Ok s' → registry_only s s'.
Proof. unfold register_accelerator. registry_frame. Qed.
Lemma register_memory_domain_frame now r s s' :
  register_memory_domain now r s = Ok s' → registry_only s s'.
Proof. unfold register_memory_domain. registry_frame. Qed.
Lemma register_coherence_domain_frame now r s s' :
  register_coherence_domain now r s = Ok s' → registry_only s s'.
Proof. unfold register_coherence_domain. registry_frame. Qed.
Lemma register_region_frame now r s s' : register_region now r s = Ok s' → registry_only s s'.
Proof. unfold register_region. registry_frame. Qed.
Lemma set_capability_frame c s s' : set_capability c s = Ok s' → registry_only s s'.
Proof. unfold set_capability. registry_frame. Qed.
Lemma set_cost_model_frame m s s' : set_cost_model m s = Ok s' → registry_only s s'.
Proof. unfold set_cost_model. registry_frame. Qed.

Lemma record_stale_frame r s s' : registry_only s s' → registry_only s (record_stale r s').
Proof. intros []. constructor; [intros H; by apply record_stale_ok; auto|done..]. Qed.

Lemma retire_region_frame now name g reason s s' :
  retire_region now name g reason s = Ok s' → registry_only s s'.
Proof.
  unfold retire_region. destruct (State.regions s !! name) as [r|]; [|done].
  intros H. unwind H. injection H as <-. apply record_stale_frame.
  constructor; [intros []; by constructor|done..].
Qed.

Lemma set_topology_link_frame link s s' : set_topology_link link s = Ok s' → registry_only s s'.
Proof.
  unfold set_topology_link. intros H. unwind H.
  destruct (replace_link link _) as [l|]; unwind H; injection H as <-;
    (constructor; [intros []; by constructor|done..]).
Qed.

Lemma bump_topology_frame now reason s : registry_only s (bump_topology now reason s).
Proof. apply record_stale_frame. constructor; [intros []; by constructor|done..]. Qed.

(** An operation on the registries preserves the invariant. *)
Lemma registry_step_ok s s' :
  invariant s → registry_only s s' → registry_ok s' ∧ registry_grows s s' →
  invariant s' ∧ registry_grows s s'.
Proof.
  intros [Hr He Hp Hc] [Fe Fp Fc _] [Hr' Hg]. split; [|done].
  constructor; [done|auto|by eapply publishers_ok_same|by rewrite Fc].
Qed.

(** An operation on publisher accounting and evidence preserves it. *)
Lemma accounting_step_ok s s' :
  invariant s → accounting_step s s' → invariant s' ∧ registry_grows s s'.
Proof.
  intros [Hr He Hp Hc] Ha. pose proof (accounting_step_publishers s s' Ha Hp). destruct Ha.
  split; [|by apply same_registry_grows]. constructor; [by eapply registry_ok_same|auto|done|auto].
Qed.

Lemma same_registry_ok s s' :
  registry_ok s → same_registry s s' → registry_ok s' ∧ registry_grows s s'.
Proof. intros H Hs. split; [by eapply registry_ok_same|by apply same_registry_grows]. Qed.

(** ** Ingestion as an accounting step *)

Lemma same_replay_authority s s' :
  same_replay s s' → ∀ k, match State.publishers s !! k, State.publishers s' !! k with
                          | Some p, Some p' => same_authority p p'
                          | None, None => True
                          | _, _ => False
                          end.
Proof.
  intros Hr k. pose proof (f_equal (.!! k) Hr) as E. cbn in E. rewrite !lookup_fmap in E.
  destruct (State.publishers s !! k) as [p|], (State.publishers s' !! k) as [p'|]; try done.
  cbn in E. injection E as E1 E2 E3 E4 E5 E6 E7 E8 E9 E10 _ _.
  split_and!; try done. intros (H1 & H2 & H3). unfold sequence_inv.
  rewrite E1, E2, E4, E5. by split_and!.
Qed.

Lemma ingest_accounting now o s : accounting_step s (ingest now o s).1.
Proof.
  destruct (ingest_ok now o s) as (He & _ & Hr & Hw & Hc). unfold ingest.
  constructor; [done..| |by rewrite Hc]. pose proof (ingest_cases now o s) as H.
  destruct (ingest_locked now o s) as [s' r]. cbn [fst] in *.
  destruct H as [(_ & _ & Hs & _)|(_ & p & Ep & _ & _ & _ & E)]; [by apply same_replay_authority|].
  apply (f_equal fst) in E. cbn [fst] in E. intros k. rewrite E, accept_publishers.
  set (d := account_sequence _ _ _). destruct (decide (k = Observation.source_publisher o)) as [->|Hne].
  - rewrite Ep, lookup_insert_eq.
    destruct (accepted_publisher_view now o (content_hash o) d p) as (V1 & V2 & V3 & V4 & _).
    split_and!; [done..|apply accepted_publisher_inv].
  - rewrite lookup_insert_ne by done. by destruct (State.publishers s !! k).
Qed.

Lemma ingest_events_accounting now os : ∀ s b, accounting_step s (ingest_events now os s b).1.
Proof.
  induction os as [|o os IH]; intros s b; cbn [ingest_events]; [done|].
  pose proof (ingest_accounting now o s). destruct (ingest now o s) as [s1 r].
  etransitivity; [done|apply IH].
Qed.

Lemma accounting_pending f s : accounting_step s (s <| State.pending_ingestion ::= f |>).
Proof.
  constructor; try done; [intros []; by constructor|]. intros k. cbn. by destruct (State.publishers s !! k).
Qed.

Lemma ingest_batch_accounting now os s : accounting_step s (ingest_batch now os s).1.
Proof.
  unfold ingest_batch. destruct (zlen os =? 0); [done|]. destruct (_ <? zlen os); [done|].
  destruct (_ <? u64_add _ _); [apply accounting_lose|].
  set (s0 := s <| State.pending_ingestion ::= _ |>).
  assert (H0 : accounting_step s s0) by apply accounting_pending. clearbody s0.
  pose proof (ingest_events_accounting now os s0 BatchOutcome.empty) as H.
  destruct (ingest_events now os s0 _) as [s1 b]. cbn [fst] in *.
  etransitivity; [done|]. etransitivity; [done|]. apply accounting_pending.
Qed.

Lemma snapshot_accounting now s : accounting_step s (snapshot now (λ _, @nil unit) s).1.
Proof.
  constructor; try done; [intros []; by constructor|]. intros k. cbn. by destruct (State.publishers s !! k).
Qed.

Lemma ingest_counter_accounting now p s : accounting_step s (ingest_counter now p s).1.
Proof.
  pose proof (ingest_counter_cases now p s) as H. destruct (ingest_counter now p s) as [s' r]. apply H.
Qed.

(** ** Steps and runs *)

(** Publisher operations leave evidence and counters alone. *)
Definition keeps_evidence (s s' : State.t) : Prop :=
  (evidence_ok s → evidence_ok s') ∧ State.counters s' = State.counters s.

Lemma admit_boot_evidence now g s s' : admit_boot now g s = Ok s' → keeps_evidence s s'.
Proof.
  unfold admit_boot, supersede. intros H.
  destruct (State.publishers s !! _) as [p|]; [destruct (_ =? _)|]; unwind H; injection H as <-;
    (split; [|done]; intros He; try apply record_stale_ok; destruct He; by constructor).
Qed.

Lemma install_publisher_evidence now g s : keeps_evidence s (install_publisher now g s).1.
Proof.
  unfold install_publisher. destruct (State.watermarks s !! _) as [w|]; [destruct (_ =? _)|];
    (split; [|done]; intros []; by constructor).
Qed.

Lemma register_publisher_evidence now1 now g s : keeps_evidence s (register_publisher now1 now g s).1.
Proof.
  pose proof (register_publisher_cases now1 now g s) as H.
  destruct (register_publisher now1 now g s) as [s' r]. cbn [fst].
  destruct H as [[-> _]|(s1 & Ha & H)]; [done|]. apply admit_boot_evidence in Ha as [Ha1 Ha2].
  destruct H as [(_ & -> & _)|(_ & -> & _)]; [done|].
  destruct (install_publisher_evidence now g s1) as [Hi1 Hi2]. split; [auto|congruence].
Qed.

Lemma fence_publisher_boot_evidence now id boot reason detail s s' v :
  fence_publisher_boot now id boot reason detail s = Ok (s', v) → keeps_evidence s s'.
Proof.
  unfold fence_publisher_boot. intros H. unwind H. destruct (State.publishers s !! id) as [p|]; [|done].
  unwind H. injection H as <- <-. split; [|done]. intros []. apply record_stale_ok. by constructor.
Qed.

Lemma publisher_step_ok s s' :
  invariant s → keeps_evidence s s' → publishers_ok s' ∧ same_registry s s' →
  invariant s' ∧ registry_grows s s'.
Proof.
  intros [Hr He Hp Hc] [Ke Kc] [Hp' Hs]. split; [|by apply same_registry_grows].
  constructor; [by eapply registry_ok_same|auto|done|by rewrite Kc].
Qed.

Lemma commit_cases s r : commit s r = s ∨ r = Ok (commit s r).
Proof. destruct r; [by right|by left]. Qed.

(** Every operation preserves the invariant and lets the registries only grow. *)
Lemma exec_ok op s : invariant s → invariant (exec op s) ∧ registry_grows s (exec op s).
Proof.
  intros Hi. pose proof (inv_registry s Hi) as Hr.
  assert (Hcommit : ∀ r, (∀ s', r = Ok s' → registry_only s s' ∧ registry_ok s' ∧ registry_grows s s') →
    invariant (commit s r) ∧ registry_grows s (commit s r)).
  { intros r Hr'. destruct (commit_cases s r) as [->|E]; [done|].
    apply Hr' in E as [? ?]. by apply registry_step_ok. }
  destruct op; cbn [exec].
  1-8, 10-11: apply Hcommit; intros s' E; split.
  - by eapply register_node_frame.
  - by eapply register_node_step.
  - by eapply register_processor_frame.
  - by eapply register_processor_step.
  - by eapply register_accelerator_frame.
  - by eapply register_accelerator_step.
  - by eapply register_memory_domain_frame.
  - by eapply register_memory_domain_step.
  - by eapply register_coherence_domain_frame.
  - by eapply register_coherence_domain_step.
  - by eapply register_region_frame.
  - by eapply register_region_step.
  - by eapply retire_region_frame.
  - by eapply retire_region_step.
  - by eapply set_topology_link_frame.
  - by eapply set_topology_link_step.
  - by eapply set_capability_frame.
  - by eapply same_registry_ok, set_capability_same.
  - by eapply set_cost_model_frame.
  - by eapply same_registry_ok, set_cost_model_same.
  - unfold bump_topology_generation. destruct (reject_if _ _ _); cbn; [|done].
    apply registry_step_ok; [done|apply bump_topology_frame|].
    apply same_registry_ok; [done|apply bump_topology_same].
  - apply publisher_step_ok; [done|apply register_publisher_evidence|].
    by apply register_publisher_ok, inv_publishers.
  - destruct (fence_publisher_boot now id boot reason detail s) as [[s' v]|] eqn:E; [|done].
    apply publisher_step_ok; [done|by eapply fence_publisher_boot_evidence|].
    eapply fence_publisher_boot_ok; [|done]. by apply inv_publishers.
  - apply accounting_step_ok; [done|apply ingest_accounting].
  - apply accounting_step_ok; [done|apply ingest_batch_accounting].
  - apply accounting_step_ok; [done|apply ingest_counter_accounting].
  - apply accounting_step_ok; [done|apply reconcile_accounting].
  - apply accounting_step_ok; [done|apply snapshot_accounting].
Qed.

Lemma run_ok ops : ∀ s, invariant s → invariant (run ops s) ∧ registry_grows s (run ops s).
Proof.
  induction ops as [|op ops IH]; intros s Hi; cbn [run foldl]; [done|].
  destruct (exec_ok op s Hi) as [Hi1 Hg1]. destruct (IH (exec op s) Hi1) as [Hi2 Hg2].
  split; [done|by etransitivity].
Qed.

Lemma make_observatory_invariant now options : invariant (make_observatory now options).
Proof.
  constructor; [apply make_observatory_registry_ok|apply make_observatory_evidence_ok
    |apply make_observatory_publishers_ok|].
  by vm_compute.
Qed.

#[global] Instance registry_only_refl : Reflexive registry_only.
Proof. intros s. by constructor. Qed.

(** How an operation can touch the publishers. *)
Lemma exec_cases op s :
  registry_only s (exec op s) ∨ accounting_step s (exec op s)
  ∨ (∃ now1 now g, exec op s = (register_publisher now1 now g s).1)
  ∨ (∃ now id boot reason detail v,
       fence_publisher_boot now id boot reason detail s = Ok (exec op s, v)).
Proof.
  assert (Hcommit : ∀ r, (∀ s', r = Ok s' → registry_only s s') → registry_only s (commit s r)).
  { intros [s'|e] H; [by apply H|reflexivity]. }
  destruct op; cbn [exec]; try (left; apply Hcommit; intros s' E;
    eauto using register_node_frame, register_processor_frame, register_accelerator_frame,
      register_memory_domain_frame, register_coherence_domain_frame, register_region_frame,
      retire_region_frame, set_topology_link_frame, set_capability_frame, set_cost_model_frame; fail).
  - left. unfold bump_topology_generation. destruct (reject_if _ _ _); cbn; [apply bump_topology_frame|done].
  - right; right; left. eauto.
  - destruct (fence_publisher_boot now id boot reason detail s) as [[s' v]|] eqn:E; [|by left].
    right; right; right. eauto 10.
  - right; left. apply ingest_accounting.
  - right; left. apply ingest_batch_accounting.
  - right; left. apply ingest_counter_accounting.
  - right; left. apply reconcile_accounting.
  - right; left. apply snapshot_accounting.
Qed.

Lemma exec_barred op s id boot :
  invariant s → zsize (State.watermarks s) < Limits.kMaxPublisherWatermarks →
  barred s id boot → barred (exec op s) id boot.
Proof.
  intros Hi Hw Hb. pose proof (inv_publishers s Hi) as Hp.
  destruct (exec_cases op s) as [Hr|[Ha|[(now1 & now & g & ->)|(now & i & b & rs & dt & v & E)]]].
  - destruct Hr. by eapply barred_same.
  - by eapply accounting_step_barred.
  - by apply register_publisher_barred.
  - by eapply fence_publisher_boot_barred.
Qed.

(** The structural state: registries, links, epochs and generations, capabilities, options
    and what was restored as history. *)
Definition structure (s : State.t) :=
  (State.options s,
   (State.coordinator_epoch s, State.observation_epoch s, State.topology_generation s, State.evidence_generation s),
   (State.nodes s, State.processors s, State.accelerators s, State.memory_domains s,
    State.coherence_domains s, State.regions s, State.topology s, State.capabilities s),
   (State.historical_aggregates s, State.history s, State.historical_observation_count s,
    State.history_source_epoch s)).

Definition publishing (op : Operation) : Prop :=
  match op with
  | RegisterPublisher _ _ _ | FencePublisherBoot _ _ _ _ _ | Ingest _ _ | IngestBatch _ _ | IngestCounter _ _ => True
  | _ => False
  end.

Lemma ingest_structure now o s : structure (ingest now o s).1 = structure s.
Proof.
  unfold ingest. pose proof (ingest_cases now o s) as H. destruct (ingest_locked now o s) as [s' r]. cbn [fst].
  destruct H as [(_ & He & _)|(_ & p & _ & _ & _ & _ & E)]; [unfold same_evidence in He; by rewrite He|].
  apply (f_equal fst) in E. cbn [fst] in E. rewrite E. by apply accept_frame.
Qed.

Lemma ingest_batch_structure now os s : structure (ingest_batch now os s).1 = structure s.
Proof.
  unfold ingest_batch. repeat (case_match; [done|]).
  assert (∀ s b, structure (ingest_events now os s b).1 = structure s) as H'.
  { clear. induction os as [|o os IH]; intros s b; cbn [ingest_events]; [done|].
    pose proof (ingest_structure now o s). destruct (ingest now o s) as [s1 r]. by rewrite IH. }
  match goal with |- context [ingest_events now os ?s0 ?b] => specialize (H' s0 b); destruct (ingest_events now os s0 b) end.
  exact H'.
Qed.

Lemma ingest_counter_structure now p s : structure (ingest_counter now p s).1 = structure s.
Proof.
  unfold ingest_counter. repeat (case_match; try done).
  all: unfold advance_counter, lose_missing; repeat (case_match; try done).
  all: cbn [fst]; by rewrite apply_attributed_frame.
Qed.

Lemma admit_boot_structure now g s s' : admit_boot now g s = Ok s' → structure s' = structure s.
Proof.
  unfold admit_boot, supersede. intros H.
  destruct (State.publishers s !! _) as [p|]; [destruct (_ =? _)|]; unwind H; by injection H as <-.
Qed.

(** Registering and fencing publishers, and ingesting, leave the structure alone. *)
Lemma publishing_structure op s : publishing op → structure (exec op s) = structure s.
Proof.
  destruct op; try done; intros _; cbn [exec].
  - pose proof (register_publisher_cases now1 now g s) as H.
    destruct (register_publisher now1 now g s) as [s' r]. cbn [fst].
    destruct H as [[-> _]|(s1 & Ha & H)]; [done|]. apply admit_boot_structure in Ha as <-.
    destruct H as [(_ & -> & _)|(_ & -> & _)]; [done|]. unfold install_publisher. by repeat case_match.
  - destruct (fence_publisher_boot now id boot reason detail s) as [[s' v]|] eqn:H; [|done]. revert H.
    unfold fence_publisher_boot. intros H. unwind H. destruct (State.publishers s !! id) as [p|]; [|done].
    unwind H. by injection H as <- <-.
  - apply ingest_structure.
  - apply ingest_batch_structure.
  - apply ingest_counter_structure.
Qed.

(** No operation changes the invalidation policy. *)
Lemma exec_policy op s : invariant s → invalidation_policy_of (exec op s) = invalidation_policy_of s.
Proof.
  intros Hi. pose proof (inv_publishers s Hi) as Hp.
  destruct (exec_cases op s) as [[]|[[]|[(now1 & now & g & ->)|(now & i & b & rs & dt & v & E)]]];
    [done|by apply as_registry| |].
  - by apply (register_publisher_ok now1 now g s Hp).
  - by apply (fence_publisher_boot_ok now i b rs dt s _ v Hp E).
Qed.

Lemma run_policy ops : ∀ s, invariant s → invalidation_policy_of (run ops s) = invalidation_policy_of s.
Proof.
  induction ops as [|op ops IH]; intros s Hi; cbn [run foldl]; [done|].
  etransitivity; [apply IH, exec_ok, Hi|by apply exec_policy].
Qed.

(** The watermark table has room before each operation. *)
Fixpoint below_capacity (ops : list Operation) (s : State.t) : Prop :=
  match ops with
  | [] => True
  | op :: rest => zsize (State.watermarks s) < Limits.kMaxPublisherWatermarks
                  ∧ below_capacity rest (exec op s)
  end.

Lemma run_barred ops : ∀ s id boot,
  invariant s → below_capacity ops s → barred s id boot → barred (run ops s) id boot.
Proof.
  induction ops as [|op ops IH]; intros s id boot Hi Hc Hb; cbn [run foldl]; [done|].
  destruct Hc as [Hw Hc]. apply IH; [by apply exec_ok|done|by apply exec_barred].
Qed.

(** ** Properties of every run *)

(** Claim C1. The global invariant: after any sequence of operations from construction
    ([load_state] is not among them), with any arguments: every processor's and
    accelerator's memory domain, every memory domain's coherence domain and every
    region's memory and coherence domain is registered, the memory domain under a
    generation that was reached (the code does not check the nodes of processors and
    accelerators, the members of domains and the ends of links); every registry stays
    within capacity, no two topology links join the same endpoints, the journal, stale
    records, aggregates, tracked regions, publishers, watermarks and counters are within
    their limits, region accounting is exact, and every publisher's replay window is
    sound. *)
Theorem reachable_invariant (now : Z) (options : ObservatoryOptions.t) (ops : list Operation) :
  let s := run ops (make_observatory now options) in
  registry_ok s ∧ evidence_ok s ∧ publishers_ok s
  ∧ zsize (State.counters s) ≤ Limits.kMaxCounterRecords.
Proof. destruct (run_ok ops _ (make_observatory_invariant now options)) as [[] _]. by split_and!. Qed.

(** Claim C13. History only moves forward: whatever operations other than [load_state]
    follow a reachable state, no registered node, processor, accelerator, memory domain,
    coherence domain or region disappears, no generation rolls back, and a retired
    region is still retired unless it was registered again under a later generation. *)
Theorem run_never_rolls_back (now : Z) (options : ObservatoryOptions.t)
    (ops1 ops2 : list Operation) :
  registry_grows (run ops1 (make_observatory now options))
                 (run (ops1 ++ ops2) (make_observatory now options)).
Proof.
  unfold run. rewrite foldl_app. apply (run_ok ops2).
  apply (run_ok ops1), make_observatory_invariant.
Qed.

(** Claim C32. Retirement is final for attribution: once a region is retired, no
    sequence of operations other than [load_state] makes evidence that names it at the
    retired or an earlier generation attributable to it exactly, as long as the policy
    requires the current generation. *)
Theorem retired_region_never_exact (now : Z) (options : ObservatoryOptions.t)
    (ops1 ops2 : list Operation) (r : RegionRecord.t) (name : string) (g : Z) (o : Observation.t) :
  let s1 := run ops1 (make_observatory now options) in
  let s2 := run ops2 s1 in
  State.regions s1 !! name = Some r → RegionRecord.retired r = true →
  Observation.region o = Some name → Observation.region_generation o = Some g →
  g ≤ RegionRecord.generation r →
  AttributionPolicy.require_current_region_generation
    (ObservatoryOptions.attribution_policy (State.options s2)) = true →
  AttributionResult.outcome (attribute_observation s2 o) ≠ AttributionOutcome.AttributedExact.
Proof.
  intros s1 s2 Hr Hret Ho Hg Hle Hpol E.
  apply attributed_exact_inv in E as (_ & (n & r' & Hn & Hr' & Hlive & Hgen) & _).
  rewrite Ho in Hn. injection Hn as <-. specialize (Hgen Hpol). rewrite Hg in Hgen. injection Hgen as ->.
  destruct (run_ok ops2 s1) as [_ (_ & _ & _ & _ & _ & Hgrow)].
  { apply (run_ok ops1), make_observatory_invariant. }
  destruct (Hgrow _ _ Hr) as (r2 & Hr2 & Hcase). fold s2 in Hr2. rewrite Hr' in Hr2. injection Hr2 as <-.
  destruct Hcase as [Hlt|[_ Hkeep]]; [lia|]. rewrite Hkeep in Hlive by done. done.
Qed.

(** Claim C16. A fenced boot stays out: after a publisher boot is fenced, no
    registration under that boot succeeds again, whatever operations other than
    [load_state] follow, as long as the table of watermarks does not fill up.  (A restart
    lets the boot back in: [Persistence.fenced_boot_readmitted_after_restart].) *)
Theorem fenced_boot_stays_out (now : Z) (options : ObservatoryOptions.t)
    (ops1 ops2 : list Operation) (t : Z) (id : string) (boot : Z) (reason : FenceReason.t)
    (detail : string) (s : State.t) (v : PublisherView.t) (now1 now2 : Z)
    (g : PublisherRegistration.t) :
  fence_publisher_boot t id boot reason detail (run ops1 (make_observatory now options)) = Ok (s, v) →
  below_capacity ops2 s →
  PublisherRegistration.id g = id → PublisherRegistration.boot g = boot →
  is_ok (register_publisher now1 now2 g (run ops2 s)).2 = false.
Proof.
  intros Hf Hc Hid Hboot. apply barred_refused. rewrite Hid, Hboot.
  apply run_barred; [|done|by eapply fence_publisher_boot_bars].
  assert (Hi : invariant (run ops1 (make_observatory now options)))
    by apply (run_ok ops1), make_observatory_invariant.
  pose proof (exec_ok (FencePublisherBoot t id boot reason detail) _ Hi) as [Hi' _].
  cbn [exec] in Hi'. by rewrite Hf in Hi'.
Qed.

(** *** Concrete runs *)

Definition sample_region (generation : Z) : RegionRecord.t :=
  RegionRecord.mk "buf" generation 1 "" "" 0 "" SharingScope.Unknown 0 false 0 false 0 0 "" ""
    false 0 0 false.

Definition retirement : list Operation :=
  [RegisterRegion 2 (sample_region 1); RetireRegion 3 "buf" 1 "freed"].

Lemma retired_region_never_exact_witness :
  let s2 := run [RegisterPublisher 4 4 (sample_registration "pub.a" 1); RegisterRegion 5 (sample_region 2)]
    (run retirement (make_observatory 1 ObservatoryOptions.default)) in
  AttributionResult.outcome (attribute_observation s2 sample_observation)
  ≠ AttributionOutcome.AttributedExact.
Proof.
  cbn zeta.
  apply (retired_region_never_exact 1 ObservatoryOptions.default retirement
    [RegisterPublisher 4 4 (sample_registration "pub.a" 1); RegisterRegion 5 (sample_region 2)]
    ((sample_region 1) <| RegionRecord.registered_at_ns := 2 |>
       <| RegionRecord.retired := true |> <| RegionRecord.retired_at_ns := 3 |>) "buf" 1);
    by vm_compute.
Defined.

Lemma fenced_boot_stays_out_witness :
  let s := fence "pub" (register "pub" 1 sample_state) in
  is_ok (register_publisher 5 6 (sample_registration "pub" 1)
           (run [RegisterPublisher 4 4 (sample_registration "pub" 2)] s)).2 = false.
Proof.
  cbn zeta.
  apply (fenced_boot_stays_out 1 ObservatoryOptions.default
    [RegisterPublisher 2 3 (sample_registration "pub" 1)]
    [RegisterPublisher 4 4 (sample_registration "pub" 2)] 4 "pub" 1 FenceReason.Administrative ""
    (fence "pub" (register "pub" 1 sample_state))
    (match fence_publisher_boot 4 "pub" 1 FenceReason.Administrative "" (register "pub" 1 sample_state) with
     | Ok (_, v) => v | Err _ => PublisherView.empty end)).
  - by vm_compute.
  - by vm_compute.
  - done.
  - done.
Defined.
