(* ===== verification/Findings.v ===== *)
(** * Findings

    The records of [include/coherence/findings.hpp] and the helpers with which
    [src/analysis.cpp] builds, orders and bounds them. *)

From S2P Require Import Prelude Errors TextUtil Taxonomy Float64 Policies Cost Records Observation.
From S2P Require Import Aggregate Sequence State Attribution.

(** ** Data *)

Module FindingKind.
Inductive t :=
  | Hotspot | PingPong | FalseSharingLike | InvalidationBurst | RemoteAccessConcentration
  | CounterDiscontinuity | SequenceGap | EvidenceLoss | StaleEvidence | CapacityPressure
  | PublisherLoss | UnsupportedObservability.
#[global] Instance t_eq_dec : EqDecision t.
Proof. solve_decision. Defined.
Definition code (k : t) : Z :=
  match k with
  | Hotspot => 0 | PingPong => 1 | FalseSharingLike => 2 | InvalidationBurst => 3
  | RemoteAccessConcentration => 4 | CounterDiscontinuity => 5 | SequenceGap => 6
  | EvidenceLoss => 7 | StaleEvidence => 8 | CapacityPressure => 9 | PublisherLoss => 10
  | UnsupportedObservability => 11
  end.
Definition all : list t :=
  [Hotspot; PingPong; FalseSharingLike; InvalidationBurst; RemoteAccessConcentration;
   CounterDiscontinuity; SequenceGap; EvidenceLoss; StaleEvidence; CapacityPressure;
   PublisherLoss; UnsupportedObservability].
Definition to_string (k : t) : string :=
  match k with
  | Hotspot => "HOTSPOT"
  | PingPong => "PING_PONG"
  | FalseSharingLike => "FALSE_SHARING_LIKE"
  | InvalidationBurst => "INVALIDATION_BURST"
  | RemoteAccessConcentration => "REMOTE_ACCESS_CONCENTRATION"
  | CounterDiscontinuity => "COUNTER_DISCONTINUITY"
  | SequenceGap => "SEQUENCE_GAP"
  | EvidenceLoss => "EVIDENCE_LOSS"
  | StaleEvidence => "STALE_EVIDENCE"
  | CapacityPressure => "CAPACITY_PRESSURE"
  | PublisherLoss => "PUBLISHER_LOSS"
  | UnsupportedObservability => "UNSUPPORTED_OBSERVABILITY"
  end.

(** The loop over the name table. *)
Fixpoint parse_from (table : list t) (text : string) : result t :=
  match table with
  | [] => fail_ctx ErrorCode.InvalidArgument "unknown finding kind" text
  | k :: table => if iequals (to_string k) text then Ok k else parse_from table text
  end.
Definition parse (text : string) : result t := parse_from all text.

Lemma parse_kind_to_string k : parse (to_string k) = Ok k.
Proof. by destruct k; vm_compute. Qed.
End FindingKind.

Module ContentionClass.
Inductive t :=
  | None | CacheLineFalseSharingSupported | RegionContentionLikely | PageLevelContention
  | InsufficientGranularity.
#[global] Instance t_eq_dec : EqDecision t.
Proof. solve_decision. Defined.
Definition code (k : t) : Z :=
  match k with
  | None => 0 | CacheLineFalseSharingSupported => 1 | RegionContentionLikely => 2
  | PageLevelContention => 3 | InsufficientGranularity => 4
  end.
Definition all : list t :=
  [None; CacheLineFalseSharingSupported; RegionContentionLikely;
   PageLevelContention; InsufficientGranularity].
Definition to_string (k : t) : string :=
  match k with
  | None => "NONE"
  | CacheLineFalseSharingSupported => "CACHE_LINE_FALSE_SHARING_SUPPORTED"
  | RegionContentionLikely => "REGION_CONTENTION_LIKELY"
  | PageLevelContention => "PAGE_LEVEL_CONTENTION"
  | InsufficientGranularity => "INSUFFICIENT_GRANULARITY"
  end.
End ContentionClass.

Module finding_reason.
Definition kHighRemoteReadRate : string := "remote_read_rate".
Definition kHighRemoteWriteRate : string := "remote_write_rate".
Definition kRepeatedOwnershipTransfer : string := "ownership_transfer_count".
Definition kInvalidationBurst : string := "invalidation_burst".
Definition kCrossNumaTraffic : string := "cross_numa_bytes".
Definition kCrossDeviceTraffic : string := "cross_device_bytes".
Definition kCrossDomainTraffic : string := "cross_domain_bytes".
Definition kCxlClassTraffic : string := "cxl_class_bytes".
Definition kDisproportionateCoherenceBytes : string := "coherence_byte_share".
Definition kRegionLevelContention : string := "region_contention".
Definition kSourceTargetConcentration : string := "source_target_concentration".
Definition kAlternatingOwnership : string := "alternating_ownership".
Definition kDistinctWritersPerLine : string := "distinct_writers_per_line".
Definition kSharedReadWithInvalidations : string := "shared_read_with_invalidations".
Definition kCounterReset : string := "counter_reset".
Definition kCounterWrap : string := "counter_wrap".
Definition kCounterGenerationChange : string := "counter_generation_change".
Definition kMissingSequence : string := "missing_sequence".
Definition kDuplicateRejected : string := "duplicate_rejected".
Definition kAggregateSaturation : string := "aggregate_saturation".
Definition kAggregateKeyPressure : string := "aggregate_key_pressure".
Definition kJournalEviction : string := "journal_eviction".
Definition kPublisherFenced : string := "publisher_fenced".
Definition kNoCapability : string := "capability_unsupported".
Definition kInsufficientPrecision : string := "insufficient_precision".
Definition kInsufficientGranularity : string := "insufficient_granularity".
Definition kStaleGenerations : string := "stale_generation_evidence".
End finding_reason.

Module FindingMetric.
Record t := mk {
  name : string; value : double; unit_ : string; threshold : double;
  has_threshold : bool; exceeded : bool;
}.
End FindingMetric.

Module Finding.
Record t := mk {
  id : Z; kind : FindingKind.t; subject_kind : string; subject : string;
  reasons : list string; metrics : list FindingMetric.t; evidence : list EvidenceRef.t;
  missing_evidence : list string; ambiguity : list string;
  precision : Precision.t; provenance : Provenance.t; reality : Reality.t;
  bindings : GenerationBindings.t; cost : CostEstimate.t;
  participants : list string; alternations : Z; direction_sequence : string;
  contention : ContentionClass.t; granularity : EvidenceGranularity.t;
  locality : Locality.t; locality_established : bool; historical : bool;
}.
#[global] Instance eta : Eta t := fun f =>
  mk (id f) (kind f) (subject_kind f) (subject f) (reasons f) (metrics f) (evidence f)
    (missing_evidence f) (ambiguity f) (precision f) (provenance f) (reality f) (bindings f)
    (cost f) (participants f) (alternations f) (direction_sequence f) (contention f)
    (granularity f) (locality f) (locality_established f) (historical f).
(** A default-constructed finding. *)
Definition empty : t :=
  mk 0 FindingKind.Hotspot "" "" [] [] [] [] [] Precision.Unknown Provenance.Unknown Reality.Real
    GenerationBindings.empty CostEstimate.empty [] 0 "" ContentionClass.None
    EvidenceGranularity.Unknown Locality.Unknown false false.

Definition ordering_key (f : t) : string :=
  FindingKind.to_string (kind f) +:+ "|" +:+ subject_kind f +:+ "|" +:+ subject f.
End Finding.

(** ** Building findings *)

Definition evidence_ref (sample : OwnershipSample.t) : EvidenceRef.t :=
  EvidenceRef.mk (OwnershipSample.event_id sample) (OwnershipSample.publisher sample)
    (OwnershipSample.publisher_boot sample) (OwnershipSample.sequence sample)
    (OwnershipSample.type sample) (OwnershipSample.precision sample)
    (OwnershipSample.provenance sample).

Definition push_evidence (ref : EvidenceRef.t) (f : Finding.t) : Finding.t :=
  if Limits.kMaxEvidenceRefs <=? zlen (Finding.evidence f) then f
  else f <| Finding.evidence ::= λ l, l ++ [ref] |>.

(** [push_back] unless the text is already there. *)
Definition push_new (text : string) (l : list string) : list string :=
  if bool_decide (text ∈ l) then l else l ++ [text].
(** ... or the list is at its bound. *)
Definition push_bounded (bound : Z) (text : string) (l : list string) : list string :=
  if bound <=? zlen l then l else push_new text l.

Definition add_reason (reason : string) (f : Finding.t) : Finding.t :=
  f <| Finding.reasons ::= push_new reason |>.

Definition add_metric (name : string) (value : double) (unit_ : string) (threshold : double)
    (has_threshold : bool) (f : Finding.t) : Finding.t :=
  f <| Finding.metrics ::= λ l,
         l ++ [FindingMetric.mk name value unit_ threshold has_threshold
                 (has_threshold && dleb threshold value)] |>.
(** A metric without a threshold. *)
Definition add_plain (name : string) (value : double) (unit_ : string) (f : Finding.t) : Finding.t :=
  add_metric name value unit_ d0 false f.

Definition add_missing (text : string) (f : Finding.t) : Finding.t :=
  f <| Finding.missing_evidence ::= push_bounded Limits.kMaxExplanationLines text |>.
Definition add_ambiguity (text : string) (f : Finding.t) : Finding.t :=
  f <| Finding.ambiguity ::= push_bounded Limits.kMaxAttributionCandidates text |>.
Definition add_participant (text : string) (f : Finding.t) : Finding.t :=
  f <| Finding.participants ::= push_bounded Limits.kMaxAttributionCandidates text |>.

Definition current_bindings (s : State.t) : GenerationBindings.t :=
  GenerationBindings.empty
    <| GenerationBindings.coordinator_epoch := State.coordinator_epoch s |>
    <| GenerationBindings.observation_epoch := State.observation_epoch s |>
    <| GenerationBindings.topology_generation := State.topology_generation s |>
    <| GenerationBindings.evidence_generation := State.evidence_generation s |>.

(** [std::unique] *)
Fixpoint unique (l : list string) : list string :=
  match l with
  | [] => []
  | a :: rest =>
      match unique rest with
      | b :: rest' => if decide (a = b) then b :: rest' else a :: b :: rest'
      | [] => [a]
      end
  end.

Definition metric_le (a b : FindingMetric.t) : Prop :=
  key_le (FindingMetric.name a) (FindingMetric.name b).
#[global] Instance metric_le_dec a b : Decision (metric_le a b).
Proof. unfold metric_le. apply _. Defined.

Definition sort_finding (f : Finding.t) : Finding.t :=
  f <| Finding.reasons ::= λ l, unique (stable_sort key_le l) |>
    <| Finding.metrics ::= stable_sort metric_le |>
    <| Finding.participants ::= λ l, unique (stable_sort key_le l) |>.

Definition rate_over_span (count first last : Z) : double :=
  if last <=? first then d0
  else ddiv (dmul (d_of_Z count) (d_of_Z 1000000000)) (d_of_Z (last - first)).

(** What sorting keeps. *)
Lemma elem_of_unique x l : x ∈ unique l ↔ x ∈ l.
Proof.
  induction l as [|a l IH]; [done|]. cbn [unique]. rewrite elem_of_cons, <- IH.
  destruct (unique l) as [|b k]; [rewrite elem_of_cons; tauto|]. case_decide as H; [subst|].
  - rewrite !elem_of_cons. tauto.
  - by rewrite (elem_of_cons (b :: k)).
Qed.

Lemma elem_of_push_new x text l : x ∈ push_new text l ↔ x = text ∨ x ∈ l.
Proof.
  unfold push_new. case_bool_decide; [naive_solver|]. rewrite elem_of_app, list_elem_of_singleton. tauto.
Qed.

(** ** Ordering and bounding a list of findings *)

Definition finding_le (a b : Finding.t) : Prop :=
  key_le (Finding.ordering_key a) (Finding.ordering_key b).
#[global] Instance finding_le_dec a b : Decision (finding_le a b).
Proof. unfold finding_le. apply _. Defined.

Definition finalize_findings (max_findings : Z) (l : list Finding.t) : list Finding.t :=
  let l := stable_sort finding_le l in
  if max_findings =? 0 then []
  else if zlen l <=? max_findings then l
  else take (Z.to_nat max_findings) l.

#[global] Instance finding_le_total : Total finding_le.
Proof. intros a b. apply key_leb_total. Qed.
#[global] Instance finding_le_trans : Transitive finding_le.
Proof. intros a b c. apply key_leb_trans. Qed.

Lemma finalize_prefix max_findings l :
  0 ≤ max_findings →
  finalize_findings max_findings l = take (Z.to_nat max_findings) (stable_sort finding_le l).
Proof.
  intros H. unfold finalize_findings. destruct (Z.eqb_spec max_findings 0) as [->|]; [done|].
  destruct (Z.leb_spec (zlen (stable_sort finding_le l)) max_findings); [|done].
  symmetry. apply take_ge. unfold zlen in *. lia.
Qed.

Lemma elem_of_take_elem {A} (l : list A) n x : x ∈ take n l → x ∈ l.
Proof. intros Hx. rewrite <- (take_drop n l). apply elem_of_app. by left. Qed.

Lemma elem_of_finalize max_findings l f : f ∈ finalize_findings max_findings l → f ∈ l.
Proof.
  unfold finalize_findings. intros Hf. rewrite <- (stable_sort_perm finding_le l).
  destruct (max_findings =? 0); [by apply not_elem_of_nil in Hf|].
  destruct (zlen (stable_sort finding_le l) <=? max_findings); [done|].
  by eapply elem_of_take_elem.
Qed.

(** Nothing is dropped from a list within its bound. *)
Lemma finalize_all max_findings l f :
  0 < max_findings → zlen l ≤ max_findings → f ∈ l → f ∈ finalize_findings max_findings l.
Proof.
  intros Hm Hl Hf. unfold finalize_findings. destruct (Z.eqb_spec max_findings 0); [lia|].
  assert (zlen (stable_sort finding_le l) = zlen l) as ->.
  { unfold zlen. by rewrite stable_sort_length. }
  destruct (Z.leb_spec (zlen l) max_findings); [|lia]. by rewrite stable_sort_perm.
Qed.

(** An analyser that walks an ordered map and reports at most one finding per entry. *)
Lemma elem_of_concat {A} (ls : list (list A)) x : x ∈ concat ls ↔ ∃ l, x ∈ l ∧ l ∈ ls.
Proof.
  rewrite list_elem_of_In, in_concat. setoid_rewrite list_elem_of_In. naive_solver.
Qed.

Section walk.
Context {K V : Type} `{Countable K} `{KeyOrder K} (report : K * V → list Finding.t).

Lemma elem_of_walk (m : gmap K V) f :
  f ∈ concat (report <$> entries m) ↔ ∃ k v, m !! k = Some v ∧ f ∈ report (k, v).
Proof.
  rewrite elem_of_concat. setoid_rewrite list_elem_of_fmap. split.
  - intros (l & Hf & [k v] & -> & Hkv%elem_of_entries). eauto.
  - intros (k & v & Hkv%elem_of_entries & Hf). eauto.
Qed.

Lemma walk_length (m : gmap K V) :
  (∀ x, zlen (report x) ≤ 1) → zlen (concat (report <$> entries m)) ≤ zsize m.
Proof.
  intros Hone. rewrite <- entries_length. generalize (entries m).
  induction l as [|x l IH]; [done|]. rewrite fmap_cons. cbn [concat].
  rewrite zlen_app, zlen_cons. specialize (Hone x). lia.
Qed.

(** Every entry's finding survives a bound no smaller than the map. *)
Lemma walk_complete (m : gmap K V) max_findings k v f :
  (∀ x, zlen (report x) ≤ 1) → zsize m ≤ max_findings → m !! k = Some v → f ∈ report (k, v) →
  f ∈ finalize_findings max_findings (concat (report <$> entries m)).
Proof.
  intros Hone Hsize Hk Hf. pose proof (walk_length m Hone).
  assert (0 < zsize m).
  { unfold zsize. enough (size m ≠ 0)%nat by lia. apply map_size_non_empty_iff. intros ->.
    by rewrite lookup_empty in Hk. }
  apply finalize_all; [lia..|]. apply elem_of_walk. eauto.
Qed.
End walk.

(** Finalising a list of findings keeps exactly [min(n, max_findings)]
    of them: the kept ones come out in key order, equal keys in the order they
    were found, and no dropped finding sorts before a kept one. *)
Theorem finalize_findings_exact (max_findings : Z) (l : list Finding.t)
  (Hbound : 0 ≤ max_findings) :
  let kept := finalize_findings max_findings l in
  zlen kept = Z.min (zlen l) max_findings
  ∧ StronglySorted finding_le kept
  ∧ ∃ dropped, kept ++ dropped ≡ₚ l
      ∧ (∀ f g, f ∈ kept → g ∈ dropped → finding_le f g)
      ∧ ∀ key, filter (λ f, Finding.ordering_key f = key) (kept ++ dropped)
               = filter (λ f, Finding.ordering_key f = key) l.
Proof.
  cbn zeta. rewrite finalize_prefix by done. set (n := Z.to_nat max_findings).
  pose proof (stable_sort_sorted finding_le l) as Hs.
  split_and!.
  - unfold zlen. rewrite length_take, stable_sort_length. subst n. lia.
  - eapply StronglySorted_app_1_l. by rewrite (take_drop n).
  - exists (drop n (stable_sort finding_le l)). rewrite take_drop. split_and!.
    + apply stable_sort_perm.
    + rewrite <- (take_drop n) in Hs. intros f g Hf Hg.
      by eapply StronglySorted_app_1_elem_of.
    + intros key. apply stable_sort_stable. intros a b Ha Hb. unfold finding_le.
      rewrite Ha, Hb. by destruct (key_leb_total key key).
Qed.

Definition named (subject : string) (alternations : Z) : Finding.t :=
  Finding.empty <| Finding.subject := subject |> <| Finding.alternations := alternations |>.

Lemma finalize_findings_exact_witness :
  0 ≤ 2 ∧ zlen (finalize_findings 2 [named "b" 1; named "a" 2; named "a" 3]) = 2
  ∧ finalize_findings 2 [named "b" 1; named "a" 2; named "a" 3] = [named "a" 2; named "a" 3].
Proof.
  split; [lia|]. split; [|by vm_compute].
  pose proof (finalize_findings_exact 2 [named "b" 1; named "a" 2; named "a" 3] ltac:(lia)) as [H _].
  exact H.
Defined.
