(* ===== verification/PingPong.v ===== *)
(** * Ping-pong detection

    [analyze_ping_pong] of [src/analysis.cpp]: per region, the retained samples
    that show a transfer between two resources are put in time order, the
    longest run of transfers between the same two resources without a long gap
    is found in one pass, trimmed to the policy's window and reported when it is
    long enough. *)

From S2P Require Import Prelude Errors TextUtil Taxonomy Float64 Policies Cost Records Observation.
From S2P Require Import Aggregate Sequence State Attribution Findings.

(** ** Selecting and ordering the samples *)

(** The three [continue] conditions of the selection loop. *)
Definition is_transfer (policy : PingPongPolicy.t) (x : OwnershipSample.t) : bool :=
  is_ownership_event (OwnershipSample.type x)
  && (precision_rank (PingPongPolicy.min_precision policy)
      <=? precision_rank (OwnershipSample.precision x))
  && negb (ResourceRef.empty (OwnershipSample.from x))
  && negb (ResourceRef.empty (OwnershipSample.to x)).

(** The comparator: by time, then by sequence number. *)
Definition sample_le (a b : OwnershipSample.t) : Prop :=
  if decide (OwnershipSample.timestamp_ns a = OwnershipSample.timestamp_ns b)
  then OwnershipSample.sequence a ≤ OwnershipSample.sequence b
  else OwnershipSample.timestamp_ns a ≤ OwnershipSample.timestamp_ns b.
#[global] Instance sample_le_dec a b : Decision (sample_le a b).
Proof. unfold sample_le. case_decide; apply _. Defined.

Definition transfers_of (policy : PingPongPolicy.t) (e : RegionEvidence.t)
  : list OwnershipSample.t :=
  stable_sort sample_le (List.filter (is_transfer policy) (RegionEvidence.samples e)).

(** ** The longest run *)

(** [samples[i]], for an index inside the vector. *)
Definition blank_sample : OwnershipSample.t :=
  OwnershipSample.mk 0 0 0 ResourceRef.none ResourceRef.none EventType.UnknownCoherenceEvent
    CoherenceState.Unknown CoherenceState.Unknown AccessDirection.None Precision.Unknown
    Provenance.Unknown EvidenceGranularity.Unknown "" 0 0 "".
Definition sample_at (samples : list OwnershipSample.t) (i : nat) : OwnershipSample.t :=
  nth i samples blank_sample.

Definition from_id (x : OwnershipSample.t) : string := ResourceRef.id (OwnershipSample.from x).
Definition to_id (x : OwnershipSample.t) : string := ResourceRef.id (OwnershipSample.to x).

(** The lambda [alternates]. *)
Definition alternates (samples : list OwnershipSample.t) (index : nat) : bool :=
  match index with
  | O => true
  | S prev =>
      let previous := sample_at samples prev in
      let current := sample_at samples index in
      let forward := bool_decide (from_id previous = to_id current)
                     && bool_decide (to_id previous = from_id current) in
      let reverse := bool_decide (from_id previous = from_id current)
                     && bool_decide (to_id previous = to_id current) in
      forward || reverse
  end.

Module Run.
Record t := mk { start : nat; best_start : nat; best_length : nat }.
Definition init : t := mk 0 0 0.
End Run.

(** Does sample [i] continue the run of its predecessor? *)
Definition continues (policy : PingPongPolicy.t) (samples : list OwnershipSample.t) (i : nat)
  : bool :=
  negb (Nat.eqb i 0 || negb (alternates samples i)
        || (OwnershipSample.timestamp_ns (sample_at samples i)
            - OwnershipSample.timestamp_ns (sample_at samples (i - 1))
            >? PingPongPolicy.max_gap_ns policy)).

(** One iteration of the scan. *)
Definition scan_step (policy : PingPongPolicy.t) (samples : list OwnershipSample.t)
    (r : Run.t) (i : nat) : Run.t :=
  let start := if continues policy samples i then Run.start r else i in
  let length := (i - start + 1)%nat in
  if Nat.ltb (Run.best_length r) length then Run.mk start start length
  else Run.mk start (Run.best_start r) (Run.best_length r).

Definition scan (policy : PingPongPolicy.t) (samples : list OwnershipSample.t) : Run.t :=
  foldl (scan_step policy samples) Run.init (seq 0 (length samples)).

(** The loop that moves the start of the window forward; it ends at the latest
    at the end of the run. *)
Fixpoint trim_window (samples : list OwnershipSample.t) (window_end window_ns : Z)
    (fuel window_start : nat) : nat :=
  match fuel with
  | O => window_start
  | S fuel =>
      if window_end - OwnershipSample.timestamp_ns (sample_at samples window_start) >? window_ns
      then trim_window samples window_end window_ns fuel (S window_start)
      else window_start
  end.

(** ** Rendering *)

Module Pattern.
(** The local variables of the rendering loop. *)
Record t := mk {
  finding : Finding.t; weakest_precision : Precision.t; reality : Reality.t;
  transfers : Z; bytes_estimate : Z;
}.
End Pattern.

Definition truncation_note : string :=
  "direction sequence truncated at 160 characters; the alternation count and evidence references carry the complete pattern".

Definition note_transfer (first : bool) (x : OwnershipSample.t) (f : Finding.t) : Finding.t :=
  (push_evidence (evidence_ref x) (add_participant (to_id x) (add_participant (from_id x) f)))
    <| Finding.direction_sequence ::= λ d,
         d +:+ (if first then "" else " ") +:+ from_id x +:+ ">" +:+ to_id x |>.

(** The loop over the window, left by [break] when the rendered sequence is full. *)
Fixpoint render (first : bool) (window : list OwnershipSample.t) (p : Pattern.t) : Pattern.t :=
  match window with
  | [] => p
  | x :: window =>
      let weakest_precision := weakest (Pattern.weakest_precision p) (OwnershipSample.precision x) in
      let reality := combine_reality (Pattern.reality p) (reality_of (OwnershipSample.provenance x)) in
      let f := note_transfer first x (Pattern.finding p) in
      if slen (Finding.direction_sequence f) >? 160 then
        Pattern.mk
          (f <| Finding.direction_sequence ::= λ d, truncate d 160 |>
             <| Finding.missing_evidence ::= λ l, l ++ [truncation_note] |>)
          weakest_precision reality (Pattern.transfers p) (Pattern.bytes_estimate p)
      else
        render false window
          (Pattern.mk f weakest_precision reality (u64_add (Pattern.transfers p) 1)
             (u64_add (Pattern.bytes_estimate p) 64))
  end.

(** The names of the resources of a window. *)
Definition window_participants (window : list OwnershipSample.t) : gset string :=
  list_to_set (from_id <$> window) ∪ list_to_set (to_id <$> window).

Definition note_evicted (e : RegionEvidence.t) (f : Finding.t) : Finding.t :=
  if RegionEvidence.evicted e =? 0 then f
  else add_missing ("region sample window evicted " +:+ format_u64 (RegionEvidence.evicted e)
                    +:+ " older samples") f.

(** The region's generation, when it is registered. *)
Definition bind_region_generation (s : State.t) (key : string) (f : Finding.t) : option Finding.t :=
  match State.regions s !! key with
  | Some r =>
      Some (f <| Finding.bindings ::= λ b,
              b <| GenerationBindings.region_generation := RegionRecord.generation r |>
                <| GenerationBindings.region_generation_bound := true |> |>)
  | None => None
  end.

(** The window a region's evidence supports, when there is one. *)
Definition ping_pong_window (policy : PingPongPolicy.t) (e : RegionEvidence.t)
  : option (list OwnershipSample.t) :=
  let samples := transfers_of policy e in
  let minimum := Z.to_nat (PingPongPolicy.min_alternations policy + 1) in
  if Nat.ltb (length samples) 2 then None
  else
    let best := scan policy samples in
    if Nat.ltb (Run.best_length best) minimum then None
    else
      let stop := (Run.best_start best + Run.best_length best)%nat in
      let window_end := OwnershipSample.timestamp_ns (sample_at samples (stop - 1)) in
      let window_start := trim_window samples window_end (PingPongPolicy.window_ns policy)
                            (Run.best_length best) (Run.best_start best) in
      let window := take (stop - window_start) (drop window_start samples) in
      if Nat.ltb (stop - window_start) minimum then None
      else if Z.of_nat (size (window_participants window)) <? PingPongPolicy.min_participants policy
      then None
      else Some window.

(** The finding before the rendering loop ... *)
Definition open_pattern (s : State.t) (key : string) (window : list OwnershipSample.t) : Pattern.t :=
  let head := sample_at window 0 in
  let f := Finding.empty
    <| Finding.kind := FindingKind.PingPong |>
    <| Finding.subject_kind := "region" |>
    <| Finding.subject := key |>
    <| Finding.bindings := current_bindings s |> in
  let f := match bind_region_generation s key f with
           | Some f => f
           | None => add_missing "region.registration" f
           end in
  let f := f <| Finding.alternations := zlen window - 1 |>
             <| Finding.granularity := OwnershipSample.granularity head |> in
  Pattern.mk f Precision.ExactEvent (reality_of (OwnershipSample.provenance head)) 0 0.

(** ... and what is added after it. *)
Definition close_pattern (s : State.t) (policy : PingPongPolicy.t) (e : RegionEvidence.t)
    (window : list OwnershipSample.t) (p : Pattern.t) : Finding.t :=
  let f := (Pattern.finding p)
    <| Finding.precision := Pattern.weakest_precision p |>
    <| Finding.provenance := OwnershipSample.provenance (sample_at window 0) |>
    <| Finding.reality := Pattern.reality p |> in
  let f := add_reason finding_reason.kAlternatingOwnership f in
  let f := add_metric "alternations" (d_of_Z (Finding.alternations f)) "alternations"
             (d_of_Z (PingPongPolicy.min_alternations policy)) true f in
  let f := add_plain "ownership_transfers" (d_of_Z (Pattern.transfers p)) "transfers" f in
  let f := add_metric "participants" (d_of_Z (Z.of_nat (size (window_participants window))))
             "resources" (d_of_Z (PingPongPolicy.min_participants policy)) true f in
  let f := f <| Finding.cost :=
    estimate_cost (ObservatoryOptions.cost_model (State.options s))
      (CostInputs.mk (Pattern.bytes_estimate p) 0 0 0 (Pattern.transfers p) 0 0 (-1)
         Locality.Unknown false (Pattern.weakest_precision p)) |> in
  sort_finding (note_evicted e f).

Definition ping_pong_finding (s : State.t) (policy : PingPongPolicy.t) (key : string)
    (e : RegionEvidence.t) (window : list OwnershipSample.t) : Finding.t :=
  close_pattern s policy e window (render true window (open_pattern s key window)).

(** The body of the loop over the tracked regions. *)
Definition ping_pong_region (s : State.t) (policy : PingPongPolicy.t)
    (entry : string * RegionEvidence.t) : list Finding.t :=
  match ping_pong_window policy entry.2 with
  | Some window => [ping_pong_finding s policy entry.1 entry.2 window]
  | None => []
  end.

Definition analyze_ping_pong (s : State.t) (policy : PingPongPolicy.t) : list Finding.t :=
  finalize_findings (PingPongPolicy.max_findings policy)
    (concat (ping_pong_region s policy <$> entries (State.region_evidence s))).

(** ** The scan finds the longest run *)

#[global] Instance sample_le_total : Total sample_le.
Proof. intros a b. unfold sample_le. repeat case_decide; lia. Qed.
#[global] Instance sample_le_trans : Transitive sample_le.
Proof. intros a b c. unfold sample_le. repeat case_decide; lia. Qed.

Lemma transfers_sorted policy e : StronglySorted sample_le (transfers_of policy e).
Proof. apply stable_sort_sorted; apply _. Qed.

Lemma elem_of_transfers policy e x :
  x ∈ transfers_of policy e ↔ is_transfer policy x = true ∧ x ∈ RegionEvidence.samples e.
Proof.
  unfold transfers_of. rewrite stable_sort_perm, !list_elem_of_In, filter_In. tauto.
Qed.

(** The samples of indices [a .. a + n - 1] form one run. *)
Definition linked (policy : PingPongPolicy.t) (samples : list OwnershipSample.t) (a n : nat) : Prop :=
  ∀ i, (a < i < a + n)%nat → continues policy samples i = true.

(** What holds after the first [k] iterations. *)
Record scanned (policy : PingPongPolicy.t) (samples : list OwnershipSample.t) (k : nat) (r : Run.t)
  : Prop := {
  scanned_start : (Run.start r ≤ k)%nat;
  scanned_run : linked policy samples (Run.start r) (k - Run.start r);
  scanned_head : continues policy samples (Run.start r) = false;
  scanned_best_end : (Run.best_start r + Run.best_length r ≤ k)%nat;
  scanned_best : linked policy samples (Run.best_start r) (Run.best_length r);
  scanned_max a n : (a + n ≤ k)%nat → linked policy samples a n → (n ≤ Run.best_length r)%nat;
}.

Lemma continues_0 policy samples : continues policy samples 0 = false.
Proof. done. Qed.

Lemma scanned_init policy samples : scanned policy samples 0 Run.init.
Proof. split; simpl; try done; try lia; intros ?; lia. Qed.

Lemma scanned_step policy samples k r :
  scanned policy samples k r → scanned policy samples (S k) (scan_step policy samples r k).
Proof.
  intros [Hs Hrun Hhead Hbe Hb Hmax]. unfold scan_step.
  set (st := if continues policy samples k then Run.start r else k).
  assert ((st ≤ k)%nat ∧ linked policy samples st (S k - st) ∧ continues policy samples st = false)
    as (Hst & Hl & Hh).
  { subst st. destruct (continues policy samples k) eqn:E; split_and!; try done; try lia.
    - intros i Hi. destruct (decide (i = k)) as [->|]; [done|]. apply Hrun. lia.
    - intros i Hi. lia. }
  assert (∀ a n, (a + n = S k)%nat → linked policy samples a n → (n ≤ S k - st)%nat) as Hnew.
  { intros a n Han Hln. destruct (decide (st ≤ a)%nat); [lia|].
    assert (continues policy samples st = true); [apply Hln; lia|congruence]. }
  destruct (Nat.ltb_spec (Run.best_length r) (k - st + 1)); split; simpl; try done; try lia.
  - replace (k - st + 1)%nat with (S k - st)%nat by lia. done.
  - intros a n Han Hln. destruct (decide (a + n = S k)%nat) as [E|]; [pose proof (Hnew a n E Hln); lia|].
    enough (n ≤ Run.best_length r)%nat by lia. apply (Hmax a); [lia|done].
  - intros a n Han Hln. destruct (decide (a + n = S k)%nat) as [E|]; [pose proof (Hnew a n E Hln); lia|].
    apply (Hmax a); [lia|done].
Qed.

Lemma scan_scanned policy samples : scanned policy samples (length samples) (scan policy samples).
Proof.
  unfold scan. induction (length samples) as [|k IH]; [apply scanned_init|].
  rewrite seq_S, foldl_app. simpl. by apply scanned_step.
Qed.

(** ** The window *)

Lemma sample_at_lookup samples i x : samples !! i = Some x → sample_at samples i = x.
Proof. intros H. unfold sample_at. apply nth_lookup_Some with (d := blank_sample) in H. done. Qed.

Lemma lookup_sample_at samples i : (i < length samples)%nat → samples !! i = Some (sample_at samples i).
Proof.
  intros [x Hx]%lookup_lt_is_Some_2. by rewrite (sample_at_lookup _ _ _ Hx).
Qed.

(** Two samples that follow each other in a run. *)
Definition link (policy : PingPongPolicy.t) (x y : OwnershipSample.t) : Prop :=
  ((from_id x = to_id y ∧ to_id x = from_id y) ∨ (from_id x = from_id y ∧ to_id x = to_id y))
  ∧ OwnershipSample.timestamp_ns y - OwnershipSample.timestamp_ns x ≤ PingPongPolicy.max_gap_ns policy.

Lemma continues_link policy samples i x y :
  samples !! i = Some x → samples !! S i = Some y →
  continues policy samples (S i) = true ↔ link policy x y.
Proof.
  intros Hx Hy. unfold continues, link. simpl. rewrite Nat.sub_0_r.
  rewrite (sample_at_lookup _ _ _ Hx), (sample_at_lookup _ _ _ Hy), Z.gtb_ltb.
  rewrite negb_true_iff, orb_false_iff, negb_false_iff, orb_true_iff, !andb_true_iff,
    !bool_decide_eq_true, Z.ltb_ge. done.
Qed.

Lemma trim_window_bounds samples window_end window_ns fuel ws :
  (ws ≤ trim_window samples window_end window_ns fuel ws ≤ ws + fuel)%nat.
Proof.
  revert ws. induction fuel as [|fuel IH]; intros ws; simpl; [lia|].
  case_match; [pose proof (IH (S ws)); lia|lia].
Qed.

(** The window starts inside [window_ns] unless it is empty. *)
Lemma trim_window_fits samples window_end window_ns fuel ws :
  (trim_window samples window_end window_ns fuel ws < ws + fuel)%nat →
  window_end - OwnershipSample.timestamp_ns
    (sample_at samples (trim_window samples window_end window_ns fuel ws)) ≤ window_ns.
Proof.
  revert ws. induction fuel as [|fuel IH]; intros ws; simpl; [lia|].
  rewrite Z.gtb_ltb. destruct (Z.ltb_spec window_ns (window_end
    - OwnershipSample.timestamp_ns (sample_at samples ws))); [|lia].
  intros ?. apply IH. lia.
Qed.

(** A run that fits the window is not trimmed. *)
Lemma trim_window_id samples window_end window_ns fuel ws :
  window_end - OwnershipSample.timestamp_ns (sample_at samples ws) ≤ window_ns →
  trim_window samples window_end window_ns fuel ws = ws.
Proof.
  intros H. destruct fuel; simpl; [done|]. rewrite Z.gtb_ltb. by case (Z.ltb_spec _ _); [lia|].
Qed.

(** A window of consecutive transfers that follow each other. *)
Definition chained (policy : PingPongPolicy.t) (W : list OwnershipSample.t) : Prop :=
  ∀ i x y, W !! i = Some x → W !! S i = Some y → link policy x y.

Lemma linked_chained policy samples a n :
  linked policy samples a n → chained policy (take n (drop a samples)).
Proof.
  intros Hl i x y Hx Hy.
  apply lookup_take_Some in Hx as [Hx _], Hy as [Hy ?]. rewrite lookup_drop in Hx, Hy.
  rewrite Nat.add_succ_r in Hy. apply (continues_link _ _ _ _ _ Hx Hy). apply Hl. lia.
Qed.

Lemma chained_linked policy pre W post :
  chained policy W → linked policy (pre ++ W ++ post) (length pre) (length W).
Proof.
  intros Hc i Hi. destruct i as [|i]; [lia|].
  assert (∀ j, (length pre ≤ j < length pre + length W)%nat →
    (pre ++ W ++ post) !! j = Some (sample_at W (j - length pre))) as Hat.
  { intros j Hj. rewrite lookup_app_r, lookup_app_l by lia. apply lookup_sample_at. lia. }
  eapply continues_link; [apply Hat; lia..|].
  apply (Hc (i - length pre)%nat); [apply lookup_sample_at; lia|].
  rewrite <- Nat.sub_succ_l by lia. apply lookup_sample_at. lia.
Qed.

(** All transfers of a chain are between the same two resources. *)
Lemma chained_pair policy x W y :
  chained policy (x :: W) → y ∈ x :: W →
  ({[from_id y; to_id y]} : gset string) = {[from_id x; to_id x]}.
Proof.
  revert x. induction W as [|z W IH]; intros x Hc Hy.
  { apply list_elem_of_singleton in Hy as ->. done. }
  apply elem_of_cons in Hy as [->|Hy]; [done|].
  rewrite (IH z) by (done || intros i; apply (Hc (S i))).
  destruct (Hc 0%nat x z eq_refl eq_refl) as [[[-> ->]|[-> ->]] _]; set_solver.
Qed.

Lemma chained_participants policy W x :
  chained policy W → x ∈ W → window_participants W = {[from_id x; to_id x]}.
Proof.
  intros Hc Hx. destruct W as [|h W]; [by apply not_elem_of_nil in Hx|].
  rewrite (chained_pair _ _ _ _ Hc Hx). unfold window_participants. apply set_eq. intros p.
  rewrite elem_of_union, !elem_of_list_to_set, !list_elem_of_fmap. split.
  - intros [(y & -> & Hy)|(y & -> & Hy)]; rewrite <- (chained_pair _ _ _ _ Hc Hy); set_solver.
  - rewrite elem_of_union, !elem_of_singleton.
    intros [->| ->]; [left|right]; exists h; set_solver.
Qed.

(** ** What a reported window is *)

Record ping_pong (policy : PingPongPolicy.t) (e : RegionEvidence.t) (W : list OwnershipSample.t)
  : Prop := {
  (** consecutive transfers of the region, in time order *)
  pp_segment : ∃ pre post, transfers_of policy e = pre ++ W ++ post;
  pp_ordered : StronglySorted sample_le W;
  (** retained samples of enough precision *)
  pp_precise x : x ∈ W → x ∈ RegionEvidence.samples e
    ∧ precision_rank (PingPongPolicy.min_precision policy) ≤ precision_rank (OwnershipSample.precision x);
  (** each follows its predecessor between the same two resources, soon enough *)
  pp_chain : chained policy W;
  pp_pair x : x ∈ W → window_participants W = {[from_id x; to_id x]};
  (** enough of them, close together *)
  pp_long : PingPongPolicy.min_alternations policy + 1 ≤ zlen W;
  pp_span x y : x ∈ W → y ∈ W →
    OwnershipSample.timestamp_ns y - OwnershipSample.timestamp_ns x ≤ PingPongPolicy.window_ns policy;
  pp_participants :
    PingPongPolicy.min_participants policy ≤ Z.of_nat (size (window_participants W));
}.

Lemma sample_le_time x y :
  sample_le x y → OwnershipSample.timestamp_ns x ≤ OwnershipSample.timestamp_ns y.
Proof. unfold sample_le. case_decide; lia. Qed.

Lemma sorted_span W w x y :
  StronglySorted sample_le W →
  (∀ h l, W !! 0%nat = Some h → last W = Some l →
     OwnershipSample.timestamp_ns l - OwnershipSample.timestamp_ns h ≤ w) →
  x ∈ W → y ∈ W → OwnershipSample.timestamp_ns y - OwnershipSample.timestamp_ns x ≤ w.
Proof.
  intros Hs Hw Hx Hy.
  destruct W as [|h W']; [by apply not_elem_of_nil in Hx|].
  destruct (last (h :: W')) as [l|] eqn:El; [|by apply last_None in El].
  specialize (Hw h l eq_refl eq_refl).
  assert (OwnershipSample.timestamp_ns h ≤ OwnershipSample.timestamp_ns x).
  { apply elem_of_cons in Hx as [->|Hx]; [done|]. apply sample_le_time.
    apply StronglySorted_inv in Hs as [_ Hf]. by apply (proj1 (Forall_forall _ _) Hf). }
  enough (OwnershipSample.timestamp_ns y ≤ OwnershipSample.timestamp_ns l) by lia.
  apply last_Some in El as [k Ek]. rewrite Ek in Hs, Hy.
  apply elem_of_app in Hy as [Hy|Hy%list_elem_of_singleton]; [|by subst].
  apply sample_le_time. eapply StronglySorted_app_1_elem_of; [exact Hs|exact Hy|].
  by apply list_elem_of_singleton.
Qed.

Lemma segment_sorted policy e pre W post :
  transfers_of policy e = pre ++ W ++ post → StronglySorted sample_le W.
Proof.
  intros E. pose proof (transfers_sorted policy e) as Hs. rewrite E in Hs.
  by eapply StronglySorted_app_1_l, StronglySorted_app_1_r.
Qed.

(** The segment from [a] up to [stop]. *)
Lemma slice_segment {A} (l : list A) a n :
  l = take a l ++ take n (drop a l) ++ drop (a + n) l.
Proof. by rewrite <- drop_drop, !take_drop. Qed.

Lemma linked_suffix policy samples a b n :
  (a ≤ b)%nat → linked policy samples a n → linked policy samples b (a + n - b).
Proof. intros ? Hl i Hi. apply Hl. lia. Qed.

Lemma slice_last samples a n x :
  (0 < n)%nat → (a + n ≤ length samples)%nat → last (take n (drop a samples)) = Some x →
  x = sample_at samples (a + n - 1).
Proof.
  intros Hn Hle. rewrite last_lookup, length_take, length_drop.
  replace (Nat.pred (n `min` (length samples - a))) with (n - 1)%nat by lia.
  rewrite lookup_take_lt, lookup_drop by lia. intros Hx.
  rewrite <- (sample_at_lookup _ _ _ Hx). f_equal. lia.
Qed.

Lemma ping_pong_window_sound policy e W :
  ping_pong_window policy e = Some W → ping_pong policy e W.
Proof.
  unfold ping_pong_window. set (samples := transfers_of policy e).
  destruct (scan_scanned policy samples) as [_ _ _ Hend Hbest _].
  set (r := scan policy samples) in *. set (stop := (Run.best_start r + Run.best_length r)%nat) in *.
  set (ws := trim_window _ _ _ _ _).
  destruct (Nat.ltb_spec (length samples) 2); [done|].
  destruct (Nat.ltb_spec (Run.best_length r) (Z.to_nat (PingPongPolicy.min_alternations policy + 1)));
    [done|].
  destruct (Nat.ltb_spec (stop - ws) (Z.to_nat (PingPongPolicy.min_alternations policy + 1))) as [|Hlong];
    [done|].
  destruct (Z.ltb_spec (Z.of_nat (size (window_participants (take (stop - ws) (drop ws samples)))))
    (PingPongPolicy.min_participants policy)) as [|Hpart]; [done|].
  intros [= <-]. set (W := take _ _) in *.
  assert (Run.best_start r ≤ ws ≤ stop)%nat as Hws by apply trim_window_bounds.
  assert (length W = stop - ws)%nat as HlenW.
  { subst W. rewrite length_take, length_drop. lia. }
  assert (chained policy W) as Hc.
  { apply linked_chained. replace (stop - ws)%nat with (Run.best_start r + Run.best_length r - ws)%nat
      by done. by apply linked_suffix; [lia|]. }
  pose proof (slice_segment samples ws (stop - ws)) as Hseg. fold W in Hseg.
  assert (StronglySorted sample_le W) as HsW by (by eapply segment_sorted).
  split; try done.
  - by eexists _, _.
  - intros x Hx. assert (x ∈ transfers_of policy e) as [Ht Hin]%elem_of_transfers.
    { unfold samples in Hseg. rewrite Hseg. set_solver. }
    split; [done|]. unfold is_transfer in Ht. rewrite !andb_true_iff, Z.leb_le in Ht. tauto.
  - intros x Hx. by eapply chained_participants.
  - unfold zlen. lia.
  - intros x y. apply sorted_span; [done|]. intros h l Hh Hl.
    assert (0 < length W)%nat by by eapply lookup_lt_Some.
    apply slice_last in Hl; [|lia..].
    apply lookup_take_Some in Hh as [Hh _]. rewrite lookup_drop, Nat.add_0_r in Hh.
    pose proof (trim_window_fits samples (OwnershipSample.timestamp_ns (sample_at samples (stop - 1)))
      (PingPongPolicy.window_ns policy) (Run.best_length r) (Run.best_start r)) as Hfit.
    fold ws in Hfit. rewrite (sample_at_lookup _ _ _ Hh) in Hfit.
    rewrite Hl. replace (ws + (stop - ws) - 1)%nat with (stop - 1)%nat by lia. apply Hfit. lia.
Qed.

Lemma ping_pong_window_found (policy : PingPongPolicy.t) (e : RegionEvidence.t)
    (pre W post : list OwnershipSample.t)
  (Hseg : transfers_of policy e = pre ++ W ++ post) (Hchain : chained policy W)
  (Hlong : 1 < zlen W ∧ PingPongPolicy.min_alternations policy + 1 ≤ zlen W)
  (Hfits : ∀ pre R post, transfers_of policy e = pre ++ R ++ post → chained policy R →
     ∀ x y, x ∈ R → y ∈ R →
     OwnershipSample.timestamp_ns y - OwnershipSample.timestamp_ns x ≤ PingPongPolicy.window_ns policy)
  (Hdistinct : ∀ x, x ∈ transfers_of policy e → from_id x ≠ to_id x)
  (Hpart : PingPongPolicy.min_participants policy ≤ 2) :
  ∃ best, ping_pong_window policy e = Some best ∧ zlen W ≤ zlen best.
Proof.
  unfold ping_pong_window. set (samples := transfers_of policy e) in *.
  destruct (scan_scanned policy samples) as [_ _ _ Hend Hbest Hmax].
  set (r := scan policy samples) in *. set (stop := (Run.best_start r + Run.best_length r)%nat) in *.
  assert (length W ≤ Run.best_length r)%nat as HW.
  { apply (Hmax (length pre)); rewrite Hseg; [rewrite !length_app; lia|by apply chained_linked]. }
  assert (length W ≤ length samples)%nat by lia.
  pose proof (slice_segment samples (Run.best_start r) (Run.best_length r)) as Hb.
  set (B := take (Run.best_length r) (drop (Run.best_start r) samples)) in *.
  assert (length B = Run.best_length r) as HlenB.
  { subst B. rewrite length_take, length_drop. lia. }
  assert (chained policy B) as HcB by by apply linked_chained.
  unfold zlen in *.
  destruct (lookup_lt_is_Some_2 B 0) as [h Hh]; [lia|].
  assert (h ∈ B) as HhB by by eapply list_elem_of_lookup_2.
  destruct (last B) as [l|] eqn:Hl; [|apply last_None in Hl; subst B; rewrite Hl in Hh; done].
  assert (l ∈ B) as HlB.
  { apply last_Some in Hl as [k ->]. apply elem_of_app. right. by apply list_elem_of_singleton. }
  rewrite trim_window_id.
  2:{ replace (sample_at samples (stop - 1)) with l by (apply slice_last in Hl; [done|lia|lia]).
      replace (sample_at samples (Run.best_start r)) with h; [by eapply Hfits|].
      apply lookup_take_Some in Hh as [Hh _]. rewrite lookup_drop, Nat.add_0_r in Hh.
      by apply sample_at_lookup in Hh. }
  replace (stop - Run.best_start r)%nat with (Run.best_length r) by lia. fold B.
  rewrite (chained_participants _ _ _ HcB HhB), size_union.
  2:{ enough (from_id h ≠ to_id h) by set_solver. apply Hdistinct. rewrite Hb. set_solver. }
  rewrite !size_singleton.
  destruct (Nat.ltb_spec (length samples) 2); [lia|].
  destruct (Nat.ltb_spec (Run.best_length r) (Z.to_nat (PingPongPolicy.min_alternations policy + 1)));
    [lia|].
  destruct (Z.ltb_spec (Z.of_nat (1 + 1)) (PingPongPolicy.min_participants policy)); [lia|].
  exists B. split; [done|]. lia.
Qed.

(** ** The findings *)

Definition ref_bound : nat := Z.to_nat Limits.kMaxEvidenceRefs.

Lemma take_app_take {A} n (l k : list A) : take n (take n l ++ k) = take n (l ++ k).
Proof.
  destruct (decide (length l ≤ n)%nat); [by rewrite (take_ge l)|].
  rewrite !take_app_le by (rewrite ?length_take; lia). by rewrite take_idemp.
Qed.

Lemma push_evidence_take ref f :
  (length (Finding.evidence f) ≤ ref_bound)%nat →
  Finding.evidence (push_evidence ref f) = take ref_bound (Finding.evidence f ++ [ref]).
Proof.
  intros H. unfold push_evidence, zlen. unfold ref_bound in *.
  destruct (Z.leb_spec Limits.kMaxEvidenceRefs (Z.of_nat (length (Finding.evidence f)))); simpl.
  - rewrite take_app_le by lia. rewrite take_ge by lia. done.
  - rewrite take_ge; [done|]. rewrite length_app. simpl. lia.
Qed.

(** One transfer changes the evidence, the participants and the rendered text. *)
Lemma note_transfer_frame first x f :
  let g := note_transfer first x f in
  Finding.alternations g = Finding.alternations f ∧ Finding.subject g = Finding.subject f
  ∧ Finding.kind g = Finding.kind f ∧ Finding.bindings g = Finding.bindings f
  ∧ ((length (Finding.evidence f) ≤ ref_bound)%nat →
     Finding.evidence g = take ref_bound (Finding.evidence f ++ [evidence_ref x])).
Proof.
  cbn zeta. unfold note_transfer. split_and!; try by unfold push_evidence; destruct (_ <=? _).
  intros H. change (Finding.evidence f) with
    (Finding.evidence (add_participant (to_id x) (add_participant (from_id x) f))) in *.
  by rewrite <- (push_evidence_take _ _ H).
Qed.

(** The rendering loop records the evidence of a prefix of the window, up to its
    bound, and keeps the rest of the finding. *)
Lemma render_spec first window p :
  (length (Finding.evidence (Pattern.finding p)) ≤ ref_bound)%nat →
  slen (Finding.direction_sequence (Pattern.finding p)) ≤ 160 →
  let q := render first window p in
  (∃ n, Finding.evidence (Pattern.finding q)
        = take ref_bound (Finding.evidence (Pattern.finding p) ++ take n (evidence_ref <$> window)))
  ∧ slen (Finding.direction_sequence (Pattern.finding q)) ≤ 160
  ∧ Finding.alternations (Pattern.finding q) = Finding.alternations (Pattern.finding p)
  ∧ Finding.subject (Pattern.finding q) = Finding.subject (Pattern.finding p)
  ∧ Finding.kind (Pattern.finding q) = Finding.kind (Pattern.finding p)
  ∧ Finding.bindings (Pattern.finding q) = Finding.bindings (Pattern.finding p).
Proof.
  revert first p. induction window as [|x window IH]; intros first p He Hd; cbn zeta; cbn [render].
  { split_and!; try done. exists 0%nat. by rewrite app_nil_r, take_ge. }
  destruct (note_transfer_frame first x (Pattern.finding p)) as (Ha & Hs & Hk & Hb & Hev).
  set (f := note_transfer first x (Pattern.finding p)) in *. specialize (Hev He).
  rewrite Z.gtb_ltb. destruct (Z.ltb_spec 160 (slen (Finding.direction_sequence f))) as [|Hd'].
  - split_and!; try done; [by exists 1%nat|by apply truncate_length].
  - match goal with |- context [render false window ?q] => set (p' := q) end.
    destruct (IH false p') as ([n Hn] & IHd & -> & -> & -> & ->);
      [cbn [Pattern.finding p']; rewrite Hev, length_take; lia|done|].
    split_and!; try done. exists (S n). rewrite Hn. cbn [Pattern.finding p'].
    rewrite Hev, take_app_take. by rewrite <- app_assoc.
Qed.

Lemma close_pattern_frame s policy e W p :
  let g := close_pattern s policy e W p in
  let f := Pattern.finding p in
  Finding.alternations g = Finding.alternations f ∧ Finding.subject g = Finding.subject f
  ∧ Finding.kind g = Finding.kind f ∧ Finding.evidence g = Finding.evidence f
  ∧ Finding.direction_sequence g = Finding.direction_sequence f
  ∧ Finding.bindings g = Finding.bindings f
  ∧ Finding.precision g = Pattern.weakest_precision p ∧ Finding.reality g = Pattern.reality p.
Proof. unfold close_pattern, note_evicted. by destruct (RegionEvidence.evicted e =? 0). Qed.

Lemma open_pattern_fields s key W :
  let f := Pattern.finding (open_pattern s key W) in
  Finding.alternations f = zlen W - 1 ∧ Finding.subject f = key
  ∧ Finding.kind f = FindingKind.PingPong ∧ Finding.evidence f = [] ∧ Finding.direction_sequence f = ""
  ∧ GenerationBindings.region_generation_bound (Finding.bindings f)
    = bool_decide (is_Some (State.regions s !! key))
  ∧ ∀ r, State.regions s !! key = Some r →
    GenerationBindings.region_generation (Finding.bindings f) = RegionRecord.generation r.
Proof.
  unfold open_pattern, bind_region_generation. destruct (State.regions s !! key) as [r|].
  - rewrite bool_decide_true by done. split_and!; try done. by intros ? [= ->].
  - rewrite bool_decide_false by (by intros []). by split_and!.
Qed.

Definition describes (s : State.t) (key : string) (W : list OwnershipSample.t) (f : Finding.t) : Prop :=
  Finding.kind f = FindingKind.PingPong ∧ Finding.subject f = key
  ∧ Finding.alternations f = zlen W - 1
  ∧ slen (Finding.direction_sequence f) ≤ 160
  ∧ (∃ n, Finding.evidence f = take n (evidence_ref <$> W) ∧ (n ≤ ref_bound)%nat)
  ∧ GenerationBindings.region_generation_bound (Finding.bindings f)
    = bool_decide (is_Some (State.regions s !! key))
  ∧ ∀ r, State.regions s !! key = Some r →
    GenerationBindings.region_generation (Finding.bindings f) = RegionRecord.generation r.

Lemma ping_pong_finding_describes s policy key e W :
  describes s key W (ping_pong_finding s policy key e W).
Proof.
  unfold ping_pong_finding. destruct (open_pattern_fields s key W) as (Ha0 & Hs0 & Hk0 & He0 & Hd0 & Hb0 & Hg0).
  destruct (render_spec true W (open_pattern s key W)) as ([n Hn] & Hd & Ha & Hs & Hk & Hb).
  { rewrite He0. apply Nat.le_0_l. }
  { by rewrite Hd0. }
  destruct (close_pattern_frame s policy e W (render true W (open_pattern s key W)))
    as (Ca & Cs & Ck & Ce & Cd & Cb & _).
  unfold describes. rewrite Ca, Cs, Ck, Ce, Cd, Cb, Ha, Hs, Hk, Hb, Hn, He0, Ha0, Hs0, Hk0.
  split_and!; try done.
  exists (ref_bound `min` n)%nat. rewrite app_nil_l, take_take. split; [done|apply Nat.le_min_l].
Qed.

(** Two transfers that alternate, soon after each other, and a window of such. *)
Definition alternating (policy : PingPongPolicy.t) (W : list OwnershipSample.t) : Prop :=
  ∀ i x y, W !! i = Some x → W !! S i = Some y →
    from_id x = to_id y ∧ to_id x = from_id y
    ∧ OwnershipSample.timestamp_ns y - OwnershipSample.timestamp_ns x ≤ PingPongPolicy.max_gap_ns policy.

Lemma alternating_chained policy W : alternating policy W → chained policy W.
Proof. intros H i x y Hx Hy. destruct (H i x y Hx Hy) as (H1 & H2 & H3). split; [by left|done]. Qed.

(** No run of transfers between two resources outlasts the window of the policy. *)
Definition runs_fit (policy : PingPongPolicy.t) (e : RegionEvidence.t) : Prop :=
  ∀ pre R post, transfers_of policy e = pre ++ R ++ post → chained policy R →
    ∀ x y, x ∈ R → y ∈ R →
    OwnershipSample.timestamp_ns y - OwnershipSample.timestamp_ns x ≤ PingPongPolicy.window_ns policy.

(** Claim C28. Ping-pong findings are backed by evidence, and alternation is found.  Every
    finding describes a window of consecutive, time-ordered retained transfers of its
    region, of at least the minimum precision, each between the same two resources as its
    predecessor (in either direction), with no gap above [max_gap_ns], within [window_ns],
    of at least [min_alternations + 1] samples: it counts them, cites only them (at most
    32), bounds the rendered sequence and binds the region's current generation exactly
    when the region is registered.  Conversely, where the finding bound does not cut in,
    two participants are enough, every transfer is between two resources and no run of
    transfers outlasts the window, a region with a long enough run of alternating transfers
    is reported, with a window at least as long.  (A longer run of which only the end fits
    the window can hide a shorter one.) *)
Theorem analyze_ping_pong_exact (s : State.t) (policy : PingPongPolicy.t) :
  (∀ f, f ∈ analyze_ping_pong s policy →
     ∃ key e W, State.region_evidence s !! key = Some e ∧ ping_pong policy e W ∧ describes s key W f)
  ∧ (zsize (State.region_evidence s) ≤ PingPongPolicy.max_findings policy →
     PingPongPolicy.min_participants policy ≤ 2 →
     ∀ key e pre W post, State.region_evidence s !! key = Some e →
       transfers_of policy e = pre ++ W ++ post → alternating policy W →
       1 < zlen W → PingPongPolicy.min_alternations policy + 1 ≤ zlen W →
       (∀ x, x ∈ transfers_of policy e → from_id x ≠ to_id x) → runs_fit policy e →
       ∃ f best, f ∈ analyze_ping_pong s policy ∧ ping_pong policy e best ∧ describes s key best f
         ∧ zlen W ≤ zlen best).
Proof.
  assert (∀ x, zlen (ping_pong_region s policy x) ≤ 1) as Hone.
  { intros x. unfold ping_pong_region. by case_match. }
  split.
  - intros f Hf%elem_of_finalize. apply elem_of_walk in Hf as (key & e & He & Hf).
    unfold ping_pong_region in Hf. simpl in Hf.
    destruct (ping_pong_window policy e) as [W|] eqn:EW; [|by apply not_elem_of_nil in Hf].
    apply list_elem_of_singleton in Hf as ->. exists key, e, W. split_and!; try done.
    + by apply ping_pong_window_sound.
    + apply ping_pong_finding_describes.
  - intros Hsize Hpart key e pre W post He Eseg Halt H1 Hlong Hdist Hfit.
    destruct (ping_pong_window_found policy e pre W post) as (best & EW & Hbest);
      [done|by apply alternating_chained|done..|].
    exists (ping_pong_finding s policy key e best), best.
    split; [|by split_and!; [apply ping_pong_window_sound|apply ping_pong_finding_describes|]].
    eapply walk_complete; [done..|]. unfold ping_pong_region. simpl. rewrite EW.
    by apply list_elem_of_singleton.
Qed.

(** When no chain of a region's transfers outlasts the policy's window,
    a chain of at least [min_alternations + 1] transfers is never missed: the
    detector reports a window, and one at least as long as any chain. *)
Theorem ping_pong_window_complete (policy : PingPongPolicy.t) (e : RegionEvidence.t)
    (pre W post : list OwnershipSample.t)
  (Hseg : transfers_of policy e = pre ++ W ++ post) (Hchain : chained policy W)
  (Hlong : 1 < zlen W ∧ PingPongPolicy.min_alternations policy + 1 ≤ zlen W)
  (Hfits : ∀ pre R post, transfers_of policy e = pre ++ R ++ post → chained policy R →
     ∀ x y, x ∈ R → y ∈ R →
     OwnershipSample.timestamp_ns y - OwnershipSample.timestamp_ns x ≤ PingPongPolicy.window_ns policy)
  (Hdistinct : ∀ x, x ∈ transfers_of policy e → from_id x ≠ to_id x)
  (Hpart : PingPongPolicy.min_participants policy ≤ 2) :
  ∃ best, ping_pong_window policy e = Some best ∧ zlen W ≤ zlen best.
Proof. by eapply ping_pong_window_found. Qed.

(** Transfers of one direction chain like alternating ones. *)
Lemma one_way_chained policy W a b :
  (∀ x, x ∈ W → from_id x = a ∧ to_id x = b) →
  (∀ i x y, W !! i = Some x → W !! S i = Some y →
     OwnershipSample.timestamp_ns y - OwnershipSample.timestamp_ns x ≤ PingPongPolicy.max_gap_ns policy) →
  chained policy W.
Proof.
  intros Hw Hgap i x y Hx Hy. split; [|by eapply Hgap]. right.
  destruct (Hw x) as [-> ->]; [by eapply list_elem_of_lookup_2|].
  destruct (Hw y) as [-> ->]; [by eapply list_elem_of_lookup_2|done].
Qed.

(** A region whose ownership only ever moves one way, from [a] to [b],
    is reported as a ping-pong with "alternations": the second test of the
    detector's [alternates] accepts a transfer in the same direction as its
    predecessor. *)
Theorem one_way_transfers_reported (s : State.t) (policy : PingPongPolicy.t) (key : string)
    (e : RegionEvidence.t) (a b : string)
  (Htracked : State.region_evidence s !! key = Some e)
  (Hone_way : ∀ x, x ∈ transfers_of policy e → from_id x = a ∧ to_id x = b) (Hab : a ≠ b)
  (Hgaps : ∀ i x y, transfers_of policy e !! i = Some x → transfers_of policy e !! S i = Some y →
     OwnershipSample.timestamp_ns y - OwnershipSample.timestamp_ns x ≤ PingPongPolicy.max_gap_ns policy)
  (Hspan : ∀ x y, x ∈ transfers_of policy e → y ∈ transfers_of policy e →
     OwnershipSample.timestamp_ns y - OwnershipSample.timestamp_ns x ≤ PingPongPolicy.window_ns policy)
  (Hlong : 1 < zlen (transfers_of policy e)
           ∧ PingPongPolicy.min_alternations policy + 1 ≤ zlen (transfers_of policy e))
  (Hpart : PingPongPolicy.min_participants policy ≤ 2)
  (Hroom : zsize (State.region_evidence s) ≤ PingPongPolicy.max_findings policy) :
  ∃ f, f ∈ analyze_ping_pong s policy ∧ Finding.subject f = key
       ∧ Finding.alternations f = zlen (transfers_of policy e) - 1.
Proof.
  destruct (ping_pong_window_found policy e [] (transfers_of policy e) []) as (W & HW & Hlen);
    try done.
  - by rewrite app_nil_r.
  - by eapply one_way_chained.
  - intros pre R post E _ x y Hx Hy. apply Hspan; rewrite E; set_solver.
  - intros x [-> ->]%Hone_way. done.
  - destruct (ping_pong_window_sound _ _ _ HW) as [(pre & post & E) _ _ _ _ _ _ _].
    assert (zlen W = zlen (transfers_of policy e)) as Hl.
    { rewrite E, !zlen_app in *. pose proof (zlen_nonneg pre). pose proof (zlen_nonneg post). lia. }
    exists (ping_pong_finding s policy key e W).
    destruct (ping_pong_finding_describes s policy key e W) as (_ & Hs & Ha & _).
    split_and!; [|done|by rewrite Ha, Hl].
    eapply walk_complete; [|done..|].
    + intros x. unfold ping_pong_region. by case_match.
    + unfold ping_pong_region. simpl. rewrite HW. by apply list_elem_of_singleton.
Qed.

(** *** Concrete evidence *)

Definition hop (from to : string) (at_ns : Z) (provenance : Provenance.t) : OwnershipSample.t :=
  OwnershipSample.mk at_ns at_ns at_ns (ResourceRef.mk ResourceKind.Accelerator from 1)
    (ResourceRef.mk ResourceKind.Accelerator to 1) EventType.OwnershipTransfer
    CoherenceState.Unknown CoherenceState.Unknown AccessDirection.None Precision.ExactEvent
    provenance EvidenceGranularity.Region "pub" 1 1 "".
Definition hops (l : list OwnershipSample.t) : RegionEvidence.t :=
  RegionEvidence.mk l (zlen l) 0 0.
Definition tracked (e : RegionEvidence.t) : State.t :=
  (State.initial ObservatoryOptions.default) <| State.region_evidence := {[ "r" := e ]} |>.

Definition there_and_back : RegionEvidence.t :=
  hops [hop "a" "b" 10 Provenance.RuntimeInstrumentation; hop "b" "a" 20 Provenance.RuntimeInstrumentation;
        hop "a" "b" 30 Provenance.RuntimeInstrumentation; hop "b" "a" 40 Provenance.RuntimeInstrumentation;
        hop "a" "b" 50 Provenance.RuntimeInstrumentation].
Definition one_way : RegionEvidence.t :=
  hops [hop "a" "b" 10 Provenance.RuntimeInstrumentation; hop "a" "b" 20 Provenance.RuntimeInstrumentation;
        hop "a" "b" 30 Provenance.RuntimeInstrumentation; hop "a" "b" 40 Provenance.RuntimeInstrumentation;
        hop "a" "b" 50 Provenance.RuntimeInstrumentation].

Lemma there_and_back_transfers :
  transfers_of PingPongPolicy.default there_and_back = RegionEvidence.samples there_and_back.
Proof. by vm_compute. Qed.
Lemma there_and_back_alternates : alternating PingPongPolicy.default (RegionEvidence.samples there_and_back).
Proof.
  intros i x y. do 5 (destruct i as [|i]; [intros [= <-] [= <-]; vm_compute; naive_solver|]). done.
Qed.
Lemma there_and_back_distinct x :
  x ∈ transfers_of PingPongPolicy.default there_and_back → from_id x ≠ to_id x.
Proof. rewrite there_and_back_transfers. intros Hx. simpl in Hx. set_unfold in Hx. destruct_or!; subst; done. Qed.
Lemma there_and_back_fits : runs_fit PingPongPolicy.default there_and_back.
Proof.
  intros pre R post ER _ x y Hx Hy.
  assert (x ∈ RegionEvidence.samples there_and_back ∧ y ∈ RegionEvidence.samples there_and_back)
    as [Hx' Hy'] by (rewrite <- there_and_back_transfers, ER; set_solver).
  clear -Hx' Hy'. simpl in *. set_unfold in Hx'. set_unfold in Hy'. destruct_or!; subst; vm_compute; done.
Qed.

Lemma analyze_ping_pong_exact_witness :
  ∃ f best, f ∈ analyze_ping_pong (tracked there_and_back) PingPongPolicy.default
    ∧ describes (tracked there_and_back) "r" best f ∧ 5 ≤ zlen best.
Proof.
  destruct (analyze_ping_pong_exact (tracked there_and_back) PingPongPolicy.default) as [_ H].
  destruct (H ltac:(by vm_compute) ltac:(by vm_compute) "r"%string there_and_back []
    (RegionEvidence.samples there_and_back) []) as (f & best & Hf & _ & Hd & Hl);
    [by vm_compute|by vm_compute|exact there_and_back_alternates|by vm_compute|by vm_compute
    |exact there_and_back_distinct|exact there_and_back_fits|].
  exists f, best. split; [exact Hf|]. split; [exact Hd|exact Hl].
Defined.

Lemma one_way_transfers_reported_witness :
  State.region_evidence (tracked one_way) !! "r" = Some one_way
  ∧ ∃ f, f ∈ analyze_ping_pong (tracked one_way) PingPongPolicy.default
         ∧ Finding.subject f = "r" ∧ Finding.alternations f = 4.
Proof.
  assert (transfers_of PingPongPolicy.default one_way = RegionEvidence.samples one_way) as E
    by by vm_compute.
  split; [by vm_compute|].
  pose proof (one_way_transfers_reported (tracked one_way) PingPongPolicy.default "r" one_way "a" "b")
    as H.
  rewrite E in H. destruct H as (f & Hf & Hs & Ha).
  - by vm_compute.
  - intros x Hx. simpl in Hx. set_unfold in Hx. destruct_or!; subst; done.
  - done.
  - intros i x y. do 5 (destruct i as [|i]; [intros [= <-] [= <-]; by vm_compute|]). done.
  - intros x y Hx Hy. simpl in *. set_unfold in Hx. set_unfold in Hy. destruct_or!; subst; vm_compute; done.
  - by vm_compute.
  - by vm_compute.
  - by vm_compute.
  - exists f. split; [exact Hf|]. split; [exact Hs|]. rewrite Ha. by vm_compute.
Defined.

Lemma direction_sequence_note first x f :
  Finding.direction_sequence (note_transfer first x f)
  = Finding.direction_sequence f +:+ (if first then "" else " ") +:+ from_id x +:+ ">" +:+ to_id x.
Proof. unfold note_transfer, push_evidence. by destruct (_ <=? _). Qed.

(** The loop over a window whose second transfer overfills the sequence. *)
Lemma render_two x y rest p :
  Finding.direction_sequence (Pattern.finding p) = "" →
  slen (from_id x) + slen (to_id x) + 1 ≤ 160 →
  160 < slen (from_id x) + slen (to_id x) + slen (from_id y) + slen (to_id y) + 3 →
  let q := render true (x :: y :: rest) p in
  Pattern.weakest_precision q = weakest (weakest (Pattern.weakest_precision p)
    (OwnershipSample.precision x)) (OwnershipSample.precision y)
  ∧ Pattern.reality q = combine_reality (combine_reality (Pattern.reality p)
      (reality_of (OwnershipSample.provenance x))) (reality_of (OwnershipSample.provenance y))
  ∧ Finding.alternations (Pattern.finding q) = Finding.alternations (Pattern.finding p)
  ∧ (Finding.evidence (Pattern.finding p) = [] →
     Finding.evidence (Pattern.finding q) = [evidence_ref x; evidence_ref y]).
Proof.
  intros Hd Hx Hy. cbn zeta. cbn [render Pattern.finding].
  set (f1 := note_transfer true x (Pattern.finding p)).
  assert (slen (Finding.direction_sequence f1) = slen (from_id x) + slen (to_id x) + 1) as H1.
  { subst f1. rewrite direction_sequence_note, Hd, !slen_app.
    change (slen ">") with 1. change (slen "") with 0. lia. }
  rewrite !Z.gtb_ltb. destruct (Z.ltb_spec 160 (slen (Finding.direction_sequence f1))); [lia|].
  set (f2 := note_transfer false y f1).
  assert (160 < slen (Finding.direction_sequence f2)) as H2.
  { subst f2. rewrite direction_sequence_note, !slen_app, H1.
    change (slen ">") with 1. change (slen " ") with 1. lia. }
  destruct (Z.ltb_spec 160 (slen (Finding.direction_sequence f2))); [|lia].
  destruct (note_transfer_frame true x (Pattern.finding p)) as (Ha1 & _ & _ & _ & He1).
  destruct (note_transfer_frame false y f1) as (Ha2 & _ & _ & _ & He2). fold f1 in Ha1, He1.
  fold f2 in Ha2, He2. split_and!; try done.
  - exact (eq_trans Ha2 Ha1).
  - intros He. change (Finding.evidence f2 = [evidence_ref x; evidence_ref y]).
    rewrite He in He1. rewrite He2, He1; [done|apply Nat.le_0_l|]. rewrite He1; [|apply Nat.le_0_l].
    apply Nat.leb_le. by vm_compute.
Qed.

(** Rendering stops at the first transfer that overfills the direction
    sequence, and with it everything else gathered in that loop: two transfers
    between resources with long names hide the rest of the window, so the
    finding's evidence, precision and reality cover those two samples only,
    whatever the others are, while its alternation count still covers them all. *)
Theorem long_names_hide_evidence (s : State.t) (policy : PingPongPolicy.t) (key : string)
    (e : RegionEvidence.t) (x y : OwnershipSample.t) (rest : list OwnershipSample.t)
  (Hfirst : slen (from_id x) + slen (to_id x) + 1 ≤ 160)
  (Hboth : 160 < slen (from_id x) + slen (to_id x) + slen (from_id y) + slen (to_id y) + 3) :
  let f := ping_pong_finding s policy key e (x :: y :: rest) in
  Finding.alternations f = zlen rest + 1
  ∧ Finding.evidence f = [evidence_ref x; evidence_ref y]
  ∧ Finding.precision f = weakest (weakest Precision.ExactEvent (OwnershipSample.precision x))
                            (OwnershipSample.precision y)
  ∧ Finding.reality f = combine_reality (combine_reality
      (reality_of (OwnershipSample.provenance x)) (reality_of (OwnershipSample.provenance x)))
      (reality_of (OwnershipSample.provenance y)).
Proof.
  cbn zeta. unfold ping_pong_finding. destruct (open_pattern_fields s key (x :: y :: rest))
    as (Ha0 & _ & _ & He0 & Hd0 & _).
  destruct (render_two x y rest (open_pattern s key (x :: y :: rest)) Hd0 Hfirst Hboth)
    as (Hp & Hr & Ha & He).
  destruct (close_pattern_frame s policy e (x :: y :: rest)
    (render true (x :: y :: rest) (open_pattern s key (x :: y :: rest)))) as (-> & _ & _ & -> & _ & _ & -> & ->).
  rewrite Hp, Hr, Ha, Ha0, (He He0), !zlen_cons. split; [lia|]. by split_and!.
Qed.

Definition long_name (c : string) : string := c +:+ "-accelerator-with-a-descriptive-name-of-fifty".
Definition half_synthetic : RegionEvidence.t :=
  hops [hop (long_name "a") (long_name "b") 10 Provenance.RuntimeInstrumentation;
        hop (long_name "b") (long_name "a") 20 Provenance.RuntimeInstrumentation;
        hop (long_name "a") (long_name "b") 30 Provenance.SyntheticBackend;
        hop (long_name "b") (long_name "a") 40 Provenance.SyntheticBackend;
        hop (long_name "a") (long_name "b") 50 Provenance.SyntheticBackend].

(** A window with three synthetic transfers of five is reported as REAL. *)
Lemma long_names_hide_evidence_witness :
  ping_pong_window PingPongPolicy.default half_synthetic = Some (RegionEvidence.samples half_synthetic)
  ∧ let f := ping_pong_finding (tracked half_synthetic) PingPongPolicy.default "r" half_synthetic
               (RegionEvidence.samples half_synthetic) in
    Finding.alternations f = 4 ∧ length (Finding.evidence f) = 2%nat ∧ Finding.reality f = Reality.Real.
Proof.
  split; [by vm_compute|]. cbv zeta.
  destruct (long_names_hide_evidence (tracked half_synthetic) PingPongPolicy.default "r" half_synthetic
    (sample_at (RegionEvidence.samples half_synthetic) 0)
    (sample_at (RegionEvidence.samples half_synthetic) 1)
    (drop 2 (RegionEvidence.samples half_synthetic))) as (Ha & He & _ & Hr);
    [by vm_compute..|].
  split; [exact Ha|]. split; [|exact Hr].
  exact (f_equal length He).
Defined.
