(* ===== verification/FalseSharing.v ===== *)
(** * False-sharing-like analysis

    [analyze_false_sharing] of [src/analysis.cpp]: per region, the retained
    samples of sufficient precision are accumulated per cache line, and the
    granularity of the evidence decides which contention class may be claimed. *)

From S2P Require Import Prelude Errors TextUtil Taxonomy Float64 Policies Cost Records Observation.
From S2P Require Import Aggregate Sequence State Attribution Findings PingPong.

(** ** Accumulation *)

Module LineState.
Record t := mk { writers : gset string; invalidations : Z; shared_reads : Z; writes : Z }.
#[global] Instance eta : Eta t := fun l =>
  mk (writers l) (invalidations l) (shared_reads l) (writes l).
Definition empty : t := mk ∅ 0 0 0.
End LineState.

(** The local variables of the loop over a region's samples. *)
Module Sharing.
Record t := mk {
  lines : gmap string LineState.t; any_line_identity : bool;
  total_invalidations : Z; total_shared_reads : Z; region_writers : gset string;
  finest : EvidenceGranularity.t; weakest_precision : Precision.t; provenance : Provenance.t;
  reality : Reality.t; have_sample : bool;
}.
#[global] Instance eta : Eta t := fun s =>
  mk (lines s) (any_line_identity s) (total_invalidations s) (total_shared_reads s)
    (region_writers s) (finest s) (weakest_precision s) (provenance s) (reality s) (have_sample s).
Definition init : t :=
  mk ∅ false 0 0 ∅ EvidenceGranularity.Unknown Precision.ExactEvent Provenance.Unknown
    Reality.Real false.
End Sharing.

Definition is_invalidation (t : EventType.t) : bool :=
  match t with
  | EventType.Invalidation | EventType.RegionInvalidation => true
  | _ => false
  end.

Definition is_write_sample (x : OwnershipSample.t) : bool :=
  match OwnershipSample.direction x with
  | AccessDirection.Write | AccessDirection.ReadModifyWrite => true
  | _ =>
      match OwnershipSample.type x with
      | EventType.RemoteWrite | EventType.WriteExclusiveTransition => true
      | _ => false
      end
  end.

(** The cache line a sample identifies. *)
Definition line_identity (x : OwnershipSample.t) : option string :=
  if bool_decide (OwnershipSample.granularity x = EvidenceGranularity.CacheLine)
     && negb (bool_decide (OwnershipSample.line_index x = ""))
  then Some (OwnershipSample.line_index x) else None.

(** The writer a sample adds. *)
Definition writer_of (x : OwnershipSample.t) : gset string :=
  if is_write_sample x && negb (ResourceRef.empty (OwnershipSample.from x))
  then {[ from_id x ]} else ∅.

Definition touch_line (x : OwnershipSample.t) (line : LineState.t) : LineState.t :=
  LineState.mk (LineState.writers line ∪ writer_of x)
    (if is_invalidation (OwnershipSample.type x) then u64_add (LineState.invalidations line) 1
     else LineState.invalidations line)
    (if bool_decide (OwnershipSample.type x = EventType.SharedRead)
     then u64_add (LineState.shared_reads line) 1 else LineState.shared_reads line)
    (if is_write_sample x then u64_add (LineState.writes line) 1 else LineState.writes line).

Definition precise (policy : FalseSharingPolicy.t) (x : OwnershipSample.t) : bool :=
  precision_rank (FalseSharingPolicy.min_precision policy)
  <=? precision_rank (OwnershipSample.precision x).

(** One iteration over a sample of sufficient precision. *)
Definition share_sample (s : Sharing.t) (x : OwnershipSample.t) : Sharing.t :=
  let line_key := default "unknown" (line_identity x) in
  let line := default LineState.empty (Sharing.lines s !! line_key) in
  Sharing.mk
    (<[line_key := touch_line x line]> (Sharing.lines s))
    (Sharing.any_line_identity s || bool_decide (is_Some (line_identity x)))
    (if is_invalidation (OwnershipSample.type x) then u64_add (Sharing.total_invalidations s) 1
     else Sharing.total_invalidations s)
    (if bool_decide (OwnershipSample.type x = EventType.SharedRead)
     then u64_add (Sharing.total_shared_reads s) 1 else Sharing.total_shared_reads s)
    (Sharing.region_writers s ∪ writer_of x)
    (if granularity_rank (Sharing.finest s) <? granularity_rank (OwnershipSample.granularity x)
     then OwnershipSample.granularity x else Sharing.finest s)
    (weakest (Sharing.weakest_precision s) (OwnershipSample.precision x))
    (OwnershipSample.provenance x)
    (combine_reality (Sharing.reality s) (reality_of (OwnershipSample.provenance x)))
    true.

Definition share_samples (policy : FalseSharingPolicy.t) (samples : list OwnershipSample.t)
  : Sharing.t :=
  foldl share_sample Sharing.init (List.filter (precise policy) samples).

(** ** Classification *)

(** The loop for the line with the most writers; ties keep the first line. *)
Definition hotter (best : Z * string) (line : string * LineState.t) : Z * string :=
  let n := Z.of_nat (size (LineState.writers line.2)) in
  if best.1 <? n then (n, line.1) else best.
Definition hottest (lines : gmap string LineState.t) : Z * string :=
  foldl hotter (0, "") (entries lines).

Definition quoted (text : string) : string :=
  String (Ascii.ascii_of_nat 34) text +:+ String (Ascii.ascii_of_nat 34) "".
Definition no_line_identity : string :=
  "cache-line identity (observation metadata key " +:+ quoted "line.index"
  +:+ ") is absent, so line-level false sharing cannot be established".

(** The [switch] over the finest granularity. *)
Definition classify (policy : FalseSharingPolicy.t) (s : Sharing.t) (f : Finding.t) : Finding.t :=
  let '(max_line_writers, hottest_line) := hottest (Sharing.lines s) in
  let min_writers := FalseSharingPolicy.min_distinct_writers policy in
  let enough_writers := (min_writers <=? max_line_writers)
    || (min_writers <=? Z.of_nat (size (Sharing.region_writers s))) in
  let enough_invalidations :=
    FalseSharingPolicy.min_invalidations policy <=? Sharing.total_invalidations s in
  let enough_reads := FalseSharingPolicy.min_shared_reads policy <=? Sharing.total_shared_reads s in
  match Sharing.finest s with
  | EvidenceGranularity.CacheLine =>
      if Sharing.any_line_identity s && (min_writers <=? max_line_writers) && enough_invalidations
      then
        add_plain "line.index" d0 ("line:" +:+ hottest_line)
          (add_reason finding_reason.kSharedReadWithInvalidations
            (add_reason finding_reason.kDistinctWritersPerLine
              (f <| Finding.contention := ContentionClass.CacheLineFalseSharingSupported |>)))
      else if negb (Sharing.any_line_identity s) then
        let f := add_reason finding_reason.kInsufficientGranularity
          (f <| Finding.contention := ContentionClass.InsufficientGranularity |>) in
        add_missing no_line_identity
          (f <| Finding.precision ::= λ p, weakest p Precision.AggregatedCounter |>)
      else
        add_reason finding_reason.kRegionLevelContention
          (f <| Finding.contention := ContentionClass.RegionContentionLikely |>)
  | EvidenceGranularity.Page =>
      add_plain "page.level" (d_of_Z 1) "page"
        (add_reason finding_reason.kRegionLevelContention
          (f <| Finding.contention := ContentionClass.PageLevelContention |>))
  | EvidenceGranularity.Region =>
      if enough_writers && (enough_invalidations || enough_reads) then
        add_reason finding_reason.kRegionLevelContention
          (f <| Finding.contention := ContentionClass.RegionContentionLikely |>)
      else f <| Finding.contention := ContentionClass.None |>
  | g =>
      add_missing ("evidence resolves only at " +:+ EvidenceGranularity.to_string g
                   +:+ " granularity; region or line contention cannot be established")
        (add_reason finding_reason.kInsufficientGranularity
          (f <| Finding.contention := ContentionClass.InsufficientGranularity |>))
  end.

(** The finding's identity and metrics, before the classification. *)
Definition sharing_metrics (st : State.t) (policy : FalseSharingPolicy.t) (key : string) (s : Sharing.t)
  : Finding.t :=
  let f := Finding.empty
    <| Finding.kind := FindingKind.FalseSharingLike |>
    <| Finding.subject_kind := "region" |>
    <| Finding.subject := key |>
    <| Finding.granularity := Sharing.finest s |>
    <| Finding.precision := Sharing.weakest_precision s |>
    <| Finding.provenance := Sharing.provenance s |>
    <| Finding.reality := Sharing.reality s |>
    <| Finding.bindings := current_bindings st |> in
  let f := default f (bind_region_generation st key f) in
  let f := add_metric "distinct_writers.region"
    (d_of_Z (Z.of_nat (size (Sharing.region_writers s)))) "resources"
    (d_of_Z (FalseSharingPolicy.min_distinct_writers policy)) true f in
  let f := add_metric "distinct_writers.line" (d_of_Z (hottest (Sharing.lines s)).1) "resources"
    (d_of_Z (FalseSharingPolicy.min_distinct_writers policy)) true f in
  let f := add_metric "invalidations" (d_of_Z (Sharing.total_invalidations s)) "invalidations"
    (d_of_Z (FalseSharingPolicy.min_invalidations policy)) true f in
  add_metric "shared_reads" (d_of_Z (Sharing.total_shared_reads s)) "reads"
    (d_of_Z (FalseSharingPolicy.min_shared_reads policy)) true f.

(** The references of all retained samples, up to the bound. *)
Definition push_samples (e : RegionEvidence.t) (f : Finding.t) : Finding.t :=
  foldl (λ f x, push_evidence (evidence_ref x) f) f (RegionEvidence.samples e).

(** The body of the loop over the tracked regions. *)
Definition false_sharing_region (st : State.t) (policy : FalseSharingPolicy.t)
    (entry : string * RegionEvidence.t) : list Finding.t :=
  let e := entry.2 in
  let s := share_samples policy (RegionEvidence.samples e) in
  if negb (Sharing.have_sample s) then []
  else
    let f := classify policy s (sharing_metrics st policy entry.1 s) in
    if decide (Finding.contention f = ContentionClass.None) then []
    else
      let f := note_evicted e (push_samples e f) in
      let f := f <| Finding.cost :=
        estimate_cost (ObservatoryOptions.cost_model (State.options st))
          (CostInputs.mk 0 0 0 (Sharing.total_invalidations s) 0 0 0 (-1)
             Locality.Unknown false (Sharing.weakest_precision s)) |> in
      [sort_finding f].

Definition analyze_false_sharing (st : State.t) (policy : FalseSharingPolicy.t) : list Finding.t :=
  finalize_findings (FalseSharingPolicy.max_findings policy)
    (concat (false_sharing_region st policy <$> entries (State.region_evidence st))).

(** ** What the accumulation computes *)

Definition line_key (x : OwnershipSample.t) : string := default "unknown" (line_identity x).
(** The distinct writers among the samples of one line key. *)
Definition writers_on (k : string) (l : list OwnershipSample.t) : gset string :=
  ⋃ (writer_of <$> List.filter (λ x, bool_decide (line_key x = k)) l).
Definition count_invalidations (l : list OwnershipSample.t) : Z :=
  zlen (List.filter (λ x, is_invalidation (OwnershipSample.type x)) l).

Definition count_shared_reads (l : list OwnershipSample.t) : Z :=
  zlen (List.filter (λ x, bool_decide (OwnershipSample.type x = EventType.SharedRead)) l).
(** The distinct writers among all samples. *)
Definition region_writers_of (l : list OwnershipSample.t) : gset string := ⋃ (writer_of <$> l).

Definition share (l : list OwnershipSample.t) : Sharing.t := foldl share_sample Sharing.init l.

Lemma share_snoc l x : share (l ++ [x]) = share_sample (share l) x.
Proof. unfold share. by rewrite foldl_app. Qed.

Lemma filter_snoc {A} (p : A → bool) l x :
  List.filter p (l ++ [x]) = List.filter p l ++ (if p x then [x] else []).
Proof. rewrite List.filter_app. simpl. by destruct (p x). Qed.

Lemma share_writers l k :
  LineState.writers (default LineState.empty (Sharing.lines (share l) !! k)) = writers_on k l.
Proof.
  induction l as [|x l IH] using rev_ind; [done|].
  rewrite share_snoc. unfold writers_on. rewrite filter_snoc, fmap_app, union_list_app_L.
  fold (writers_on k l). rewrite <- IH. cbn [Sharing.lines share_sample]. fold (line_key x).
  destruct (decide (line_key x = k)) as [<-|Hne].
  - rewrite lookup_insert_eq, bool_decide_true by done. simpl. set_solver.
  - rewrite lookup_insert_ne, bool_decide_false by done. simpl. set_solver.
Qed.

Lemma share_lines_dom l k :
  is_Some (Sharing.lines (share l) !! k) ↔ ∃ x, x ∈ l ∧ line_key x = k.
Proof.
  induction l as [|x l IH] using rev_ind.
  { split; [intros []; done|intros (x & Hx & _); by apply not_elem_of_nil in Hx]. }
  rewrite share_snoc. cbn [Sharing.lines share_sample]. fold (line_key x).
  rewrite lookup_insert_is_Some', IH. setoid_rewrite elem_of_app.
  setoid_rewrite list_elem_of_singleton. naive_solver.
Qed.

Lemma share_identity l :
  Sharing.any_line_identity (share l) = true ↔ ∃ x, x ∈ l ∧ is_Some (line_identity x).
Proof.
  induction l as [|x l IH] using rev_ind.
  { split; [done|intros (x & Hx & _); by apply not_elem_of_nil in Hx]. }
  rewrite share_snoc. cbn [Sharing.any_line_identity share_sample].
  rewrite orb_true_iff, bool_decide_eq_true, IH. setoid_rewrite elem_of_app.
  setoid_rewrite list_elem_of_singleton. naive_solver.
Qed.

Lemma share_invalidations l :
  zlen l ≤ u64_max → Sharing.total_invalidations (share l) = count_invalidations l.
Proof.
  induction l as [|x l IH] using rev_ind; [done|]. rewrite zlen_snoc. intros Hl.
  rewrite share_snoc. unfold count_invalidations. rewrite filter_snoc, zlen_app.
  fold (count_invalidations l). cbn [Sharing.total_invalidations share_sample].
  rewrite IH by lia.
  assert (count_invalidations l ≤ zlen l).
  { unfold count_invalidations, zlen. pose proof (List.filter_length_le
      (λ x, is_invalidation (OwnershipSample.type x)) l). lia. }
  pose proof (zlen_nonneg (List.filter (λ x, is_invalidation (OwnershipSample.type x)) l)).
  fold (count_invalidations l) in *.
  destruct (is_invalidation (OwnershipSample.type x)).
  - rewrite zlen_cons, zlen_nil. apply u64_add_small. unfold in_u64. lia.
  - rewrite zlen_nil. lia.
Qed.

Lemma share_reads l :
  zlen l ≤ u64_max → Sharing.total_shared_reads (share l) = count_shared_reads l.
Proof.
  induction l as [|x l IH] using rev_ind; [done|]. rewrite zlen_snoc. intros Hl.
  rewrite share_snoc. unfold count_shared_reads. rewrite filter_snoc, zlen_app.
  fold (count_shared_reads l). cbn [Sharing.total_shared_reads share_sample]. rewrite IH by lia.
  assert (0 ≤ count_shared_reads l ≤ zlen l).
  { unfold count_shared_reads, zlen. pose proof (List.filter_length_le
      (λ x, bool_decide (OwnershipSample.type x = EventType.SharedRead)) l). lia. }
  case_bool_decide; [rewrite zlen_cons, zlen_nil; apply u64_add_small; unfold in_u64; lia|rewrite zlen_nil; lia].
Qed.

Lemma share_region_writers l : Sharing.region_writers (share l) = region_writers_of l.
Proof.
  induction l as [|x l IH] using rev_ind; [done|]. rewrite share_snoc. cbn [Sharing.region_writers share_sample].
  rewrite IH. unfold region_writers_of. rewrite fmap_app, union_list_app_L. simpl. set_solver.
Qed.

Lemma writers_on_size k l : (size (writers_on k l) ≤ size (region_writers_of l))%nat.
Proof.
  apply subseteq_size. unfold writers_on, region_writers_of. induction l as [|x l IH]; [done|].
  cbn [List.filter]. case_bool_decide; cbn [fmap list_fmap union_list foldr]; set_solver.
Qed.

Lemma share_finest l x :
  x ∈ l → granularity_rank (OwnershipSample.granularity x) ≤ granularity_rank (Sharing.finest (share l)).
Proof.
  induction l as [|y l IH] using rev_ind; [by intros ?%not_elem_of_nil|].
  rewrite elem_of_app, list_elem_of_singleton, share_snoc. cbn [Sharing.finest share_sample].
  destruct (Z.ltb_spec (granularity_rank (Sharing.finest (share l)))
    (granularity_rank (OwnershipSample.granularity y))); intros [?%IH| ->]; lia.
Qed.

Lemma share_finest_attained l :
  Sharing.finest (share l) = EvidenceGranularity.Unknown
  ∨ ∃ x, x ∈ l ∧ OwnershipSample.granularity x = Sharing.finest (share l).
Proof.
  induction l as [|y l IH] using rev_ind; [by left|].
  rewrite share_snoc. cbn [Sharing.finest share_sample]. setoid_rewrite elem_of_app.
  setoid_rewrite list_elem_of_singleton. destruct (_ <? _); naive_solver.
Qed.

(** The hottest line has at least as many writers as any line, and is one. *)
Lemma hottest_from l best :
  let r := foldl hotter best l in
  (r = best ∨ ∃ line, line ∈ l ∧ r = (Z.of_nat (size (LineState.writers line.2)), line.1))
  ∧ best.1 ≤ r.1
  ∧ ∀ line, line ∈ l → Z.of_nat (size (LineState.writers line.2)) ≤ r.1.
Proof.
  revert best. induction l as [|line l IH]; intros best; cbn zeta; simpl.
  { split_and!; [by left|done|by intros ? ?%not_elem_of_nil]. }
  destruct (IH (hotter best line)) as (Hr & Hb & Hm).
  assert (best.1 ≤ (hotter best line).1 ∧ Z.of_nat (size (LineState.writers line.2)) ≤ (hotter best line).1
    ∧ (hotter best line = best
       ∨ hotter best line = (Z.of_nat (size (LineState.writers line.2)), line.1))) as (H1 & H2 & H3).
  { unfold hotter. destruct (Z.ltb_spec best.1 (Z.of_nat (size (LineState.writers line.2))));
      simpl; split_and!; auto; lia. }
  split_and!; [|lia|].
  - destruct Hr as [->|(l' & Hl' & ->)]; [|right; exists l'; split; set_solver].
    destruct H3 as [->| ->]; [by left|right; exists line; split; set_solver].
  - intros l' [->|Hl']%elem_of_cons; [lia|by apply Hm].
Qed.

Lemma hottest_share l :
  let r := hottest (Sharing.lines (share l)) in
  (∀ k, Z.of_nat (size (writers_on k l)) ≤ r.1)
  ∧ (0 < r.1 → ∃ x, x ∈ l ∧ line_key x = r.2 ∧ r.1 = Z.of_nat (size (writers_on r.2 l))).
Proof.
  cbn zeta. unfold hottest.
  destruct (hottest_from (entries (Sharing.lines (share l))) (0, "")) as (Hr & Hb & Hm).
  set (r := foldl _ _ _) in *. simpl in Hb. split.
  - intros k. rewrite <- share_writers. destruct (Sharing.lines (share l) !! k) as [line|] eqn:E.
    + apply (Hm (k, line)). by apply elem_of_entries.
    + change (Z.of_nat (size (∅ : gset string)) ≤ r.1). by rewrite size_empty.
  - intros Hpos. destruct Hr as [Hr|([k line] & Hl & Hr)]; [rewrite Hr in Hpos; simpl in Hpos; lia|].
    apply elem_of_entries in Hl. rewrite Hr. simpl.
    destruct (proj1 (share_lines_dom l k)) as (x & Hx & Hk); [by rewrite Hl|].
    exists x. split_and!; try done. by rewrite <- share_writers, Hl.
Qed.

(** ** What a finding claims *)

(** The class [classify] assigns, as a function of the accumulated evidence. *)
Definition contention_of (policy : FalseSharingPolicy.t) (s : Sharing.t) : ContentionClass.t :=
  let max_line_writers := (hottest (Sharing.lines s)).1 in
  let min_writers := FalseSharingPolicy.min_distinct_writers policy in
  let enough_invalidations :=
    FalseSharingPolicy.min_invalidations policy <=? Sharing.total_invalidations s in
  match Sharing.finest s with
  | EvidenceGranularity.CacheLine =>
      if negb (Sharing.any_line_identity s) then ContentionClass.InsufficientGranularity
      else if (min_writers <=? max_line_writers) && enough_invalidations
      then ContentionClass.CacheLineFalseSharingSupported
      else ContentionClass.RegionContentionLikely
  | EvidenceGranularity.Page => ContentionClass.PageLevelContention
  | EvidenceGranularity.Region =>
      if ((min_writers <=? max_line_writers)
          || (min_writers <=? Z.of_nat (size (Sharing.region_writers s))))
         && (enough_invalidations
             || (FalseSharingPolicy.min_shared_reads policy <=? Sharing.total_shared_reads s))
      then ContentionClass.RegionContentionLikely else ContentionClass.None
  | _ => ContentionClass.InsufficientGranularity
  end.

Lemma classify_frame policy s f :
  let g := classify policy s f in
  Finding.contention g = contention_of policy s
  ∧ Finding.subject g = Finding.subject f ∧ Finding.kind g = Finding.kind f
  ∧ Finding.granularity g = Finding.granularity f ∧ Finding.reality g = Finding.reality f.
Proof.
  cbn zeta. unfold classify, contention_of. destruct (hottest (Sharing.lines s)) as [n line]. cbn [fst].
  destruct (Sharing.finest s); try by split_and!.
  - destruct (Sharing.any_line_identity s); cbn [negb andb]; [|by split_and!].
    destruct ((_ <=? n) && _); by split_and!.
  - destruct (_ && _); by split_and!.
Qed.

Lemma push_evidence_frame ref f :
  let g := push_evidence ref f in
  Finding.contention g = Finding.contention f ∧ Finding.subject g = Finding.subject f
  ∧ Finding.kind g = Finding.kind f ∧ Finding.granularity g = Finding.granularity f
  ∧ Finding.reality g = Finding.reality f.
Proof. unfold push_evidence. by destruct (_ <=? _). Qed.

Lemma push_samples_frame e f :
  let g := push_samples e f in
  Finding.contention g = Finding.contention f ∧ Finding.subject g = Finding.subject f
  ∧ Finding.kind g = Finding.kind f ∧ Finding.granularity g = Finding.granularity f
  ∧ Finding.reality g = Finding.reality f.
Proof.
  cbn zeta. unfold push_samples. revert f. induction (RegionEvidence.samples e) as [|x l IH]; [done|].
  intros f. simpl. destruct (IH (push_evidence (evidence_ref x) f)) as (-> & -> & -> & -> & ->).
  apply push_evidence_frame.
Qed.

Lemma note_evicted_frame e f :
  let g := note_evicted e f in
  Finding.contention g = Finding.contention f ∧ Finding.subject g = Finding.subject f
  ∧ Finding.kind g = Finding.kind f ∧ Finding.granularity g = Finding.granularity f
  ∧ Finding.reality g = Finding.reality f.
Proof. unfold note_evicted. by destruct (_ =? _). Qed.

Lemma sharing_metrics_frame st policy key s :
  let g := sharing_metrics st policy key s in
  Finding.subject g = key ∧ Finding.kind g = FindingKind.FalseSharingLike
  ∧ Finding.granularity g = Sharing.finest s ∧ Finding.reality g = Sharing.reality s.
Proof. unfold sharing_metrics, bind_region_generation. by destruct (State.regions st !! key). Qed.

Lemma false_sharing_region_spec st policy key e f :
  f ∈ false_sharing_region st policy (key, e) →
  let s := share_samples policy (RegionEvidence.samples e) in
  Sharing.have_sample s = true
  ∧ Finding.subject f = key ∧ Finding.kind f = FindingKind.FalseSharingLike
  ∧ Finding.granularity f = Sharing.finest s ∧ Finding.reality f = Sharing.reality s
  ∧ Finding.contention f = contention_of policy s ∧ contention_of policy s ≠ ContentionClass.None.
Proof.
  unfold false_sharing_region. cbn [fst snd]. set (s := share_samples _ _).
  destruct (Sharing.have_sample s) eqn:Eh; cbn [negb]; [|by intros ?%not_elem_of_nil].
  destruct (classify_frame policy s (sharing_metrics st policy key s)) as (Hc & Hs & Hk & Hg & Hr).
  destruct (sharing_metrics_frame st policy key s) as (Ms & Mk & Mg & Mr).
  set (f0 := classify policy s _) in *. clearbody f0. case_decide as Hd; [by intros ?%not_elem_of_nil|].
  intros ->%list_elem_of_singleton.
  destruct (note_evicted_frame e (push_samples e f0)) as (Nc & Ns & Nk & Ng & Nr).
  destruct (push_samples_frame e f0) as (Pc & Ps & Pk & Pg & Pr).
  set (f1 := note_evicted e (push_samples e f0)) in *. clearbody f1.
  cbn zeta. split; [done|].
  change (Finding.subject f1 = key ∧ Finding.kind f1 = FindingKind.FalseSharingLike
    ∧ Finding.granularity f1 = Sharing.finest s ∧ Finding.reality f1 = Sharing.reality s
    ∧ Finding.contention f1 = contention_of policy s ∧ contention_of policy s ≠ ContentionClass.None).
  split_and!; congruence.
Qed.

(** What a contention class says of the samples [l] it was derived from.  A line that is
    shared falsely is identified where every sample identifies its line; otherwise the
    writers may be those of the unidentified samples. *)
Definition supports (policy : FalseSharingPolicy.t) (l : list OwnershipSample.t)
    (g : EvidenceGranularity.t) (c : ContentionClass.t) : Prop :=
  let min_writers := FalseSharingPolicy.min_distinct_writers policy in
  let min_invalidations := FalseSharingPolicy.min_invalidations policy in
  match c with
  | ContentionClass.CacheLineFalseSharingSupported =>
      g = EvidenceGranularity.CacheLine
      ∧ (∃ x, x ∈ l ∧ is_Some (line_identity x))
      ∧ min_writers ≤ Z.of_nat (size (region_writers_of l))
      ∧ min_invalidations ≤ count_invalidations l
      ∧ ((∀ x, x ∈ l → is_Some (line_identity x)) →
         ∃ x line, x ∈ l ∧ line_identity x = Some line ∧ min_writers ≤ Z.of_nat (size (writers_on line l)))
  | ContentionClass.RegionContentionLikely =>
      g = EvidenceGranularity.CacheLine ∧ (∃ x, x ∈ l ∧ is_Some (line_identity x))
        ∧ (count_invalidations l < min_invalidations
           ∨ ∀ line, Z.of_nat (size (writers_on line l)) < min_writers)
      ∨ g = EvidenceGranularity.Region ∧ min_writers ≤ Z.of_nat (size (region_writers_of l))
        ∧ (min_invalidations ≤ count_invalidations l
           ∨ FalseSharingPolicy.min_shared_reads policy ≤ count_shared_reads l)
  | ContentionClass.PageLevelContention => g = EvidenceGranularity.Page
  | ContentionClass.InsufficientGranularity =>
      granularity_rank g < granularity_rank EvidenceGranularity.Region
      ∨ g = EvidenceGranularity.CacheLine ∧ ∀ x, x ∈ l → line_identity x = None
  | ContentionClass.None => False
  end.

Lemma contention_supported policy l :
  0 < FalseSharingPolicy.min_distinct_writers policy → zlen l ≤ u64_max →
  contention_of policy (share l) ≠ ContentionClass.None →
  supports policy l (Sharing.finest (share l)) (contention_of policy (share l)).
Proof.
  intros Hmin Hl. destruct (hottest_share l) as [Hmax Hhot]. pose proof (share_identity l) as Hid.
  assert (∀ n, n ≤ (hottest (Sharing.lines (share l))).1 → 0 < n → n ≤ Z.of_nat (size (region_writers_of l))) as Hregion.
  { intros n Hn Hpos. destruct Hhot as (x & _ & _ & Hx); [lia|]. pose proof (writers_on_size (hottest (Sharing.lines (share l))).2 l). lia. }
  unfold contention_of. rewrite (share_invalidations l Hl), (share_reads l Hl), share_region_writers.
  destruct (Sharing.finest (share l)); try (intros _; simpl; (by left) || (left; lia)).
  - destruct (Sharing.any_line_identity (share l)); cbn [negb].
    + intros _. destruct (Z.leb_spec (FalseSharingPolicy.min_distinct_writers policy)
        (hottest (Sharing.lines (share l))).1) as [Hw|Hw]; cbn [andb].
      2: { left. split_and!; [done|by apply Hid|]. right. intros line. specialize (Hmax line). lia. }
      destruct (Z.leb_spec (FalseSharingPolicy.min_invalidations policy) (count_invalidations l));
        [|left; split_and!; [done|by apply Hid|by left]].
      destruct Hhot as (x & Hx & Hk & Hn); [lia|].
      split_and!; [done|by apply Hid|by apply Hregion|done|]. intros Hall. destruct (Hall x Hx) as [line Hline].
      exists x, line. split_and!; [done..|]. unfold line_key in Hk. rewrite Hline in Hk. cbn in Hk. rewrite Hk. lia.
    + intros _. right. split; [done|]. intros x Hx. destruct (line_identity x) eqn:E; [|done].
      assert (false = true); [apply Hid; by exists x|done].
  - done.
  - destruct (_ && _) eqn:E; [|done]. intros _. right. rewrite andb_true_iff, !orb_true_iff, !Z.leb_le in E.
    destruct E as [[H|H] Hcount]; (split; [done|]); (split; [|exact Hcount]); [by apply Hregion|exact H].
Qed.

(** Claim C29. A false-sharing finding claims no more than its region's evidence
    resolves.  Its granularity is the finest among the samples of sufficient precision.
    Cache-line false sharing is claimed only at line granularity, with some sample that
    identifies its line, [min_distinct_writers] distinct writers and [min_invalidations]
    invalidations in the region, and, if every sample identifies its line, that many
    writers on one identified line; contention at region granularity only with that many
    writers and enough invalidations or shared reads, at line granularity only where line
    false sharing is not supported; page-level contention only at page granularity; and
    line evidence without any line identity, or coarser evidence, is labelled insufficient.
    (Samples without identity count as one more line:
    [unidentified_writers_reported_as_line].) *)
Theorem analyze_false_sharing_sound (st : State.t) (policy : FalseSharingPolicy.t) (f : Finding.t)
  (Hmin : 0 < FalseSharingPolicy.min_distinct_writers policy)
  (Hf : f ∈ analyze_false_sharing st policy) :
  ∃ e, State.region_evidence st !! Finding.subject f = Some e
    ∧ Finding.kind f = FindingKind.FalseSharingLike
    ∧ let l := List.filter (precise policy) (RegionEvidence.samples e) in
      (∀ x, x ∈ l → granularity_rank (OwnershipSample.granularity x)
                    ≤ granularity_rank (Finding.granularity f))
      ∧ (Finding.granularity f = EvidenceGranularity.Unknown
         ∨ ∃ x, x ∈ l ∧ OwnershipSample.granularity x = Finding.granularity f)
      ∧ (zlen l ≤ u64_max → supports policy l (Finding.granularity f) (Finding.contention f)).
Proof.
  apply elem_of_finalize, elem_of_walk in Hf as (key & e & He & Hf).
  apply false_sharing_region_spec in Hf. cbn zeta in Hf. unfold share_samples in Hf.
  fold (share (List.filter (precise policy) (RegionEvidence.samples e))) in Hf.
  destruct Hf as (_ & -> & -> & -> & _ & -> & Hne).
  exists e. split; [done|]. split; [done|]. cbn zeta. split_and!.
  - intros x. apply share_finest.
  - apply share_finest_attained.
  - intros Hl. by apply contention_supported.
Qed.

(** The false-sharing analyser starts from REAL, so a finding derived
    from synthetic samples only is labelled MIXED instead of SYNTHETIC. *)
Theorem synthetic_false_sharing_labelled_mixed (st : State.t) (policy : FalseSharingPolicy.t)
    (f : Finding.t) (e : RegionEvidence.t)
  (Hf : f ∈ analyze_false_sharing st policy)
  (He : State.region_evidence st !! Finding.subject f = Some e)
  (Hsynthetic : ∀ x, x ∈ RegionEvidence.samples e →
     reality_of (OwnershipSample.provenance x) = Reality.Synthetic) :
  Finding.reality f = Reality.Mixed.
Proof.
  apply elem_of_finalize, elem_of_walk in Hf as (key & e' & He' & Hf).
  apply false_sharing_region_spec in Hf. cbn zeta in Hf. unfold share_samples in Hf.
  destruct Hf as (Hsome & Hs & _ & _ & -> & _). rewrite Hs, He' in He. injection He as ->.
  assert (∀ x, x ∈ List.filter (precise policy) (RegionEvidence.samples e) →
    reality_of (OwnershipSample.provenance x) = Reality.Synthetic) as Hl.
  { intros x. rewrite list_elem_of_In, filter_In, <- list_elem_of_In. naive_solver. }
  clear -Hsome Hl. fold (share (List.filter (precise policy) (RegionEvidence.samples e))) in *.
  destruct (List.filter (precise policy) (RegionEvidence.samples e)) as [|x l] using rev_ind; [done|].
  rewrite share_snoc. cbn [Sharing.reality share_sample]. rewrite (Hl x) by set_solver.
  unfold combine_reality. case_decide as Hd; [|done]. exfalso. revert Hd.
  assert (∀ y, y ∈ l → reality_of (OwnershipSample.provenance y) = Reality.Synthetic) as Hl' by set_solver.
  clear -Hl'. induction l as [|y l IH] using rev_ind; [done|].
  rewrite share_snoc. cbn [Sharing.reality share_sample]. rewrite (Hl' y) by set_solver.
  unfold combine_reality. case_decide; [|done]. intros _. apply IH; set_solver.
Qed.

(** *** Concrete evidence *)

Definition line_write (who line : string) (at_ns : Z) (provenance : Provenance.t) : OwnershipSample.t :=
  OwnershipSample.mk at_ns at_ns at_ns (ResourceRef.mk ResourceKind.Accelerator who 1)
    (ResourceRef.mk ResourceKind.Accelerator "home" 1) EventType.Invalidation
    CoherenceState.Unknown CoherenceState.Unknown AccessDirection.Write Precision.ExactEvent
    provenance EvidenceGranularity.CacheLine "pub" 1 1 line.

(** Two writers of one identified line. *)
Definition shared_line : RegionEvidence.t :=
  hops [line_write "a" "7" 1 Provenance.SyntheticBackend; line_write "b" "7" 2 Provenance.SyntheticBackend;
        line_write "a" "7" 3 Provenance.SyntheticBackend; line_write "b" "7" 4 Provenance.SyntheticBackend].

Definition reported (e : RegionEvidence.t) : option Finding.t :=
  head (analyze_false_sharing (tracked e) FalseSharingPolicy.default).

Lemma head_elem {A} (l : list A) x : head l = Some x → x ∈ l.
Proof. destruct l; [done|]. intros [= ->]. set_solver. Qed.

Lemma analyze_false_sharing_sound_witness :
  ∃ f e, f ∈ analyze_false_sharing (tracked shared_line) FalseSharingPolicy.default
    ∧ Finding.contention f = ContentionClass.CacheLineFalseSharingSupported
    ∧ supports FalseSharingPolicy.default (List.filter (precise FalseSharingPolicy.default)
        (RegionEvidence.samples e)) (Finding.granularity f) (Finding.contention f).
Proof.
  destruct (reported shared_line) as [f|] eqn:E; [|by vm_compute in E].
  assert (Finding.contention f = ContentionClass.CacheLineFalseSharingSupported
          ∧ Finding.subject f = "r") as [Hc Hs].
  { assert ((Finding.contention <$> reported shared_line) = Some ContentionClass.CacheLineFalseSharingSupported
      ∧ (Finding.subject <$> reported shared_line) = Some "r") as H by by vm_compute.
    rewrite E in H. simpl in H. naive_solver. }
  pose proof (head_elem _ _ E) as Hf.
  destruct (analyze_false_sharing_sound (tracked shared_line) FalseSharingPolicy.default f
    ltac:(by vm_compute) Hf) as (e & He & _ & _ & _ & Hsup).
  exists f, e. split; [exact Hf|]. split; [exact Hc|]. apply Hsup.
  rewrite Hs in He. vm_compute in He. injection He as <-. by vm_compute.
Defined.

Lemma synthetic_false_sharing_labelled_mixed_witness :
  ∃ f, f ∈ analyze_false_sharing (tracked shared_line) FalseSharingPolicy.default
    ∧ Finding.reality f = Reality.Mixed.
Proof.
  destruct (reported shared_line) as [f|] eqn:E; [|by vm_compute in E].
  assert (Finding.subject f = "r") as Hs.
  { assert ((Finding.subject <$> reported shared_line) = Some "r") as H by by vm_compute.
    rewrite E in H. simpl in H. naive_solver. }
  pose proof (head_elem _ _ E) as Hf. exists f. split; [exact Hf|].
  apply (synthetic_false_sharing_labelled_mixed _ _ f shared_line Hf).
  - rewrite Hs. by vm_compute.
  - intros x Hx. simpl in Hx. set_unfold in Hx. destruct_or!; subst; done.
Defined.

(** Three writers, of which only one names the line it wrote. *)
Definition one_named_line : RegionEvidence.t :=
  hops [line_write "a" "7" 1 Provenance.RuntimeInstrumentation;
        line_write "b" "" 2 Provenance.RuntimeInstrumentation;
        line_write "c" "" 3 Provenance.RuntimeInstrumentation;
        line_write "b" "" 4 Provenance.RuntimeInstrumentation].

(** Samples without a line identity are grouped under the key
    "unknown", and that group competes as if it were a line: here every
    identified line has a single writer, yet cache-line false sharing is
    reported, for the line "unknown". *)
Theorem unidentified_writers_reported_as_line :
  (∀ x line, x ∈ RegionEvidence.samples one_named_line → line_identity x = Some line →
     size (writers_on line (RegionEvidence.samples one_named_line)) = 1%nat)
  ∧ (λ f, (Finding.contention f, FindingMetric.unit_ <$> List.filter (λ m,
        bool_decide (FindingMetric.name m = "line.index")) (Finding.metrics f)))
      <$> analyze_false_sharing (tracked one_named_line) FalseSharingPolicy.default
    = [(ContentionClass.CacheLineFalseSharingSupported, ["line:unknown"])].
Proof.
  split; [|by vm_compute]. intros x line Hx Hline. simpl in Hx. set_unfold in Hx.
  destruct_or!; subst x; vm_compute in Hline; try discriminate. injection Hline as <-. by vm_compute.
Qed.
