(* ===== verification/Invalidations.v ===== *)
(** * Invalidation analysis

    [analyze_invalidations] of [src/analysis.cpp]: the retained observations that
    report an invalidation are grouped by region, source, target and region
    generation; each group's timestamps are scanned with a sliding window for
    bursts.  Reading past the end of the timestamps, which a negative window
    leads to, is [None]. *)

From S2P Require Import Prelude Errors TextUtil Taxonomy Float64 Policies Cost Records Observation.
From S2P Require Import Aggregate Sequence State Attribution Findings PingPong FalseSharing.

(** ** Data *)

Module InvalidationRow.
Record t := mk {
  source : string; target : string; region : string; region_generation : Z;
  state_before : CoherenceState.t; state_after : CoherenceState.t;
  individual_events : Z; aggregate_counter_invalidations : Z;
  burst_count : Z; max_burst_size : Z; bytes_invalidated : Z; cost : CostEstimate.t;
  granularity : EvidenceGranularity.t; precision : Precision.t; provenance : Provenance.t;
  reality : Reality.t;
}.
#[global] Instance eta : Eta t := fun r =>
  mk (source r) (target r) (region r) (region_generation r) (state_before r) (state_after r)
    (individual_events r) (aggregate_counter_invalidations r) (burst_count r) (max_burst_size r)
    (bytes_invalidated r) (cost r) (granularity r) (precision r) (provenance r) (reality r).
Definition empty : t :=
  mk "" "" "" 0 CoherenceState.Unknown CoherenceState.Unknown 0 0 0 0 0 CostEstimate.empty
    EvidenceGranularity.Unknown Precision.Unknown Provenance.Unknown Reality.Real.
End InvalidationRow.

Module Accum.
Record t := mk {
  row : InvalidationRow.t; timestamps : list Z; source : string; target : string;
  region : string; region_generation : Z;
}.
Definition empty : t := mk InvalidationRow.empty [] "" "" "" 0.
End Accum.

(** ** Grouping *)

(** The unit separator between the parts of a group's key. *)
Definition unit_separator : string := String (Ascii.ascii_of_nat 31) "".
Definition joined (parts : list string) : string := String.concat unit_separator parts.

Definition source_name (o : Observation.t) : string :=
  from_option ResourceRef.id "unknown" (Observation.source o).
Definition target_name (o : Observation.t) : string :=
  from_option ResourceRef.id "unknown" (Observation.target o).
Definition region_name (o : Observation.t) : string := default "unknown" (Observation.region o).
Definition generation_value (o : Observation.t) : Z := default 0 (Observation.region_generation o).

Definition invalidation_key (o : Observation.t) : string :=
  joined [region_name o; source_name o; target_name o; format_u64 (generation_value o)].

(** One observation added to its group; [None] is a group seen for the first time. *)
Definition accumulate_invalidation (o : Observation.t) (found : option Accum.t) : Accum.t :=
  let a := default Accum.empty found in
  let r := Accum.row a in
  let first_seen := negb (bool_decide (is_Some found)) in
  let row := r
    <| InvalidationRow.source := source_name o |>
    <| InvalidationRow.target := target_name o |>
    <| InvalidationRow.region ::= λ old, default old (Observation.region o) |>
    <| InvalidationRow.region_generation ::= λ old, default old (Observation.region_generation o) |>
    <| InvalidationRow.state_before := Observation.state_before o |>
    <| InvalidationRow.state_after := Observation.state_after o |>
    <| InvalidationRow.granularity := Observation.granularity o |>
    <| InvalidationRow.precision :=
         if InvalidationRow.individual_events r =? 0 then Observation.precision o
         else weakest (InvalidationRow.precision r) (Observation.precision o) |>
    <| InvalidationRow.provenance := Observation.provenance o |>
    <| InvalidationRow.reality ::= λ old, combine_reality old (reality_of (Observation.provenance o)) |>
    <| InvalidationRow.bytes_invalidated ::= λ n, u64_add n (Observation.bytes o) |>
    <| InvalidationRow.individual_events ::= λ n, u64_add n 1 |> in
  Accum.mk row (Accum.timestamps a ++ [Observation.timestamp_ns o])
    (if first_seen then source_name o else Accum.source a)
    (if first_seen then target_name o else Accum.target a)
    (if first_seen then region_name o else Accum.region a)
    (generation_value o).

(** The accumulated groups and the invalidations counters reported in bulk. *)
Definition group_invalidation (acc : gmap string Accum.t * Z) (entry : JournalEntry.t)
  : gmap string Accum.t * Z :=
  let '(groups, total) := acc in
  let o := JournalEntry.observation entry in
  match Observation.counter_delta o with
  | Some delta => (groups, if is_invalidation (Observation.type o) then u64_add total delta else total)
  | None =>
      if is_invalidation (Observation.type o) then
        let key := invalidation_key o in
        (<[key := accumulate_invalidation o (groups !! key)]> groups, total)
      else (groups, total)
  end.
Definition group_invalidations (journal : list JournalEntry.t) : gmap string Accum.t * Z :=
  foldl group_invalidation (∅, 0) journal.

(** ** Bursts *)

Module Burst.
Record t := mk { start : nat; burst_count : Z; max_burst : Z }.
Definition init : t := mk 0 0 0.
End Burst.

(** The inner loop: drop timestamps older than the window. *)
Fixpoint advance (timestamps : list Z) (window now : Z) (fuel start : nat) : option nat :=
  match timestamps !! start with
  | None => None
  | Some t =>
      if now - t >? window then
        match fuel with
        | O => None
        | S fuel => advance timestamps window now fuel (S start)
        end
      else Some start
  end.

(** [timestamps[i]], for an index inside the vector. *)
Definition time_at (timestamps : list Z) (i : nat) : Z := nth i timestamps 0.

Definition burst_step (policy : InvalidationPolicy.t) (timestamps : list Z) (b : Burst.t) (i : nat)
  : option Burst.t :=
  let now := time_at timestamps i in
  advance timestamps (InvalidationPolicy.burst_window_ns policy) now (length timestamps)
    (Burst.start b) ≫= λ start,
  let size := Z.of_nat i - Z.of_nat start + 1 in
  let threshold := InvalidationPolicy.burst_threshold policy in
  let counts := (threshold <=? size)
    && ((size =? threshold)
        || (Nat.ltb 0 i && negb (now =? time_at timestamps (i - 1)))) in
  Some (Burst.mk start
          (if counts then u64_add (Burst.burst_count b) 1 else Burst.burst_count b)
          (if Burst.max_burst b <? size then size else Burst.max_burst b)).

Definition scan_bursts (policy : InvalidationPolicy.t) (timestamps : list Z) : option Burst.t :=
  foldl (λ b i, b ≫= λ b, burst_step policy timestamps b i) (Some Burst.init)
    (seq 0 (length timestamps)).

(** ** Rows and findings *)

Definition sort_times (l : list Z) : list Z := stable_sort Z.le l.

(** The row of a group, once its bursts are known. *)
Definition finish_row (st : State.t) (a : Accum.t) (b : Burst.t) : InvalidationRow.t :=
  let r := Accum.row a in
  r <| InvalidationRow.burst_count := Burst.burst_count b |>
    <| InvalidationRow.max_burst_size := Burst.max_burst b |>
    <| InvalidationRow.cost :=
         estimate_cost (ObservatoryOptions.cost_model (State.options st))
           (CostInputs.mk (InvalidationRow.bytes_invalidated r) 0 0
              (InvalidationRow.individual_events r) 0 0 0 (-1) Locality.Unknown false
              (InvalidationRow.precision r)) |>.

Definition burst_finding (st : State.t) (policy : InvalidationPolicy.t) (a : Accum.t)
    (row : InvalidationRow.t) : Finding.t :=
  let threshold := d_of_Z (InvalidationPolicy.burst_threshold policy) in
  let f := Finding.empty
    <| Finding.kind := FindingKind.InvalidationBurst |>
    <| Finding.subject_kind := "region" |>
    <| Finding.subject := Accum.region a |>
    <| Finding.precision := InvalidationRow.precision row |>
    <| Finding.provenance := InvalidationRow.provenance row |>
    <| Finding.reality := InvalidationRow.reality row |>
    <| Finding.granularity := InvalidationRow.granularity row |>
    <| Finding.bindings := current_bindings st |> in
  let f := if Accum.region_generation a =? 0 then f
           else f <| Finding.bindings ::= λ b,
             b <| GenerationBindings.region_generation := Accum.region_generation a |>
               <| GenerationBindings.region_generation_bound := true |> |> in
  let f := add_reason finding_reason.kInvalidationBurst f in
  let f := add_plain "bursts" (d_of_Z (InvalidationRow.burst_count row)) "bursts" f in
  let f := add_metric "max_burst_size" (d_of_Z (InvalidationRow.max_burst_size row)) "invalidations"
             threshold true f in
  let f := add_metric "invalidations" (d_of_Z (InvalidationRow.individual_events row))
             "invalidations" threshold true f in
  let f := add_plain "bytes_invalidated" (d_of_Z (InvalidationRow.bytes_invalidated row)) "bytes" f in
  let f := add_participant (Accum.target a) (add_participant (Accum.source a) f) in
  sort_finding (f <| Finding.cost := InvalidationRow.cost row |>).

(** The body of the loop over the groups. *)
Definition invalidation_group (st : State.t) (policy : InvalidationPolicy.t)
    (entry : string * Accum.t) : option (InvalidationRow.t * list Finding.t) :=
  let a := entry.2 in
  b ← scan_bursts policy (sort_times (Accum.timestamps a));
  let row := finish_row st a b in
  Some (row, if Burst.burst_count b =? 0 then [] else [burst_finding st policy a row]).

Definition counter_note : string :=
  "these invalidations were reported by aggregate counters and carry no source, target or region identity; they are not per-region evidence".

(** The finding about invalidations known only from counters. *)
Definition counter_invalidations (st : State.t) (total : Z) : list Finding.t :=
  if total =? 0 then []
  else
    let f := Finding.empty
      <| Finding.kind := FindingKind.InvalidationBurst |>
      <| Finding.subject_kind := "system" |>
      <| Finding.subject := "aggregate-invalidation-counters" |>
      <| Finding.precision := Precision.AggregatedCounter |>
      <| Finding.provenance := Provenance.DerivedAggregation |>
      <| Finding.reality := Reality.Mixed |>
      <| Finding.granularity := EvidenceGranularity.Aggregate |>
      <| Finding.bindings := current_bindings st |> in
    [sort_finding (add_plain "aggregate_counter_invalidations" (d_of_Z total) "invalidations"
       (add_missing counter_note (add_reason finding_reason.kInsufficientGranularity f)))].

(** The comparator of the rows; [std::sort] may order rows equal under it either way. *)
Definition row_le (a b : InvalidationRow.t) : Prop :=
  if decide (InvalidationRow.region a = InvalidationRow.region b) then
    if decide (InvalidationRow.source a = InvalidationRow.source b)
    then key_le (InvalidationRow.target a) (InvalidationRow.target b)
    else key_le (InvalidationRow.source a) (InvalidationRow.source b)
  else key_le (InvalidationRow.region a) (InvalidationRow.region b).
#[global] Instance row_le_dec a b : Decision (row_le a b).
Proof. unfold row_le. repeat case_decide; apply _. Defined.

(** The findings and the rows (which the caller may ask for). *)
Definition analyze_invalidations (st : State.t) (policy : InvalidationPolicy.t)
  : option (list Finding.t * list InvalidationRow.t) :=
  let '(groups, total) := group_invalidations (State.journal st) in
  results ← mapM (invalidation_group st policy) (entries groups);
  let rows := take (Z.to_nat Limits.kMaxQueryResults) results.*1 in
  Some (finalize_findings (InvalidationPolicy.max_findings policy)
          (concat results.*2 ++ counter_invalidations st total),
        stable_sort row_le rows).

(** [Observatory::invalidation_analysis]. *)
Definition invalidation_analysis (st : State.t) (policy : InvalidationPolicy.t)
  : option (result (list InvalidationRow.t)) :=
  out ← analyze_invalidations st policy;
  Some (Ok (take (Z.to_nat Limits.kMaxQueryResults) out.2)).

(** ** The sliding window finds the largest burst *)

Lemma lookup_time_at l i : (i < length l)%nat → l !! i = Some (time_at l i).
Proof.
  intros [x Hx]%lookup_lt_is_Some_2. rewrite Hx. f_equal.
  unfold time_at. symmetry. by apply nth_lookup_Some with (d := 0) in Hx.
Qed.

Lemma sort_times_mono l i j :
  (i ≤ j)%nat → (j < length (sort_times l))%nat →
  time_at (sort_times l) i ≤ time_at (sort_times l) j.
Proof.
  intros Hij Hj.
  assert (StronglySorted Z.le (sort_times l)) as Hs
    by (apply stable_sort_sorted; [intros ??; lia|intros ???; lia]).
  destruct (decide (i = j)) as [->|]; [done|].
  pose proof (lookup_time_at (sort_times l) i ltac:(lia)) as Hi.
  pose proof (lookup_time_at (sort_times l) j Hj) as Hjj.
  generalize dependent j. generalize dependent i. induction Hs as [|x k Hk IH Hx]; intros; [done|].
  destruct i as [|i], j as [|j]; simpl in *; try lia.
  - change (x ≤ time_at k j). apply (proj1 (Forall_forall _ _) Hx).
    by eapply list_elem_of_lookup_2.
  - apply (IH i); (done || lia).
Qed.

Section bursts.
Context (policy : InvalidationPolicy.t) (l : list Z).
Local Abbreviation ts := (sort_times l).
Local Abbreviation window := (InvalidationPolicy.burst_window_ns policy).
Local Abbreviation threshold := (InvalidationPolicy.burst_threshold policy).
Context (Hwindow : 0 ≤ window).

Lemma advance_spec i fuel start :
  (start ≤ i < length ts)%nat → (i - start ≤ fuel)%nat →
  ∃ s, advance ts window (time_at ts i) fuel start = Some s ∧ (start ≤ s ≤ i)%nat
    ∧ time_at ts i - time_at ts s ≤ window
    ∧ ∀ a, (start ≤ a < s)%nat → window < time_at ts i - time_at ts a.
Proof.
  revert start. induction fuel as [|fuel IH]; intros start Hi Hf; cbn [advance];
    rewrite (lookup_time_at ts start) by lia; rewrite Z.gtb_ltb;
    destruct (Z.ltb_spec window (time_at ts i - time_at ts start)) as [Hlt|Hge].
  - assert (start = i) as -> by lia. lia.
  - exists start. split_and!; try done; lia.
  - assert (start ≠ i) by (intros ->; lia).
    destruct (IH (S start)) as (s & Hs & Hb & Hin & Hout); [lia..|].
    exists s. split_and!; try done; [lia|lia|]. intros a Ha.
    destruct (decide (a = start)) as [->|]; [done|]. apply Hout. lia.
  - exists start. split_and!; try done; lia.
Qed.

(** [n] consecutive timestamps from index [a] lie within one window. *)
Definition burst_at (a n : nat) : Prop :=
  (0 < n)%nat ∧ (a + n ≤ length ts)%nat ∧ time_at ts (a + n - 1) - time_at ts a ≤ window.

(** What holds after the first [k] iterations. *)
Record swept (k : nat) (b : Burst.t) : Prop := {
  sw_start : Burst.start b = 0%nat ∨ (Burst.start b < k)%nat;
  sw_low a : (a < Burst.start b)%nat → window < time_at ts (k - 1) - time_at ts a;
  sw_size : Z.of_nat k - Z.of_nat (Burst.start b) ≤ Burst.max_burst b ≤ Z.of_nat k;
  sw_attained : Burst.max_burst b = 0 ∨ ∃ a n, burst_at a n ∧ Burst.max_burst b = Z.of_nat n;
  sw_max a n : (a + n ≤ k)%nat → burst_at a n → Z.of_nat n ≤ Burst.max_burst b;
  sw_count : 0 ≤ Burst.burst_count b ≤ Z.of_nat k;
  sw_bursts : 1 ≤ threshold → (Burst.burst_count b ≠ 0 ↔ threshold ≤ Burst.max_burst b);
}.

Lemma swept_init : swept 0 Burst.init.
Proof.
  split; simpl; try lia; try (by left); try (intros; lia).
Qed.

Lemma swept_step k b :
  (k < length ts)%nat → Z.of_nat (length ts) ≤ u64_max → swept k b →
  ∃ b', burst_step policy ts b k = Some b' ∧ swept (S k) b'.
Proof.
  intros Hk Hlen [Hst Hlow Hsz Hat Hmax Hcnt Hb]. unfold burst_step.
  destruct (advance_spec k (length ts) (Burst.start b)) as (s & -> & Hs & Hin & Hout); [lia..|].
  cbn [mbind option_bind]. eexists. split; [reflexivity|].
  set (size := Z.of_nat k - Z.of_nat s + 1). set (counts := _ && _).
  assert (∀ a, (a < s)%nat → window < time_at ts k - time_at ts a) as Hall.
  { intros a Ha. destruct (decide (Burst.start b ≤ a)%nat); [apply Hout; lia|].
    assert (0 < k)%nat by lia. pose proof (sort_times_mono l (k - 1) k ltac:(lia) Hk).
    specialize (Hlow a ltac:(lia)). lia. }
  assert (burst_at s (S k - s)) as Hnew.
  { split_and!; [lia|lia|]. replace (s + (S k - s) - 1)%nat with k by lia. done. }
  assert (u64_add (Burst.burst_count b) 1 = Burst.burst_count b + 1) as Hinc.
  { apply u64_add_small. unfold in_u64. lia. }
  assert (size ≤ Burst.max_burst b + 1) by (subst size; lia).
  assert (counts = true → threshold ≤ size) as Hc1.
  { subst counts. intros [?%Z.leb_le _]%andb_true_iff. done. }
  assert (size = threshold → counts = true) as Hc2.
  { intros E. subst counts. rewrite E, Z.leb_refl, Z.eqb_refl. done. }
  assert (Z.max size (Burst.max_burst b)
          = if Burst.max_burst b <? size then size else Burst.max_burst b) as Hm.
  { destruct (Z.ltb_spec (Burst.max_burst b) size); lia. }
  split; cbn [Burst.start Burst.max_burst Burst.burst_count]; rewrite <- ?Hm.
  - right. lia.
  - intros a Ha. replace (S k - 1)%nat with k by lia. by apply Hall.
  - subst size. lia.
  - right. destruct (Z.max_spec size (Burst.max_burst b)) as [[? ->]|[? ->]].
    + destruct Hat as [?|(a & n & ? & ?)]; [subst size; lia|by exists a, n].
    + exists s, (S k - s)%nat. split; [done|]. subst size. lia.
  - intros a n Han Hbn. destruct (decide (a + n = S k)%nat) as [E|].
    + enough (s ≤ a)%nat by (subst size; lia). destruct (decide (s ≤ a)%nat); [done|].
      specialize (Hall a ltac:(lia)). destruct Hbn as (_ & _ & Hw).
      replace (a + n - 1)%nat with k in Hw by lia. lia.
    + specialize (Hmax a n ltac:(lia) Hbn). lia.
  - destruct counts; lia.
  - intros Ht. specialize (Hb Ht). destruct counts.
    + specialize (Hc1 eq_refl). split; [lia|lia].
    + rewrite Hb. split; [lia|]. intros ?.
      destruct (decide (threshold ≤ Burst.max_burst b)); [done|].
      assert (size = threshold) as E by lia. apply Hc2 in E. done.
Qed.

Lemma scan_bursts_swept :
  Z.of_nat (length ts) ≤ u64_max → ∃ b, scan_bursts policy ts = Some b ∧ swept (length ts) b.
Proof.
  intros Hlen. unfold scan_bursts.
  assert (∀ k, (k ≤ length ts)%nat → ∃ b,
    foldl (λ b i, b ≫= λ b, burst_step policy ts b i) (Some Burst.init) (seq 0 k) = Some b
    ∧ swept k b) as H; [|by apply H].
  induction k as [|k IH]; intros Hk; [exists Burst.init; split; [done|apply swept_init]|].
  destruct IH as (b & Hb & Hsw); [lia|].
  rewrite seq_S, foldl_app, Hb. simpl. by apply swept_step.
Qed.
End bursts.

(** A negative window is never satisfied at the last timestamp. *)
Lemma advance_negative policy l fuel start :
  InvalidationPolicy.burst_window_ns policy < 0 → (0 < length (sort_times l))%nat →
  advance (sort_times l) (InvalidationPolicy.burst_window_ns policy)
    (time_at (sort_times l) (length (sort_times l) - 1)) fuel start = None.
Proof.
  intros Hw Hl. revert start. induction fuel as [|fuel IH]; intros start; cbn [advance];
    destruct (decide (start < length (sort_times l))%nat) as [Hs|Hs].
  2,4: by rewrite lookup_ge_None_2 by lia.
  all: rewrite lookup_time_at by done; rewrite Z.gtb_ltb;
    pose proof (sort_times_mono l start (length (sort_times l) - 1) ltac:(lia) ltac:(lia));
    by case (Z.ltb_spec _ _); [|lia].
Qed.

Lemma scan_bursts_negative policy l :
  InvalidationPolicy.burst_window_ns policy < 0 → l ≠ [] → scan_bursts policy (sort_times l) = None.
Proof.
  intros Hw Hl.
  assert (length (sort_times l) ≠ 0)%nat as Hlen.
  { unfold sort_times. rewrite stable_sort_length. by destruct l. }
  pose proof (advance_negative policy l (length (sort_times l))) as Hneg. unfold scan_bursts.
  destruct (length (sort_times l)) as [|n] eqn:E; [done|].
  replace (S n - 1)%nat with n in Hneg by lia.
  rewrite seq_S, foldl_app. simpl. destruct (foldl _ _ _) as [b|]; [|done]. simpl.
  unfold burst_step. rewrite E, Hneg by lia. done.
Qed.

(** The groups *)

Lemma group_invalidation_timestamps journal key a :
  (group_invalidations journal).1 !! key = Some a →
  Accum.timestamps a ≠ [] ∧ (length (Accum.timestamps a) ≤ length journal)%nat.
Proof.
  unfold group_invalidations. revert a. induction journal as [|e journal IH] using rev_ind; [done|].
  intros a. rewrite foldl_app, length_app. simpl.
  destruct (foldl group_invalidation (∅, 0) journal) as [groups total] eqn:E. simpl in IH.
  unfold group_invalidation. destruct (Observation.counter_delta _).
  { simpl. intros []%IH. split; [done|lia]. }
  destruct (is_invalidation _); [|simpl; intros []%IH; split; [done|lia]].
  simpl. destruct (decide (invalidation_key (JournalEntry.observation e) = key)) as [<-|].
  - rewrite lookup_insert_eq. intros [= <-]. simpl. split; [by destruct (Accum.timestamps _)|].
    rewrite length_app. simpl. destruct (groups !! _) as [a'|] eqn:Ea; simpl; [|lia].
    destruct (IH a' eq_refl). lia.
  - rewrite lookup_insert_ne by done. intros []%IH. split; [done|lia].
Qed.

(** *** The groups

    The individual invalidations of the journal under one key, in order. *)
Definition individual (o : Observation.t) : bool :=
  bool_decide (Observation.counter_delta o = None) && is_invalidation (Observation.type o).
Definition group_of (journal : list JournalEntry.t) (key : string) : list Observation.t :=
  List.filter (λ o, individual o && bool_decide (invalidation_key o = key))
    (JournalEntry.observation <$> journal).

Lemma group_of_snoc journal e key :
  group_of (journal ++ [e]) key
  = group_of journal key
    ++ (if individual (JournalEntry.observation e)
           && bool_decide (invalidation_key (JournalEntry.observation e) = key)
        then [JournalEntry.observation e] else []).
Proof. unfold group_of. rewrite fmap_app. exact (filter_snoc _ _ _). Qed.

Lemma group_of_length journal key : zlen (group_of journal key) ≤ zlen journal.
Proof.
  unfold group_of, zlen. pose proof (List.filter_length_le (λ o, individual o && bool_decide (invalidation_key o = key))
    (JournalEntry.observation <$> journal)) as H. rewrite length_fmap in H. lia.
Qed.

(** What the accumulator of a group holds. *)
Record accumulated (obs : list Observation.t) (a : Accum.t) : Prop := {
  acc_times : Accum.timestamps a = Observation.timestamp_ns <$> obs;
  acc_first : ∃ o, head obs = Some o ∧ Accum.source a = source_name o
    ∧ Accum.target a = target_name o ∧ Accum.region a = region_name o;
  acc_last : ∃ o, last obs = Some o ∧ Accum.region_generation a = generation_value o;
  acc_count : InvalidationRow.individual_events (Accum.row a) = zlen obs;
}.

Lemma accumulated_snoc obs a o :
  zlen obs < u64_max → accumulated obs a → accumulated (obs ++ [o]) (accumulate_invalidation o (Some a)).
Proof.
  intros Hz [Ht (h & Hh & Hs & Htg & Hr) _ Hc]. unfold accumulate_invalidation. constructor; cbn.
  - by rewrite Ht, fmap_app.
  - exists h. destruct obs; [done|]. by split_and!.
  - exists o. by rewrite last_snoc.
  - rewrite zlen_app, zlen_cons, zlen_nil. rewrite Hc. apply u64_add_small. unfold in_u64.
    pose proof (zlen_nonneg obs). lia.
Qed.

Lemma accumulated_first o : accumulated [o] (accumulate_invalidation o None).
Proof. constructor; cbn; try done; by exists o. Qed.

Lemma groups_spec journal key :
  zlen journal ≤ u64_max →
  match (group_invalidations journal).1 !! key with
  | Some a => accumulated (group_of journal key) a
  | None => group_of journal key = []
  end.
Proof.
  unfold group_invalidations. induction journal as [|e journal IH] using rev_ind; [done|].
  rewrite zlen_snoc, foldl_app, group_of_snoc. intros Hz. specialize (IH ltac:(lia)). cbn [foldl].
  destruct (foldl group_invalidation (∅, 0) journal) as [groups total]. cbn [fst] in IH.
  unfold group_invalidation, individual. set (o := JournalEntry.observation e).
  destruct (Observation.counter_delta o) as [delta|] eqn:Ed.
  { rewrite bool_decide_false by congruence. cbn [andb fst]. by rewrite app_nil_r. }
  rewrite bool_decide_true by done. cbn [andb].
  destruct (is_invalidation (Observation.type o)); cbn [andb fst]; [|by rewrite app_nil_r].
  case_bool_decide as Hk; [subst key; rewrite lookup_insert_eq|rewrite lookup_insert_ne by done; by rewrite app_nil_r].
  destruct (groups !! invalidation_key o) as [a|].
  - apply accumulated_snoc; [|done]. pose proof (group_of_length journal (invalidation_key o)). lia.
  - rewrite IH. apply accumulated_first.
Qed.

(** A group with a burst the policy reports. *)
Definition bursting (policy : InvalidationPolicy.t) (obs : list Observation.t) : Prop :=
  ∃ i n, burst_at policy (Observation.timestamp_ns <$> obs) i n
         ∧ InvalidationPolicy.burst_threshold policy ≤ Z.of_nat n.

(** The largest burst of a group has [n] invalidations. *)
Definition largest_burst (policy : InvalidationPolicy.t) (obs : list Observation.t) (n : nat) : Prop :=
  (∃ i, burst_at policy (Observation.timestamp_ns <$> obs) i n)
  ∧ ∀ i k, burst_at policy (Observation.timestamp_ns <$> obs) i k → (k ≤ n)%nat.

(** A metric of a finding. *)
Definition measures (f : Finding.t) (name : string) (value : Z) : Prop :=
  ∃ m, m ∈ Finding.metrics f ∧ FindingMetric.name m = name ∧ FindingMetric.value m = d_of_Z value.

(** A finding that describes a group. *)
Record describes_group (policy : InvalidationPolicy.t) (obs : list Observation.t) (f : Finding.t) : Prop := {
  dg_kind : Finding.kind f = FindingKind.InvalidationBurst ∧ Finding.subject_kind f = "region"%string;
  dg_first : ∃ o, head obs = Some o ∧ Finding.subject f = region_name o
    ∧ ∀ p, p ∈ Finding.participants f ↔ p = source_name o ∨ p = target_name o;
  dg_last : ∃ o, last obs = Some o
    ∧ (generation_value o ≠ 0 → GenerationBindings.region_generation (Finding.bindings f) = generation_value o
                               ∧ GenerationBindings.region_generation_bound (Finding.bindings f) = true);
  dg_count : measures f "invalidations" (zlen obs);
  dg_burst : ∃ n, largest_burst policy obs n ∧ measures f "max_burst_size" (Z.of_nat n);
}.

Lemma elem_of_two_participants x source target f :
  Finding.participants f = [] →
  x ∈ Finding.participants (sort_finding (add_participant target (add_participant source f)))
  ↔ x = source ∨ x = target.
Proof.
  intros Hf. change (x ∈ unique (stable_sort key_le (push_bounded Limits.kMaxAttributionCandidates target
    (push_bounded Limits.kMaxAttributionCandidates source (Finding.participants f)))) ↔ x = source ∨ x = target).
  rewrite elem_of_unique, stable_sort_perm, Hf. change (push_bounded _ source []) with [source].
  change (push_bounded _ target [source]) with (push_new target [source]).
  rewrite elem_of_push_new, list_elem_of_singleton. tauto.
Qed.

Lemma elem_of_sorted_metrics m f : m ∈ Finding.metrics (sort_finding f) ↔ m ∈ Finding.metrics f.
Proof.
  change (m ∈ stable_sort metric_le (Finding.metrics f) ↔ m ∈ Finding.metrics f). by rewrite stable_sort_perm.
Qed.

Lemma measures_sorted f name v : measures f name v → measures (sort_finding f) name v.
Proof. intros (m & Hm & H). exists m. by rewrite elem_of_sorted_metrics. Qed.
Lemma measures_frame f g name v : Finding.metrics f = Finding.metrics g → measures g name v → measures f name v.
Proof. unfold measures. by intros ->. Qed.
Lemma measures_add name v u t h f : measures (add_metric name (d_of_Z v) u t h f) name v.
Proof. eexists. split; [apply elem_of_app; right; by apply list_elem_of_singleton|done]. Qed.
Lemma measures_keep n x u t h f name v : measures f name v → measures (add_metric n x u t h f) name v.
Proof. intros (m & Hm & H). exists m. split; [apply elem_of_app; by left|done]. Qed.

Lemma burst_finding_describes st policy obs a b n :
  accumulated obs a → largest_burst policy obs n → Burst.max_burst b = Z.of_nat n →
  describes_group policy obs (burst_finding st policy a (finish_row st a b)).
Proof.
  intros [Ht (h & Hh & Hs & Htg & Hr) (l & Hl & Hg) Hc] Hn Hb. unfold burst_finding. cbv zeta.
  set (f0 := if Accum.region_generation a =? 0 then _ else _).
  assert (Finding.kind f0 = FindingKind.InvalidationBurst ∧ Finding.subject_kind f0 = "region"%string
    ∧ Finding.subject f0 = region_name h ∧ Finding.participants f0 = []
    ∧ (generation_value l ≠ 0 →
       GenerationBindings.region_generation (Finding.bindings f0) = generation_value l
       ∧ GenerationBindings.region_generation_bound (Finding.bindings f0) = true)) as (Hk & Hsk & Hsub & Hp & Hgen).
  { subst f0. rewrite Hg, Hr. destruct (Z.eqb_spec (generation_value l) 0); by split_and!. }
  clearbody f0.
  assert (InvalidationRow.individual_events (finish_row st a b) = zlen obs) as Hrow by exact Hc.
  assert (InvalidationRow.max_burst_size (finish_row st a b) = Z.of_nat n) as Hmax by exact Hb.
  rewrite Hrow, Hmax, Hs, Htg. constructor.
  - split; [exact Hk|exact Hsk].
  - exists h. split; [done|]. split; [exact Hsub|]. intros p.
    match goal with |- context [sort_finding (?g <| Finding.cost := _ |>)] =>
      rewrite <- (elem_of_two_participants p (source_name h) (target_name h) f0 Hp) end. done.
  - exists l. split; [done|exact Hgen].
  - apply measures_sorted. eapply measures_frame; [reflexivity|]. apply measures_keep, measures_add.
  - exists n. split; [done|]. apply measures_sorted. eapply measures_frame; [reflexivity|].
    do 2 apply measures_keep. apply measures_add.
Qed.

Lemma invalidation_group_spec st policy obs key a :
  0 ≤ InvalidationPolicy.burst_window_ns policy → 1 ≤ InvalidationPolicy.burst_threshold policy →
  accumulated obs a → zlen obs ≤ u64_max →
  ∃ row,
    (bursting policy obs ∧ invalidation_group st policy (key, a) = Some (row, [burst_finding st policy a row])
     ∧ describes_group policy obs (burst_finding st policy a row))
    ∨ (¬ bursting policy obs ∧ invalidation_group st policy (key, a) = Some (row, [])).
Proof.
  intros Hw Ht Ha Hl. destruct (scan_bursts_swept policy (Observation.timestamp_ns <$> obs) Hw) as (b & Hb & Hsw).
  { unfold sort_times. rewrite stable_sort_length, length_fmap. exact Hl. }
  exists (finish_row st a b). unfold invalidation_group. cbn [snd]. rewrite (acc_times _ _ Ha), Hb. cbn [mbind option_bind].
  destruct Hsw as [_ _ _ Hat Hmax _ Hbursts]. specialize (Hbursts Ht).
  assert (∀ i n, burst_at policy (Observation.timestamp_ns <$> obs) i n → Z.of_nat n ≤ Burst.max_burst b) as Hle
    by (intros i n Hbn; apply (Hmax i n); [apply Hbn|done]).
  destruct (Z.eqb_spec (Burst.burst_count b) 0) as [E|E].
  - right. split; [|done]. intros (i & n & Hbn & Hn). specialize (Hle i n Hbn).
    assert (Burst.burst_count b ≠ 0) by (apply Hbursts; lia). done.
  - left. apply Hbursts in E. destruct Hat as [?|(i & n & Hbn & Hn)]; [lia|].
    split; [exists i, n; split; [done|lia]|]. split; [done|]. apply (burst_finding_describes _ _ _ _ _ n); [done| |done].
    split; [by exists i|]. intros j k Hk. specialize (Hle j k Hk). lia.
Qed.

Lemma invalidation_groups_spec st policy (grp : string → list Observation.t) l :
  0 ≤ InvalidationPolicy.burst_window_ns policy → 1 ≤ InvalidationPolicy.burst_threshold policy →
  (∀ e, e ∈ l → accumulated (grp e.1) e.2) → (∀ key, zlen (grp key) ≤ u64_max) →
  ∃ results, mapM (invalidation_group st policy) l = Some results
    ∧ zlen (concat results.*2) ≤ zlen l
    ∧ (∀ f, f ∈ concat results.*2 → ∃ e, e ∈ l ∧ bursting policy (grp e.1) ∧ describes_group policy (grp e.1) f)
    ∧ (∀ e, e ∈ l → bursting policy (grp e.1) → ∃ f, f ∈ concat results.*2 ∧ describes_group policy (grp e.1) f).
Proof.
  intros Hw Ht. induction l as [|[key a] l IH]; intros Hl Hz.
  { exists []. split_and!; try done; [by intros ? ?%not_elem_of_nil..]. }
  destruct IH as (rest & Hrest & Hlen & Hsound & Hcomplete); [set_solver|done|].
  destruct (invalidation_group_spec st policy (grp key) key a Hw Ht) as (row & Hb).
  { apply (Hl (key, a)). set_solver. }
  { apply Hz. }
  cbn [mapM]. rewrite Hrest. rewrite zlen_cons.
  destruct Hb as [(Hg & -> & Hd)|[Hg ->]]; cbn [mbind option_bind mret option_ret].
  - exists ((row, [burst_finding st policy a row]) :: rest).
    split; [done|]. rewrite fmap_cons. cbn [snd concat]. rewrite zlen_app, zlen_cons, zlen_nil.
    split_and!; [lia| |].
    + intros f [->%list_elem_of_singleton|(e & ? & ? & ?)%Hsound]%elem_of_app.
      * exists (key, a). split_and!; [by left|done..].
      * exists e. split_and!; [by right|done..].
    + intros e [->|He]%elem_of_cons He'; [exists (burst_finding st policy a row); split; [set_solver|done]|].
      destruct (Hcomplete e He He') as (f & ? & ?). exists f. set_solver.
  - exists ((row, []) :: rest). split; [done|]. rewrite fmap_cons. cbn [snd concat].
    rewrite app_nil_l. split_and!; [lia| |].
    + intros f (e & ? & ? & ?)%Hsound. exists e. split_and!; [by right|done..].
    + intros e [->|He]%elem_of_cons He'; [done|]. by apply Hcomplete.
Qed.

(** ** Claims *)

Lemma analyze_invalidations_total st policy :
  0 ≤ InvalidationPolicy.burst_window_ns policy → 1 ≤ InvalidationPolicy.burst_threshold policy →
  zlen (State.journal st) ≤ u64_max → is_Some (analyze_invalidations st policy).
Proof.
  intros Hw Ht Hj. unfold analyze_invalidations. pose proof (groups_spec (State.journal st)) as Hg.
  destruct (group_invalidations (State.journal st)) as [groups total]. cbn [fst] in *.
  destruct (invalidation_groups_spec st policy (group_of (State.journal st)) (entries groups) Hw Ht)
    as (results & -> & _); [| |eauto].
  - intros [key a] He%elem_of_entries. cbn [fst snd]. specialize (Hg key Hj). by rewrite He in Hg.
  - intros key. pose proof (group_of_length (State.journal st) key). lia.
Qed.

(** Claim C30. With a window that is not negative and a positive threshold the analysis
    completes, and it reports bursts exactly: every region finding describes one group of
    individual invalidations - those of the journal under one key of region, source, target
    and generation - of which at least [burst_threshold] fall within one window, and it
    names the group's region, source, target and generation, the number of its
    invalidations and the size of its largest burst; and if there are fewer groups than the
    bound on findings every group with a burst has such a finding. *)
Theorem analyze_invalidations_exact (st : State.t) (policy : InvalidationPolicy.t)
  (Hwindow : 0 ≤ InvalidationPolicy.burst_window_ns policy)
  (Hthreshold : 1 ≤ InvalidationPolicy.burst_threshold policy)
  (Hjournal : zlen (State.journal st) ≤ u64_max) :
  ∃ findings rows, analyze_invalidations st policy = Some (findings, rows)
    ∧ (∀ f, f ∈ findings → Finding.subject_kind f = "region" →
         ∃ key, bursting policy (group_of (State.journal st) key)
                ∧ describes_group policy (group_of (State.journal st) key) f)
    ∧ (zsize (group_invalidations (State.journal st)).1 < InvalidationPolicy.max_findings policy →
       ∀ key, bursting policy (group_of (State.journal st) key) →
         ∃ f, f ∈ findings ∧ describes_group policy (group_of (State.journal st) key) f).
Proof.
  unfold analyze_invalidations. pose proof (groups_spec (State.journal st)) as Hg.
  destruct (group_invalidations (State.journal st)) as [groups total]. cbn [fst] in *.
  assert (∀ e, e ∈ entries groups → accumulated (group_of (State.journal st) e.1) e.2) as Hacc.
  { intros [key a] He%elem_of_entries. cbn [fst snd]. specialize (Hg key Hjournal). by rewrite He in Hg. }
  assert (∀ key, zlen (group_of (State.journal st) key) ≤ u64_max) as Hlen
    by (intros key; pose proof (group_of_length (State.journal st) key); lia).
  destruct (invalidation_groups_spec st policy (group_of (State.journal st)) (entries groups) Hwindow Hthreshold Hacc Hlen)
    as (results & -> & Hcount & Hsound & Hcomplete).
  cbn [mbind option_bind]. eexists _, _. split; [reflexivity|]. split.
  - intros f Hf%elem_of_finalize Hk. apply elem_of_app in Hf as [Hf|Hf].
    + apply Hsound in Hf as ([key a] & He & Hb & Hd). by exists key.
    + unfold counter_invalidations in Hf. destruct (total =? 0); [by apply not_elem_of_nil in Hf|].
      apply list_elem_of_singleton in Hf as ->. done.
  - intros Hmax key Hb. specialize (Hg key Hjournal). destruct (groups !! key) as [a|] eqn:E.
    2: { rewrite Hg in Hb. destruct Hb as (i & n & (? & Hn & _) & _). cbn in Hn. lia. }
    destruct (Hcomplete (key, a)) as (f & Hin & Hd); [by apply elem_of_entries|done|].
    exists f. split; [|done].
    assert (zlen (counter_invalidations st total) ≤ 1).
    { unfold counter_invalidations. by destruct (total =? 0). }
    rewrite entries_length in Hcount. pose proof (zsize_nonneg groups).
    apply finalize_all; [lia|rewrite zlen_app; lia|]. apply elem_of_app. by left.
Qed.

(** A negative burst window, which nothing refuses, makes the sliding
    window read past the end of a group's timestamps: the analysis has no defined
    result as soon as one individual invalidation is retained. *)
Theorem negative_burst_window_reads_past_end (st : State.t) (policy : InvalidationPolicy.t)
  (Hwindow : InvalidationPolicy.burst_window_ns policy < 0)
  (Hsome : (group_invalidations (State.journal st)).1 ≠ ∅) :
  analyze_invalidations st policy = None.
Proof.
  unfold analyze_invalidations. pose proof (group_invalidation_timestamps (State.journal st)) as Hg.
  destruct (group_invalidations (State.journal st)) as [groups total]. cbn [fst] in *.
  assert (∀ e, e ∈ entries groups → invalidation_group st policy e = None) as Hnone.
  { intros [key a] He%elem_of_entries. apply Hg in He as [Hne _]. unfold invalidation_group.
    cbn [snd]. by rewrite scan_bursts_negative. }
  destruct (entries groups) as [|e l] eqn:E.
  - exfalso. apply Hsome, map_empty. intros k. destruct (groups !! k) as [v|] eqn:Ek; [|done].
    apply elem_of_entries in Ek. rewrite E in Ek. by apply not_elem_of_nil in Ek.
  - cbn [mapM]. rewrite Hnone by set_solver. done.
Qed.

(** *** Concrete evidence *)

Definition invalidation_at (at_ns : Z) : JournalEntry.t :=
  JournalEntry.mk (Observation.empty
      <| Observation.type := EventType.Invalidation |>
      <| Observation.region := Some "r" |>
      <| Observation.timestamp_ns := at_ns |>)
    AttributionOutcome.AttributedPartial Locality.Unknown false.
Definition invalidated (times : list Z) : State.t :=
  (State.initial ObservatoryOptions.default) <| State.journal := invalidation_at <$> times |>.
Definition burst_of_three : InvalidationPolicy.t := InvalidationPolicy.mk 1 3 100 64.

(** Three invalidations within 100 ns are a burst, however spread the rest is. *)
Lemma analyze_invalidations_exact_witness :
  ∃ findings rows, analyze_invalidations (invalidated [900; 40; 10; 95]) burst_of_three
                   = Some (findings, rows)
    ∧ ∃ f, f ∈ findings ∧ Finding.subject f = "r" ∧ measures f "invalidations" 4.
Proof.
  destruct (analyze_invalidations_exact (invalidated [900; 40; 10; 95]) burst_of_three)
    as (findings & rows & Hok & _ & Hcomplete); [by vm_compute..|].
  exists findings, rows. split; [exact Hok|].
  set (key := invalidation_key (JournalEntry.observation (invalidation_at 900))).
  destruct (Hcomplete ltac:(by vm_compute) key) as (f & Hf & [_ (o & Ho & Hs & _) _ Hc _]).
  - exists 0%nat, 3%nat. unfold burst_at. split; [|by vm_compute].
    split; [lia|]. split; [apply Nat.leb_le; by vm_compute|by vm_compute].
  - exists f. split; [exact Hf|]. split.
    + rewrite Hs. vm_compute in Ho. injection Ho as <-. reflexivity.
    + exact Hc.
Defined.

Lemma negative_burst_window_reads_past_end_witness :
  analyze_invalidations (invalidated [10]) (InvalidationPolicy.mk 1 8 (-1) 64) = None.
Proof.
  apply (negative_burst_window_reads_past_end (invalidated [10])); [by vm_compute|].
  intros H. apply (f_equal (λ m : gmap string Accum.t, size m)) in H. by vm_compute in H.
Defined.
