(* ===== verification/RemoteAccess.v ===== *)
(** * Remote-access analysis

    [analyze_remote_access] of [src/analysis.cpp]: the retained observations of
    remote accesses are grouped by source, target, region and generation, and
    the pair with the most accesses is reported when it concentrates enough of
    the traffic. *)

From S2P Require Import Prelude Errors TextUtil Taxonomy Float64 Policies Cost Records Observation.
From S2P Require Import Aggregate Sequence State Attribution Findings PingPong FalseSharing.
From S2P Require Import Invalidations.

Module RemoteAccessRow.
Record t := mk {
  source : string; target : string; region : string; region_generation : Z;
  direction : AccessDirection.t; locality : Locality.t; locality_established : bool;
  accesses : Z; bytes : Z; read_accesses : Z; write_accesses : Z; cost : CostEstimate.t;
  topology_generation : Z; precision : Precision.t; provenance : Provenance.t;
  reality : Reality.t; aggregate_only : bool;
}.
#[global] Instance eta : Eta t := fun r =>
  mk (source r) (target r) (region r) (region_generation r) (direction r) (locality r)
    (locality_established r) (accesses r) (bytes r) (read_accesses r) (write_accesses r) (cost r)
    (topology_generation r) (precision r) (provenance r) (reality r) (aggregate_only r).
Definition empty : t :=
  mk "" "" "" 0 AccessDirection.None Locality.Unknown false 0 0 0 0 CostEstimate.empty 0
    Precision.Unknown Provenance.Unknown Reality.Real false.
End RemoteAccessRow.

(** ** Grouping *)

Definition is_remote (o : Observation.t) : bool :=
  is_remote_access_type (Observation.type o)
  || (Observation.locality_declared o && is_remote_locality (Observation.locality o)).

Definition is_write_access (o : Observation.t) : bool :=
  match Observation.direction o with
  | AccessDirection.Write | AccessDirection.ReadModifyWrite => true
  | _ => bool_decide (Observation.type o = EventType.RemoteWrite)
  end.

Definition remote_key (o : Observation.t) : string :=
  joined [source_name o; target_name o; region_name o; format_u64 (generation_value o)].

(** One observation added to its row; [None] is a row seen for the first time. *)
Definition accumulate_remote (entry : JournalEntry.t) (found : option RemoteAccessRow.t)
  : RemoteAccessRow.t :=
  let o := JournalEntry.observation entry in
  let r := default RemoteAccessRow.empty found in
  let r := match found with
           | Some _ => r
           | None => r <| RemoteAccessRow.source := source_name o |>
                       <| RemoteAccessRow.target := target_name o |>
           end in
  let r := r
    <| RemoteAccessRow.region ::= λ old, default old (Observation.region o) |>
    <| RemoteAccessRow.region_generation ::= λ old, default old (Observation.region_generation o) |>
    <| RemoteAccessRow.direction := Observation.direction o |>
    <| RemoteAccessRow.locality := JournalEntry.locality entry |>
    <| RemoteAccessRow.locality_established := JournalEntry.locality_established entry |>
    <| RemoteAccessRow.topology_generation := Observation.topology_generation o |>
    <| RemoteAccessRow.precision ::= λ p,
         if RemoteAccessRow.accesses r =? 0 then Observation.precision o
         else weakest p (Observation.precision o) |>
    <| RemoteAccessRow.provenance := Observation.provenance o |>
    <| RemoteAccessRow.reality ::= λ old, combine_reality old (reality_of (Observation.provenance o)) |>
    <| RemoteAccessRow.aggregate_only := bool_decide (is_Some (Observation.counter_delta o)) |>
    <| RemoteAccessRow.bytes ::= λ n, u64_add n (Observation.bytes o) |>
    <| RemoteAccessRow.accesses ::= λ n, u64_add n 1 |> in
  if is_write_access o then r <| RemoteAccessRow.write_accesses ::= λ n, u64_add n 1 |>
  else r <| RemoteAccessRow.read_accesses ::= λ n, u64_add n 1 |>.

Definition group_remote (groups : gmap string RemoteAccessRow.t) (entry : JournalEntry.t)
  : gmap string RemoteAccessRow.t :=
  let o := JournalEntry.observation entry in
  if is_remote o then
    let key := remote_key o in
    <[key := accumulate_remote entry (groups !! key)]> groups
  else groups.

(** The second loop: the cost of each row. *)
Definition price_row (st : State.t) (r : RemoteAccessRow.t) : RemoteAccessRow.t :=
  r <| RemoteAccessRow.cost :=
    estimate_cost (ObservatoryOptions.cost_model (State.options st))
      (CostInputs.mk (RemoteAccessRow.bytes r) (RemoteAccessRow.read_accesses r)
         (RemoteAccessRow.write_accesses r) 0 0 0 0 (-1) (RemoteAccessRow.locality r)
         (RemoteAccessRow.locality_established r) (RemoteAccessRow.precision r)) |>.

Definition remote_groups (st : State.t) : gmap string RemoteAccessRow.t :=
  price_row st <$> foldl group_remote ∅ (State.journal st).

Definition total_accesses (rows : list RemoteAccessRow.t) : Z :=
  foldl (λ n r, u64_add n (RemoteAccessRow.accesses r)) 0 rows.

(** The loop for the row with the most accesses; ties keep the first. *)
Definition better_row (best : option RemoteAccessRow.t) (r : RemoteAccessRow.t)
  : option RemoteAccessRow.t :=
  match best with
  | Some b => if RemoteAccessRow.accesses b <? RemoteAccessRow.accesses r then Some r else best
  | None => Some r
  end.
Definition top_row (rows : list RemoteAccessRow.t) : option RemoteAccessRow.t :=
  foldl better_row None rows.

(** ** The finding *)

Definition concentration_finding (st : State.t) (policy : RemoteAccessPolicy.t)
    (r : RemoteAccessRow.t) (total : Z) (concentration : double) : Finding.t :=
  let f := Finding.empty
    <| Finding.kind := FindingKind.RemoteAccessConcentration |>
    <| Finding.subject_kind := "source_target_pair" |>
    <| Finding.subject := RemoteAccessRow.source r +:+ "->" +:+ RemoteAccessRow.target r |>
    <| Finding.precision := RemoteAccessRow.precision r |>
    <| Finding.provenance := RemoteAccessRow.provenance r |>
    <| Finding.reality := RemoteAccessRow.reality r |>
    <| Finding.granularity := if RemoteAccessRow.aggregate_only r then EvidenceGranularity.Aggregate
                              else EvidenceGranularity.Region |>
    <| Finding.bindings := (current_bindings st)
         <| GenerationBindings.topology_generation := RemoteAccessRow.topology_generation r |> |>
    <| Finding.locality := RemoteAccessRow.locality r |>
    <| Finding.locality_established := RemoteAccessRow.locality_established r |> in
  let f := add_reason finding_reason.kSourceTargetConcentration f in
  let f := add_plain "pair.accesses" (d_of_Z (RemoteAccessRow.accesses r)) "accesses" f in
  let f := add_metric "pair.share" concentration "share"
             (RemoteAccessPolicy.concentration_threshold policy) true f in
  let f := add_plain "system.remote_accesses" (d_of_Z total) "accesses" f in
  let f := add_plain "pair.bytes" (d_of_Z (RemoteAccessRow.bytes r)) "bytes" f in
  let f := if RemoteAccessRow.aggregate_only r
           then add_missing "evidence is counter-derived and resolves no region identity" f else f in
  sort_finding (f <| Finding.cost := RemoteAccessRow.cost r |>).

Definition remote_findings (st : State.t) (policy : RemoteAccessPolicy.t)
    (rows : list RemoteAccessRow.t) : list Finding.t :=
  let total := total_accesses rows in
  match top_row rows with
  | Some r =>
      if 0 <? total then
        let concentration := ddiv (d_of_Z (RemoteAccessRow.accesses r)) (d_of_Z total) in
        if dleb (RemoteAccessPolicy.concentration_threshold policy) concentration
        then [concentration_finding st policy r total concentration] else []
      else []
  | None => []
  end.

(** The findings and the rows (which the caller may ask for). *)
Definition analyze_remote_access (st : State.t) (policy : RemoteAccessPolicy.t)
  : list Finding.t * list RemoteAccessRow.t :=
  let rows := (entries (remote_groups st)).*2 in
  (finalize_findings (RemoteAccessPolicy.max_findings policy) (remote_findings st policy rows),
   take (Z.to_nat (RemoteAccessPolicy.max_rows policy)) rows).

(** [Observatory::remote_access]. *)
Definition remote_access (st : State.t) (policy : RemoteAccessPolicy.t)
  : result (list RemoteAccessRow.t) :=
  Ok (take (Z.to_nat (RemoteAccessPolicy.max_rows policy)) (analyze_remote_access st policy).2).

(** ** Every remote access is counted once *)

Definition sum_by {A} (g : A → Z) (l : list A) : Z := foldr (λ x n, g x + n) 0 l.

Lemma sum_by_perm {A} (g : A → Z) l k : l ≡ₚ k → sum_by g l = sum_by g k.
Proof. unfold sum_by. induction 1; simpl; lia. Qed.

Definition row_sum (g : RemoteAccessRow.t → Z) (m : gmap string RemoteAccessRow.t) : Z :=
  sum_by (λ e, g e.2) (map_to_list m).

Lemma row_sum_insert g m k r :
  row_sum g (<[k := r]> m) = row_sum g m - from_option g 0 (m !! k) + g r.
Proof.
  unfold row_sum. destruct (m !! k) as [old|] eqn:E.
  - rewrite <- (insert_delete_eq m k r).
    rewrite (sum_by_perm _ _ _ (map_to_list_insert _ k r (lookup_delete_eq m k))).
    rewrite <- (insert_delete_id m k old E) at 2.
    rewrite (sum_by_perm _ _ _ (map_to_list_insert _ k old (lookup_delete_eq m k))).
    simpl. lia.
  - rewrite (sum_by_perm _ _ _ (map_to_list_insert _ k r E)). simpl. lia.
Qed.

Definition count_remote (journal : list JournalEntry.t) : Z :=
  zlen (List.filter (λ e, is_remote (JournalEntry.observation e)) journal).

(** A row's accesses are its reads and its writes, [n] at most. *)
Definition row_ok (n : Z) (r : RemoteAccessRow.t) : Prop :=
  0 ≤ RemoteAccessRow.read_accesses r ∧ 0 ≤ RemoteAccessRow.write_accesses r
  ∧ RemoteAccessRow.accesses r
    = RemoteAccessRow.read_accesses r + RemoteAccessRow.write_accesses r
  ∧ RemoteAccessRow.accesses r ≤ n.

Lemma accumulate_remote_ok n e found :
  n < u64_max → 0 ≤ n → (∀ r, found = Some r → row_ok n r) →
  row_ok (n + 1) (accumulate_remote e found)
  ∧ RemoteAccessRow.accesses (accumulate_remote e found)
    = from_option RemoteAccessRow.accesses 0 found + 1.
Proof.
  intros Hn H0 Hf. unfold row_ok.
  assert (row_ok n (default RemoteAccessRow.empty found)) as (Hr & Hw & Ha & Hle).
  { destruct found as [r|]; [by apply Hf|]. unfold row_ok. simpl. lia. }
  assert (from_option RemoteAccessRow.accesses 0 found
          = RemoteAccessRow.accesses (default RemoteAccessRow.empty found)) as -> by by destruct found.
  unfold accumulate_remote.
  destruct (is_write_access _), found as [r'|]; cbn in Hr, Hw, Ha, Hle |- *;
    rewrite !u64_add_small by (unfold in_u64; lia); lia.
Qed.

Lemma remote_grouped journal :
  zlen journal ≤ u64_max →
  let m := foldl group_remote ∅ journal in
  (∀ k r, m !! k = Some r → row_ok (zlen journal) r)
  ∧ row_sum RemoteAccessRow.accesses m = count_remote journal.
Proof.
  cbn zeta. induction journal as [|e journal IH] using rev_ind; [by split|].
  rewrite zlen_snoc. intros Hlen. destruct IH as [IHok IHsum]; [lia|].
  rewrite foldl_app. cbn [foldl]. set (m := foldl group_remote ∅ journal) in *.
  unfold count_remote. rewrite filter_snoc, zlen_app. fold (count_remote journal).
  pose proof (zlen_nonneg journal).
  assert (∀ n r, row_ok n r → row_ok (1 + n) r) as Hmono by (unfold row_ok; intros; lia).
  unfold group_remote. destruct (is_remote (JournalEntry.observation e)).
  - destruct (accumulate_remote_ok (zlen journal) e
      (m !! remote_key (JournalEntry.observation e))) as [Hok Hacc]; [lia|lia|by intros; eapply IHok|].
    split.
    + intros k r. destruct (decide (remote_key (JournalEntry.observation e) = k)) as [<-|].
      * rewrite lookup_insert_eq. intros [= <-]. by rewrite Z.add_comm.
      * rewrite lookup_insert_ne by done. intros ?%IHok. by apply Hmono.
    + rewrite row_sum_insert, Hacc, IHsum. change (zlen [e]) with 1. lia.
  - split; [intros k r ?%IHok; by apply Hmono|]. rewrite zlen_nil. lia.
Qed.

Lemma total_accesses_sum rows :
  (∀ r, r ∈ rows → 0 ≤ RemoteAccessRow.accesses r) →
  sum_by RemoteAccessRow.accesses rows ≤ u64_max →
  total_accesses rows = sum_by RemoteAccessRow.accesses rows.
Proof.
  unfold total_accesses. intros Hpos.
  enough (∀ a, 0 ≤ a → a + sum_by RemoteAccessRow.accesses rows ≤ u64_max →
    foldl (λ n r, u64_add n (RemoteAccessRow.accesses r)) a rows
    = a + sum_by RemoteAccessRow.accesses rows) as H by (intros; rewrite H; lia).
  induction rows as [|r rows IH]; intros a Ha Hs; simpl in *; [lia|].
  assert (0 ≤ RemoteAccessRow.accesses r) by (apply Hpos; set_solver).
  assert (0 ≤ sum_by RemoteAccessRow.accesses rows).
  { clear -Hpos. induction rows as [|x rows IH]; simpl; [lia|].
    assert (0 ≤ RemoteAccessRow.accesses x) by (apply Hpos; set_solver).
    enough (0 ≤ sum_by RemoteAccessRow.accesses rows) by lia. apply IH. set_solver. }
  rewrite u64_add_small by (unfold in_u64; lia). rewrite IH by (set_solver || lia). lia.
Qed.

Lemma top_row_from rows best :
  let t := foldl better_row best rows in
  (t = best ∨ ∃ r, r ∈ rows ∧ t = Some r)
  ∧ (∀ r, r ∈ rows ∨ best = Some r →
       ∃ top, t = Some top ∧ RemoteAccessRow.accesses r ≤ RemoteAccessRow.accesses top).
Proof.
  cbn zeta. revert best. induction rows as [|x rows IH]; intros best; cbn [foldl].
  { split; [by left|]. intros r [?%not_elem_of_nil| ->]; [done|]. by exists r. }
  destruct (IH (better_row best x)) as [Hin Hmax].
  assert (∃ b, better_row best x = Some b ∧ RemoteAccessRow.accesses x ≤ RemoteAccessRow.accesses b
    ∧ (best = Some b ∨ b = x)
    ∧ ∀ r, best = Some r → RemoteAccessRow.accesses r ≤ RemoteAccessRow.accesses b)
    as (b & Hb & Hxb & Hor & Hbest).
  { unfold better_row. destruct best as [o|]; [|exists x; naive_solver lia].
    destruct (Z.ltb_spec (RemoteAccessRow.accesses o) (RemoteAccessRow.accesses x));
      eexists; (split; [reflexivity|]); (split; [lia|]); (split; [by auto|]);
      intros r [= ->]; lia. }
  destruct (Hmax b) as (top & Htop & Hle); [by right|]. split.
  - destruct Hin as [Hin|(r & Hr & Hin)]; [|right; exists r; split; set_solver].
    rewrite Hin, Hb. destruct Hor as [->| ->]; [by left|right; exists x; split; set_solver].
  - intros r [[->|Hr]%elem_of_cons|Hr].
    + exists top. split; [done|lia].
    + apply Hmax. by left.
    + exists top. split; [done|]. specialize (Hbest r Hr). lia.
Qed.

Lemma remote_rows_sum st g :
  (∀ r, g (price_row st r) = g r) →
  sum_by g (entries (remote_groups st)).*2 = row_sum g (foldl group_remote ∅ (State.journal st)).
Proof.
  intros Hg. unfold remote_groups. rewrite entries_fmap. unfold row_sum.
  rewrite <- (sum_by_perm _ _ _ (entries_perm _)).
  induction (entries _) as [|e l IH]; [done|].
  cbn [fmap list_fmap sum_by foldr fst snd]. unfold sum_by in *. rewrite Hg, IH. done.
Qed.

(** The remote-access rows partition the retained evidence: every
    observation of a remote access is counted in exactly one row (the rows sum
    to the number of such observations), a row's accesses are its reads and its
    writes, and a concentration finding names a row no other row exceeds. *)
Theorem remote_accesses_counted_once (st : State.t) (policy : RemoteAccessPolicy.t)
  (Hjournal : zlen (State.journal st) ≤ u64_max) :
  let rows := (entries (remote_groups st)).*2 in
  total_accesses rows = count_remote (State.journal st)
  ∧ (∀ r, r ∈ rows → RemoteAccessRow.accesses r
                     = RemoteAccessRow.read_accesses r + RemoteAccessRow.write_accesses r)
  ∧ (∀ f, f ∈ (analyze_remote_access st policy).1 →
       ∃ top, top ∈ rows
         ∧ Finding.subject f = RemoteAccessRow.source top +:+ "->" +:+ RemoteAccessRow.target top
         ∧ (∀ r, r ∈ rows → RemoteAccessRow.accesses r ≤ RemoteAccessRow.accesses top)
         ∧ dleb (RemoteAccessPolicy.concentration_threshold policy)
             (ddiv (d_of_Z (RemoteAccessRow.accesses top))
                (d_of_Z (count_remote (State.journal st)))) = true).
Proof.
  cbn zeta. set (rows := (entries (remote_groups st)).*2).
  destruct (remote_grouped (State.journal st) Hjournal) as [Hok Hsum].
  assert (∀ r, r ∈ rows → row_ok (zlen (State.journal st)) r) as Hrows.
  { intros r Hr. subst rows. apply list_elem_of_fmap in Hr as ([k x] & -> & Hx%elem_of_entries).
    unfold remote_groups in Hx. apply lookup_fmap_Some in Hx as (r0 & <- & Hr0).
    apply Hok in Hr0. exact Hr0. }
  assert (total_accesses rows = count_remote (State.journal st)) as Htotal.
  { rewrite total_accesses_sum.
    - subst rows. by rewrite remote_rows_sum.
    - intros r (? & ? & ? & ?)%Hrows. lia.
    - subst rows. rewrite remote_rows_sum, Hsum by done. unfold count_remote, zlen in *.
      pose proof (List.filter_length_le (λ e, is_remote (JournalEntry.observation e)) (State.journal st)).
      lia. }
  split_and!; [done|by intros r (? & ? & ? & ?)%Hrows|].
  intros f Hf%elem_of_finalize. fold rows in Hf. unfold remote_findings in Hf. rewrite Htotal in Hf.
  destruct (top_row_from rows None) as [Hin Hmax]. fold (top_row rows) in Hin, Hmax.
  destruct (top_row rows) as [top|]; [|by apply not_elem_of_nil in Hf].
  destruct (0 <? count_remote (State.journal st)); [|by apply not_elem_of_nil in Hf].
  destruct (dleb _ _) eqn:Ed; [|by apply not_elem_of_nil in Hf].
  apply list_elem_of_singleton in Hf as ->. exists top.
  destruct Hin as [Hin|(r & Hr & [= ->])]; [done|]. split_and!; [done| |  |done].
  - unfold concentration_finding. by destruct (RemoteAccessRow.aggregate_only r).
  - intros r' Hr'. destruct (Hmax r') as (t & [= <-] & ?); [by left|done].
Qed.

Definition remote_read_of (source : string) (at_ns : Z) : JournalEntry.t :=
  JournalEntry.mk (Observation.empty
      <| Observation.type := EventType.RemoteRead |>
      <| Observation.source := Some (ResourceRef.mk ResourceKind.Accelerator source 1) |>
      <| Observation.timestamp_ns := at_ns |>)
    AttributionOutcome.AttributedPartial Locality.Unknown false.
Definition remote_reads : State.t :=
  (State.initial ObservatoryOptions.default)
    <| State.journal := [remote_read_of "a" 1; remote_read_of "b" 2; remote_read_of "a" 3] |>.

Lemma remote_accesses_counted_once_witness :
  zlen (State.journal remote_reads) ≤ u64_max
  ∧ total_accesses (entries (remote_groups remote_reads)).*2 = 3
  ∧ Finding.subject <$> (analyze_remote_access remote_reads RemoteAccessPolicy.default).1
    = ["a->unknown"].
Proof.
  assert (zlen (State.journal remote_reads) ≤ u64_max) as H by by vm_compute.
  split; [exact H|]. split; [|by vm_compute].
  exact (proj1 (remote_accesses_counted_once remote_reads RemoteAccessPolicy.default H)).
Defined.
