(* ===== verification/Hotspots.v ===== *)
(** * Hotspot detection

    [analyze_hotspots] of [src/analysis.cpp]: one pass over the aggregate
    buckets, dispatched by dimension, and the concentration of the busiest
    source/target pair. *)

From S2P Require Import Prelude Errors TextUtil Taxonomy Float64 Policies Cost Records Observation.
From S2P Require Import Aggregate Sequence State Attribution Findings PingPong FalseSharing.

(** ** Regions *)

(** The conditions evaluated before a finding is built. *)
Module Heat.
Record t := mk {
  read_rate : double; write_rate : double; high_read : bool; high_write : bool;
  transfers : bool; invalidations : bool; contention : bool;
  share : double; disproportionate : bool;
}.
Definition any (h : t) : bool :=
  high_read h || high_write h || transfers h || invalidations h || contention h
  || disproportionate h.
End Heat.

Definition region_heat (policy : HotspotPolicy.t) (total_region_bytes : Z) (b : AggregateValue.t)
  : Heat.t :=
  let first := AggregateValue.first_timestamp_ns b in
  let last := AggregateValue.last_timestamp_ns b in
  let read_rate := rate_over_span (AggregateValue.remote_reads b) first last in
  let write_rate := rate_over_span (AggregateValue.remote_writes b) first last in
  let shared := (0 <? total_region_bytes) && (0 <? AggregateValue.bytes b) in
  let share := if shared : bool
               then ddiv (d_of_Z (AggregateValue.bytes b)) (d_of_Z total_region_bytes) else d0 in
  Heat.mk read_rate write_rate
    (dleb (HotspotPolicy.min_remote_read_rate_per_second policy) read_rate
     && (HotspotPolicy.min_remote_accesses policy <=? AggregateValue.remote_reads b))
    (dleb (HotspotPolicy.min_remote_write_rate_per_second policy) write_rate
     && (HotspotPolicy.min_remote_accesses policy <=? AggregateValue.remote_writes b))
    (HotspotPolicy.min_ownership_transfers policy <=? AggregateValue.ownership_transfers b)
    (HotspotPolicy.min_invalidations policy <=? AggregateValue.invalidations b)
    (HotspotPolicy.min_region_events policy
     <=? u64_add (AggregateValue.ownership_transfers b) (AggregateValue.invalidations b))
    share
    (shared && dleb (HotspotPolicy.min_coherence_byte_share policy) share).

(** The fields every bucket finding starts from. *)
Definition bucket_finding (st : State.t) (subject_kind subject : string) (b : AggregateValue.t)
  : Finding.t :=
  Finding.empty
    <| Finding.kind := FindingKind.Hotspot |>
    <| Finding.subject_kind := subject_kind |>
    <| Finding.subject := subject |>
    <| Finding.precision := AggregateValue.weakest_precision b |>
    <| Finding.provenance := Provenance.DerivedAggregation |>
    <| Finding.reality := AggregateValue.reality b |>
    <| Finding.bindings := current_bindings st |>.

Definition bucket_cost (st : State.t) (b : AggregateValue.t) (retries conflicts : Z)
    (locality : Locality.t) (locality_known : bool) : CostEstimate.t :=
  estimate_cost (ObservatoryOptions.cost_model (State.options st))
    (CostInputs.mk (AggregateValue.bytes b) (AggregateValue.remote_reads b)
       (AggregateValue.remote_writes b) (AggregateValue.invalidations b)
       (AggregateValue.ownership_transfers b) retries conflicts (-1) locality locality_known
       (AggregateValue.weakest_precision b)).

(** [if (condition) add_reason(...)] *)
Definition reason_if (condition : bool) (reason : string) (f : Finding.t) : Finding.t :=
  if condition then add_reason reason f else f.

Definition region_reasons (policy : HotspotPolicy.t) (h : Heat.t) (f : Finding.t) : Finding.t :=
  let f := reason_if (Heat.high_read h) finding_reason.kHighRemoteReadRate f in
  let f := reason_if (Heat.high_write h) finding_reason.kHighRemoteWriteRate f in
  let f := reason_if (Heat.transfers h) finding_reason.kRepeatedOwnershipTransfer f in
  let f := reason_if (Heat.invalidations h) finding_reason.kInvalidationBurst f in
  let f := reason_if (Heat.contention h) finding_reason.kRegionLevelContention f in
  if Heat.disproportionate h
  then add_reason finding_reason.kDisproportionateCoherenceBytes
         (add_metric "coherence_byte_share" (Heat.share h) "share"
            (HotspotPolicy.min_coherence_byte_share policy) true f)
  else f.

Definition region_metrics (policy : HotspotPolicy.t) (h : Heat.t) (b : AggregateValue.t)
    (f : Finding.t) : Finding.t :=
  let f := add_plain "remote_read.count" (d_of_Z (AggregateValue.remote_reads b)) "accesses" f in
  let f := add_metric "remote_read.rate_per_second" (Heat.read_rate h) "1/s"
             (HotspotPolicy.min_remote_read_rate_per_second policy) true f in
  let f := add_plain "remote_write.count" (d_of_Z (AggregateValue.remote_writes b)) "accesses" f in
  let f := add_metric "remote_write.rate_per_second" (Heat.write_rate h) "1/s"
             (HotspotPolicy.min_remote_write_rate_per_second policy) true f in
  let f := add_metric "remote_access.count" (d_of_Z (AggregateValue.remote_accesses b)) "accesses"
             (d_of_Z (HotspotPolicy.min_remote_accesses policy)) true f in
  let f := add_plain "bytes" (d_of_Z (AggregateValue.bytes b)) "bytes" f in
  let f := add_metric "ownership_transfer.count" (d_of_Z (AggregateValue.ownership_transfers b))
             "transfers" (d_of_Z (HotspotPolicy.min_ownership_transfers policy)) true f in
  let f := add_metric "invalidation.count" (d_of_Z (AggregateValue.invalidations b))
             "invalidations" (d_of_Z (HotspotPolicy.min_invalidations policy)) true f in
  add_plain "observations" (d_of_Z (AggregateValue.observations b)) "observations" f.

(** The evidence block: the retained samples, when the region is tracked. *)
Definition region_samples (st : State.t) (key : string) (f : Finding.t) : Finding.t :=
  match State.region_evidence st !! key with
  | Some e =>
      let f := push_samples e (note_evicted e f) in
      match last (RegionEvidence.samples e) with
      | Some x => f <| Finding.granularity := OwnershipSample.granularity x |>
      | None => f
      end
  | None =>
      (add_missing "per-region pattern samples" f)
        <| Finding.granularity := EvidenceGranularity.Aggregate |>
  end.

Definition region_hotspot (st : State.t) (policy : HotspotPolicy.t) (h : Heat.t) (key : string)
    (b : AggregateValue.t) : Finding.t :=
  let f := bucket_finding st "region" key b in
  let f := match State.regions st !! key with
           | Some r =>
               add_plain "region.generation" (d_of_Z (RegionRecord.generation r)) "generation"
                 (f <| Finding.bindings ::= λ g,
                    g <| GenerationBindings.region_generation := RegionRecord.generation r |>
                      <| GenerationBindings.region_generation_bound := true |> |>)
           | None => add_missing "region.registration" f
           end in
  let f := region_reasons policy h (region_metrics policy h b f) in
  let f := f <| Finding.cost := bucket_cost st b (AggregateValue.retries b)
                 (AggregateValue.conflicts b) Locality.Unknown false |> in
  sort_finding (region_samples st key f).

(** ** Devices *)

Definition device_busy (policy : HotspotPolicy.t) (b : AggregateValue.t) : bool :=
  (HotspotPolicy.min_remote_accesses policy <=? AggregateValue.remote_accesses b)
  || (HotspotPolicy.min_ownership_transfers policy <=? AggregateValue.ownership_transfers b)
  || (HotspotPolicy.min_invalidations policy <=? AggregateValue.invalidations b).

Definition device_hotspot (st : State.t) (policy : HotspotPolicy.t) (key : string)
    (b : AggregateValue.t) : Finding.t :=
  let f := (bucket_finding st "device" key b)
             <| Finding.granularity := EvidenceGranularity.Device |> in
  let f := add_plain "observations" (d_of_Z (AggregateValue.observations b)) "observations" f in
  let f := add_metric "remote_access.count" (d_of_Z (AggregateValue.remote_accesses b)) "accesses"
             (d_of_Z (HotspotPolicy.min_remote_accesses policy)) true f in
  let f := add_metric "ownership_transfer.count" (d_of_Z (AggregateValue.ownership_transfers b))
             "transfers" (d_of_Z (HotspotPolicy.min_ownership_transfers policy)) true f in
  let f := add_metric "invalidation.count" (d_of_Z (AggregateValue.invalidations b))
             "invalidations" (d_of_Z (HotspotPolicy.min_invalidations policy)) true f in
  let f := add_plain "bytes" (d_of_Z (AggregateValue.bytes b)) "bytes" f in
  let f := reason_if (HotspotPolicy.min_remote_accesses policy <=? AggregateValue.remote_accesses b)
             finding_reason.kHighRemoteReadRate f in
  let f := reason_if (HotspotPolicy.min_ownership_transfers policy
                      <=? AggregateValue.ownership_transfers b)
             finding_reason.kRepeatedOwnershipTransfer f in
  let f := reason_if (HotspotPolicy.min_invalidations policy <=? AggregateValue.invalidations b)
             finding_reason.kInvalidationBurst f in
  sort_finding (f <| Finding.cost := bucket_cost st b (AggregateValue.retries b)
                       (AggregateValue.conflicts b) Locality.Unknown false |>).

(** ** Localities *)

(** The classes of traffic the two [switch]es distinguish: the threshold, the
    metric and the reason of each. *)
Definition traffic_class (policy : HotspotPolicy.t) (l : Locality.t) : Z * string * string :=
  match l with
  | Locality.RemoteNuma | Locality.RemoteNode =>
      (HotspotPolicy.min_cross_numa_bytes policy, "cross_numa.bytes", finding_reason.kCrossNumaTraffic)
  | Locality.RemoteAccelerator | Locality.PeerAccelerator =>
      (HotspotPolicy.min_cross_device_bytes policy, "cross_device.bytes",
       finding_reason.kCrossDeviceTraffic)
  | Locality.CxlAttached | Locality.PooledMemory =>
      (HotspotPolicy.min_cxl_class_bytes policy, "cxl_class.bytes", finding_reason.kCxlClassTraffic)
  | _ =>
      (HotspotPolicy.min_cross_domain_bytes policy, "cross_domain.bytes",
       finding_reason.kCrossDomainTraffic)
  end.

Definition parse_locality (text : string) : result Locality.t := parse_from_table text.

Definition locality_exceeded (policy : HotspotPolicy.t) (key : string) (b : AggregateValue.t) : bool :=
  let l := match parse_locality key with Ok l => l | Err _ => Locality.Unknown end in
  (traffic_class policy l).1.1 <=? AggregateValue.bytes b.

Definition locality_hotspot (st : State.t) (policy : HotspotPolicy.t) (key : string)
    (b : AggregateValue.t) : Finding.t :=
  let bytes := d_of_Z (AggregateValue.bytes b) in
  let f := bucket_finding st "locality" key b in
  let parsed := parse_locality key in
  let f := match parsed with
           | Ok l => f <| Finding.locality := l |> <| Finding.locality_established := true |>
           | Err _ => f
           end in
  let f := add_plain "bytes" bytes "bytes" f in
  let f := add_plain "observations" (d_of_Z (AggregateValue.observations b)) "observations" f in
  let f := match parsed with
           | Ok l =>
               let '(threshold, metric, reason) := traffic_class policy l in
               add_reason reason (add_metric metric bytes "bytes" (d_of_Z threshold) true f)
           | Err _ => f
           end in
  sort_finding (f <| Finding.cost := bucket_cost st b 0 0 (Finding.locality f)
                       (Finding.locality_established f) |>).

(** ** The pass over the buckets *)

Module Pass.
(** The findings so far and the busiest source/target pair. *)
Record t := mk {
  findings : list Finding.t; max_pair : Z; max_pair_name : string; max_pair_reality : Reality.t;
}.
#[global] Instance eta : Eta t := fun p =>
  mk (findings p) (max_pair p) (max_pair_name p) (max_pair_reality p).
Definition init : t := mk [] 0 "" Reality.Real.
End Pass.

(** [findings.push_back] unless the condition fails or the list is at its cap. *)
Definition push_hotspot (cap : Z) (hot : bool) (f : Finding.t) (p : Pass.t) : Pass.t :=
  if negb hot || (cap <=? zlen (Pass.findings p)) then p
  else p <| Pass.findings ::= λ l, l ++ [f] |>.

Definition visit_bucket (st : State.t) (policy : HotspotPolicy.t) (total_region_bytes cap : Z)
    (p : Pass.t) (entry : AggregateKey.t * AggregateValue.t) : Pass.t :=
  let '(AggregateKey.mk dimension key, b) := entry in
  let known := negb (bool_decide (key = "unknown")) in
  match dimension, known with
  | AggregateDimension.Region, true =>
      let h := region_heat policy total_region_bytes b in
      push_hotspot cap (Heat.any h) (region_hotspot st policy h key b) p
  | AggregateDimension.Device, true =>
      push_hotspot cap (device_busy policy b) (device_hotspot st policy key b) p
  | AggregateDimension.Locality, true =>
      push_hotspot cap (locality_exceeded policy key b) (locality_hotspot st policy key b) p
  | AggregateDimension.SourceTargetPair, _ =>
      if Pass.max_pair p <? AggregateValue.observations b
      then p <| Pass.max_pair := AggregateValue.observations b |>
             <| Pass.max_pair_name := key |>
             <| Pass.max_pair_reality := AggregateValue.reality b |>
      else p
  | _, _ => p
  end.

Definition pair_hotspot (st : State.t) (policy : HotspotPolicy.t) (p : Pass.t) (total : Z)
    (concentration : double) : Finding.t :=
  let f := Finding.empty
    <| Finding.kind := FindingKind.Hotspot |>
    <| Finding.subject_kind := "source_target_pair" |>
    <| Finding.subject := Pass.max_pair_name p |>
    <| Finding.precision := Precision.AggregatedCounter |>
    <| Finding.provenance := Provenance.DerivedAggregation |>
    <| Finding.reality := Pass.max_pair_reality p |>
    <| Finding.bindings := current_bindings st |>
    <| Finding.granularity := EvidenceGranularity.Aggregate |> in
  let f := add_reason finding_reason.kSourceTargetConcentration f in
  let f := add_plain "pair.observations" (d_of_Z (Pass.max_pair p)) "observations" f in
  let f := add_metric "source_target_concentration" concentration "share"
             (HotspotPolicy.min_source_target_concentration policy) true f in
  sort_finding (add_plain "pair.total_observations" (d_of_Z total) "observations" f).

Definition pair_hotspots (st : State.t) (policy : HotspotPolicy.t) (p : Pass.t) (total : Z)
  : list Finding.t :=
  if (0 <? total) && negb (bool_decide (Pass.max_pair_name p = "")) then
    let concentration := ddiv (d_of_Z (Pass.max_pair p)) (d_of_Z total) in
    if dleb (HotspotPolicy.min_source_target_concentration policy) concentration
    then [pair_hotspot st policy p total concentration] else []
  else [].

Definition hotspot_pass (st : State.t) (policy : HotspotPolicy.t) : Pass.t :=
  let total_region_bytes := AggregateStore.bytes_in AggregateDimension.Region (State.aggregates st) in
  let cap := wrap64 (HotspotPolicy.max_hotspots policy * 4) in
  foldl (visit_bucket st policy total_region_bytes cap) Pass.init
    (entries (AggregateStore.buckets (State.aggregates st))).

Definition analyze_hotspots (st : State.t) (policy : HotspotPolicy.t) : list Finding.t :=
  let total_pair_observations :=
    AggregateStore.observations_in AggregateDimension.SourceTargetPair (State.aggregates st) in
  let p := hotspot_pass st policy in
  finalize_findings (HotspotPolicy.max_hotspots policy)
    (Pass.findings p ++ pair_hotspots st policy p total_pair_observations).

(** ** What is hot

    The conditions under which a bucket is a hotspot, and the reason each gives. *)
Inductive warrants (policy : HotspotPolicy.t) (total : Z) (key : string) (b : AggregateValue.t)
    : AggregateDimension.t → string → Prop :=
| WarrantsReads :
    HotspotPolicy.min_remote_accesses policy ≤ AggregateValue.remote_reads b →
    dleb (HotspotPolicy.min_remote_read_rate_per_second policy)
      (rate_over_span (AggregateValue.remote_reads b) (AggregateValue.first_timestamp_ns b)
         (AggregateValue.last_timestamp_ns b)) = true →
    warrants policy total key b AggregateDimension.Region finding_reason.kHighRemoteReadRate
| WarrantsWrites :
    HotspotPolicy.min_remote_accesses policy ≤ AggregateValue.remote_writes b →
    dleb (HotspotPolicy.min_remote_write_rate_per_second policy)
      (rate_over_span (AggregateValue.remote_writes b) (AggregateValue.first_timestamp_ns b)
         (AggregateValue.last_timestamp_ns b)) = true →
    warrants policy total key b AggregateDimension.Region finding_reason.kHighRemoteWriteRate
| WarrantsTransfers :
    HotspotPolicy.min_ownership_transfers policy ≤ AggregateValue.ownership_transfers b →
    warrants policy total key b AggregateDimension.Region finding_reason.kRepeatedOwnershipTransfer
| WarrantsInvalidations :
    HotspotPolicy.min_invalidations policy ≤ AggregateValue.invalidations b →
    warrants policy total key b AggregateDimension.Region finding_reason.kInvalidationBurst
| WarrantsContention :
    HotspotPolicy.min_region_events policy
      ≤ (AggregateValue.ownership_transfers b + AggregateValue.invalidations b) mod 2 ^ 64 →
    warrants policy total key b AggregateDimension.Region finding_reason.kRegionLevelContention
| WarrantsShare :
    0 < total → 0 < AggregateValue.bytes b →
    dleb (HotspotPolicy.min_coherence_byte_share policy)
      (ddiv (d_of_Z (AggregateValue.bytes b)) (d_of_Z total)) = true →
    warrants policy total key b AggregateDimension.Region finding_reason.kDisproportionateCoherenceBytes
| WarrantsDeviceAccesses :
    HotspotPolicy.min_remote_accesses policy ≤ AggregateValue.remote_accesses b →
    warrants policy total key b AggregateDimension.Device finding_reason.kHighRemoteReadRate
| WarrantsDeviceTransfers :
    HotspotPolicy.min_ownership_transfers policy ≤ AggregateValue.ownership_transfers b →
    warrants policy total key b AggregateDimension.Device finding_reason.kRepeatedOwnershipTransfer
| WarrantsDeviceInvalidations :
    HotspotPolicy.min_invalidations policy ≤ AggregateValue.invalidations b →
    warrants policy total key b AggregateDimension.Device finding_reason.kInvalidationBurst
| WarrantsNuma l :
    parse_locality key = Ok l → l ∈ [Locality.RemoteNuma; Locality.RemoteNode] →
    HotspotPolicy.min_cross_numa_bytes policy ≤ AggregateValue.bytes b →
    warrants policy total key b AggregateDimension.Locality finding_reason.kCrossNumaTraffic
| WarrantsDevice l :
    parse_locality key = Ok l → l ∈ [Locality.RemoteAccelerator; Locality.PeerAccelerator] →
    HotspotPolicy.min_cross_device_bytes policy ≤ AggregateValue.bytes b →
    warrants policy total key b AggregateDimension.Locality finding_reason.kCrossDeviceTraffic
| WarrantsCxl l :
    parse_locality key = Ok l → l ∈ [Locality.CxlAttached; Locality.PooledMemory] →
    HotspotPolicy.min_cxl_class_bytes policy ≤ AggregateValue.bytes b →
    warrants policy total key b AggregateDimension.Locality finding_reason.kCxlClassTraffic
| WarrantsDomain l :
    parse_locality key = Ok l →
    l ∉ [Locality.RemoteNuma; Locality.RemoteNode; Locality.RemoteAccelerator; Locality.PeerAccelerator;
         Locality.CxlAttached; Locality.PooledMemory] →
    HotspotPolicy.min_cross_domain_bytes policy ≤ AggregateValue.bytes b →
    warrants policy total key b AggregateDimension.Locality finding_reason.kCrossDomainTraffic.

(** The finding of a bucket. *)
Definition hotspot_of (st : State.t) (policy : HotspotPolicy.t)
    (entry : AggregateKey.t * AggregateValue.t) : Finding.t :=
  let total := AggregateStore.bytes_in AggregateDimension.Region (State.aggregates st) in
  let '(AggregateKey.mk dimension key, b) := entry in
  match dimension with
  | AggregateDimension.Region => region_hotspot st policy (region_heat policy total b) key b
  | AggregateDimension.Device => device_hotspot st policy key b
  | _ => locality_hotspot st policy key b
  end.

(** The buckets of known localities are named after them. *)
Definition localities_named (st : State.t) : Prop :=
  ∀ key b, AggregateStore.buckets (State.aggregates st) !! AggregateKey.mk AggregateDimension.Locality key
    = Some b → key ≠ "unknown"%string → ∃ l, parse_locality key = Ok l.

(** ** The reasons of a finding *)

Lemma elem_of_sorted_reasons x f : x ∈ Finding.reasons (sort_finding f) ↔ x ∈ Finding.reasons f.
Proof.
  change (x ∈ unique (stable_sort key_le (Finding.reasons f)) ↔ x ∈ Finding.reasons f).
  by rewrite elem_of_unique, stable_sort_perm.
Qed.

Lemma elem_of_add_reason x reason f : x ∈ Finding.reasons (add_reason reason f) ↔ x = reason ∨ x ∈ Finding.reasons f.
Proof. apply elem_of_push_new. Qed.

Lemma elem_of_reason_if c x reason f :
  x ∈ Finding.reasons (reason_if c reason f) ↔ (c = true ∧ x = reason) ∨ x ∈ Finding.reasons f.
Proof. destruct c; cbn [reason_if]; [rewrite elem_of_add_reason|]; naive_solver. Qed.

Lemma push_samples_reasons e f : Finding.reasons (push_samples e f) = Finding.reasons f.
Proof.
  unfold push_samples. revert f. induction (RegionEvidence.samples e) as [|x l IH]; intros f; [done|].
  simpl. rewrite IH. unfold push_evidence. by destruct (_ <=? _).
Qed.

Lemma region_samples_reasons st key f : Finding.reasons (region_samples st key f) = Finding.reasons f.
Proof.
  unfold region_samples. destruct (State.region_evidence st !! key) as [e|]; [|done].
  assert (Finding.reasons (push_samples e (note_evicted e f)) = Finding.reasons f) as <-.
  { rewrite push_samples_reasons. unfold note_evicted. by destruct (_ =? _). }
  by destruct (last _).
Qed.

Lemma elem_of_region_reasons x policy h f :
  x ∈ Finding.reasons (region_reasons policy h f) ↔
    (Heat.disproportionate h = true ∧ x = finding_reason.kDisproportionateCoherenceBytes)
    ∨ (Heat.contention h = true ∧ x = finding_reason.kRegionLevelContention)
    ∨ (Heat.invalidations h = true ∧ x = finding_reason.kInvalidationBurst)
    ∨ (Heat.transfers h = true ∧ x = finding_reason.kRepeatedOwnershipTransfer)
    ∨ (Heat.high_write h = true ∧ x = finding_reason.kHighRemoteWriteRate)
    ∨ (Heat.high_read h = true ∧ x = finding_reason.kHighRemoteReadRate)
    ∨ x ∈ Finding.reasons f.
Proof.
  unfold region_reasons. destruct (Heat.disproportionate h); [rewrite elem_of_add_reason|].
  1: match goal with |- context [Finding.reasons (add_metric ?n ?v ?u ?t ?b ?g)] =>
       change (Finding.reasons (add_metric n v u t b g)) with (Finding.reasons g) end.
  all: rewrite !elem_of_reason_if; naive_solver.
Qed.

Lemma reasons_cost c f : Finding.reasons (f <| Finding.cost := c |>) = Finding.reasons f.
Proof. done. Qed.

Lemma reasons_metric n v u t h f : Finding.reasons (add_metric n v u t h f) = Finding.reasons f.
Proof. done. Qed.

Lemma region_reasons_warranted st policy key b x :
  let total := AggregateStore.bytes_in AggregateDimension.Region (State.aggregates st) in
  x ∈ Finding.reasons (region_hotspot st policy (region_heat policy total b) key b)
  ↔ warrants policy total key b AggregateDimension.Region x.
Proof.
  cbn zeta. set (total := AggregateStore.bytes_in _ _). unfold region_hotspot.
  rewrite elem_of_sorted_reasons, region_samples_reasons.
  rewrite reasons_cost.
  rewrite elem_of_region_reasons.
  match goal with |- context [x ∈ Finding.reasons (region_metrics policy ?h b ?g)] =>
    assert (Finding.reasons (region_metrics policy h b g) = []) as -> by by destruct (State.regions st !! key) end.
  unfold region_heat. cbn [Heat.disproportionate Heat.contention Heat.invalidations Heat.transfers
    Heat.high_write Heat.high_read]. unfold u64_add, wrap64. split.
  - intros [[H ->]|[[H ->]|[[H ->]|[[H ->]|[[H ->]|[[H ->]|H]]]]]];
      rewrite ?andb_true_iff, ?Z.leb_le, ?Z.ltb_lt in H; [|constructor; naive_solver..|by apply elem_of_nil in H].
    destruct H as [[H1 H2] H3]. rewrite (proj2 (Z.ltb_lt _ _) H1), (proj2 (Z.ltb_lt _ _) H2) in H3. by constructor.
  - intros H. inversion H; subst; rewrite ?andb_true_iff, ?Z.leb_le, ?Z.ltb_lt;
      [do 5 right; left|do 4 right; left|do 3 right; left|do 2 right; left|right; left|left];
      (split; [|done]); [by split..|done|done|done|].
    split; [by split|]. rewrite !(proj2 (Z.ltb_lt _ _)) by done. done.
Qed.

Lemma device_reasons_warranted st policy total key b x :
  x ∈ Finding.reasons (device_hotspot st policy key b) ↔ warrants policy total key b AggregateDimension.Device x.
Proof.
  unfold device_hotspot. rewrite elem_of_sorted_reasons.
  rewrite reasons_cost.
  rewrite !elem_of_reason_if, !Z.leb_le. split.
  - intros [[H ->]|[[H ->]|[[H ->]|H]]]; [by constructor..|by apply elem_of_nil in H].
  - intros H. inversion H; subst; [right; right; left|right; left|left]; by split.
Qed.

Lemma locality_reasons_warranted st policy total key b l x :
  parse_locality key = Ok l → locality_exceeded policy key b = true →
  (x ∈ Finding.reasons (locality_hotspot st policy key b) ↔ warrants policy total key b AggregateDimension.Locality x).
Proof.
  unfold locality_exceeded, locality_hotspot. intros Hl. rewrite Hl, elem_of_sorted_reasons. intros He%Z.leb_le.
  destruct (traffic_class policy l) as [[threshold metric] reason] eqn:Et.
  rewrite reasons_cost.
  rewrite elem_of_add_reason. cbn [fst] in He. split.
  - intros [->|H]; [|by apply elem_of_nil in H].
    destruct l; injection Et as <- <- <-;
      [.. ] ; first [ eapply WarrantsNuma; [exact Hl|set_solver|exact He]
                    | eapply WarrantsDevice; [exact Hl|set_solver|exact He]
                    | eapply WarrantsCxl; [exact Hl|set_solver|exact He]
                    | eapply WarrantsDomain; [exact Hl|set_solver|exact He] ].
  - intros H. left. inversion H as [| | | | | | | | |l' Hl' Hin|l' Hl' Hin|l' Hl' Hin|l' Hl' Hin]; subst;
      rewrite Hl in Hl'; injection Hl' as <-; destruct l; first [by injection Et as <- <- <- | set_solver].
Qed.

(** ** The pass *)

Lemma list_filter_sublist {A} (f : A → bool) (l : list A) : List.filter f l `sublist_of` l.
Proof.
  induction l as [|a l IH]; cbn [List.filter]; [done|]. destruct (f a); [by apply sublist_skip|by apply sublist_cons].
Qed.

(** The conditions of the pass. *)
Definition is_hot (st : State.t) (policy : HotspotPolicy.t) (entry : AggregateKey.t * AggregateValue.t) : bool :=
  let total := AggregateStore.bytes_in AggregateDimension.Region (State.aggregates st) in
  let '(AggregateKey.mk dimension key, b) := entry in
  negb (bool_decide (key = "unknown"))
  && match dimension with
     | AggregateDimension.Region => Heat.any (region_heat policy total b)
     | AggregateDimension.Device => device_busy policy b
     | AggregateDimension.Locality => locality_exceeded policy key b
     | _ => false
     end.

(** What one bucket adds. *)
Lemma visit_bucket_findings st policy cap p entry :
  Pass.findings (visit_bucket st policy
    (AggregateStore.bytes_in AggregateDimension.Region (State.aggregates st)) cap p entry)
  = if is_hot st policy entry && (zlen (Pass.findings p) <? cap)
    then Pass.findings p ++ [hotspot_of st policy entry] else Pass.findings p.
Proof.
  destruct entry as [[dimension key] b]. unfold visit_bucket, is_hot, push_hotspot, hotspot_of.
  rewrite (Z.ltb_antisym cap). destruct (bool_decide (key = "unknown")); destruct dimension; cbn [negb andb]; try done;
    try (by destruct (_ <? _)); match goal with |- context [negb ?c || (cap <=? ?z)] => by destruct c, (cap <=? z) end.
Qed.

Lemma hotspot_pass_findings st policy :
  Pass.findings (hotspot_pass st policy)
  = take (Z.to_nat (wrap64 (HotspotPolicy.max_hotspots policy * 4)))
      (hotspot_of st policy <$>
         List.filter (is_hot st policy) (entries (AggregateStore.buckets (State.aggregates st)))).
Proof.
  unfold hotspot_pass. cbv zeta. set (cap := wrap64 _). pose proof (wrap64_range
    (HotspotPolicy.max_hotspots policy * 4)) as [Hcap _]. fold cap in Hcap.
  induction (entries _) as [|entry l IH] using rev_ind; [by destruct (Z.to_nat cap)|].
  rewrite foldl_app, List.filter_app, fmap_app. cbn [foldl List.filter]. rewrite visit_bucket_findings, IH.
  destruct (is_hot st policy entry); cbn [andb]; [|by rewrite app_nil_r].
  set (k := hotspot_of st policy <$> _). unfold zlen. rewrite length_take.
  destruct (Z.ltb_spec (Z.of_nat (Z.to_nat cap `min` length k)) cap).
  - rewrite (take_ge k) by lia. rewrite take_ge; [done|]. rewrite length_app. simpl. lia.
  - rewrite take_app_le by lia. done.
Qed.

Lemma pair_hotspots_reasons st policy p total f :
  f ∈ pair_hotspots st policy p total → Finding.reasons f ≠ [].
Proof.
  unfold pair_hotspots. destruct (_ && _); [|by intros ?%not_elem_of_nil].
  destruct (dleb _ _); [|by intros ?%not_elem_of_nil].
  intros ->%list_elem_of_singleton E. assert (finding_reason.kSourceTargetConcentration ∈ @nil string) as H.
  { rewrite <- E. unfold pair_hotspot. rewrite elem_of_sorted_reasons.
    unfold add_plain. rewrite !reasons_metric, elem_of_add_reason. by left. }
  by apply elem_of_nil in H.
Qed.

(** The reasons of a bucket's finding, and that the pass's condition is that there is one. *)
Lemma hotspot_of_reasons st policy dimension key b x :
  let total := AggregateStore.bytes_in AggregateDimension.Region (State.aggregates st) in
  (dimension = AggregateDimension.Locality → ∃ l, parse_locality key = Ok l) →
  is_hot st policy (AggregateKey.mk dimension key, b) = true →
  (x ∈ Finding.reasons (hotspot_of st policy (AggregateKey.mk dimension key, b))
   ↔ warrants policy total key b dimension x).
Proof.
  intros total Hn [_ Hh]%andb_true_iff. destruct dimension; try done.
  - apply device_reasons_warranted.
  - apply region_reasons_warranted.
  - destruct (Hn eq_refl) as [l Hl]. by eapply locality_reasons_warranted.
Qed.

Lemma region_hot_warranted st policy key b :
  let total := AggregateStore.bytes_in AggregateDimension.Region (State.aggregates st) in
  Heat.any (region_heat policy total b) = true ↔ ∃ x, warrants policy total key b AggregateDimension.Region x.
Proof.
  intros total. transitivity (∃ x, x ∈ Finding.reasons (region_reasons policy (region_heat policy total b) Finding.empty)).
  - unfold Heat.any. rewrite !orb_true_iff. setoid_rewrite elem_of_region_reasons. split.
    + intros [[[[[H|H]|H]|H]|H]|H]; rewrite H; eexists;
        [do 5 right; left|do 4 right; left|do 3 right; left|do 2 right; left|right; left|left]; by split.
    + intros [x H]. assert (x ∉ Finding.reasons Finding.empty) by apply not_elem_of_nil. tauto.
  - apply exist_proper. intros x. rewrite <- (region_reasons_warranted st policy key b x : _ ↔ warrants policy total key b _ x).
    unfold region_hotspot. rewrite elem_of_sorted_reasons, region_samples_reasons, reasons_cost, !elem_of_region_reasons.
    match goal with |- context [x ∈ Finding.reasons (region_metrics policy ?h b ?g)] =>
      assert (Finding.reasons (region_metrics policy h b g) = []) as -> by by destruct (State.regions st !! key) end.
    done.
Qed.

Lemma device_hot_warranted policy total key b :
  device_busy policy b = true ↔ ∃ x, warrants policy total key b AggregateDimension.Device x.
Proof.
  unfold device_busy. rewrite !orb_true_iff, !Z.leb_le. split.
  - intros [[H|H]|H]; eexists; [by apply WarrantsDeviceAccesses|by apply WarrantsDeviceTransfers
      |by apply WarrantsDeviceInvalidations].
  - intros [x H]. inversion H; subst; tauto.
Qed.

Lemma locality_hot_warranted policy total key b l :
  parse_locality key = Ok l →
  locality_exceeded policy key b = true ↔ ∃ x, warrants policy total key b AggregateDimension.Locality x.
Proof.
  intros Hl. split.
  - intros He. exists (traffic_class policy l).2.
    apply (locality_reasons_warranted (State.initial ObservatoryOptions.default) policy total key b l _ Hl He).
    unfold locality_hotspot. rewrite Hl, elem_of_sorted_reasons.
    destruct (traffic_class policy l) as [[threshold metric] reason]. rewrite reasons_cost, elem_of_add_reason. by left.
  - unfold locality_exceeded. rewrite Hl, Z.leb_le. intros [x H].
    inversion H as [| | | | | | | | |l' Hl' Hin Hb|l' Hl' Hin Hb|l' Hl' Hin Hb|l' Hl' Hin Hb]; subst;
      rewrite Hl in Hl'; injection Hl' as <-; destruct l; first [exact Hb | set_solver].
Qed.

Lemma is_hot_warranted st policy dimension key b :
  let total := AggregateStore.bytes_in AggregateDimension.Region (State.aggregates st) in
  (dimension = AggregateDimension.Locality → key ≠ "unknown"%string → ∃ l, parse_locality key = Ok l) →
  is_hot st policy (AggregateKey.mk dimension key, b) = true
  ↔ key ≠ "unknown"%string ∧ ∃ x, warrants policy total key b dimension x.
Proof.
  intros total Hn. unfold is_hot. fold total. rewrite andb_true_iff, negb_true_iff, bool_decide_eq_false.
  assert (key ≠ "unknown"%string → match dimension with
    | AggregateDimension.Region => Heat.any (region_heat policy total b)
    | AggregateDimension.Device => device_busy policy b
    | AggregateDimension.Locality => locality_exceeded policy key b
    | _ => false
    end = true ↔ ∃ x, warrants policy total key b dimension x) as H; [|tauto].
  intros Hk. destruct dimension; try (split; [done|intros [x Hx]; by inversion Hx]).
  - apply device_hot_warranted.
  - apply region_hot_warranted.
  - destruct (Hn eq_refl Hk) as [l Hl]. by eapply locality_hot_warranted.
Qed.

(** Claim C27. The single pass finds exactly what is hot: provided that the buckets of
    localities carry names of localities, the buckets for which it makes a finding are, in
    the order of their keys, those of a known region, device or locality that meet one of
    the policy's thresholds ([warrants]), up to the cap of four times [max_hotspots] (in 64
    bits); the finding of each names exactly the reasons its bucket warrants; and every
    hotspot the analysis reports, the concentration of a source/target pair included,
    names a reason. *)
Theorem hotspot_pass_exact (st : State.t) (policy : HotspotPolicy.t) :
  localities_named st →
  let total := AggregateStore.bytes_in AggregateDimension.Region (State.aggregates st) in
  let buckets := AggregateStore.buckets (State.aggregates st) in
  (∃ hot, hot `sublist_of` entries buckets
     ∧ (∀ dimension key b, (AggregateKey.mk dimension key, b) ∈ hot ↔
          buckets !! AggregateKey.mk dimension key = Some b
          ∧ key ≠ "unknown"%string ∧ ∃ reason, warrants policy total key b dimension reason)
     ∧ Pass.findings (hotspot_pass st policy)
       = take (Z.to_nat (wrap64 (HotspotPolicy.max_hotspots policy * 4))) (hotspot_of st policy <$> hot)
     ∧ ∀ dimension key b, (AggregateKey.mk dimension key, b) ∈ hot →
         ∀ reason, reason ∈ Finding.reasons (hotspot_of st policy (AggregateKey.mk dimension key, b))
                   ↔ warrants policy total key b dimension reason)
  ∧ ∀ f, f ∈ analyze_hotspots st policy → Finding.reasons f ≠ [].
Proof.
  intros Hn total buckets.
  assert (∀ dimension key b, buckets !! AggregateKey.mk dimension key = Some b →
    dimension = AggregateDimension.Locality → key ≠ "unknown"%string → ∃ l, parse_locality key = Ok l) as Hname
    by (intros dimension key b Hb ->; by eapply Hn).
  set (hot := List.filter (is_hot st policy) (entries buckets)).
  assert (∀ dimension key b, (AggregateKey.mk dimension key, b) ∈ hot ↔
    buckets !! AggregateKey.mk dimension key = Some b
    ∧ is_hot st policy (AggregateKey.mk dimension key, b) = true) as Hhot.
  { intros dimension key b. unfold hot. by rewrite list_elem_of_In, filter_In, <- list_elem_of_In, elem_of_entries. }
  assert (∀ dimension key b, (AggregateKey.mk dimension key, b) ∈ hot → ∀ reason,
    reason ∈ Finding.reasons (hotspot_of st policy (AggregateKey.mk dimension key, b))
    ↔ warrants policy total key b dimension reason) as Hreasons.
  { intros dimension key b [Hb Hh]%Hhot reason. apply hotspot_of_reasons; [|done]. intros Hd. eapply Hname; [done..|].
    by apply andb_true_iff in Hh as [Hh%negb_true_iff%bool_decide_eq_false _]. }
  assert (∀ dimension key b, (AggregateKey.mk dimension key, b) ∈ hot ↔
    buckets !! AggregateKey.mk dimension key = Some b
    ∧ key ≠ "unknown"%string ∧ ∃ reason, warrants policy total key b dimension reason) as Hwarrants.
  { intros dimension key b. rewrite Hhot. split; intros [Hb H]; (split; [done|]);
      apply (is_hot_warranted st policy dimension key b (Hname _ _ _ Hb)), H. }
  split.
  { exists hot. split_and!; [apply list_filter_sublist|done|apply hotspot_pass_findings|done]. }
  intros f Hf%elem_of_finalize. apply elem_of_app in Hf as [Hf|Hf].
  - rewrite hotspot_pass_findings in Hf. apply elem_of_take_elem, list_elem_of_fmap in Hf as ([[dimension key] b] & -> & Hin).
    apply (Hwarrants dimension key b) in Hin as Hw. destruct Hw as (_ & _ & x & Hx).
    apply (Hreasons _ _ _ Hin) in Hx. intros E. rewrite E in Hx. by apply elem_of_nil in Hx.
  - by eapply pair_hotspots_reasons.
Qed.

(** *** A concrete store *)

Definition busy_bucket : AggregateValue.t := AggregateValue.empty <| AggregateValue.ownership_transfers := 20 |>.
Definition busy_state : State.t :=
  (State.initial ObservatoryOptions.default)
    <| State.aggregates := AggregateStore.restore
         {[AggregateKey.mk AggregateDimension.Region "buf" := busy_bucket]} AggregateStore.empty |>.

Lemma hotspot_pass_exact_witness :
  ∃ f, f ∈ Pass.findings (hotspot_pass busy_state HotspotPolicy.default)
    ∧ finding_reason.kRepeatedOwnershipTransfer ∈ Finding.reasons f.
Proof.
  destruct (hotspot_pass_exact busy_state HotspotPolicy.default) as [(hot & Hsub & Hhot & Hf & Hr) _].
  { intros key b Hb. exfalso. change (({[AggregateKey.mk AggregateDimension.Region "buf"%string := busy_bucket]}
      : gmap _ _) !! AggregateKey.mk AggregateDimension.Locality key = Some b) in Hb.
    by apply lookup_singleton_Some in Hb as [? _]. }
  assert ((AggregateKey.mk AggregateDimension.Region "buf", busy_bucket) ∈ hot) as Hin.
  { apply Hhot. split_and!; [by vm_compute|done|]. eexists. apply WarrantsTransfers. by vm_compute. }
  exists (hotspot_of busy_state HotspotPolicy.default (AggregateKey.mk AggregateDimension.Region "buf", busy_bucket)).
  split.
  - rewrite Hf. rewrite take_ge; [by apply list_elem_of_fmap_2|].
    rewrite length_fmap. apply sublist_length in Hsub. etransitivity; [exact Hsub|].
    apply (bool_decide_unpack _). vm_compute. exact I.
  - apply (Hr _ _ _ Hin). apply WarrantsTransfers. by vm_compute.
Defined.
