(* ===== verification/Analysis.v ===== *)
(** * Operational findings and the complete analysis

    [analyze_operational] and [analyze_all] of [src/analysis.cpp], and the
    query operations of [src/observatory.cpp] that return their results.
    The invalidation analyser has no result for a negative burst window
    ([None]), and then neither has the complete analysis. *)

From S2P Require Import Prelude Errors TextUtil Ids Taxonomy Float64 Policies Cost Records Observation.
From S2P Require Import Aggregate Sequence State Attribution Findings PingPong FalseSharing.
From S2P Require Import Invalidations RemoteAccess Hotspots.

(** ** Operational findings *)

(** The lambda [make]. *)
Definition make (st : State.t) (kind : FindingKind.t) (subject_kind subject : string) : Finding.t :=
  Finding.empty
    <| Finding.kind := kind |>
    <| Finding.subject_kind := subject_kind |>
    <| Finding.subject := subject |>
    <| Finding.precision := Precision.ExactEvent |>
    <| Finding.provenance := Provenance.RuntimeInstrumentation |>
    <| Finding.reality := Reality.Real |>
    <| Finding.granularity := EvidenceGranularity.Device |>
    <| Finding.bindings := current_bindings st |>.

(** A metric without threshold, from a counter. *)
Definition count_metric (name : string) (value : Z) (unit_ : string) (f : Finding.t) : Finding.t :=
  add_plain name (d_of_Z value) unit_ f.
Definition when (condition : bool) (change : Finding.t → Finding.t) (f : Finding.t) : Finding.t :=
  if condition then change f else f.

Definition loss_findings (st : State.t) : list Finding.t :=
  let loss := State.loss st in
  if LossReport.any loss then
    let f := make st FindingKind.EvidenceLoss "system" "ingestion" in
    let f := add_reason finding_reason.kDuplicateRejected f in
    let f := count_metric "rejected.total" (LossReport.total_rejected loss) "records" f in
    let f := count_metric "rejected.observations" (LossReport.rejected_observations loss) "records" f in
    let f := count_metric "rejected.malformed" (LossReport.rejected_malformed loss) "records" f in
    let f := count_metric "rejected.unauthorized" (LossReport.rejected_unauthorized loss) "records" f in
    let f := count_metric "rejected.overflow" (LossReport.rejected_overflow loss) "records" f in
    let f := when (negb (LossReport.missing_sequences loss =? 0)) (λ f,
      count_metric "missing_sequences" (LossReport.missing_sequences loss) "sequences"
        (add_reason finding_reason.kMissingSequence f)) f in
    let f := when (negb (LossReport.rejected_conflicting_duplicates loss =? 0))
      (count_metric "rejected.conflicting_duplicates"
         (LossReport.rejected_conflicting_duplicates loss) "records") f in
    let f := when (negb (LossReport.rejected_stale_sequences loss =? 0))
      (count_metric "rejected.stale_sequences" (LossReport.rejected_stale_sequences loss) "records") f in
    [sort_finding f]
  else [].

Definition aggregation_pressure (st : State.t) : list Finding.t :=
  let refused := AggregateStore.refused_updates (State.aggregates st) in
  let saturations := AggregateStore.saturations (State.aggregates st) in
  if (negb (refused =? 0)) || (negb (saturations =? 0)) then
    let f := make st FindingKind.CapacityPressure "system" "aggregation" in
    let f := when (negb (refused =? 0)) (λ f,
      add_metric "aggregate.refused_updates" (d_of_Z refused) "updates"
        (d_of_Z Limits.kMaxAggregateKeys) true
        (add_reason finding_reason.kAggregateKeyPressure f)) f in
    let f := when (negb (saturations =? 0)) (λ f,
      count_metric "aggregate.saturations" saturations "saturations"
        (add_reason finding_reason.kAggregateSaturation f)) f in
    [sort_finding f]
  else [].

Definition retention_pressure (st : State.t) : list Finding.t :=
  let entries_dropped := LossReport.dropped_journal_entries (State.loss st) in
  let samples_dropped := LossReport.dropped_region_samples (State.loss st) in
  if negb (entries_dropped =? 0) || negb (samples_dropped =? 0) then
    let f := make st FindingKind.CapacityPressure "system" "evidence_retention" in
    let f := add_reason finding_reason.kJournalEviction f in
    let f := count_metric "dropped.journal_entries" entries_dropped "records" f in
    let f := count_metric "dropped.region_samples" samples_dropped "records" f in
    [sort_finding (add_missing "pattern analyzers see only the retained window" f)]
  else [].

Definition counter_findings (st : State.t) (entry : CounterKey.t * CounterState.t) : list Finding.t :=
  let c := entry.2 in
  if (CounterState.resets c =? 0) && (CounterState.wraps c =? 0) then []
  else
    let f := (make st FindingKind.CounterDiscontinuity "counter" (CounterKey.counter entry.1))
      <| Finding.provenance := CounterState.provenance c |>
      <| Finding.reality := reality_of (CounterState.provenance c) |>
      <| Finding.granularity := CounterState.granularity c |> in
    let f := when (negb (CounterState.resets c =? 0)) (λ f,
      count_metric "counter.resets" (CounterState.resets c) "resets"
        (add_reason finding_reason.kCounterReset f)) f in
    let f := when (negb (CounterState.wraps c =? 0)) (λ f,
      count_metric "counter.wraps" (CounterState.wraps c) "wraps"
        (add_reason finding_reason.kCounterWrap f)) f in
    let f := count_metric "counter.accumulated" (CounterState.accumulated c) "units" f in
    let f := count_metric "counter.samples" (CounterState.samples c) "samples" f in
    [sort_finding (count_metric "counter.generation" (CounterState.generation c) "generation" f)].

Definition gap_finding (st : State.t) (key : string) (v : PublisherView.t) : list Finding.t :=
  let s := PublisherView.sequences v in
  if negb (SequenceState.missing_events s =? 0) || negb (SequenceState.sequence_gaps s =? 0) then
    let f := (make st FindingKind.SequenceGap "publisher" key)
      <| Finding.provenance := PublisherView.provenance v |>
      <| Finding.reality := PublisherView.reality v |> in
    let f := add_reason finding_reason.kMissingSequence f in
    let f := count_metric "sequence.gaps" (SequenceState.sequence_gaps s) "gaps" f in
    let f := count_metric "sequence.missing" (SequenceState.missing_events s) "sequences" f in
    let f := count_metric "sequence.late" (SequenceState.late_events s) "events" f in
    [sort_finding (add_missing
       "events were never delivered; the runtime cannot say what they contained" f)]
  else [].

Definition fence_finding (st : State.t) (key : string) (v : PublisherView.t) : list Finding.t :=
  if PublisherView.fenced v then
    let f := (make st FindingKind.PublisherLoss "publisher" key)
      <| Finding.provenance := PublisherView.provenance v |>
      <| Finding.reality := PublisherView.reality v |> in
    let f := add_reason finding_reason.kPublisherFenced f in
    let f := count_metric "publisher.boot" (PublisherView.boot v) "boot" f in
    let f := count_metric "publisher.sequence_high_watermark"
               (SequenceState.high_watermark (PublisherView.sequences v)) "sequence" f in
    [sort_finding (f <| Finding.ambiguity ::= λ l,
       l ++ ["fence_reason=" +:+ FenceReason.to_string (PublisherView.fence_reason v)] |>)]
  else [].

Definition publisher_findings (st : State.t) (entry : string * PublisherState.t) : list Finding.t :=
  let v := PublisherState.view entry.2 in
  gap_finding st entry.1 v ++ fence_finding st entry.1 v.

(** [++by_kind[to_string(record.kind)]] over the stale records. *)
Definition stale_by_kind (stale : list StaleEvidenceRecord.t) : gmap string Z :=
  foldl (λ m r,
    let key := StaleEvidenceRecord.kind_to_string (StaleEvidenceRecord.kind r) in
    <[key := u64_add (default 0 (m !! key)) 1]> m) ∅ stale.

Definition stale_findings (st : State.t) : list Finding.t :=
  match State.stale st with
  | [] => []
  | stale =>
      let f := (make st FindingKind.StaleEvidence "system" "stale_evidence")
        <| Finding.precision := Precision.AggregatedCounter |> in
      let f := add_reason finding_reason.kStaleGenerations f in
      let f := count_metric "stale.records" (zlen stale) "records" f in
      [sort_finding (foldl (λ f e, count_metric ("stale." +:+ e.1) e.2 "records" f) f
         (entries (stale_by_kind stale)))]
  end.

Definition capability_findings (st : State.t) (entry : string * Capability.t) : list Finding.t :=
  if decide (Capability.status entry.2 = CapabilityStatus.Unsupported) then
    let f := (make st FindingKind.UnsupportedObservability "capability" entry.1)
      <| Finding.precision := Precision.Unknown |>
      <| Finding.provenance := Provenance.Unknown |>
      <| Finding.reality := Reality.Real |> in
    let f := add_reason finding_reason.kNoCapability f in
    [sort_finding (f
       <| Finding.missing_evidence ::= λ l, l ++ [Capability.detail entry.2] |>
       <| Finding.ambiguity ::= λ l,
            l ++ ["status=" +:+ CapabilityStatus.to_string (Capability.status entry.2)] |>)]
  else [].

Definition analyze_operational (st : State.t) : list Finding.t :=
  loss_findings st ++ aggregation_pressure st ++ retention_pressure st
  ++ concat (counter_findings st <$> entries (State.counters st))
  ++ concat (publisher_findings st <$> entries (State.publishers st))
  ++ stale_findings st
  ++ concat (capability_findings st <$> entries (State.capabilities st)).

(** ** All analysers *)

Definition analyze_all (st : State.t) (options : FindingsOptions.t) : option (list Finding.t) :=
  let policies := State.options st in
  let run (enabled : bool) (found : list Finding.t) := if enabled then found else [] in
  invalidations ← (if FindingsOptions.compute_invalidation options
                   then fst <$> analyze_invalidations st (ObservatoryOptions.invalidation_policy policies)
                   else Some []);
  Some (finalize_findings (FindingsOptions.max_findings options)
    (run (FindingsOptions.compute_hotspots options)
       (analyze_hotspots st (ObservatoryOptions.hotspot_policy policies))
     ++ run (FindingsOptions.compute_ping_pong options)
          (analyze_ping_pong st (ObservatoryOptions.ping_pong_policy policies))
     ++ run (FindingsOptions.compute_false_sharing options)
          (analyze_false_sharing st (ObservatoryOptions.false_sharing_policy policies))
     ++ invalidations
     ++ run (FindingsOptions.compute_remote_access options)
          (analyze_remote_access st (ObservatoryOptions.remote_access_policy policies)).1
     ++ run (FindingsOptions.include_operational options) (analyze_operational st))).

(** ** Queries *)

(** [Observatory::findings], [ping_pong], [hotspots], [false_sharing]. *)
Definition findings (st : State.t) (options : FindingsOptions.t) : option (result (list Finding.t)) :=
  Ok <$> analyze_all st options.
Definition ping_pong_query (st : State.t) (policy : PingPongPolicy.t) : result (list Finding.t) :=
  Ok (analyze_ping_pong st policy).
Definition hotspots (st : State.t) (policy : HotspotPolicy.t) : result (list Finding.t) :=
  Ok (analyze_hotspots st policy).
Definition false_sharing (st : State.t) (policy : FalseSharingPolicy.t) : result (list Finding.t) :=
  Ok (analyze_false_sharing st policy).

Module RegionAnalysis.
Record t := mk {
  region : string; generation : Z; registered : bool; retired : bool; owner : string;
  sharing_scope : SharingScope.t; memory_domain : string;
  observations : Z; bytes : Z; remote_accesses : Z; invalidations : Z; ownership_transfers : Z;
  found : list Finding.t; evidence : list EvidenceRef.t; missing_evidence : list string;
  precision : Precision.t; provenance : Provenance.t; reality : Reality.t;
  bindings : GenerationBindings.t; cost : CostEstimate.t; historical : bool;
}.
#[global] Instance eta : Eta t := fun a =>
  mk (region a) (generation a) (registered a) (retired a) (owner a) (sharing_scope a)
    (memory_domain a) (observations a) (bytes a) (remote_accesses a) (invalidations a)
    (ownership_transfers a) (found a) (evidence a) (missing_evidence a) (precision a)
    (provenance a) (reality a) (bindings a) (cost a) (historical a).
Definition empty : t :=
  mk "" 0 false false "" SharingScope.Unknown "" 0 0 0 0 0 [] [] [] Precision.Unknown
    Provenance.Unknown Reality.Real GenerationBindings.empty CostEstimate.empty false.
Definition missing (text : string) (a : t) : t := a <| missing_evidence ::= λ l, l ++ [text] |>.
End RegionAnalysis.

(** The registration and the aggregate bucket. *)
Definition region_facts (st : State.t) (region : string) : RegionAnalysis.t :=
  let a := RegionAnalysis.empty <| RegionAnalysis.region := region |> in
  let a := match State.regions st !! region with
           | Some r => a <| RegionAnalysis.registered := true |>
                         <| RegionAnalysis.retired := RegionRecord.retired r |>
                         <| RegionAnalysis.owner := RegionRecord.owner r |>
                         <| RegionAnalysis.sharing_scope := RegionRecord.sharing_scope r |>
                         <| RegionAnalysis.memory_domain := RegionRecord.memory_domain r |>
                         <| RegionAnalysis.generation := RegionRecord.generation r |>
           | None => RegionAnalysis.missing "region.registration" a
           end in
  let bucket := AggregateStore.buckets (State.aggregates st)
                  !! AggregateKey.mk AggregateDimension.Region region in
  let a := match bucket with
           | Some b => a <| RegionAnalysis.observations := AggregateValue.observations b |>
                         <| RegionAnalysis.bytes := AggregateValue.bytes b |>
                         <| RegionAnalysis.remote_accesses := AggregateValue.remote_accesses b |>
                         <| RegionAnalysis.invalidations := AggregateValue.invalidations b |>
                         <| RegionAnalysis.ownership_transfers := AggregateValue.ownership_transfers b |>
                         <| RegionAnalysis.precision := AggregateValue.weakest_precision b |>
                         <| RegionAnalysis.reality := AggregateValue.reality b |>
           | None => RegionAnalysis.missing "region aggregation bucket" a
           end in
  a <| RegionAnalysis.provenance := Provenance.DerivedAggregation |>
    <| RegionAnalysis.bindings := GenerationBindings.empty
         <| GenerationBindings.coordinator_epoch := State.coordinator_epoch st |>
         <| GenerationBindings.observation_epoch := State.observation_epoch st |>
         <| GenerationBindings.topology_generation := State.topology_generation st |>
         <| GenerationBindings.region_generation := RegionAnalysis.generation a |>
         <| GenerationBindings.region_generation_bound := RegionAnalysis.registered a |> |>.

(** The retained samples of the region. *)
Definition region_evidence_refs (st : State.t) (region : string) (a : RegionAnalysis.t)
  : RegionAnalysis.t :=
  match State.region_evidence st !! region with
  | Some e =>
      let a := a <| RegionAnalysis.evidence :=
                 evidence_ref <$> take (Z.to_nat Limits.kMaxEvidenceRefs) (RegionEvidence.samples e) |> in
      if RegionEvidence.evicted e =? 0 then a
      else RegionAnalysis.missing ("region sample window evicted "
             +:+ format_u64 (RegionEvidence.evicted e) +:+ " older samples") a
  | None => RegionAnalysis.missing "per-region pattern samples" a
  end.

Definition about_region (region : string) (f : Finding.t) : bool :=
  bool_decide (Finding.subject_kind f = "region") && bool_decide (Finding.subject f = region).

(** [Observatory::analyze_region]. *)
Definition analyze_region (st : State.t) (region : string) (options : FindingsOptions.t)
  : option (result RegionAnalysis.t) :=
  match validate_identity_token region with
  | Err e => Some (Err e)
  | Ok _ =>
      all ← analyze_all st options;
      let a := region_evidence_refs st region (region_facts st region) in
      let a := a <| RegionAnalysis.found :=
        take (Z.to_nat Limits.kMaxFindings) (List.filter (about_region region) all) |> in
      Some (Ok (a <| RegionAnalysis.cost :=
        estimate_cost (ObservatoryOptions.cost_model (State.options st))
          (CostInputs.mk (RegionAnalysis.bytes a) 0 0 (RegionAnalysis.invalidations a)
             (RegionAnalysis.ownership_transfers a) 0 0 (-1) Locality.Unknown false
             (RegionAnalysis.precision a)) |>))
  end.

(** ** Theorems *)

(** What an operational finding is about. *)
Definition tag (f : Finding.t) : FindingKind.t * string * string :=
  (Finding.kind f, Finding.subject_kind f, Finding.subject f).

(** The state an operational finding reports. *)
Definition operational_condition (st : State.t) (t : FindingKind.t * string * string) : Prop :=
  let '(kind, subject_kind, subject) := t in
  match kind with
  | FindingKind.EvidenceLoss =>
      subject_kind = "system" ∧ subject = "ingestion" ∧ LossReport.any (State.loss st) = true
  | FindingKind.CapacityPressure =>
      subject_kind = "system"
      ∧ (subject = "aggregation"
           ∧ (AggregateStore.refused_updates (State.aggregates st) ≠ 0
              ∨ AggregateStore.saturations (State.aggregates st) ≠ 0)
         ∨ subject = "evidence_retention"
           ∧ (LossReport.dropped_journal_entries (State.loss st) ≠ 0
              ∨ LossReport.dropped_region_samples (State.loss st) ≠ 0))
  | FindingKind.CounterDiscontinuity =>
      subject_kind = "counter"
      ∧ ∃ key c, State.counters st !! key = Some c ∧ CounterKey.counter key = subject
          ∧ (CounterState.resets c ≠ 0 ∨ CounterState.wraps c ≠ 0)
  | FindingKind.SequenceGap =>
      subject_kind = "publisher"
      ∧ ∃ p, State.publishers st !! subject = Some p
          ∧ (SequenceState.missing_events (PublisherView.sequences (PublisherState.view p)) ≠ 0
             ∨ SequenceState.sequence_gaps (PublisherView.sequences (PublisherState.view p)) ≠ 0)
  | FindingKind.PublisherLoss =>
      subject_kind = "publisher"
      ∧ ∃ p, State.publishers st !! subject = Some p
          ∧ PublisherView.fenced (PublisherState.view p) = true
  | FindingKind.StaleEvidence =>
      subject_kind = "system" ∧ subject = "stale_evidence" ∧ State.stale st ≠ []
  | FindingKind.UnsupportedObservability =>
      subject_kind = "capability"
      ∧ ∃ c, State.capabilities st !! subject = Some c
          ∧ Capability.status c = CapabilityStatus.Unsupported
  | _ => False
  end.

(** The tags of each block. *)
Lemma loss_tags st :
  tag <$> loss_findings st
  = if LossReport.any (State.loss st) then [(FindingKind.EvidenceLoss, "system", "ingestion")] else [].
Proof.
  unfold loss_findings, when. destruct (LossReport.any _); [|done].
  by destruct (_ =? 0), (_ =? 0), (_ =? 0).
Qed.

Lemma aggregation_tags st :
  tag <$> aggregation_pressure st
  = if negb (AggregateStore.refused_updates (State.aggregates st) =? 0)
       || negb (AggregateStore.saturations (State.aggregates st) =? 0)
    then [(FindingKind.CapacityPressure, "system", "aggregation")] else [].
Proof. unfold aggregation_pressure, when. by destruct (_ =? 0), (_ =? 0). Qed.

Lemma retention_tags st :
  tag <$> retention_pressure st
  = if negb (LossReport.dropped_journal_entries (State.loss st) =? 0)
       || negb (LossReport.dropped_region_samples (State.loss st) =? 0)
    then [(FindingKind.CapacityPressure, "system", "evidence_retention")] else [].
Proof. unfold retention_pressure. by destruct (_ =? 0), (_ =? 0). Qed.

Lemma counter_tags st e :
  tag <$> counter_findings st e
  = if negb (CounterState.resets e.2 =? 0) || negb (CounterState.wraps e.2 =? 0)
    then [(FindingKind.CounterDiscontinuity, "counter", CounterKey.counter e.1)] else [].
Proof. unfold counter_findings, when. by destruct (_ =? 0), (_ =? 0). Qed.

Lemma publisher_tags st e :
  let v := PublisherState.view e.2 in
  let s := PublisherView.sequences v in
  tag <$> publisher_findings st e
  = (if negb (SequenceState.missing_events s =? 0) || negb (SequenceState.sequence_gaps s =? 0)
     then [(FindingKind.SequenceGap, "publisher", e.1)] else [])
    ++ (if PublisherView.fenced v then [(FindingKind.PublisherLoss, "publisher", e.1)] else []).
Proof.
  cbn zeta. unfold publisher_findings, gap_finding, fence_finding.
  by destruct (_ =? 0), (_ =? 0), (PublisherView.fenced _).
Qed.

Lemma stale_tags st :
  tag <$> stale_findings st
  = match State.stale st with
    | [] => [] | _ => [(FindingKind.StaleEvidence, "system", "stale_evidence")] end.
Proof.
  unfold stale_findings. destruct (State.stale st) as [|r l]; [done|].
  cbn [fmap list_fmap]. f_equal.
  assert (∀ k f, tag (foldl (λ f (e : string * Z), count_metric ("stale." +:+ e.1) e.2 "records" f) f k)
    = tag f) as H.
  { induction k as [|e k IH]; intros f; [done|]. cbn [foldl]. by rewrite IH. }
  etransitivity; [apply H|done].
Qed.

Lemma capability_tags st e :
  tag <$> capability_findings st e
  = if decide (Capability.status e.2 = CapabilityStatus.Unsupported)
    then [(FindingKind.UnsupportedObservability, "capability", e.1)] else [].
Proof. unfold capability_findings. by case_decide. Qed.

Lemma elem_of_tag_walk {K V} `{Countable K} `{KeyOrder K} (report : K * V → list Finding.t)
    (m : gmap K V) t :
  t ∈ tag <$> concat (report <$> entries m) ↔ ∃ k v, m !! k = Some v ∧ t ∈ tag <$> report (k, v).
Proof.
  rewrite list_elem_of_fmap. setoid_rewrite elem_of_walk. setoid_rewrite list_elem_of_fmap. naive_solver.
Qed.

Lemma elem_of_if {A} (c : bool) (t u : A) : t ∈ (if c then [u] else []) ↔ c = true ∧ t = u.
Proof. destruct c; [rewrite list_elem_of_singleton|rewrite elem_of_nil]; naive_solver. Qed.

Lemma nonzero_or a b : negb (a =? 0) || negb (b =? 0) = true ↔ a ≠ 0 ∨ b ≠ 0.
Proof. rewrite orb_true_iff, !negb_true_iff, !Z.eqb_neq. done. Qed.

(** With a sound invalidation policy every analysis has a result. *)
Definition sound_policy (policy : InvalidationPolicy.t) : Prop :=
  0 ≤ InvalidationPolicy.burst_window_ns policy ∧ 1 ≤ InvalidationPolicy.burst_threshold policy.

Lemma analyze_all_total st options :
  sound_policy (ObservatoryOptions.invalidation_policy (State.options st)) →
  zlen (State.journal st) ≤ u64_max → is_Some (analyze_all st options).
Proof.
  intros [Hw Ht] Hj. unfold analyze_all. destruct (FindingsOptions.compute_invalidation options); [|eauto].
  destruct (analyze_invalidations_total st _ Hw Ht Hj) as [[found rows] ->]. eauto.
Qed.

(** The operational findings report the state exactly: there is one
    about a subject if and only if the condition it names holds of that subject
    (evidence was lost, the aggregates or the retention are under pressure, a
    counter reset or wrapped, a publisher has sequence gaps or is fenced, stale
    evidence is on record, a capability is unsupported).  Nothing is lost
    silently and nothing is reported without cause. *)
Theorem operational_findings_exact (st : State.t) (t : FindingKind.t * string * string) :
  (∃ f, f ∈ analyze_operational st ∧ tag f = t) ↔ operational_condition st t.
Proof.
  transitivity (t ∈ tag <$> analyze_operational st).
  { rewrite list_elem_of_fmap. naive_solver. }
  unfold analyze_operational. rewrite !fmap_app, !elem_of_app, !elem_of_tag_walk.
  setoid_rewrite counter_tags. setoid_rewrite publisher_tags. setoid_rewrite capability_tags.
  rewrite loss_tags, aggregation_tags, retention_tags, stale_tags. cbn zeta. cbn [fst snd].
  setoid_rewrite elem_of_app. setoid_rewrite elem_of_if. setoid_rewrite nonzero_or.
  destruct t as [[kind subject_kind] subject]. split.
  - intros [H|[H|[H|[H|[H|[H|H]]]]]].
    + naive_solver.
    + naive_solver.
    + naive_solver.
    + destruct H as (k & c & Hc & Hz & [= -> -> ->]). simpl. naive_solver.
    + destruct H as (k & p & Hp & [[Hz [= -> -> ->]]|[Hz [= -> -> ->]]]); simpl; naive_solver.
    + destruct (State.stale st) eqn:E; [by apply not_elem_of_nil in H|].
      apply list_elem_of_singleton in H as [= -> -> ->]. simpl. by rewrite E.
    + destruct H as (k & c & Hc & H). case_decide; [|by apply not_elem_of_nil in H].
      apply list_elem_of_singleton in H as [= -> -> ->]. simpl. naive_solver.
  - destruct kind; simpl; try done.
    + intros (-> & key & c & Hc & <- & Hz). do 3 right. left. naive_solver.
    + intros (-> & p & Hp & Hz). do 4 right. left. naive_solver.
    + intros (-> & -> & Ha). left. naive_solver.
    + intros (-> & -> & Hs). do 5 right. left. destruct (State.stale st); [done|].
      by apply list_elem_of_singleton.
    + intros (-> & [[-> Hz]|[-> Hz]]); [right; left; naive_solver|do 2 right; left; naive_solver].
    + intros (-> & p & Hp & Hz). do 4 right. left. naive_solver.
    + intros (-> & c & Hc & Hz). do 6 right. exists subject, c. split; [done|].
      rewrite decide_True by done. by apply list_elem_of_singleton.
Qed.
