(* ===== verification/Codec.v ===== *)
(** * Bytes, checksums and payload fields

    The little-endian primitives, the CRC-32 and the bounded payload writer and
    reader of [src/protocol.cpp] ([include/coherence/protocol.hpp]).  A byte is
    an integer in [0..255] and a buffer a list of bytes; reading an integer
    from [in + k] reads from [drop k in].

    Both [PayloadWriter] and [PayloadReader] are state passed through a monad
    whose operations may fail and keep the state they had reached, as the C++
    objects do.  A [codec] pairs the writer and the reader of a field with the
    law that one undoes the other; the codecs of the primitive fields are
    composed into those of whole payloads. *)

From S2P Require Import Prelude Errors TextUtil Float64.

(** ** Bytes *)

Definition is_byte (b : Z) : Prop := 0 ≤ b < 256.
Definition in_uint (w x : Z) : Prop := 0 ≤ x < 2 ^ w.
Definition is_bytes (l : list Z) : Prop := Forall is_byte l.

#[global] Instance is_byte_dec b : Decision (is_byte b).
Proof. unfold is_byte. apply _. Defined.
#[global] Instance in_uint_dec w x : Decision (in_uint w x).
Proof. unfold in_uint. apply _. Defined.
#[global] Instance is_bytes_dec l : Decision (is_bytes l).
Proof. unfold is_bytes. apply _. Defined.

(** [in[i]], for an index inside the buffer. *)
Definition at_ (l : list Z) (i : nat) : Z := default 0 (l !! i).

(** The loops of [put_u32]/[put_u64] and [get_u32]/[get_u64] over [n] bytes. *)
Definition put_le (n : nat) (value : Z) : list Z :=
  (λ i, Z.land (Z.shiftr value (8 * Z.of_nat i)) 0xFF) <$> seq 0 n.
Definition get_le (n : nat) (input : list Z) : Z :=
  foldl (λ value i, Z.lor value (Z.shiftl (at_ input i) (8 * Z.of_nat i))) 0 (seq 0 n).

Definition put_u16 (value : Z) : list Z :=
  [Z.land value 0xFF; Z.land (Z.shiftr value 8) 0xFF].
Definition put_u32 (value : Z) : list Z := put_le 4 value.
Definition put_u64 (value : Z) : list Z := put_le 8 value.
Definition get_u16 (input : list Z) : Z := Z.lor (at_ input 0) (Z.shiftl (at_ input 1) 8).
Definition get_u32 (input : list Z) : Z := get_le 4 input.
Definition get_u64 (input : list Z) : Z := get_le 8 input.

Lemma put_u16_le v : put_u16 v = put_le 2 v.
Proof. done. Qed.

Lemma get_u16_le input : get_u16 input = get_le 2 input.
Proof. unfold get_u16, get_le. simpl. by rewrite Z.shiftl_0_r. Qed.

Lemma put_le_length n v : length (put_le n v) = n.
Proof. unfold put_le. by rewrite length_fmap, length_seq. Qed.

Lemma land_255 v : Z.land v 255 = v mod 256.
Proof. change 255 with (Z.ones 8). by rewrite Z.land_ones by lia. Qed.

Lemma put_le_bytes n v : is_bytes (put_le n v).
Proof.
  unfold is_bytes, put_le. rewrite Forall_fmap. apply Forall_forall; intros i _. simpl.
  rewrite land_255. apply Z.mod_pos_bound. lia.
Qed.

(** The loops are the library's little-endian conversions. *)
Lemma put_le_S n v : put_le (S n) v = Z.land v 255 :: put_le n (Z.shiftr v 8).
Proof.
  unfold put_le. simpl. rewrite Z.shiftr_0_r. f_equal.
  rewrite <- fmap_S_seq, <- list_fmap_compose. apply list_fmap_ext; intros _ i _. simpl.
  rewrite Z.shiftr_shiftr by lia. do 2 f_equal. lia.
Qed.

Lemma put_le_spec n v : put_le n v = Z_to_little_endian (Z.of_nat n) 8 v.
Proof.
  revert v. induction n as [|n IH]; intros v; [done|].
  by rewrite put_le_S, IH, Nat2Z.inj_succ, Z_to_little_endian_succ by lia.
Qed.

Lemma get_le_spec n l : (n ≤ length l)%nat → get_le n l = little_endian_to_Z 8 (take n l).
Proof.
  intros Hn. unfold get_le.
  enough (∀ k acc, (k + n ≤ length l)%nat →
    foldl (λ value i, Z.lor value (Z.shiftl (at_ l i) (8 * Z.of_nat i))) acc (seq k n) =
    Z.lor acc (Z.shiftl (little_endian_to_Z 8 (take n (drop k l))) (8 * Z.of_nat k))) as Hg.
  { rewrite Hg by lia. simpl. by rewrite Z.shiftl_0_r. }
  clear Hn. induction n as [|n IH]; intros k acc Hk; simpl.
  { by rewrite Z.shiftl_0_l, Z.lor_0_r. }
  rewrite IH by lia.
  destruct (lookup_lt_is_Some_2 l k ltac:(lia)) as [b Hb].
  rewrite (drop_S _ _ _ Hb). simpl. unfold at_; rewrite Hb; simpl.
  rewrite <- Z.lor_assoc, Z.shiftl_lor, Z.shiftl_shiftl by lia.
  do 3 f_equal. lia.
Qed.

Lemma get_put_le n v post :
  in_uint (8 * Z.of_nat n) v → get_le n (put_le n v ++ post) = v.
Proof.
  intros Hv. rewrite get_le_spec by (rewrite length_app, put_le_length; lia).
  rewrite take_app_length' by (by rewrite put_le_length).
  rewrite put_le_spec, little_endian_to_Z_to_little_endian by lia.
  apply Z.mod_small. by rewrite Z.mul_comm.
Qed.

Lemma put_get_le n l :
  is_bytes l → (n ≤ length l)%nat → put_le n (get_le n l) = take n l.
Proof.
  intros Hl Hn. rewrite put_le_spec, get_le_spec by done.
  apply Z_to_little_endian_to_Z; [rewrite length_take; lia|lia|].
  apply Forall_take. eapply Forall_impl; [exact Hl|]. unfold is_byte; intros; lia.
Qed.

Lemma get_le_range n l :
  is_bytes l → (n ≤ length l)%nat → in_uint (8 * Z.of_nat n) (get_le n l).
Proof.
  intros Hl Hn. rewrite get_le_spec by done.
  pose proof (little_endian_to_Z_bound 8 (take n l) ltac:(lia)) as Hb.
  rewrite length_take, Nat.min_l, Z.mul_comm in Hb by lia. apply Hb.
  apply Forall_take. eapply Forall_impl; [exact Hl|]. unfold is_byte; intros; lia.
Qed.

Lemma put_le_inj n v w :
  in_uint (8 * Z.of_nat n) v → in_uint (8 * Z.of_nat n) w → put_le n v = put_le n w → v = w.
Proof.
  intros Hv Hw Heq. rewrite <- (get_put_le n v [] Hv), <- (get_put_le n w [] Hw). by rewrite Heq.
Qed.

#[global] Arguments put_le : simpl never.
#[global] Arguments get_le : simpl never.

(** ** CRC-32 (reflected, polynomial 0xEDB88320) *)

Definition crc_bit (value : Z) : Z :=
  if negb (Z.land value 1 =? 0) then Z.lxor (Z.shiftr value 1) 0xEDB88320
  else Z.shiftr value 1.
Definition make_crc_table : list Z := (λ i, Nat.iter 8 crc_bit (Z.of_nat i)) <$> seq 0 256.
Definition crc_table : list Z := Eval vm_compute in make_crc_table.

(** One step of the loop of [crc32_extend]. *)
Definition crc32_byte (value b : Z) : Z :=
  Z.lxor (at_ crc_table (Z.to_nat (Z.land (Z.lxor value b) 0xFF))) (Z.shiftr value 8).
Definition crc32_extend (seed : Z) (data : list Z) : Z := foldl crc32_byte seed data.
Definition crc32 (data : list Z) : Z := Z.lxor (crc32_extend 0xFFFFFFFF data) 0xFFFFFFFF.

#[global] Arguments crc32 : simpl never.

(** The check value of the standard: the CRC of the digits 1 to 9. *)
Example crc32_check_value : crc32 (string_bytes "123456789") = 0xCBF43926.
Proof. vm_compute. reflexivity. Qed.

Lemma crc_table_spec : crc_table = make_crc_table.
Proof. vm_compute. reflexivity. Qed.

(** The top bytes of the table entries are pairwise different: what makes each
    step of the checksum reversible. *)
Lemma crc_table_top_distinct : NoDup ((λ e, Z.shiftr e 24) <$> crc_table).
Proof. apply (bool_decide_unpack _). vm_compute. exact I. Qed.

Lemma crc_table_range : Forall (in_uint 32) crc_table.
Proof. apply (bool_decide_unpack _). vm_compute. exact I. Qed.

Lemma crc_index_lookup x :
  ∃ e, crc_table !! Z.to_nat (Z.land x 255) = Some e ∧ in_uint 32 e.
Proof.
  assert (Z.to_nat (Z.land x 255) < length crc_table)%nat as Hlt.
  { rewrite land_255. change (length crc_table) with 256%nat.
    pose proof (Z.mod_pos_bound x 256). lia. }
  destruct (lookup_lt_is_Some_2 _ _ Hlt) as [e He]. exists e. split; [done|].
  by eapply Forall_lookup_1; [apply crc_table_range|].
Qed.

Lemma lxor_uint w x y : 0 ≤ w → in_uint w x → in_uint w y → in_uint w (Z.lxor x y).
Proof.
  unfold in_uint. intros Hw Hx Hy.
  assert (0 ≤ Z.lxor x y) as Hn by (apply Z.lxor_nonneg; lia).
  split; [done|]. apply Z.bounded_iff_bits_nonneg; [done..|intros l Hl].
  rewrite Z.lxor_spec.
  assert (∀ z, 0 ≤ z < 2 ^ w → Z.testbit z l = false) as Hz.
  { intros z Hz. apply (Z.bounded_iff_bits_nonneg w); [done|lia..]. }
  by rewrite !Hz by done.
Qed.

Lemma shiftr8_uint v : in_uint 32 v → in_uint 24 (Z.shiftr v 8).
Proof.
  unfold in_uint. rewrite Z.shiftr_div_pow2 by lia. change (2 ^ 32) with (2 ^ 24 * 2 ^ 8).
  split; [apply Z.div_pos; lia|apply Z.div_lt_upper_bound; lia].
Qed.

Lemma crc32_byte_range v b : in_uint 32 v → in_uint 32 (crc32_byte v b).
Proof.
  intros Hv. unfold crc32_byte, at_.
  destruct (crc_index_lookup (Z.lxor v b)) as (e & -> & He). simpl.
  apply lxor_uint; [lia|done|].
  destruct (shiftr8_uint v Hv). split; [done|]. etransitivity; [done|]. by vm_compute.
Qed.

Lemma crc32_extend_range seed data : in_uint 32 seed → in_uint 32 (crc32_extend seed data).
Proof.
  unfold crc32_extend. revert seed. induction data as [|b data IH]; simpl; [done|].
  intros seed H. by apply IH, crc32_byte_range.
Qed.

Lemma crc32_range data : in_uint 32 (crc32 data).
Proof.
  apply lxor_uint; [lia|apply crc32_extend_range|]; unfold in_uint; lia.
Qed.

(** Equal successors come from equal high parts and equal table indices. *)
Lemma crc32_byte_cancel v w b c :
  in_uint 32 v → in_uint 32 w → crc32_byte v b = crc32_byte w c →
  Z.shiftr v 8 = Z.shiftr w 8 ∧ Z.land (Z.lxor v b) 255 = Z.land (Z.lxor w c) 255.
Proof.
  intros Hv Hw. unfold crc32_byte, at_.
  destruct (crc_index_lookup (Z.lxor v b)) as (e & He & Hre).
  destruct (crc_index_lookup (Z.lxor w c)) as (e' & He' & Hre').
  rewrite He, He'. simpl. intros Heq.
  assert (∀ x y, in_uint 24 y → Z.shiftr (Z.lxor x y) 24 = Z.shiftr x 24) as Htop.
  { intros x y Hy. rewrite Z.shiftr_lxor.
    rewrite (Z.shiftr_div_pow2 y), Z.div_small, Z.lxor_0_r by (done || lia). done. }
  assert (Z.shiftr e 24 = Z.shiftr e' 24) as Htops.
  { rewrite <- (Htop e (Z.shiftr v 8)), <- (Htop e' (Z.shiftr w 8)) by by apply shiftr8_uint.
    by rewrite Heq. }
  assert (Z.to_nat (Z.land (Z.lxor v b) 255) = Z.to_nat (Z.land (Z.lxor w c) 255)) as Hidx.
  { eapply (NoDup_lookup _ _ _ (Z.shiftr e 24)); [apply crc_table_top_distinct| |].
    - by rewrite list_lookup_fmap, He.
    - rewrite list_lookup_fmap, He'. simpl. by rewrite Htops. }
  rewrite !land_255 in *.
  pose proof (Z.mod_pos_bound (Z.lxor v b) 256). pose proof (Z.mod_pos_bound (Z.lxor w c) 256).
  split; [|lia].
  assert (e = e') as -> by congruence.
  by apply (f_equal (Z.lxor e')) in Heq; rewrite <- !Z.lxor_assoc, !Z.lxor_nilpotent in Heq.
Qed.

Lemma lxor_land_cancel v b c m :
  Z.land (Z.lxor v b) m = Z.land (Z.lxor v c) m → Z.land b m = Z.land c m.
Proof.
  intros Heq. apply Z.bits_inj'; intros n Hn.
  apply (f_equal (λ x, Z.testbit x n)) in Heq. revert Heq.
  rewrite !Z.land_spec, !Z.lxor_spec.
  by destruct (Z.testbit v n), (Z.testbit b n), (Z.testbit c n), (Z.testbit m n).
Qed.

(** The register after a byte determines the register before it ... *)
Lemma crc32_byte_inj_register v w b :
  in_uint 32 v → in_uint 32 w → crc32_byte v b = crc32_byte w b → v = w.
Proof.
  intros Hv Hw Heq. destruct (crc32_byte_cancel _ _ _ _ Hv Hw Heq) as [Hhi Hlo].
  rewrite (Z.lxor_comm v), (Z.lxor_comm w) in Hlo. apply lxor_land_cancel in Hlo.
  rewrite !land_255 in Hlo. rewrite !Z.shiftr_div_pow2 in Hhi by lia.
  change (2 ^ 8) with 256 in Hhi. rewrite (Z.div_mod v 256), (Z.div_mod w 256) by lia. lia.
Qed.

(** ... and, for a known register, the byte. *)
Lemma crc32_byte_inj_byte v b c :
  in_uint 32 v → is_byte b → is_byte c → crc32_byte v b = crc32_byte v c → b = c.
Proof.
  intros Hv Hb Hc Heq. destruct (crc32_byte_cancel _ _ _ _ Hv Hv Heq) as [_ Hlo].
  apply lxor_land_cancel in Hlo. rewrite !land_255, !Z.mod_small in Hlo by (unfold is_byte in *; lia).
  done.
Qed.

Lemma crc32_extend_inj v w data :
  in_uint 32 v → in_uint 32 w → crc32_extend v data = crc32_extend w data → v = w.
Proof.
  unfold crc32_extend. revert v w. induction data as [|b data IH]; simpl; [done|].
  intros v w Hv Hw Heq. eapply (crc32_byte_inj_register _ _ b); [done..|].
  apply IH; [by apply crc32_byte_range..|done].
Qed.

Lemma crc32_extend_app seed l k :
  crc32_extend seed (l ++ k) = crc32_extend (crc32_extend seed l) k.
Proof. apply foldl_app. Qed.

(** Any change of a single byte changes the checksum. *)
Lemma crc32_single_byte pre post b c :
  is_byte b → is_byte c → crc32 (pre ++ b :: post) = crc32 (pre ++ c :: post) → b = c.
Proof.
  intros Hb Hc Heq. unfold crc32 in Heq.
  rewrite !(Z.lxor_comm _ 0xFFFFFFFF) in Heq.
  apply (f_equal (Z.lxor 0xFFFFFFFF)) in Heq.
  rewrite <- !Z.lxor_assoc, !Z.lxor_nilpotent, !Z.lxor_0_l, !crc32_extend_app in Heq.
  assert (in_uint 32 (crc32_extend 0xFFFFFFFF pre)) as Hr
    by (apply crc32_extend_range; unfold in_uint; lia).
  apply (crc32_extend_inj (crc32_byte _ b) (crc32_byte _ c) post) in Heq;
    [|by apply crc32_byte_range..].
  by eapply crc32_byte_inj_byte.
Qed.

(** ** Operations that may fail on a state they keep *)

Definition action (S A : Type) : Type := S → result A * S.

#[global] Instance action_ret {S} : MRet (action S) := λ A a s, (Ok a, s).
#[global] Instance action_bind {S} : MBind (action S) := λ A B k m s,
  match m s with
  | (Ok a, s') => k a s'
  | (Err e, s') => (Err e, s')
  end.

(** ** The payload writer *)

Module PayloadWriter.
(** [data_] *)
Definition t : Type := list Z.

Definition bytes (data : list Z) : action t unit := λ w, (Ok tt, w ++ data).
Definition u8 (value : Z) : action t unit := bytes [value].
Definition u8_bool (value : bool) : action t unit := bytes [if value then 1 else 0].
Definition u16 (value : Z) : action t unit :=
  bytes [Z.land value 0xFF; Z.land (Z.shiftr value 8) 0xFF].
Definition u32 (value : Z) : action t unit := bytes (put_le 4 value).
Definition u64 (value : Z) : action t unit := bytes (put_le 8 value).
Definition i64 (value : Z) : action t unit := u64 (wrap64 value).
Definition f64 (value : double) : action t unit := u64 (bits_of_double value).

Definition text (value : string) (max_length : Z) : action t unit := λ w,
  if slen value >? max_length
  then (fail_ctx ErrorCode.TooLarge "text field exceeds its bound" (format_u64 (slen value)), w)
  else (u32 (slen value mod 2 ^ 32) ≫= λ _, bytes (string_bytes value)) w.
End PayloadWriter.

(** ** The payload reader *)

Module PayloadReader.
Record t := mk { data_ : list Z; position_ : nat }.

#[global] Instance t_eta : Eta t := λ r, mk (data_ r) (position_ r).

Definition size (r : t) : nat := length (data_ r).
Definition remaining (r : t) : nat := size r - position_ r.
Definition exhausted (r : t) : bool := Nat.eqb (position_ r) (size r).

(** What lies ahead: [data_ + position_]. *)
Definition ahead (r : t) : list Z := drop (position_ r) (data_ r).
Definition advance (n : nat) (r : t) : t := r <| position_ ::= λ p, (p + n)%nat |>.

(** The common shape of the fixed-width reads: check, read, advance. *)
Definition fixed {A} (n : nat) (what : string) (get : list Z → A) : action t A := λ r,
  if Nat.ltb (remaining r) n
  then (fail ErrorCode.Truncated ("payload exhausted reading " +:+ what), r)
  else (Ok (get (ahead r)), advance n r).

Definition u8 : action t Z := fixed 1 "u8" (λ l, at_ l 0).
Definition u16 : action t Z := fixed 2 "u16" get_u16.
Definition u32 : action t Z := fixed 4 "u32" get_u32.
Definition u64 : action t Z := fixed 8 "u64" get_u64.

(** [static_cast<std::int64_t>]. *)
Definition to_i64 (raw : Z) : Z := if raw <? 2 ^ 63 then raw else raw - 2 ^ 64.
Definition i64 : action t Z := raw ← u64; mret (to_i64 raw).
Definition f64 : action t double := raw ← u64; mret (double_of_bits raw).

Definition bytes (count : nat) : action t (list Z) := λ r,
  if Nat.ltb (remaining r) count
  then (fail_ctx ErrorCode.Truncated "payload exhausted reading bytes" (format_u64 (Z.of_nat count)), r)
  else if Nat.eqb count 0 then (Ok [], r)
  else (Ok (take count (ahead r)), advance count r).

(** [out->assign(reinterpret_cast<const char*>(...), length)]. *)
Definition string_of_bytes (l : list Z) : string :=
  String.string_of_list_ascii ((λ b, Ascii.ascii_of_N (Z.to_N b)) <$> l).

(** The body of [text] once the length prefix is read. *)
Definition text_body (max_length length : Z) : action t string := λ r,
  if length >? max_length
  then (fail_ctx ErrorCode.TooLarge "text field exceeds its bound" (format_u64 length), r)
  else if Z.of_nat (remaining r) <? length
  then (fail ErrorCode.Truncated "payload exhausted reading text", r)
  else (Ok (string_of_bytes (take (Z.to_nat length) (ahead r))), advance (Z.to_nat length) r).
Definition text (max_length : Z) : action t string := u32 ≫= text_body max_length.

Definition require_exhausted : action t unit := λ r,
  if negb (exhausted r)
  then (fail_ctx ErrorCode.TrailingBytes "trailing bytes in payload"
          (format_u64 (Z.of_nat (remaining r))), r)
  else (Ok tt, r).
End PayloadReader.

(** ** Writing and reading back

    [writes w bs]: the writer action succeeds and appends exactly [bs].
    [reads r bs a]: the reader action, standing in front of [bs] in whatever
    surroundings, succeeds with [a] and stops right behind [bs]. *)

Definition writes (w : action PayloadWriter.t unit) (bs : list Z) : Prop :=
  ∀ d, w d = (Ok tt, d ++ bs).
Definition reads {A} (r : action PayloadReader.t A) (bs : list Z) (a : A) : Prop :=
  ∀ pre post,
    r (PayloadReader.mk (pre ++ bs ++ post) (length pre)) =
      (Ok a, PayloadReader.mk (pre ++ bs ++ post) (length pre + length bs)).

Create HintDb codec.

Lemma writes_ret : writes (mret tt) [].
Proof. intros d. by rewrite app_nil_r. Qed.

Lemma writes_bytes bs : writes (PayloadWriter.bytes bs) bs.
Proof. done. Qed.

Lemma writes_bind w k bs cs : writes w bs → writes (k tt) cs → writes (w ≫= k) (bs ++ cs).
Proof. intros Hw Hk d. unfold mbind, action_bind. by rewrite Hw, Hk, app_assoc. Qed.

Lemma reads_ret {A} (a : A) : reads (mret a) [] a.
Proof. intros pre post. unfold mret, action_ret. by rewrite Nat.add_0_r. Qed.

Lemma reads_bind {A B} (r : action _ A) (k : A → action _ B) bs cs a b :
  reads r bs a → reads (k a) cs b → reads (r ≫= k) (bs ++ cs) b.
Proof.
  intros Hr Hk pre post. unfold mbind, action_bind. rewrite <- app_assoc, Hr.
  specialize (Hk (pre ++ bs) post). rewrite length_app, <- app_assoc in Hk. rewrite Hk.
  by rewrite length_app, Nat.add_assoc.
Qed.

(** A read that is followed by a pure function of its result. *)
Lemma reads_map {A B} (r : action _ A) (f : A → B) bs a :
  reads r bs a → reads (x ← r; mret (f x)) bs (f a).
Proof.
  intros Hr. rewrite <- (app_nil_r bs). eapply reads_bind; [exact Hr|apply reads_ret].
Qed.

Lemma remaining_mid pre bs post :
  PayloadReader.remaining (PayloadReader.mk (pre ++ bs ++ post) (length pre)) =
    (length bs + length post)%nat.
Proof. unfold PayloadReader.remaining, PayloadReader.size. simpl. rewrite !length_app. lia. Qed.

Lemma ahead_mid pre bs post :
  PayloadReader.ahead (PayloadReader.mk (pre ++ bs ++ post) (length pre)) = bs ++ post.
Proof. unfold PayloadReader.ahead. simpl. by rewrite drop_app_length. Qed.

Lemma reads_fixed {A} n what (get : list Z → A) bs a :
  length bs = n → (∀ post, get (bs ++ post) = a) →
  reads (PayloadReader.fixed n what get) bs a.
Proof.
  intros Hn Hget pre post. unfold PayloadReader.fixed.
  rewrite remaining_mid, ahead_mid, Hget, (proj2 (Nat.ltb_ge _ _)) by lia. by rewrite <- Hn.
Qed.

Lemma reads_u8 v : reads PayloadReader.u8 [v] v.
Proof. by apply reads_fixed. Qed.

Lemma reads_u16 v : in_uint 16 v → reads PayloadReader.u16 (put_le 2 v) v.
Proof.
  intros Hv. apply reads_fixed; [done|]. intros post. rewrite get_u16_le. by apply get_put_le.
Qed.

Lemma reads_u32 v : in_uint 32 v → reads PayloadReader.u32 (put_le 4 v) v.
Proof. intros Hv. apply reads_fixed; [done|]. intros post. by apply get_put_le. Qed.

Lemma reads_u64 v : in_uint 64 v → reads PayloadReader.u64 (put_le 8 v) v.
Proof. intros Hv. apply reads_fixed; [done|]. intros post. by apply get_put_le. Qed.

Lemma to_i64_wrap64 v : - 2 ^ 63 ≤ v < 2 ^ 63 → PayloadReader.to_i64 (wrap64 v) = v.
Proof.
  intros Hv. unfold PayloadReader.to_i64, wrap64, two64.
  change 18446744073709551616 with (2 ^ 64).
  destruct (decide (0 ≤ v)) as [Hs|Hs].
  - rewrite Z.mod_small by lia. by rewrite (proj2 (Z.ltb_lt _ _)) by lia.
  - rewrite <- (Z.mod_add v 1) by lia. rewrite Z.mod_small by lia.
    rewrite (proj2 (Z.ltb_ge _ _)) by lia. lia.
Qed.

Lemma wrap64_uint v : in_uint 64 (wrap64 v).
Proof. unfold in_uint, wrap64, two64. apply Z.mod_pos_bound. lia. Qed.

Lemma reads_i64 v : - 2 ^ 63 ≤ v < 2 ^ 63 → reads PayloadReader.i64 (put_le 8 (wrap64 v)) v.
Proof.
  intros Hv. rewrite <- (to_i64_wrap64 v Hv) at 2.
  apply (reads_map PayloadReader.u64). apply reads_u64, wrap64_uint.
Qed.

Lemma reads_f64 d :
  valid_double d = true → reads PayloadReader.f64 (put_le 8 (bits_of_double d)) d.
Proof.
  intros Hv. rewrite <- (double_of_bits_of_double d Hv) at 2.
  apply (reads_map PayloadReader.u64). apply reads_u64, bits_of_double_range, Hv.
Qed.

Lemma string_bytes_length s : length (string_bytes s) = String.length s.
Proof. unfold string_bytes. rewrite length_fmap. by induction s; simpl; f_equal. Qed.

Lemma string_bytes_are_bytes s : is_bytes (string_bytes s).
Proof.
  unfold is_bytes, string_bytes. rewrite Forall_fmap. apply Forall_forall; intros c _. simpl.
  unfold is_byte, byte_of. pose proof (Ascii.N_ascii_bounded c). lia.
Qed.

Lemma string_of_string_bytes s : PayloadReader.string_of_bytes (string_bytes s) = s.
Proof.
  unfold PayloadReader.string_of_bytes, string_bytes.
  rewrite <- list_fmap_compose.
  rewrite (list_fmap_ext _ id (String.list_ascii_of_string s)), list_fmap_id.
  - apply String.string_of_list_ascii_of_string.
  - intros _ c _. simpl. unfold byte_of. by rewrite N2Z.id, Ascii.ascii_N_embedding.
Qed.

Definition text_image (s : string) : list Z := put_le 4 (slen s) ++ string_bytes s.

Lemma slen_uint s m : slen s ≤ m → m < 2 ^ 32 → in_uint 32 (slen s).
Proof. unfold in_uint, slen. lia. Qed.

Lemma writes_text s m :
  slen s ≤ m → m < 2 ^ 32 → writes (PayloadWriter.text s m) (text_image s).
Proof.
  intros Hs Hm d. unfold PayloadWriter.text.
  rewrite Z.gtb_ltb, (proj2 (Z.ltb_ge _ _)) by lia.
  rewrite Z.mod_small by (by apply (slen_uint s m)).
  apply writes_bind; apply writes_bytes.
Qed.

Lemma reads_text s m :
  slen s ≤ m → m < 2 ^ 32 → reads (PayloadReader.text m) (text_image s) s.
Proof.
  intros Hs Hm. eapply reads_bind; [by apply reads_u32, (slen_uint s m)|].
  intros pre post. unfold PayloadReader.text_body.
  rewrite Z.gtb_ltb, (proj2 (Z.ltb_ge _ _)) by lia.
  rewrite remaining_mid, ahead_mid, string_bytes_length.
  rewrite (proj2 (Z.ltb_ge _ _)) by (unfold slen; lia).
  unfold slen; rewrite Nat2Z.id, take_app_length' by (by rewrite string_bytes_length).
  by rewrite string_of_string_bytes.
Qed.

#[export] Hint Resolve writes_ret writes_bytes writes_bind writes_text : codec.
#[export] Hint Resolve reads_ret reads_u8 reads_u16 reads_u32 reads_u64 reads_i64 reads_f64
  reads_text : codec.

(** ** Sequences of fields

    A payload is written and read field by field; [field] and [shape] name what
    is written and what the reader asks for. *)

Inductive field :=
  | FU8 (v : Z) | FBool (b : bool) | FU16 (v : Z) | FU32 (v : Z) | FU64 (v : Z)
  | FI64 (v : Z) | FF64 (d : double) | FBytes (l : list Z) | FText (s : string) (max : Z).

Inductive shape :=
  | SU8 | SBool | SU16 | SU32 | SU64 | SI64 | SF64 | SBytes (count : nat) | SText (max : Z).

Definition shape_of (f : field) : shape :=
  match f with
  | FU8 _ => SU8 | FBool _ => SBool | FU16 _ => SU16 | FU32 _ => SU32 | FU64 _ => SU64
  | FI64 _ => SI64 | FF64 _ => SF64 | FBytes l => SBytes (length l) | FText _ m => SText m
  end.

(** The values a field can carry, and the bytes it is written as. *)
Definition field_ok (f : field) : Prop :=
  match f with
  | FU8 v => is_byte v | FBool _ => True
  | FU16 v => in_uint 16 v | FU32 v => in_uint 32 v | FU64 v => in_uint 64 v
  | FI64 v => - 2 ^ 63 ≤ v < 2 ^ 63 | FF64 d => valid_double d = true
  | FBytes l => is_bytes l | FText s m => slen s ≤ m ∧ m < 2 ^ 32
  end.

Definition field_image (f : field) : list Z :=
  match f with
  | FU8 v => [v] | FBool b => [if b then 1 else 0]
  | FU16 v => put_le 2 v | FU32 v => put_le 4 v | FU64 v => put_le 8 v
  | FI64 v => put_le 8 (wrap64 v) | FF64 d => put_le 8 (bits_of_double d)
  | FBytes l => l | FText s _ => text_image s
  end.

Definition write_field (f : field) : action PayloadWriter.t unit :=
  match f with
  | FU8 v => PayloadWriter.u8 v | FBool b => PayloadWriter.u8_bool b
  | FU16 v => PayloadWriter.u16 v | FU32 v => PayloadWriter.u32 v
  | FU64 v => PayloadWriter.u64 v | FI64 v => PayloadWriter.i64 v
  | FF64 d => PayloadWriter.f64 d | FBytes l => PayloadWriter.bytes l
  | FText s m => PayloadWriter.text s m
  end.

Definition read_field (s : shape) : action PayloadReader.t field :=
  match s with
  | SU8 => v ← PayloadReader.u8; mret (FU8 v)
  | SBool => v ← PayloadReader.u8; mret (FBool (negb (v =? 0)))
  | SU16 => v ← PayloadReader.u16; mret (FU16 v)
  | SU32 => v ← PayloadReader.u32; mret (FU32 v)
  | SU64 => v ← PayloadReader.u64; mret (FU64 v)
  | SI64 => v ← PayloadReader.i64; mret (FI64 v)
  | SF64 => v ← PayloadReader.f64; mret (FF64 v)
  | SBytes n => v ← PayloadReader.bytes n; mret (FBytes v)
  | SText m => v ← PayloadReader.text m; mret (FText v m)
  end.

Fixpoint write_fields (fs : list field) : action PayloadWriter.t unit :=
  match fs with
  | [] => mret tt
  | f :: fs => write_field f ≫= λ _, write_fields fs
  end.

Fixpoint read_fields (ss : list shape) : action PayloadReader.t (list field) :=
  match ss with
  | [] => mret []
  | s :: ss => v ← read_field s; vs ← read_fields ss; mret (v :: vs)
  end.

(** Decoding a whole payload: every field, then nothing left over. *)
Definition read_payload (ss : list shape) (payload : list Z) : result (list field) :=
  fst ((vs ← read_fields ss; _ ← PayloadReader.require_exhausted; mret vs)
         (PayloadReader.mk payload 0)).

Definition payload_image (fs : list field) : list Z := concat (field_image <$> fs).

Lemma write_field_image f : field_ok f → writes (write_field f) (field_image f).
Proof. destruct f; simpl; intros Hok; try done. destruct Hok; eauto with codec. Qed.

Lemma reads_bytes l : reads (PayloadReader.bytes (length l)) l l.
Proof.
  intros pre post. unfold PayloadReader.bytes. rewrite remaining_mid, ahead_mid.
  rewrite (proj2 (Nat.ltb_ge _ _)) by lia.
  destruct l as [|b l]; simpl Nat.eqb; cbv iota; [by rewrite Nat.add_0_r|].
  by rewrite take_app_length.
Qed.

Lemma read_field_image f : field_ok f → reads (read_field (shape_of f)) (field_image f) f.
Proof.
  destruct f; simpl; intros Hok; try (apply (reads_map _ _ _ _); eauto with codec; fail).
  - destruct b; exact (reads_map _ (λ v, FBool (negb (v =? 0))) _ _ (reads_u8 _)).
  - apply (reads_map (PayloadReader.bytes _)), reads_bytes.
  - destruct Hok. apply (reads_map (PayloadReader.text _) (λ v, FText v max)).
    by apply reads_text.
Qed.

Lemma field_image_bytes f : field_ok f → is_bytes (field_image f).
Proof.
  unfold is_bytes.
  destruct f as [|[]| | | | | | |]; simpl; intros Hok; try apply put_le_bytes; try done.
  - by apply Forall_singleton.
  - by apply Forall_singleton.
  - by apply Forall_singleton.
  - apply Forall_app; split; [apply put_le_bytes|apply string_bytes_are_bytes].
Qed.

Lemma write_fields_image fs : Forall field_ok fs → writes (write_fields fs) (payload_image fs).
Proof.
  induction 1 as [|f fs Hf _ IH]; [apply writes_ret|].
  apply writes_bind; [by apply write_field_image|done].
Qed.

Lemma read_fields_image fs :
  Forall field_ok fs → reads (read_fields (shape_of <$> fs)) (payload_image fs) fs.
Proof.
  induction 1 as [|f fs Hf _ IH]; [apply (reads_ret (A := list field))|].
  eapply reads_bind; [by apply read_field_image|].
  by apply (reads_map _ (cons f)).
Qed.

(** Reading the fields of a payload that goes on after them. *)
Lemma read_fields_prefix fs post : Forall field_ok fs →
  read_fields (shape_of <$> fs) (PayloadReader.mk (payload_image fs ++ post) 0) =
    (Ok fs, PayloadReader.mk (payload_image fs ++ post) (length (payload_image fs))).
Proof. intros Hok. apply (read_fields_image fs Hok []). Qed.

(** ** Damaged payloads

    A reader action is [stable] when more input behind the buffer changes
    nothing but a shortage: it either ran out of input, or does exactly the
    same on the longer buffer.  It never leaves the buffer it was given. *)

Definition stable {A} (r : action PayloadReader.t A) : Prop :=
  ∀ data pos, (pos ≤ length data)%nat →
    match r (PayloadReader.mk data pos) with
    | (Ok a, r') =>
        ∃ pos', r' = PayloadReader.mk data pos' ∧ (pos ≤ pos' ≤ length data)%nat ∧
          ∀ post, r (PayloadReader.mk (data ++ post) pos) =
                    (Ok a, PayloadReader.mk (data ++ post) pos')
    | (Err e, r') =>
        (∃ pos', r' = PayloadReader.mk data pos' ∧ (pos ≤ pos' ≤ length data)%nat) ∧
        (Error.code e = ErrorCode.Truncated ∨
         ∀ post, fst (r (PayloadReader.mk (data ++ post) pos)) = Err e)
    end.

Lemma stable_ret {A} (a : A) : stable (mret a).
Proof. intros data pos Hpos. exists pos. split_and!; done || lia. Qed.

Lemma stable_fail {A} (e : Error.t) : stable (λ r, (Err e : result A, r)).
Proof. intros data pos Hpos. split; [exists pos; split_and!; done || lia|by right]. Qed.

Lemma stable_bind {A B} (r : action _ A) (k : A → action _ B) :
  stable r → (∀ a, stable (k a)) → stable (r ≫= k).
Proof.
  intros Hr Hk data pos Hpos. specialize (Hr data pos Hpos). unfold mbind, action_bind.
  destruct (r (PayloadReader.mk data pos)) as [[a|e] r'].
  - destruct Hr as (p1 & -> & Hp1 & Hext). specialize (Hk a data p1 ltac:(lia)).
    destruct (k a (PayloadReader.mk data p1)) as [[b|e] r''].
    + destruct Hk as (p2 & -> & Hp2 & Hext2). exists p2. split_and!; [done|lia..|].
      intros post. by rewrite Hext, Hext2.
    + destruct Hk as [(p2 & -> & Hp2) [Ht|Hext2]]; (split; [exists p2; split_and!; done || lia|]).
      * by left.
      * right. intros post. by rewrite Hext, Hext2.
  - destruct Hr as [(p1 & -> & Hp1) [Ht|Hext]]; (split; [exists p1; split_and!; done || lia|]).
    + by left.
    + right. intros post. specialize (Hext post).
      destruct (r (PayloadReader.mk (data ++ post) pos)) as [[a|e'] r'']; simpl in *; congruence.
Qed.

(** A read of [n] bytes that looks at those bytes only. *)
Lemma stable_take {A} n (e : Error.t) (get : list Z → A) :
  Error.code e = ErrorCode.Truncated →
  stable (λ r, if Nat.ltb (PayloadReader.remaining r) n then (Err e, r)
               else (Ok (get (take n (PayloadReader.ahead r))), PayloadReader.advance n r)).
Proof.
  intros He data pos Hpos. unfold PayloadReader.remaining, PayloadReader.size. simpl.
  destruct (Nat.ltb_spec (length data - pos) n) as [Hlt|Hge].
  { split; [exists pos; split_and!; done || lia|by left]. }
  exists (pos + n)%nat. split_and!; [done|lia..|]. intros post.
  rewrite (proj2 (Nat.ltb_ge _ _)) by (rewrite length_app; lia).
  unfold PayloadReader.ahead, PayloadReader.advance. simpl.
  by rewrite drop_app_le, take_app_le by (rewrite ?length_drop; lia).
Qed.

Lemma stable_ext {A} (r r' : action PayloadReader.t A) :
  (∀ x, r x = r' x) → stable r → stable r'.
Proof.
  intros Heq Hr data pos Hpos. specialize (Hr data pos Hpos). rewrite Heq in Hr.
  destruct (r' (PayloadReader.mk data pos)) as [[a|e] r''].
  - destruct Hr as (p' & -> & Hp & Hext). exists p'. split_and!; [done|lia..|].
    intros post. by rewrite <- Heq.
  - destruct Hr as [Hp [Ht|Hext]]; (split; [done|]); [by left|right].
    intros post. by rewrite <- Heq.
Qed.

Lemma stable_fixed {A} n what (get : list Z → A) :
  (∀ l, (n ≤ length l)%nat → get (take n l) = get l) → stable (PayloadReader.fixed n what get).
Proof.
  intros Hget. eapply stable_ext; [|eapply (stable_take n (Error.mk _ _ _) get); done].
  intros r. unfold PayloadReader.fixed.
  destruct (Nat.ltb_spec (PayloadReader.remaining r) n) as [|Hge]; [done|].
  rewrite Hget; [done|]. unfold PayloadReader.ahead.
  unfold PayloadReader.remaining, PayloadReader.size in Hge. rewrite length_drop. lia.
Qed.

Lemma get_le_take n l : (n ≤ length l)%nat → get_le n (take n l) = get_le n l.
Proof.
  intros Hn. rewrite !get_le_spec by (rewrite ?length_take; lia).
  by rewrite take_take, Nat.min_id.
Qed.

Lemma stable_u8 : stable PayloadReader.u8.
Proof. apply stable_fixed. intros [|b l]; simpl; [lia|done]. Qed.
Lemma stable_u16 : stable PayloadReader.u16.
Proof. apply stable_fixed. intros l Hl. rewrite !get_u16_le. by apply get_le_take. Qed.
Lemma stable_u32 : stable PayloadReader.u32.
Proof. apply stable_fixed, get_le_take. Qed.
Lemma stable_u64 : stable PayloadReader.u64.
Proof. apply stable_fixed, get_le_take. Qed.
Lemma stable_i64 : stable PayloadReader.i64.
Proof. apply stable_bind; [apply stable_u64|]. intros; apply stable_ret. Qed.
Lemma stable_f64 : stable PayloadReader.f64.
Proof. apply stable_bind; [apply stable_u64|]. intros; apply stable_ret. Qed.

Lemma stable_bytes n : stable (PayloadReader.bytes n).
Proof.
  destruct n as [|n]; [intros data pos Hpos; exists pos; split_and!; done || lia|].
  by eapply (stable_take (S n) (Error.mk _ _ _) id).
Qed.

Lemma stable_text m : stable (PayloadReader.text m).
Proof.
  apply stable_bind; [apply stable_u32|]. intros len.
  unfold PayloadReader.text_body. destruct (len >? m); [apply stable_fail|].
  eapply stable_ext;
    [|eapply (stable_take (Z.to_nat len) (Error.mk _ _ _) PayloadReader.string_of_bytes); done].
  intros r. simpl.
  destruct (Nat.ltb_spec (PayloadReader.remaining r) (Z.to_nat len)),
    (Z.ltb_spec (Z.of_nat (PayloadReader.remaining r)) len); done || lia.
Qed.

#[export] Hint Resolve stable_ret stable_fail stable_bind stable_u8 stable_u16 stable_u32
  stable_u64 stable_i64 stable_f64 stable_bytes stable_text : codec.

(** A strict prefix of what a stable reader accepts is refused as truncated. *)
Lemma reads_prefix_truncated {A} (r : action _ A) bs a p q :
  stable r → reads r bs a → bs = p ++ q → q ≠ [] →
  code_of (fst (r (PayloadReader.mk p 0))) = ErrorCode.Truncated.
Proof.
  intros Hs Hr -> Hq. specialize (Hs p 0%nat ltac:(lia)). specialize (Hr [] []).
  simpl in Hr. rewrite app_nil_r in Hr.
  destruct (r (PayloadReader.mk p 0)) as [[b|e] r'].
  - destruct Hs as (p' & _ & Hp' & Hext). rewrite Hext in Hr. simplify_eq.
    rewrite length_app in Hp'. destruct q; [done|simpl in *; lia].
  - destruct Hs as [_ [Ht|Hext]]; [done|]. specialize (Hext q). by rewrite Hr in Hext.
Qed.

Lemma stable_read_fields ss : stable (read_fields ss).
Proof.
  induction ss as [|s ss IH]; simpl; [apply stable_ret|].
  apply stable_bind; [|eauto with codec].
  destruct s; simpl; apply stable_bind; eauto with codec.
Qed.

(** Reading a payload is reading its fields and finding nothing left. *)
Lemma read_payload_Ok ss payload fs :
  read_payload ss payload = Ok fs ↔
    read_fields ss (PayloadReader.mk payload 0) = (Ok fs, PayloadReader.mk payload (length payload)).
Proof.
  unfold read_payload, mbind, action_bind.
  pose proof (stable_read_fields ss payload 0%nat ltac:(lia)) as Hs.
  destruct (read_fields ss (PayloadReader.mk payload 0)) as [[vs|e] r']; [|naive_solver].
  destruct Hs as (p' & -> & Hp & _).
  unfold PayloadReader.require_exhausted, PayloadReader.exhausted, PayloadReader.size. simpl.
  destruct (Nat.eqb_spec p' (length payload)) as [->|Hne]; simpl; split; try done; congruence.
Qed.

(**  Whatever sequence of fields a payload writer writes within their
    ranges, a reader that asks for fields of the same shapes gets the same
    values back and has consumed the payload exactly; the payload is refused as
    truncated wherever it is cut, and refused for trailing bytes whatever is
    appended to it. *)
Theorem payload_codec_exact (fs : list field) :
  Forall field_ok fs →
  ∃ payload, write_fields fs [] = (Ok tt, payload) ∧ is_bytes payload ∧
    read_payload (shape_of <$> fs) payload = Ok fs ∧
    (∀ p q, payload = p ++ q → q ≠ [] →
       code_of (read_payload (shape_of <$> fs) p) = ErrorCode.Truncated) ∧
    (∀ extra, extra ≠ [] →
       code_of (read_payload (shape_of <$> fs) (payload ++ extra)) = ErrorCode.TrailingBytes).
Proof.
  intros Hok. exists (payload_image fs). split_and!.
  - by apply write_fields_image.
  - unfold is_bytes, payload_image. apply Forall_concat, Forall_fmap.
    eapply Forall_impl; [exact Hok|]. apply field_image_bytes.
  - apply read_payload_Ok. pose proof (read_fields_prefix fs [] Hok) as Hr.
    by rewrite app_nil_r in Hr.
  - intros p q Hpq Hq.
    pose proof (reads_prefix_truncated _ _ _ p q (stable_read_fields _)
                  (read_fields_image fs Hok) Hpq Hq) as Ht.
    unfold read_payload, mbind, action_bind.
    by destruct (read_fields _ (PayloadReader.mk p 0)) as [[vs|e] r'].
  - intros extra Hx. unfold read_payload, mbind, action_bind.
    rewrite read_fields_prefix by done.
    unfold PayloadReader.require_exhausted, PayloadReader.exhausted, PayloadReader.size. simpl.
    rewrite length_app. destruct extra; [done|].
    by rewrite (proj2 (Nat.eqb_neq _ _)) by (simpl; lia).
Qed.

(** ** Codecs

    [codes w r a]: what [w] writes, [r] reads back as [a].  The relation
    composes along the monadic structure of writer and reader, field by field,
    so that the round trip of a record is the round trips of its fields. *)

Definition codes {A} (w : action PayloadWriter.t unit) (r : action PayloadReader.t A) (a : A)
  : Prop := ∃ bs, is_bytes bs ∧ writes w bs ∧ reads r bs a.

Create HintDb codes.

Lemma codes_ret {A} (a : A) : codes (mret tt) (mret a) a.
Proof. exists []. split; [constructor|]. split; [apply writes_ret|apply reads_ret]. Qed.

Lemma codes_bind {A B} w (r : action _ A) a k w' (b : B) :
  codes w r a → codes w' (k a) b → codes (w ≫= λ _, w') (r ≫= k) b.
Proof.
  intros (bs & Hb & Hw & Hr) (cs & Hc & Hw' & Hr'). exists (bs ++ cs). split_and!.
  - by apply Forall_app.
  - by apply writes_bind.
  - by eapply reads_bind.
Qed.

(** The last field of a record needs no continuation on the writer's side ... *)
Lemma codes_last {A B} w (r : action _ A) a (k : A → action _ B) b :
  codes w r a → reads (k a) [] b → codes w (r ≫= k) b.
Proof.
  intros (bs & Hb & Hw & Hr) Hk. exists bs. split_and!; [done..|].
  rewrite <- (app_nil_r bs). by eapply reads_bind.
Qed.

(** ... and a pure conversion of what is read none at all. *)
Lemma codes_map {A B} w (r : action _ A) a (f : A → B) b :
  codes w r a → f a = b → codes w (x ← r; mret (f x)) b.
Proof. intros Hc <-. eapply codes_last; [done|]. apply reads_ret. Qed.

Lemma codes_u8 v : is_byte v → codes (PayloadWriter.u8 v) PayloadReader.u8 v.
Proof. intros Hv. exists [v]. split_and!; [by constructor|done|apply reads_u8]. Qed.

Lemma codes_image {A} w (r : action _ A) bs a :
  is_bytes bs → writes w bs → reads r bs a → codes w r a.
Proof. intros. by exists bs. Qed.

Lemma codes_u16 v : in_uint 16 v → codes (PayloadWriter.u16 v) PayloadReader.u16 v.
Proof. intros Hv. by eapply codes_image; [apply (put_le_bytes 2)| |apply reads_u16]. Qed.
Lemma codes_u32 v : in_uint 32 v → codes (PayloadWriter.u32 v) PayloadReader.u32 v.
Proof. intros Hv. by eapply codes_image; [apply (put_le_bytes 4)| |apply reads_u32]. Qed.
Lemma codes_u64 v : in_uint 64 v → codes (PayloadWriter.u64 v) PayloadReader.u64 v.
Proof. intros Hv. by eapply codes_image; [apply (put_le_bytes 8)| |apply reads_u64]. Qed.

Definition in_i64 (v : Z) : Prop := - 2 ^ 63 ≤ v < 2 ^ 63.

Lemma codes_i64 v : in_i64 v → codes (PayloadWriter.i64 v) PayloadReader.i64 v.
Proof. intros Hv. by eapply codes_image; [apply (put_le_bytes 8)| |apply reads_i64]. Qed.
Lemma codes_f64 d : valid_double d = true → codes (PayloadWriter.f64 d) PayloadReader.f64 d.
Proof. intros Hv. by eapply codes_image; [apply (put_le_bytes 8)| |apply reads_f64]. Qed.

Lemma codes_text s m :
  slen s ≤ m → m < 2 ^ 32 → codes (PayloadWriter.text s m) (PayloadReader.text m) s.
Proof.
  intros Hs Hm. eapply codes_image; [|by apply writes_text|by apply reads_text].
  apply Forall_app; split; [apply put_le_bytes|apply string_bytes_are_bytes].
Qed.

(** A flag: written as 0 or 1, read as set when not 0. *)
Definition read_bool : action PayloadReader.t bool :=
  v ← PayloadReader.u8; mret (negb (v =? 0)).

Lemma codes_bool b : codes (PayloadWriter.u8_bool b) read_bool b.
Proof.
  exists [if b then 1 else 0]. split_and!.
  - by destruct b; apply Forall_singleton.
  - done.
  - destruct b; exact (reads_map _ (λ v, negb (v =? 0)) _ _ (reads_u8 _)).
Qed.

Lemma stable_bool : stable read_bool.
Proof. apply stable_bind; eauto with codec. Qed.

(** A call whose status the program discards. *)
Definition unchecked {S} (m : action S unit) : action S unit := λ s, (Ok tt, snd (m s)).

Lemma codes_unchecked {A} w (r : action _ A) a : codes w r a → codes (unchecked w) r a.
Proof.
  intros (bs & Hb & Hw & Hr). exists bs. split_and!; [done| |done].
  intros d. unfold unchecked. by rewrite Hw.
Qed.

(** A check on what was read that leaves the reader alone. *)
Definition lift {S A} (r : result A) : action S A := λ s, (r, s).

Lemma stable_lift {A} (r : result A) : stable (lift r).
Proof. destruct r as [a|e]; [apply (stable_ret a)|apply stable_fail]. Qed.

Lemma stable_if {A} (b : bool) (r r' : action PayloadReader.t A) :
  stable r → stable r' → stable (if b then r else r').
Proof. by destruct b. Qed.

(** Sequences: all elements written in order, [n] elements read. *)
Fixpoint write_all {A} (w : A → action PayloadWriter.t unit) (l : list A)
  : action PayloadWriter.t unit :=
  match l with
  | [] => mret tt
  | a :: l => w a ≫= λ _, write_all w l
  end.

Fixpoint read_n {A} (n : nat) (r : action PayloadReader.t A) : action PayloadReader.t (list A) :=
  match n with
  | O => mret []
  | S n => a ← r; l ← read_n n r; mret (a :: l)
  end.

Lemma codes_all {A B} (w : A → action _ unit) (r : action _ B) (f : A → B) l :
  Forall (λ a, codes (w a) r (f a)) l → codes (write_all w l) (read_n (length l) r) (f <$> l).
Proof.
  induction 1 as [|a l Ha _ IH]; [apply (codes_ret (A := list B))|]. simpl.
  eapply codes_bind; [exact Ha|]. by eapply codes_map.
Qed.

Lemma stable_read_n {A} n (r : action _ A) : stable r → stable (read_n n r).
Proof.
  intros Hr. induction n as [|n IH]; simpl; [apply stable_ret|].
  apply stable_bind; [done|]. intros a. apply stable_bind; [done|]. intros l. apply stable_ret.
Qed.

#[export] Hint Resolve stable_bool stable_lift stable_if stable_read_n : codec.
#[export] Hint Resolve codes_ret codes_u8 codes_u16 codes_u32 codes_u64 codes_i64 codes_f64
  codes_bool codes_text codes_unchecked : codes.

(** A payload that holds one record and nothing else. *)
Lemma codes_payload {A} w (r : action _ A) a :
  codes w r a → stable r →
  ∃ payload, w [] = (Ok tt, payload) ∧ is_bytes payload ∧
    r (PayloadReader.mk payload 0) = (Ok a, PayloadReader.mk payload (length payload)) ∧
    ∀ p q, payload = p ++ q → q ≠ [] →
      code_of (fst (r (PayloadReader.mk p 0))) = ErrorCode.Truncated.
Proof.
  intros (bs & Hb & Hw & Hr) Hs. exists bs. split_and!.
  - apply (Hw []).
  - done.
  - specialize (Hr [] []). simpl in Hr. by rewrite app_nil_r in Hr.
  - intros p q Hpq Hq. by eapply reads_prefix_truncated.
Qed.

Definition sample_fields : list field :=
  [FU8 7; FBool true; FU16 513; FU32 70000; FU64 (2 ^ 63); FI64 (-5); FF64 (d_ratio 1 3);
   FBytes [1; 2; 3]; FText "numa0" 64].

Lemma sample_fields_ok : Forall field_ok sample_fields.
Proof. repeat constructor; simpl; try (vm_compute; done); unfold is_byte, in_uint; lia. Qed.

Lemma payload_codec_exact_witness :
  ∃ payload, write_fields sample_fields [] = (Ok tt, payload) ∧
             read_payload (shape_of <$> sample_fields) payload = Ok sample_fields.
Proof.
  destruct (payload_codec_exact sample_fields sample_fields_ok) as (p & Hw & _ & Hr & _).
  exists p. exact (conj Hw Hr).
Defined.
