(* ===== verification/Protocol.v ===== *)
(** * The wire protocol

    The frame format of [src/protocol.cpp] ([include/coherence/protocol.hpp])
    and the frame reassembly of [src/transport.cpp].  A frame is a 32-byte
    header that carries its own checksum, a bounded payload and the checksum of
    the payload:

<<
      magic[8] version[2] type[2] flags[4] sequence[8] length[4] header_crc[4]
      payload[length] payload_crc[4]
>>

    Encoding writes into a buffer at fixed offsets ([list_inserts]) as the code
    does; [encode_layout] shows what it comes to. *)

From S2P Require Import Prelude Errors TextUtil Codec.

(** ** Message types, roles and acknowledgement states *)

Module MessageType.
Inductive t :=
  | Hello | HelloAck | RegisterPublisher | RegisterResource | RegisterRegion
  | RegisterCoherenceDomain | SetTopologyLink | PublishEvent | PublishBatch | PublishCounter
  | QuerySnapshot | QueryFindings | QueryAttribution | Fence | Heartbeat | SaveState
  | BumpTopology | RetireRegion | Ack | Error | SnapshotResponse | FindingsResponse
  | AttributionResponse
  | Other (raw : Z).

#[global] Instance t_eq_dec : EqDecision t.
Proof. solve_decision. Defined.

(** [static_cast<std::uint16_t>] and back. *)
Definition code (m : t) : Z :=
  match m with
  | Hello => 1 | HelloAck => 2 | RegisterPublisher => 3 | RegisterResource => 4
  | RegisterRegion => 5 | RegisterCoherenceDomain => 6 | SetTopologyLink => 7
  | PublishEvent => 8 | PublishBatch => 9 | PublishCounter => 10 | QuerySnapshot => 11
  | QueryFindings => 12 | QueryAttribution => 13 | Fence => 14 | Heartbeat => 15
  | SaveState => 16 | BumpTopology => 17 | RetireRegion => 18 | Ack => 100 | Error => 101
  | SnapshotResponse => 102 | FindingsResponse => 103 | AttributionResponse => 104
  | Other raw => raw
  end.

Definition of_code (n : Z) : t :=
  match n with
  | 1 => Hello | 2 => HelloAck | 3 => RegisterPublisher | 4 => RegisterResource
  | 5 => RegisterRegion | 6 => RegisterCoherenceDomain | 7 => SetTopologyLink
  | 8 => PublishEvent | 9 => PublishBatch | 10 => PublishCounter | 11 => QuerySnapshot
  | 12 => QueryFindings | 13 => QueryAttribution | 14 => Fence | 15 => Heartbeat
  | 16 => SaveState | 17 => BumpTopology | 18 => RetireRegion | 100 => Ack | 101 => Error
  | 102 => SnapshotResponse | 103 => FindingsResponse | 104 => AttributionResponse
  | _ => Other n
  end.

Definition to_string (m : t) : string :=
  match m with
  | Hello => "HELLO"
  | HelloAck => "HELLO_ACK"
  | RegisterPublisher => "REGISTER_PUBLISHER"
  | RegisterResource => "REGISTER_RESOURCE"
  | RegisterRegion => "REGISTER_REGION"
  | RegisterCoherenceDomain => "REGISTER_COHERENCE_DOMAIN"
  | SetTopologyLink => "SET_TOPOLOGY_LINK"
  | PublishEvent => "PUBLISH_EVENT"
  | PublishBatch => "PUBLISH_BATCH"
  | PublishCounter => "PUBLISH_COUNTER"
  | QuerySnapshot => "QUERY_SNAPSHOT"
  | QueryFindings => "QUERY_FINDINGS"
  | QueryAttribution => "QUERY_ATTRIBUTION"
  | Fence => "FENCE"
  | Heartbeat => "HEARTBEAT"
  | SaveState => "SAVE_STATE"
  | BumpTopology => "BUMP_TOPOLOGY"
  | RetireRegion => "RETIRE_REGION"
  | Ack => "ACK"
  | Error => "ERROR"
  | SnapshotResponse => "SNAPSHOT_RESPONSE"
  | FindingsResponse => "FINDINGS_RESPONSE"
  | AttributionResponse => "ATTRIBUTION_RESPONSE"
  | Other _ => "UNKNOWN"
  end.

Lemma code_of_code n : code (of_code n) = n.
Proof. unfold of_code. repeat (case_match; try reflexivity). Qed.
End MessageType.

Definition is_known_message_type (raw : Z) : bool :=
  match MessageType.of_code raw with MessageType.Other _ => false | _ => true end.

Definition parse_message_type (raw : Z) : result MessageType.t :=
  if negb (is_known_message_type raw)
  then fail_ctx ErrorCode.UnknownMessageType "unknown message type" (format_u64 raw)
  else Ok (MessageType.of_code raw).

Module ClientRole.
Inductive t := Publisher | Client | Admin | Other (raw : Z).

#[global] Instance t_eq_dec : EqDecision t.
Proof. solve_decision. Defined.

Definition code (r : t) : Z :=
  match r with Publisher => 0 | Client => 1 | Admin => 2 | Other raw => raw end.
Definition of_code (n : Z) : t :=
  match n with 0 => Publisher | 1 => Client | 2 => Admin | _ => Other n end.
Definition to_string (r : t) : string :=
  match r with
  | Publisher => "PUBLISHER" | Client => "CLIENT" | Admin => "ADMIN" | Other _ => "PUBLISHER"
  end.
End ClientRole.

Module AckStatus.
Inductive t :=
  | Accepted | PartiallyAccepted | Rejected | Unauthorized | StaleEpoch | StaleBoot
  | StaleGeneration | StaleSequence | Malformed | Capacity | Unsupported | InternalError
  | Other (raw : Z).

#[global] Instance t_eq_dec : EqDecision t.
Proof. solve_decision. Defined.

Definition code (s : t) : Z :=
  match s with
  | Accepted => 0 | PartiallyAccepted => 1 | Rejected => 2 | Unauthorized => 3
  | StaleEpoch => 4 | StaleBoot => 5 | StaleGeneration => 6 | StaleSequence => 7
  | Malformed => 8 | Capacity => 9 | Unsupported => 10 | InternalError => 11
  | Other raw => raw
  end.

Definition of_code (n : Z) : t :=
  match n with
  | 0 => Accepted | 1 => PartiallyAccepted | 2 => Rejected | 3 => Unauthorized
  | 4 => StaleEpoch | 5 => StaleBoot | 6 => StaleGeneration | 7 => StaleSequence
  | 8 => Malformed | 9 => Capacity | 10 => Unsupported | 11 => InternalError
  | _ => Other n
  end.

Definition to_string (s : t) : string :=
  match s with
  | Accepted => "ACCEPTED"
  | PartiallyAccepted => "PARTIALLY_ACCEPTED"
  | Rejected => "REJECTED"
  | Unauthorized => "UNAUTHORIZED"
  | StaleEpoch => "STALE_EPOCH"
  | StaleBoot => "STALE_BOOT"
  | StaleGeneration => "STALE_GENERATION"
  | StaleSequence => "STALE_SEQUENCE"
  | Malformed => "MALFORMED"
  | Capacity => "CAPACITY"
  | Unsupported => "UNSUPPORTED"
  | InternalError => "INTERNAL_ERROR"
  | Other _ => "INTERNAL_ERROR"
  end.
End AckStatus.

Definition ack_status_for (c : ErrorCode.t) : AckStatus.t :=
  match c with
  | ErrorCode.Ok => AckStatus.Accepted
  | ErrorCode.Unauthorized => AckStatus.Unauthorized
  | ErrorCode.StaleEpoch => AckStatus.StaleEpoch
  | ErrorCode.StaleBoot => AckStatus.StaleBoot
  | ErrorCode.StaleGeneration => AckStatus.StaleGeneration
  | ErrorCode.StaleSequence => AckStatus.StaleSequence
  | ErrorCode.RetiredEntity => AckStatus.StaleGeneration
  | ErrorCode.Capacity | ErrorCode.TooMany => AckStatus.Capacity
  | ErrorCode.UnsupportedCapability => AckStatus.Unsupported
  | ErrorCode.InvalidMagic | ErrorCode.UnsupportedVersion | ErrorCode.UnknownMessageType
  | ErrorCode.InvalidFlags | ErrorCode.Truncated | ErrorCode.IntegrityFailure
  | ErrorCode.ProtocolError | ErrorCode.TrailingBytes | ErrorCode.InvalidArgument
  | ErrorCode.OutOfRange | ErrorCode.TooLarge | ErrorCode.Conflict | ErrorCode.NotFound
  | ErrorCode.AlreadyExists | ErrorCode.Duplicate | ErrorCode.Overflow | ErrorCode.Saturated
  | ErrorCode.Busy | ErrorCode.Shutdown | ErrorCode.IoError | ErrorCode.ConnectionClosed
  | ErrorCode.Internal | ErrorCode.PrecisionInsufficient | ErrorCode.CorruptState
  | ErrorCode.UnsupportedStateVersion | ErrorCode.EmptyState => AckStatus.Malformed
  end.

(** ** Frame headers *)

Definition kWireProtocolVersion : Z := 1.
Definition kFrameMagic : list Z := string_bytes "COBSFRM1".

Module frame_flags.
Definition kNone : Z := 0.
Definition kAckRequired : Z := Z.shiftl 1 0.
Definition kResponse : Z := Z.shiftl 1 1.
Definition kKnownMask : Z := Z.lor kAckRequired kResponse.
End frame_flags.

(** [kFrameHeaderSize] as an index. *)
Definition header_size : nat := Z.to_nat Limits.kFrameHeaderSize.

Module FrameHeader.
Record t := mk {
  magic : list Z;
  version : Z;
  type : Z;
  flags : Z;
  frame_sequence : Z;
  payload_length : Z;
  header_crc : Z;
}.

(** [encode(out)]: seven stores at their offsets, the last one with the
    checksum of the 32 bytes in which it is still zero. *)
Definition encode (h : t) (out : list Z) : list Z :=
  let out := list_inserts 0 (magic h) out in
  let out := list_inserts 8 (put_u16 (version h)) out in
  let out := list_inserts 10 (put_u16 (type h)) out in
  let out := list_inserts 12 (put_u32 (flags h)) out in
  let out := list_inserts 16 (put_u64 (frame_sequence h)) out in
  let out := list_inserts 24 (put_u32 (payload_length h)) out in
  let out := list_inserts 28 (put_u32 0) out in
  list_inserts 28 (put_u32 (crc32 (take header_size out))) out.

(** The fields of a header, as they lie in the buffer. *)
Definition parse (input : list Z) : t :=
  mk (take 8 input) (get_u16 (drop 8 input)) (get_u16 (drop 10 input))
     (get_u32 (drop 12 input)) (get_u64 (drop 16 input)) (get_u32 (drop 24 input))
     (get_u32 (drop 28 input)).

Definition decode (input : list Z) : result t :=
  if zlen input <? Limits.kFrameHeaderSize
  then fail_ctx ErrorCode.Truncated "frame header is short" (format_u64 (zlen input))
  else if negb (bool_decide (take 8 input = kFrameMagic))
  then fail ErrorCode.InvalidMagic "frame magic mismatch"
  else
    let header := parse input in
    if negb (version header =? kWireProtocolVersion)
    then fail_ctx ErrorCode.UnsupportedVersion "unsupported protocol version"
           (format_u64 (version header))
    else if negb (is_known_message_type (type header))
    then fail_ctx ErrorCode.UnknownMessageType "unknown message type" (format_u64 (type header))
    else if negb (Z.ldiff (flags header) frame_flags.kKnownMask =? 0)
    then fail_ctx ErrorCode.InvalidFlags "unknown frame flag bits" (format_u64 (flags header))
    else if payload_length header >? Limits.kMaxFramePayload
    then fail_ctx ErrorCode.TooLarge "frame payload exceeds the maximum size"
           (format_u64 (payload_length header))
    else
      let copy := list_inserts 28 (put_u32 0) (take header_size input) in
      if negb (crc32 copy =? header_crc header)
      then fail ErrorCode.IntegrityFailure "frame header checksum mismatch"
      else Ok header.
End FrameHeader.

(** ** Frames *)

Module Frame.
Record t := mk {
  type : MessageType.t;
  flags : Z;
  frame_sequence : Z;
  payload : list Z;
}.

#[global] Instance t_eq_dec : EqDecision t.
Proof. solve_decision. Defined.

Definition encode (f : t) : list Z :=
  let size := length (payload f) in
  let out := replicate (header_size + size + Z.to_nat Limits.kFrameTrailerSize) 0 in
  let header := FrameHeader.mk kFrameMagic kWireProtocolVersion (MessageType.code (type f))
                  (flags f) (frame_sequence f) (zlen (payload f) mod 2 ^ 32) 0 in
  let out := FrameHeader.encode header out in
  let out := if Nat.eqb size 0 then out else list_inserts header_size (payload f) out in
  list_inserts (header_size + size) (put_u32 (crc32 (payload f))) out.

(** The frame length a header declares. *)
Definition total (h : FrameHeader.t) : Z :=
  Limits.kFrameHeaderSize + FrameHeader.payload_length h + Limits.kFrameTrailerSize.

Definition sizes (expected actual : Z) : string :=
  "expected=" +:+ format_u64 expected +:+ " actual=" +:+ format_u64 actual.

Definition decode (data : list Z) : result t :=
  header ← FrameHeader.decode data;
  let size := zlen data in
  let expected := total header in
  let length := Z.to_nat (FrameHeader.payload_length header) in
  if size <? expected
  then fail_ctx ErrorCode.Truncated "frame is truncated" (sizes expected size)
  else if size >? expected
  then fail_ctx ErrorCode.TrailingBytes "bytes follow the declared frame length"
         (sizes expected size)
  else
    let payload := take length (drop header_size data) in
    let declared := get_u32 (drop (header_size + length) data) in
    if negb (crc32 payload =? declared)
    then fail ErrorCode.IntegrityFailure "frame payload checksum mismatch"
    else Ok (mk (MessageType.of_code (FrameHeader.type header)) (FrameHeader.flags header)
               (FrameHeader.frame_sequence header) payload).
End Frame.

(** A frame the protocol can carry. *)
Definition frame_ok (f : Frame.t) : Prop :=
  is_known_message_type (MessageType.code (Frame.type f)) = true ∧
  MessageType.of_code (MessageType.code (Frame.type f)) = Frame.type f ∧
  in_uint 32 (Frame.flags f) ∧ Z.ldiff (Frame.flags f) frame_flags.kKnownMask = 0 ∧
  in_uint 64 (Frame.frame_sequence f) ∧
  is_bytes (Frame.payload f) ∧ zlen (Frame.payload f) ≤ Limits.kMaxFramePayload.

(** ** What encoding comes to *)

Lemma inserts_next {A} (pre k r : list A) :
  (length k ≤ length r)%nat →
  list_inserts (length pre) k (pre ++ r) = (pre ++ k) ++ drop (length k) r.
Proof.
  intros Hk. rewrite <- (Nat.add_0_r (length pre)), list_inserts_app_r, <- app_assoc. f_equal.
  rewrite <- (take_drop (length k) r) at 1. apply list_inserts_0_r. rewrite length_take. lia.
Qed.

Lemma inserts_next' {A} i n (pre k r : list A) :
  length pre = i → length k = n → (n ≤ length r)%nat →
  list_inserts i k (pre ++ r) = (pre ++ k) ++ drop n r.
Proof. intros <- <-. apply inserts_next. Qed.

Ltac solve_length :=
  rewrite ?length_app, ?put_le_length, ?length_drop, ?length_take, ?length_replicate; simpl length; lia.

(** The first 28 bytes of an encoded header. *)
Definition header_head (h : FrameHeader.t) : list Z :=
  FrameHeader.magic h ++ put_le 2 (FrameHeader.version h) ++ put_le 2 (FrameHeader.type h) ++
  put_le 4 (FrameHeader.flags h) ++ put_le 8 (FrameHeader.frame_sequence h) ++
  put_le 4 (FrameHeader.payload_length h).

Definition zeroed (head : list Z) : list Z := head ++ [0; 0; 0; 0].
Definition header_image (head : list Z) : list Z := head ++ put_le 4 (crc32 (zeroed head)).

Lemma header_head_length h : length (FrameHeader.magic h) = 8%nat → length (header_head h) = 28%nat.
Proof. intros Hm. unfold header_head. rewrite !length_app, !put_le_length, Hm. done. Qed.

Lemma header_fields_layout h out :
  length (FrameHeader.magic h) = 8%nat → (28 ≤ length out)%nat →
  list_inserts 24 (put_u32 (FrameHeader.payload_length h))
    (list_inserts 16 (put_u64 (FrameHeader.frame_sequence h))
      (list_inserts 12 (put_u32 (FrameHeader.flags h))
        (list_inserts 10 (put_u16 (FrameHeader.type h))
          (list_inserts 8 (put_u16 (FrameHeader.version h))
            (list_inserts 0 (FrameHeader.magic h) out))))) =
  header_head h ++ drop 28 out.
Proof.
  intros Hm Hout. unfold header_head, put_u32, put_u64.
  rewrite (put_u16_le (FrameHeader.version h)), (put_u16_le (FrameHeader.type h)).
  change (list_inserts 0 (FrameHeader.magic h) out)
    with (list_inserts 0 (FrameHeader.magic h) ([] ++ out)).
  rewrite (inserts_next' 0 8) by (done || lia).
  rewrite (inserts_next' 8 2) by solve_length.
  rewrite (inserts_next' 10 2) by solve_length.
  rewrite (inserts_next' 12 4) by solve_length.
  rewrite (inserts_next' 16 8) by solve_length.
  rewrite (inserts_next' 24 4) by solve_length.
  by rewrite !drop_drop, app_nil_l, <- !app_assoc.
Qed.

Lemma header_encode_layout h out :
  length (FrameHeader.magic h) = 8%nat → (header_size ≤ length out)%nat →
  FrameHeader.encode h out = header_image (header_head h) ++ drop header_size out.
Proof.
  intros Hm Hout. pose proof (header_head_length h Hm) as Hh.
  change header_size with 32%nat in *. unfold FrameHeader.encode.
  rewrite header_fields_layout by (done || lia). unfold put_u32, header_image.
  rewrite (inserts_next' 28 4 _ (put_le 4 0)) by solve_length. rewrite drop_drop.
  change header_size with 32%nat. rewrite take_app_length' by solve_length.
  rewrite <- (app_assoc _ (put_le 4 0)), (inserts_next' 28 4) by solve_length.
  by rewrite drop_app_length' by solve_length.
Qed.

Definition frame_header (f : Frame.t) : FrameHeader.t :=
  FrameHeader.mk kFrameMagic kWireProtocolVersion (MessageType.code (Frame.type f))
    (Frame.flags f) (Frame.frame_sequence f) (zlen (Frame.payload f) mod 2 ^ 32) 0.

(** An encoded frame is its checked header, its payload and the checksum. *)
Lemma encode_layout f :
  Frame.encode f =
    header_image (header_head (frame_header f)) ++ Frame.payload f ++
    put_le 4 (crc32 (Frame.payload f)).
Proof.
  unfold Frame.encode. fold (frame_header f).
  change (Z.to_nat Limits.kFrameTrailerSize) with 4%nat. change header_size with 32%nat.
  rewrite header_encode_layout by (done || (change header_size with 32%nat; solve_length)).
  change header_size with 32%nat.
  set (H := header_image _).
  assert (length H = 32%nat) as HH.
  { subst H. unfold header_image. rewrite length_app, header_head_length, put_le_length; done. }
  rewrite drop_replicate.
  replace (32 + length (Frame.payload f) + 4 - 32)%nat with (length (Frame.payload f) + 4)%nat by lia.
  assert ((if Nat.eqb (length (Frame.payload f)) 0 then H ++ replicate (length (Frame.payload f) + 4) 0
           else list_inserts 32 (Frame.payload f) (H ++ replicate (length (Frame.payload f) + 4) 0)) =
          (H ++ Frame.payload f) ++ replicate 4 0) as ->.
  { destruct (Nat.eqb_spec (length (Frame.payload f)) 0) as [Hz|Hz].
    - apply nil_length_inv in Hz as ->. by rewrite app_nil_r.
    - rewrite (inserts_next' 32 (length (Frame.payload f))) by solve_length.
      rewrite drop_replicate. do 2 f_equal. lia. }
  rewrite (inserts_next' (32 + length (Frame.payload f)) 4 (H ++ Frame.payload f)
             (put_u32 (crc32 (Frame.payload f))) (replicate 4 0)) by (unfold put_u32; solve_length).
  by rewrite drop_ge, app_nil_r, <- app_assoc by done.
Qed.

(** ** Decoding inverts the layout *)

(** The fields of a header fit their places. *)
Definition header_fits (h : FrameHeader.t) : Prop :=
  length (FrameHeader.magic h) = 8%nat ∧ is_bytes (FrameHeader.magic h) ∧
  in_uint 16 (FrameHeader.version h) ∧ in_uint 16 (FrameHeader.type h) ∧
  in_uint 32 (FrameHeader.flags h) ∧ in_uint 64 (FrameHeader.frame_sequence h) ∧
  in_uint 32 (FrameHeader.payload_length h).

Lemma put_le_app_inj n v w l k :
  in_uint (8 * Z.of_nat n) v → in_uint (8 * Z.of_nat n) w →
  put_le n v ++ l = put_le n w ++ k → v = w ∧ l = k.
Proof.
  intros Hv Hw Heq. apply app_inj_1 in Heq as [Hp ->]; [|by rewrite !put_le_length].
  split; [by eapply put_le_inj|done].
Qed.

Lemma header_head_inj h k :
  header_fits h → header_fits k → header_head h = header_head k →
  FrameHeader.header_crc h = FrameHeader.header_crc k → h = k.
Proof.
  intros (Hm & _ & Hv & Ht & Hf & Hs & Hl) (Km & _ & Kv & Kt & Kf & Ks & Kl) Heq Hc.
  unfold header_head in Heq.
  apply app_inj_1 in Heq as [? Heq]; [|congruence].
  apply put_le_app_inj in Heq as [? Heq]; [|done..].
  apply put_le_app_inj in Heq as [? Heq]; [|done..].
  apply put_le_app_inj in Heq as [? Heq]; [|done..].
  apply put_le_app_inj in Heq as [? ?%put_le_inj]; [|done..].
  destruct h, k. simpl in *. congruence.
Qed.

Lemma is_bytes_drop n l : is_bytes l → is_bytes (drop n l).
Proof. apply Forall_drop. Qed.
Lemma is_bytes_take n l : is_bytes l → is_bytes (take n l).
Proof. apply Forall_take. Qed.

Lemma put_get_at n k l :
  is_bytes l → (k + n ≤ length l)%nat → put_le n (get_le n (drop k l)) = take n (drop k l).
Proof. intros Hl Hn. apply put_get_le; [by apply is_bytes_drop|rewrite length_drop; lia]. Qed.

Lemma get_at_range n k l :
  is_bytes l → (k + n ≤ length l)%nat → in_uint (8 * Z.of_nat n) (get_le n (drop k l)).
Proof. intros Hl Hn. apply get_le_range; [by apply is_bytes_drop|rewrite length_drop; lia]. Qed.

Lemma parse_fits input :
  is_bytes input → (32 ≤ length input)%nat → header_fits (FrameHeader.parse input).
Proof.
  intros Hb Hl. unfold header_fits, FrameHeader.parse. simpl. rewrite !get_u16_le. split_and!.
  - rewrite length_take. lia.
  - by apply is_bytes_take.
  - apply (get_at_range 2); [done|lia].
  - apply (get_at_range 2); [done|lia].
  - apply (get_at_range 4); [done|lia].
  - apply (get_at_range 8); [done|lia].
  - apply (get_at_range 4); [done|lia].
Qed.

Lemma parse_head input :
  is_bytes input → (32 ≤ length input)%nat →
  header_head (FrameHeader.parse input) = take 28 input ∧
  put_le 4 (FrameHeader.header_crc (FrameHeader.parse input)) = take 4 (drop 28 input).
Proof.
  intros Hb Hl. unfold header_head, FrameHeader.parse.
  cbn [FrameHeader.magic FrameHeader.version FrameHeader.type FrameHeader.flags
       FrameHeader.frame_sequence FrameHeader.payload_length FrameHeader.header_crc].
  rewrite !get_u16_le. unfold get_u32, get_u64.
  rewrite !put_get_at by (done || lia). split; [|done].
  rewrite !app_assoc, !take_take_drop. done.
Qed.

(** The four bytes the checksum is computed without are the checksum's own. *)
Lemma crc_zeroed input :
  (32 ≤ length input)%nat →
  list_inserts 28 (put_u32 0) (take header_size input) = zeroed (take 28 input).
Proof.
  intros Hl. change header_size with 32%nat. rewrite <- (take_drop 28 (take 32 input)) at 1.
  rewrite take_take. simpl Nat.min.
  rewrite (inserts_next' 28 4) by (unfold put_u32; solve_length).
  rewrite drop_ge by solve_length. by rewrite app_nil_r.
Qed.

(** What makes a header acceptable, apart from its checksum. *)
Definition header_ok (h : FrameHeader.t) : Prop :=
  header_fits h ∧ FrameHeader.magic h = kFrameMagic ∧
  FrameHeader.version h = kWireProtocolVersion ∧
  is_known_message_type (FrameHeader.type h) = true ∧
  Z.ldiff (FrameHeader.flags h) frame_flags.kKnownMask = 0 ∧
  FrameHeader.payload_length h ≤ Limits.kMaxFramePayload.

(** Decoding a header accepts exactly the images of acceptable headers. *)
Lemma header_decode_Ok input h :
  is_bytes input →
  FrameHeader.decode input = Ok h ↔
    (32 ≤ length input)%nat ∧ header_ok h ∧
    FrameHeader.header_crc h = crc32 (zeroed (header_head h)) ∧
    take header_size input = header_image (header_head h).
Proof.
  intros Hb. unfold FrameHeader.decode, fail_ctx, fail.
  change Limits.kFrameHeaderSize with 32. change header_size with 32%nat.
  destruct (Z.ltb_spec (zlen input) 32) as [Hs|Hs]; unfold zlen in Hs.
  { split; [done|intros [? _]; lia]. }
  assert (32 ≤ length input)%nat as Hl by lia.
  pose proof (parse_fits _ Hb Hl) as Hfits. destruct (parse_head _ Hb Hl) as [Hhead Hcrc].
  pose proof (crc_zeroed input Hl) as Hz. change header_size with 32%nat in Hz. rewrite Hz.
  rewrite <- Hhead.
  assert (take 32 input = header_head (FrameHeader.parse input) ++
            put_le 4 (FrameHeader.header_crc (FrameHeader.parse input))) as Himg.
  { rewrite Hhead, Hcrc. by rewrite take_take_drop. }
  rewrite Himg.
  assert (∀ k, header_fits k → FrameHeader.header_crc k = crc32 (zeroed (header_head k)) →
     header_head (FrameHeader.parse input) ++
       put_le 4 (FrameHeader.header_crc (FrameHeader.parse input)) = header_image (header_head k) →
     k = FrameHeader.parse input) as Huniq.
  { intros k Hk Hkc Heq. unfold header_image in Heq.
    apply app_inj_1 in Heq as [Hheads Hcrcs];
      [|by rewrite !header_head_length by (apply Hfits || apply Hk)].
    apply put_le_inj in Hcrcs; [|apply get_at_range; [done|lia]|apply crc32_range].
    apply header_head_inj; congruence. }
  assert (FrameHeader.magic (FrameHeader.parse input) = take 8 input) as Hmagic by done.
  set (p := FrameHeader.parse input) in *. clearbody p.
  split.
  - repeat (case_match; try done); intros [= <-].
    repeat match goal with H : negb _ = false |- _ => apply negb_false_iff in H end.
    repeat match goal with
           | H : bool_decide _ = true |- _ => apply bool_decide_eq_true in H
           | H : (_ =? _) = true |- _ => apply Z.eqb_eq in H
           end.
    unfold header_ok, header_image. split_and!; try done; try congruence.
    rewrite Z.gtb_ltb in *. match goal with H : (_ <? _) = false |- _ => apply Z.ltb_ge in H end. done.
  - intros (_ & (Hf & Hmg & Hver & Hty & Hfl & Hlen) & Hc & Heq).
    pose proof (Huniq h Hf Hc Heq) as ->.
    rewrite <- Hmagic, Hmg, bool_decide_eq_true_2 by done. simpl.
    rewrite Hver, Hty, Hfl, Z.gtb_ltb, (proj2 (Z.ltb_ge _ _)) by done. simpl.
    by rewrite Hc, Z.eqb_refl.
Qed.

Lemma kFrameMagic_bytes : is_bytes kFrameMagic.
Proof. apply (bool_decide_unpack _). vm_compute. exact I. Qed.

Lemma known_type_uint raw : is_known_message_type raw = true → in_uint 16 raw.
Proof.
  unfold is_known_message_type, MessageType.of_code, in_uint.
  repeat (case_match; try done); lia.
Qed.

(** The header a frame is sent with. *)
Lemma frame_header_ok f : frame_ok f → header_ok (frame_header f).
Proof.
  intros (Hk & _ & Hf & Hm & Hs & _ & Hl). unfold header_ok, header_fits, frame_header. simpl.
  pose proof (zlen_nonneg (Frame.payload f)). change Limits.kMaxFramePayload with 1048576 in *.
  rewrite Z.mod_small by lia.
  pose proof (known_type_uint _ Hk). pose proof kFrameMagic_bytes.
  split_and!; try done; unfold in_uint; lia.
Qed.

Definition sent_header (f : Frame.t) : FrameHeader.t :=
  FrameHeader.mk kFrameMagic kWireProtocolVersion (MessageType.code (Frame.type f))
    (Frame.flags f) (Frame.frame_sequence f) (zlen (Frame.payload f))
    (crc32 (zeroed (header_head (frame_header f)))).

Lemma payload_length_small f : frame_ok f → zlen (Frame.payload f) mod 2 ^ 32 = zlen (Frame.payload f).
Proof.
  intros (_ & _ & _ & _ & _ & _ & Hl). pose proof (zlen_nonneg (Frame.payload f)).
  change Limits.kMaxFramePayload with 1048576 in *. apply Z.mod_small. lia.
Qed.

Lemma header_head_length_frame f : length (header_head (frame_header f)) = 28%nat.
Proof. by apply header_head_length. Qed.

Lemma header_image_length f : length (header_image (header_head (frame_header f))) = 32%nat.
Proof. unfold header_image. by rewrite length_app, header_head_length_frame, put_le_length. Qed.

Lemma encode_length f : length (Frame.encode f) = (36 + length (Frame.payload f))%nat.
Proof. rewrite encode_layout, !length_app, header_image_length, put_le_length. lia. Qed.

Lemma encode_bytes f : frame_ok f → is_bytes (Frame.encode f).
Proof.
  intros (_ & _ & _ & _ & _ & Hb & _). rewrite encode_layout.
  unfold header_image, header_head. unfold is_bytes.
  rewrite !Forall_app. split_and!; try apply put_le_bytes; [apply kFrameMagic_bytes|done].
Qed.

(** The header in front of a frame is found whatever follows the frame. *)
Lemma header_decode_encode f rest :
  frame_ok f → is_bytes rest → FrameHeader.decode (Frame.encode f ++ rest) = Ok (sent_header f).
Proof.
  intros Hf Hr. apply header_decode_Ok.
  { apply Forall_app. split; [by apply encode_bytes|done]. }
  assert (header_head (sent_header f) = header_head (frame_header f)) as Hh.
  { unfold header_head, sent_header, frame_header. simpl. by rewrite payload_length_small. }
  rewrite Hh. split_and!.
  - rewrite length_app, encode_length. lia.
  - destruct (frame_header_ok f Hf) as ((? & ? & ? & ? & ? & ? & ?) & ? & ? & ? & ? & ?).
    unfold frame_header in *. simpl in *. rewrite payload_length_small in * by done. done.
  - done.
  - rewrite encode_layout, <- app_assoc. change header_size with 32%nat.
    by rewrite take_app_length' by (by rewrite header_image_length).
Qed.

Lemma decode_encode f : frame_ok f → Frame.decode (Frame.encode f) = Ok f.
Proof.
  intros Hf. unfold Frame.decode. pose proof (header_decode_encode f [] Hf) as Hd.
  rewrite app_nil_r in Hd. rewrite Hd by constructor.
  unfold mbind, result_bind, Frame.total, sent_header.
  cbn [FrameHeader.type FrameHeader.flags FrameHeader.frame_sequence FrameHeader.payload_length].
  change Limits.kFrameHeaderSize with 32. change Limits.kFrameTrailerSize with 4.
  assert (zlen (Frame.encode f) = 32 + zlen (Frame.payload f) + 4) as ->
    by (unfold zlen; rewrite encode_length; lia).
  rewrite Z.gtb_ltb, Z.ltb_irrefl. unfold zlen. rewrite Nat2Z.id.
  rewrite encode_layout, <- drop_drop, drop_app_length' by (by rewrite header_image_length).
  rewrite drop_app_length, take_app_length. unfold get_u32.
  rewrite <- (app_nil_r (put_le 4 _)), get_put_le by apply crc32_range.
  rewrite Z.eqb_refl. simpl. destruct Hf as (_ & -> & _). by destruct f.
Qed.

(** What an accepted buffer consists of. *)
Lemma decode_parts data f :
  is_bytes data → Frame.decode data = Ok f →
  ∃ h, header_ok h ∧ take 32 data = header_image (header_head h) ∧
    FrameHeader.payload_length h = zlen (Frame.payload f) ∧
    length data = (36 + length (Frame.payload f))%nat ∧
    Frame.payload f = take (length (Frame.payload f)) (drop 32 data) ∧
    crc32 (Frame.payload f) = get_le 4 (drop (32 + length (Frame.payload f)) data) ∧
    f = Frame.mk (MessageType.of_code (FrameHeader.type h)) (FrameHeader.flags h)
          (FrameHeader.frame_sequence h) (Frame.payload f).
Proof.
  intros Hb. unfold Frame.decode. rewrite bind_Ok. intros (h & Hh & Hrest). exists h.
  apply header_decode_Ok in Hh as (Hl & Hok & Hc & Himg); [|done].
  split; [done|]. split; [done|].
  destruct Hok as ((_ & _ & _ & _ & _ & _ & Hpl) & _).
  unfold Frame.total, fail_ctx, fail in Hrest.
  change Limits.kFrameHeaderSize with 32 in *. change Limits.kFrameTrailerSize with 4 in *.
  change header_size with 32%nat in *.
  set (n := Z.to_nat (FrameHeader.payload_length h)) in *.
  assert (FrameHeader.payload_length h = Z.of_nat n) as Hn by (unfold in_uint in *; lia).
  rewrite Hn, Z.gtb_ltb in Hrest.
  destruct (Z.ltb_spec (zlen data) (32 + Z.of_nat n + 4)) as [|Hge]; [done|].
  destruct (Z.ltb_spec (32 + Z.of_nat n + 4) (zlen data)) as [|Hle]; [done|].
  assert (length data = 36 + n)%nat as Hdl by (unfold zlen in *; lia).
  destruct (Z.eqb_spec (crc32 (take n (drop 32 data))) (get_u32 (drop (32 + n) data)))
    as [Hcrc|]; [|done].
  injection Hrest as <-. cbn [Frame.payload].
  assert (length (take n (drop 32 data)) = n) as Hpn by (rewrite length_take, length_drop; lia).
  unfold zlen. rewrite Hpn. by split_and!.
Qed.

Lemma encode_decode data f :
  is_bytes data → Frame.decode data = Ok f → frame_ok f ∧ data = Frame.encode f.
Proof.
  intros Hb Hd. destruct (decode_parts data f Hb Hd) as (h & Hok & Himg & Hlen & Hdl & Hp & Hcrc & Hf).
  destruct Hok as ((_ & _ & _ & Hty16 & Hf32 & Hs64 & Hpl) & Hmg & Hver & Hty & Hfl & Hmax).
  assert (frame_ok f) as Hfok.
  { rewrite Hf. unfold frame_ok; simpl. rewrite MessageType.code_of_code. split_and!; try done.
    - rewrite Hp. by apply is_bytes_take, is_bytes_drop.
    - by rewrite <- Hlen. }
  split; [done|]. rewrite encode_layout.
  assert (header_head (frame_header f) = header_head h) as ->.
  { unfold header_head, frame_header. cbn [FrameHeader.magic FrameHeader.version FrameHeader.type
      FrameHeader.flags FrameHeader.frame_sequence FrameHeader.payload_length].
    rewrite payload_length_small, <- Hlen by done. rewrite Hf at 1 2 3.
    cbn [Frame.type Frame.flags Frame.frame_sequence].
    by rewrite MessageType.code_of_code, Hmg, Hver. }
  rewrite <- Himg, Hcrc, put_get_at by (done || lia).
  rewrite Hp at 1. rewrite <- drop_drop, take_take_drop, (take_ge (drop 32 data)).
  - by rewrite take_drop.
  - rewrite length_drop; lia.
Qed.

(** ** Damage *)

(** Two checksummed blocks in buffers that differ in one byte: either the bytes
    do not differ, or they lie behind the blocks, which are then the same. *)
Lemma checksummed_block_single_byte d d' z r r' pre x y post :
  length d = length d' → is_byte x → is_byte y →
  d ++ put_le 4 (crc32 (d ++ z)) ++ r = pre ++ x :: post →
  d' ++ put_le 4 (crc32 (d' ++ z)) ++ r' = pre ++ y :: post →
  x = y ∨ ((length d + 4 ≤ length pre)%nat ∧ d = d').
Proof.
  intros Hlen Hx Hy Heq Heq'.
  assert (d = take (length d) (pre ++ x :: post)) as Hd by (by rewrite <- Heq, take_app_length).
  assert (d' = take (length d) (pre ++ y :: post)) as Hd'
    by (rewrite <- Heq', Hlen; by rewrite take_app_length).
  destruct (decide (length pre < length d)%nat) as [Hin|Hout].
  - left. assert (∃ k, length d - length pre = S k)%nat as [k Hk]
      by (exists (length d - length pre - 1)%nat; lia).
    assert (∀ w, take (length d) (pre ++ w :: post) = pre ++ w :: take k post) as Htake.
    { intros w. rewrite take_app_ge by lia. by rewrite Hk. }
    rewrite Htake in Hd, Hd'.
    assert (put_le 4 (crc32 (d ++ z)) ++ r = put_le 4 (crc32 (d' ++ z)) ++ r') as Hrest.
    { apply (f_equal (drop (length d))) in Heq, Heq'. rewrite drop_app_length in Heq.
      rewrite Hlen in Heq' at 1. rewrite drop_app_length in Heq'.
      rewrite Heq, Heq', !drop_app_ge by lia. by rewrite Hk. }
    apply put_le_app_inj in Hrest as [Hcrc _]; [|apply crc32_range..].
    rewrite Hd, Hd', <- !app_assoc in Hcrc. by eapply crc32_single_byte.
  - rewrite take_app_le in Hd, Hd' by lia. assert (d = d') as <- by congruence.
    destruct (decide (length d + 4 ≤ length pre)%nat); [by right|left].
    assert (∀ w q, d ++ put_le 4 (crc32 (d ++ z)) ++ q = pre ++ w :: post →
              put_le 4 (crc32 (d ++ z)) !! (length pre - length d)%nat = Some w) as Hlk.
    { intros w q Hq. apply (f_equal (lookup (length pre))) in Hq.
      rewrite list_lookup_middle in Hq by done.
      rewrite lookup_app_r, lookup_app_l in Hq by (rewrite ?put_le_length; lia). done. }
    apply Hlk in Heq, Heq'. congruence.
Qed.

(** Two encoded frames never differ in a single byte. *)
Lemma encodings_not_one_byte_apart f g pre x y post :
  is_byte x → is_byte y →
  Frame.encode f = pre ++ x :: post → Frame.encode g = pre ++ y :: post → x = y.
Proof.
  intros Hx Hy Hf Hg.
  assert (length (Frame.payload f) = length (Frame.payload g)) as Hlen.
  { apply (f_equal length) in Hf, Hg. rewrite encode_length in Hf, Hg.
    rewrite !length_app in Hf, Hg. simpl in Hf, Hg. lia. }
  rewrite encode_layout in Hf, Hg. unfold header_image, zeroed in Hf, Hg.
  rewrite <- app_assoc in Hf, Hg.
  destruct (checksummed_block_single_byte _ _ [0; 0; 0; 0] _ _ _ x y _
              ltac:(by rewrite !header_head_length_frame) Hx Hy Hf Hg) as [|[Hpre Hhead]]; [done|].
  rewrite header_head_length_frame in Hpre.
  assert (∃ pre', pre = (header_head (frame_header f) ++
    put_le 4 (crc32 (header_head (frame_header f) ++ [0; 0; 0; 0]))) ++ pre') as [pre' ->].
  { exists (drop 32 pre). rewrite <- (take_drop 32 pre) at 1. f_equal.
    apply (f_equal (take 32)) in Hf. rewrite (take_app_le pre) in Hf by lia. rewrite <- Hf, app_assoc.
    rewrite take_app_length'; [done|]. by rewrite length_app, header_head_length_frame, put_le_length. }
  rewrite <- Hhead, <- !app_assoc in *. do 2 apply app_inv_head in Hf, Hg.
  destruct (checksummed_block_single_byte (Frame.payload f) (Frame.payload g) [] [] [] pre' x y post)
    as [|[Hlong _]]; rewrite ?app_nil_r; try done.
  exfalso. apply (f_equal length) in Hf. rewrite !length_app, put_le_length in Hf. simpl in Hf. lia.
Qed.

(** Claim C25.  Decoding accepts exactly the encodings of the frames the protocol
    can carry, each as itself: every frame within the bounds is decoded from its
    encoding unchanged, and a buffer that decodes to a frame is the encoding of
    that frame, byte for byte. *)
Theorem frame_codec_exact (data : list Z) (f : Frame.t) :
  is_bytes data → Frame.decode data = Ok f ↔ frame_ok f ∧ data = Frame.encode f.
Proof.
  intros Hb. split; [by apply encode_decode|]. intros [Hf ->]. by apply decode_encode.
Qed.

(** Claim C21.  A frame with any one byte changed, in the header, the payload or
    either checksum, is never accepted: the CRC detects every such change that
    the field checks do not. *)
Theorem single_byte_corruption_refused (f : Frame.t) (i : nat) (b : Z) :
  frame_ok f → (i < length (Frame.encode f))%nat → is_byte b → Frame.encode f !! i ≠ Some b →
  is_ok (Frame.decode (<[i := b]> (Frame.encode f))) = false.
Proof.
  intros Hf Hi Hb Hne. destruct (lookup_lt_is_Some_2 _ _ Hi) as [x Hx].
  assert (Frame.encode f = take i (Frame.encode f) ++ x :: drop (S i) (Frame.encode f)) as Hsplit
    by (symmetry; by apply take_drop_middle).
  rewrite insert_take_drop by done.
  destruct (Frame.decode _) as [g|e] eqn:Hd; [exfalso|done].
  assert (is_byte x) as Hxb by (by eapply Forall_lookup_1; [by apply encode_bytes|]).
  apply encode_decode in Hd as [_ Hg].
  - apply Hne. rewrite Hx. f_equal.
    by eapply (encodings_not_one_byte_apart f g); [..|exact Hsplit|exact (eq_sym Hg)].
  - pose proof (encode_bytes f Hf) as Hbs. apply Forall_app; split; [by apply is_bytes_take|].
    constructor; [done|by apply is_bytes_drop].
Qed.

Definition sample_frame : Frame.t := Frame.mk MessageType.PublishEvent 1 42 [10; 0; 255].

Lemma sample_frame_ok : frame_ok sample_frame.
Proof.
  unfold frame_ok, sample_frame, in_uint. simpl. split_and!; try done.
  by apply (bool_decide_unpack _).
Qed.

Lemma frame_codec_exact_witness :
  Frame.decode (Frame.encode sample_frame) = Ok sample_frame.
Proof.
  refine (proj2 (frame_codec_exact (Frame.encode sample_frame) sample_frame _) _).
  - apply (bool_decide_unpack _). vm_compute. exact I.
  - exact (conj sample_frame_ok eq_refl).
Defined.

Lemma single_byte_corruption_refused_witness :
  is_ok (Frame.decode (<[33%nat := 7]> (Frame.encode sample_frame))) = false.
Proof.
  refine (single_byte_corruption_refused sample_frame 33 7 sample_frame_ok _ _ _).
  - vm_compute. lia.
  - unfold is_byte. lia.
  - vm_compute. discriminate.
Defined.
