(* ===== verification/Transport.v ===== *)
(** * Frames over a byte stream

    [receive_frame] of [src/transport.cpp], and the loop that receives one frame
    after another on a connection.  The operating system delivers the stream in
    pieces of its own choosing: the results of the successive calls of
    [socket_recv_some] are the argument [script], each an error, no bytes (the
    peer closed), or between 1 and 16384 bytes.  A call past the end of the
    script is one that has not returned yet. *)

From S2P Require Import Prelude Errors TextUtil Codec Protocol.

(** [std::array<std::uint8_t, 16384> chunk] *)
Definition kChunkSize : Z := 16384.

(** The bound on the receive buffer. *)
Definition kReceiveBound : Z :=
  Limits.kMaxFramePayload + Limits.kFrameHeaderSize + Limits.kFrameTrailerSize.

Inductive outcome :=
  | Returned (r : result Frame.t) (buffer : list Z) (script : list (result (list Z)))
  | Waiting (buffer : list Z).

(** The first half of the loop body: a frame at the front of the buffer, an
    error, or too little input so far. *)
Definition take_frame (buffer : list Z) : option (result Frame.t * list Z) :=
  if zlen buffer >=? Limits.kFrameHeaderSize then
    match FrameHeader.decode buffer with
    | Err e => Some (Err e, buffer)
    | Ok header =>
        let total := Frame.total header in
        if zlen buffer >=? total then
          match Frame.decode (take (Z.to_nat total) buffer) with
          | Err e => Some (Err e, buffer)
          | Ok frame => Some (Ok frame, drop (Z.to_nat total) buffer)
          end
        else None
    end
  else None.

Fixpoint receive_frame (script : list (result (list Z))) (buffer : list Z) : outcome :=
  match take_frame buffer with
  | Some (r, buffer) => Returned r buffer script
  | None =>
      match script with
      | [] => Waiting buffer
      | Err e :: script => Returned (Err e) buffer script
      | Ok chunk :: script =>
          if Nat.eqb (length chunk) 0
          then Returned (fail ErrorCode.ConnectionClosed "peer closed the connection") buffer script
          else
            let buffer := buffer ++ chunk in
            if zlen buffer >? kReceiveBound
            then Returned (fail ErrorCode.TooLarge "receive buffer exceeds the frame bound")
                   buffer script
            else receive_frame script buffer
      end
  end.

(** Calling [receive_frame] [n] times, as a connection's owner does. *)
Fixpoint receive_frames (n : nat) (script : list (result (list Z))) (buffer : list Z)
  : result (list Frame.t) * list Z :=
  match n with
  | O => (Ok [], buffer)
  | S n =>
      match receive_frame script buffer with
      | Returned (Ok f) buffer script =>
          match receive_frames n script buffer with
          | (Ok fs, buffer) => (Ok (f :: fs), buffer)
          | (Err e, buffer) => (Err e, buffer)
          end
      | Returned (Err e) buffer _ => (Err e, buffer)
      | Waiting buffer => (Err (Error.mk ErrorCode.Busy "" ""), buffer)
      end
  end.

(** What [recv] delivers: at least one byte and at most what was asked for. *)
Definition chunk_ok (chunk : list Z) : Prop :=
  chunk ≠ [] ∧ zlen chunk ≤ kChunkSize.

(** A frame that leaves room in the buffer for one more chunk. *)
Definition frame_fits (f : Frame.t) : Prop :=
  frame_ok f ∧ zlen (Frame.payload f) + kChunkSize ≤ Limits.kMaxFramePayload + 1.

Lemma zlen_encode f : zlen (Frame.encode f) = 36 + zlen (Frame.payload f).
Proof. unfold zlen. rewrite encode_length. lia. Qed.

(** The header of a frame is recognised as soon as it is there. *)
Lemma header_decode_prefix f rest buffer more :
  frame_ok f → is_bytes rest → buffer ++ more = Frame.encode f ++ rest →
  (32 ≤ length buffer)%nat → FrameHeader.decode buffer = Ok (sent_header f).
Proof.
  intros Hf Hr Heq Hl.
  assert (is_bytes (buffer ++ more)) as Hb.
  { rewrite Heq. apply Forall_app. split; [by apply encode_bytes|done]. }
  apply Forall_app in Hb as [Hb Hm].
  pose proof (header_decode_encode f rest Hf Hr) as Hd. rewrite <- Heq in Hd.
  apply header_decode_Ok in Hd as (_ & Hok & Hc & Himg); [|by apply Forall_app].
  apply header_decode_Ok; [done|]. split; [exact Hl|]. split; [exact Hok|]. split; [exact Hc|].
  rewrite <- Himg. symmetry. apply take_app_le. change header_size with 32%nat. lia.
Qed.

Lemma total_sent_header f : Frame.total (sent_header f) = zlen (Frame.encode f).
Proof.
  rewrite zlen_encode. unfold Frame.total, sent_header. simpl FrameHeader.payload_length.
  change Limits.kFrameHeaderSize with 32. change Limits.kFrameTrailerSize with 4. lia.
Qed.

Lemma zlen_nat {A} (l : list A) : Z.to_nat (zlen l) = length l.
Proof. unfold zlen. lia. Qed.

(** A buffer that starts inside the encoding of [f] yields [f] exactly when it
    holds all of it. *)
Lemma take_frame_incomplete f rest buffer more :
  frame_ok f → is_bytes rest → buffer ++ more = Frame.encode f ++ rest →
  (length buffer < length (Frame.encode f))%nat → take_frame buffer = None.
Proof.
  intros Hf Hr Heq Hlt. unfold take_frame. change Limits.kFrameHeaderSize with 32.
  destruct (zlen buffer >=? 32) eqn:Hge; [|done]. rewrite Z.geb_leb, Z.leb_le in Hge.
  rewrite (header_decode_prefix f rest buffer more) by (done || (unfold zlen in *; lia)).
  rewrite total_sent_header, Z.geb_leb, (proj2 (Z.leb_gt _ _)) by (unfold zlen in *; lia). done.
Qed.

Lemma take_frame_complete f rest buffer more :
  frame_ok f → is_bytes rest → buffer ++ more = Frame.encode f ++ rest →
  (length (Frame.encode f) ≤ length buffer)%nat →
  take_frame buffer = Some (Ok f, drop (length (Frame.encode f)) buffer).
Proof.
  intros Hf Hr Heq Hle. pose proof (encode_length f) as Hel. unfold take_frame.
  change Limits.kFrameHeaderSize with 32.
  rewrite Z.geb_leb, (proj2 (Z.leb_le _ _)) by (unfold zlen; lia).
  rewrite (header_decode_prefix f rest buffer more) by (done || lia).
  rewrite total_sent_header, Z.geb_leb, (proj2 (Z.leb_le _ _)), zlen_nat by (unfold zlen; lia).
  assert (take (length (Frame.encode f)) buffer = Frame.encode f) as ->.
  { rewrite <- (take_app_le buffer more) by lia. by rewrite Heq, take_app_length. }
  by rewrite decode_encode.
Qed.

(** Taking a frame uses up at least its header. *)
Lemma take_frame_shrinks buffer f rest :
  take_frame buffer = Some (Ok f, rest) → (length rest < length buffer)%nat.
Proof.
  unfold take_frame. destruct (Z.geb_spec (zlen buffer) Limits.kFrameHeaderSize) as [Hsz|]; [|done].
  destruct (FrameHeader.decode buffer) as [h|]; [|done]. destruct (zlen buffer >=? _); [|done].
  destruct (Frame.decode _) as [f'|] eqn:Hd; [|done]. intros [= _ <-]. rewrite length_drop.
  unfold zlen, Limits.kFrameHeaderSize in Hsz.
  destruct (Z.to_nat (Frame.total h)) as [|n]; [|lia]. cbn in Hd. done.
Qed.

Lemma receive_one f rest chunks buffer :
  frame_fits f → is_bytes rest → Forall chunk_ok chunks →
  buffer ++ concat chunks = Frame.encode f ++ rest →
  ∃ buffer' chunks',
    receive_frame (Ok <$> chunks) buffer = Returned (Ok f) buffer' (Ok <$> chunks') ∧
    Forall chunk_ok chunks' ∧ buffer' ++ concat chunks' = rest.
Proof.
  intros [Hf Hroom] Hr Hc. revert buffer.
  induction Hc as [|chunk chunks [Hne Hsz] Hc IH]; intros buffer Heq.
  all: destruct (decide (length (Frame.encode f) ≤ length buffer)%nat) as [Hle|Hgt].
  - exists (drop (length (Frame.encode f)) buffer), []. simpl in *. rewrite app_nil_r in *.
    rewrite (take_frame_complete f rest buffer []) by (rewrite ?app_nil_r; done).
    split_and!; [done|constructor|]. by rewrite Heq, drop_app_length.
  - exfalso. simpl in Heq. rewrite app_nil_r in Heq. subst buffer. rewrite length_app in Hgt. lia.
  - exists (drop (length (Frame.encode f)) buffer), (chunk :: chunks). simpl.
    rewrite (take_frame_complete f rest buffer (concat (chunk :: chunks))) by done.
    split_and!; [done|by constructor|].
    apply (f_equal (drop (length (Frame.encode f)))) in Heq.
    by rewrite drop_app_length, drop_app_le in Heq.
  - simpl. rewrite (take_frame_incomplete f rest buffer (concat (chunk :: chunks))) by (done || lia).
    destruct (Nat.eqb_spec (length chunk) 0) as [Hz|_]; [by apply nil_length_inv in Hz|].
    pose proof (encode_length f). change kChunkSize with 16384 in *.
    change Limits.kMaxFramePayload with 1048576 in *.
    rewrite Z.gtb_ltb, (proj2 (Z.ltb_ge _ _)).
    + apply IH. simpl in Heq. by rewrite <- app_assoc.
    + change kReceiveBound with 1048612. unfold zlen in *. rewrite length_app. lia.
Qed.

(** Claim C26.  Frames come out of a connection exactly as they went in: however
    the stream of their encodings is cut into chunks of 1 to 16384 bytes, receiving
    as many frames as were sent returns them all, in order, and leaves nothing
    behind.  The frames are those that leave room for one chunk in the receive
    buffer, with a payload of at most 1 MiB + 1 - 16384 bytes; a larger frame with
    the start of its successor in the same chunk can be refused
    ([pipelined_large_frame_refused]). *)
Theorem frames_survive_chunking (fs : list Frame.t) (chunks : list (list Z)) :
  Forall frame_fits fs → Forall chunk_ok chunks → concat chunks = concat (Frame.encode <$> fs) →
  receive_frames (length fs) (Ok <$> chunks) [] = (Ok fs, []).
Proof.
  intros Hfs Hc Heq.
  enough (∀ chunks buffer, Forall chunk_ok chunks →
    buffer ++ concat chunks = concat (Frame.encode <$> fs) →
    receive_frames (length fs) (Ok <$> chunks) buffer = (Ok fs, [])) as Hg by (by apply Hg).
  clear chunks Hc Heq. induction Hfs as [|f fs Hf Hfs IH]; intros chunks buffer Hc Heq.
  { by apply app_nil in Heq as [-> _]. }
  destruct (receive_one f (concat (Frame.encode <$> fs)) chunks buffer)
    as (b' & c' & Hrf & Hc' & Heq'); [done| |done..|].
  { apply Forall_concat, Forall_fmap. eapply Forall_impl; [exact Hfs|].
    intros g [Hg _]. by apply encode_bytes. }
  simpl. by rewrite Hrf, (IH c' b' Hc' Heq').
Qed.

Definition hello_frame : Frame.t := Frame.mk MessageType.Hello 1 1 [1; 0; 0; 0].
Definition beat_frame : Frame.t := Frame.mk MessageType.Heartbeat 0 2 [].

Lemma sample_frames_fit : Forall frame_fits [hello_frame; beat_frame].
Proof.
  repeat constructor; simpl; unfold in_uint, is_byte; try lia; try done; by vm_compute.
Qed.

(** The two frames arriving as one byte, then 40 bytes, then the rest. *)
Definition sample_chunks : list (list Z) :=
  let l := Frame.encode hello_frame ++ Frame.encode beat_frame in
  [take 1 l; take 40 (drop 1 l); drop 41 l].

Lemma frames_survive_chunking_witness :
  receive_frames 2 (Ok <$> sample_chunks) [] = (Ok [hello_frame; beat_frame], []).
Proof.
  refine (frames_survive_chunking [hello_frame; beat_frame] sample_chunks sample_frames_fit _ _).
  - apply (bool_decide_unpack _). vm_compute. exact I.
  - vm_compute. reflexivity.
Defined.

(** The receive buffer is bounded by one frame, but a chunk
    may bring the start of the next frame: a frame of maximal size whose last
    byte arrives together with the first byte of its successor is refused as
    too large and the connection with it, although the same frame is accepted
    when its last byte arrives alone. *)
Theorem pipelined_large_frame_refused (f : Frame.t) (buffer : list Z) (last next : Z) :
  frame_ok f → zlen (Frame.payload f) = Limits.kMaxFramePayload →
  buffer ++ [last] = Frame.encode f → is_byte next →
  receive_frame [Ok [last]] buffer = Returned (Ok f) [] [] ∧
  receive_frame [Ok [last; next]] buffer =
    Returned (fail ErrorCode.TooLarge "receive buffer exceeds the frame bound")
      (Frame.encode f ++ [next]) [].
Proof.
  intros Hf Hmax Heq Hb.
  assert (zlen buffer + 1 = kReceiveBound) as Hlen.
  { apply (f_equal zlen) in Heq. rewrite zlen_snoc, zlen_encode, Hmax in Heq.
    change Limits.kMaxFramePayload with 1048576 in Heq. change kReceiveBound with 1048612. lia. }
  assert (take_frame buffer = None) as Hnone.
  { apply (take_frame_incomplete f [] buffer [last]); [done|constructor|by rewrite app_nil_r|].
    rewrite <- Heq, length_app. simpl. lia. }
  split; cbn [receive_frame]; rewrite Hnone; cbn [length Nat.eqb].
  - rewrite Z.gtb_ltb, (proj2 (Z.ltb_ge _ _)) by (rewrite zlen_snoc; lia). rewrite Heq.
    rewrite (take_frame_complete f [] (Frame.encode f) []) by (done || constructor).
    by rewrite drop_all.
  - rewrite Z.gtb_ltb, (proj2 (Z.ltb_lt _ _)) by (rewrite zlen_app, !zlen_cons; pose proof (zlen_nil (A := Z)); lia).
    change [last; next] with ([last] ++ [next]). by rewrite app_assoc, Heq.
Qed.

Definition large_frame : Frame.t :=
  Frame.mk MessageType.PublishBatch 1 7 (replicate (Z.to_nat Limits.kMaxFramePayload) 0).

Lemma large_frame_ok : frame_ok large_frame.
Proof.
  unfold frame_ok, large_frame. cbn [Frame.type Frame.flags Frame.frame_sequence Frame.payload].
  split; [reflexivity|]. split; [reflexivity|]. split; [unfold in_uint; lia|].
  split; [reflexivity|]. split; [unfold in_uint; lia|]. split.
  - apply Forall_replicate. unfold is_byte. lia.
  - unfold zlen. rewrite length_replicate, Z2Nat.id; [reflexivity|by vm_compute].
Qed.

Lemma pipelined_large_frame_refused_witness :
  ∃ buffer last, receive_frame [Ok [last]] buffer = Returned (Ok large_frame) [] [] ∧
    receive_frame [Ok [last; 67]] buffer =
      Returned (fail ErrorCode.TooLarge "receive buffer exceeds the frame bound")
        (Frame.encode large_frame ++ [67]) [].
Proof.
  destruct (exists_last (l := Frame.encode large_frame)) as (buffer & last & Heq).
  { intros Hnil. apply (f_equal length) in Hnil. rewrite encode_length in Hnil. discriminate Hnil. }
  exists buffer, last.
  apply (pipelined_large_frame_refused large_frame buffer last 67 large_frame_ok).
  - unfold zlen, large_frame. cbn [Frame.payload].
    rewrite length_replicate, Z2Nat.id; [reflexivity|by vm_compute].
  - symmetry. exact Heq.
  - unfold is_byte. lia.
Defined.
