(* ===== verification/Wire.v ===== *)
(** * Payloads of the messages

    The writers and readers of [src/wire.cpp] for structural records,
    observations, counter publications, registrations and acknowledgements.
    Reader and writer are modelled call by call in the order of the code; a
    conversion the code does after its last read ([!= 0], [static_cast]) is
    attached to the read it converts.

    For every record there is a predicate that says when its fields fit the
    wire format, the round trip ([codes]) and the stability of its reader, from
    which truncation is always detected ([codes_payload]). *)

From S2P Require Import Prelude Errors TextUtil Ids Taxonomy Float64 Records Observation Publishers.
From S2P Require Import Codec Protocol.

Definition kMaxTextShort : Z := Limits.kMaxNameLength.
Definition kMaxTextAnnotation : Z := Limits.kMaxRegionAnnotationLength.

(** ** Shared pieces *)

Definition require_enum (exclusive_max : Z) (what : string) : action PayloadReader.t Z :=
  v ← PayloadReader.u8;
  if v >=? exclusive_max
  then lift (fail_ctx ErrorCode.InvalidArgument (what +:+ " out of range") (format_u64 v))
  else mret v.

(** [require_enum] followed by the cast of the byte it delivers. *)
Definition read_enum {E} (of_code : Z → E) (exclusive_max : Z) (what : string)
  : action PayloadReader.t E := v ← require_enum exclusive_max what; mret (of_code v).

(** [NameId::parse] *)
Definition parse_name (token : string) : result string :=
  validate_identity_token token;; Ok token.

Definition write_resource_ref (ref : ResourceRef.t) : action PayloadWriter.t unit :=
  PayloadWriter.u8 (ResourceKind.code (ResourceRef.kind ref));;
  PayloadWriter.text (ResourceRef.id ref) kMaxTextShort;;
  PayloadWriter.u64 (ResourceRef.generation ref).

Definition read_resource_ref : action PayloadReader.t ResourceRef.t :=
  kind ← read_enum ResourceKind.of_code 6 "resource kind";
  id ← PayloadReader.text kMaxTextShort;
  generation ← PayloadReader.u64;
  parsed ← lift (parse_name id);
  mret (ResourceRef.mk kind parsed generation).

Definition write_name_id (id : string) : action PayloadWriter.t unit :=
  PayloadWriter.text id kMaxTextShort.

Definition read_name_id : action PayloadReader.t string :=
  text ← PayloadReader.text kMaxTextShort;
  if sempty text then mret "" else lift (parse_name text).

(** [u8(has_value())] and, when there is one, the value. *)
Definition write_optional {A} (w : A → action PayloadWriter.t unit) (o : option A)
  : action PayloadWriter.t unit :=
  PayloadWriter.u8_bool (bool_decide (is_Some o));;
  match o with Some a => w a | None => mret tt end.
Definition read_optional {A} (r : action PayloadReader.t A) : action PayloadReader.t (option A) :=
  read_bool ≫= λ present : bool, if present then a ← r; mret (Some a) else mret None.

Definition write_optional_resource : option ResourceRef.t → action PayloadWriter.t unit :=
  write_optional write_resource_ref.
Definition read_optional_resource : action PayloadReader.t (option ResourceRef.t) :=
  read_optional read_resource_ref.
Definition write_optional_name : option string → action PayloadWriter.t unit :=
  write_optional write_name_id.
Definition read_optional_name : action PayloadReader.t (option string) :=
  read_optional read_name_id.

Definition write_metadata_entry (e : string * string) : action PayloadWriter.t unit :=
  unchecked (PayloadWriter.text e.1 Limits.kMaxMetadataKeyLength);;
  unchecked (PayloadWriter.text e.2 Limits.kMaxMetadataValueLength).
Definition write_metadata (metadata : BoundedMetadata.t) : action PayloadWriter.t unit :=
  let entries := BoundedMetadata.sorted_entries metadata in
  PayloadWriter.u32 (zlen entries mod 2 ^ 32);;
  write_all write_metadata_entry entries.

(** The loop that reads [n] entries and adds each to the metadata. *)
Fixpoint read_metadata_entries (n : nat) (metadata : BoundedMetadata.t)
  : action PayloadReader.t BoundedMetadata.t :=
  match n with
  | O => mret metadata
  | S n =>
      key ← PayloadReader.text Limits.kMaxMetadataKeyLength;
      value ← PayloadReader.text Limits.kMaxMetadataValueLength;
      metadata ← lift (BoundedMetadata.add key value metadata);
      read_metadata_entries n metadata
  end.
Definition read_metadata : action PayloadReader.t BoundedMetadata.t :=
  count ← PayloadReader.u32;
  if count >? Limits.kMaxMetadataEntries
  then lift (fail_ctx ErrorCode.TooMany "metadata entry count exceeds the bound" (format_u64 count))
  else read_metadata_entries (Z.to_nat count) [].

(** [static_cast<std::uint64_t>(ns)] and [static_cast<Nanos>(raw)]. *)
Definition write_nanos (ns : Z) : action PayloadWriter.t unit := PayloadWriter.u64 (wrap64 ns).
Definition read_nanos : action PayloadReader.t Z :=
  raw ← PayloadReader.u64; mret (PayloadReader.to_i64 raw).

(** *** When a value fits *)

Definition name_fits (s : string) : Prop := s = "" ∨ valid_token s.
Definition enum_fits {E} (code : E → Z) (of_code : Z → E) (max : Z) (e : E) : Prop :=
  0 ≤ code e < max ∧ of_code (code e) = e.
Definition resource_fits (r : ResourceRef.t) : Prop :=
  enum_fits ResourceKind.code ResourceKind.of_code 6 (ResourceRef.kind r) ∧
  valid_token (ResourceRef.id r) ∧ in_uint 64 (ResourceRef.generation r).
Definition option_fits {A} (P : A → Prop) (o : option A) : Prop :=
  match o with Some a => P a | None => True end.

(** *** Round trips of the pieces *)

Lemma codes_enum {E} (code : E → Z) (of_code : Z → E) max what e :
  enum_fits code of_code max e → max ≤ 256 →
  codes (PayloadWriter.u8 (code e)) (read_enum of_code max what) e.
Proof.
  intros [Hr Hc] Hm. unfold read_enum. eapply codes_map; [|exact Hc].
  unfold require_enum. eapply codes_last; [apply codes_u8; unfold is_byte; lia|].
  rewrite Z.geb_leb, (proj2 (Z.leb_gt _ _)) by lia. apply reads_ret.
Qed.

Lemma parse_name_valid s : valid_token s → parse_name s = Ok s.
Proof. intros Hs. unfold parse_name. by rewrite (proj2 (validate_identity_token_ok s) Hs). Qed.

Lemma reads_lift {A} (a : A) : reads (lift (Ok a)) [] a.
Proof. apply reads_ret. Qed.

Lemma valid_token_short s : valid_token s → slen s ≤ kMaxTextShort.
Proof. by intros [[_ H] _]. Qed.

Lemma codes_name_id s : name_fits s → codes (write_name_id s) read_name_id s.
Proof.
  intros Hs. unfold write_name_id, read_name_id. eapply codes_last.
  - apply codes_text; [|by vm_compute]. destruct Hs as [->|Hs]; [by vm_compute|].
    by apply valid_token_short.
  - destruct Hs as [->|Hs]; [apply reads_ret|].
    assert (sempty s = false) as -> by (apply slen_pos; apply Hs).
    rewrite parse_name_valid by done. apply reads_lift.
Qed.

Lemma codes_resource_ref r : resource_fits r → codes (write_resource_ref r) read_resource_ref r.
Proof.
  destruct r as [kind id generation]. intros (Hk & Hi & Hg). simpl in *.
  unfold write_resource_ref, read_resource_ref. simpl.
  eapply codes_bind; [by apply codes_enum|].
  eapply codes_bind; [apply codes_text; [by apply valid_token_short|by vm_compute]|].
  eapply codes_last; [by apply codes_u64|]. rewrite parse_name_valid by done.
  apply (reads_bind _ _ [] [] id); [apply reads_lift|apply reads_ret].
Qed.

Lemma codes_optional {A} (w : A → action _ unit) r o :
  (∀ a, o = Some a → codes (w a) r a) → codes (write_optional w o) (read_optional r) o.
Proof.
  intros Ho. unfold write_optional, read_optional. eapply codes_bind; [apply codes_bool|].
  destruct o as [a|]; [|apply codes_ret]. by eapply codes_map; [apply Ho|].
Qed.

Lemma codes_optional_resource o :
  option_fits resource_fits o → codes (write_optional_resource o) read_optional_resource o.
Proof. intros Ho. apply codes_optional. intros r ->. by apply codes_resource_ref. Qed.

Lemma codes_optional_name o :
  option_fits name_fits o → codes (write_optional_name o) read_optional_name o.
Proof. intros Ho. apply codes_optional. intros r ->. by apply codes_name_id. Qed.

Lemma codes_nanos ns : in_i64 ns → codes (write_nanos ns) read_nanos ns.
Proof.
  intros Hns. unfold write_nanos, read_nanos.
  eapply codes_map; [apply codes_u64, wrap64_uint|by apply to_i64_wrap64].
Qed.

Lemma codes_metadata_entries l m :
  BoundedMetadata.wf (m ++ l) →
  codes (write_all write_metadata_entry l) (read_metadata_entries (length l) m) (m ++ l).
Proof.
  revert m. induction l as [|[k v] l IH]; intros m Hwf; simpl.
  { rewrite app_nil_r. apply (codes_ret (A := BoundedMetadata.t)). }
  destruct Hwf as (Hn & Hd & Hf).
  assert (0 < slen k ≤ Limits.kMaxMetadataKeyLength ∧ slen v ≤ Limits.kMaxMetadataValueLength)
    as [Hk Hv] by (apply Forall_app in Hf as [_ Hf]; by apply Forall_cons in Hf as [Hkv _]).
  assert (BoundedMetadata.add k v m = Ok (m ++ [(k, v)])) as Hadd.
  { apply BoundedMetadata.add_Ok. rewrite zlen_app, zlen_cons in Hn.
    pose proof (zlen_nonneg l). rewrite fmap_app in Hd. apply NoDup_app in Hd as (_ & Hd & _).
    split_and!; try done; try lia. intros Hin. apply (Hd k Hin). left. }
  specialize (IH (m ++ [(k, v)])). rewrite <- app_assoc in IH.
  destruct (IH ltac:(done)) as (cs & Hcs & Hw & Hr).
  destruct (codes_text k Limits.kMaxMetadataKeyLength ltac:(lia) ltac:(by vm_compute))
    as (kb & Hkb & Hkw & Hkr).
  destruct (codes_text v Limits.kMaxMetadataValueLength ltac:(lia) ltac:(by vm_compute))
    as (vb & Hvb & Hvw & Hvr).
  exists ((kb ++ vb) ++ cs). split_and!.
  - apply Forall_app; split; [by apply Forall_app|done].
  - apply writes_bind; [|done]. unfold write_metadata_entry. cbn [fst snd].
    apply (writes_bind (unchecked _) (λ _, unchecked _)); intros d; unfold unchecked;
      [by rewrite Hkw|by rewrite Hvw].
  - rewrite <- app_assoc. eapply reads_bind; [exact Hkr|]. eapply reads_bind; [exact Hvr|].
    rewrite <- (app_nil_l cs). eapply reads_bind; [rewrite Hadd; apply reads_lift|exact Hr].
Qed.

(** Metadata arrives sorted by key. *)
Lemma codes_metadata m :
  BoundedMetadata.wf m → codes (write_metadata m) read_metadata (BoundedMetadata.sorted_entries m).
Proof.
  intros Hwf. pose proof (BoundedMetadata.sorted_entries_wf m Hwf) as Hs. destruct Hs as [Hn _].
  unfold write_metadata, read_metadata.
  pose proof (zlen_nonneg (BoundedMetadata.sorted_entries m)) as H0.
  change Limits.kMaxMetadataEntries with 8 in *. rewrite Z.mod_small by lia.
  eapply codes_bind; [apply codes_u32; unfold in_uint; lia|].
  rewrite Z.gtb_ltb, (proj2 (Z.ltb_ge _ _)) by lia. unfold zlen. rewrite Nat2Z.id.
  apply (codes_metadata_entries _ []). by apply BoundedMetadata.sorted_entries_wf.
Qed.

#[export] Hint Resolve codes_name_id codes_resource_ref codes_optional_resource
  codes_optional_name codes_nanos codes_metadata : codes.
#[export] Hint Extern 1 (codes _ (read_enum _ _ _) _) =>
  apply codes_enum; [assumption|by vm_compute] : codes.
#[export] Hint Extern 1 (codes (PayloadWriter.text _ _) _ _) =>
  apply codes_text; [assumption|by vm_compute] : codes.

(** *** Stability of the pieces *)

Lemma stable_require_enum max what : stable (require_enum max what).
Proof. apply stable_bind; eauto with codec. Qed.
Lemma stable_enum {E} (of_code : Z → E) max what : stable (read_enum of_code max what).
Proof. apply stable_bind; [apply stable_require_enum|eauto with codec]. Qed.
Lemma stable_name_id : stable read_name_id.
Proof. apply stable_bind; eauto with codec. Qed.
#[export] Hint Resolve stable_require_enum stable_enum stable_name_id : codec.

(** Reads in sequence are stable when each is. *)
Ltac solve_stable :=
  repeat first
    [ apply stable_ret | apply stable_lift | apply stable_if
    | solve [eauto with codec nocore]
    | apply stable_bind; [solve [eauto with codec nocore]|intros ?] ].

Lemma stable_resource_ref : stable read_resource_ref.
Proof. unfold read_resource_ref. solve_stable. Qed.
#[export] Hint Resolve stable_resource_ref : codec.
Lemma stable_optional {A} (r : action _ A) : stable r → stable (read_optional r).
Proof.
  intros Hr. apply stable_bind; [apply stable_bool|intros []]; [|apply stable_ret].
  apply stable_bind; [done|]. intros a. apply stable_ret.
Qed.
Lemma stable_optional_resource : stable read_optional_resource.
Proof. apply stable_optional, stable_resource_ref. Qed.
Lemma stable_optional_name : stable read_optional_name.
Proof. apply stable_optional, stable_name_id. Qed.
Lemma stable_nanos : stable read_nanos.
Proof. unfold read_nanos. solve_stable. Qed.
Lemma stable_metadata_entries n m : stable (read_metadata_entries n m).
Proof.
  revert m. induction n as [|n IH]; intros m; simpl; [apply (stable_ret (A := BoundedMetadata.t))|].
  solve_stable.
Qed.
Lemma stable_metadata : stable read_metadata.
Proof.
  unfold read_metadata. apply stable_bind; [apply stable_u32|]. intros n.
  apply stable_if; [apply stable_lift|apply stable_metadata_entries].
Qed.
#[export] Hint Resolve stable_optional_resource stable_optional_name stable_nanos
  stable_metadata : codec.

(** A record is coded when each of its fields is. *)
Ltac solve_codes :=
  simpl; intros;
  repeat match goal with H : _ ∧ _ |- _ => destruct H end; subst;
  repeat first
    [ apply codes_ret
    | eapply codes_bind; [solve [eauto 3 with codes nocore]|]
    | eapply codes_map; [solve [eauto 3 with codes nocore]|reflexivity] ].

(** ** NodeRecord *)

Definition write_node (record : NodeRecord.t) : action PayloadWriter.t unit :=
  write_name_id (NodeRecord.id record);;
  PayloadWriter.text (NodeRecord.display_name record) kMaxTextAnnotation;;
  write_nanos (NodeRecord.registered_at_ns record).

Definition read_node : action PayloadReader.t NodeRecord.t :=
  id ← read_name_id;
  display_name ← PayloadReader.text kMaxTextAnnotation;
  registered_at_ns ← read_nanos;
  mret (NodeRecord.mk id display_name registered_at_ns).

Definition node_fits (record : NodeRecord.t) : Prop :=
  name_fits (NodeRecord.id record) ∧
  slen (NodeRecord.display_name record) ≤ kMaxTextAnnotation ∧
  in_i64 (NodeRecord.registered_at_ns record).

Lemma codes_node record :
  node_fits record → codes (write_node record) read_node record.
Proof. unfold write_node, read_node, node_fits. destruct record; solve_codes. Qed.

Lemma stable_node : stable read_node.
Proof. unfold read_node. solve_stable. Qed.

(** ** ProcessorRecord *)

Definition write_processor (record : ProcessorRecord.t) : action PayloadWriter.t unit :=
  write_name_id (ProcessorRecord.id record);;
  write_name_id (ProcessorRecord.node record);;
  write_name_id (ProcessorRecord.local_memory_domain record);;
  PayloadWriter.u64 (ProcessorRecord.generation record);;
  PayloadWriter.u32 (ProcessorRecord.logical_processor_count record);;
  PayloadWriter.u32 (ProcessorRecord.physical_core_count record);;
  PayloadWriter.u32 (ProcessorRecord.numa_node_index record);;
  PayloadWriter.u8_bool (ProcessorRecord.numa_node_index_known record);;
  PayloadWriter.u8_bool (ProcessorRecord.retired record);;
  write_nanos (ProcessorRecord.registered_at_ns record).

Definition read_processor : action PayloadReader.t ProcessorRecord.t :=
  id ← read_name_id;
  node ← read_name_id;
  local_memory_domain ← read_name_id;
  generation ← PayloadReader.u64;
  logical_processor_count ← PayloadReader.u32;
  physical_core_count ← PayloadReader.u32;
  numa_node_index ← PayloadReader.u32;
  numa_node_index_known ← read_bool;
  retired ← read_bool;
  registered_at_ns ← read_nanos;
  mret (ProcessorRecord.mk id node generation logical_processor_count physical_core_count
    numa_node_index numa_node_index_known local_memory_domain retired registered_at_ns).

Definition processor_fits (record : ProcessorRecord.t) : Prop :=
  name_fits (ProcessorRecord.id record) ∧
  name_fits (ProcessorRecord.node record) ∧
  name_fits (ProcessorRecord.local_memory_domain record) ∧
  in_uint 64 (ProcessorRecord.generation record) ∧
  in_uint 32 (ProcessorRecord.logical_processor_count record) ∧
  in_uint 32 (ProcessorRecord.physical_core_count record) ∧
  in_uint 32 (ProcessorRecord.numa_node_index record) ∧
  in_i64 (ProcessorRecord.registered_at_ns record).

Lemma codes_processor record :
  processor_fits record → codes (write_processor record) read_processor record.
Proof. unfold write_processor, read_processor, processor_fits. destruct record; solve_codes. Qed.

Lemma stable_processor : stable read_processor.
Proof. unfold read_processor. solve_stable. Qed.

(** ** AcceleratorRecord *)

Definition write_accelerator (record : AcceleratorRecord.t) : action PayloadWriter.t unit :=
  write_name_id (AcceleratorRecord.id record);;
  write_name_id (AcceleratorRecord.node record);;
  PayloadWriter.text (AcceleratorRecord.vendor record) kMaxTextShort;;
  PayloadWriter.text (AcceleratorRecord.vendor_uuid record) kMaxTextAnnotation;;
  write_name_id (AcceleratorRecord.local_memory_domain record);;
  PayloadWriter.u64 (AcceleratorRecord.generation record);;
  PayloadWriter.u8_bool (AcceleratorRecord.peer_coherent_capable record);;
  PayloadWriter.u8_bool (AcceleratorRecord.peer_coherent_capability_known record);;
  PayloadWriter.u8_bool (AcceleratorRecord.retired record);;
  write_nanos (AcceleratorRecord.registered_at_ns record).

Definition read_accelerator : action PayloadReader.t AcceleratorRecord.t :=
  id ← read_name_id;
  node ← read_name_id;
  vendor ← PayloadReader.text kMaxTextShort;
  vendor_uuid ← PayloadReader.text kMaxTextAnnotation;
  local_memory_domain ← read_name_id;
  generation ← PayloadReader.u64;
  peer_coherent_capable ← read_bool;
  peer_coherent_capability_known ← read_bool;
  retired ← read_bool;
  registered_at_ns ← read_nanos;
  mret (AcceleratorRecord.mk id node generation vendor vendor_uuid local_memory_domain
    peer_coherent_capable peer_coherent_capability_known retired registered_at_ns).

Definition accelerator_fits (record : AcceleratorRecord.t) : Prop :=
  name_fits (AcceleratorRecord.id record) ∧
  name_fits (AcceleratorRecord.node record) ∧
  slen (AcceleratorRecord.vendor record) ≤ kMaxTextShort ∧
  slen (AcceleratorRecord.vendor_uuid record) ≤ kMaxTextAnnotation ∧
  name_fits (AcceleratorRecord.local_memory_domain record) ∧
  in_uint 64 (AcceleratorRecord.generation record) ∧
  in_i64 (AcceleratorRecord.registered_at_ns record).

Lemma codes_accelerator record :
  accelerator_fits record → codes (write_accelerator record) read_accelerator record.
Proof. unfold write_accelerator, read_accelerator, accelerator_fits. destruct record; solve_codes. Qed.

Lemma stable_accelerator : stable read_accelerator.
Proof. unfold read_accelerator. solve_stable. Qed.

(** ** MemoryDomainRecord *)

Definition write_memory_domain (record : MemoryDomainRecord.t) : action PayloadWriter.t unit :=
  write_name_id (MemoryDomainRecord.id record);;
  write_name_id (MemoryDomainRecord.node record);;
  write_name_id (MemoryDomainRecord.coherence_domain record);;
  PayloadWriter.u64 (MemoryDomainRecord.generation record);;
  PayloadWriter.u8 (MemoryDomainKind.code (MemoryDomainRecord.kind record));;
  PayloadWriter.u8_bool (MemoryDomainRecord.coherent_with_host record);;
  PayloadWriter.u8_bool (MemoryDomainRecord.coherent_with_host_known record);;
  PayloadWriter.u8_bool (MemoryDomainRecord.capacity_known record);;
  PayloadWriter.u8_bool (MemoryDomainRecord.retired record);;
  PayloadWriter.u64 (MemoryDomainRecord.capacity_bytes record);;
  write_nanos (MemoryDomainRecord.registered_at_ns record).

Definition read_memory_domain : action PayloadReader.t MemoryDomainRecord.t :=
  id ← read_name_id;
  node ← read_name_id;
  coherence_domain ← read_name_id;
  generation ← PayloadReader.u64;
  kind ← read_enum MemoryDomainKind.of_code 7 "memory domain kind";
  coherent_with_host ← read_bool;
  coherent_with_host_known ← read_bool;
  capacity_known ← read_bool;
  retired ← read_bool;
  capacity_bytes ← PayloadReader.u64;
  registered_at_ns ← read_nanos;
  mret (MemoryDomainRecord.mk id generation node kind coherence_domain coherent_with_host
    coherent_with_host_known capacity_bytes capacity_known retired registered_at_ns).

Definition memory_domain_fits (record : MemoryDomainRecord.t) : Prop :=
  name_fits (MemoryDomainRecord.id record) ∧
  name_fits (MemoryDomainRecord.node record) ∧
  name_fits (MemoryDomainRecord.coherence_domain record) ∧
  in_uint 64 (MemoryDomainRecord.generation record) ∧
  enum_fits MemoryDomainKind.code MemoryDomainKind.of_code 7 (MemoryDomainRecord.kind record) ∧
  in_uint 64 (MemoryDomainRecord.capacity_bytes record) ∧
  in_i64 (MemoryDomainRecord.registered_at_ns record).

Lemma codes_memory_domain record :
  memory_domain_fits record → codes (write_memory_domain record) read_memory_domain record.
Proof. unfold write_memory_domain, read_memory_domain, memory_domain_fits. destruct record; solve_codes. Qed.

Lemma stable_memory_domain : stable read_memory_domain.
Proof. unfold read_memory_domain. solve_stable. Qed.

(** ** RegionRecord *)

Definition write_region (record : RegionRecord.t) : action PayloadWriter.t unit :=
  write_name_id (RegionRecord.id record);;
  PayloadWriter.text (RegionRecord.owner record) kMaxTextAnnotation;;
  PayloadWriter.text (RegionRecord.annotation record) kMaxTextAnnotation;;
  write_name_id (RegionRecord.memory_domain record);;
  write_name_id (RegionRecord.coherence_domain record);;
  write_name_id (RegionRecord.workload record);;
  PayloadWriter.u64 (RegionRecord.generation record);;
  PayloadWriter.u64 (RegionRecord.memory_domain_generation record);;
  PayloadWriter.u64 (RegionRecord.opaque_handle record);;
  PayloadWriter.u64 (RegionRecord.size_bytes record);;
  PayloadWriter.u64 (RegionRecord.page_size_bytes record);;
  PayloadWriter.u64 (RegionRecord.allocation_generation record);;
  PayloadWriter.u64 (RegionRecord.mapping_generation record);;
  PayloadWriter.u8 (SharingScope.code (RegionRecord.sharing_scope record));;
  PayloadWriter.u8_bool (RegionRecord.size_known record);;
  PayloadWriter.u8_bool (RegionRecord.page_size_known record);;
  PayloadWriter.u8_bool (RegionRecord.retired record);;
  write_nanos (RegionRecord.registered_at_ns record);;
  write_nanos (RegionRecord.retired_at_ns record).

Definition read_region : action PayloadReader.t RegionRecord.t :=
  id ← read_name_id;
  owner ← PayloadReader.text kMaxTextAnnotation;
  annotation ← PayloadReader.text kMaxTextAnnotation;
  memory_domain ← read_name_id;
  coherence_domain ← read_name_id;
  workload ← read_name_id;
  generation ← PayloadReader.u64;
  memory_domain_generation ← PayloadReader.u64;
  opaque_handle ← PayloadReader.u64;
  size_bytes ← PayloadReader.u64;
  page_size_bytes ← PayloadReader.u64;
  allocation_generation ← PayloadReader.u64;
  mapping_generation ← PayloadReader.u64;
  sharing_scope ← read_enum SharingScope.of_code 6 "sharing scope";
  size_known ← read_bool;
  page_size_known ← read_bool;
  retired ← read_bool;
  registered_at_ns ← read_nanos;
  retired_at_ns ← read_nanos;
  mret (RegionRecord.mk id generation opaque_handle owner memory_domain memory_domain_generation
    coherence_domain sharing_scope size_bytes size_known page_size_bytes page_size_known
    allocation_generation mapping_generation workload annotation retired registered_at_ns
    retired_at_ns false).

Definition region_fits (record : RegionRecord.t) : Prop :=
  name_fits (RegionRecord.id record) ∧
  slen (RegionRecord.owner record) ≤ kMaxTextAnnotation ∧
  slen (RegionRecord.annotation record) ≤ kMaxTextAnnotation ∧
  name_fits (RegionRecord.memory_domain record) ∧
  name_fits (RegionRecord.coherence_domain record) ∧
  name_fits (RegionRecord.workload record) ∧
  in_uint 64 (RegionRecord.generation record) ∧
  in_uint 64 (RegionRecord.memory_domain_generation record) ∧
  in_uint 64 (RegionRecord.opaque_handle record) ∧
  in_uint 64 (RegionRecord.size_bytes record) ∧
  in_uint 64 (RegionRecord.page_size_bytes record) ∧
  in_uint 64 (RegionRecord.allocation_generation record) ∧
  in_uint 64 (RegionRecord.mapping_generation record) ∧
  enum_fits SharingScope.code SharingScope.of_code 6 (RegionRecord.sharing_scope record) ∧
  in_i64 (RegionRecord.registered_at_ns record) ∧
  in_i64 (RegionRecord.retired_at_ns record) ∧
  RegionRecord.loaded_from_state record = false.

Lemma codes_region record :
  region_fits record → codes (write_region record) read_region record.
Proof. unfold write_region, read_region, region_fits. destruct record; solve_codes. Qed.

Lemma stable_region : stable read_region.
Proof. unfold read_region. solve_stable. Qed.

(** ** TopologyLink *)

Definition write_topology_link (record : TopologyLink.t) : action PayloadWriter.t unit :=
  write_resource_ref (TopologyLink.from record);;
  write_resource_ref (TopologyLink.to record);;
  PayloadWriter.u8 (Locality.code (TopologyLink.locality record));;
  PayloadWriter.u8 (Provenance.code (TopologyLink.provenance record));;
  PayloadWriter.i64 (TopologyLink.latency_ns record);;
  PayloadWriter.u64 (TopologyLink.bandwidth_bytes_per_second record).

Definition read_topology_link : action PayloadReader.t TopologyLink.t :=
  from ← read_resource_ref;
  to ← read_resource_ref;
  locality ← read_enum Locality.of_code kLocalityCount "locality";
  provenance ← read_enum Provenance.of_code 10 "provenance";
  latency_ns ← PayloadReader.i64;
  bandwidth_bytes_per_second ← PayloadReader.u64;
  mret (TopologyLink.mk from to locality latency_ns bandwidth_bytes_per_second provenance).

Definition topology_link_fits (record : TopologyLink.t) : Prop :=
  resource_fits (TopologyLink.from record) ∧
  resource_fits (TopologyLink.to record) ∧
  enum_fits Locality.code Locality.of_code kLocalityCount (TopologyLink.locality record) ∧
  enum_fits Provenance.code Provenance.of_code 10 (TopologyLink.provenance record) ∧
  in_i64 (TopologyLink.latency_ns record) ∧
  in_uint 64 (TopologyLink.bandwidth_bytes_per_second record).

Lemma codes_topology_link record :
  topology_link_fits record → codes (write_topology_link record) read_topology_link record.
Proof. unfold write_topology_link, read_topology_link, topology_link_fits. destruct record; solve_codes. Qed.

Lemma stable_topology_link : stable read_topology_link.
Proof. unfold read_topology_link. solve_stable. Qed.

(** ** Capability *)

Definition write_capability (record : Capability.t) : action PayloadWriter.t unit :=
  PayloadWriter.text (Capability.key record) kMaxTextShort;;
  PayloadWriter.u8 (CapabilityStatus.code (Capability.status record));;
  PayloadWriter.text (Capability.detail record) 512;;
  PayloadWriter.text (Capability.mechanism record) 128.

Definition read_capability : action PayloadReader.t Capability.t :=
  key ← PayloadReader.text kMaxTextShort;
  status ← read_enum CapabilityStatus.of_code 3 "capability status";
  detail ← PayloadReader.text 512;
  mechanism ← PayloadReader.text 128;
  mret (Capability.mk key status detail mechanism).

Definition capability_fits (record : Capability.t) : Prop :=
  slen (Capability.key record) ≤ kMaxTextShort ∧
  enum_fits CapabilityStatus.code CapabilityStatus.of_code 3 (Capability.status record) ∧
  slen (Capability.detail record) ≤ 512 ∧
  slen (Capability.mechanism record) ≤ 128.

Lemma codes_capability record :
  capability_fits record → codes (write_capability record) read_capability record.
Proof. unfold write_capability, read_capability, capability_fits. destruct record; solve_codes. Qed.

Lemma stable_capability : stable read_capability.
Proof. unfold read_capability. solve_stable. Qed.

(** ** PublisherRegistration *)

Definition write_publisher_registration (record : PublisherRegistration.t) : action PayloadWriter.t unit :=
  write_name_id (PublisherRegistration.id record);;
  PayloadWriter.u64 (PublisherRegistration.boot record);;
  write_name_id (PublisherRegistration.observer record);;
  write_name_id (PublisherRegistration.node record);;
  PayloadWriter.text (PublisherRegistration.display_name record) kMaxTextAnnotation;;
  PayloadWriter.u64 (PublisherRegistration.coordinator_epoch record);;
  PayloadWriter.u64 (PublisherRegistration.evidence_generation record);;
  PayloadWriter.u64 (PublisherRegistration.sampling_epoch record);;
  PayloadWriter.u8 (Provenance.code (PublisherRegistration.provenance record)).

Definition read_publisher_registration : action PayloadReader.t PublisherRegistration.t :=
  id ← read_name_id;
  boot ← PayloadReader.u64;
  observer ← read_name_id;
  node ← read_name_id;
  display_name ← PayloadReader.text kMaxTextAnnotation;
  coordinator_epoch ← PayloadReader.u64;
  evidence_generation ← PayloadReader.u64;
  sampling_epoch ← PayloadReader.u64;
  provenance ← read_enum Provenance.of_code 10 "publisher provenance";
  mret (PublisherRegistration.mk id boot observer node display_name coordinator_epoch
    evidence_generation sampling_epoch provenance).

Definition publisher_registration_fits (record : PublisherRegistration.t) : Prop :=
  name_fits (PublisherRegistration.id record) ∧
  in_uint 64 (PublisherRegistration.boot record) ∧
  name_fits (PublisherRegistration.observer record) ∧
  name_fits (PublisherRegistration.node record) ∧
  slen (PublisherRegistration.display_name record) ≤ kMaxTextAnnotation ∧
  in_uint 64 (PublisherRegistration.coordinator_epoch record) ∧
  in_uint 64 (PublisherRegistration.evidence_generation record) ∧
  in_uint 64 (PublisherRegistration.sampling_epoch record) ∧
  enum_fits Provenance.code Provenance.of_code 10 (PublisherRegistration.provenance record).

Lemma codes_publisher_registration record :
  publisher_registration_fits record → codes (write_publisher_registration record) read_publisher_registration record.
Proof. unfold write_publisher_registration, read_publisher_registration, publisher_registration_fits. destruct record; solve_codes. Qed.

Lemma stable_publisher_registration : stable read_publisher_registration.
Proof. unfold read_publisher_registration. solve_stable. Qed.

(** ** Counted sequences *)

(** [u32(size())] and the elements; the reader refuses a count beyond its
    bound before it reads anything. *)
Definition write_list {A} (w : A → action PayloadWriter.t unit) (l : list A)
  : action PayloadWriter.t unit :=
  PayloadWriter.u32 (zlen l mod 2 ^ 32);; write_all w l.
Definition read_list {A} (bound : Z) (e : Error.t) (r : action PayloadReader.t A)
  : action PayloadReader.t (list A) :=
  count ← PayloadReader.u32;
  if count >? bound then lift (Err e) else read_n (Z.to_nat count) r.

Lemma codes_list {A} (w : A → action _ unit) (r : action _ A) bound e l :
  Forall (λ a, codes (w a) r a) l → zlen l ≤ bound → bound < 2 ^ 32 →
  codes (write_list w l) (read_list bound e r) l.
Proof.
  intros Hl Hn Hb. unfold write_list, read_list. pose proof (zlen_nonneg l).
  rewrite Z.mod_small by lia. eapply codes_bind; [apply codes_u32; unfold in_uint; lia|].
  rewrite Z.gtb_ltb, (proj2 (Z.ltb_ge _ _)) by lia. unfold zlen. rewrite Nat2Z.id.
  rewrite <- (list_fmap_id l) at 3. by apply codes_all.
Qed.

Lemma stable_list {A} bound e (r : action _ A) : stable r → stable (read_list bound e r).
Proof.
  intros Hr. apply stable_bind; [apply stable_u32|]. intros n.
  apply stable_if; [apply stable_lift|by apply stable_read_n].
Qed.
#[export] Hint Resolve stable_list : codec.

(** ** CoherenceDomainRecord *)

Definition write_coherence_domain (record : CoherenceDomainRecord.t) : action PayloadWriter.t unit :=
  write_name_id (CoherenceDomainRecord.id record);;
  PayloadWriter.text (CoherenceDomainRecord.protocol_family record) kMaxTextAnnotation;;
  PayloadWriter.u64 (CoherenceDomainRecord.generation record);;
  PayloadWriter.u8_bool (CoherenceDomainRecord.retired record);;
  write_list write_resource_ref (CoherenceDomainRecord.members record);;
  write_nanos (CoherenceDomainRecord.registered_at_ns record).

Definition read_coherence_domain : action PayloadReader.t CoherenceDomainRecord.t :=
  id ← read_name_id;
  protocol_family ← PayloadReader.text kMaxTextAnnotation;
  generation ← PayloadReader.u64;
  retired ← read_bool;
  members ← read_list Limits.kMaxTopologyLinkCount
              (Error.mk ErrorCode.TooMany "coherence domain member count" "") read_resource_ref;
  registered_at_ns ← read_nanos;
  mret (CoherenceDomainRecord.mk id generation protocol_family members retired registered_at_ns).

Definition coherence_domain_fits (record : CoherenceDomainRecord.t) : Prop :=
  name_fits (CoherenceDomainRecord.id record) ∧
  slen (CoherenceDomainRecord.protocol_family record) ≤ kMaxTextAnnotation ∧
  in_uint 64 (CoherenceDomainRecord.generation record) ∧
  Forall resource_fits (CoherenceDomainRecord.members record) ∧
  zlen (CoherenceDomainRecord.members record) ≤ Limits.kMaxTopologyLinkCount ∧
  in_i64 (CoherenceDomainRecord.registered_at_ns record).

Lemma codes_resource_list e l :
  Forall resource_fits l → zlen l ≤ Limits.kMaxTopologyLinkCount →
  codes (write_list write_resource_ref l)
    (read_list Limits.kMaxTopologyLinkCount e read_resource_ref) l.
Proof.
  intros Hl Hn. apply codes_list; [|done|by vm_compute].
  eapply Forall_impl; [exact Hl|]. apply codes_resource_ref.
Qed.
#[export] Hint Resolve codes_resource_list : codes.

Lemma codes_coherence_domain record :
  coherence_domain_fits record → codes (write_coherence_domain record) read_coherence_domain record.
Proof.
  unfold write_coherence_domain, read_coherence_domain, coherence_domain_fits.
  destruct record; solve_codes.
Qed.

Lemma stable_coherence_domain : stable read_coherence_domain.
Proof. unfold read_coherence_domain. solve_stable. Qed.

(** ** Counter publications *)

(** A generation is only kept with the name it belongs to. *)
Definition bound_generation (name : option string) (generation : Z) : option Z :=
  match name with Some _ => Some generation | None => None end.

Definition write_counter_publication (p : CounterPublication.t) : action PayloadWriter.t unit :=
  write_name_id (CounterPublication.publisher p);;
  PayloadWriter.u64 (CounterPublication.publisher_boot p);;
  PayloadWriter.u64 (CounterPublication.coordinator_epoch p);;
  PayloadWriter.u64 (CounterPublication.evidence_generation p);;
  write_name_id (CounterPublication.counter p);;
  PayloadWriter.u8 (EventType.code (CounterPublication.mapped_type p));;
  PayloadWriter.u8 (CounterKind.code (CounterPublication.kind p));;
  PayloadWriter.u8 (CounterScope.code (CounterPublication.scope p));;
  PayloadWriter.u32 (CounterPublication.width_bits p);;
  PayloadWriter.u64 (CounterPublication.generation p);;
  PayloadWriter.u64 (CounterPublication.sampling_epoch p);;
  PayloadWriter.u64 (CounterPublication.raw_value p);;
  PayloadWriter.u64 (CounterPublication.bytes_per_unit p);;
  PayloadWriter.u64 (CounterPublication.sequence p);;
  PayloadWriter.i64 (CounterPublication.timestamp_ns p);;
  write_optional_resource (CounterPublication.source p);;
  write_optional_resource (CounterPublication.target p);;
  write_optional_name (CounterPublication.region p);;
  PayloadWriter.u64 (default 0 (CounterPublication.region_generation p));;
  write_optional_name (CounterPublication.workload p);;
  PayloadWriter.u64 (CounterPublication.topology_generation p);;
  PayloadWriter.u8 (Provenance.code (CounterPublication.provenance p));;
  PayloadWriter.u8 (EvidenceGranularity.code (CounterPublication.granularity p));;
  write_metadata (CounterPublication.metadata p).

Definition read_counter_publication : action PayloadReader.t CounterPublication.t :=
  publisher ← read_name_id;
  boot ← PayloadReader.u64;
  coordinator ← PayloadReader.u64;
  evidence ← PayloadReader.u64;
  counter ← read_name_id;
  mapped_type ← read_enum EventType.of_code kEventTypeCount "counter event type";
  kind ← read_enum CounterKind.of_code 5 "counter kind";
  scope ← read_enum CounterScope.of_code 7 "counter scope";
  width_bits ← PayloadReader.u32;
  generation ← PayloadReader.u64;
  sampling ← PayloadReader.u64;
  raw_value ← PayloadReader.u64;
  bytes_per_unit ← PayloadReader.u64;
  sequence ← PayloadReader.u64;
  timestamp ← PayloadReader.i64;
  source ← read_optional_resource;
  target ← read_optional_resource;
  region ← read_optional_name;
  region_generation ← PayloadReader.u64;
  workload ← read_optional_name;
  topology ← PayloadReader.u64;
  provenance ← read_enum Provenance.of_code 10 "counter provenance";
  granularity ← read_enum EvidenceGranularity.of_code 7 "counter granularity";
  metadata ← read_metadata;
  mret (CounterPublication.mk publisher boot coordinator evidence counter mapped_type kind scope
          width_bits generation sampling raw_value bytes_per_unit sequence timestamp source target
          region (bound_generation region region_generation) workload topology provenance
          granularity metadata).

Definition counter_publication_fits (p : CounterPublication.t) : Prop :=
  name_fits (CounterPublication.publisher p) ∧
  in_uint 64 (CounterPublication.publisher_boot p) ∧
  in_uint 64 (CounterPublication.coordinator_epoch p) ∧
  in_uint 64 (CounterPublication.evidence_generation p) ∧
  name_fits (CounterPublication.counter p) ∧
  enum_fits EventType.code EventType.of_code kEventTypeCount (CounterPublication.mapped_type p) ∧
  enum_fits CounterKind.code CounterKind.of_code 5 (CounterPublication.kind p) ∧
  enum_fits CounterScope.code CounterScope.of_code 7 (CounterPublication.scope p) ∧
  in_uint 32 (CounterPublication.width_bits p) ∧
  in_uint 64 (CounterPublication.generation p) ∧
  in_uint 64 (CounterPublication.sampling_epoch p) ∧
  in_uint 64 (CounterPublication.raw_value p) ∧
  in_uint 64 (CounterPublication.bytes_per_unit p) ∧
  in_uint 64 (CounterPublication.sequence p) ∧
  in_i64 (CounterPublication.timestamp_ns p) ∧
  option_fits resource_fits (CounterPublication.source p) ∧
  option_fits resource_fits (CounterPublication.target p) ∧
  option_fits name_fits (CounterPublication.region p) ∧
  in_uint 64 (default 0 (CounterPublication.region_generation p)) ∧
  option_fits name_fits (CounterPublication.workload p) ∧
  in_uint 64 (CounterPublication.topology_generation p) ∧
  enum_fits Provenance.code Provenance.of_code 10 (CounterPublication.provenance p) ∧
  enum_fits EvidenceGranularity.code EvidenceGranularity.of_code 7
    (CounterPublication.granularity p) ∧
  BoundedMetadata.wf (CounterPublication.metadata p).

(** What arrives: metadata sorted, a region generation exactly with a region. *)
Definition counter_wire_form (p : CounterPublication.t) : CounterPublication.t :=
  p <| CounterPublication.region_generation :=
         bound_generation (CounterPublication.region p)
           (default 0 (CounterPublication.region_generation p)) |>
    <| CounterPublication.metadata ::= BoundedMetadata.sorted_entries |>.

Lemma codes_counter_publication p :
  counter_publication_fits p →
  codes (write_counter_publication p) read_counter_publication (counter_wire_form p).
Proof.
  unfold write_counter_publication, read_counter_publication, counter_publication_fits.
  destruct p; solve_codes.
Qed.

Lemma stable_counter_publication : stable read_counter_publication.
Proof. unfold read_counter_publication. solve_stable. Qed.

(** ** Observations *)

Definition write_observation (o : Observation.t) : action PayloadWriter.t unit :=
  PayloadWriter.u64 (Observation.event_id o);;
  PayloadWriter.u8 (EventType.code (Observation.type o));;
  write_name_id (Observation.source_publisher o);;
  PayloadWriter.u64 (Observation.publisher_boot o);;
  PayloadWriter.u64 (Observation.coordinator_epoch o);;
  PayloadWriter.u64 (Observation.sampling_epoch o);;
  PayloadWriter.u64 (Observation.evidence_generation o);;
  PayloadWriter.u64 (Observation.sequence o);;
  PayloadWriter.i64 (Observation.timestamp_ns o);;
  write_optional_resource (Observation.source o);;
  write_optional_resource (Observation.target o);;
  write_optional_name (Observation.region o);;
  PayloadWriter.u64 (default 0 (Observation.region_generation o));;
  write_optional_name (Observation.coherence_domain o);;
  PayloadWriter.u64 (default 0 (Observation.coherence_domain_generation o));;
  PayloadWriter.u64 (Observation.topology_generation o);;
  write_optional_name (Observation.workload o);;
  write_optional_name (Observation.process o);;
  PayloadWriter.u8 (AccessDirection.code (Observation.direction o));;
  PayloadWriter.u8 (CoherenceState.code (Observation.state_before o));;
  PayloadWriter.u8 (CoherenceState.code (Observation.state_after o));;
  PayloadWriter.u8_bool (is_some (Observation.counter_delta o));;
  PayloadWriter.u64 (default 0 (Observation.counter_delta o));;
  PayloadWriter.u64 (Observation.counter_generation o);;
  PayloadWriter.u64 (Observation.bytes o);;
  PayloadWriter.u64 (Observation.lines o);;
  PayloadWriter.u64 (Observation.pages o);;
  PayloadWriter.u64 (Observation.region_count o);;
  PayloadWriter.i64 (Observation.measured_duration_ns o);;
  PayloadWriter.u8 (Locality.code (Observation.locality o));;
  PayloadWriter.u8_bool (Observation.locality_declared o);;
  PayloadWriter.u8 (Provenance.code (Observation.provenance o));;
  PayloadWriter.u8 (Precision.code (Observation.precision o));;
  PayloadWriter.u8 (EvidenceGranularity.code (Observation.granularity o));;
  write_metadata (Observation.metadata o).

Definition read_observation : action PayloadReader.t Observation.t :=
  event_id ← PayloadReader.u64;
  type ← read_enum EventType.of_code kEventTypeCount "event type";
  source_publisher ← read_name_id;
  boot ← PayloadReader.u64;
  coordinator ← PayloadReader.u64;
  sampling ← PayloadReader.u64;
  evidence ← PayloadReader.u64;
  sequence ← PayloadReader.u64;
  timestamp ← PayloadReader.i64;
  source ← read_optional_resource;
  target ← read_optional_resource;
  region ← read_optional_name;
  region_generation ← PayloadReader.u64;
  domain ← read_optional_name;
  domain_generation ← PayloadReader.u64;
  topology ← PayloadReader.u64;
  workload ← read_optional_name;
  process ← read_optional_name;
  direction ← read_enum AccessDirection.of_code 6 "access direction";
  state_before ← read_enum CoherenceState.of_code 10 "coherence state";
  state_after ← read_enum CoherenceState.of_code 10 "coherence state";
  has_counter ← read_bool;
  counter_delta ← PayloadReader.u64;
  counter_generation ← PayloadReader.u64;
  bytes ← PayloadReader.u64;
  lines ← PayloadReader.u64;
  pages ← PayloadReader.u64;
  region_count ← PayloadReader.u64;
  measured ← PayloadReader.i64;
  locality ← read_enum Locality.of_code kLocalityCount "locality";
  locality_declared ← read_bool;
  provenance ← read_enum Provenance.of_code 10 "provenance";
  precision ← read_enum Precision.of_code 7 "precision";
  granularity ← read_enum EvidenceGranularity.of_code 7 "granularity";
  metadata ← read_metadata;
  mret (Observation.mk event_id type source_publisher boot coordinator sampling evidence sequence
          timestamp source target region (bound_generation region region_generation) domain
          (bound_generation domain domain_generation) topology workload process direction
          state_before state_after (if (has_counter : bool) then Some counter_delta else None)
          counter_generation bytes lines pages region_count measured locality locality_declared
          provenance precision granularity metadata
          (Observation.accepted_epoch Observation.empty) (Observation.late Observation.empty)).

Definition observation_fits (o : Observation.t) : Prop :=
  in_uint 64 (Observation.event_id o) ∧
  enum_fits EventType.code EventType.of_code kEventTypeCount (Observation.type o) ∧
  name_fits (Observation.source_publisher o) ∧
  in_uint 64 (Observation.publisher_boot o) ∧
  in_uint 64 (Observation.coordinator_epoch o) ∧
  in_uint 64 (Observation.sampling_epoch o) ∧
  in_uint 64 (Observation.evidence_generation o) ∧
  in_uint 64 (Observation.sequence o) ∧
  in_i64 (Observation.timestamp_ns o) ∧
  option_fits resource_fits (Observation.source o) ∧
  option_fits resource_fits (Observation.target o) ∧
  option_fits name_fits (Observation.region o) ∧
  in_uint 64 (default 0 (Observation.region_generation o)) ∧
  option_fits name_fits (Observation.coherence_domain o) ∧
  in_uint 64 (default 0 (Observation.coherence_domain_generation o)) ∧
  in_uint 64 (Observation.topology_generation o) ∧
  option_fits name_fits (Observation.workload o) ∧
  option_fits name_fits (Observation.process o) ∧
  enum_fits AccessDirection.code AccessDirection.of_code 6 (Observation.direction o) ∧
  enum_fits CoherenceState.code CoherenceState.of_code 10 (Observation.state_before o) ∧
  enum_fits CoherenceState.code CoherenceState.of_code 10 (Observation.state_after o) ∧
  in_uint 64 (default 0 (Observation.counter_delta o)) ∧
  in_uint 64 (Observation.counter_generation o) ∧
  in_uint 64 (Observation.bytes o) ∧ in_uint 64 (Observation.lines o) ∧
  in_uint 64 (Observation.pages o) ∧ in_uint 64 (Observation.region_count o) ∧
  in_i64 (Observation.measured_duration_ns o) ∧
  enum_fits Locality.code Locality.of_code kLocalityCount (Observation.locality o) ∧
  enum_fits Provenance.code Provenance.of_code 10 (Observation.provenance o) ∧
  enum_fits Precision.code Precision.of_code 7 (Observation.precision o) ∧
  enum_fits EvidenceGranularity.code EvidenceGranularity.of_code 7 (Observation.granularity o) ∧
  BoundedMetadata.wf (Observation.metadata o).

(** What arrives: metadata sorted, generations only with their names, and none
    of the runtime's own annotations. *)
Definition observation_wire_form (o : Observation.t) : Observation.t :=
  o <| Observation.region_generation :=
         bound_generation (Observation.region o) (default 0 (Observation.region_generation o)) |>
    <| Observation.coherence_domain_generation :=
         bound_generation (Observation.coherence_domain o)
           (default 0 (Observation.coherence_domain_generation o)) |>
    <| Observation.metadata ::= BoundedMetadata.sorted_entries |>
    <| Observation.accepted_epoch := 0 |> <| Observation.late := false |>.

Lemma codes_observation o :
  observation_fits o → codes (write_observation o) read_observation (observation_wire_form o).
Proof.
  unfold write_observation, read_observation, observation_fits.
  destruct o; destruct counter_delta; solve_codes.
Qed.

Lemma stable_observation : stable read_observation.
Proof. unfold read_observation. solve_stable. Qed.

(** *** A validated observation keeps its content *)

Lemma validated_bound_names o :
  validate_observation_structure o = Ok tt →
  bound_name_ok (Observation.region o) (Observation.region_generation o) ∧
  bound_name_ok (Observation.coherence_domain o) (Observation.coherence_domain_generation o).
Proof.
  unfold validate_observation_structure. rewrite !seq_Ok, !validate_bound_name_Ok. tauto.
Qed.

Lemma bound_generation_ok name g :
  bound_name_ok name g → bound_generation name (default 0 g) = g.
Proof. by destruct name, g. Qed.

Lemma sorted_entries_idemp m :
  BoundedMetadata.wf m →
  BoundedMetadata.canonical_hash (BoundedMetadata.sorted_entries m) =
    BoundedMetadata.canonical_hash m.
Proof.
  intros Hwf. unfold BoundedMetadata.canonical_hash. f_equal.
  apply BoundedMetadata.sorted_entries_perm; [apply (BoundedMetadata.sorted_entries_wf m Hwf)|].
  apply merge_sort_Permutation.
Qed.

Lemma observation_wire_form_validated o :
  validate_observation_structure o = Ok tt →
  observation_wire_form o =
    o <| Observation.metadata ::= BoundedMetadata.sorted_entries |>
      <| Observation.accepted_epoch := 0 |> <| Observation.late := false |>.
Proof.
  intros [Hr Hd]%validated_bound_names. unfold observation_wire_form.
  rewrite (bound_generation_ok _ _ Hr), (bound_generation_ok _ _ Hd). by destruct o.
Qed.

Lemma content_hash_metadata o m :
  BoundedMetadata.canonical_hash m = BoundedMetadata.canonical_hash (Observation.metadata o) →
  content_hash (o <| Observation.metadata := m |>) = content_hash o.
Proof.
  intros Hm. destruct o. unfold content_hash, update_field in *.
  cbn -[fnv1a_u64 fnv1a_str BoundedMetadata.canonical_hash hash_resource hash_bound_name
        hash_name wrap64 fnv1a_init] in *.
  by rewrite Hm.
Qed.

(** ** Acknowledgements *)

Module AckPayload.
Record t := mk {
  status : AckStatus.t; coordinator_epoch : Z; observation_epoch : Z; detail : string;
  accepted : Z; rejected : Z; duplicates : Z; late : Z; missing : Z;
  produced_delta : Z; delta : Z; discontinuity : Z;
}.
#[global] Instance eta : Eta t := fun a =>
  mk (status a) (coordinator_epoch a) (observation_epoch a) (detail a) (accepted a) (rejected a)
    (duplicates a) (late a) (missing a) (produced_delta a) (delta a) (discontinuity a).
Definition empty : t := mk AckStatus.Accepted 0 0 "" 0 0 0 0 0 0 0 0.
End AckPayload.

Definition write_ack (ack : AckPayload.t) : action PayloadWriter.t unit :=
  PayloadWriter.u16 (AckStatus.code (AckPayload.status ack));;
  PayloadWriter.u64 (AckPayload.coordinator_epoch ack);;
  PayloadWriter.u64 (AckPayload.observation_epoch ack);;
  PayloadWriter.text (AckPayload.detail ack) 256;;
  PayloadWriter.u64 (AckPayload.accepted ack);;
  PayloadWriter.u64 (AckPayload.rejected ack);;
  PayloadWriter.u64 (AckPayload.duplicates ack);;
  PayloadWriter.u64 (AckPayload.late ack);;
  PayloadWriter.u64 (AckPayload.missing ack);;
  PayloadWriter.u64 (AckPayload.produced_delta ack);;
  PayloadWriter.u64 (AckPayload.delta ack);;
  PayloadWriter.u64 (AckPayload.discontinuity ack).

(** The status word and its range check. *)
Definition read_ack_status : action PayloadReader.t AckStatus.t :=
  v ← PayloadReader.u16;
  if v >? AckStatus.code AckStatus.InternalError
  then lift (fail ErrorCode.InvalidArgument "ack status out of range")
  else mret (AckStatus.of_code v).

Definition read_ack : action PayloadReader.t AckPayload.t :=
  status ← read_ack_status;
  coordinator ← PayloadReader.u64;
  observation ← PayloadReader.u64;
  detail ← PayloadReader.text 256;
  accepted ← PayloadReader.u64;
  rejected ← PayloadReader.u64;
  duplicates ← PayloadReader.u64;
  late ← PayloadReader.u64;
  missing ← PayloadReader.u64;
  produced_delta ← PayloadReader.u64;
  delta ← PayloadReader.u64;
  discontinuity ← PayloadReader.u64;
  mret (AckPayload.mk status coordinator observation detail accepted rejected duplicates late
          missing produced_delta delta discontinuity).

Definition ack_fits (ack : AckPayload.t) : Prop :=
  enum_fits AckStatus.code AckStatus.of_code 12 (AckPayload.status ack) ∧
  in_uint 64 (AckPayload.coordinator_epoch ack) ∧ in_uint 64 (AckPayload.observation_epoch ack) ∧
  slen (AckPayload.detail ack) ≤ 256 ∧
  in_uint 64 (AckPayload.accepted ack) ∧ in_uint 64 (AckPayload.rejected ack) ∧
  in_uint 64 (AckPayload.duplicates ack) ∧ in_uint 64 (AckPayload.late ack) ∧
  in_uint 64 (AckPayload.missing ack) ∧ in_uint 64 (AckPayload.produced_delta ack) ∧
  in_uint 64 (AckPayload.delta ack) ∧ in_uint 64 (AckPayload.discontinuity ack).

Lemma codes_ack_status s :
  enum_fits AckStatus.code AckStatus.of_code 12 s →
  codes (PayloadWriter.u16 (AckStatus.code s)) read_ack_status s.
Proof.
  intros [Hr Hc]. unfold read_ack_status.
  eapply codes_last; [apply codes_u16; unfold in_uint; lia|].
  change (AckStatus.code AckStatus.InternalError) with 11.
  rewrite Z.gtb_ltb, (proj2 (Z.ltb_ge _ _)), Hc by lia. apply reads_ret.
Qed.
#[export] Hint Resolve codes_ack_status : codes.

Lemma codes_ack ack : ack_fits ack → codes (write_ack ack) read_ack ack.
Proof. unfold write_ack, read_ack, ack_fits. destruct ack; solve_codes. Qed.

Lemma stable_ack_status : stable read_ack_status.
Proof. unfold read_ack_status. solve_stable. Qed.
#[export] Hint Resolve stable_ack_status : codec.
Lemma stable_ack : stable read_ack.
Proof. unfold read_ack. solve_stable. Qed.

(** ** The round trips *)

(** [w] produces a payload from which [r] recovers [a], consuming it exactly,
    and of which no strict prefix is accepted. *)
Definition survives {A} (w : action PayloadWriter.t unit) (r : action PayloadReader.t A) (a : A)
  : Prop :=
  ∃ payload, w [] = (Ok tt, payload) ∧ is_bytes payload ∧
    r (PayloadReader.mk payload 0) = (Ok a, PayloadReader.mk payload (length payload)) ∧
    ∀ p q, payload = p ++ q → q ≠ [] →
      code_of (fst (r (PayloadReader.mk p 0))) = ErrorCode.Truncated.

(** Claim C20.  Publishing over the wire does not change what is published: a
    structurally valid observation is read back from its payload with the same
    content hash, differing from the original at most in the order of its
    metadata and in the annotations the runtime makes itself; a payload that was
    cut short is refused as truncated. *)
Theorem observation_survives_wire (o : Observation.t) :
  observation_fits o → validate_observation_structure o = Ok tt →
  survives (write_observation o) read_observation (observation_wire_form o) ∧
  observation_wire_form o =
    o <| Observation.metadata ::= BoundedMetadata.sorted_entries |>
      <| Observation.accepted_epoch := 0 |> <| Observation.late := false |> ∧
  content_hash (observation_wire_form o) = content_hash o.
Proof.
  intros Hf Hv. pose proof (observation_wire_form_validated o Hv) as Hw. split_and!.
  - apply codes_payload; [by apply codes_observation|apply stable_observation].
  - exact Hw.
  - rewrite Hw, content_hash_ignores_annotations. apply content_hash_metadata.
    apply sorted_entries_idemp. unfold observation_fits in Hf. tauto.
Qed.

(** Every structural record, registration and counter sample that
    fits the wire format is read back as it was written (a counter sample with
    its metadata sorted), and no truncated payload is accepted for one. *)
Theorem records_survive_wire :
  (∀ r, node_fits r → survives (write_node r) read_node r) ∧
  (∀ r, processor_fits r → survives (write_processor r) read_processor r) ∧
  (∀ r, accelerator_fits r → survives (write_accelerator r) read_accelerator r) ∧
  (∀ r, memory_domain_fits r → survives (write_memory_domain r) read_memory_domain r) ∧
  (∀ r, coherence_domain_fits r → survives (write_coherence_domain r) read_coherence_domain r) ∧
  (∀ r, region_fits r → survives (write_region r) read_region r) ∧
  (∀ l, topology_link_fits l → survives (write_topology_link l) read_topology_link l) ∧
  (∀ c, capability_fits c → survives (write_capability c) read_capability c) ∧
  (∀ r, publisher_registration_fits r →
     survives (write_publisher_registration r) read_publisher_registration r) ∧
  (∀ p, counter_publication_fits p →
     survives (write_counter_publication p) read_counter_publication (counter_wire_form p)) ∧
  (∀ a, ack_fits a → survives (write_ack a) read_ack a).
Proof.
  repeat match goal with |- _ ∧ _ => split end; intros x Hx; apply codes_payload.
  - exact (codes_node x Hx).
  - exact stable_node.
  - exact (codes_processor x Hx).
  - exact stable_processor.
  - exact (codes_accelerator x Hx).
  - exact stable_accelerator.
  - exact (codes_memory_domain x Hx).
  - exact stable_memory_domain.
  - exact (codes_coherence_domain x Hx).
  - exact stable_coherence_domain.
  - exact (codes_region x Hx).
  - exact stable_region.
  - exact (codes_topology_link x Hx).
  - exact stable_topology_link.
  - exact (codes_capability x Hx).
  - exact stable_capability.
  - exact (codes_publisher_registration x Hx).
  - exact stable_publisher_registration.
  - exact (codes_counter_publication x Hx).
  - exact stable_counter_publication.
  - exact (codes_ack x Hx).
  - exact stable_ack.
Qed.

Lemma sample_observation_fits : observation_fits sample_observation.
Proof.
  unfold observation_fits, in_uint, in_i64, enum_fits, resource_fits, name_fits, option_fits.
  cbn. split_and!; try done; try (right; apply validate_identity_token_ok; by vm_compute);
    try (apply validate_identity_token_ok; by vm_compute); try lia.
  by repeat split; try constructor.
Qed.

Lemma observation_survives_wire_witness :
  content_hash (observation_wire_form sample_observation) = content_hash sample_observation.
Proof.
  exact (proj2 (proj2 (observation_survives_wire sample_observation sample_observation_fits
    ltac:(by vm_compute)))).
Defined.

Definition sample_node : NodeRecord.t := NodeRecord.mk "node0" "first node" (-1).

Lemma sample_node_fits : node_fits sample_node.
Proof.
  split_and!; [right; apply validate_identity_token_ok; by vm_compute|by vm_compute|].
  unfold in_i64. simpl. lia.
Qed.

Lemma records_survive_wire_witness : survives (write_node sample_node) read_node sample_node.
Proof. exact (proj1 records_survive_wire sample_node sample_node_fits). Defined.
