(* ===== verification/WireResults.v ===== *)
(** * Payloads of the query responses

    The writers and readers of [src/wire.cpp] for evidence references, cost
    estimates, generation bindings, findings and attribution results.  Lists
    that the writer caps arrive capped; the rest arrives unchanged. *)

From S2P Require Import Prelude Errors TextUtil Ids Taxonomy Float64 Policies Cost Records Observation.
From S2P Require Import Aggregate Sequence State Attribution Findings Publishers Codec Protocol Wire.

(** ** Enumerations *)

(** The enumerators by their value on the wire. *)
Definition by_index {E} (all : list E) (fallback : E) (n : Z) : E :=
  default fallback (all !! Z.to_nat n).

Definition cost_kinds : list CostKind.t :=
  [CostKind.Measured; CostKind.CounterDerived; CostKind.ModelEstimated; CostKind.Unknown].
Definition cost_kind_code (k : CostKind.t) : Z :=
  match k with
  | CostKind.Measured => 0 | CostKind.CounterDerived => 1 | CostKind.ModelEstimated => 2
  | CostKind.Unknown => 3
  end.
Definition cost_kind_of_code : Z → CostKind.t := by_index cost_kinds CostKind.Unknown.

Definition target_kinds : list AttributionTargetKind.t :=
  [AttributionTargetKind.Resource; AttributionTargetKind.MemoryDomain;
   AttributionTargetKind.CoherenceDomain; AttributionTargetKind.Region;
   AttributionTargetKind.Workload; AttributionTargetKind.Process;
   AttributionTargetKind.TopologyEdge; AttributionTargetKind.LocalityClass;
   AttributionTargetKind.EventClass].
Definition target_kind_code (k : AttributionTargetKind.t) : Z :=
  match k with
  | AttributionTargetKind.Resource => 0 | AttributionTargetKind.MemoryDomain => 1
  | AttributionTargetKind.CoherenceDomain => 2 | AttributionTargetKind.Region => 3
  | AttributionTargetKind.Workload => 4 | AttributionTargetKind.Process => 5
  | AttributionTargetKind.TopologyEdge => 6 | AttributionTargetKind.LocalityClass => 7
  | AttributionTargetKind.EventClass => 8
  end.
Definition target_kind_of_code : Z → AttributionTargetKind.t :=
  by_index target_kinds AttributionTargetKind.Resource.

Definition finding_kind_of_code : Z → FindingKind.t :=
  by_index FindingKind.all FindingKind.Hotspot.
Definition contention_of_code : Z → ContentionClass.t :=
  by_index ContentionClass.all ContentionClass.None.
Definition outcome_of_code : Z → AttributionOutcome.t :=
  by_index AttributionOutcome.all AttributionOutcome.Unattributed.

Lemma cost_kind_fits k : enum_fits cost_kind_code cost_kind_of_code 4 k.
Proof. by destruct k. Qed.
Lemma target_kind_fits k : enum_fits target_kind_code target_kind_of_code 9 k.
Proof. by destruct k. Qed.
Lemma finding_kind_fits k : enum_fits FindingKind.code finding_kind_of_code 12 k.
Proof. by destruct k. Qed.
Lemma contention_fits k : enum_fits ContentionClass.code contention_of_code 5 k.
Proof. by destruct k. Qed.
Lemma outcome_fits k : enum_fits AttributionOutcome.code outcome_of_code 7 k.
Proof. by destruct k. Qed.

(** Enumerations without out-of-range values need no premise. *)
#[export] Hint Extern 1 (codes _ (read_enum cost_kind_of_code _ _) _) =>
  apply codes_enum; [apply cost_kind_fits|by vm_compute] : codes.
#[export] Hint Extern 1 (codes _ (read_enum target_kind_of_code _ _) _) =>
  apply codes_enum; [apply target_kind_fits|by vm_compute] : codes.
#[export] Hint Extern 1 (codes _ (read_enum finding_kind_of_code _ _) _) =>
  apply codes_enum; [apply finding_kind_fits|by vm_compute] : codes.
#[export] Hint Extern 1 (codes _ (read_enum contention_of_code _ _) _) =>
  apply codes_enum; [apply contention_fits|by vm_compute] : codes.
#[export] Hint Extern 1 (codes _ (read_enum outcome_of_code _ _) _) =>
  apply codes_enum; [apply outcome_fits|by vm_compute] : codes.

(** ** Counted lists *)

(** The elements in order after their number; at most [bound] are read back. *)
Definition write_counted {A} (w : A → action PayloadWriter.t unit) (l : list A)
  : action PayloadWriter.t unit :=
  PayloadWriter.u32 (zlen l mod 2 ^ 32);; write_all w l.
Definition read_counted {A} (bound : Z) (e : Z → Error.t) (r : action PayloadReader.t A)
  : action PayloadReader.t (list A) :=
  count ← PayloadReader.u32;
  if count >? bound then lift (Err (e count)) else read_n (Z.to_nat count) r.

Lemma codes_counted {A} bound e (w : A → action _ unit) r l :
  bound < 2 ^ 32 → zlen l ≤ bound → Forall (λ a, codes (w a) r a) l →
  codes (write_counted w l) (read_counted bound e r) l.
Proof.
  intros Hb Hl Hw. unfold write_counted, read_counted. pose proof (zlen_nonneg l).
  rewrite Z.mod_small by lia.
  eapply codes_bind; [apply codes_u32; unfold in_uint; lia|].
  rewrite Z.gtb_ltb, (proj2 (Z.ltb_ge _ _)) by lia. unfold zlen. rewrite Nat2Z.id.
  rewrite <- (list_fmap_id l) at 3. by apply codes_all.
Qed.

Lemma stable_counted {A} bound e (r : action _ A) : stable r → stable (read_counted bound e r).
Proof.
  intros Hr. apply stable_bind; [apply stable_u32|]. intros n.
  apply stable_if; [apply stable_lift|by apply stable_read_n].
Qed.
#[export] Hint Resolve stable_counted : codec.

(** The part of a list a capped writer sends. *)
Definition capped {A} (bound : Z) (l : list A) : list A := take (Z.to_nat bound) l.

Lemma capped_length {A} bound (l : list A) : 0 ≤ bound → zlen (capped bound l) ≤ bound.
Proof. intros. unfold capped, zlen. rewrite length_take. lia. Qed.
Lemma capped_short {A} bound (l : list A) : zlen l ≤ bound → capped bound l = l.
Proof. intros. unfold capped, zlen in *. apply take_ge. lia. Qed.
Lemma Forall_capped {A} (P : A → Prop) bound l : Forall P l → Forall P (capped bound l).
Proof. apply Forall_take. Qed.

Definition write_string_list (values : list string) (max_count max_length : Z)
  : action PayloadWriter.t unit :=
  write_counted (λ v, PayloadWriter.text v max_length) (capped max_count values).
Definition read_string_list (max_count max_length : Z) : action PayloadReader.t (list string) :=
  read_counted max_count
    (λ n, Error.mk ErrorCode.TooMany "list count exceeds the bound" (format_u64 n))
    (PayloadReader.text max_length).

Definition strings_fit (max_length : Z) (l : list string) : Prop :=
  Forall (λ s, slen s ≤ max_length) l.

Lemma codes_string_list l max_count max_length :
  0 ≤ max_count < 2 ^ 32 → max_length < 2 ^ 32 → strings_fit max_length l →
  codes (write_string_list l max_count max_length) (read_string_list max_count max_length)
    (capped max_count l).
Proof.
  intros Hc Hm Hl. apply codes_counted; [lia|apply capped_length; lia|].
  apply Forall_capped. eapply Forall_impl; [exact Hl|]. intros s Hs. by apply codes_text.
Qed.
Lemma stable_string_list n m : stable (read_string_list n m).
Proof. apply stable_counted. eauto with codec. Qed.
#[export] Hint Resolve stable_string_list : codec.
#[export] Hint Extern 1 (codes (write_string_list _ _ _) _ _) =>
  apply codes_string_list; [by vm_compute|by vm_compute|assumption] : codes.

(** ** EvidenceRef *)

Definition write_evidence_ref (ref : EvidenceRef.t) : action PayloadWriter.t unit :=
  PayloadWriter.u64 (EvidenceRef.event_id ref);;
  unchecked (PayloadWriter.text (EvidenceRef.publisher ref) kMaxTextShort);;
  PayloadWriter.u64 (EvidenceRef.publisher_boot ref);;
  PayloadWriter.u64 (EvidenceRef.sequence ref);;
  PayloadWriter.u8 (EventType.code (EvidenceRef.event_type ref));;
  PayloadWriter.u8 (Precision.code (EvidenceRef.precision ref));;
  PayloadWriter.u8 (Provenance.code (EvidenceRef.provenance ref)).
Definition write_evidence (evidence : list EvidenceRef.t) : action PayloadWriter.t unit :=
  write_counted write_evidence_ref (capped Limits.kMaxEvidenceRefs evidence).

Definition read_evidence_ref : action PayloadReader.t EvidenceRef.t :=
  event_id ← PayloadReader.u64;
  publisher ← read_name_id;
  publisher_boot ← PayloadReader.u64;
  sequence ← PayloadReader.u64;
  event_type ← read_enum EventType.of_code kEventTypeCount "evidence event type";
  precision ← read_enum Precision.of_code 7 "evidence precision";
  provenance ← read_enum Provenance.of_code 10 "evidence provenance";
  mret (EvidenceRef.mk event_id publisher publisher_boot sequence event_type precision provenance).
Definition read_evidence : action PayloadReader.t (list EvidenceRef.t) :=
  read_counted Limits.kMaxEvidenceRefs
    (λ _, Error.mk ErrorCode.TooMany "evidence reference count exceeds the bound" "")
    read_evidence_ref.

Definition evidence_ref_fits (ref : EvidenceRef.t) : Prop :=
  in_uint 64 (EvidenceRef.event_id ref) ∧
  name_fits (EvidenceRef.publisher ref) ∧
  in_uint 64 (EvidenceRef.publisher_boot ref) ∧
  in_uint 64 (EvidenceRef.sequence ref) ∧
  enum_fits EventType.code EventType.of_code kEventTypeCount (EvidenceRef.event_type ref) ∧
  enum_fits Precision.code Precision.of_code 7 (EvidenceRef.precision ref) ∧
  enum_fits Provenance.code Provenance.of_code 10 (EvidenceRef.provenance ref).

Lemma codes_unchecked_name s :
  name_fits s → codes (unchecked (PayloadWriter.text s kMaxTextShort)) read_name_id s.
Proof. intros Hs. apply codes_unchecked. by apply codes_name_id. Qed.
#[export] Hint Resolve codes_unchecked_name : codes.

Lemma codes_evidence_ref ref :
  evidence_ref_fits ref → codes (write_evidence_ref ref) read_evidence_ref ref.
Proof.
  unfold write_evidence_ref, read_evidence_ref, evidence_ref_fits. destruct ref; solve_codes.
Qed.
Lemma stable_evidence_ref : stable read_evidence_ref.
Proof. unfold read_evidence_ref. solve_stable. Qed.

Lemma codes_evidence l :
  Forall evidence_ref_fits l →
  codes (write_evidence l) read_evidence (capped Limits.kMaxEvidenceRefs l).
Proof.
  intros Hl. apply codes_counted; [by vm_compute|by apply capped_length|].
  apply Forall_capped. eapply Forall_impl; [exact Hl|]. apply codes_evidence_ref.
Qed.
Lemma stable_evidence : stable read_evidence.
Proof. apply stable_counted, stable_evidence_ref. Qed.
#[export] Hint Resolve stable_evidence : codec.
#[export] Hint Extern 1 (codes (write_evidence _) _ _) =>
  apply codes_evidence; assumption : codes.

(** ** CostEstimate *)

Definition write_cost_term (term : CostTerm.t) : action PayloadWriter.t unit :=
  unchecked (PayloadWriter.text (CostTerm.name term) kMaxTextShort);;
  PayloadWriter.u8 (CostDimension.code (CostTerm.dimension term));;
  PayloadWriter.f64 (CostTerm.value term);;
  PayloadWriter.u8 (cost_kind_code (CostTerm.kind term));;
  PayloadWriter.f64 (CostTerm.coefficient term);;
  PayloadWriter.f64 (CostTerm.quantity term);;
  unchecked (PayloadWriter.text (CostTerm.unit_ term) 24).
Definition write_cost (cost : CostEstimate.t) : action PayloadWriter.t unit :=
  PayloadWriter.u8 (cost_kind_code (CostEstimate.kind cost));;
  PayloadWriter.f64 (CostEstimate.latency_ns cost);;
  PayloadWriter.u64 (CostEstimate.bytes cost);;
  PayloadWriter.f64 (CostEstimate.bandwidth_bytes_per_ns cost);;
  PayloadWriter.u64 (CostEstimate.remote_accesses cost);;
  PayloadWriter.u64 (CostEstimate.ownership_transfers cost);;
  PayloadWriter.u64 (CostEstimate.invalidations cost);;
  PayloadWriter.u64 (CostEstimate.retries cost);;
  PayloadWriter.u64 (CostEstimate.stall_cycles cost);;
  unchecked (PayloadWriter.text (CostEstimate.model_id cost) 96);;
  PayloadWriter.u32 (CostEstimate.model_version cost);;
  PayloadWriter.u8 (Precision.code (CostEstimate.precision cost));;
  PayloadWriter.u8_bool (CostEstimate.lower_bound cost);;
  write_counted write_cost_term (capped 32 (CostEstimate.terms cost)).

Definition read_cost_term : action PayloadReader.t CostTerm.t :=
  name ← PayloadReader.text kMaxTextShort;
  dimension ← read_enum CostDimension.of_code 14 "cost dimension";
  value ← PayloadReader.f64;
  kind ← read_enum cost_kind_of_code 4 "cost term kind";
  coefficient ← PayloadReader.f64;
  quantity ← PayloadReader.f64;
  unit_ ← PayloadReader.text 24;
  mret (CostTerm.mk name dimension value kind coefficient quantity unit_).
Definition read_cost : action PayloadReader.t CostEstimate.t :=
  kind ← read_enum cost_kind_of_code 4 "cost kind";
  latency_ns ← PayloadReader.f64;
  bytes ← PayloadReader.u64;
  bandwidth_bytes_per_ns ← PayloadReader.f64;
  remote_accesses ← PayloadReader.u64;
  ownership_transfers ← PayloadReader.u64;
  invalidations ← PayloadReader.u64;
  retries ← PayloadReader.u64;
  stall_cycles ← PayloadReader.u64;
  model_id ← PayloadReader.text 96;
  model_version ← PayloadReader.u32;
  precision ← read_enum Precision.of_code 7 "cost precision";
  lower_bound ← read_bool;
  terms ← read_counted 32
    (λ _, Error.mk ErrorCode.TooMany "cost term count exceeds the bound" "") read_cost_term;
  mret (CostEstimate.mk kind latency_ns bytes bandwidth_bytes_per_ns remote_accesses
    ownership_transfers invalidations retries stall_cycles terms model_id model_version precision
    lower_bound).

Definition cost_term_fits (term : CostTerm.t) : Prop :=
  slen (CostTerm.name term) ≤ kMaxTextShort ∧
  enum_fits CostDimension.code CostDimension.of_code 14 (CostTerm.dimension term) ∧
  valid_double (CostTerm.value term) = true ∧
  valid_double (CostTerm.coefficient term) = true ∧
  valid_double (CostTerm.quantity term) = true ∧
  slen (CostTerm.unit_ term) ≤ 24.
Definition cost_fits (cost : CostEstimate.t) : Prop :=
  valid_double (CostEstimate.latency_ns cost) = true ∧
  in_uint 64 (CostEstimate.bytes cost) ∧
  valid_double (CostEstimate.bandwidth_bytes_per_ns cost) = true ∧
  in_uint 64 (CostEstimate.remote_accesses cost) ∧
  in_uint 64 (CostEstimate.ownership_transfers cost) ∧
  in_uint 64 (CostEstimate.invalidations cost) ∧
  in_uint 64 (CostEstimate.retries cost) ∧
  in_uint 64 (CostEstimate.stall_cycles cost) ∧
  slen (CostEstimate.model_id cost) ≤ 96 ∧
  in_uint 32 (CostEstimate.model_version cost) ∧
  enum_fits Precision.code Precision.of_code 7 (CostEstimate.precision cost) ∧
  zlen (CostEstimate.terms cost) ≤ 32 ∧
  Forall cost_term_fits (CostEstimate.terms cost).

Lemma codes_unchecked_text s m :
  slen s ≤ m → m < 2 ^ 32 → codes (unchecked (PayloadWriter.text s m)) (PayloadReader.text m) s.
Proof. intros. by apply codes_unchecked, codes_text. Qed.
#[export] Hint Extern 1 (codes (unchecked (PayloadWriter.text _ _)) (PayloadReader.text _) _) =>
  apply codes_unchecked_text; [assumption|by vm_compute] : codes.

Lemma codes_cost_term term : cost_term_fits term → codes (write_cost_term term) read_cost_term term.
Proof. unfold write_cost_term, read_cost_term, cost_term_fits. destruct term; solve_codes. Qed.
Lemma stable_cost_term : stable read_cost_term.
Proof. unfold read_cost_term. solve_stable. Qed.
#[export] Hint Resolve stable_cost_term : codec.

Lemma codes_cost_terms l e :
  zlen l ≤ 32 → Forall cost_term_fits l →
  codes (write_counted write_cost_term (capped 32 l)) (read_counted 32 e read_cost_term) l.
Proof.
  intros Hn Hl. rewrite capped_short by done. apply codes_counted; [by vm_compute|done|].
  eapply Forall_impl; [exact Hl|]. apply codes_cost_term.
Qed.
#[export] Hint Resolve codes_cost_terms : codes.

Lemma codes_cost cost : cost_fits cost → codes (write_cost cost) read_cost cost.
Proof. unfold write_cost, read_cost, cost_fits. destruct cost; solve_codes. Qed.
Lemma stable_cost : stable read_cost.
Proof. unfold read_cost. solve_stable. Qed.
#[export] Hint Resolve stable_cost : codec.
#[export] Hint Resolve codes_cost : codes.

(** ** GenerationBindings *)

Definition write_bindings (b : GenerationBindings.t) : action PayloadWriter.t unit :=
  PayloadWriter.u64 (GenerationBindings.coordinator_epoch b);;
  PayloadWriter.u64 (GenerationBindings.observation_epoch b);;
  PayloadWriter.u64 (GenerationBindings.topology_generation b);;
  PayloadWriter.u64 (GenerationBindings.evidence_generation b);;
  PayloadWriter.u64 (GenerationBindings.source_device_generation b);;
  PayloadWriter.u64 (GenerationBindings.target_device_generation b);;
  PayloadWriter.u64 (GenerationBindings.region_generation b);;
  PayloadWriter.u8_bool (GenerationBindings.region_generation_bound b);;
  PayloadWriter.u64 (GenerationBindings.source_domain_generation b);;
  PayloadWriter.u64 (GenerationBindings.target_domain_generation b).

Definition read_bindings : action PayloadReader.t GenerationBindings.t :=
  coordinator ← PayloadReader.u64;
  observation ← PayloadReader.u64;
  topology ← PayloadReader.u64;
  evidence ← PayloadReader.u64;
  source_device ← PayloadReader.u64;
  target_device ← PayloadReader.u64;
  region ← PayloadReader.u64;
  region_bound ← read_bool;
  source_domain ← PayloadReader.u64;
  target_domain ← PayloadReader.u64;
  mret (GenerationBindings.mk coordinator observation topology evidence source_device
    target_device region region_bound source_domain target_domain).

Definition bindings_fit (b : GenerationBindings.t) : Prop :=
  in_uint 64 (GenerationBindings.coordinator_epoch b) ∧
  in_uint 64 (GenerationBindings.observation_epoch b) ∧
  in_uint 64 (GenerationBindings.topology_generation b) ∧
  in_uint 64 (GenerationBindings.evidence_generation b) ∧
  in_uint 64 (GenerationBindings.source_device_generation b) ∧
  in_uint 64 (GenerationBindings.target_device_generation b) ∧
  in_uint 64 (GenerationBindings.region_generation b) ∧
  in_uint 64 (GenerationBindings.source_domain_generation b) ∧
  in_uint 64 (GenerationBindings.target_domain_generation b).

Lemma codes_bindings b : bindings_fit b → codes (write_bindings b) read_bindings b.
Proof. unfold write_bindings, read_bindings, bindings_fit. destruct b; solve_codes. Qed.
Lemma stable_bindings : stable read_bindings.
Proof. unfold read_bindings. solve_stable. Qed.
#[export] Hint Resolve stable_bindings : codec.
#[export] Hint Resolve codes_bindings : codes.

(** ** Finding *)

Definition write_metric (m : FindingMetric.t) : action PayloadWriter.t unit :=
  PayloadWriter.text (FindingMetric.name m) kMaxTextShort;;
  PayloadWriter.f64 (FindingMetric.value m);;
  PayloadWriter.text (FindingMetric.unit_ m) 48;;
  PayloadWriter.f64 (FindingMetric.threshold m);;
  PayloadWriter.u8_bool (FindingMetric.has_threshold m);;
  PayloadWriter.u8_bool (FindingMetric.exceeded m).

Definition write_finding (f : Finding.t) : action PayloadWriter.t unit :=
  PayloadWriter.u64 (Finding.id f);;
  PayloadWriter.u8 (FindingKind.code (Finding.kind f));;
  PayloadWriter.text (Finding.subject_kind f) 32;;
  PayloadWriter.text (Finding.subject f) kMaxTextAnnotation;;
  write_string_list (Finding.reasons f) 32 kMaxTextShort;;
  write_string_list (Finding.missing_evidence f) 32 256;;
  write_string_list (Finding.ambiguity f) 32 256;;
  write_string_list (Finding.participants f) 32 kMaxTextShort;;
  write_counted write_metric (Finding.metrics f);;
  write_evidence (Finding.evidence f);;
  PayloadWriter.u8 (Precision.code (Finding.precision f));;
  PayloadWriter.u8 (Provenance.code (Finding.provenance f));;
  PayloadWriter.u8 (Reality.code (Finding.reality f));;
  write_bindings (Finding.bindings f);;
  write_cost (Finding.cost f);;
  PayloadWriter.u64 (Finding.alternations f);;
  PayloadWriter.text (Finding.direction_sequence f) 192;;
  PayloadWriter.u8 (ContentionClass.code (Finding.contention f));;
  PayloadWriter.u8 (EvidenceGranularity.code (Finding.granularity f));;
  PayloadWriter.u8 (Locality.code (Finding.locality f));;
  PayloadWriter.u8_bool (Finding.locality_established f);;
  PayloadWriter.u8_bool (Finding.historical f).

Definition read_metric : action PayloadReader.t FindingMetric.t :=
  name ← PayloadReader.text kMaxTextShort;
  value ← PayloadReader.f64;
  unit_ ← PayloadReader.text 48;
  threshold ← PayloadReader.f64;
  has_threshold ← read_bool;
  exceeded ← read_bool;
  mret (FindingMetric.mk name value unit_ threshold has_threshold exceeded).

Definition read_finding : action PayloadReader.t Finding.t :=
  id ← PayloadReader.u64;
  kind ← read_enum finding_kind_of_code 12 "finding kind";
  subject_kind ← PayloadReader.text 32;
  subject ← PayloadReader.text kMaxTextAnnotation;
  reasons ← read_string_list 32 kMaxTextShort;
  missing_evidence ← read_string_list 32 256;
  ambiguity ← read_string_list 32 256;
  participants ← read_string_list 32 kMaxTextShort;
  metrics ← read_counted 128
    (λ _, Error.mk ErrorCode.TooMany "finding metric count exceeds the bound" "") read_metric;
  evidence ← read_evidence;
  precision ← read_enum Precision.of_code 7 "finding precision";
  provenance ← read_enum Provenance.of_code 10 "finding provenance";
  reality ← read_enum Reality.of_code 3 "finding reality";
  bindings ← read_bindings;
  cost ← read_cost;
  alternations ← PayloadReader.u64;
  direction_sequence ← PayloadReader.text 192;
  contention ← read_enum contention_of_code 5 "contention class";
  granularity ← read_enum EvidenceGranularity.of_code 7 "finding granularity";
  locality ← read_enum Locality.of_code kLocalityCount "finding locality";
  locality_established ← read_bool;
  historical ← read_bool;
  mret (Finding.mk id kind subject_kind subject reasons metrics evidence missing_evidence
    ambiguity precision provenance reality bindings cost participants alternations
    direction_sequence contention granularity locality locality_established historical).

Definition metric_fits (m : FindingMetric.t) : Prop :=
  slen (FindingMetric.name m) ≤ kMaxTextShort ∧
  valid_double (FindingMetric.value m) = true ∧
  slen (FindingMetric.unit_ m) ≤ 48 ∧
  valid_double (FindingMetric.threshold m) = true.

Definition finding_fits (f : Finding.t) : Prop :=
  in_uint 64 (Finding.id f) ∧
  slen (Finding.subject_kind f) ≤ 32 ∧
  slen (Finding.subject f) ≤ kMaxTextAnnotation ∧
  strings_fit kMaxTextShort (Finding.reasons f) ∧
  strings_fit 256 (Finding.missing_evidence f) ∧
  strings_fit 256 (Finding.ambiguity f) ∧
  strings_fit kMaxTextShort (Finding.participants f) ∧
  zlen (Finding.metrics f) ≤ 128 ∧
  Forall metric_fits (Finding.metrics f) ∧
  Forall evidence_ref_fits (Finding.evidence f) ∧
  enum_fits Precision.code Precision.of_code 7 (Finding.precision f) ∧
  enum_fits Provenance.code Provenance.of_code 10 (Finding.provenance f) ∧
  enum_fits Reality.code Reality.of_code 3 (Finding.reality f) ∧
  bindings_fit (Finding.bindings f) ∧
  cost_fits (Finding.cost f) ∧
  in_uint 64 (Finding.alternations f) ∧
  slen (Finding.direction_sequence f) ≤ 192 ∧
  enum_fits EvidenceGranularity.code EvidenceGranularity.of_code 7 (Finding.granularity f) ∧
  enum_fits Locality.code Locality.of_code kLocalityCount (Finding.locality f).

(** What arrives: the capped lists, everything else as it was. *)
Definition finding_wire_form (f : Finding.t) : Finding.t :=
  f <| Finding.reasons ::= capped 32 |>
    <| Finding.missing_evidence ::= capped 32 |>
    <| Finding.ambiguity ::= capped 32 |>
    <| Finding.participants ::= capped 32 |>
    <| Finding.evidence ::= capped Limits.kMaxEvidenceRefs |>.

Lemma codes_metric m : metric_fits m → codes (write_metric m) read_metric m.
Proof. unfold write_metric, read_metric, metric_fits. destruct m; solve_codes. Qed.
Lemma stable_metric : stable read_metric.
Proof. unfold read_metric. solve_stable. Qed.
#[export] Hint Resolve stable_metric : codec.

Lemma codes_metrics l e :
  zlen l ≤ 128 → Forall metric_fits l →
  codes (write_counted write_metric l) (read_counted 128 e read_metric) l.
Proof.
  intros Hn Hl. apply codes_counted; [by vm_compute|done|].
  eapply Forall_impl; [exact Hl|]. apply codes_metric.
Qed.
#[export] Hint Resolve codes_metrics : codes.

Lemma codes_finding f :
  finding_fits f → codes (write_finding f) read_finding (finding_wire_form f).
Proof.
  unfold write_finding, read_finding, finding_fits, finding_wire_form.
  destruct f; solve_codes.
Qed.
Lemma stable_finding : stable read_finding.
Proof. unfold read_finding. solve_stable. Qed.

(** ** AttributionResult *)

Definition write_target (t : AttributionTarget.t) : action PayloadWriter.t unit :=
  PayloadWriter.u8 (target_kind_code (AttributionTarget.kind t));;
  PayloadWriter.text (AttributionTarget.value t) kMaxTextAnnotation;;
  PayloadWriter.u64 (AttributionTarget.generation t).

Definition write_attribution (a : AttributionResult.t) : action PayloadWriter.t unit :=
  PayloadWriter.u64 (AttributionResult.id a);;
  PayloadWriter.u8 (AttributionOutcome.code (AttributionResult.outcome a));;
  PayloadWriter.u8 (EventType.code (AttributionResult.event_type a));;
  write_name_id (AttributionResult.region a);;
  PayloadWriter.u64 (AttributionResult.region_generation a);;
  write_string_list (AttributionResult.reasons a) 32 kMaxTextShort;;
  write_string_list (AttributionResult.candidates a) 32 kMaxTextAnnotation;;
  write_counted write_target (AttributionResult.targets a);;
  write_evidence (AttributionResult.evidence a);;
  PayloadWriter.u8 (Precision.code (AttributionResult.precision a));;
  PayloadWriter.u8 (Provenance.code (AttributionResult.provenance a));;
  PayloadWriter.u8 (Reality.code (AttributionResult.reality a));;
  write_bindings (AttributionResult.bindings a);;
  PayloadWriter.u64 (AttributionResult.candidate_count a);;
  write_cost (AttributionResult.cost a);;
  PayloadWriter.u8 (Locality.code (AttributionResult.locality a));;
  PayloadWriter.u8_bool (AttributionResult.locality_established a).

Definition read_target : action PayloadReader.t AttributionTarget.t :=
  kind ← read_enum target_kind_of_code 9 "attribution target kind";
  value ← PayloadReader.text kMaxTextAnnotation;
  generation ← PayloadReader.u64;
  mret (AttributionTarget.mk kind value generation).

Definition read_attribution : action PayloadReader.t AttributionResult.t :=
  id ← PayloadReader.u64;
  outcome ← read_enum outcome_of_code 7 "attribution outcome";
  event_type ← read_enum EventType.of_code kEventTypeCount "attribution event type";
  region ← read_name_id;
  region_generation ← PayloadReader.u64;
  reasons ← read_string_list 32 kMaxTextShort;
  candidates ← read_string_list 32 kMaxTextAnnotation;
  targets ← read_counted Limits.kMaxAttributionTargets
    (λ _, Error.mk ErrorCode.TooMany "attribution target count" "") read_target;
  evidence ← read_evidence;
  precision ← read_enum Precision.of_code 7 "attribution precision";
  provenance ← read_enum Provenance.of_code 10 "attribution provenance";
  reality ← read_enum Reality.of_code 3 "attribution reality";
  bindings ← read_bindings;
  candidate_count ← PayloadReader.u64;
  cost ← read_cost;
  locality ← read_enum Locality.of_code kLocalityCount "attribution locality";
  locality_established ← read_bool;
  mret (AttributionResult.mk id outcome event_type region region_generation reasons targets
    evidence precision provenance reality bindings candidate_count candidates cost locality
    locality_established).

Definition target_fits (t : AttributionTarget.t) : Prop :=
  slen (AttributionTarget.value t) ≤ kMaxTextAnnotation ∧
  in_uint 64 (AttributionTarget.generation t).

Definition attribution_fits (a : AttributionResult.t) : Prop :=
  in_uint 64 (AttributionResult.id a) ∧
  enum_fits EventType.code EventType.of_code kEventTypeCount (AttributionResult.event_type a) ∧
  name_fits (AttributionResult.region a) ∧
  in_uint 64 (AttributionResult.region_generation a) ∧
  strings_fit kMaxTextShort (AttributionResult.reasons a) ∧
  strings_fit kMaxTextAnnotation (AttributionResult.candidates a) ∧
  zlen (AttributionResult.targets a) ≤ Limits.kMaxAttributionTargets ∧
  Forall target_fits (AttributionResult.targets a) ∧
  Forall evidence_ref_fits (AttributionResult.evidence a) ∧
  enum_fits Precision.code Precision.of_code 7 (AttributionResult.precision a) ∧
  enum_fits Provenance.code Provenance.of_code 10 (AttributionResult.provenance a) ∧
  enum_fits Reality.code Reality.of_code 3 (AttributionResult.reality a) ∧
  bindings_fit (AttributionResult.bindings a) ∧
  in_uint 64 (AttributionResult.candidate_count a) ∧
  cost_fits (AttributionResult.cost a) ∧
  enum_fits Locality.code Locality.of_code kLocalityCount (AttributionResult.locality a).

Definition attribution_wire_form (a : AttributionResult.t) : AttributionResult.t :=
  a <| AttributionResult.reasons ::= capped 32 |>
    <| AttributionResult.candidates ::= capped 32 |>
    <| AttributionResult.evidence ::= capped Limits.kMaxEvidenceRefs |>.

Lemma codes_target t : target_fits t → codes (write_target t) read_target t.
Proof. unfold write_target, read_target, target_fits. destruct t; solve_codes. Qed.
Lemma stable_target : stable read_target.
Proof. unfold read_target. solve_stable. Qed.
#[export] Hint Resolve stable_target : codec.

Lemma codes_targets l e :
  zlen l ≤ Limits.kMaxAttributionTargets → Forall target_fits l →
  codes (write_counted write_target l) (read_counted Limits.kMaxAttributionTargets e read_target) l.
Proof.
  intros Hn Hl. apply codes_counted; [by vm_compute|done|].
  eapply Forall_impl; [exact Hl|]. apply codes_target.
Qed.
#[export] Hint Resolve codes_targets : codes.

Lemma codes_attribution a :
  attribution_fits a → codes (write_attribution a) read_attribution (attribution_wire_form a).
Proof.
  unfold write_attribution, read_attribution, attribution_fits, attribution_wire_form.
  destruct a; solve_codes.
Qed.
Lemma stable_attribution : stable read_attribution.
Proof. unfold read_attribution. solve_stable. Qed.

(** ** Claims *)

(** Query results arrive as they were sent: a finding or attribution
    result whose fields are within the bounds of the format is read back equal,
    its capped lists cut to their caps; a payload that was cut short is refused
    as truncated. *)
Theorem results_survive_wire :
  (∀ f, finding_fits f → survives (write_finding f) read_finding (finding_wire_form f)) ∧
  (∀ a, attribution_fits a →
     survives (write_attribution a) read_attribution (attribution_wire_form a)).
Proof.
  split; intros x Hx; apply codes_payload.
  - exact (codes_finding x Hx).
  - exact stable_finding.
  - exact (codes_attribution x Hx).
  - exact stable_attribution.
Qed.

(** *** Writers that refuse *)

(** The writer fails whatever was written before. *)
Definition refuses (w : action PayloadWriter.t unit) : Prop :=
  ∀ d, ∃ e d', w d = (Err e, d').

Lemma refuses_bind_l w (k : unit → action PayloadWriter.t unit) : refuses w → refuses (w ≫= k).
Proof.
  intros Hw d. destruct (Hw d) as (e & d' & E). exists e, d'.
  unfold mbind, action_bind. by rewrite E.
Qed.

Lemma refuses_bind_r w (k : unit → action PayloadWriter.t unit) :
  (∀ x, refuses (k x)) → refuses (w ≫= k).
Proof.
  intros Hk d. unfold mbind, action_bind. destruct (w d) as [[x|e] d']; [apply Hk|by eexists _, _].
Qed.

Lemma refuses_all {A} (w : A → action PayloadWriter.t unit) l a :
  a ∈ l → refuses (w a) → refuses (write_all w l).
Proof.
  induction l as [|b l IH]; [by intros ?%not_elem_of_nil|].
  intros [->|Ha]%elem_of_cons Hw; simpl; [by apply refuses_bind_l|].
  apply refuses_bind_r. intros _. by apply IH.
Qed.

Lemma refuses_text s m : m < slen s → refuses (PayloadWriter.text s m).
Proof.
  intros H d. unfold PayloadWriter.text. rewrite Z.gtb_ltb, (proj2 (Z.ltb_lt _ _) H). by eexists _, _.
Qed.

(** A finding with an over-long metric unit cannot be sent. *)
Lemma long_unit_refused f m :
  m ∈ Finding.metrics f → 48 < slen (FindingMetric.unit_ m) → refuses (write_finding f).
Proof.
  intros Hm Hu. unfold write_finding.
  do 8 (apply refuses_bind_r; intros _). apply refuses_bind_l.
  unfold write_counted. apply refuses_bind_r. intros _.
  eapply refuses_all; [exact Hm|]. unfold write_metric.
  do 2 (apply refuses_bind_r; intros _). apply refuses_bind_l. by apply refuses_text.
Qed.
