(* ===== verification/WireSnapshot.v ===== *)
(** * The snapshot payload

    [write_snapshot] and [read_snapshot] of [src/wire.cpp], with
    [SnapshotAssembler::assign] of [src/state.cpp].  A remote snapshot carries
    the registries, at most 2048 aggregate buckets, the findings, the stale
    evidence and the loss report; history arrives as counts, and nodes, links
    and the cost model stay on the coordinator. *)

From S2P Require Import Prelude Errors TextUtil Ids Taxonomy Float64 Policies Cost Records Observation.
From S2P Require Import Aggregate Sequence State Attribution Findings Publishers Snapshot.
From S2P Require Import Codec Protocol Wire WireResults.

Definition kMaxWireAggregateBuckets : Z := 2048.

(** ** Enumerations *)

Definition fence_reasons : list FenceReason.t :=
  [FenceReason.NotFenced; FenceReason.ConnectionClosed; FenceReason.Administrative;
   FenceReason.LivenessDeadline; FenceReason.CoordinatorRestart; FenceReason.SupersededByNewBoot].
Definition fence_reason_code (r : FenceReason.t) : Z :=
  match r with
  | FenceReason.NotFenced => 0 | FenceReason.ConnectionClosed => 1
  | FenceReason.Administrative => 2 | FenceReason.LivenessDeadline => 3
  | FenceReason.CoordinatorRestart => 4 | FenceReason.SupersededByNewBoot => 5
  end.
Definition fence_reason_of_code : Z → FenceReason.t := by_index fence_reasons FenceReason.NotFenced.

Definition stale_kinds : list StaleEvidenceRecord.Kind :=
  [StaleEvidenceRecord.StaleGeneration; StaleEvidenceRecord.RetiredRegion;
   StaleEvidenceRecord.TopologySuperseded; StaleEvidenceRecord.StaleBoot;
   StaleEvidenceRecord.StaleEpoch; StaleEvidenceRecord.StaleSequence;
   StaleEvidenceRecord.FencedPublisher].
Definition stale_kind_of_code : Z → StaleEvidenceRecord.Kind :=
  by_index stale_kinds StaleEvidenceRecord.StaleGeneration.
Definition dimension_of_code : Z → AggregateDimension.t :=
  by_index AggregateDimension.all AggregateDimension.kCount.

Lemma fence_reason_fits r : enum_fits fence_reason_code fence_reason_of_code 6 r.
Proof. by destruct r. Qed.
Lemma stale_kind_fits k : enum_fits StaleEvidenceRecord.kind_code stale_kind_of_code 7 k.
Proof. by destruct k. Qed.
#[export] Hint Extern 1 (codes _ (read_enum fence_reason_of_code _ _) _) =>
  apply codes_enum; [apply fence_reason_fits|by vm_compute] : codes.
#[export] Hint Extern 1 (codes _ (read_enum stale_kind_of_code _ _) _) =>
  apply codes_enum; [apply stale_kind_fits|by vm_compute] : codes.

(** The error of a count above its bound. *)
Definition too_many (what : string) (_ : Z) : Error.t := Error.mk ErrorCode.TooMany what "".

(** ** PublisherView *)

Definition write_sequences (s : SequenceState.t) : action PayloadWriter.t unit :=
  PayloadWriter.u64 (SequenceState.high_watermark s);;
  PayloadWriter.u64 (SequenceState.next_expected s);;
  PayloadWriter.u64 (SequenceState.accepted s);;
  PayloadWriter.u64 (SequenceState.duplicates s);;
  PayloadWriter.u64 (SequenceState.conflicting_duplicates s);;
  PayloadWriter.u64 (SequenceState.late_events s);;
  PayloadWriter.u64 (SequenceState.missing_events s);;
  PayloadWriter.u64 (SequenceState.rejected_stale s);;
  PayloadWriter.u64 (SequenceState.counter_resets s);;
  PayloadWriter.u64 (SequenceState.counter_wraps s);;
  PayloadWriter.u64 (SequenceState.sequence_gaps s).

Definition write_publisher_view (p : PublisherView.t) : action PayloadWriter.t unit :=
  write_name_id (PublisherView.id p);;
  PayloadWriter.u64 (PublisherView.boot p);;
  write_name_id (PublisherView.observer p);;
  write_name_id (PublisherView.node p);;
  PayloadWriter.text (PublisherView.display_name p) kMaxTextAnnotation;;
  PayloadWriter.u8 (Provenance.code (PublisherView.provenance p));;
  PayloadWriter.u8 (Reality.code (PublisherView.reality p));;
  PayloadWriter.u64 (PublisherView.registered_epoch p);;
  PayloadWriter.u64 (PublisherView.evidence_generation p);;
  PayloadWriter.u64 (PublisherView.sampling_epoch p);;
  PayloadWriter.i64 (PublisherView.registered_at_ns p);;
  PayloadWriter.i64 (PublisherView.last_seen_ns p);;
  PayloadWriter.u8_bool (PublisherView.current p);;
  PayloadWriter.u8_bool (PublisherView.fenced p);;
  PayloadWriter.u8 (fence_reason_code (PublisherView.fence_reason p));;
  PayloadWriter.text (PublisherView.fence_detail p) kMaxTextAnnotation;;
  PayloadWriter.u8_bool (PublisherView.loaded_from_state p);;
  write_sequences (PublisherView.sequences p);;
  PayloadWriter.u64 (PublisherView.accepted_events p);;
  PayloadWriter.u64 (PublisherView.accepted_batches p);;
  PayloadWriter.u64 (PublisherView.accepted_counters p);;
  PayloadWriter.u64 (PublisherView.rejected_events p).

Definition read_sequences : action PayloadReader.t SequenceState.t :=
  high_watermark ← PayloadReader.u64;
  next_expected ← PayloadReader.u64;
  accepted ← PayloadReader.u64;
  duplicates ← PayloadReader.u64;
  conflicting_duplicates ← PayloadReader.u64;
  late_events ← PayloadReader.u64;
  missing_events ← PayloadReader.u64;
  rejected_stale ← PayloadReader.u64;
  counter_resets ← PayloadReader.u64;
  counter_wraps ← PayloadReader.u64;
  sequence_gaps ← PayloadReader.u64;
  mret (SequenceState.mk high_watermark next_expected accepted duplicates conflicting_duplicates
    late_events missing_events rejected_stale counter_resets counter_wraps sequence_gaps).

Definition read_publisher_view : action PayloadReader.t PublisherView.t :=
  id ← read_name_id;
  boot ← PayloadReader.u64;
  observer ← read_name_id;
  node ← read_name_id;
  display_name ← PayloadReader.text kMaxTextAnnotation;
  provenance ← read_enum Provenance.of_code 10 "publisher provenance";
  reality ← read_enum Reality.of_code 3 "publisher reality";
  registered_epoch ← PayloadReader.u64;
  evidence ← PayloadReader.u64;
  sampling ← PayloadReader.u64;
  registered_at ← PayloadReader.i64;
  last_seen ← PayloadReader.i64;
  current ← read_bool;
  fenced ← read_bool;
  fence_reason ← read_enum fence_reason_of_code 6 "fence reason";
  fence_detail ← PayloadReader.text kMaxTextAnnotation;
  loaded ← read_bool;
  sequences ← read_sequences;
  accepted_events ← PayloadReader.u64;
  accepted_batches ← PayloadReader.u64;
  accepted_counters ← PayloadReader.u64;
  rejected_events ← PayloadReader.u64;
  mret (PublisherView.mk id boot observer node display_name provenance reality registered_epoch
    evidence sampling registered_at last_seen current fenced fence_reason fence_detail loaded
    sequences accepted_events accepted_batches accepted_counters rejected_events).

Definition sequences_fit (s : SequenceState.t) : Prop :=
  in_uint 64 (SequenceState.high_watermark s) ∧
  in_uint 64 (SequenceState.next_expected s) ∧
  in_uint 64 (SequenceState.accepted s) ∧
  in_uint 64 (SequenceState.duplicates s) ∧
  in_uint 64 (SequenceState.conflicting_duplicates s) ∧
  in_uint 64 (SequenceState.late_events s) ∧
  in_uint 64 (SequenceState.missing_events s) ∧
  in_uint 64 (SequenceState.rejected_stale s) ∧
  in_uint 64 (SequenceState.counter_resets s) ∧
  in_uint 64 (SequenceState.counter_wraps s) ∧
  in_uint 64 (SequenceState.sequence_gaps s).

Definition publisher_view_fits (p : PublisherView.t) : Prop :=
  name_fits (PublisherView.id p) ∧
  in_uint 64 (PublisherView.boot p) ∧
  name_fits (PublisherView.observer p) ∧
  name_fits (PublisherView.node p) ∧
  slen (PublisherView.display_name p) ≤ kMaxTextAnnotation ∧
  enum_fits Provenance.code Provenance.of_code 10 (PublisherView.provenance p) ∧
  enum_fits Reality.code Reality.of_code 3 (PublisherView.reality p) ∧
  in_uint 64 (PublisherView.registered_epoch p) ∧
  in_uint 64 (PublisherView.evidence_generation p) ∧
  in_uint 64 (PublisherView.sampling_epoch p) ∧
  in_i64 (PublisherView.registered_at_ns p) ∧
  in_i64 (PublisherView.last_seen_ns p) ∧
  slen (PublisherView.fence_detail p) ≤ kMaxTextAnnotation ∧
  sequences_fit (PublisherView.sequences p) ∧
  in_uint 64 (PublisherView.accepted_events p) ∧
  in_uint 64 (PublisherView.accepted_batches p) ∧
  in_uint 64 (PublisherView.accepted_counters p) ∧
  in_uint 64 (PublisherView.rejected_events p).

Lemma codes_sequences s : sequences_fit s → codes (write_sequences s) read_sequences s.
Proof. unfold write_sequences, read_sequences, sequences_fit. destruct s; solve_codes. Qed.
Lemma stable_sequences : stable read_sequences.
Proof. unfold read_sequences. solve_stable. Qed.
#[export] Hint Resolve codes_sequences : codes.
#[export] Hint Resolve stable_sequences : codec.

Lemma codes_publisher_view p :
  publisher_view_fits p → codes (write_publisher_view p) read_publisher_view p.
Proof.
  unfold write_publisher_view, read_publisher_view, publisher_view_fits. destruct p; solve_codes.
Qed.
Lemma stable_publisher_view : stable read_publisher_view.
Proof. unfold read_publisher_view. solve_stable. Qed.

(** ** Aggregate buckets *)

Definition write_counts (l : list Z) : action PayloadWriter.t unit := write_all PayloadWriter.u64 l.

Definition read_counts (n : nat) : action PayloadReader.t (list Z) := read_n n PayloadReader.u64.
#[global] Arguments read_counts : simpl never.

Definition write_bucket (e : AggregateKey.t * AggregateValue.t) : action PayloadWriter.t unit :=
  let v := e.2 in
  PayloadWriter.u8 (AggregateDimension.code (AggregateKey.dimension e.1));;
  PayloadWriter.text (AggregateKey.value e.1) kMaxTextAnnotation;;
  PayloadWriter.u64 (AggregateValue.observations v);;
  PayloadWriter.u64 (AggregateValue.bytes v);;
  PayloadWriter.u64 (AggregateValue.remote_accesses v);;
  PayloadWriter.u64 (AggregateValue.remote_reads v);;
  PayloadWriter.u64 (AggregateValue.remote_writes v);;
  PayloadWriter.u64 (AggregateValue.invalidations v);;
  PayloadWriter.u64 (AggregateValue.ownership_transfers v);;
  PayloadWriter.u64 (AggregateValue.retries v);;
  PayloadWriter.u64 (AggregateValue.conflicts v);;
  PayloadWriter.u64 (AggregateValue.writebacks v);;
  PayloadWriter.i64 (AggregateValue.first_timestamp_ns v);;
  PayloadWriter.i64 (AggregateValue.last_timestamp_ns v);;
  PayloadWriter.u8_bool (AggregateValue.has_timestamps v);;
  PayloadWriter.u8_bool (AggregateValue.saturated v);;
  PayloadWriter.u8 (Precision.code (AggregateValue.weakest_precision v));;
  PayloadWriter.u8 (Reality.code (AggregateValue.reality v));;
  write_counts (AggregateValue.precision_counts v);;
  write_counts (AggregateValue.provenance_counts v).

Definition read_bucket : action PayloadReader.t (AggregateKey.t * AggregateValue.t) :=
  dimension ← read_enum dimension_of_code kAggregateDimensionCount "aggregate dimension";
  value ← PayloadReader.text kMaxTextAnnotation;
  observations ← PayloadReader.u64;
  bytes ← PayloadReader.u64;
  remote_accesses ← PayloadReader.u64;
  remote_reads ← PayloadReader.u64;
  remote_writes ← PayloadReader.u64;
  invalidations ← PayloadReader.u64;
  ownership_transfers ← PayloadReader.u64;
  retries ← PayloadReader.u64;
  conflicts ← PayloadReader.u64;
  writebacks ← PayloadReader.u64;
  first_timestamp_ns ← PayloadReader.i64;
  last_timestamp_ns ← PayloadReader.i64;
  has_timestamps ← read_bool;
  saturated ← read_bool;
  precision ← read_enum Precision.of_code 7 "aggregate precision";
  reality ← read_enum Reality.of_code 3 "aggregate reality";
  precision_counts ← read_counts 7;
  provenance_counts ← read_counts 10;
  mret (AggregateKey.mk dimension value,
    AggregateValue.mk observations bytes 0 0 0 remote_accesses remote_reads remote_writes
      ownership_transfers invalidations retries conflicts writebacks 0 first_timestamp_ns
      last_timestamp_ns has_timestamps precision_counts provenance_counts saturated
      (bool_decide (reality = Reality.Synthetic)) (bool_decide (reality = Reality.Mixed)) precision
      (negb (observations =? 0))).

(** What arrives of a bucket: four of its totals are not in the format. *)
Definition bucket_wire_form (v : AggregateValue.t) : AggregateValue.t :=
  v <| AggregateValue.lines := 0 |> <| AggregateValue.pages := 0 |>
    <| AggregateValue.regions_touched := 0 |> <| AggregateValue.counter_delta_total := 0 |>
    <| AggregateValue.synthetic_contribution :=
         bool_decide (AggregateValue.reality v = Reality.Synthetic) |>
    <| AggregateValue.mixed_contribution := bool_decide (AggregateValue.reality v = Reality.Mixed) |>
    <| AggregateValue.has_observations := negb (AggregateValue.observations v =? 0) |>.

Definition bucket_fits (e : AggregateKey.t * AggregateValue.t) : Prop :=
  let v := e.2 in
  enum_fits AggregateDimension.code dimension_of_code kAggregateDimensionCount
    (AggregateKey.dimension e.1) ∧
  slen (AggregateKey.value e.1) ≤ kMaxTextAnnotation ∧
  in_uint 64 (AggregateValue.observations v) ∧
  in_uint 64 (AggregateValue.bytes v) ∧
  in_uint 64 (AggregateValue.remote_accesses v) ∧
  in_uint 64 (AggregateValue.remote_reads v) ∧
  in_uint 64 (AggregateValue.remote_writes v) ∧
  in_uint 64 (AggregateValue.invalidations v) ∧
  in_uint 64 (AggregateValue.ownership_transfers v) ∧
  in_uint 64 (AggregateValue.retries v) ∧
  in_uint 64 (AggregateValue.conflicts v) ∧
  in_uint 64 (AggregateValue.writebacks v) ∧
  in_i64 (AggregateValue.first_timestamp_ns v) ∧
  in_i64 (AggregateValue.last_timestamp_ns v) ∧
  enum_fits Precision.code Precision.of_code 7 (AggregateValue.weakest_precision v) ∧
  length (AggregateValue.precision_counts v) = 7%nat ∧
  Forall (in_uint 64) (AggregateValue.precision_counts v) ∧
  length (AggregateValue.provenance_counts v) = 10%nat ∧
  Forall (in_uint 64) (AggregateValue.provenance_counts v).

Lemma codes_counts n l :
  length l = n → Forall (in_uint 64) l → codes (write_counts l) (read_counts n) l.
Proof.
  intros <- Hl. unfold write_counts, read_counts. rewrite <- (list_fmap_id l) at 3. apply codes_all.
  eapply Forall_impl; [exact Hl|]. intros x Hx. by apply codes_u64.
Qed.
Lemma stable_counts n : stable (read_counts n).
Proof. apply stable_read_n. eauto with codec. Qed.
#[export] Hint Resolve stable_counts : codec.
Lemma codes_reality v :
  codes (PayloadWriter.u8 (Reality.code (AggregateValue.reality v)))
    (read_enum Reality.of_code 3 "aggregate reality") (AggregateValue.reality v).
Proof.
  apply codes_enum; [|by vm_compute]. unfold AggregateValue.reality.
  by destruct (AggregateValue.mixed_contribution v), (AggregateValue.synthetic_contribution v).
Qed.
#[export] Hint Resolve codes_counts codes_reality : codes.

Lemma codes_bucket e :
  bucket_fits e → codes (write_bucket e) read_bucket (e.1, bucket_wire_form e.2).
Proof.
  unfold write_bucket, read_bucket, bucket_fits, bucket_wire_form. destruct e as [[d k] v].
  set (r := AggregateValue.reality v). assert (codes (PayloadWriter.u8 (Reality.code r))
    (read_enum Reality.of_code 3 "aggregate reality") r) by apply codes_reality. clearbody r.
  destruct v; solve_codes.
Qed.
Lemma stable_bucket : stable read_bucket.
Proof. unfold read_bucket. solve_stable. Qed.
#[export] Hint Resolve stable_bucket : codec.

(** A bucket's reality is what arrives of its contributions. *)
Lemma bucket_wire_reality v : AggregateValue.reality (bucket_wire_form v) = AggregateValue.reality v.
Proof.
  change (AggregateValue.reality (bucket_wire_form v)) with
    (if bool_decide (AggregateValue.reality v = Reality.Mixed) then Reality.Mixed
     else if bool_decide (AggregateValue.reality v = Reality.Synthetic) then Reality.Synthetic
     else Reality.Real).
  unfold AggregateValue.reality.
  by destruct (AggregateValue.mixed_contribution v), (AggregateValue.synthetic_contribution v).
Qed.

(** ** Stale evidence and losses *)

Definition write_stale (r : StaleEvidenceRecord.t) : action PayloadWriter.t unit :=
  PayloadWriter.u8 (StaleEvidenceRecord.kind_code (StaleEvidenceRecord.kind r));;
  PayloadWriter.u64 (StaleEvidenceRecord.event_id r);;
  write_name_id (StaleEvidenceRecord.publisher r);;
  PayloadWriter.u64 (StaleEvidenceRecord.publisher_boot r);;
  write_name_id (StaleEvidenceRecord.region r);;
  PayloadWriter.u8 (EventType.code (StaleEvidenceRecord.event_type r));;
  PayloadWriter.i64 (StaleEvidenceRecord.observed_at_ns r);;
  PayloadWriter.text (StaleEvidenceRecord.detail r) 256.

Definition read_stale : action PayloadReader.t StaleEvidenceRecord.t :=
  kind ← read_enum stale_kind_of_code 7 "stale evidence kind";
  event_id ← PayloadReader.u64;
  publisher ← read_name_id;
  boot ← PayloadReader.u64;
  region ← read_name_id;
  event_type ← read_enum EventType.of_code kEventTypeCount "stale event type";
  observed_at ← PayloadReader.i64;
  detail ← PayloadReader.text 256;
  mret (StaleEvidenceRecord.mk kind event_id publisher boot region event_type observed_at detail).

Definition stale_fits (r : StaleEvidenceRecord.t) : Prop :=
  in_uint 64 (StaleEvidenceRecord.event_id r) ∧
  name_fits (StaleEvidenceRecord.publisher r) ∧
  in_uint 64 (StaleEvidenceRecord.publisher_boot r) ∧
  name_fits (StaleEvidenceRecord.region r) ∧
  enum_fits EventType.code EventType.of_code kEventTypeCount (StaleEvidenceRecord.event_type r) ∧
  in_i64 (StaleEvidenceRecord.observed_at_ns r) ∧
  slen (StaleEvidenceRecord.detail r) ≤ 256.

Lemma codes_stale r : stale_fits r → codes (write_stale r) read_stale r.
Proof. unfold write_stale, read_stale, stale_fits. destruct r; solve_codes. Qed.
Lemma stable_stale : stable read_stale.
Proof. unfold read_stale. solve_stable. Qed.

Definition write_loss (l : SnapshotLoss.t) : action PayloadWriter.t unit :=
  let loss := SnapshotLoss.loss l in
  PayloadWriter.u64 (LossReport.rejected_observations loss);;
  PayloadWriter.u64 (LossReport.rejected_duplicates loss);;
  PayloadWriter.u64 (LossReport.rejected_conflicting_duplicates loss);;
  PayloadWriter.u64 (LossReport.rejected_stale_sequences loss);;
  PayloadWriter.u64 (LossReport.rejected_unauthorized loss);;
  PayloadWriter.u64 (LossReport.rejected_malformed loss);;
  PayloadWriter.u64 (LossReport.rejected_overflow loss);;
  PayloadWriter.u64 (LossReport.dropped_aggregate_updates loss);;
  PayloadWriter.u64 (LossReport.dropped_journal_entries loss);;
  PayloadWriter.u64 (LossReport.dropped_region_samples loss);;
  PayloadWriter.u64 (LossReport.evicted_history_records loss);;
  PayloadWriter.u64 (LossReport.missing_sequences loss);;
  PayloadWriter.u64 (LossReport.backpressure_rejections loss);;
  PayloadWriter.u64 (SnapshotLoss.aggregate_saturations l).

Definition read_loss : action PayloadReader.t SnapshotLoss.t :=
  rejected_observations ← PayloadReader.u64;
  rejected_duplicates ← PayloadReader.u64;
  rejected_conflicting_duplicates ← PayloadReader.u64;
  rejected_stale_sequences ← PayloadReader.u64;
  rejected_unauthorized ← PayloadReader.u64;
  rejected_malformed ← PayloadReader.u64;
  rejected_overflow ← PayloadReader.u64;
  dropped_aggregate_updates ← PayloadReader.u64;
  dropped_journal_entries ← PayloadReader.u64;
  dropped_region_samples ← PayloadReader.u64;
  evicted_history_records ← PayloadReader.u64;
  missing_sequences ← PayloadReader.u64;
  backpressure_rejections ← PayloadReader.u64;
  saturations ← PayloadReader.u64;
  mret (SnapshotLoss.mk (LossReport.mk rejected_observations rejected_duplicates
    rejected_conflicting_duplicates rejected_stale_sequences rejected_unauthorized
    rejected_malformed rejected_overflow dropped_aggregate_updates dropped_journal_entries
    dropped_region_samples evicted_history_records missing_sequences backpressure_rejections)
    saturations).

Definition loss_fits (l : SnapshotLoss.t) : Prop :=
  Forall (in_uint 64) (LossReport.values (SnapshotLoss.loss l)) ∧
  in_uint 64 (SnapshotLoss.aggregate_saturations l).

Lemma codes_loss l : loss_fits l → codes (write_loss l) read_loss l.
Proof.
  unfold write_loss, read_loss, loss_fits, LossReport.values. destruct l as [[] saturations].
  rewrite !Forall_cons. solve_codes.
Qed.
Lemma stable_loss : stable read_loss.
Proof. unfold read_loss. solve_stable. Qed.
#[export] Hint Resolve codes_loss : codes.
#[export] Hint Resolve stable_loss stable_stale stable_publisher_view stable_processor
  stable_accelerator stable_memory_domain stable_coherence_domain stable_region stable_finding
  stable_capability : codec.

(** ** Snapshot *)

(** [CostModel{}]. *)
Definition unset_cost_model : CostModel.t :=
  CostModel.mk "unset" 0 false d0 d0 d0 d0 d0 d0 d0 (d_of_Z 1) (d_of_Z 1) (d_of_Z 1).

Definition held (x : Snapshot.t Finding.t) : Z := zsize (AggregateStore.buckets (Snapshot.aggregates x)).
Definition sent_buckets (x : Snapshot.t Finding.t) : list (AggregateKey.t * AggregateValue.t) :=
  capped kMaxWireAggregateBuckets (entries (AggregateStore.buckets (Snapshot.aggregates x))).

Definition write_buckets (x : Snapshot.t Finding.t) : action PayloadWriter.t unit :=
  PayloadWriter.u32 (held x mod 2 ^ 32);;
  write_counted write_bucket (sent_buckets x).

Definition write_snapshot (x : Snapshot.t Finding.t) : action PayloadWriter.t unit :=
  PayloadWriter.u64 (Snapshot.generation x);;
  PayloadWriter.u64 (Snapshot.coordinator_epoch x);;
  PayloadWriter.u64 (Snapshot.observation_epoch x);;
  PayloadWriter.u64 (Snapshot.topology_generation x);;
  PayloadWriter.i64 (Snapshot.captured_at_ns x);;
  PayloadWriter.u8 (Reality.code (Snapshot.reality x));;
  PayloadWriter.u64 (Snapshot.historical_observation_count x);;
  PayloadWriter.u64 (Snapshot.history_source_epoch x);;
  PayloadWriter.u64 (zsize (Snapshot.historical_aggregates x));;
  PayloadWriter.u64 (zlen (Snapshot.history x));;
  write_counted write_publisher_view (Snapshot.publishers x);;
  write_counted write_processor (Snapshot.processors x);;
  write_counted write_accelerator (Snapshot.accelerators x);;
  write_counted write_memory_domain (Snapshot.memory_domains x);;
  write_counted write_coherence_domain (Snapshot.coherence_domains x);;
  write_counted write_region (Snapshot.regions x);;
  write_buckets x;;
  write_counted write_finding (Snapshot.findings x);;
  write_counted write_stale (Snapshot.stale x);;
  write_counted write_capability (Snapshot.capabilities x);;
  write_loss (Snapshot.loss x).

(** [buckets[key] = value] for each bucket read. *)
Definition collect (l : list (AggregateKey.t * AggregateValue.t)) : gmap AggregateKey.t AggregateValue.t :=
  foldl (λ m e, <[e.1 := e.2]> m) ∅ l.

(** The buckets: how many the coordinator holds, and those that were sent. *)
Definition read_buckets : action PayloadReader.t (Z * list (AggregateKey.t * AggregateValue.t)) :=
  buckets_held ← PayloadReader.u32;
  bucket_count ← PayloadReader.u32;
  if (bucket_count >? kMaxWireAggregateBuckets) || (bucket_count >? buckets_held)
  then lift (Err (too_many "snapshot bucket count exceeds the bound" bucket_count))
  else
    buckets ← read_n (Z.to_nat bucket_count) read_bucket;
    mret (buckets_held, buckets).

Definition read_snapshot : action PayloadReader.t (Snapshot.t Finding.t) :=
  generation ← PayloadReader.u64;
  coordinator ← PayloadReader.u64;
  observation ← PayloadReader.u64;
  topology ← PayloadReader.u64;
  captured ← PayloadReader.i64;
  reality ← read_enum Reality.of_code 3 "snapshot reality";
  historical_observations ← PayloadReader.u64;
  history_epoch ← PayloadReader.u64;
  historical_aggregates ← PayloadReader.u64;
  history_records ← PayloadReader.u64;
  publishers ← read_counted Limits.kMaxPublisherCount
    (too_many "snapshot publisher count exceeds the bound") read_publisher_view;
  processors ← read_counted Limits.kMaxProcessorCount
    (too_many "snapshot processor count exceeds the bound") read_processor;
  accelerators ← read_counted Limits.kMaxAcceleratorCount
    (too_many "snapshot accelerator count exceeds bound") read_accelerator;
  domains ← read_counted Limits.kMaxMemoryDomainCount
    (too_many "snapshot memory domain count exceeds bound") read_memory_domain;
  coherence_domains ← read_counted Limits.kMaxCoherenceDomainCount
    (too_many "snapshot coherence domain count exceeds bound") read_coherence_domain;
  regions ← read_counted Limits.kMaxRegionCount
    (too_many "snapshot region count exceeds the bound") read_region;
  buckets ← read_buckets;
  findings ← read_counted Limits.kMaxFindings
    (too_many "snapshot finding count exceeds the bound") read_finding;
  stale ← read_counted Limits.kMaxFindings
    (too_many "snapshot stale count exceeds the bound") read_stale;
  capabilities ← read_counted 256
    (too_many "snapshot capability count exceeds bound") read_capability;
  loss ← read_loss;
  mret {|
    Snapshot.generation := generation;
    Snapshot.coordinator_epoch := coordinator;
    Snapshot.observation_epoch := observation;
    Snapshot.topology_generation := topology;
    Snapshot.captured_at_ns := captured;
    Snapshot.reality := reality;
    Snapshot.publishers := publishers;
    Snapshot.nodes := [];
    Snapshot.processors := processors;
    Snapshot.accelerators := accelerators;
    Snapshot.memory_domains := domains;
    Snapshot.coherence_domains := coherence_domains;
    Snapshot.regions := regions;
    Snapshot.topology := TopologyRecord.mk topology [] 0 false;
    Snapshot.aggregates := AggregateStore.restore (collect buckets.2) AggregateStore.empty;
    Snapshot.aggregate_buckets_total := buckets.1;
    Snapshot.aggregate_buckets_omitted := buckets.1 - zlen buckets.2;
    Snapshot.findings := findings;
    Snapshot.stale := stale;
    Snapshot.capabilities := capabilities;
    Snapshot.loss := loss;
    Snapshot.cost_model := unset_cost_model;
    Snapshot.historical_aggregates := ∅;
    Snapshot.history := [];
    Snapshot.historical_aggregate_count := historical_aggregates;
    Snapshot.historical_observation_count := historical_observations;
    Snapshot.history_source_epoch := history_epoch |}.

(** When a snapshot fits, and what arrives of it. *)
Definition list_fits {A} (bound : Z) (P : A → Prop) (l : list A) : Prop :=
  zlen l ≤ bound ∧ Forall P l.

Definition snapshot_fits (x : Snapshot.t Finding.t) : Prop :=
  in_uint 64 (Snapshot.generation x) ∧
  in_uint 64 (Snapshot.coordinator_epoch x) ∧
  in_uint 64 (Snapshot.observation_epoch x) ∧
  in_uint 64 (Snapshot.topology_generation x) ∧
  in_i64 (Snapshot.captured_at_ns x) ∧
  enum_fits Reality.code Reality.of_code 3 (Snapshot.reality x) ∧
  in_uint 64 (Snapshot.historical_observation_count x) ∧
  in_uint 64 (Snapshot.history_source_epoch x) ∧
  in_uint 64 (zsize (Snapshot.historical_aggregates x)) ∧
  in_uint 64 (zlen (Snapshot.history x)) ∧
  list_fits Limits.kMaxPublisherCount publisher_view_fits (Snapshot.publishers x) ∧
  list_fits Limits.kMaxProcessorCount processor_fits (Snapshot.processors x) ∧
  list_fits Limits.kMaxAcceleratorCount accelerator_fits (Snapshot.accelerators x) ∧
  list_fits Limits.kMaxMemoryDomainCount memory_domain_fits (Snapshot.memory_domains x) ∧
  list_fits Limits.kMaxCoherenceDomainCount coherence_domain_fits (Snapshot.coherence_domains x) ∧
  list_fits Limits.kMaxRegionCount region_fits (Snapshot.regions x) ∧
  in_uint 32 (held x) ∧
  Forall bucket_fits (sent_buckets x) ∧
  list_fits Limits.kMaxFindings finding_fits (Snapshot.findings x) ∧
  list_fits Limits.kMaxFindings stale_fits (Snapshot.stale x) ∧
  list_fits 256 capability_fits (Snapshot.capabilities x) ∧
  loss_fits (Snapshot.loss x).

(** What is read back.  The format has no room for nodes, topology links and the cost
    model, and of the history it has the counts. *)
Definition snapshot_wire_form (x : Snapshot.t Finding.t) : Snapshot.t Finding.t := {|
  Snapshot.generation := Snapshot.generation x;
  Snapshot.coordinator_epoch := Snapshot.coordinator_epoch x;
  Snapshot.observation_epoch := Snapshot.observation_epoch x;
  Snapshot.topology_generation := Snapshot.topology_generation x;
  Snapshot.captured_at_ns := Snapshot.captured_at_ns x;
  Snapshot.reality := Snapshot.reality x;
  Snapshot.publishers := Snapshot.publishers x;
  Snapshot.nodes := [];
  Snapshot.processors := Snapshot.processors x;
  Snapshot.accelerators := Snapshot.accelerators x;
  Snapshot.memory_domains := Snapshot.memory_domains x;
  Snapshot.coherence_domains := Snapshot.coherence_domains x;
  Snapshot.regions := Snapshot.regions x;
  Snapshot.topology := TopologyRecord.mk (Snapshot.topology_generation x) [] 0 false;
  Snapshot.aggregates := AggregateStore.restore
    (collect (prod_map id bucket_wire_form <$> sent_buckets x)) AggregateStore.empty;
  Snapshot.aggregate_buckets_total := held x;
  Snapshot.aggregate_buckets_omitted := held x - zlen (sent_buckets x);
  Snapshot.findings := finding_wire_form <$> Snapshot.findings x;
  Snapshot.stale := Snapshot.stale x;
  Snapshot.capabilities := Snapshot.capabilities x;
  Snapshot.loss := Snapshot.loss x;
  Snapshot.cost_model := unset_cost_model;
  Snapshot.historical_aggregates := ∅;
  Snapshot.history := [];
  Snapshot.historical_aggregate_count := zsize (Snapshot.historical_aggregates x);
  Snapshot.historical_observation_count := Snapshot.historical_observation_count x;
  Snapshot.history_source_epoch := Snapshot.history_source_epoch x |}.

Lemma codes_counted_map {A B} bound e (w : A → action _ unit) (r : action _ B) (f : A → B) l :
  bound < 2 ^ 32 → zlen l ≤ bound → Forall (λ a, codes (w a) r (f a)) l →
  codes (write_counted w l) (read_counted bound e r) (f <$> l).
Proof.
  intros Hb Hl Hw. unfold write_counted, read_counted. pose proof (zlen_nonneg l).
  rewrite Z.mod_small by lia.
  eapply codes_bind; [apply codes_u32; unfold in_uint; lia|].
  rewrite Z.gtb_ltb, (proj2 (Z.ltb_ge _ _)) by lia. unfold zlen. rewrite Nat2Z.id. by apply codes_all.
Qed.

Lemma codes_sized_list {A} bound e (w : A → action _ unit) r P l :
  bound < 2 ^ 32 → (∀ a, P a → codes (w a) r a) → list_fits bound P l →
  codes (write_counted w l) (read_counted bound e r) l.
Proof.
  intros Hb HP [Hn Hl]. apply codes_counted; [done..|]. eapply Forall_impl; [exact Hl|exact HP].
Qed.

Lemma codes_findings bound e l :
  bound < 2 ^ 32 → list_fits bound finding_fits l →
  codes (write_counted write_finding l) (read_counted bound e read_finding) (finding_wire_form <$> l).
Proof.
  intros Hb [Hn Hl]. apply codes_counted_map; [done..|]. eapply Forall_impl; [exact Hl|].
  apply codes_finding.
Qed.

Lemma codes_buckets x :
  in_uint 32 (held x) → Forall bucket_fits (sent_buckets x) →
  codes (write_buckets x) read_buckets (held x, prod_map id bucket_wire_form <$> sent_buckets x).
Proof.
  intros Hh Hf. unfold write_buckets, read_buckets. unfold in_uint in Hh.
  rewrite Z.mod_small by lia. eapply codes_bind; [by apply codes_u32|].
  assert (zlen (sent_buckets x) ≤ held x ∧ zlen (sent_buckets x) ≤ kMaxWireAggregateBuckets) as [H1 H2].
  { split; [|by apply capped_length]. unfold sent_buckets, capped, held. rewrite <- entries_length.
    unfold zlen. rewrite length_take. lia. }
  pose proof (zlen_nonneg (sent_buckets x)). unfold write_counted. rewrite Z.mod_small by lia.
  eapply codes_bind; [apply codes_u32; unfold in_uint; lia|].
  rewrite !Z.gtb_ltb, !(proj2 (Z.ltb_ge _ _)) by lia. cbn [orb].
  eapply codes_map; [|reflexivity]. unfold zlen. rewrite Nat2Z.id. apply codes_all.
  eapply Forall_impl; [exact Hf|]. intros [k v] Hkv. exact (codes_bucket (k, v) Hkv).
Qed.

Lemma codes_snapshot x :
  snapshot_fits x → codes (write_snapshot x) read_snapshot (snapshot_wire_form x).
Proof.
  unfold snapshot_fits, write_snapshot, read_snapshot. intros Hx.
  repeat match goal with H : _ ∧ _ |- _ => destruct H end.
  do 10 (eapply codes_bind; [solve [eauto 3 with codes nocore]|]).
  eapply codes_bind; [eapply codes_sized_list; [|apply codes_publisher_view|]; done|].
  eapply codes_bind; [eapply codes_sized_list; [|apply codes_processor|]; done|].
  eapply codes_bind; [eapply codes_sized_list; [|apply codes_accelerator|]; done|].
  eapply codes_bind; [eapply codes_sized_list; [|apply codes_memory_domain|]; done|].
  eapply codes_bind; [eapply codes_sized_list; [|apply codes_coherence_domain|]; done|].
  eapply codes_bind; [eapply codes_sized_list; [|apply codes_region|]; done|].
  eapply codes_bind; [by apply codes_buckets|].
  eapply codes_bind; [by apply codes_findings|].
  eapply codes_bind; [eapply codes_sized_list; [|apply codes_stale|]; done|].
  eapply codes_bind; [eapply codes_sized_list; [|apply codes_capability|]; done|].
  eapply codes_map; [by apply codes_loss|].
  cbn [fst snd]. unfold zlen. rewrite length_fmap. reflexivity.
Qed.

Lemma stable_buckets : stable read_buckets.
Proof.
  unfold read_buckets. apply stable_bind; [eauto with codec|]. intros h.
  apply stable_bind; [eauto with codec|]. intros n. apply stable_if; [apply stable_lift|].
  apply stable_bind; [apply stable_read_n, stable_bucket|]. intros l. apply stable_ret.
Qed.
#[export] Hint Resolve stable_buckets : codec.

Lemma stable_snapshot : stable read_snapshot.
Proof. unfold read_snapshot. solve_stable. Qed.

(** ** Claims *)

(** What the format carries of a snapshot [x], which arrives as [y]. *)
Record carried (x y : Snapshot.t Finding.t) : Prop := {
  carried_generations :
    Snapshot.generation y = Snapshot.generation x
    ∧ Snapshot.coordinator_epoch y = Snapshot.coordinator_epoch x
    ∧ Snapshot.observation_epoch y = Snapshot.observation_epoch x
    ∧ Snapshot.topology_generation y = Snapshot.topology_generation x
    ∧ Snapshot.captured_at_ns y = Snapshot.captured_at_ns x
    ∧ Snapshot.reality y = Snapshot.reality x;
  carried_registries :
    Snapshot.publishers y = Snapshot.publishers x
    ∧ Snapshot.processors y = Snapshot.processors x
    ∧ Snapshot.accelerators y = Snapshot.accelerators x
    ∧ Snapshot.memory_domains y = Snapshot.memory_domains x
    ∧ Snapshot.coherence_domains y = Snapshot.coherence_domains x
    ∧ Snapshot.regions y = Snapshot.regions x;
  carried_reports :
    Snapshot.stale y = Snapshot.stale x ∧ Snapshot.capabilities y = Snapshot.capabilities x
    ∧ Snapshot.loss y = Snapshot.loss x;
  carried_findings : Snapshot.findings y = finding_wire_form <$> Snapshot.findings x;
  carried_buckets :
    AggregateStore.buckets (Snapshot.aggregates y) = bucket_wire_form <$> list_to_map (sent_buckets x);
  carried_totals :
    Snapshot.aggregate_buckets_total y = held x
    ∧ Snapshot.aggregate_buckets_omitted y = Z.max 0 (held x - kMaxWireAggregateBuckets);
  carried_history :
    Snapshot.historical_aggregate_count y = zsize (Snapshot.historical_aggregates x)
    ∧ Snapshot.historical_observation_count y = Snapshot.historical_observation_count x
    ∧ Snapshot.history_source_epoch y = Snapshot.history_source_epoch x;
}.

(** What it does not carry, and what stands in its place. *)
Record left_out (y : Snapshot.t Finding.t) : Prop := {
  left_out_nodes : Snapshot.nodes y = [];
  left_out_links : TopologyRecord.links (Snapshot.topology y) = [];
  left_out_cost_model : Snapshot.cost_model y = unset_cost_model;
  left_out_history : Snapshot.historical_aggregates y = ∅ ∧ Snapshot.history y = [];
}.

(** Of a bucket, four totals are not carried either. *)
Record bucket_carried (v w : AggregateValue.t) : Prop := {
  bucket_counts :
    AggregateValue.observations w = AggregateValue.observations v
    ∧ AggregateValue.bytes w = AggregateValue.bytes v
    ∧ AggregateValue.remote_accesses w = AggregateValue.remote_accesses v
    ∧ AggregateValue.remote_reads w = AggregateValue.remote_reads v
    ∧ AggregateValue.remote_writes w = AggregateValue.remote_writes v
    ∧ AggregateValue.ownership_transfers w = AggregateValue.ownership_transfers v
    ∧ AggregateValue.invalidations w = AggregateValue.invalidations v
    ∧ AggregateValue.retries w = AggregateValue.retries v
    ∧ AggregateValue.conflicts w = AggregateValue.conflicts v
    ∧ AggregateValue.writebacks w = AggregateValue.writebacks v;
  bucket_quality :
    AggregateValue.reality w = AggregateValue.reality v
    ∧ AggregateValue.weakest_precision w = AggregateValue.weakest_precision v
    ∧ AggregateValue.precision_counts w = AggregateValue.precision_counts v
    ∧ AggregateValue.provenance_counts w = AggregateValue.provenance_counts v
    ∧ AggregateValue.saturated w = AggregateValue.saturated v;
  bucket_times :
    AggregateValue.first_timestamp_ns w = AggregateValue.first_timestamp_ns v
    ∧ AggregateValue.last_timestamp_ns w = AggregateValue.last_timestamp_ns v
    ∧ AggregateValue.has_timestamps w = AggregateValue.has_timestamps v;
  bucket_left_out :
    AggregateValue.lines w = 0 ∧ AggregateValue.pages w = 0
    ∧ AggregateValue.regions_touched w = 0 ∧ AggregateValue.counter_delta_total w = 0;
}.

Lemma bucket_wire_carried v : bucket_carried v (bucket_wire_form v).
Proof. constructor; try by split_and!. split; [apply bucket_wire_reality|done]. Qed.

Lemma collect_nodup (l : list (AggregateKey.t * AggregateValue.t)) : NoDup l.*1 → collect l = list_to_map l.
Proof.
  induction l as [|e l IH] using rev_ind; intros Hl; [done|].
  rewrite (list_to_map_proper (l ++ [e]) (e :: l)); [|done|by rewrite Permutation_app_comm].
  unfold collect. rewrite foldl_app. cbn [foldl]. fold (collect l). rewrite fmap_app in Hl.
  apply NoDup_app in Hl as [Hl _]. rewrite IH by done. by destruct e.
Qed.

Lemma sent_buckets_nodup x : NoDup (sent_buckets x).*1.
Proof.
  unfold sent_buckets, capped. rewrite fmap_take. eapply sublist_NoDup; [|apply sublist_take].
  rewrite entries_perm. apply NoDup_fst_map_to_list.
Qed.

Lemma snapshot_wire_carried x : carried x (snapshot_wire_form x).
Proof.
  constructor; try by split_and!.
  - done.
  - change (collect (prod_map id bucket_wire_form <$> sent_buckets x)
            = bucket_wire_form <$> (list_to_map (sent_buckets x) : gmap _ _)). rewrite collect_nodup.
    + by rewrite <- list_to_map_fmap.
    + rewrite <- list_fmap_compose. exact (sent_buckets_nodup x).
  - split; [done|]. change (held x - zlen (sent_buckets x) = Z.max 0 (held x - kMaxWireAggregateBuckets)).
    unfold sent_buckets, capped, zlen. rewrite length_take. unfold held.
    rewrite <- entries_length. unfold zlen, kMaxWireAggregateBuckets. lia.
Qed.

(** Claim C19. What arrives of a snapshot: one within the bounds of the format is read
    back (and a payload cut short is refused as truncated) with its generations and
    epochs, the publishers, processors, accelerators, domains, regions, stale evidence,
    capabilities and losses exactly as they were; the findings with their lists capped;
    the first buckets in the order of their keys, as many as the format takes, and the
    number of those that were not sent; of the history its counts. Nodes, topology
    links, the cost model and the historical evidence are not carried and arrive empty;
    of a bucket the counts, quality and timestamps arrive as they were, but lines,
    pages, regions touched and the counter total arrive as zero. *)
Theorem snapshot_wire_content (x : Snapshot.t Finding.t) (Hfits : snapshot_fits x) :
  ∃ y, survives (write_snapshot x) read_snapshot y
    ∧ carried x y ∧ left_out y ∧ ∀ v, bucket_carried v (bucket_wire_form v).
Proof.
  exists (snapshot_wire_form x). split.
  - apply codes_payload; [exact (codes_snapshot x Hfits)|exact stable_snapshot].
  - split; [apply snapshot_wire_carried|]. split; [by constructor|apply bucket_wire_carried].
Qed.

(** A bucket whose key is longer than the wire's text bound of 96
    blocks every snapshot query: the bucket of a source/target pair is keyed by
    both names, of up to 64 characters each, so one observation between two
    resources with long names suffices, and the query fails until the evidence
    is gone. *)
Theorem long_bucket_key_blocks_snapshots (x : Snapshot.t Finding.t) (key : AggregateKey.t)
    (v : AggregateValue.t)
  (Hsent : (key, v) ∈ sent_buckets x) (Hlong : kMaxTextAnnotation < slen (AggregateKey.value key)) :
  refuses (write_snapshot x).
Proof.
  unfold write_snapshot. do 16 (apply refuses_bind_r; intros _). apply refuses_bind_l.
  unfold write_buckets, write_counted. do 2 (apply refuses_bind_r; intros _).
  eapply refuses_all; [exact Hsent|]. unfold write_bucket.
  apply refuses_bind_r. intros _. apply refuses_bind_l. by apply refuses_text.
Qed.

(** *** Concrete snapshots *)

Definition far_observation (source target : string) : Observation.t :=
  Observation.empty
    <| Observation.type := EventType.RemoteRead |>
    <| Observation.source := Some (ResourceRef.mk ResourceKind.Accelerator source 1) |>
    <| Observation.target := Some (ResourceRef.mk ResourceKind.Accelerator target 1) |>.
Definition observed (source target : string) : State.t :=
  apply_observation (far_observation source target) AttributionOutcome.AttributedExact
    Locality.Unknown false (State.initial ObservatoryOptions.default).

Lemma snapshot_wire_content_witness :
  snapshot_fits (build 7 [] (State.initial ObservatoryOptions.default))
  ∧ ∃ y, survives (write_snapshot (build 7 [] (State.initial ObservatoryOptions.default))) read_snapshot y
         ∧ carried (build 7 [] (State.initial ObservatoryOptions.default)) y.
Proof.
  assert (snapshot_fits (build 7 [] (State.initial ObservatoryOptions.default))) as H.
  { assert (∀ {A} (P : A → Prop) l, l = [] → Forall P l) as Hnil by (intros ? ? ? ->; constructor).
    unfold snapshot_fits, list_fits, in_uint, in_i64, enum_fits, loss_fits.
    repeat match goal with |- _ ∧ _ => split end;
      lazymatch goal with
      | |- Forall _ (LossReport.values _) => idtac
      | |- Forall _ _ => apply Hnil; by vm_compute
      | |- _ => by vm_compute
      end.
    change (Forall (λ x, 0 ≤ x < 2 ^ 64) (replicate 13 0)). apply Forall_replicate. lia. }
  split; [exact H|]. destruct (snapshot_wire_content _ H) as (y & Hs & Hc & _).
  exists y. exact (conj Hs Hc).
Defined.

Definition long_source : string := "accelerator-with-a-name-of-forty-eight-letters-a".
Definition long_target : string := "accelerator-with-a-name-of-forty-eight-letters-b".

Lemma long_bucket_key_blocks_snapshots_witness :
  refuses (write_snapshot (build 7 [] (observed long_source long_target))).
Proof.
  set (x := build 7 [] (observed long_source long_target)).
  set (key := AggregateKey.mk AggregateDimension.SourceTargetPair (long_source +:+ "->" +:+ long_target)).
  destruct (AggregateStore.buckets (Snapshot.aggregates x) !! key) as [v|] eqn:E;
    [|by vm_compute in E].
  apply (long_bucket_key_blocks_snapshots x key v); [|by vm_compute].
  apply elem_of_entries in E. unfold sent_buckets. rewrite capped_short; [exact E|by vm_compute].
Defined.
