(* ===== verification/Sizes.v ===== *)
(** * Sizes of messages

    How many bytes the writers of [Wire] add, whatever they are given and whether or
    not they succeed: every request and acknowledgement fits into one frame. *)

From S2P Require Import Prelude Errors TextUtil Ids Taxonomy Cost Records Observation Publishers.
From S2P Require Import Counters Codec Protocol Transport Wire.

Definition sized (n : Z) (w : action PayloadWriter.t unit) : Prop :=
  ∀ d, ∃ bs, (w d).2 = d ++ bs ∧ zlen bs ≤ n.

Create HintDb sized.

Lemma sized_ret (a : unit) : sized 0 (mret a).
Proof. intros d. exists []. by rewrite app_nil_r. Qed.
Lemma sized_bind n m w w' : sized n w → sized m w' → 0 ≤ m → sized (n + m) (w;; w').
Proof.
  intros Hw Hw' Hm d. destruct (Hw d) as (bs & E & Hn).
  change ((w;; w') d) with (match w d with (Ok _, d') => w' d' | (Err e, d') => (Err e, d') end).
  destruct (w d) as [[u|e] d']; cbn [snd] in E; subst d'.
  - destruct (Hw' (d ++ bs)) as (cs & -> & Hc). exists (bs ++ cs). rewrite app_assoc, zlen_app. split; [done|lia].
  - exists bs. split; [done|lia].
Qed.
Lemma sized_bytes l : sized (zlen l) (PayloadWriter.bytes l).
Proof. intros d. by exists l. Qed.
Lemma zlen_le_bytes n v : zlen (put_le n v) = Z.of_nat n.
Proof. unfold zlen, put_le. by rewrite length_fmap, length_seq. Qed.
Lemma sized_u8 v : sized 1 (PayloadWriter.u8 v). Proof. apply (sized_bytes [v]). Qed.
Lemma sized_bool v : sized 1 (PayloadWriter.u8_bool v). Proof. intros d. by exists [if v then 1 else 0]. Qed.
Lemma sized_u16 v : sized 2 (PayloadWriter.u16 v). Proof. intros d. by eexists. Qed.
Lemma sized_u32 v : sized 4 (PayloadWriter.u32 v). Proof. apply (sized_bytes (put_le 4 v)). Qed.
Lemma sized_u64 v : sized 8 (PayloadWriter.u64 v). Proof. apply (sized_bytes (put_le 8 v)). Qed.
Lemma sized_i64 v : sized 8 (PayloadWriter.i64 v). Proof. apply sized_u64. Qed.
Lemma sized_nanos v : sized 8 (write_nanos v). Proof. apply sized_u64. Qed.

Lemma zlen_string_bytes s : zlen (string_bytes s) = slen s.
Proof. unfold zlen, slen. by rewrite string_bytes_length. Qed.
Lemma sized_text s m : 0 ≤ m → sized (4 + m) (PayloadWriter.text s m).
Proof.
  intros Hm d. unfold PayloadWriter.text. destruct (Z.gtb_spec (slen s) m) as [Hs|Hs].
  - exists []. rewrite app_nil_r. split; [done|]. change (zlen []) with 0. lia.
  - destruct (sized_bind 4 (zlen (string_bytes s)) _ _ (sized_u32 (slen s mod 2 ^ 32))
      (sized_bytes (string_bytes s)) (zlen_nonneg _) d) as (bs & E & Hl).
    exists bs. rewrite zlen_string_bytes in Hl. split; [exact E|lia].
Qed.
Lemma sized_name s : sized 68 (write_name_id s).
Proof. by apply sized_text. Qed.
Lemma sized_unchecked n w : sized n w → sized n (unchecked w).
Proof. intros H d. apply H. Qed.
Lemma sized_le n m w : sized n w → n ≤ m → sized m w.
Proof. intros H Hm d. destruct (H d) as (bs & E & Hl). exists bs. split; [done|lia]. Qed.
Lemma sized_optional {A} n (w : A → action PayloadWriter.t unit) o :
  0 ≤ n → (∀ a, sized n (w a)) → sized (1 + n) (write_optional w o).
Proof.
  intros Hn Hw. apply sized_bind; [apply sized_bool| |done]. destruct o; [apply Hw|].
  by eapply sized_le; [apply sized_ret|].
Qed.
Lemma sized_all {A} n (w : A → action PayloadWriter.t unit) l :
  0 ≤ n → (∀ a, sized n (w a)) → sized (n * zlen l) (write_all w l).
Proof.
  intros Hn Hw. induction l as [|a l IH]; [by eapply sized_le; [apply sized_ret|change (zlen []) with 0; lia]|].
  cbn [write_all]. rewrite zlen_cons. eapply sized_le; [apply sized_bind; [apply Hw|exact IH|]|];
    pose proof (zlen_nonneg l); nia.
Qed.

#[export] Hint Resolve sized_ret sized_u8 sized_bool sized_u16 sized_u32 sized_u64 sized_i64
  sized_nanos sized_name : sized.
#[export] Hint Extern 1 (sized _ (PayloadWriter.text _ _)) => apply sized_text; by vm_compute : sized.

(** Adding up the fields of a record. *)
Ltac solve_sized :=
  eapply sized_le;
  [repeat first
     [ solve [eauto 3 with sized nocore]
     | eapply sized_bind; [solve [eauto 3 with sized nocore]| |] ];
   try done; try lia
  |try done; try lia].

Lemma sized_resource_ref r : sized 77 (write_resource_ref r).
Proof. unfold write_resource_ref. solve_sized. Qed.
#[export] Hint Resolve sized_resource_ref : sized.
Lemma sized_optional_resource o : sized 78 (write_optional_resource o).
Proof. apply (sized_optional 77); [done|apply sized_resource_ref]. Qed.
Lemma sized_optional_name o : sized 69 (write_optional_name o).
Proof. apply (sized_optional 68); [done|apply sized_name]. Qed.
#[export] Hint Resolve sized_optional_resource sized_optional_name : sized.

Lemma sized_metadata_entry e : sized 216 (write_metadata_entry e).
Proof.
  unfold write_metadata_entry. eapply sized_le; [apply sized_bind; [apply sized_unchecked, sized_text; by vm_compute
    |apply sized_unchecked, sized_text; by vm_compute|done]|by vm_compute].
Qed.
Lemma sized_metadata m : zlen m ≤ Limits.kMaxMetadataEntries → sized 1732 (write_metadata m).
Proof.
  intros Hm. assert (Hs : zlen (BoundedMetadata.sorted_entries m) = zlen m).
  { unfold zlen, BoundedMetadata.sorted_entries. by rewrite merge_sort_Permutation. }
  pose proof (zlen_nonneg m). change Limits.kMaxMetadataEntries with 8 in Hm.
  eapply sized_le; [apply sized_bind; [apply sized_u32|apply (sized_all 216); [done|apply sized_metadata_entry]|]|];
    rewrite Hs; lia.
Qed.

(** ** Requests *)

Lemma sized_observation o :
  zlen (Observation.metadata o) ≤ Limits.kMaxMetadataEntries → sized 2378 (write_observation o).
Proof. intros Hm. pose proof (sized_metadata _ Hm). unfold write_observation. solve_sized. Qed.
Lemma sized_counter_publication p :
  zlen (CounterPublication.metadata p) ≤ Limits.kMaxMetadataEntries → sized 2259 (write_counter_publication p).
Proof. intros Hm. pose proof (sized_metadata _ Hm). unfold write_counter_publication. solve_sized. Qed.
Lemma sized_ack ack : sized 342 (write_ack ack).
Proof. unfold write_ack. solve_sized. Qed.
Lemma sized_publisher_registration g : sized 337 (write_publisher_registration g).
Proof. unfold write_publisher_registration. solve_sized. Qed.
Lemma sized_region r : sized 548 (write_region r).
Proof. unfold write_region. solve_sized. Qed.
Lemma sized_node r : sized 176 (write_node r).
Proof. unfold write_node. solve_sized. Qed.
Lemma sized_processor r : sized 234 (write_processor r).
Proof. unfold write_processor. solve_sized. Qed.
Lemma sized_accelerator r : sized 391 (write_accelerator r).
Proof. unfold write_accelerator. solve_sized. Qed.
Lemma sized_memory_domain r : sized 233 (write_memory_domain r).
Proof. unfold write_memory_domain. solve_sized. Qed.
Lemma sized_topology_link l : sized 172 (write_topology_link l).
Proof. unfold write_topology_link. solve_sized. Qed.

(** A payload within a size, and the frame around it. *)
Lemma sized_payload n w : sized n w → zlen (w []).2 ≤ n.
Proof. intros H. destruct (H []) as (bs & -> & Hl). exact Hl. Qed.
