(* ===== verification/Host.v ===== *)
(** * Collectors and the in-process publication host

    [include/coherence/backend.hpp] and [src/backend.cpp].  A collector publishes
    through an [IngestionSink] and registers structure through a
    [StructureRegistrar]; both are abstract classes in the source and records of
    operations here, over the environment [E] they act on.  [LocalPublisherHost]
    implements both on an observatory.  [CollectorRunner] starts collectors and
    polls them in sweeps.

    The host's operations read the clock inside the observatory; [clock] gives the
    successive readings and [ticks] counts those made.  [make_publisher_boot_id]
    draws on the clock and the process identity; its outcome is the argument
    [fresh_boot] of [start]. *)

From S2P Require Import Prelude Errors TextUtil Ids Taxonomy Cost Records Observation.
From S2P Require Import Aggregate Sequence State Attribution Registry Publishers Ingest Counters.
From S2P Require Import Reconcile Snapshot System.

(** ** The interfaces *)

Module IngestionSink.
Record t (E : Type) := mk {
  publish : Observation.t → E → E * result IngestionOutcome.t;
  publish_counter : CounterPublication.t → E → E * result CounterOutcome.t;
  publisher_id : E → string;
  publisher_boot : E → Z;
  coordinator_epoch : E → Z;
  next_sequence : E → E * Z;
}.
#[global] Arguments publish {E} _ _ _.
#[global] Arguments publish_counter {E} _ _ _.
#[global] Arguments publisher_id {E} _ _.
#[global] Arguments publisher_boot {E} _ _.
#[global] Arguments coordinator_epoch {E} _ _.
#[global] Arguments next_sequence {E} _ _.
End IngestionSink.

Module StructureRegistrar.
Record t (E : Type) := mk {
  bump_topology : string → E → E * result Z;
  register_node : NodeRecord.t → E → E * result unit;
  register_processor : ProcessorRecord.t → E → E * result unit;
  register_accelerator : AcceleratorRecord.t → E → E * result unit;
  register_memory_domain : MemoryDomainRecord.t → E → E * result unit;
  register_coherence_domain : CoherenceDomainRecord.t → E → E * result unit;
  register_region : RegionRecord.t → E → E * result unit;
  retire_region : string → Z → string → E → E * result unit;
  set_topology_link : TopologyLink.t → E → E * result unit;
  set_capability : Capability.t → E → E * result unit;
  set_cost_model : CostModel.t → E → E * result unit;
  coordinator_epoch : E → Z;
  topology_generation : E → Z;
}.
#[global] Arguments bump_topology {E} _ _ _.
#[global] Arguments register_node {E} _ _ _.
#[global] Arguments register_processor {E} _ _ _.
#[global] Arguments register_accelerator {E} _ _ _.
#[global] Arguments register_memory_domain {E} _ _ _.
#[global] Arguments register_coherence_domain {E} _ _ _.
#[global] Arguments register_region {E} _ _ _.
#[global] Arguments retire_region {E} _ _ _ _ _.
#[global] Arguments set_topology_link {E} _ _ _.
#[global] Arguments set_capability {E} _ _ _.
#[global] Arguments set_cost_model {E} _ _ _.
#[global] Arguments coordinator_epoch {E} _ _.
#[global] Arguments topology_generation {E} _ _.
End StructureRegistrar.

(** What a collector is handed; a null pointer is [None]. *)
Module CollectorContext.
Record t (E : Type) := mk {
  sink : option (IngestionSink.t E); registrar : option (StructureRegistrar.t E);
  seed : Z; budget_per_poll : Z;
}.
#[global] Arguments mk {E} _ _ _ _.
#[global] Arguments sink {E} _.
#[global] Arguments registrar {E} _.
#[global] Arguments seed {E} _.
#[global] Arguments budget_per_poll {E} _.
End CollectorContext.

(** A collector whose own state is [C]. *)
Module Collector.
Record t (E C : Type) := mk {
  name : string;
  capabilities : list Capability.t;
  start : CollectorContext.t E → C * E → (C * E) * result unit;
  poll : CollectorContext.t E → C * E → (C * E) * result unit;
  stop : C → C;
}.
#[global] Arguments mk {E C} _ _ _ _ _.
#[global] Arguments name {E C} _.
#[global] Arguments capabilities {E C} _.
#[global] Arguments start {E C} _ _ _.
#[global] Arguments poll {E C} _ _ _.
#[global] Arguments stop {E C} _ _.
End Collector.

(** ** The local host *)

Module LocalPublisherHost.
Module Options.
Record t := mk {
  auto_event_id : bool; auto_sequence : bool; stamp_authority : bool;
  stamp_topology_generation : bool;
}.
Definition default : t := mk true true true true.
End Options.

Record t := mk {
  observatory : State.t; registration : PublisherRegistration.t; options : Options.t;
  next_sequence_ : Z; next_event_id_ : Z; rejected_ : Z; accepted_ : Z; ticks : nat;
}.
#[global] Instance eta : Eta t := fun h =>
  mk (observatory h) (registration h) (options h) (next_sequence_ h) (next_event_id_ h)
    (rejected_ h) (accepted_ h) (ticks h).
Definition make (o : State.t) (registration : PublisherRegistration.t) (options : Options.t) : t :=
  mk o registration options 1 1 0 0 0.

(** [if (field.is_zero()) field = v;]. *)
Definition fill (v field : Z) : Z := if is_zero field then v else field.

(** [publish], [publish_counter]: the sequence, allocated when there is none. *)
Definition allocate_sequence (sequence : Z) (h : t) : t * Z :=
  let next := next_sequence_ h in
  if is_zero sequence
  then (h <| next_sequence_ := next_id next |>, next)
  else if next <=? sequence
  then (h <| next_sequence_ := next_id sequence |>, sequence)
  else (h, sequence).

Definition stamp_event_identity (o : Observation.t) (h : t) : t * Observation.t :=
  let next := next_event_id_ h in
  if Options.auto_event_id (options h)
     && is_zero (Observation.event_id o)
  then (h <| next_event_id_ := next_id next |>,
        o <| Observation.event_id := next |>)
  else (h, o).

Definition stamp_event_sequence (o : Observation.t) (h : t) : t * Observation.t :=
  if Options.auto_sequence (options h)
  then let '(h, n) := allocate_sequence (Observation.sequence o) h in
       (h, o <| Observation.sequence := n |>)
  else (h, o).

(** The authority and topology stamps of [publish]. *)
Definition stamp_event_authority (h : t) (o : Observation.t) : Observation.t :=
  let g := registration h in
  let opts := options h in
  let obs := observatory h in
  let o := if Options.stamp_authority opts
           then o <| Observation.source_publisher := PublisherRegistration.id g |>
                  <| Observation.publisher_boot := PublisherRegistration.boot g |>
           else o in
  let o := o <| Observation.coordinator_epoch ::= fill (State.coordinator_epoch obs) |> in
  let o := if Options.stamp_authority opts
           then o <| Observation.sampling_epoch ::= fill (PublisherRegistration.sampling_epoch g) |>
                  <| Observation.evidence_generation ::=
                       fill (PublisherRegistration.evidence_generation g) |>
           else o in
  if Options.stamp_topology_generation opts
  then o <| Observation.topology_generation ::= fill (State.topology_generation obs) |>
  else o.

Definition stamp_event (o : Observation.t) (h : t) : t * Observation.t :=
  let o := stamp_event_authority h o in
  let '(h, o) := stamp_event_identity o h in
  stamp_event_sequence o h.

Definition stamp_counter_authority (h : t) (p : CounterPublication.t) : CounterPublication.t :=
  let g := registration h in
  let opts := options h in
  let obs := observatory h in
  let p := if Options.stamp_authority opts
           then p <| CounterPublication.publisher := PublisherRegistration.id g |>
                  <| CounterPublication.publisher_boot := PublisherRegistration.boot g |>
           else p in
  let p := p <| CounterPublication.coordinator_epoch ::= fill (State.coordinator_epoch obs) |> in
  let p := if Options.stamp_authority opts
           then p <| CounterPublication.sampling_epoch ::= fill (PublisherRegistration.sampling_epoch g) |>
                  <| CounterPublication.evidence_generation ::=
                       fill (PublisherRegistration.evidence_generation g) |>
           else p in
  if Options.stamp_topology_generation opts
  then p <| CounterPublication.topology_generation ::= fill (State.topology_generation obs) |>
  else p.

Definition stamp_counter (p : CounterPublication.t) (h : t) : t * CounterPublication.t :=
  let p := stamp_counter_authority h p in
  if Options.auto_sequence (options h)
  then let '(h, n) := allocate_sequence (CounterPublication.sequence p) h in
       (h, p <| CounterPublication.sequence := n |>)
  else (h, p).

(** [++accepted_] or [++rejected_]. *)
Definition tally (accepted : bool) (h : t) : t :=
  if accepted then h <| accepted_ ::= incr |>
  else h <| rejected_ ::= incr |>.

(** [coordinator_epoch], [topology_generation], [next_sequence]. *)
Definition coordinator_epoch (h : t) : Z := State.coordinator_epoch (observatory h).
Definition topology_generation (h : t) : Z := State.topology_generation (observatory h).
Definition next_sequence (h : t) : t * Z :=
  let current := next_sequence_ h in
  (h <| next_sequence_ := next_id current |>, current).

Section host.
Context (clock : nat → Z).

(** One call into the observatory: it reads the clock [n] times. *)
Definition now (h : t) : Z := clock (ticks h).
Definition enter_observatory (n : nat) (s : State.t) (h : t) : t :=
  h <| observatory := s |> <| ticks ::= Nat.add n |>.

Definition start (fresh_boot : Z) (h : t) : t * result unit :=
  let g := registration h in
  if sempty (PublisherRegistration.id g)
  then (h, fail ErrorCode.InvalidArgument "publisher identity is empty")
  else
    let g := g <| PublisherRegistration.boot ::= fill fresh_boot |> in
    let h := h <| registration := g |> in
    let '(s, view) := register_publisher (now h) (clock (S (ticks h))) g
                        (observatory h) in
    let h := enter_observatory 2 s h in
    match view with
    | Err e => (h, Err e)
    | Ok v =>
        (h <| registration ::= λ g,
           g <| PublisherRegistration.coordinator_epoch := PublisherView.registered_epoch v |>
             <| PublisherRegistration.evidence_generation := PublisherView.evidence_generation v |>
             <| PublisherRegistration.sampling_epoch := PublisherView.sampling_epoch v |> |>, ok_status)
    end.

Definition publish (o : Observation.t) (h : t) : t * result IngestionOutcome.t :=
  let '(h, o) := stamp_event o h in
  let '(s, outcome) := ingest (now h) o (observatory h) in
  let h := enter_observatory 1 s h in
  (tally (negb (bool_decide (IngestionOutcome.disposition outcome = IngestionDisposition.Rejected))) h,
   Ok outcome).

Definition publish_counter (p : CounterPublication.t) (h : t) : t * result CounterOutcome.t :=
  let '(h, p) := stamp_counter p h in
  let '(s, outcome) := ingest_counter (now h) p (observatory h) in
  let h := enter_observatory 1 s h in
  (tally (match outcome with Ok c => CounterOutcome.accepted c | Err _ => false end) h, outcome).

Definition publish_batch (os : list Observation.t) (h : t) : t * result BatchOutcome.t :=
  if Limits.kMaxBatchEvents <? zlen os
  then (h, fail ErrorCode.TooLarge "batch exceeds the maximum event count")
  else
    let '(s, outcome) := ingest_batch (now h) os (observatory h) in
    (enter_observatory 1 s h, outcome).

(** The registrar forwards to the observatory; an operation that fails leaves the
    observatory as it was. *)
Definition forward (operation : Z → State.t → result State.t) (h : t) : t * result unit :=
  match operation (now h) (observatory h) with
  | Ok s => (enter_observatory 1 s h, ok_status)
  | Err e => (enter_observatory 1 (observatory h) h, Err e)
  end.

Definition bump_topology (reason : string) (h : t) : t * result Z :=
  match bump_topology_generation (now h) reason (observatory h) with
  | Ok (s, g) => (enter_observatory 1 s h, Ok g)
  | Err e => (enter_observatory 1 (observatory h) h, Err e)
  end.

Definition host_sink : IngestionSink.t t := {|
  IngestionSink.publish := publish;
  IngestionSink.publish_counter := publish_counter;
  IngestionSink.publisher_id h := PublisherRegistration.id (registration h);
  IngestionSink.publisher_boot h := PublisherRegistration.boot (registration h);
  IngestionSink.coordinator_epoch := coordinator_epoch;
  IngestionSink.next_sequence := next_sequence;
|}.

Definition host_registrar : StructureRegistrar.t t := {|
  StructureRegistrar.bump_topology := bump_topology;
  StructureRegistrar.register_node r := forward (λ now, register_node now r);
  StructureRegistrar.register_processor r := forward (λ now, register_processor now r);
  StructureRegistrar.register_accelerator r := forward (λ now, register_accelerator now r);
  StructureRegistrar.register_memory_domain r := forward (λ now, register_memory_domain now r);
  StructureRegistrar.register_coherence_domain r := forward (λ now, register_coherence_domain now r);
  StructureRegistrar.register_region r := forward (λ now, register_region now r);
  StructureRegistrar.retire_region name g reason := forward (λ now, retire_region now name g reason);
  StructureRegistrar.set_topology_link l := forward (λ _, set_topology_link l);
  StructureRegistrar.set_capability c := forward (λ _, set_capability c);
  StructureRegistrar.set_cost_model m := forward (λ _, set_cost_model m);
  StructureRegistrar.coordinator_epoch := coordinator_epoch;
  StructureRegistrar.topology_generation := topology_generation;
|}.
End host.
End LocalPublisherHost.
Abbreviation Host := LocalPublisherHost.t.

(** ** What the host's operations do to the observatory

    A relation on environments that every operation of a sink and a registrar
    respects is respected by whatever is built from them. *)

Module SinkRespects.
Record t {E} (R : relation E) (s : IngestionSink.t E) : Prop := {
  publish : ∀ o e, R e (IngestionSink.publish s o e).1;
  publish_counter : ∀ p e, R e (IngestionSink.publish_counter s p e).1;
  next_sequence : ∀ e, R e (IngestionSink.next_sequence s e).1;
}.
End SinkRespects.

Module RegistrarRespects.
Record t {E} (R : relation E) (r : StructureRegistrar.t E) : Prop := {
  bump_topology : ∀ x e, R e (StructureRegistrar.bump_topology r x e).1;
  register_node : ∀ x e, R e (StructureRegistrar.register_node r x e).1;
  register_processor : ∀ x e, R e (StructureRegistrar.register_processor r x e).1;
  register_accelerator : ∀ x e, R e (StructureRegistrar.register_accelerator r x e).1;
  register_memory_domain : ∀ x e, R e (StructureRegistrar.register_memory_domain r x e).1;
  register_coherence_domain : ∀ x e, R e (StructureRegistrar.register_coherence_domain r x e).1;
  register_region : ∀ x e, R e (StructureRegistrar.register_region r x e).1;
  retire_region : ∀ x g y e, R e (StructureRegistrar.retire_region r x g y e).1;
  set_topology_link : ∀ x e, R e (StructureRegistrar.set_topology_link r x e).1;
  set_capability : ∀ x e, R e (StructureRegistrar.set_capability r x e).1;
}.
End RegistrarRespects.

(** A list of operations of the observatory leads from one host to the other. *)
Definition advances (h h' : Host) : Prop :=
  ∃ ops, LocalPublisherHost.observatory h' = run ops (LocalPublisherHost.observatory h).

#[global] Instance advances_refl : Reflexive advances.
Proof. intros h. by exists []. Qed.
#[global] Instance advances_trans : Transitive advances.
Proof. intros h1 h2 h3 [o1 E1] [o2 E2]. exists (o1 ++ o2). unfold run in *. by rewrite foldl_app, <-E1. Qed.
#[global] Instance advances_preorder : PreOrder advances.
Proof. split; apply _. Qed.

Lemma advances_one op h h' :
  LocalPublisherHost.observatory h' = exec op (LocalPublisherHost.observatory h) → advances h h'.
Proof. by exists [op]. Qed.
Lemma advances_same h h' :
  LocalPublisherHost.observatory h' = LocalPublisherHost.observatory h → advances h h'.
Proof. by exists []. Qed.

Module HostFacts.
Import LocalPublisherHost.

Lemma tally_observatory b h : observatory (tally b h) = observatory h.
Proof. by destruct b. Qed.

(** Allocating a sequence touches only the host's counter. *)
Lemma allocate_sequence_frame n h :
  ∃ next, (allocate_sequence n h).1 = h <| next_sequence_ := next |>.
Proof.
  unfold allocate_sequence. repeat case_match; eexists; [reflexivity..|].
  by instantiate (1 := next_sequence_ h); destruct h.
Qed.

(** Stamping touches only the two counters of the host. *)
Lemma stamp_event_sequence_frame o h :
  ∃ next, (stamp_event_sequence o h).1 = h <| next_sequence_ := next |>.
Proof.
  unfold stamp_event_sequence. case_match.
  - destruct (allocate_sequence_frame (Observation.sequence o) h) as [next E].
    destruct (allocate_sequence _ _) as [h' n]. by exists next.
  - exists (next_sequence_ h). by destruct h.
Qed.

Lemma stamp_event_frame o h :
  ∃ next event, (stamp_event o h).1 = h <| next_sequence_ := next |> <| next_event_id_ := event |>.
Proof.
  unfold stamp_event, stamp_event_identity. destruct (Options.auto_event_id (options h) && _).
  - destruct (stamp_event_sequence_frame ((stamp_event_authority h o) <| Observation.event_id := next_event_id_ h |>)
      (h <| next_event_id_ := next_id (next_event_id_ h) |>)) as [next ->]. by eexists _, _.
  - destruct (stamp_event_sequence_frame (stamp_event_authority h o) h) as [next ->].
    exists next, (next_event_id_ h). by destruct h.
Qed.

Lemma stamp_counter_frame p h : ∃ next, (stamp_counter p h).1 = h <| next_sequence_ := next |>.
Proof.
  unfold stamp_counter. case_match.
  - destruct (allocate_sequence_frame (CounterPublication.sequence (stamp_counter_authority h p)) h) as [next E].
    destruct (allocate_sequence _ _) as [h' n]. cbn [fst] in *. rewrite E. by exists next.
  - exists (next_sequence_ h). by destruct h.
Qed.

Section facts.
Context (clock : nat → Z).

Lemma publish_advances o h : advances h (publish clock o h).1.
Proof.
  unfold publish. destruct (stamp_event_frame o h) as (next & event & E).
  destruct (stamp_event o h) as [h1 o1]. cbn [fst] in E.
  destruct (ingest (now clock h1) o1 (observatory h1)) as [s r] eqn:Ei. cbn [fst].
  apply (advances_one (Ingest (now clock h1) o1)). rewrite tally_observatory. cbn [exec].
  subst h1. cbn in Ei |- *. by rewrite Ei.
Qed.

Lemma publish_counter_advances p h : advances h (publish_counter clock p h).1.
Proof.
  unfold publish_counter. destruct (stamp_counter_frame p h) as (next & E).
  destruct (stamp_counter p h) as [h1 p1]. cbn [fst] in E.
  destruct (ingest_counter (now clock h1) p1 (observatory h1)) as [s r] eqn:Ei. cbn [fst].
  apply (advances_one (IngestCounter (now clock h1) p1)). rewrite tally_observatory. cbn [exec].
  subst h1. cbn in Ei |- *. by rewrite Ei.
Qed.

Lemma publish_batch_advances os h : advances h (publish_batch clock os h).1.
Proof.
  unfold publish_batch. case_match; [by apply advances_same|].
  destruct (ingest_batch (now clock h) os (observatory h)) as [s r] eqn:Ei.
  apply (advances_one (IngestBatch (now clock h) os)). cbn. by rewrite Ei.
Qed.

Lemma forward_advances operation op h :
  (∀ s, exec op s = commit s (operation (now clock h) s)) → advances h (forward clock operation h).1.
Proof.
  intros Hop. apply (advances_one op). rewrite Hop. unfold forward.
  by destruct (operation (now clock h) (observatory h)).
Qed.

Lemma bump_topology_advances reason h : advances h (bump_topology clock reason h).1.
Proof.
  apply (advances_one (BumpTopology (now clock h) reason)). unfold bump_topology. cbn [exec].
  by destruct (bump_topology_generation (now clock h) reason (observatory h)) as [[]|].
Qed.

Lemma start_advances fresh h : advances h (start clock fresh h).1.
Proof.
  unfold start. case_match; [done|]. cbn zeta.
  set (g := (registration h) <| PublisherRegistration.boot ::= fill fresh |>).
  apply (advances_one (RegisterPublisher (clock (ticks h)) (clock (S (ticks h))) g)). cbn [exec].
  change (observatory (h <| registration := g |>)) with (observatory h).
  change (now clock (h <| registration := g |>)) with (clock (ticks h)).
  change (ticks (h <| registration := g |>)) with (ticks h).
  by destruct (register_publisher (clock (ticks h)) (clock (S (ticks h))) g (observatory h)) as [s []].
Qed.

Lemma host_sink_respects : SinkRespects.t advances (host_sink clock).
Proof.
  constructor; cbn; [apply publish_advances|apply publish_counter_advances|].
  intros h. by apply advances_same.
Qed.

Lemma host_registrar_respects : RegistrarRespects.t advances (host_registrar clock).
Proof.
  constructor; cbn; intros.
  - apply bump_topology_advances.
  - by apply (forward_advances _ (RegisterNode (now clock e) x)).
  - by apply (forward_advances _ (RegisterProcessor (now clock e) x)).
  - by apply (forward_advances _ (RegisterAccelerator (now clock e) x)).
  - by apply (forward_advances _ (RegisterMemoryDomain (now clock e) x)).
  - by apply (forward_advances _ (RegisterCoherenceDomain (now clock e) x)).
  - by apply (forward_advances _ (RegisterRegion (now clock e) x)).
  - by apply (forward_advances _ (RetireRegion (now clock e) x g y)).
  - by apply (forward_advances _ (SetTopologyLink x)).
  - by apply (forward_advances _ (SetCapability x)).
Qed.
End facts.
End HostFacts.

(** ** A stream of events through the host *)

(** An observation with authority, a fresh sequence and a fresh event identity is
    accepted in order. *)
Lemma ingest_accepts now o s p :
  validate_observation_structure o = Ok tt →
  State.publishers s !! Observation.source_publisher o = Some p →
  PublisherView.boot (PublisherState.view p) = Observation.publisher_boot o →
  Observation.coordinator_epoch o = State.coordinator_epoch s →
  PublisherView.current (PublisherState.view p) = true →
  PublisherView.fenced (PublisherState.view p) = false →
  (PublisherState.has_watermark p = true → PublisherState.high_watermark p < Observation.sequence o) →
  Memory.table (PublisherState.recent_events p) !! Observation.event_id o = None →
  let d := account_sequence p (Observation.sequence o) (content_hash o) in
  ingest now o s = accept_observation now o (content_hash o) d p s
  ∧ SequenceDecision.disposition d = IngestionDisposition.Accepted
  ∧ SequenceDecision.missing d
    = if PublisherState.has_watermark p
      then Observation.sequence o - PublisherState.high_watermark p - 1 else 0.
Proof.
  intros Hv Hp Hb He Hc Hf Hs Hm d. subst d.
  assert (Hd : SequenceDecision.disposition
      (account_sequence p (Observation.sequence o) (content_hash o)) = IngestionDisposition.Accepted
    ∧ SequenceDecision.missing (account_sequence p (Observation.sequence o) (content_hash o))
      = if PublisherState.has_watermark p
        then Observation.sequence o - PublisherState.high_watermark p - 1 else 0).
  { unfold account_sequence. destruct (PublisherState.has_watermark p); [|done]. specialize (Hs eq_refl).
    destruct (Z.leb_spec (Observation.sequence o) (PublisherState.high_watermark p)); [lia|].
    destruct (Z.ltb_spec (PublisherState.high_watermark p) (Observation.sequence o)); [|lia].
    by rewrite andb_false_r. }
  destruct Hd as [Hd Hn]. split; [|done].
  unfold ingest, ingest_locked. rewrite Hv, Hp. unfold refuse_authority, conflicting_event.
  by rewrite Hb, He, Hc, Hf, Hm, !Z.eqb_refl, Hd.
Qed.

(** Which sequence and which event identity an observation carries does not matter
    to its validity, nor do the stamps that are not validated. *)
Lemma validity_ignores_stamps o o' :
  o' = o <| Observation.event_id := Observation.event_id o' |>
         <| Observation.sequence := Observation.sequence o' |>
         <| Observation.coordinator_epoch := Observation.coordinator_epoch o' |>
         <| Observation.sampling_epoch := Observation.sampling_epoch o' |>
         <| Observation.evidence_generation := Observation.evidence_generation o' |>
         <| Observation.topology_generation := Observation.topology_generation o' |> →
  Observation.event_id o' ≠ 0 → Observation.sequence o' ≠ 0 →
  validate_observation_structure o = Ok tt → validate_observation_structure o' = Ok tt.
Proof.
  intros -> He Hs H. unfold validate_observation_structure in *.
  apply seq_Ok in H as [_ H]. apply seq_Ok. split; [apply reject_if_Ok; unfold is_zero; by apply Z.eqb_neq|].
  do 5 (apply seq_Ok in H as [? H]; apply seq_Ok; split; [assumption|]).
  apply seq_Ok in H as [_ H]. apply seq_Ok. split; [apply reject_if_Ok; unfold is_zero; by apply Z.eqb_neq|].
  exact H.
Qed.

Module HostStream.
Import LocalPublisherHost.

(** What [publish] stamps on an observation that carries no identity of its own. *)
Definition unstamped (o : Observation.t) : Prop :=
  Observation.event_id o = 0 ∧ Observation.sequence o = 0 ∧ Observation.coordinator_epoch o = 0.

(** An observation whose content is valid for the publisher [g]. *)
Definition publishable (g : PublisherRegistration.t) (o : Observation.t) : Prop :=
  validate_observation_structure
    (o <| Observation.event_id := 1 |> <| Observation.sequence := 1 |>
       <| Observation.source_publisher := PublisherRegistration.id g |>
       <| Observation.publisher_boot := PublisherRegistration.boot g |>) = Ok tt.

(** The host is registered under its own boot, and all it has published so far are
    the sequences and event identities below its counters. *)
Record ready (h : Host) : Prop := {
  rd_options : options h = Options.default;
  rd_next : 0 < next_sequence_ h;
  rd_event : 0 < next_event_id_ h;
  rd_publisher : ∃ p,
    State.publishers (observatory h) !! PublisherRegistration.id (registration h) = Some p
    ∧ PublisherView.boot (PublisherState.view p) = PublisherRegistration.boot (registration h)
    ∧ PublisherView.current (PublisherState.view p) = true
    ∧ PublisherView.fenced (PublisherState.view p) = false
    ∧ sequence_inv p
    ∧ (PublisherState.has_watermark p = true →
       PublisherState.high_watermark p + 1 = next_sequence_ h)
    ∧ ∀ k, k ∈ Memory.order (PublisherState.recent_events p) → k < next_event_id_ h;
}.

(** The observation as the observatory receives it. *)
Definition stamped (h : Host) (o : Observation.t) : Observation.t :=
  (stamp_event_authority h o) <| Observation.event_id := next_event_id_ h |>
    <| Observation.sequence := next_sequence_ h |>.

(** The authority stamps leave the identities alone. *)
Lemma authority_identity h o :
  Observation.event_id (stamp_event_authority h o) = Observation.event_id o
  ∧ Observation.sequence (stamp_event_authority h o) = Observation.sequence o.
Proof. unfold stamp_event_authority. split; by repeat case_match. Qed.

Lemma stamp_event_unstamped o h :
  options h = Options.default → unstamped o →
  stamp_event o h
  = (h <| next_event_id_ := next_id (next_event_id_ h) |>
       <| next_sequence_ := next_id (next_sequence_ h) |>, stamped h o).
Proof.
  intros Ho (He & Hs & _). destruct (authority_identity h o) as [Ee Es]. rewrite He in Ee. rewrite Hs in Es.
  unfold stamp_event, stamped. set (o1 := stamp_event_authority h o) in *. clearbody o1.
  unfold stamp_event_identity. rewrite Ho, Ee. cbn [Options.auto_event_id Options.default andb is_zero Z.eqb].
  unfold stamp_event_sequence, allocate_sequence.
  change (options (h <| next_event_id_ := next_id (next_event_id_ h) |>)) with (options h).
  change (Observation.sequence (o1 <| Observation.event_id := next_event_id_ h |>)) with (Observation.sequence o1).
  rewrite Ho, Es. reflexivity.
Qed.

Lemma stamped_valid h o :
  options h = Options.default → unstamped o → 0 < next_sequence_ h → 0 < next_event_id_ h →
  publishable (registration h) o → validate_observation_structure (stamped h o) = Ok tt.
Proof.
  intros Ho Hu Hn He. unfold publishable. apply validity_ignores_stamps.
  - unfold stamped, stamp_event_authority. rewrite Ho. by destruct o.
  - cbn. lia.
  - cbn. lia.
Qed.

Lemma commit_event_id_order e h p k :
  sequence_inv p → k ∈ Memory.order (PublisherState.recent_events (commit_event_id e h p)) →
  k = e ∨ k ∈ Memory.order (PublisherState.recent_events p).
Proof.
  intros (_ & Hr & _) Hk.
  destruct (MemoryFacts.remember_spec Limits.kMaxRecentEventIds e h (PublisherState.recent_events p))
    as [_ Hcase]; [done..|]. cbn in Hk.
  destruct (Memory.table (PublisherState.recent_events p) !! e).
  - rewrite Hcase in Hk. by right.
  - destruct Hcase as (_ & (ev & E & _) & _).
    assert (Hin : k ∈ Memory.order (PublisherState.recent_events p) ++ [e]).
    { rewrite E. apply elem_of_app. by right. }
    apply elem_of_app in Hin as [?|Hin]; [by right|]. left. by apply list_elem_of_singleton in Hin.
Qed.

(** One event: accepted in order, without a gap, and the host stays ready. *)
Lemma publish_ready clock o h :
  ready h → unstamped o → publishable (registration h) o →
  next_sequence_ h < u64_max → next_event_id_ h < u64_max →
  ∃ h' r, publish clock o h = (h', Ok r)
    ∧ IngestionOutcome.disposition r = IngestionDisposition.Accepted
    ∧ IngestionOutcome.missing_sequences r = 0
    ∧ ready h' ∧ registration h' = registration h
    ∧ next_sequence_ h' = next_sequence_ h + 1 ∧ next_event_id_ h' = next_event_id_ h + 1
    ∧ accepted_ h' = incr (accepted_ h) ∧ rejected_ h' = rejected_ h
    ∧ ∃ e, last (State.journal (observatory h')) = Some e
        ∧ content_hash (JournalEntry.observation e) = content_hash (stamped h o).
Proof.
  intros [Ho Hn He (p & Hp & Hb & Hc & Hf & Hi & Hw & Hm)] Hu Hv Hn' He'.
  assert (En : next_id (next_sequence_ h) = next_sequence_ h + 1) by (apply u64_add_small; unfold in_u64; lia).
  assert (Ee : next_id (next_event_id_ h) = next_event_id_ h + 1) by (apply u64_add_small; unfold in_u64; lia).
  unfold publish. rewrite stamp_event_unstamped, En, Ee by done. cbn [fst snd].
  set (o1 := stamped h o).
  assert (Hid : Observation.source_publisher o1 = PublisherRegistration.id (registration h)
    ∧ Observation.publisher_boot o1 = PublisherRegistration.boot (registration h)
    ∧ Observation.coordinator_epoch o1 = State.coordinator_epoch (observatory h)
    ∧ Observation.sequence o1 = next_sequence_ h ∧ Observation.event_id o1 = next_event_id_ h).
  { unfold o1, stamped, stamp_event_authority. rewrite Ho. destruct Hu as (_ & _ & E). destruct o. cbn in *.
    by rewrite E. }
  assert (Hvalid : validate_observation_structure o1 = Ok tt) by (by apply stamped_valid).
  clearbody o1. destruct Hid as (E1 & E2 & E3 & E4 & E5).
  set (h1 := h <| next_event_id_ := _ |> <| next_sequence_ := _ |>).
  change (observatory h1) with (observatory h).
  destruct (ingest_accepts (now clock h1) o1 (observatory h) p) as (-> & Hd & Hmiss);
    [done|by rewrite E1|by rewrite E2|done|done|done|intros E; rewrite E4; specialize (Hw E); lia| |].
  { rewrite E5. destruct (Memory.table (PublisherState.recent_events p) !! next_event_id_ h) eqn:E; [|done].
    destruct Hi as (_ & (_ & Hdom & _) & _).
    assert (H : next_event_id_ h ∈ Memory.order (PublisherState.recent_events p)) by (apply Hdom; eauto).
    apply Hm in H. lia. }
  set (d := account_sequence _ _ _) in *.
  destruct (accept_observation_eq (now clock h1) o1 (content_hash o1) d p (observatory h))
    as (Es & Ed & _ & _ & Emiss).
  pose proof (accept_publishers (now clock h1) o1 (content_hash o1) d p (observatory h)) as Epub.
  destruct (accept_observation _ _ _ d p _) as [s r]. cbn [fst snd] in *.
  assert (Hz : SequenceDecision.missing d = 0).
  { rewrite Hmiss. destruct (PublisherState.has_watermark p); [|done]. specialize (Hw eq_refl). lia. }
  eexists _, r. split; [reflexivity|]. rewrite Ed, Hd. rewrite bool_decide_false by done. cbn [negb].
  split; [done|]. split; [by rewrite Emiss|]. split; [|do 5 (split; [reflexivity|])].
  - constructor; [exact Ho|cbn; lia|cbn; lia|]. exists (accepted_publisher (now clock h1) o1 (content_hash o1) d p).
    destruct (accepted_publisher_view (now clock h1) o1 (content_hash o1) d p) as (_ & V2 & V3 & V4 & _).
    split_and!; [|by rewrite V2|by rewrite V3|by rewrite V4|by apply accepted_publisher_inv| |].
    + change (State.publishers s !! PublisherRegistration.id (registration h)
        = Some (accepted_publisher (now clock h1) o1 (content_hash o1) d p)).
      by rewrite Epub, E1, lookup_insert_eq.
    + intros _. destruct (commit_sequence_fields (Observation.sequence o1) (content_hash o1) p) as (_ & Eh & _).
      change (PublisherState.high_watermark (commit_sequence (Observation.sequence o1) (content_hash o1) p) + 1
        = next_sequence_ h + 1).
      rewrite Eh, E4. destruct (PublisherState.has_watermark p); [specialize (Hw eq_refl)|]; lia.
    + intros k Hk. change (k < next_event_id_ h + 1). change (k ∈ Memory.order (PublisherState.recent_events
        (commit_event_id (Observation.event_id o1) (content_hash o1)
           (commit_sequence (Observation.sequence o1) (content_hash o1) p)))) in Hk.
      apply commit_event_id_order in Hk; [|by apply commit_sequence_inv].
      destruct Hk as [->|Hk]; [rewrite E5; lia|].
      destruct (commit_sequence_fields (Observation.sequence o1) (content_hash o1) p) as (_ & _ & _ & Er & _).
      rewrite Er in Hk. apply Hm in Hk. lia.
  - match goal with |- ∃ e, last ?j = _ ∧ _ => change j with (State.journal s) end.
    rewrite Es, apply_observation_journal. eexists. split; [reflexivity|]. apply annotated_hash.
Qed.

Fixpoint publish_all (clock : nat → Z) (os : list Observation.t) (h : Host)
    : Host * list (result IngestionOutcome.t) :=
  match os with
  | [] => (h, [])
  | o :: rest =>
      let '(h, r) := publish clock o h in
      let '(h, rs) := publish_all clock rest h in (h, r :: rs)
  end.

(** Accepted in order, with no sequence missing before it. *)
Definition accepted_in_order (r : result IngestionOutcome.t) : Prop :=
  ∃ out, r = Ok out ∧ IngestionOutcome.disposition out = IngestionDisposition.Accepted
    ∧ IngestionOutcome.missing_sequences out = 0.

Lemma publish_all_ready clock os : ∀ h,
  ready h → Forall unstamped os → Forall (publishable (registration h)) os →
  next_sequence_ h + zlen os ≤ u64_max → next_event_id_ h + zlen os ≤ u64_max →
  0 ≤ accepted_ h → accepted_ h + zlen os ≤ u64_max →
  ∃ h' rs, publish_all clock os h = (h', rs)
    ∧ length rs = length os ∧ Forall accepted_in_order rs ∧ ready h'
    ∧ next_sequence_ h' = next_sequence_ h + zlen os
    ∧ accepted_ h' = accepted_ h + zlen os ∧ rejected_ h' = rejected_ h.
Proof.
  induction os as [|o os IH]; intros h Hr Hu Hv Hn He H0 Ha; cbn [publish_all].
  - exists h, []. rewrite zlen_nil, !Z.add_0_r. by split_and!.
  - rewrite zlen_cons in *. pose proof (zlen_nonneg os).
    apply Forall_cons in Hu as [Hu1 Hu]. apply Forall_cons in Hv as [Hv1 Hv].
    destruct (publish_ready clock o h Hr Hu1 Hv1) as (h1 & r & -> & Hd & Hm & Hr1 & Eg & En & Ee & Ea & Ej & _);
      [lia|lia|].
    assert (Ei : accepted_ h1 = accepted_ h + 1) by (rewrite Ea; apply u64_add_small; unfold in_u64; lia).
    destruct (IH h1) as (h2 & rs & -> & Hl & Hf & Hr2 & E1 & E2 & E3); [done|done|by rewrite Eg|lia..|].
    exists h2, (Ok r :: rs). split; [reflexivity|]. split; [cbn; congruence|].
    split; [constructor; [by exists r|done]|]. split; [done|].
    split; [lia|]. split; [lia|congruence].
Qed.

(** Registering a publisher nobody knows. *)
Lemma start_ready clock fresh s g :
  let g' := g <| PublisherRegistration.boot ::= fill fresh |> in
  validate_registration g' = Ok tt →
  PublisherRegistration.coordinator_epoch g = 0 →
  State.publishers s !! PublisherRegistration.id g = None →
  zsize (State.publishers s) < Limits.kMaxPublisherCount →
  State.watermarks s !! boot_key (PublisherRegistration.id g) (PublisherRegistration.boot g') = None →
  ∃ h, start clock fresh (make s g Options.default) = (h, ok_status) ∧ ready h
    ∧ PublisherRegistration.id (registration h) = PublisherRegistration.id g
    ∧ PublisherRegistration.boot (registration h) = PublisherRegistration.boot g'
    ∧ next_sequence_ h = 1 ∧ next_event_id_ h = 1 ∧ accepted_ h = 0 ∧ rejected_ h = 0.
Proof.
  intros g' Hv He Hp Hc Hw. unfold start.
  assert (Hid : sempty (PublisherRegistration.id g) = false).
  { unfold validate_registration in Hv. apply seq_Ok in Hv as [Hv _].
    apply validate_identity_token_ok in Hv as [[Hl _] _]. apply slen_pos. exact Hl. }
  change (registration (make s g Options.default)) with g. rewrite Hid. cbn zeta. fold g'.
  change (observatory ((make s g Options.default) <| registration := g' |>)) with s.
  unfold register_publisher. rewrite Hv.
  change (PublisherRegistration.coordinator_epoch g') with (PublisherRegistration.coordinator_epoch g).
  rewrite He. cbn [is_zero Z.eqb negb andb]. unfold admit_boot.
  change (PublisherRegistration.id g') with (PublisherRegistration.id g). rewrite Hp.
  rewrite (proj2 (Z.leb_gt _ _)) by done.
  change (reject_if false ErrorCode.TooMany "publisher capacity reached") with (Ok tt).
  cbv beta iota. cbn [mbind result_bind]. cbv beta iota. rewrite Hw. cbn [is_fenced_watermark].
  unfold install_publisher. change (PublisherRegistration.id g') with (PublisherRegistration.id g).
  rewrite Hp, Hw. cbn [default]. set (p := if negb _ then _ else _). cbv beta iota zeta.
  eexists. split; [reflexivity|].
  assert (Hf : sequence_inv p ∧ PublisherState.has_watermark p = false
    ∧ PublisherState.recent_events p = Memory.empty
    ∧ PublisherView.boot (PublisherState.view p) = PublisherRegistration.boot g'
    ∧ PublisherView.current (PublisherState.view p) = true
    ∧ PublisherView.fenced (PublisherState.view p) = false).
  { subst p. case_match; split_and!; try done; [apply rebind_inv|apply sequence_inv_empty]. }
  clearbody p. destruct Hf as (F1 & F2 & F3 & F4 & F5 & F6).
  split; [|by split_and!]. constructor; [done|done|done|]. exists p. split; [apply lookup_insert_eq|].
  split_and!; try done; [by rewrite F2|]. intros k. rewrite F3. cbn. intros Hk. by apply elem_of_nil in Hk.
Qed.
End HostStream.

(** Claim C37.  A host publishes without loss: started on an observatory that does not
    know its publisher, it registers, and then every event handed to it without an
    identity of its own and with valid content is accepted, in order, under the next
    sequence and with no sequence missing before it, whatever the clock shows; its
    counters account for all of them. *)
Theorem host_stream_accepted (clock : nat → Z) (fresh : Z) (s : State.t)
    (g : PublisherRegistration.t) (os : list Observation.t) :
  let g' := g <| PublisherRegistration.boot ::= LocalPublisherHost.fill fresh |> in
  validate_registration g' = Ok tt →
  PublisherRegistration.coordinator_epoch g = 0 →
  State.publishers s !! PublisherRegistration.id g = None →
  zsize (State.publishers s) < Limits.kMaxPublisherCount →
  State.watermarks s !! boot_key (PublisherRegistration.id g) (PublisherRegistration.boot g') = None →
  Forall HostStream.unstamped os → Forall (HostStream.publishable g') os → zlen os < u64_max →
  ∃ h h' rs,
    LocalPublisherHost.start clock fresh
      (LocalPublisherHost.make s g LocalPublisherHost.Options.default) = (h, Ok tt)
    ∧ HostStream.publish_all clock os h = (h', rs)
    ∧ length rs = length os ∧ Forall HostStream.accepted_in_order rs
    ∧ LocalPublisherHost.next_sequence_ h' = 1 + zlen os
    ∧ LocalPublisherHost.accepted_ h' = zlen os ∧ LocalPublisherHost.rejected_ h' = 0.
Proof.
  intros g' Hv He Hp Hc Hw Hu Hf Hl.
  destruct (HostStream.start_ready clock fresh s g Hv He Hp Hc Hw)
    as (h & Hs & Hr & Eid & Eb & En & Ee & Ea & Ej).
  destruct (HostStream.publish_all_ready clock os h Hr Hu) as (h' & rs & Hpub & Hlen & Hall & _ & E1 & E2 & E3);
    [|rewrite ?En, ?Ee, ?Ea; lia..|].
  - eapply Forall_impl; [exact Hf|]. intros o. unfold HostStream.publishable. by rewrite Eid, Eb.
  - exists h, h', rs. split; [exact Hs|]. split; [exact Hpub|]. split; [done|]. split; [done|].
    rewrite E1, E2, E3, En, Ea, Ej. done.
Qed.

(** A publisher without a boot identity of its own, and two events. *)
Definition local_registration : PublisherRegistration.t :=
  PublisherRegistration.mk "pub.local" 0 "" "" "local" 0 0 0 Provenance.SyntheticBackend.
Definition local_event : Observation.t :=
  Observation.empty <| Observation.type := EventType.RemoteRead |>
    <| Observation.timestamp_ns := 5 |> <| Observation.bytes := 64 |>.

Lemma host_stream_accepted_witness :
  ∃ h h' rs,
    LocalPublisherHost.start (λ n, 10 + Z.of_nat n) 7
      (LocalPublisherHost.make (make_observatory 1 ObservatoryOptions.default) local_registration
         LocalPublisherHost.Options.default) = (h, Ok tt)
    ∧ HostStream.publish_all (λ n, 10 + Z.of_nat n) [local_event; local_event] h = (h', rs)
    ∧ length rs = 2%nat.
Proof.
  destruct (host_stream_accepted (λ n, 10 + Z.of_nat n) 7 (make_observatory 1 ObservatoryOptions.default)
    local_registration [local_event; local_event]) as (h & h' & rs & Hs & Hp & Hl & _).
  - by vm_compute.
  - reflexivity.
  - by vm_compute.
  - by vm_compute.
  - by vm_compute.
  - repeat constructor.
  - repeat constructor.
  - by vm_compute.
  - exists h, h', rs. exact (conj Hs (conj Hp Hl)).
Defined.

(** ** The collector runner *)

Module CollectorRunner.
Record t {E C : Type} := mk {
  collectors : list (Collector.t E C * C); running : bool; sweeps : Z; errors : Z;
  context : CollectorContext.t E;
}.
#[global] Arguments t : clear implicits.

Section runner.
Context {E C : Type}.
#[global] Instance eta : Eta (t E C) := fun r =>
  mk E C (collectors r) (running r) (sweeps r) (errors r) (context r).
Definition make : t E C := mk E C [] false 0 0 (CollectorContext.mk None None 0 256).

(** A null pointer is [None]. *)
Definition add (collector : option (Collector.t E C * C)) (r : t E C) : t E C * result unit :=
  match collector with
  | None => (r, fail ErrorCode.InvalidArgument "collector is null")
  | Some c =>
      if running r then (r, fail ErrorCode.Busy "collector runner is already running")
      else if Limits.kMaxThreads <=? zlen (collectors r)
      then (r, fail ErrorCode.TooMany "collector capacity reached")
      else (r <| collectors ::= λ l, l ++ [c] |>, ok_status)
  end.

(** The loop of [start] returns at the first collector that fails to start. *)
Fixpoint start_all (ctx : CollectorContext.t E) (cs : list (Collector.t E C * C)) (e : E)
    : (list (Collector.t E C * C) * E) * result unit :=
  match cs with
  | [] => (([], e), ok_status)
  | (c, data) :: rest =>
      match Collector.start c ctx (data, e) with
      | ((data, e), Ok _) =>
          let '((rest, e), status) := start_all ctx rest e in (((c, data) :: rest, e), status)
      | ((data, e), Err err) =>
          (((c, data) :: rest, e),
           fail (Error.code err) ("collector failed to start: " +:+ Error.describe err))
      end
  end.

Definition start (sink : option (IngestionSink.t E)) (registrar : option (StructureRegistrar.t E))
    (seed : Z) (r : t E C) (e : E) : (t E C * E) * result unit :=
  match sink with
  | None => ((r, e), fail ErrorCode.InvalidArgument "ingestion sink is required")
  | Some _ =>
      if running r then ((r, e), fail ErrorCode.AlreadyExists "collector runner is already running")
      else
        let ctx := CollectorContext.mk sink registrar seed 256 in
        let r := r <| context := ctx |> in
        let '((cs, e), status) := start_all ctx (collectors r) e in
        let r := r <| collectors := cs |> in
        match status with
        | Ok _ => ((r <| running := true |>, e), ok_status)
        | Err err => ((r, e), Err err)
        end
  end.

(** The polls of one sweep; the stop request is seen before the [n]-th collector when
    [stop_at] is [Some n]. *)
Fixpoint poll_all (ctx : CollectorContext.t E) (stop_at : option nat)
    (cs : list (Collector.t E C * C)) (errs : Z) (e : E) : (list (Collector.t E C * C) * Z) * E :=
  match cs, stop_at with
  | [], _ | _, Some O => ((cs, errs), e)
  | (c, data) :: rest, _ =>
      let '((data, e), polled) := Collector.poll c ctx (data, e) in
      let errs := if is_ok polled then errs else incr errs in
      let '((rest, errs), e) := poll_all ctx (Nat.pred <$> stop_at) rest errs e in
      (((c, data) :: rest, errs), e)
  end.

Definition sweep (stop_at : option nat) (r : t E C) (e : E) : t E C * E :=
  let '((cs, errs), e) := poll_all (context r) stop_at (collectors r) (errors r) e in
  (r <| collectors := cs |> <| errors := errs |> <| sweeps ::= incr |>, e).

(** The worker thread: [k] whole sweeps; then the stop request is seen between two
    sweeps ([None]) or inside the next one. *)
Fixpoint sweep_n (k : nat) (r : t E C) (e : E) : t E C * E :=
  match k with
  | O => (r, e)
  | S k => let '(r, e) := sweep None r e in sweep_n k r e
  end.
Definition worker (k : nat) (stop_at : option nat) (r : t E C) (e : E) : t E C * E :=
  let '(r, e) := sweep_n k r e in
  match stop_at with None => (r, e) | Some n => sweep (Some n) r e end.

(** [stop], after the worker has been joined. *)
Definition stop (r : t E C) : t E C :=
  if running r
  then r <| running := false |> <| collectors ::= fmap (λ c, (c.1, Collector.stop c.1 c.2)) |>
  else r.
End runner.
End CollectorRunner.

Module RunnerFacts.
Import CollectorRunner.
Section facts.
Context {E C : Type}.
Implicit Types r : CollectorRunner.t E C.

Lemma start_all_ok ctx cs : ∀ (e : E),
  let '((cs', _), status) := start_all (C := C) ctx cs e in
  (status = ok_status ∨ ∃ err, status = Err err) ∧ length cs' = length cs ∧ cs'.*1 = cs.*1.
Proof.
  induction cs as [|[c data] cs IH]; intros e; cbn [start_all]; [by split_and!; [left|..]|].
  destruct (Collector.start c ctx (data, e)) as [[data' e'] [u|err]].
  - specialize (IH e'). destruct (start_all ctx cs e') as [[rest e2] status].
    destruct IH as (Hs & Hl & Hc). split_and!; [done|cbn; congruence|cbn; congruence].
  - split_and!; [right; eauto|done|done].
Qed.

(** Starting collectors one after the other, up to the first that fails. *)
Lemma start_all_app ctx cs : ∀ c data rest (e e1 : E) cs1 data2 e2 err,
  start_all (C := C) ctx cs e = ((cs1, e1), ok_status) →
  Collector.start c ctx (data, e1) = ((data2, e2), Err err) →
  start_all ctx (cs ++ (c, data) :: rest) e
  = ((cs1 ++ (c, data2) :: rest, e2),
     fail (Error.code err) ("collector failed to start: " +:+ Error.describe err)).
Proof.
  induction cs as [|[c0 d0] cs IH]; intros c data rest e e1 cs1 data2 e2 err; cbn [start_all app].
  - intros [= <- <-] ->. done.
  - destruct (Collector.start c0 ctx (d0, e)) as [[d' e'] [u|err']]; [|done].
    destruct (start_all ctx cs e') as [[rest' e3] status] eqn:Es. intros [= <- <- ->] Hc.
    rewrite (IH _ _ rest _ _ _ _ _ _ Es Hc). done.
Qed.

Lemma sweep_frame stop_at r (e : E) :
  running (sweep stop_at r e).1 = running r ∧ sweeps (sweep stop_at r e).1 = incr (sweeps r)
  ∧ context (sweep stop_at r e).1 = context r.
Proof. unfold sweep. by destruct (poll_all _ _ _ _ _) as [[cs errs] e']. Qed.

Lemma sweep_n_spec k : ∀ r (e : E),
  0 ≤ sweeps r → sweeps r + Z.of_nat k ≤ u64_max →
  sweeps (sweep_n k r e).1 = sweeps r + Z.of_nat k ∧ running (sweep_n k r e).1 = running r.
Proof.
  induction k as [|k IH]; intros r e H0 Hk; cbn [sweep_n]; [split; [cbn; lia|done]|].
  destruct (sweep_frame None r e) as (Hr & Hs & _). destruct (sweep None r e) as [r1 e1]. cbn [fst] in *.
  assert (E1 : sweeps r1 = sweeps r + 1) by (rewrite Hs; apply u64_add_small; unfold in_u64; lia).
  destruct (IH r1 e1) as [I1 I2]; [lia..|]. rewrite I1, I2, Hr. split; [lia|done].
Qed.
End facts.
End RunnerFacts.

(** A start that fails leaks the collectors already started: when the
    collectors before some position start and the one there does not, [start] reports
    the failure and leaves the earlier ones started, the runner is not running, and
    [stop] then does nothing, so no collector is ever told to stop. *)
Theorem failed_start_leaves_collectors_started {E C : Type} (r : CollectorRunner.t E C)
    (sink : IngestionSink.t E) (registrar : option (StructureRegistrar.t E)) (seed : Z)
    (before after started : list (Collector.t E C * C)) (c : Collector.t E C)
    (data data' : C) (e e1 e2 : E) (err : Error.t) :
  let ctx := CollectorContext.mk (Some sink) registrar seed 256 in
  CollectorRunner.running r = false →
  CollectorRunner.collectors r = before ++ (c, data) :: after →
  CollectorRunner.start_all ctx before e = ((started, e1), Ok tt) →
  Collector.start c ctx (data, e1) = ((data', e2), Err err) →
  let '((r', e'), status) := CollectorRunner.start (Some sink) registrar seed r e in
  code_of status = Error.code err ∧ e' = e2
  ∧ CollectorRunner.collectors r' = started ++ (c, data') :: after
  ∧ CollectorRunner.running r' = false ∧ CollectorRunner.stop r' = r'.
Proof.
  intros ctx Hr Hc Hs Hf. unfold CollectorRunner.start. rewrite Hr. cbn zeta. fold ctx.
  change (CollectorRunner.collectors (r <| CollectorRunner.context := ctx |>))
    with (CollectorRunner.collectors r).
  rewrite Hc, (RunnerFacts.start_all_app ctx before c data after e e1 started data' e2 err Hs Hf).
  cbn [fail]. unfold CollectorRunner.stop. cbn. by rewrite Hr.
Qed.

(** A collector that counts its starts, and one that cannot start. *)
Definition starting (ok : bool) : Collector.t unit Z :=
  Collector.mk "test" []
    (λ _ p, ((p.1 + 1, p.2), if ok then ok_status else fail ErrorCode.IoError "no device"))
    (λ _ p, (p, ok_status)) (λ _, 0).
Definition idle_sink : IngestionSink.t unit :=
  IngestionSink.mk unit (λ _ e, (e, fail ErrorCode.Busy "idle")) (λ _ e, (e, fail ErrorCode.Busy "idle"))
    (λ _, "pub.a"%string) (λ _, 1) (λ _, 1) (λ e, (e, 1)).

Lemma failed_start_leaves_collectors_started_witness :
  let r := CollectorRunner.make <| CollectorRunner.collectors := [(starting true, 0); (starting false, 0)] |> in
  let r' := (CollectorRunner.start (Some idle_sink) None 1 r tt).1.1 in
  (CollectorRunner.collectors (CollectorRunner.stop r')).*2 = [1; 1].
Proof.
  cbn zeta.
  pose proof (failed_start_leaves_collectors_started
    (CollectorRunner.make <| CollectorRunner.collectors := [(starting true, 0); (starting false, 0)] |>)
    idle_sink None 1 [(starting true, 0)] [] [(starting true, 1)] (starting false) 0 1 tt tt tt
    (Error.mk ErrorCode.IoError "no device" "") eq_refl eq_refl eq_refl eq_refl) as H.
  destruct (CollectorRunner.start _ _ _ _ _) as [[r' e'] status]. cbn [fst].
  destruct H as (_ & _ & Hc & _ & ->). by rewrite Hc.
Defined.
