(* ===== verification/Trace.v ===== *)
(** * The imported-trace backend

    [include/coherence/backends/imported_trace.hpp] and
    [src/backends/imported_trace.cpp]: the text format, its importer, its renderer and
    the collector around them.

    The importer publishes through an [IngestionSink] and registers through an optional
    [StructureRegistrar]; [E] is the environment they act on.  Reading a vector past its
    end has no defined result in C++; an import that does so has no result here
    ([None]). *)

From S2P Require Import Prelude Errors TextUtil Ids Taxonomy Records Observation.
From S2P Require Import Sequence Publishers Ingest Counters Host.
From Stdlib Require Import Ascii.

Definition kTraceMagic : string := "COBS-TRACE 1".

(** ** Text *)

Definition newline : ascii := "010".
(** [std::isspace] in the classic locale. *)
Definition is_space (c : ascii) : bool :=
  let n := N_of_ascii c in ((n =? 32) || ((9 <=? n) && (n <=? 13)))%N%bool.

(** [while (std::getline(stream, line))]: a last line without a newline counts. *)
Fixpoint getlines (s : string) : list string :=
  match s with
  | EmptyString => []
  | String c rest =>
      if decide (c = newline) then EmptyString :: getlines rest
      else match getlines rest with
           | [] => [String c EmptyString]
           | line :: lines => String c line :: lines
           end
  end.

(** [while (stream >> token)]. *)
Fixpoint tokenize (s : string) : list string :=
  match s with
  | EmptyString => []
  | String c rest =>
      if is_space c then tokenize rest
      else match rest with
           | EmptyString => [String c EmptyString]
           | String d _ =>
               if is_space d then String c EmptyString :: tokenize rest
               else match tokenize rest with
                    | [] => [String c EmptyString]
                    | token :: tokens => String c token :: tokens
                    end
           end
  end.

Fixpoint parse_digits (text : string) (result : Z) : option Z :=
  match text with
  | EmptyString => Some result
  | String c rest =>
      let n := byte_of c in
      if (n <? 48) || (57 <? n) then None
      else
        let digit := n - 48 in
        if (u64_max - digit) `div` 10 <? result then None
        else parse_digits rest (result * 10 + digit)
  end.
Definition parse_u64 (text : string) : option Z :=
  if sempty text then None else parse_digits text 0.

(** [static_cast<Nanos>]: the value as a signed 64-bit integer. *)
Definition to_nanos (v : Z) : Z := if v <? 2 ^ 63 then v else v - two64.

(** [text.find(c)] with the text before and after it. *)
Fixpoint split_at (c : ascii) (text : string) : option (string * string) :=
  match text with
  | EmptyString => None
  | String d rest =>
      if decide (d = c) then Some (EmptyString, rest)
      else match split_at c rest with
           | Some (before, after) => Some (String d before, after)
           | None => None
           end
  end.

(** [<KIND>:<id>] or [-]; [None] when malformed, [Some None] when absent. *)
Definition parse_resource (text : string) : option (option ResourceRef.t) :=
  if decide (text = "-") then Some None
  else
    match split_at ":" text with
    | None => None
    | Some (kind, id) =>
        match parse_from_table (E := ResourceKind.t) kind with
        | Err _ => None
        | Ok kind =>
            match validate_identity_token id with
            | Err _ => None
            | Ok _ => Some (Some (ResourceRef.mk kind id 1))
            end
        end
    end.

Fixpoint add_trailing_metadata (tokens : list string) (metadata : BoundedMetadata.t)
    : result BoundedMetadata.t :=
  match tokens with
  | [] => Ok metadata
  | token :: rest =>
      match split_at "=" token with
      | None | Some (EmptyString, _) =>
          fail_ctx ErrorCode.InvalidArgument "metadata token must be key=value" token
      | Some (key, value) =>
          metadata ← BoundedMetadata.add key value metadata;
          add_trailing_metadata rest metadata
      end
  end.

(** ** Reports *)

Module TraceImportReport.
Record t := mk {
  lines_read : Z; comments : Z; resources_registered : Z; regions_registered : Z;
  observations_published : Z; counters_published : Z; descriptions_skipped : Z; rejected : Z;
  diagnostics : list (Z * string);
}.
#[global] Instance eta : Eta t := fun r =>
  mk (lines_read r) (comments r) (resources_registered r) (regions_registered r)
    (observations_published r) (counters_published r) (descriptions_skipped r) (rejected r)
    (diagnostics r).
Definition empty : t := mk 0 0 0 0 0 0 0 0 [].
End TraceImportReport.

(** ** Lines

    The importer as it runs over one line: the environment, the report so far and the
    status of the line. *)

Section import.
Context {E : Type} (sink : IngestionSink.t E) (registrar : option (StructureRegistrar.t E)).

Definition outcome : Type := (E * TraceImportReport.t) * result unit.

(** The tokens of a line; the callers have checked that there are enough. *)
Definition tok (tokens : list string) (i : nat) : string := default ""%string (tokens !! i).

Definition malformed (message : string) : result unit := fail ErrorCode.InvalidArgument message.

(** A registration whose success counts [f]. *)
Definition register (f : TraceImportReport.t → TraceImportReport.t) (step : E → E * result unit)
    (e : E) (report : TraceImportReport.t) : outcome :=
  let '(e, status) := step e in
  ((e, match status with Ok _ => f report | Err _ => report end), status).

(** [T::parse] of an identity in front of a registration. *)
Definition with_id (token : string) (e : E) (report : TraceImportReport.t)
    (k : string → outcome) : outcome :=
  match validate_identity_token token with Err err => ((e, report), Err err) | Ok _ => k token end.

Definition skip_description (report : TraceImportReport.t) : TraceImportReport.t :=
  report <| TraceImportReport.descriptions_skipped ::= incr |>.

Definition import_node (tokens : list string) (e : E) (report : TraceImportReport.t) : outcome :=
  if zlen tokens <? 2 then ((e, report), malformed "node line needs an identity")
  else match registrar with
       | None => ((e, skip_description report), ok_status)
       | Some r =>
           with_id (tok tokens 1) e report (λ id,
             register (λ x, x)
               (StructureRegistrar.register_node r
                  (NodeRecord.mk id (if 2 <? zlen tokens then tok tokens 2 else ""%string) 0)) e report)
       end.

Definition count_resource (r : TraceImportReport.t) : TraceImportReport.t :=
  r <| TraceImportReport.resources_registered ::= incr |>.

Definition import_resource (tokens : list string) (e : E) (report : TraceImportReport.t) : outcome :=
  if zlen tokens <? 4 then ((e, report), malformed "resource line needs 3 fields")
  else match registrar with
       | None => ((e, skip_description report), ok_status)
       | Some r =>
           match parse_from_table (E := ResourceKind.t) (tok tokens 1) with
           | Err err => ((e, report), Err err)
           | Ok kind =>
               match parse_u64 (tok tokens 3) with
               | None => ((e, report), malformed "resource generation is not numeric")
               | Some generation =>
                   match kind with
                   | ResourceKind.Processor =>
                       with_id (tok tokens 2) e report (λ id,
                         register count_resource
                           (StructureRegistrar.register_processor r
                              (ProcessorRecord.mk id "node.host.0" generation 0 0 0 false "" false 0)) e report)
                   | ResourceKind.Accelerator =>
                       with_id (tok tokens 2) e report (λ id,
                         register count_resource
                           (StructureRegistrar.register_accelerator r
                              (AcceleratorRecord.mk id "node.host.0" generation
                                 (if 4 <? zlen tokens then tok tokens 4 else "imported"%string)
                                 "" "" false false false 0)) e report)
                   | ResourceKind.MemoryDomain =>
                       with_id (tok tokens 2) e report (λ id,
                         register count_resource
                           (StructureRegistrar.register_memory_domain r
                              (MemoryDomainRecord.mk id generation "node.host.0" MemoryDomainKind.Unknown
                                 "" false false 0 false false 0)) e report)
                   | ResourceKind.CoherenceDomain =>
                       with_id (tok tokens 2) e report (λ id,
                         register count_resource
                           (StructureRegistrar.register_coherence_domain r
                              (CoherenceDomainRecord.mk id generation "imported" [] false 0)) e report)
                   | ResourceKind.Node | ResourceKind.Unknown =>
                       ((e, report), malformed "resource line cannot describe this kind")
                   | ResourceKind.Other _ => ((e, count_resource report), ok_status)
                   end
               end
           end
       end.

Definition import_region (tokens : list string) (e : E) (report : TraceImportReport.t) : outcome :=
  if zlen tokens <? 8 then ((e, report), malformed "region line needs 8 fields")
  else match registrar with
       | None => ((e, skip_description report), ok_status)
       | Some r =>
           with_id (tok tokens 1) e report (λ id,
             match parse_u64 (tok tokens 2), parse_u64 (tok tokens 4), parse_u64 (tok tokens 5) with
             | Some generation, Some size, Some page =>
                 match parse_from_table (E := SharingScope.t) (tok tokens 6) with
                 | Err err => ((e, report), Err err)
                 | Ok scope =>
                     register (λ r, r <| TraceImportReport.regions_registered ::= incr |>)
                       (StructureRegistrar.register_region r
                          (RegionRecord.mk id generation 0 (tok tokens 7) (tok tokens 3) 1 "" scope
                             size true page true 1 1
                             (if 8 <? zlen tokens then tok tokens 8 else "workload.imported"%string)
                             "" false 0 0 false)) e report
                 end
             | _, _, _ => ((e, report), malformed "region numeric field is not numeric")
             end)
       end.

(** The region and the locality of an event line; [-] leaves the field out. *)
Definition with_region (region : string) (generation : option Z) (o : Observation.t)
    : result Observation.t :=
  if decide (region = "-") then Ok o
  else validate_identity_token region;;
       Ok (o <| Observation.region := Some region |>
             <| Observation.region_generation := generation |>).
Definition with_locality (text : string) (o : Observation.t) : result Observation.t :=
  if decide (text = "-") then Ok o
  else locality ← parse_from_table (E := Locality.t) text;
       Ok (o <| Observation.locality := locality |>
             <| Observation.locality_declared := true |>).
(** [!parse_u64(text, &g) || g == 0]. *)
Definition zero_generation (text : string) : bool :=
  match parse_u64 text with Some g => is_zero g | None => true end.

(** The observation of an event line: its checks in order, then its assembly. *)
Definition parse_event (tokens : list string) : result Observation.t :=
  type ← parse_event_type (tok tokens 1);
  match parse_resource (tok tokens 4), parse_resource (tok tokens 5) with
  | Some source, Some target =>
      direction ← parse_from_table (E := AccessDirection.t) (tok tokens 6);
      match parse_from_table (E := CoherenceState.t) (tok tokens 7),
            parse_from_table (E := CoherenceState.t) (tok tokens 8) with
      | Ok before, Ok after =>
          match parse_u64 (tok tokens 9), parse_u64 (tok tokens 10) with
          | Some bytes, Some lines =>
              precision ← parse_from_table (E := Precision.t) (tok tokens 11);
              granularity ← parse_from_table (E := EvidenceGranularity.t) (tok tokens 12);
              provenance ← parse_from_table (E := Provenance.t) (tok tokens 14);
              match parse_u64 (tok tokens 15) with
              | None => fail ErrorCode.InvalidArgument "event timestamp is not numeric"
              | Some timestamp =>
                  reject_if (negb (bool_decide (tok tokens 2 = "-"))
                             && zero_generation (tok tokens 3))
                    ErrorCode.InvalidArgument "a region reference needs a non-zero generation";;
                  let o := Observation.empty
                    <| Observation.type := type |> <| Observation.source := source |>
                    <| Observation.target := target |> <| Observation.direction := direction |>
                    <| Observation.state_before := before |> <| Observation.state_after := after |>
                    <| Observation.bytes := bytes |> <| Observation.lines := lines |>
                    <| Observation.precision := precision |> <| Observation.granularity := granularity |>
                    <| Observation.provenance := provenance |>
                    <| Observation.timestamp_ns := to_nanos timestamp |> in
                  o ← with_region (tok tokens 2) (parse_u64 (tok tokens 3)) o;
                  o ← with_locality (tok tokens 13) o;
                  metadata ← add_trailing_metadata (drop 16 tokens) [];
                  let o := o <| Observation.metadata := metadata |> in
                  reject_if_ctx (bool_decide (Observation.type o = EventType.UnknownCoherenceEvent)
                                 && negb (BoundedMetadata.contains "backend.event" (Observation.metadata o)))
                    ErrorCode.InvalidArgument "unknown coherence event must name the backend event"
                    "backend.event";;
                  Ok o
              end
          | _, _ => fail ErrorCode.InvalidArgument "event size field is not numeric"
          end
      | _, _ => fail ErrorCode.InvalidArgument "event coherence state is invalid"
      end
  | _, _ => fail ErrorCode.InvalidArgument "event resource field is malformed"
  end.

(** What the sink answered, as the status of the line. *)
Definition event_status (r : result IngestionOutcome.t) : result unit :=
  match r with
  | Err err => Err err
  | Ok out =>
      reject_if_ctx (bool_decide (IngestionOutcome.disposition out = IngestionDisposition.Rejected))
        ErrorCode.InvalidArgument "coordinator rejected the event" (IngestionOutcome.detail out)
  end.

Definition publish_event (o : Observation.t) (e : E) (report : TraceImportReport.t) : outcome :=
  register (λ r, r <| TraceImportReport.observations_published ::= incr |>)
    (λ e, let '(e, r) := IngestionSink.publish sink o e in (e, event_status r)) e report.

Definition import_event (tokens : list string) (e : E) (report : TraceImportReport.t) : outcome :=
  if zlen tokens <? 16 then ((e, report), malformed "event line needs 15 fields")
  else match parse_event tokens with
       | Err err => ((e, report), Err err)
       | Ok o => publish_event o e report
       end.

(** The checked fields of a counter line; the fields from the eleventh on are read
    afterwards. *)
Definition parse_counter (tokens : list string) : result CounterPublication.t :=
  match validate_identity_token (tok tokens 1) with Err err => Err err | Ok _ =>
  type ← parse_event_type (tok tokens 2);
  kind ← parse_from_table (E := CounterKind.t) (tok tokens 3);
  scope ← parse_from_table (E := CounterScope.t) (tok tokens 4);
  match parse_u64 (tok tokens 5), parse_u64 (tok tokens 6), parse_u64 (tok tokens 7),
        parse_u64 (tok tokens 8), parse_u64 (tok tokens 10) with
  | Some width, Some generation, Some raw, Some scale, Some timestamp =>
      provenance ← parse_from_table (E := Provenance.t) (tok tokens 9);
      Ok (CounterPublication.empty
            <| CounterPublication.counter := tok tokens 1 |>
            <| CounterPublication.mapped_type := type |>
            <| CounterPublication.kind := kind |> <| CounterPublication.scope := scope |>
            <| CounterPublication.width_bits := width mod 2 ^ 32 |>
            <| CounterPublication.generation := generation |>
            <| CounterPublication.raw_value := raw |>
            <| CounterPublication.bytes_per_unit := scale |>
            <| CounterPublication.timestamp_ns := to_nanos timestamp |>
            <| CounterPublication.provenance := provenance |>
            <| CounterPublication.granularity :=
                 if decide (scope = CounterScope.PerRegion) then EvidenceGranularity.Region
                 else EvidenceGranularity.Device |>)
  | _, _, _, _, _ => fail ErrorCode.InvalidArgument "counter numeric field is not numeric"
  end
  end.

(** The source and the region of a counter line; both must look like resources. *)
Definition with_counter_source (source : string) (p : CounterPublication.t) : CounterPublication.t :=
  match parse_resource source with
  | Some (Some r) => p <| CounterPublication.source := Some r |>
  | _ => p
  end.
Definition with_counter_region (region : option string) (p : CounterPublication.t)
    : CounterPublication.t * result unit :=
  match region with
  | None => (p, ok_status)
  | Some text =>
      match parse_resource text with
      | Some (Some r) =>
          match validate_identity_token (ResourceRef.id r) with
          | Err err => (p, Err err)
          | Ok _ => (p <| CounterPublication.region := Some (ResourceRef.id r) |>
                       <| CounterPublication.region_generation := Some 1 |>, ok_status)
          end
      | _ => (p, ok_status)
      end
  end.

(** Eleven tokens pass the check, and then the twelfth is read. *)
Definition import_counter (tokens : list string) (e : E) (report : TraceImportReport.t)
    : option outcome :=
  if zlen tokens <? 11 then Some ((e, report), malformed "counter line needs 11 fields")
  else match parse_counter tokens with
       | Err err => Some ((e, report), Err err)
       | Ok p =>
           source ← tokens !! 11%nat;
           let p := with_counter_source source p in
           let '(p, status) := with_counter_region (tokens !! 12%nat) p in
           let '(e, r) := IngestionSink.publish_counter sink p e in
           Some (match r with
                 | Err err => ((e, report), Err err)
                 | Ok _ => ((e, report <| TraceImportReport.counters_published ::= incr |>), status)
                 end)
       end.

Definition import_directive (tokens : list string) (e : E) (report : TraceImportReport.t)
    : option outcome :=
  let directive := tok tokens 0 in
  if decide (directive = "node") then Some (import_node tokens e report)
  else if decide (directive = "resource") then Some (import_resource tokens e report)
  else if decide (directive = "region") then Some (import_region tokens e report)
  else if decide (directive = "event") then Some (import_event tokens e report)
  else if decide (directive = "counter") then import_counter tokens e report
  else Some ((e, report), fail_ctx ErrorCode.InvalidArgument "unknown trace directive" directive).

(** A line that failed is counted and described; a strict import ends there. *)
Definition note_line (status : result unit) (report : TraceImportReport.t) : TraceImportReport.t :=
  match status with
  | Ok _ => report
  | Err err =>
      report <| TraceImportReport.rejected ::= incr |>
             <| TraceImportReport.diagnostics ::=
                  λ l, l ++ [(TraceImportReport.lines_read report, Error.describe err)] |>
  end.

(** [line.pop_back()] on a trailing carriage return. *)
Fixpoint strip_cr (line : string) : string :=
  match line with
  | EmptyString => EmptyString
  | String c EmptyString => if decide (c = "013"%char) then EmptyString else String c EmptyString
  | String c rest => String c (strip_cr rest)
  end.

Definition starts_comment (line : string) : bool :=
  match line with String c _ => bool_decide (c = "#"%char) | EmptyString => false end.

Definition finished : Type := E * result TraceImportReport.t.

Fixpoint import_lines (strict : bool) (lines : list string) (header_seen : bool) (e : E)
    (report : TraceImportReport.t) : option finished :=
  match lines with
  | [] => Some (e, if header_seen then Ok report
                   else fail ErrorCode.InvalidArgument "trace has no header")
  | line :: rest =>
      let report := report <| TraceImportReport.lines_read ::= incr |> in
      let number := format_u64 (TraceImportReport.lines_read report) in
      let line := strip_cr line in
      if sempty line then import_lines strict rest header_seen e report
      else if starts_comment line then
        import_lines strict rest header_seen e (report <| TraceImportReport.comments ::= incr |>)
      else if negb header_seen then
        if decide (line = kTraceMagic) then import_lines strict rest true e report
        else
          let err := Error.mk ErrorCode.InvalidArgument "trace does not start with the canonical header"
                       number in
          Some (e, if strict then Err err
                   else Ok (report <| TraceImportReport.diagnostics ::=
                              λ l, l ++ [(TraceImportReport.lines_read report, Error.describe err)] |>))
      else
        let tokens := tokenize line in
        match tokens with
        | [] => import_lines strict rest true e report
        | _ =>
            '((e, report), status) ← import_directive tokens e report;
            let report := note_line status report in
            match status with
            | Err err =>
                if strict
                then Some (e, fail_ctx (Error.code err) (Error.describe err) number)
                else import_lines strict rest true e report
            | Ok _ => import_lines strict rest true e report
            end
        end
  end.

Definition import_trace_text (text : string) (strict : bool) (e : E) : option finished :=
  import_lines strict (getlines text) false e TraceImportReport.empty.

(** The content of the file, [None] when it cannot be opened: it is read line by line,
    each line ending in a newline, up to the size bound. *)
Fixpoint read_lines (lines : list string) (content : string) : option string :=
  match lines with
  | [] => Some content
  | line :: rest =>
      let content := content +:+ line +:+ String newline EmptyString in
      if Limits.kMaxPersistenceBytes <? slen content then None else read_lines rest content
  end.

Definition import_trace_file (path : string) (file : option string) (strict : bool) (e : E)
    : option finished :=
  match file with
  | None => Some (e, fail_ctx ErrorCode.NotFound "cannot open trace file" path)
  | Some bytes =>
      match read_lines (getlines bytes) EmptyString with
      | None => Some (e, fail_ctx ErrorCode.TooLarge "trace file exceeds the bound" path)
      | Some content => import_trace_text content strict e
      end
  end.
End import.

(** ** Rendering *)

Definition render_resource (r : option ResourceRef.t) : string :=
  match r with
  | Some r => ResourceKind.to_string (ResourceRef.kind r) +:+ ":" +:+ ResourceRef.id r
  | None => "-"
  end.

(** The fields of an event line, without the metadata. *)
Definition render_fields (o : Observation.t) : list string :=
  ["event"%string;
   EventType.to_string (Observation.type o);
   match Observation.region o with Some r => r | None => "-"%string end;
   match Observation.region_generation o with Some g => format_u64 g | None => "-"%string end;
   render_resource (Observation.source o);
   render_resource (Observation.target o);
   AccessDirection.to_string (Observation.direction o);
   CoherenceState.to_string (Observation.state_before o);
   CoherenceState.to_string (Observation.state_after o);
   format_u64 (Observation.bytes o);
   format_u64 (Observation.lines o);
   Precision.to_string (Observation.precision o);
   EvidenceGranularity.to_string (Observation.granularity o);
   if Observation.locality_declared o then Locality.to_string (Observation.locality o) else "-"%string;
   Provenance.to_string (Observation.provenance o);
   format_i64 (Observation.timestamp_ns o)].

Definition render_event (o : Observation.t) : string :=
  join (render_fields o
        ++ ((λ e, e.1 +:+ "=" +:+ e.2) <$> BoundedMetadata.sorted_entries (Observation.metadata o))) " ".

Fixpoint render_lines (lines : list string) : string :=
  match lines with
  | [] => EmptyString
  | line :: rest => line +:+ String newline (render_lines rest)
  end.

Definition render_trace (observations : list Observation.t) : string :=
  render_lines (kTraceMagic :: (render_event <$> observations)).

(** ** The collector *)

Module ImportedTraceBackend.
Record t := mk {
  path : string; strict : bool; file : option string;
  report : TraceImportReport.t; started : bool; imported : bool;
}.
#[global] Instance eta : Eta t := fun b =>
  mk (path b) (strict b) (file b) (report b) (started b) (imported b).
Definition make (path : string) (strict : bool) (file : option string) : t :=
  mk path strict file TraceImportReport.empty false false.

Definition capabilities : list Capability.t :=
  [Capability.mk "trace.import" CapabilityStatus.Synthetic
     ("evidence imported from a trace file keeps ImportedTrace provenance and is never " +:+
      "reported as real hardware evidence") "COBS-TRACE text format"].

Section backend.
Context {E : Type}.

Definition start (ctx : CollectorContext.t E) (b : t) (e : E) : option ((t * E) * result unit) :=
  match CollectorContext.sink ctx with
  | None => Some ((b, e), fail ErrorCode.InvalidArgument "trace backend requires an ingestion sink")
  | Some sink =>
      if sempty (path b) then Some ((b, e), fail ErrorCode.InvalidArgument "trace path is empty")
      else
        '(e, r) ← import_trace_file sink (CollectorContext.registrar ctx) (path b) (file b) (strict b) e;
        Some (match r with
              | Err err => ((b, e), Err err)
              | Ok imported_report => ((b <| report := imported_report |> <| imported := true |> <| started := true |>, e),
                              ok_status)
              end)
  end.
Definition poll (b : t) : result unit :=
  if started b then ok_status else fail ErrorCode.Busy "trace backend is not started".
Definition stop (b : t) : t := b <| started := false |>.
End backend.
End ImportedTraceBackend.
