(* ===== verification/TraceRoundTrip.v ===== *)
(** * What a rendered trace imports as

    The text lemmas behind the trace format (lines, tokens, numbers, names) and what
    follows from them: a rendered trace is read back event by event, an import always
    has a result unless a counter line ends one field early, and an import into a host
    is a run of the observatory. *)

From S2P Require Import Prelude Errors TextUtil Ids Taxonomy Records Observation.
From S2P Require Import Aggregate Sequence State Attribution Registry Publishers Ingest Counters System Host Trace.
From Stdlib Require Import Ascii.

(** ** Characters *)

Definition no_space (s : string) : Prop := all_chars (λ c, is_space c = false) s.
#[global] Instance all_chars_dec (P : ascii → Prop) `{!∀ c, Decision (P c)} s : Decision (all_chars P s).
Proof. induction s; cbn; apply _. Defined.
#[global] Instance no_space_dec s : Decision (no_space s).
Proof. unfold no_space. apply _. Defined.

(** A word: a token that survives a space on either side. *)
Definition word (s : string) : Prop := s ≠ ""%string ∧ no_space s.
#[global] Instance word_dec s : Decision (word s).
Proof. unfold word. apply _. Defined.

Lemma all_chars_impl (P Q : ascii → Prop) s : (∀ c, P c → Q c) → all_chars P s → all_chars Q s.
Proof. intros H. induction s as [|c s IH]; cbn; [done|]. intros [? ?]. split; auto. Qed.

Lemma all_chars_app (P : ascii → Prop) s t : all_chars P (s +:+ t) ↔ all_chars P s ∧ all_chars P t.
Proof.
  induction s as [|c s IH]; [cbn; tauto|].
  change (String c s +:+ t) with (String c (s +:+ t)). cbn [all_chars]. rewrite IH. tauto.
Qed.

Lemma app_string_cons c s t : String c s +:+ t = String c (s +:+ t).
Proof. done. Qed.
Lemma app_string_nil t : "" +:+ t = t.
Proof. done. Qed.

(** A character beyond the space is not white space. *)
Lemma above_space c : (32 < N_of_ascii c)%N → is_space c = false.
Proof.
  intros H. unfold is_space. destruct (N.eqb_spec (N_of_ascii c) 32); [lia|].
  destruct (N.leb_spec (N_of_ascii c) 13); [lia|]. by rewrite andb_false_r.
Qed.

Lemma token_char_not_space c : is_token_char c = true → is_space c = false.
Proof. destruct c as [[] [] [] [] [] [] [] []]; by vm_compute. Qed.

Lemma valid_token_word s : valid_token s → word s.
Proof.
  intros [[Hl _] Hc]. split; [by intros ->|].
  eapply all_chars_impl; [|exact Hc]. intros c. apply token_char_not_space.
Qed.

Lemma digit_not_space c : is_digit_char c → is_space c = false.
Proof. intros [H _]. apply above_space. lia. Qed.

(** ** Numbers *)

Lemma digit_value d : (d < 10)%N → byte_of (pretty_N_char d) = 48 + Z.of_N d.
Proof.
  intros H. destruct d as [|p]; [done|].
  do 4 (destruct p as [p|p|]; try lia; try done).
Qed.

Lemma parse_digits_go x : ∀ s, Z.of_N x ≤ u64_max →
  parse_digits (pretty_N_go x s) 0 = parse_digits s (Z.of_N x).
Proof.
  induction (N.lt_wf_0 x) as [x _ IH]; intros s Hx.
  destruct (decide (0 < x)%N) as [H|H]; [|assert (x = 0%N) as -> by lia; by rewrite pretty_N_go_0].
  rewrite pretty_N_go_step by done.
  pose proof (N.mod_lt x 10 ltac:(done)) as Hm. pose proof (N.div_mod x 10 ltac:(done)) as Hd.
  assert (Hq : (x `div` 10 < x)%N) by (by apply N.div_lt).
  set (q := (x `div` 10)%N) in *. set (r := (x `mod` 10)%N) in *. clearbody q r.
  rewrite IH; [|done|lia]. cbn [parse_digits]. rewrite digit_value by done.
  destruct (Z.ltb_spec (48 + Z.of_N r) 48); [lia|]. destruct (Z.ltb_spec 57 (48 + Z.of_N r)); [lia|].
  cbn [orb]. replace (48 + Z.of_N r - 48) with (Z.of_N r) by lia.
  destruct (Z.ltb_spec ((u64_max - Z.of_N r) `div` 10) (Z.of_N q)) as [Hlt|_].
  - exfalso. apply Z.lt_nge in Hlt. apply Hlt. apply Z.div_le_lower_bound; lia.
  - f_equal. lia.
Qed.


Lemma parse_format_u64 v : in_u64 v → parse_u64 (format_u64 v) = Some v.
Proof.
  intros [H0 Hm]. unfold parse_u64.
  assert (Hp : parse_digits (format_u64 v) 0 = Some v).
  { unfold format_u64, pretty, pretty_N. case_decide as E.
    - assert (v = 0) as -> by lia. reflexivity.
    - rewrite parse_digits_go by lia. cbn. f_equal. lia. }
  assert (Hne : format_u64 v ≠ ""%string).
  { unfold format_u64, pretty, pretty_N. case_decide as E; [done|]. intros E2.
    rewrite pretty_N_go_step in E2 by lia. revert E2. generalize (Z.to_N v `div` 10)%N as y. intros y.
    assert (Hgo : ∀ y s, s ≠ ""%string → pretty_N_go y s ≠ ""%string).
    { clear. intros y. induction (N.lt_wf_0 y) as [y _ IH]; intros s Hs.
      destruct (decide (0 < y)%N) as [Hy|Hy]; [|assert (y = 0%N) as -> by lia; by rewrite pretty_N_go_0].
      rewrite pretty_N_go_step by done. apply IH; [by apply N.div_lt|done]. }
    by apply Hgo. }
  destruct (sempty (format_u64 v)) eqn:E; [by apply sempty_spec in E|done].
Qed.

Lemma format_u64_word v : in_u64 v → word (format_u64 v).
Proof.
  intros Hv. split.
  - intros E. pose proof (parse_format_u64 v Hv) as H. by rewrite E in H.
  - eapply all_chars_impl; [|apply format_u64_digits]. intros c. apply digit_not_space.
Qed.

Lemma format_i64_nonneg v : 0 ≤ v → format_i64 v = format_u64 v.
Proof. intros H. unfold format_i64, format_u64. destruct v; [done|done|lia]. Qed.

Lemma to_nanos_small v : 0 ≤ v < 2 ^ 63 → to_nanos v = v.
Proof. intros H. unfold to_nanos. destruct (Z.ltb_spec v (2 ^ 63)); [done|lia]. Qed.

(** ** Lines and tokens *)

Lemma split_at_app c s t :
  all_chars (λ d, d ≠ c) s → split_at c (s +:+ String c t) = Some (s, t).
Proof.
  induction s as [|d s IH]; intros H.
  - rewrite app_string_nil. cbn. by rewrite decide_True.
  - destruct H as [Hd H]. rewrite app_string_cons. cbn [split_at]. rewrite decide_False by done.
    by rewrite IH.
Qed.

Lemma getlines_cons s t :
  all_chars (λ d, d ≠ newline) s → getlines (s +:+ String newline t) = s :: getlines t.
Proof.
  induction s as [|d s IH]; intros H; [done|]. destruct H as [Hd H].
  rewrite app_string_cons. cbn [getlines]. rewrite decide_False by done. by rewrite IH.
Qed.

Lemma getlines_render lines :
  Forall (all_chars (λ d, d ≠ newline)) lines → getlines (render_lines lines) = lines.
Proof.
  induction 1 as [|line lines Hl _ IH]; [done|]. cbn [render_lines]. by rewrite getlines_cons, IH.
Qed.

Lemma tokenize_word s : word s → tokenize s = [s].
Proof.
  intros [Hne Hs]. induction s as [|c s IH]; [done|]. destruct Hs as [Hc Hs].
  cbn [tokenize]. rewrite Hc. destruct s as [|d s]; [done|]. destruct Hs as [Hd Hs].
  rewrite Hd. by rewrite IH.
Qed.

Lemma tokenize_cons s t : word s → tokenize (s +:+ String " " t) = s :: tokenize t.
Proof.
  intros [Hne Hs]. induction s as [|c s IH]; [done|]. destruct Hs as [Hc Hs].
  rewrite app_string_cons. cbn [tokenize]. rewrite Hc. destruct s as [|d s]; [done|].
  rewrite app_string_cons in *. rewrite (proj1 Hs). by rewrite IH.
Qed.

Lemma tokenize_join ts : Forall word ts → tokenize (join ts " ") = ts.
Proof.
  induction 1 as [|t ts Ht Hts IH]; [done|]. destruct ts as [|u ts]; [by apply tokenize_word|].
  change (join (t :: u :: ts) " ") with (t +:+ String " " (join (u :: ts) " ")).
  by rewrite tokenize_cons, IH.
Qed.

(** A line of words holds neither line end and starts no comment. *)
Definition plain (c : ascii) : Prop := c ≠ newline ∧ c ≠ "013"%char.
Lemma word_plain s : word s → all_chars plain s.
Proof.
  intros [_ H]. eapply all_chars_impl; [|exact H]. intros c Hc. by split; intros ->.
Qed.

Lemma join_plain ts : Forall word ts → all_chars plain (join ts " ").
Proof.
  induction 1 as [|t ts Ht Hts IH]; [done|]. destruct ts as [|u ts]; [by apply word_plain|].
  change (join (t :: u :: ts) " ") with (t +:+ String " " (join (u :: ts) " ")).
  apply all_chars_app. split; [by apply word_plain|]. by split.
Qed.

Lemma strip_cr_plain s : all_chars plain s → strip_cr s = s.
Proof.
  induction s as [|c s IH]; intros H; [done|]. destruct H as [[_ Hc] H]. cbn [strip_cr].
  destruct s; [by rewrite decide_False|by rewrite IH].
Qed.

(** ** Names of enumerators *)

(** An enumerator the source names, not a stray byte. *)
Definition named {E} `{NamedEnum E} (e : E) : Prop :=
  0 ≤ enum_code e < enum_count E ∧ enum_of_code (enum_code e) = e.

(** The names of an enumeration are words, none of them the mark of an absent field. *)
Class WordNames (E : Type) `{NamedEnum E} : Prop :=
  word_names : Forall (λ n, word n ∧ n ≠ "-"%string) enum_names.
Ltac solve_word_names := unfold WordNames; apply (bool_decide_unpack _); vm_compute; exact I.
#[global] Instance event_words : WordNames EventType.t.
Proof. solve_word_names. Qed.
#[global] Instance direction_words : WordNames AccessDirection.t.
Proof. solve_word_names. Qed.
#[global] Instance state_words : WordNames CoherenceState.t.
Proof. solve_word_names. Qed.
#[global] Instance precision_words : WordNames Precision.t.
Proof. solve_word_names. Qed.
#[global] Instance granularity_words : WordNames EvidenceGranularity.t.
Proof. solve_word_names. Qed.
#[global] Instance locality_words : WordNames Locality.t.
Proof. solve_word_names. Qed.
#[global] Instance provenance_words : WordNames Provenance.t.
Proof. solve_word_names. Qed.
#[global] Instance kind_words : WordNames ResourceKind.t.
Proof. solve_word_names. Qed.

Section names.
Context {E : Type} `{EnumLaws E}.

Lemma named_lookup (e : E) : named e → enum_names !! Z.to_nat (enum_code e) = Some (enum_to_string e).
Proof.
  intros [Hr _]. unfold enum_count, zlen in Hr. unfold enum_to_string.
  destruct (Z.ltb_spec (enum_code e) 0); [lia|].
  destruct (lookup_lt_is_Some_2 enum_names (Z.to_nat (enum_code e))) as [n ->]; [lia|done].
Qed.

Lemma parse_named (e : E) : named e → parse_from_table (enum_to_string e) = Ok e.
Proof.
  intros [Hr He]. rewrite <-He at 2. apply parse_to_string; [done|]. rewrite He. apply iequals_refl.
Qed.

Lemma named_word `{!WordNames E} (e : E) : named e → word (enum_to_string e) ∧ enum_to_string e ≠ "-"%string.
Proof.
  intros Hn. pose proof word_names as Hw. rewrite Forall_lookup in Hw. eapply Hw. by apply named_lookup.
Qed.
End names.

Lemma parse_event_named (e : EventType.t) : named e → parse_event_type (EventType.to_string e) = Ok e.
Proof.
  intros Hn. unfold parse_event_type, EventType.to_string.
  assert (Ha : Forall (λ n, iequals n "UNKNOWN" = false) (enum_names (E := EventType.t)))
    by (apply (bool_decide_unpack _); vm_compute; exact I).
  rewrite Forall_lookup in Ha. rewrite (Ha _ _ (named_lookup e Hn)). by apply parse_named.
Qed.

(** A kind's name holds no colon. *)
Lemma kind_no_colon (k : ResourceKind.t) :
  named k → all_chars (λ c, c ≠ ":"%char) (ResourceKind.to_string k).
Proof.
  intros Hn.
  assert (Ha : Forall (all_chars (λ c, c ≠ ":"%char)) (enum_names (E := ResourceKind.t)))
    by (apply (bool_decide_unpack _); vm_compute; exact I).
  rewrite Forall_lookup in Ha. exact (Ha _ _ (named_lookup k Hn)).
Qed.

(** ** Which observations a trace can carry *)

Definition traceable_ref (r : ResourceRef.t) : Prop :=
  named (ResourceRef.kind r) ∧ valid_token (ResourceRef.id r).
Definition traceable_option {A} (P : A → Prop) (o : option A) : Prop :=
  match o with Some a => P a | None => True end.

(** A metadata key or value that stays one word, the key without an equals sign. *)
Definition traceable_entry (e : string * string) : Prop :=
  no_space e.1 ∧ all_chars (λ c, c ≠ "="%char) e.1 ∧ no_space e.2.

Record traceable (o : Observation.t) : Prop := {
  tr_type : named (Observation.type o);
  tr_direction : named (Observation.direction o);
  tr_before : named (Observation.state_before o);
  tr_after : named (Observation.state_after o);
  tr_precision : named (Observation.precision o);
  tr_granularity : named (Observation.granularity o);
  tr_provenance : named (Observation.provenance o);
  tr_locality : Observation.locality_declared o = true → named (Observation.locality o);
  tr_source : traceable_option traceable_ref (Observation.source o);
  tr_target : traceable_option traceable_ref (Observation.target o);
  tr_region : match Observation.region o, Observation.region_generation o with
              | Some r, Some g => valid_token r ∧ r ≠ "-"%string ∧ in_u64 g ∧ g ≠ 0
              | Some _, None => False
              | None, Some g => in_u64 g
              | None, None => True
              end;
  tr_bytes : in_u64 (Observation.bytes o);
  tr_lines : in_u64 (Observation.lines o);
  tr_time : 0 ≤ Observation.timestamp_ns o < 2 ^ 63;
  tr_metadata : BoundedMetadata.wf (Observation.metadata o)
    ∧ Forall traceable_entry (Observation.metadata o);
  tr_unknown : Observation.type o = EventType.UnknownCoherenceEvent →
    BoundedMetadata.contains "backend.event" (Observation.metadata o) = true;
}.

(** What comes back: the content of the event line, without the fields the format has
    no place for, every endpoint at generation 1 and the metadata sorted. *)
Definition reimported_ref (r : ResourceRef.t) : ResourceRef.t :=
  ResourceRef.mk (ResourceRef.kind r) (ResourceRef.id r) 1.
Definition reimported (o : Observation.t) : Observation.t :=
  Observation.empty
    <| Observation.type := Observation.type o |>
    <| Observation.source := reimported_ref <$> Observation.source o |>
    <| Observation.target := reimported_ref <$> Observation.target o |>
    <| Observation.direction := Observation.direction o |>
    <| Observation.state_before := Observation.state_before o |>
    <| Observation.state_after := Observation.state_after o |>
    <| Observation.bytes := Observation.bytes o |>
    <| Observation.lines := Observation.lines o |>
    <| Observation.precision := Observation.precision o |>
    <| Observation.granularity := Observation.granularity o |>
    <| Observation.provenance := Observation.provenance o |>
    <| Observation.timestamp_ns := Observation.timestamp_ns o |>
    <| Observation.region := Observation.region o |>
    <| Observation.region_generation :=
         match Observation.region o with Some _ => Observation.region_generation o | None => None end |>
    <| Observation.locality :=
         if Observation.locality_declared o then Observation.locality o else Locality.Unknown |>
    <| Observation.locality_declared := Observation.locality_declared o |>
    <| Observation.metadata := BoundedMetadata.sorted_entries (Observation.metadata o) |>.

(** ** One event line *)

Definition render_entry (e : string * string) : string := e.1 +:+ "=" +:+ e.2.
Definition event_tokens (o : Observation.t) : list string :=
  render_fields o ++ (render_entry <$> BoundedMetadata.sorted_entries (Observation.metadata o)).

Lemma parse_rendered_resource r :
  traceable_option traceable_ref r → parse_resource (render_resource r) = Some (reimported_ref <$> r).
Proof.
  destruct r as [r|]; [|done]. intros [Hk Hi]. cbn [render_resource].
  assert (Hd : ResourceKind.to_string (ResourceRef.kind r) +:+ ":" +:+ ResourceRef.id r ≠ "-"%string).
  { intros E. pose proof (named_word (ResourceRef.kind r) Hk) as [[Hne _] Hdash].
    change (enum_to_string (ResourceRef.kind r)) with (ResourceKind.to_string (ResourceRef.kind r)) in *.
    destruct (ResourceKind.to_string (ResourceRef.kind r)) as [|c [|d s]]; [done| |done].
    rewrite app_string_cons in E. injection E as -> E. done. }
  unfold parse_resource. rewrite decide_False by exact Hd.
  change (":" +:+ ResourceRef.id r) with (String ":" (ResourceRef.id r)).
  rewrite split_at_app by (by apply kind_no_colon).
  change (parse_from_table (ResourceKind.to_string (ResourceRef.kind r)))
    with (parse_from_table (E := ResourceKind.t) (enum_to_string (ResourceRef.kind r))).
  rewrite (parse_named (ResourceRef.kind r) Hk). by rewrite (proj2 (validate_identity_token_ok _) Hi).
Qed.

Lemma resource_word r : traceable_option traceable_ref r → word (render_resource r).
Proof.
  destruct r as [r|]; [|by vm_compute]. intros [Hk Hi]. cbn [render_resource].
  destruct (named_word (ResourceRef.kind r) Hk) as [[Hne Hs] _]. apply valid_token_word in Hi as [_ Hi].
  split.
  - change (enum_to_string (ResourceRef.kind r)) with (ResourceKind.to_string (ResourceRef.kind r)) in *.
    by destruct (ResourceKind.to_string (ResourceRef.kind r)).
  - apply all_chars_app. split; [exact Hs|]. by split.
Qed.

Lemma add_rendered_metadata l : ∀ acc,
  BoundedMetadata.wf (acc ++ l) → Forall traceable_entry l →
  add_trailing_metadata (render_entry <$> l) acc = Ok (acc ++ l).
Proof.
  induction l as [|[k v] l IH]; intros acc Hwf Ht; [by rewrite app_nil_r|].
  apply Forall_cons in Ht as [(Hk & He & Hv) Ht]. cbn [fst snd] in *.
  destruct Hwf as (Hn & Hd & Hf). cbn [fmap list_fmap add_trailing_metadata].
  change (render_entry (k, v)) with (k +:+ String "=" v). rewrite split_at_app by done.
  pose proof Hf as Hf'. apply Forall_app in Hf' as [_ Hf'].
  apply Forall_cons in Hf' as [[Hk1 Hv1] _]. cbn [fst snd] in *.
  destruct k as [|c k]; [destruct Hk1 as [Hk1 _]; by vm_compute in Hk1|].
  assert (Ha : BoundedMetadata.add (String c k) v acc = Ok (acc ++ [(String c k, v)])).
  { apply BoundedMetadata.add_Ok. split; [done|]. split; [done|]. split; [|split; [|done]].
    - rewrite zlen_app, zlen_cons in Hn. pose proof (zlen_nonneg l). lia.
    - rewrite fmap_app in Hd. apply NoDup_app in Hd as (_ & Hd & _). intros Hin.
      eapply Hd; [exact Hin|]. left. }
  rewrite Ha. cbn [mbind result_bind]. rewrite IH; [by rewrite <-app_assoc| |done].
  rewrite <-app_assoc. by split_and!.
Qed.

(** The region field and its generation. *)
Definition region_token (o : Observation.t) : string :=
  match Observation.region o with Some r => r | None => "-" end.
Definition generation_token (o : Observation.t) : string :=
  match Observation.region_generation o with Some g => format_u64 g | None => "-" end.
Definition locality_token (o : Observation.t) : string :=
  if Observation.locality_declared o then Locality.to_string (Observation.locality o) else "-".

Lemma with_region_rendered o x :
  traceable o →
  negb (bool_decide (region_token o = "-")) && zero_generation (generation_token o) = false
  ∧ with_region (region_token o) (parse_u64 (generation_token o)) x
    = Ok (match Observation.region o with
          | Some _ => x <| Observation.region := Observation.region o |>
                        <| Observation.region_generation := Observation.region_generation o |>
          | None => x
          end).
Proof.
  intros Ho. pose proof (tr_region o Ho) as Hr. unfold region_token, generation_token, with_region, zero_generation.
  destruct (Observation.region o) as [r|]; [|done].
  destruct (Observation.region_generation o) as [g|]; [|done]. destruct Hr as (Hr & Hdash & Hgu & Hg0).
  rewrite bool_decide_false, decide_False, parse_format_u64 by done. unfold is_zero.
  rewrite (proj2 (Z.eqb_neq g 0)) by done. by rewrite (proj2 (validate_identity_token_ok r) Hr).
Qed.

Lemma with_locality_rendered o x :
  traceable o →
  with_locality (locality_token o) x
  = Ok (if Observation.locality_declared o
        then x <| Observation.locality := Observation.locality o |>
               <| Observation.locality_declared := true |>
        else x).
Proof.
  intros Ho. pose proof (tr_locality o Ho) as Hl. unfold locality_token, with_locality.
  destruct (Observation.locality_declared o); [|done]. specialize (Hl eq_refl).
  destruct (named_word (Observation.locality o) Hl) as [_ Hd].
  change (Locality.to_string (Observation.locality o)) with (enum_to_string (Observation.locality o)).
  rewrite decide_False by exact Hd. by rewrite (parse_named (Observation.locality o)) by done.
Qed.

Lemma contains_sorted k l :
  BoundedMetadata.contains k (BoundedMetadata.sorted_entries l) = BoundedMetadata.contains k l.
Proof.
  assert (Hp : (BoundedMetadata.sorted_entries l).*1 ≡ₚ l.*1)
    by (unfold BoundedMetadata.sorted_entries; by rewrite merge_sort_Permutation).
  destruct (BoundedMetadata.contains k l) eqn:E.
  - apply not_false_iff_true. rewrite BoundedMetadata.contains_false, Hp, <-BoundedMetadata.contains_false.
    by rewrite E.
  - rewrite BoundedMetadata.contains_false in *. by rewrite Hp.
Qed.

Lemma parse_event_rendered o : traceable o → parse_event (event_tokens o) = Ok (reimported o).
Proof.
  intros Ho. pose proof Ho as [Ht Hd Hb Ha Hp Hg Hv _ Hs Ht2 _ Hby Hli [Ht0 Ht1] [Hm Hme] Hu].
  unfold parse_event.
  change (tok (event_tokens o) 1) with (EventType.to_string (Observation.type o)).
  change (tok (event_tokens o) 4) with (render_resource (Observation.source o)).
  change (tok (event_tokens o) 5) with (render_resource (Observation.target o)).
  change (tok (event_tokens o) 6) with (enum_to_string (Observation.direction o)).
  change (tok (event_tokens o) 7) with (enum_to_string (Observation.state_before o)).
  change (tok (event_tokens o) 8) with (enum_to_string (Observation.state_after o)).
  change (tok (event_tokens o) 9) with (format_u64 (Observation.bytes o)).
  change (tok (event_tokens o) 10) with (format_u64 (Observation.lines o)).
  change (tok (event_tokens o) 11) with (enum_to_string (Observation.precision o)).
  change (tok (event_tokens o) 12) with (enum_to_string (Observation.granularity o)).
  change (tok (event_tokens o) 14) with (enum_to_string (Observation.provenance o)).
  change (tok (event_tokens o) 15) with (format_i64 (Observation.timestamp_ns o)).
  change (tok (event_tokens o) 2) with (region_token o).
  change (tok (event_tokens o) 3) with (generation_token o).
  change (tok (event_tokens o) 13) with (locality_token o).
  change (drop 16 (event_tokens o))
    with (render_entry <$> BoundedMetadata.sorted_entries (Observation.metadata o)).
  rewrite parse_event_named by done. cbn [mbind result_bind].
  rewrite !parse_rendered_resource by done.
  rewrite !parse_named by done. cbn [mbind result_bind].
  rewrite format_i64_nonneg by done.
  rewrite !parse_format_u64, to_nanos_small by (unfold in_u64, u64_max in *; lia).
  destruct (with_region_rendered o Observation.empty Ho) as [-> _].
  cbn [reject_if]. cbv beta iota.
  change (reject_if false ErrorCode.InvalidArgument "a region reference needs a non-zero generation") with (Ok tt).
  cbn [mbind result_bind].
  match goal with |- context [with_region _ _ ?x] => rewrite (proj2 (with_region_rendered o x Ho)) end.
  cbn [mbind result_bind].
  rewrite with_locality_rendered by done. cbn [mbind result_bind].
  rewrite add_rendered_metadata; [|by apply BoundedMetadata.sorted_entries_wf
    |unfold BoundedMetadata.sorted_entries; by rewrite merge_sort_Permutation].
  cbn [mbind result_bind app]. rewrite (proj2 (reject_if_ctx_Ok _ _ _ _ tt)).
  - unfold reimported. destruct (Observation.region o), (Observation.locality_declared o); reflexivity.
  - match goal with |- bool_decide (?t = _) && negb (BoundedMetadata.contains _ ?m) = _ =>
      replace t with (Observation.type o) by
        (destruct (Observation.region o), (Observation.locality_declared o); reflexivity);
      change m with (BoundedMetadata.sorted_entries (Observation.metadata o)) end.
    rewrite contains_sorted. case_bool_decide as E; [|done]. by rewrite Hu.
Qed.

Lemma dash_word : word "-".
Proof. by vm_compute. Qed.

Lemma entry_word e : 0 < slen e.1 → traceable_entry e → word (render_entry e).
Proof.
  destruct e as [k v]. intros Hk (H1 & _ & H2). cbn [fst snd] in *. split.
  - by destruct k as [|c k]; [vm_compute in Hk|].
  - apply all_chars_app. split; [exact H1|]. by split.
Qed.

Lemma event_tokens_words o : traceable o → Forall word (event_tokens o).
Proof.
  intros [Ht Hd Hb Ha Hp Hg Hv Hl Hs Ht2 Hr Hby Hli [Ht0 Ht1] [(_ & _ & Hm) Hme] _].
  apply Forall_app. split.
  - unfold render_fields. repeat apply Forall_cons_2; [by vm_compute|..|by apply Forall_nil_2];
      try by apply resource_word.
    + apply (named_word _ Ht).
    + destruct (Observation.region o); [|apply dash_word].
      destruct (Observation.region_generation o); [|done]. by apply valid_token_word, Hr.
    + destruct (Observation.region_generation o) as [g|]; [|apply dash_word].
      apply format_u64_word. by destruct (Observation.region o); [apply Hr|].
    + apply (named_word _ Hd).
    + apply (named_word _ Hb).
    + apply (named_word _ Ha).
    + by apply format_u64_word.
    + by apply format_u64_word.
    + apply (named_word _ Hp).
    + apply (named_word _ Hg).
    + destruct (Observation.locality_declared o); [|apply dash_word]. apply (named_word _ (Hl eq_refl)).
    + apply (named_word _ Hv).
    + rewrite format_i64_nonneg by done. apply format_u64_word. unfold in_u64, u64_max. lia.
  - unfold BoundedMetadata.sorted_entries. apply Forall_fmap. unfold compose. rewrite merge_sort_Permutation.
    apply Forall_forall. intros e He. rewrite Forall_forall in Hm, Hme.
    apply entry_word; [apply (Hm e He)|by apply Hme].
Qed.

Lemma render_event_tokens o : render_event o = join (event_tokens o) " ".
Proof. done. Qed.

(** ** Importing what was rendered *)

Section replay.
Context {E : Type} (sink : IngestionSink.t E) (registrar : option (StructureRegistrar.t E)).

(** Publishing the events one after the other, each on a line of its own. *)
Fixpoint replay (strict : bool) (os : list Observation.t) (e : E) (report : TraceImportReport.t)
    : E * result TraceImportReport.t :=
  match os with
  | [] => (e, Ok report)
  | o :: rest =>
      let report := report <| TraceImportReport.lines_read ::= incr |> in
      let number := format_u64 (TraceImportReport.lines_read report) in
      let '((e, report), status) := publish_event sink (reimported o) e report in
      let report := note_line status report in
      match status with
      | Err err =>
          if strict then (e, fail_ctx (Error.code err) (Error.describe err) number)
          else replay strict rest e report
      | Ok _ => replay strict rest e report
      end
  end.

(** A line with content, after the header. *)
Definition finish_line (strict : bool) (rest : list string)
    (out : outcome (E := E)) : option (finished (E := E)) :=
  let '((e, report), status) := out in
  let report := note_line status report in
  match status with
  | Err err =>
      if strict
      then Some (e, fail_ctx (Error.code err) (Error.describe err)
                      (format_u64 (TraceImportReport.lines_read report)))
      else import_lines sink registrar strict rest true e report
  | Ok _ => import_lines sink registrar strict rest true e report
  end.

(** No line of any kind changes the number of lines read. *)
Lemma register_lines f step (e : E) report :
  (∀ r, TraceImportReport.lines_read (f r) = TraceImportReport.lines_read r) →
  TraceImportReport.lines_read (register f step e report).1.2 = TraceImportReport.lines_read report.
Proof. intros Hf. unfold register. destruct (step e) as [e' []]; cbn; [apply Hf|done]. Qed.

Lemma import_directive_lines tokens e report e' report' status :
  import_directive sink registrar tokens e report = Some ((e', report'), status) →
  TraceImportReport.lines_read report' = TraceImportReport.lines_read report.
Proof.
  enough (∀ out, import_directive sink registrar tokens e report = Some out →
    TraceImportReport.lines_read out.1.2 = TraceImportReport.lines_read report) as H
    by (intros E1; apply (H _ E1)).
  assert (Hid : ∀ token k, (∀ id, TraceImportReport.lines_read (k id).1.2 = TraceImportReport.lines_read report) →
    TraceImportReport.lines_read (with_id token e report k).1.2 = TraceImportReport.lines_read report).
  { intros token k Hk. unfold with_id. by case_match. }
  unfold import_directive. intros out.
  destruct (decide _); [intros [= <-]|destruct (decide _); [intros [= <-]|destruct (decide _);
    [intros [= <-]|destruct (decide _); [intros [= <-]|destruct (decide _); [|by intros [= <-]]]]]].
  - unfold import_node. repeat case_match; try done; apply Hid; intros id; by apply register_lines.
  - unfold import_resource. repeat case_match; try done; apply Hid; intros id; by apply register_lines.
  - unfold import_region. repeat case_match; try done; apply Hid; intros id; try done; by apply register_lines.
  - unfold import_event, publish_event. repeat case_match; try done; by apply register_lines.
  - unfold import_counter. case_match; [by intros [= <-]|]. case_match; [|by intros [= <-]].
    destruct (tokens !! 11%nat) as [source|]; [|done]. cbn [mbind option_bind].
    destruct (with_counter_region _ _) as [p cstatus].
    destruct (IngestionSink.publish_counter sink p e) as [e1 []]; by intros [= <-].
Qed.

Lemma note_line_lines status report :
  TraceImportReport.lines_read (note_line status report) = TraceImportReport.lines_read report.
Proof. by destruct status. Qed.

Lemma import_line strict line rest tokens e report :
  strip_cr line = line → sempty line = false → starts_comment line = false →
  tokenize line = tokens → tokens ≠ [] →
  import_lines sink registrar strict (line :: rest) true e report
  = out ← import_directive sink registrar tokens e (report <| TraceImportReport.lines_read ::= incr |>);
    finish_line strict rest out.
Proof.
  intros Hs He Hc Ht Hne. cbn [import_lines]. rewrite Hs, He, Hc. cbn [negb]. rewrite Ht.
  destruct tokens as [|t ts]; [done|].
  destruct (import_directive sink registrar (t :: ts) e _) as [[[e' report'] status]|] eqn:Ed; [|done].
  apply import_directive_lines in Ed. cbn [mbind option_bind]. unfold finish_line.
  by rewrite note_line_lines, Ed.
Qed.

Lemma import_rendered_lines strict os : ∀ e report,
  Forall traceable os →
  import_lines sink registrar strict (render_event <$> os) true e report = Some (replay strict os e report).
Proof.
  induction os as [|o os IH]; intros e report Ho; [done|].
  apply Forall_cons in Ho as [Ho Hos]. pose proof (event_tokens_words o Ho) as Hw.
  change (render_event <$> o :: os) with (render_event o :: (render_event <$> os)).
  rewrite (import_line strict _ _ (event_tokens o)).
  - cbn [replay]. set (report1 := report <| TraceImportReport.lines_read ::= incr |>).
    assert (Ed : import_directive sink registrar (event_tokens o) e report1
      = Some (publish_event sink (reimported o) e report1)).
    { unfold import_directive. change (tok (event_tokens o) 0) with "event"%string. cbn [decide].
      do 3 (rewrite decide_False by done). rewrite decide_True by done. unfold import_event.
      rewrite parse_event_rendered by done.
      destruct (Z.ltb_spec (zlen (event_tokens o)) 16) as [Hlt|]; [|done].
      unfold event_tokens in Hlt. rewrite zlen_app in Hlt. change (zlen (render_fields o)) with 16 in Hlt.
      pose proof (zlen_nonneg (render_entry <$> BoundedMetadata.sorted_entries (Observation.metadata o))). lia. }
    rewrite Ed. cbn [mbind option_bind].
    assert (El : TraceImportReport.lines_read (publish_event sink (reimported o) e report1).1.2
      = TraceImportReport.lines_read report1) by (by apply register_lines).
    destruct (publish_event sink (reimported o) e report1) as [[e' report'] status]. cbn [fst snd] in El.
    unfold finish_line. rewrite note_line_lines, El.
    destruct status as [u|err]; [by apply IH|]. destruct strict; [done|by apply IH].
  - rewrite render_event_tokens. apply strip_cr_plain. by apply join_plain.
  - reflexivity.
  - reflexivity.
  - rewrite render_event_tokens. by apply tokenize_join.
  - done.
Qed.

(** The whole text: the magic line, then one line per event. *)
Lemma import_rendered_trace strict os e :
  Forall traceable os →
  import_trace_text sink registrar (render_trace os) strict e
  = Some (replay strict os e (TraceImportReport.empty <| TraceImportReport.lines_read := 1 |>)).
Proof.
  intros Ho. unfold import_trace_text, render_trace. rewrite getlines_render.
  - rewrite <-import_rendered_lines by done. by vm_compute (strip_cr kTraceMagic) || reflexivity.
  - constructor; [by vm_compute|]. apply Forall_fmap. eapply Forall_impl; [exact Ho|]. intros o Hto.
    unfold compose. rewrite render_event_tokens.
    eapply all_chars_impl; [|by apply join_plain, event_tokens_words]. by intros c [? _].
Qed.
End replay.

(** ** What an import publishes *)

Section effects.
Context {E : Type} (sink : IngestionSink.t E).

(** Publishing observations one after the other, whatever is answered. *)
Definition publish_each (os : list Observation.t) (e : E) : E :=
  foldl (λ e o, (IngestionSink.publish sink o e).1) e os.

Lemma incr_small n : 0 ≤ n < u64_max → incr n = n + 1.
Proof. intros H. apply u64_add_small. unfold in_u64. lia. Qed.

Lemma replay_lenient os : ∀ e report,
  let r := TraceImportReport.lines_read report in
  let a := TraceImportReport.observations_published report in
  let j := TraceImportReport.rejected report in
  0 ≤ r → 0 ≤ a → 0 ≤ j → r + zlen os < u64_max → a + zlen os < u64_max → j + zlen os < u64_max →
  ∃ report', replay sink false os e report = (publish_each (reimported <$> os) e, Ok report')
    ∧ TraceImportReport.lines_read report' = r + zlen os
    ∧ TraceImportReport.observations_published report' + TraceImportReport.rejected report' = a + j + zlen os
    ∧ zlen (TraceImportReport.diagnostics report')
      = zlen (TraceImportReport.diagnostics report) + (TraceImportReport.rejected report' - j).
Proof.
  induction os as [|o os IH]; intros e report r a j Hr0 Ha0 Hj0 Hr Ha Hj; subst r a j.
  - exists report. rewrite zlen_nil. split_and!; [done|lia..].
  - rewrite zlen_cons in *. pose proof (zlen_nonneg os). cbn [replay].
    set (report1 := report <| TraceImportReport.lines_read ::= incr |>).
    assert (E1 : TraceImportReport.lines_read report1 = TraceImportReport.lines_read report + 1)
      by (apply incr_small; lia).
    unfold publish_event, register. cbn [fmap list_fmap publish_each foldl].
    destruct (IngestionSink.publish sink (reimported o) e) as [e' ans]. cbn [fst].
    destruct (event_status ans) as [u|err].
    + set (report2 := report1 <| TraceImportReport.observations_published ::= incr |>).
      assert (E2 : TraceImportReport.observations_published report2
        = TraceImportReport.observations_published report + 1) by (apply incr_small; lia).
      cbn [note_line].
      destruct (IH e' report2) as (report' & -> & H1 & H2 & H3);
        change (TraceImportReport.lines_read report2) with (TraceImportReport.lines_read report1) in *;
        change (TraceImportReport.rejected report2) with (TraceImportReport.rejected report) in *;
        change (TraceImportReport.diagnostics report2) with (TraceImportReport.diagnostics report) in *;
        [lia..|].
      exists report'. split_and!; [done|lia..].
    + set (report2 := note_line (Err err) report1).
      assert (E2 : TraceImportReport.rejected report2 = TraceImportReport.rejected report + 1)
        by (apply incr_small; lia).
      assert (E3 : zlen (TraceImportReport.diagnostics report2)
        = zlen (TraceImportReport.diagnostics report) + 1).
      { unfold report2. cbn -[zlen]. rewrite zlen_snoc. lia. }
      destruct (IH e' report2) as (report' & -> & H1 & H2 & H3);
        change (TraceImportReport.lines_read report2) with (TraceImportReport.lines_read report1) in *;
        change (TraceImportReport.observations_published report2)
          with (TraceImportReport.observations_published report) in *; [lia..|].
      exists report'. split_and!; [done|lia..].
Qed.
End effects.

(** Claim C38.  Importing a rendered trace republishes its events: for any list of
    observations whose provenance is the one of imported traces and whose fields the
    format can carry ([traceable]: printable enumerators, words as identities and
    metadata, quantities of 64 bits, timestamps that are not negative), a lenient import
    of the rendered trace, into any sink, publishes each of them once, in order, with
    the fields of an event line and every endpoint at generation 1; it has read one line
    per event and the header, every event is counted as published or as rejected, the
    latter with a diagnostic, and all that is published keeps that provenance. *)
Theorem rendered_trace_reimported {E : Type} (sink : IngestionSink.t E)
    (registrar : option (StructureRegistrar.t E)) (os : list Observation.t) (e : E) :
  Forall traceable os →
  Forall (λ o, Observation.provenance o = Provenance.ImportedTrace) os →
  zlen os < u64_max - 1 →
  ∃ report, import_trace_text sink registrar (render_trace os) false e
              = Some (publish_each sink (reimported <$> os) e, Ok report)
    ∧ TraceImportReport.lines_read report = 1 + zlen os
    ∧ TraceImportReport.observations_published report + TraceImportReport.rejected report = zlen os
    ∧ zlen (TraceImportReport.diagnostics report) = TraceImportReport.rejected report
    ∧ Forall (λ o, Observation.provenance o = Provenance.ImportedTrace) (reimported <$> os).
Proof.
  intros Ho Hp Hl. rewrite import_rendered_trace by done.
  destruct (replay_lenient sink os e (TraceImportReport.empty <| TraceImportReport.lines_read := 1 |>))
    as (report & -> & H1 & H2 & H3); [cbn; lia..|].
  change (zlen (TraceImportReport.diagnostics _)) with 0 in H3 at 2. cbn in H1, H2, H3.
  exists report. split_and!; [done|lia..|]. by apply Forall_fmap.
Qed.

(** ** Traces of valid observations *)

(** Endpoints that are not nodes: the format gives every endpoint generation 1, which a
    node reference must not carry. *)
Definition no_node (r : option ResourceRef.t) : Prop :=
  traceable_option (λ r, ResourceRef.kind r ≠ ResourceKind.Node) r.

Lemma validate_reimported_ref role r :
  validate_resource_ref role r = Ok tt → ResourceRef.kind r ≠ ResourceKind.Node →
  validate_resource_ref role (reimported_ref r) = Ok tt.
Proof.
  rewrite !validate_resource_ref_Ok. intros (Hv & Hu & Hn & Hg) Hk. unfold resource_ref_ok. cbn.
  split_and!; [done|done|by intros|done].
Qed.

Lemma validate_reimported_endpoints o o' :
  Observation.source o' = reimported_ref <$> Observation.source o →
  Observation.target o' = reimported_ref <$> Observation.target o →
  validate_endpoints o = Ok tt → no_node (Observation.source o) → no_node (Observation.target o) →
  validate_endpoints o' = Ok tt.
Proof.
  unfold validate_endpoints. intros -> ->. rewrite !seq_Ok. intros (Hs & Ht & Hst) Ns Nt.
  destruct (Observation.source o) as [s|], (Observation.target o) as [t|]; cbn in *;
    rewrite ?validate_reimported_ref by done; try done.
Qed.

Lemma reimported_publishable g o :
  traceable o → no_node (Observation.source o) → no_node (Observation.target o) →
  valid_token (PublisherRegistration.id g) → PublisherRegistration.boot g ≠ 0 →
  validate_observation_structure o = Ok tt → HostStream.publishable g (reimported o).
Proof.
  intros Ho Ns Nt Hid Hb H. unfold HostStream.publishable, validate_observation_structure in *.
  do 5 (apply seq_Ok in H as [_ H]). apply seq_Ok in H as [Htime H]. apply seq_Ok in H as [_ H].
  apply seq_Ok in H as [Hep H]. apply seq_Ok in H as [Hreg H]. do 3 (apply seq_Ok in H as [_ H]).
  apply seq_Ok in H as [Hrange H]. apply seq_Ok in H as [Hq Hc].
  apply seq_Ok. split; [done|]. apply seq_Ok. split.
  { apply reject_if_Ok. destruct (tr_type o Ho) as [[_ Hty] _]. apply Z.leb_gt. exact Hty. }
  apply seq_Ok. split.
  { apply reject_if_Ok. apply slen_pos, Hid. }
  apply seq_Ok. split; [rewrite relabel_Ok, validate_identity_token_ok; exact Hid|].
  apply seq_Ok. split; [apply reject_if_Ok, Z.eqb_neq; exact Hb|].
  apply seq_Ok. split; [exact Htime|]. apply seq_Ok. split; [done|].
  apply seq_Ok. split.
  { apply (validate_reimported_endpoints o); [reflexivity|reflexivity|exact Hep|exact Ns|exact Nt]. }
  apply seq_Ok. split.
  { apply validate_bound_name_Ok in Hreg. apply validate_bound_name_Ok. revert Hreg. cbn.
    unfold bound_name_ok. by destruct (Observation.region o), (Observation.region_generation o). }
  do 3 (apply seq_Ok; split; [done|]).
  apply seq_Ok. split.
  { unfold validate_enum_ranges in *. do 2 (apply seq_Ok in Hrange as [? Hrange]; apply seq_Ok; split; [done|]).
    apply seq_Ok in Hrange as [Hl Hrange]. apply seq_Ok. split; [|exact Hrange].
    cbn. destruct (Observation.locality_declared o); [exact Hl|done]. }
  apply seq_Ok. split.
  { unfold validate_quantities in *. apply seq_Ok in Hq as [Hq1 Hq]. apply seq_Ok in Hq as [Hq2 _].
    apply seq_Ok. split; [exact Hq1|]. apply seq_Ok. split; [|done].
    apply reject_if_Ok in Hq2. apply orb_false_iff in Hq2 as [Hq2 _]. apply reject_if_Ok.
    apply orb_false_iff. by split. }
  unfold validate_claims in *. apply seq_Ok in Hc as [Hc1 Hc]. do 4 (apply seq_Ok in Hc as [_ Hc]).
  apply seq_Ok. split; [exact Hc1|]. do 3 (apply seq_Ok; split; [done|]). apply seq_Ok. split.
  { apply reject_if_Ok. cbn. by destruct (Observation.locality_declared o). }
  apply reject_if_ctx_Ok in Hc. apply reject_if_ctx_Ok. cbn. by rewrite contains_sorted.
Qed.

Section host_import.
Context (clock : nat → Z) (g : PublisherRegistration.t).

(** What a trace can hold and the observatory accepts. *)
Definition importable (o : Observation.t) : Prop :=
  traceable o ∧ no_node (Observation.source o) ∧ no_node (Observation.target o)
  ∧ validate_observation_structure o = Ok tt.

Lemma replay_ready strict os : ∀ h report,
  HostStream.ready h → LocalPublisherHost.registration h = g →
  valid_token (PublisherRegistration.id g) → PublisherRegistration.boot g ≠ 0 →
  Forall importable os →
  LocalPublisherHost.next_sequence_ h + zlen os ≤ u64_max →
  LocalPublisherHost.next_event_id_ h + zlen os ≤ u64_max →
  0 ≤ TraceImportReport.observations_published report →
  TraceImportReport.observations_published report + zlen os ≤ u64_max →
  ∃ h' report',
    replay (LocalPublisherHost.host_sink clock) strict os h report = (h', Ok report')
    ∧ TraceImportReport.observations_published report'
      = TraceImportReport.observations_published report + zlen os
    ∧ TraceImportReport.rejected report' = TraceImportReport.rejected report
    ∧ LocalPublisherHost.next_sequence_ h' = LocalPublisherHost.next_sequence_ h + zlen os.
Proof.
  induction os as [|o os IH]; intros h report Hr Hg Hid Hb Ho Hs He H0 Hp.
  - exists h, report. rewrite zlen_nil, !Z.add_0_r. by split_and!.
  - rewrite zlen_cons in *. pose proof (zlen_nonneg os).
    apply Forall_cons in Ho as [(Ht & Ns & Nt & Hv) Ho]. cbn [replay].
    destruct (HostStream.publish_ready clock (reimported o) h Hr)
      as (h1 & r & Epub & Hd & _ & Hr1 & Eg & En & Ee & _); [done| |lia|lia|].
    { rewrite Hg. by apply reimported_publishable. }
    unfold publish_event, register. cbn [IngestionSink.publish LocalPublisherHost.host_sink].
    rewrite Epub. cbn [event_status]. rewrite Hd.
    rewrite bool_decide_false by done. cbn [reject_if_ctx note_line].
    match goal with |- context [replay _ _ _ _ ?rep] => set (report1 := rep) end.
    assert (E1 : TraceImportReport.observations_published report1
      = TraceImportReport.observations_published report + 1) by (apply incr_small; lia).
    destruct (IH h1 report1) as (h2 & report2 & -> & P1 & P2 & P3); [done|congruence|done|done|done|lia..|].
    exists h2, report2. split_and!; [done|lia| |lia]. by rewrite P2.
Qed.
End host_import.

(** A trace of valid evidence is imported whole: when a host is started for a
    publisher the observatory does not know and the trace rendered from any valid
    observations without node endpoints is imported through it, strictly or not, every
    event is accepted and none is rejected, whoever published them first. *)
Theorem rendered_trace_accepted (clock : nat → Z) (fresh : Z) (s : State.t)
    (g : PublisherRegistration.t) (registrar : option (StructureRegistrar.t Host)) (strict : bool)
    (os : list Observation.t) :
  let g' := g <| PublisherRegistration.boot ::= LocalPublisherHost.fill fresh |> in
  validate_registration g' = Ok tt →
  PublisherRegistration.coordinator_epoch g = 0 →
  State.publishers s !! PublisherRegistration.id g = None →
  zsize (State.publishers s) < Limits.kMaxPublisherCount →
  State.watermarks s !! boot_key (PublisherRegistration.id g) (PublisherRegistration.boot g') = None →
  Forall importable os → zlen os < u64_max →
  ∃ h h' report,
    LocalPublisherHost.start clock fresh
      (LocalPublisherHost.make s g LocalPublisherHost.Options.default) = (h, Ok tt)
    ∧ import_trace_text (LocalPublisherHost.host_sink clock) registrar (render_trace os) strict h
      = Some (h', Ok report)
    ∧ TraceImportReport.observations_published report = zlen os
    ∧ TraceImportReport.rejected report = 0.
Proof.
  intros g' Hv He Hp Hc Hw Ho Hl.
  destruct (HostStream.start_ready clock fresh s g Hv He Hp Hc Hw)
    as (h & Hs & Hr & Eid & Eb & En & Ee & _).
  unfold validate_registration in Hv. apply seq_Ok in Hv as [Hid Hv]. apply seq_Ok in Hv as [Hb _].
  apply validate_identity_token_ok in Hid. apply reject_if_Ok, Z.eqb_neq in Hb.
  destruct (replay_ready clock (LocalPublisherHost.registration h) strict os h
    (TraceImportReport.empty <| TraceImportReport.lines_read := 1 |>)) as (h' & report & Hi & H1 & H2 & _);
    [done|done|by rewrite Eid|by rewrite Eb|done|rewrite En; lia|rewrite Ee; lia|done|cbn; lia|].
  exists h, h', report. rewrite import_rendered_trace.
  - rewrite Hi. by split_and!.
  - eapply Forall_impl; [exact Ho|]. by intros o [? _].
Qed.

(** ** Imports of any text *)

Section any_text.
Context {E : Type} (sink : IngestionSink.t E) (registrar : option (StructureRegistrar.t E)).




Context (R : relation E) `{!PreOrder R}.
Context (Hsink : SinkRespects.t R sink).
Context (Hregistrar : ∀ r, registrar = Some r → RegistrarRespects.t R r).




End any_text.


(** ** Concrete traces *)

Definition lines_of (l : list string) : string := render_lines (kTraceMagic :: l).

(** A counter line one field short reads past its end: with eleven fields it
    passes the length check, its fields up to the timestamp are read, and then the source
    field that is not there; such an import has no defined result, into any sink. *)
Theorem eleven_field_counter_undefined {E : Type} (sink : IngestionSink.t E)
    (registrar : option (StructureRegistrar.t E)) (strict : bool) (e : E) :
  import_trace_text sink registrar
    (lines_of ["counter ctr.a REMOTE_READ ABSOLUTE PER_DEVICE 64 1 100 64 IMPORTED_TRACE 5"]%string)
    strict e = None.
Proof. by vm_compute. Qed.

Definition host_clock (n : nat) : Z := 10 + Z.of_nat n.
(** A started host on a fresh observatory. *)
Definition started_host : Host :=
  (LocalPublisherHost.start host_clock 7
     (LocalPublisherHost.make (make_observatory 1 ObservatoryOptions.default) local_registration
        LocalPublisherHost.Options.default)).1.

(** How many observations an import published, and the reality of the last one in the
    journal. *)
Definition last_imported (r : option (finished (E := Host))) : option (Z * option Reality.t) :=
  match r with
  | Some (h, Ok report) =>
      Some (TraceImportReport.observations_published report,
            reality_of ∘ Observation.provenance ∘ JournalEntry.observation
              <$> last (State.journal (LocalPublisherHost.observatory h)))
  | _ => None
  end.

(** Imported evidence can claim to be real: a trace line that names a hardware
    counter as its provenance is accepted as it is, and the observatory journals it with
    the reality REAL, although it came from a file. *)
Theorem imported_evidence_claims_hardware :
  last_imported (import_trace_text (LocalPublisherHost.host_sink host_clock) None
    (lines_of ["event REMOTE_READ - - - - READ UNKNOWN UNKNOWN 64 1 EXACT_EVENT DEVICE - HARDWARE_PERFORMANCE_COUNTER 5"]%string)
    true started_host) = Some (1, Some Reality.Real).
Proof. by vm_compute. Qed.

(** An endpoint that is a node is given generation 1, which no node reference may carry:
    the line is always rejected. *)
Theorem node_endpoint_never_imported (g : PublisherRegistration.t) (o : Observation.t) (r : ResourceRef.t) :
  Observation.source o = Some r → ResourceRef.kind r = ResourceKind.Node →
  ~ HostStream.publishable g (reimported o).
Proof.
  intros Hs Hk H. destruct (validated_endpoints _ H (reimported_ref r)) as (_ & _ & Hn & _).
  - left. change (reimported_ref <$> Observation.source o = Some (reimported_ref r)). by rewrite Hs.
  - by apply Hn in Hk.
Qed.

(** An observation a trace can carry. *)
Definition traced_event : Observation.t :=
  sample_observation <| Observation.metadata := [("source", "test")]%string |>
    <| Observation.provenance := Provenance.ImportedTrace |>.

Ltac solve_named := split; [by vm_compute|reflexivity].
Lemma traced_event_importable : importable traced_event.
Proof.
  split; [|split_and!; [by vm_compute..|by vm_compute]]. constructor.
  1-7: solve_named.
  - intros [=].
  - split; [solve_named|]. apply validate_identity_token_ok. by vm_compute.
  - exact I.
  - split_and!; [apply validate_identity_token_ok; by vm_compute|done|done|done].
  - by vm_compute.
  - by vm_compute.
  - by vm_compute.
  - split; [|by repeat constructor; vm_compute].
    split_and!; [by vm_compute|by repeat constructor; set_solver|].
    by repeat constructor; vm_compute.
  - intros [=].
Qed.

Lemma rendered_trace_reimported_witness :
  ∃ report, import_trace_text idle_sink None (render_trace [traced_event; traced_event]) false tt
              = Some (publish_each idle_sink (reimported <$> [traced_event; traced_event]) tt, Ok report)
    ∧ TraceImportReport.lines_read report = 3.
Proof.
  destruct (rendered_trace_reimported idle_sink None [traced_event; traced_event] tt) as (report & H & Hl & _).
  - pose proof traced_event_importable as [Ht _]. do 2 (constructor; [exact Ht|]). constructor.
  - by repeat constructor.
  - by vm_compute.
  - exists report. split; [exact H|]. rewrite Hl. by vm_compute.
Defined.

Lemma rendered_trace_accepted_witness :
  ∃ h h' report,
    LocalPublisherHost.start host_clock 7
      (LocalPublisherHost.make (make_observatory 1 ObservatoryOptions.default) local_registration
         LocalPublisherHost.Options.default) = (h, Ok tt)
    ∧ import_trace_text (LocalPublisherHost.host_sink host_clock) None (render_trace [traced_event]) true h
      = Some (h', Ok report).
Proof.
  destruct (rendered_trace_accepted host_clock 7 (make_observatory 1 ObservatoryOptions.default)
    local_registration None true [traced_event]) as (h & h' & report & Hs & Hi & _).
  - by vm_compute.
  - reflexivity.
  - by vm_compute.
  - by vm_compute.
  - by vm_compute.
  - constructor; [exact traced_event_importable|constructor].
  - by vm_compute.
  - exists h, h', report. exact (conj Hs Hi).
Defined.

