(* ===== verification/Synthetic.v ===== *)
(** * The synthetic backend

    [include/coherence/backends/synthetic.hpp] and [src/backends/synthetic.cpp]: preset
    scenarios, fault injection and the collector that emits them.

    The backend publishes through an [IngestionSink] and registers structure through an
    optional [StructureRegistrar]; [E] is the environment they act on.  Indexing a
    vector out of its range has no defined result in C++; a poll that does so has no
    result here ([None]).  The fields of the implementation that nothing reads
    ([context], [repeat_left], [malformed_emitted], [script_cursor]) are left out. *)

From S2P Require Import Prelude Errors TextUtil Ids Taxonomy Records Observation.
From S2P Require Import Sequence Attribution Registry Publishers Ingest Counters System Host.

(** ** Declarations *)

Module SyntheticResourceSpec.
Record t := mk {
  kind : ResourceKind.t; id : string; node : string; display_name : string;
  domain_kind : MemoryDomainKind.t; coherence_domain : string; coherent_with_host : bool;
  capacity_bytes : Z; vendor : string; peer_coherent_capable : bool; logical_processors : Z;
}.
#[global] Instance eta : Eta t := fun r =>
  mk (kind r) (id r) (node r) (display_name r) (domain_kind r) (coherence_domain r)
    (coherent_with_host r) (capacity_bytes r) (vendor r) (peer_coherent_capable r)
    (logical_processors r).
Definition empty : t :=
  mk ResourceKind.MemoryDomain "" "" "" MemoryDomainKind.HostDram "" true 0 "" false 0.
End SyntheticResourceSpec.

Module SyntheticRegionSpec.
Record t := mk {
  id : string; memory_domain : string; coherence_domain : string; owner : string;
  sharing_scope : SharingScope.t; size_bytes : Z; page_size_bytes : Z; workload : string;
  annotation : string;
}.
#[global] Instance eta : Eta t := fun r =>
  mk (id r) (memory_domain r) (coherence_domain r) (owner r) (sharing_scope r) (size_bytes r)
    (page_size_bytes r) (workload r) (annotation r).
Definition empty : t := mk "" "" "" "synthetic.workload" SharingScope.DeviceShared 4096 4096 "" "".
End SyntheticRegionSpec.

Module SyntheticStep.
Record t := mk {
  type : EventType.t; region : string; source : string; target : string;
  direction : AccessDirection.t; state_before : CoherenceState.t; state_after : CoherenceState.t;
  bytes : Z; lines : Z; pages : Z; locality : Locality.t; locality_declared : bool;
  precision : Precision.t; granularity : EvidenceGranularity.t; provenance : Provenance.t;
  measured_duration_ns : Z; spacing_ns : Z; repeat : Z; force_unknown_event : bool;
  backend_event_name : string;
}.
#[global] Instance eta : Eta t := fun s =>
  mk (type s) (region s) (source s) (target s) (direction s) (state_before s) (state_after s)
    (bytes s) (lines s) (pages s) (locality s) (locality_declared s) (precision s) (granularity s)
    (provenance s) (measured_duration_ns s) (spacing_ns s) (repeat s) (force_unknown_event s)
    (backend_event_name s).
Definition empty : t :=
  mk EventType.RemoteRead "" "" "" AccessDirection.None CoherenceState.Unknown CoherenceState.Unknown
    0 0 0 Locality.Unknown false Precision.ExactEvent EvidenceGranularity.Region
    Provenance.SyntheticBackend (-1) 1000 1 false "".
End SyntheticStep.

Module SyntheticPreset.
Inductive t :=
| SteadySharedReads | RemoteNumaAccess | PingPong | FalseSharingLike | InvalidationBurst
| CacheToCacheAndWriteback | CxlClassTraffic | SnoopDirectoryRetry | AggregateOnlyCounter
| PageGranularityContention.
#[global] Instance t_eq_dec : EqDecision t.
Proof. solve_decision. Defined.

Definition kPresetNames : list (t * string) :=
  [(SteadySharedReads, "STEADY_SHARED_READS"); (RemoteNumaAccess, "REMOTE_NUMA_ACCESS");
   (PingPong, "PING_PONG"); (FalseSharingLike, "FALSE_SHARING_LIKE");
   (InvalidationBurst, "INVALIDATION_BURST");
   (CacheToCacheAndWriteback, "CACHE_TO_CACHE_AND_WRITEBACK");
   (CxlClassTraffic, "CXL_CLASS_TRAFFIC"); (SnoopDirectoryRetry, "SNOOP_DIRECTORY_RETRY");
   (AggregateOnlyCounter, "AGGREGATE_ONLY_COUNTER");
   (PageGranularityContention, "PAGE_GRANULARITY_CONTENTION")]%string.

Definition to_string (preset : t) : string :=
  match list_find (λ e, e.1 = preset) kPresetNames with
  | Some (_, e) => e.2
  | None => "UNKNOWN"
  end.
Definition parse (text : string) : result t :=
  match list_find (λ e, iequals e.2 text = true) kPresetNames with
  | Some (_, e) => Ok e.1
  | None => fail_ctx ErrorCode.InvalidArgument "unknown synthetic preset" text
  end.
End SyntheticPreset.

Module SyntheticFaults.
Record t := mk {
  sequence_gap_at_index : Z; sequence_gap_size : Z;
  duplicate_at_index : Z; duplicate_enabled : bool;
  conflicting_duplicate_at_index : Z; conflicting_duplicate_enabled : bool;
  stale_replay_at_index : Z; stale_replay_enabled : bool;
  stale_region_generation_at_index : Z; stale_region_generation_enabled : bool;
  stale_topology_at_index : Z; stale_topology_enabled : bool;
  counter_reset_after_samples : Z; counter_wrap_after_samples : Z;
  counter_generation_change_after_samples : Z;
  retire_region_at_index : Z; retire_region_enabled : bool; retire_region_target : string;
  bump_device_generation_at_index : Z; bump_device_generation_enabled : bool;
  bump_topology_at_index : Z; bump_topology_enabled : bool;
  emit_malformed_after : bool; malformed_at_index : Z;
}.
#[global] Instance eta : Eta t := fun f =>
  mk (sequence_gap_at_index f) (sequence_gap_size f) (duplicate_at_index f) (duplicate_enabled f)
    (conflicting_duplicate_at_index f) (conflicting_duplicate_enabled f) (stale_replay_at_index f)
    (stale_replay_enabled f) (stale_region_generation_at_index f)
    (stale_region_generation_enabled f) (stale_topology_at_index f) (stale_topology_enabled f)
    (counter_reset_after_samples f) (counter_wrap_after_samples f)
    (counter_generation_change_after_samples f) (retire_region_at_index f)
    (retire_region_enabled f) (retire_region_target f) (bump_device_generation_at_index f)
    (bump_device_generation_enabled f) (bump_topology_at_index f) (bump_topology_enabled f)
    (emit_malformed_after f) (malformed_at_index f).
Definition none : t :=
  mk 0 0 0 false 0 false 0 false 0 false 0 false 0 0 0 0 false "" 0 false 0 false false 0.
End SyntheticFaults.

Module SyntheticConfig.
Record t := mk {
  seed : Z; publisher_id : string; publisher_name : string; observer_id : string; node_id : string;
  resources : list SyntheticResourceSpec.t; regions : list SyntheticRegionSpec.t;
  script : list SyntheticStep.t; presets : list SyntheticPreset.t;
  observation_budget : Z; emissions_per_poll : Z; publish_counters : bool; counter_id : string;
  counter_mapped_type : EventType.t; counter_scope : CounterScope.t; counter_kind : CounterKind.t;
  counter_width_bits : Z; counter_increment : Z; counter_bytes_per_unit : Z;
  faults : SyntheticFaults.t;
}.
#[global] Instance eta : Eta t := fun c =>
  mk (seed c) (publisher_id c) (publisher_name c) (observer_id c) (node_id c) (resources c)
    (regions c) (script c) (presets c) (observation_budget c) (emissions_per_poll c)
    (publish_counters c) (counter_id c) (counter_mapped_type c) (counter_scope c) (counter_kind c)
    (counter_width_bits c) (counter_increment c) (counter_bytes_per_unit c) (faults c).
Definition empty : t :=
  mk 0x5EEDC0FFEE "pub.synthetic.1" "synthetic-collector" "observer.local" "node.synthetic.0"
    [] [] [] [] 0 64 false "ctr.coherence.traffic" EventType.RemoteRead CounterScope.PerDevice
    CounterKind.Absolute 64 977 64 SyntheticFaults.none.
End SyntheticConfig.

(** ** The deterministic topology *)

Definition kNodeId : string := "node.synthetic.0".
Definition kCoherenceDomain : string := "cd.synthetic.0".
Definition kCoherenceDomainExact : string := "cd.synthetic.exact".
Definition kDomainHost : string := "md.host".
Definition kDomainAccA : string := "md.acc.a".
Definition kDomainAccB : string := "md.acc.b".
Definition kDomainCxl : string := "md.cxl".
Definition kDomainPooled : string := "md.pooled".
Definition kProc : string := "cpu.synthetic.0".
Definition kAccA : string := "acc.synthetic.a".
Definition kAccB : string := "acc.synthetic.b".
Definition kRegionShared : string := "region.shared".
Definition kRegionPing : string := "region.pingpong".
Definition kRegionLine : string := "region.line".
Definition kRegionCxl : string := "region.cxl".
Definition kRegionPage : string := "region.page".
Definition kMaxExpandedSteps : Z := 200000.

(** The loop that fills in the fields of a resource by its name and kind. *)
Definition complete_resource (spec : SyntheticResourceSpec.t) : SyntheticResourceSpec.t :=
  let id := SyntheticResourceSpec.id spec in
  let domain kind coherent :=
    spec <| SyntheticResourceSpec.domain_kind := kind |>
         <| SyntheticResourceSpec.coherent_with_host := coherent |> in
  let spec :=
    if String.eqb id kDomainCxl then domain MemoryDomainKind.CxlAttached false
    else if String.eqb id kDomainPooled then domain MemoryDomainKind.PooledMemory false
    else if String.eqb id kDomainAccA || String.eqb id kDomainAccB
    then domain MemoryDomainKind.DeviceMemory true
    else if String.eqb id kDomainHost then domain MemoryDomainKind.HostDram true
    else spec in
  let spec := spec <| SyntheticResourceSpec.coherence_domain := kCoherenceDomain |> in
  match SyntheticResourceSpec.kind spec with
  | ResourceKind.Accelerator =>
      spec <| SyntheticResourceSpec.vendor := "synthetic"%string |>
           <| SyntheticResourceSpec.peer_coherent_capable := true |>
  | ResourceKind.Processor => spec <| SyntheticResourceSpec.logical_processors := 8 |>
  | _ => spec
  end.

Definition base_resources : list SyntheticResourceSpec.t :=
  let spec '(kind, id) :=
    SyntheticResourceSpec.empty <| SyntheticResourceSpec.kind := kind |>
      <| SyntheticResourceSpec.id := id |> <| SyntheticResourceSpec.node := kNodeId |> in
  (λ e, complete_resource (spec e)) <$>
    [(ResourceKind.Processor, kProc); (ResourceKind.Accelerator, kAccA);
     (ResourceKind.Accelerator, kAccB); (ResourceKind.MemoryDomain, kDomainHost);
     (ResourceKind.MemoryDomain, kDomainAccA); (ResourceKind.MemoryDomain, kDomainAccB);
     (ResourceKind.MemoryDomain, kDomainCxl); (ResourceKind.MemoryDomain, kDomainPooled)].

Definition base_regions : list SyntheticRegionSpec.t :=
  let spec id domain size scope :=
    SyntheticRegionSpec.empty <| SyntheticRegionSpec.id := id |>
      <| SyntheticRegionSpec.memory_domain := domain |>
      <| SyntheticRegionSpec.coherence_domain := kCoherenceDomain |>
      <| SyntheticRegionSpec.size_bytes := size |> <| SyntheticRegionSpec.sharing_scope := scope |>
      <| SyntheticRegionSpec.workload := "workload.synthetic"%string |> in
  [spec kRegionShared kDomainHost (2 ^ 20) SharingScope.DeviceShared;
   spec kRegionPing kDomainAccA 4096 SharingScope.DeviceShared;
   spec kRegionLine kDomainHost 4096 SharingScope.ProcessShared;
   spec kRegionCxl kDomainCxl (2 ^ 20) SharingScope.Pooled;
   spec kRegionPage kDomainHost (2 ^ 21) SharingScope.ProcessShared].

(** ** Preset scripts *)

Definition make_step (type : EventType.t) (region source target : string) (repeat : Z)
    : SyntheticStep.t :=
  SyntheticStep.empty <| SyntheticStep.type := type |> <| SyntheticStep.region := region |>
    <| SyntheticStep.source := source |> <| SyntheticStep.target := target |>
    <| SyntheticStep.repeat := repeat |>.

(** The groups of assignments the presets share. *)
Definition declare (locality : Locality.t) (s : SyntheticStep.t) : SyntheticStep.t :=
  s <| SyntheticStep.locality := locality |> <| SyntheticStep.locality_declared := true |>.
Definition moves (before after : CoherenceState.t) (s : SyntheticStep.t) : SyntheticStep.t :=
  s <| SyntheticStep.state_before := before |> <| SyntheticStep.state_after := after |>.
Definition carries (bytes lines pages : Z) (s : SyntheticStep.t) : SyntheticStep.t :=
  s <| SyntheticStep.bytes := bytes |> <| SyntheticStep.lines := lines |> <| SyntheticStep.pages := pages |>.
Definition directed (direction : AccessDirection.t) (s : SyntheticStep.t) : SyntheticStep.t :=
  s <| SyntheticStep.direction := direction |>.
Definition every (spacing : Z) (s : SyntheticStep.t) : SyntheticStep.t :=
  s <| SyntheticStep.spacing_ns := spacing |>.
Definition resolving (granularity : EvidenceGranularity.t) (s : SyntheticStep.t) : SyntheticStep.t :=
  s <| SyntheticStep.granularity := granularity |>.
Definition precise (precision : Precision.t) (s : SyntheticStep.t) : SyntheticStep.t :=
  s <| SyntheticStep.precision := precision |>.

Definition times {A} (n : nat) (l : list A) : list A := concat (replicate n l).

Definition make_preset_script (preset : SyntheticPreset.t) : list SyntheticStep.t :=
  match preset with
  | SyntheticPreset.SteadySharedReads =>
      let read source locality :=
        carries 64 1 0 (declare locality (directed AccessDirection.Read
          (make_step EventType.SharedRead kRegionShared source kDomainHost 48))) in
      [read kAccA Locality.LocalAccelerator; read kAccB Locality.PeerAccelerator]
  | SyntheticPreset.RemoteNumaAccess =>
      [carries 4096 0 1 (declare Locality.RemoteNuma (directed AccessDirection.Read
         (make_step EventType.RemoteRead kRegionShared kProc kDomainHost 24)));
       carries 4096 0 1 (declare Locality.RemoteNuma
         (moves CoherenceState.Shared CoherenceState.Modified (directed AccessDirection.Write
            (make_step EventType.RemoteWrite kRegionShared kProc kDomainHost 12))))]
  | SyntheticPreset.PingPong =>
      let transfer source target :=
        every 20000 (declare Locality.PeerAccelerator
          (moves CoherenceState.Modified CoherenceState.Invalid
             (make_step EventType.OwnershipTransfer kRegionPing source target 1))) in
      times 6 [transfer kAccA kAccB; transfer kAccB kAccA]
  | SyntheticPreset.FalseSharingLike =>
      times 8
        [declare Locality.PeerAccelerator (resolving EvidenceGranularity.CacheLine
           (moves CoherenceState.Shared CoherenceState.Exclusive (directed AccessDirection.Write
              (make_step EventType.WriteExclusiveTransition kRegionLine kAccA kDomainHost 1))));
         declare Locality.PeerAccelerator (resolving EvidenceGranularity.CacheLine
           (moves CoherenceState.Shared CoherenceState.Invalid
              (make_step EventType.Invalidation kRegionLine kAccA kAccB 1)))]
  | SyntheticPreset.InvalidationBurst =>
      [declare Locality.PeerAccelerator (moves CoherenceState.Shared CoherenceState.Invalid
         (every 200 (make_step EventType.Invalidation kRegionShared kAccA kAccB 24)))]
  | SyntheticPreset.CacheToCacheAndWriteback =>
      [carries 64 1 0 (declare Locality.PeerAccelerator
         (moves CoherenceState.SharedClean CoherenceState.SharedDirty
            (make_step EventType.CacheToCacheTransfer kRegionShared kAccA kAccB 16)));
       carries 64 1 0 (moves CoherenceState.Modified CoherenceState.Shared
         (make_step EventType.Writeback kRegionShared kAccB kDomainHost 8))]
  | SyntheticPreset.CxlClassTraffic =>
      [carries 4096 0 1 (declare Locality.CxlAttached (directed AccessDirection.Read
         (make_step EventType.RemoteRead kRegionCxl kProc kDomainCxl 24)));
       carries 4096 0 1 (declare Locality.CxlAttached (directed AccessDirection.Write
         (make_step EventType.RemoteWrite kRegionCxl kProc kDomainCxl 12)));
       carries 4096 0 0 (declare Locality.PooledMemory
         (make_step EventType.MemoryDomainTransfer kRegionCxl kDomainCxl kDomainPooled 6))]
  | SyntheticPreset.SnoopDirectoryRetry =>
      let step type := make_step type kRegionShared kAccA kAccB in
      [step EventType.SnoopRequest 16; step EventType.DirectoryMiss 8;
       step EventType.CoherenceRetry 8; step EventType.CoherenceConflict 4]
  | SyntheticPreset.AggregateOnlyCounter =>
      [(precise Precision.ExactCounterDelta (resolving EvidenceGranularity.Device
          (make_step EventType.RemoteRead kRegionShared kProc kDomainHost 1)))
         <| SyntheticStep.backend_event_name := "aggregate-device-counter"%string |>]
  | SyntheticPreset.PageGranularityContention =>
      [declare Locality.LocalNuma (carries 4096 0 1 (precise Precision.SampledEvent
         (resolving EvidenceGranularity.Page (directed AccessDirection.Write
            (make_step EventType.WriteExclusiveTransition kRegionPage kProc kDomainHost 12)))));
       declare Locality.LocalNuma (carries 0 0 1 (precise Precision.SampledEvent
         (resolving EvidenceGranularity.Page
            (make_step EventType.Invalidation kRegionPage kProc kAccA 8))))]
  end.

Definition make_preset_config (preset : SyntheticPreset.t) (seed : Z) : SyntheticConfig.t :=
  SyntheticConfig.empty <| SyntheticConfig.seed := seed |>
    <| SyntheticConfig.resources := base_resources |> <| SyntheticConfig.regions := base_regions |>
    <| SyntheticConfig.script := make_preset_script preset |>
    <| SyntheticConfig.presets := [preset] |>.

(** ** The collector *)

Module SyntheticBackend.
Record t := mk {
  config : SyntheticConfig.t; expanded : list SyntheticStep.t; step_index : Z; emissions : Z;
  rejections : Z; counter_samples : Z; counter_raw : Z; counter_generation : Z; clock_ns : Z;
  last_event_id : Z; last_sequence : Z; last_observation : Observation.t; started : bool;
  region_retired : bool; device_bumped : bool; topology_bumped : bool;
}.
#[global] Instance eta : Eta t := fun b =>
  mk (config b) (expanded b) (step_index b) (emissions b) (rejections b) (counter_samples b)
    (counter_raw b) (counter_generation b) (clock_ns b) (last_event_id b) (last_sequence b)
    (last_observation b) (started b) (region_retired b) (device_bumped b) (topology_bumped b).
Definition make (config : SyntheticConfig.t) : t :=
  mk config [] 0 0 0 0 0 1 0 0 0 Observation.empty false false false false.

Definition width_max (b : t) : Z :=
  let width := SyntheticConfig.counter_width_bits (config b) in
  if 64 <=? width then u64_max else 2 ^ width - 1.

Definition ref (kind : ResourceKind.t) (id : string) (generation : Z) : ResourceRef.t :=
  ResourceRef.mk kind id generation.
Definition kind_of (id : string) : ResourceKind.t :=
  if String.prefix "md." id then ResourceKind.MemoryDomain
  else if String.prefix "cpu." id then ResourceKind.Processor
  else if String.prefix "acc." id then ResourceKind.Accelerator
  else if String.prefix "cd." id then ResourceKind.CoherenceDomain
  else if String.prefix "node." id then ResourceKind.Node
  else ResourceKind.Unknown.

Definition capabilities : list Capability.t :=
  let capability '(key, detail) :=
    Capability.mk key CapabilityStatus.Synthetic detail "synthetic-exact-scenario" in
  capability <$>
    [("coherence.cache_line_ownership",
      "simulated per-cache-line ownership transitions with exact ground truth");
     ("coherence.invalidation_counters", "simulated invalidation events, individually identified");
     ("accelerator.coherence_telemetry",
      "simulated accelerator cache-line ownership and peer transfers");
     ("memory.cxl_telemetry", "simulated CXL-class and pooled-memory coherence traffic");
     ("memory.pooled_telemetry", "simulated pooled-memory domain transfers");
     ("cpu.numa_topology", "simulated multi-domain locality relationships")]%string.

Definition set_script (script : list SyntheticStep.t) (b : t) : t * result unit :=
  if started b then (b, fail ErrorCode.Busy "script cannot change after start")
  else (b <| config ::= λ c, c <| SyntheticConfig.script := script |> |>, ok_status).

(** The steps of the script, each as often as it says, up to the bound. *)
Definition expand_step (expanded : list SyntheticStep.t) (step : SyntheticStep.t) : list SyntheticStep.t :=
  let repeat := if SyntheticStep.repeat step =? 0 then 1 else SyntheticStep.repeat step in
  expanded ++ replicate (Z.to_nat (Z.min repeat (kMaxExpandedSteps - zlen expanded))) step.
Definition expand (script expanded : list SyntheticStep.t) : list SyntheticStep.t :=
  foldl expand_step expanded script.

Definition whole_script (c : SyntheticConfig.t) : list SyntheticStep.t :=
  SyntheticConfig.script c ++ (SyntheticConfig.presets c ≫= make_preset_script).

(** *** Registration *)

Section registration.
Context {E : Type} (registrar : StructureRegistrar.t E).

(** One after the other, up to the first that fails. *)
Fixpoint each {A} (f : A → E → E * result unit) (l : list A) (e : E) : E * result unit :=
  match l with
  | [] => (e, ok_status)
  | a :: l => let '(e, r) := f a e in match r with Ok _ => each f l e | Err _ => (e, r) end
  end.
Definition followed_by (r : E * result unit) (k : E → E * result unit) : E * result unit :=
  match r.2 with Ok _ => k r.1 | Err _ => r end.

(** [fail(registered.code(), what + registered.describe())]. *)
Definition explained (what : string) (r : E * result unit) : E * result unit :=
  match r.2 with
  | Ok _ => r
  | Err e => (r.1, fail (Error.code e) (what +:+ " registration failed: " +:+ Error.describe e))
  end.

Definition register_domain (id : string) (e : E) : E * result unit :=
  let '(e, r) := StructureRegistrar.register_coherence_domain registrar
                   (CoherenceDomainRecord.mk id 1 "synthetic-exact" [] false 0) e in
  match r with
  | Err err =>
      if decide (Error.code err = ErrorCode.AlreadyExists) then (e, ok_status)
      else explained "synthetic coherence domain" (e, r)
  | Ok _ => (e, ok_status)
  end.

(** The [switch] over the kind of a declared resource. *)
Definition register_resource (spec : SyntheticResourceSpec.t) (e : E) : E * result unit :=
  let id := SyntheticResourceSpec.id spec in
  let node := SyntheticResourceSpec.node spec in
  match SyntheticResourceSpec.kind spec with
  | ResourceKind.Processor =>
      let count := SyntheticResourceSpec.logical_processors spec in
      explained "synthetic processor" (StructureRegistrar.register_processor registrar
        (ProcessorRecord.mk id node 1 count count 0 false kDomainHost false 0) e)
  | ResourceKind.Accelerator =>
      explained "synthetic accelerator" (StructureRegistrar.register_accelerator registrar
        (AcceleratorRecord.mk id node 1 (SyntheticResourceSpec.vendor spec) (id +:+ "-uuid")
           (if String.eqb id kAccA then kDomainAccA else kDomainAccB)
           (SyntheticResourceSpec.peer_coherent_capable spec) true false 0) e)
  | ResourceKind.MemoryDomain =>
      explained "synthetic memory domain" (StructureRegistrar.register_memory_domain registrar
        (MemoryDomainRecord.mk id 1 node (SyntheticResourceSpec.domain_kind spec) kCoherenceDomain
           (SyntheticResourceSpec.coherent_with_host spec) true (2 ^ 34) true false 0) e)
  | _ => (e, ok_status)
  end.

(** Memory domains in the first pass, the rest in the second. *)
Definition in_pass (domains : bool) (spec : SyntheticResourceSpec.t) : bool :=
  Bool.eqb domains (bool_decide (SyntheticResourceSpec.kind spec = ResourceKind.MemoryDomain)).
Definition register_pass (domains : bool) (specs : list SyntheticResourceSpec.t) (e : E) : E * result unit :=
  each (λ spec e, if in_pass domains spec then register_resource spec e else (e, ok_status)) specs e.

Definition register_region (spec : SyntheticRegionSpec.t) (e : E) : E * result unit :=
  explained "synthetic region" (StructureRegistrar.register_region registrar
    (RegionRecord.mk (SyntheticRegionSpec.id spec) 1 0 (SyntheticRegionSpec.owner spec)
       (SyntheticRegionSpec.memory_domain spec) 1 (SyntheticRegionSpec.coherence_domain spec)
       (SyntheticRegionSpec.sharing_scope spec) (SyntheticRegionSpec.size_bytes spec) true
       (SyntheticRegionSpec.page_size_bytes spec) true 1 1 (SyntheticRegionSpec.workload spec)
       (SyntheticRegionSpec.annotation spec) false 0 0 false) e).

(** The links and capabilities, whose outcomes are not looked at. *)
Definition links : list TopologyLink.t :=
  let link '(from, to, locality) := TopologyLink.mk from to locality (-1) 0 Provenance.SyntheticBackend in
  let accelerator id := ref ResourceKind.Accelerator id 1 in
  let domain id := ref ResourceKind.MemoryDomain id 1 in
  let processor := ref ResourceKind.Processor kProc 1 in
  link <$>
    [(accelerator kAccA, domain kDomainHost, Locality.LocalAccelerator);
     (accelerator kAccB, domain kDomainHost, Locality.PeerAccelerator);
     (processor, domain kDomainHost, Locality.LocalNuma);
     (processor, domain kDomainCxl, Locality.CxlAttached);
     (accelerator kAccA, accelerator kAccB, Locality.PeerAccelerator)].
Definition set_links (e : E) : E :=
  foldl (λ e link, (StructureRegistrar.set_topology_link registrar link e).1) e links.
Definition set_capabilities (e : E) : E :=
  foldl (λ e c, (StructureRegistrar.set_capability registrar c e).1) e capabilities.

Definition register_structure (c : SyntheticConfig.t) (e : E) : E * result unit :=
  let e := (StructureRegistrar.register_node registrar (NodeRecord.mk kNodeId "synthetic node" 0) e).1 in
  followed_by (each register_domain [kCoherenceDomain; kCoherenceDomainExact] e) (λ e,
  followed_by (register_pass true (SyntheticConfig.resources c) e) (λ e,
  followed_by (register_pass false (SyntheticConfig.resources c) e) (λ e,
  followed_by (each register_region (SyntheticConfig.regions c) e) (λ e,
  (set_capabilities (set_links e), ok_status))))).
End registration.

Section backend.
Context {E : Type}.

Definition start (ctx : CollectorContext.t E) (be : t * E) : (t * E) * result unit :=
  let '(b, e) := be in
  match CollectorContext.sink ctx with
  | None => ((b, e), fail ErrorCode.InvalidArgument "synthetic backend requires an ingestion sink")
  | Some _ =>
      let b := b <| clock_ns := 0 |> in
      match whole_script (config b) with
      | [] => ((b, e), fail ErrorCode.InvalidArgument "synthetic script is empty")
      | script =>
          let b := b <| expanded ::= expand script |> in
          match expanded b with
          | [] => ((b, e), fail ErrorCode.InvalidArgument "expanded synthetic script is empty")
          | _ =>
              let '(e, r) := match CollectorContext.registrar ctx with
                             | None => (e, ok_status)
                             | Some registrar => register_structure registrar (config b) e
                             end in
              match r with
              | Err err => ((b, e), Err err)
              | Ok _ => ((b <| started := true |>, e), ok_status)
              end
          end
      end
  end.

Definition stop (b : t) : t := b <| started := false |>.

(** *** One emission *)

Section emission.
Context (sink : IngestionSink.t E) (registrar : option (StructureRegistrar.t E)).

(** The structural mutation scenarios, each of which happens once. *)
Definition retire_region (index : Z) (b : t) (e : E) : t * E :=
  let f := SyntheticConfig.faults (config b) in
  match registrar with
  | Some r =>
      if SyntheticFaults.retire_region_enabled f && negb (region_retired b)
         && (SyntheticFaults.retire_region_at_index f <=? index)
      then
        let target := if sempty (SyntheticFaults.retire_region_target f) then kRegionShared
                      else SyntheticFaults.retire_region_target f in
        (b <| region_retired := true |>,
         (StructureRegistrar.retire_region r target 1 "synthetic retirement scenario" e).1)
      else (b, e)
  | None => (b, e)
  end.
Definition bump_device (index : Z) (b : t) (e : E) : t * E :=
  let f := SyntheticConfig.faults (config b) in
  match registrar with
  | Some r =>
      if SyntheticFaults.bump_device_generation_enabled f && negb (device_bumped b)
         && (SyntheticFaults.bump_device_generation_at_index f <=? index)
      then
        (b <| device_bumped := true |>,
         (StructureRegistrar.register_accelerator r
            (AcceleratorRecord.mk kAccA kNodeId 2 "synthetic" (kAccA +:+ "-uuid") kDomainAccA true true
               false 0) e).1)
      else (b, e)
  | None => (b, e)
  end.
Definition bump_topology (index : Z) (b : t) (e : E) : t * E :=
  let f := SyntheticConfig.faults (config b) in
  match registrar with
  | Some r =>
      if SyntheticFaults.bump_topology_enabled f && negb (topology_bumped b)
         && (SyntheticFaults.bump_topology_at_index f <=? index)
      then
        (b <| topology_bumped := true |>,
         (StructureRegistrar.bump_topology r "synthetic topology change scenario" e).1)
      else (b, e)
  | None => (b, e)
  end.
Definition mutate_structure (index : Z) (b : t) (e : E) : t * E :=
  let '(b, e) := retire_region index b e in
  let '(b, e) := bump_device index b e in
  bump_topology index b e.

(** A name that is present. *)
Definition present {A} (name : string) (a : A) : option A := if sempty name then None else Some a.

(** The observation of a step at a time, under a sequence and a topology generation. *)
Definition observe_step (step : SyntheticStep.t) (timestamp topology sequence : Z) : Observation.t :=
  let o := Observation.empty
    <| Observation.type := SyntheticStep.type step |>
    <| Observation.timestamp_ns := timestamp |>
    <| Observation.direction := SyntheticStep.direction step |>
    <| Observation.state_before := SyntheticStep.state_before step |>
    <| Observation.state_after := SyntheticStep.state_after step |>
    <| Observation.bytes := SyntheticStep.bytes step |>
    <| Observation.lines := SyntheticStep.lines step |>
    <| Observation.pages := SyntheticStep.pages step |>
    <| Observation.locality := SyntheticStep.locality step |>
    <| Observation.locality_declared := SyntheticStep.locality_declared step |>
    <| Observation.precision := SyntheticStep.precision step |>
    <| Observation.granularity := SyntheticStep.granularity step |>
    <| Observation.provenance := SyntheticStep.provenance step |>
    <| Observation.measured_duration_ns := SyntheticStep.measured_duration_ns step |>
    <| Observation.topology_generation := topology |>
    <| Observation.sequence := sequence |>
    <| Observation.event_id := sequence |>
    <| Observation.region := present (SyntheticStep.region step) (SyntheticStep.region step) |>
    <| Observation.region_generation := present (SyntheticStep.region step) 1 |>
    <| Observation.source := present (SyntheticStep.source step)
         (ref (kind_of (SyntheticStep.source step)) (SyntheticStep.source step) 1) |>
    <| Observation.target := present (SyntheticStep.target step)
         (ref (kind_of (SyntheticStep.target step)) (SyntheticStep.target step) 1) |> in
  if SyntheticStep.force_unknown_event step
  then
    let name := if sempty (SyntheticStep.backend_event_name step) then "unnamed"%string
                else SyntheticStep.backend_event_name step in
    o <| Observation.type := EventType.UnknownCoherenceEvent |>
      <| Observation.metadata ::= λ m,
           match BoundedMetadata.add "backend.event" name m with Ok m => m | Err _ => m end |>
  else o.

(** Fault injection on the evidence. *)
Definition inject_evidence (f : SyntheticFaults.t) (index : Z) (o : Observation.t) : Observation.t :=
  let o :=
    match Observation.region o with
    | Some _ =>
        if SyntheticFaults.stale_region_generation_enabled f
           && (index =? SyntheticFaults.stale_region_generation_at_index f)
        then o <| Observation.region_generation ::= option_map (λ g, u64_add g 7) |>
        else o
    | None => o
    end in
  let o := if SyntheticFaults.stale_topology_enabled f && (index =? SyntheticFaults.stale_topology_at_index f)
           then o <| Observation.topology_generation ::= λ g, u64_add g 3 |> else o in
  if SyntheticFaults.emit_malformed_after f && (index =? SyntheticFaults.malformed_at_index f)
  then o <| Observation.bytes := Limits.kMaxByteCount + 1 |> else o.
(** Fault injection on the identity: replays of the previous record or of sequence 1. *)
Definition inject_replay (f : SyntheticFaults.t) (index : Z) (last o : Observation.t) : Observation.t :=
  if SyntheticFaults.duplicate_enabled f && (index =? SyntheticFaults.duplicate_at_index f) then last
  else if SyntheticFaults.conflicting_duplicate_enabled f
          && (index =? SyntheticFaults.conflicting_duplicate_at_index f)
  then last <| Observation.bytes ::= λ n, u64_add n 4096 |>
  else if SyntheticFaults.stale_replay_enabled f && (index =? SyntheticFaults.stale_replay_at_index f)
  then o <| Observation.sequence := 1 |>
  else o.
Definition skip_sequences (f : SyntheticFaults.t) (index : Z) (e : E) : E :=
  if negb (SyntheticFaults.sequence_gap_size f =? 0) && (index =? SyntheticFaults.sequence_gap_at_index f)
  then Nat.iter (Z.to_nat (SyntheticFaults.sequence_gap_size f)) (λ e, (IngestionSink.next_sequence sink e).1) e
  else e.

(** The counter after one more sample: its raw value, its generation and its kind. *)
Definition advance_counter (b : t) : t * CounterKind.t :=
  let c := config b in
  let f := SyntheticConfig.faults c in
  let sample := counter_samples b in
  let wmax := width_max b in
  let after n := negb (n =? 0) && (sample =? n) in
  let raw := if negb (SyntheticFaults.counter_reset_after_samples f =? 0)
                && (SyntheticFaults.counter_reset_after_samples f <=? sample) && (sample mod 7 =? 0)
             then 0 else counter_raw b in
  let raw := u64_add raw (SyntheticConfig.counter_increment c)
             mod (if wmax =? u64_max then wmax else wmax + 1) in
  let wrapped := after (SyntheticFaults.counter_wrap_after_samples f) in
  let raw := if wrapped then u64_sub wmax 4 else raw in
  let generation := if after (SyntheticFaults.counter_generation_change_after_samples f)
                    then u64_add (counter_generation b) 1 else counter_generation b in
  (b <| counter_raw := raw |> <| counter_generation := generation |>,
   if wrapped then CounterKind.Wrapping else SyntheticConfig.counter_kind c).

Definition counter_publication (b : t) (kind : CounterKind.t) (topology : Z) : CounterPublication.t :=
  let c := config b in
  CounterPublication.empty
    <| CounterPublication.counter := SyntheticConfig.counter_id c |>
    <| CounterPublication.mapped_type := SyntheticConfig.counter_mapped_type c |>
    <| CounterPublication.kind := kind |>
    <| CounterPublication.scope := SyntheticConfig.counter_scope c |>
    <| CounterPublication.width_bits := SyntheticConfig.counter_width_bits c |>
    <| CounterPublication.generation := counter_generation b |>
    <| CounterPublication.sampling_epoch := 1 |>
    <| CounterPublication.bytes_per_unit := SyntheticConfig.counter_bytes_per_unit c |>
    <| CounterPublication.timestamp_ns := clock_ns b |>
    <| CounterPublication.provenance := Provenance.SyntheticBackend |>
    <| CounterPublication.granularity :=
         if decide (SyntheticConfig.counter_scope c = CounterScope.PerRegion)
         then EvidenceGranularity.Region else EvidenceGranularity.Device |>
    <| CounterPublication.source := Some (ref ResourceKind.Accelerator kAccA 1) |>
    <| CounterPublication.topology_generation := topology |>
    <| CounterPublication.raw_value := counter_raw b |>.

Definition publish_counter (topology : Z) (b : t) (e : E) : t * E :=
  if SyntheticConfig.publish_counters (config b)
  then
    let '(b, kind) := advance_counter b in
    let '(e, outcome) := IngestionSink.publish_counter sink (counter_publication b kind topology) e in
    (b <| rejections ::= (λ n, if is_ok outcome then n else u64_add n 1) |>
       <| counter_samples ::= λ n, u64_add n 1 |>, e)
  else (b, e).

(** The record is remembered as it was handed to the sink. *)
Definition publish (o : Observation.t) (b : t) (e : E) : t * E :=
  let b := b <| last_event_id := Observation.event_id o |>
             <| last_sequence := Observation.sequence o |> in
  let '(e, outcome) := IngestionSink.publish sink o e in
  let rejected :=
    match outcome with
    | Ok out => bool_decide (IngestionOutcome.disposition out = IngestionDisposition.Rejected)
    | Err _ => true
    end in
  (b <| last_observation := o |> <| emissions ::= (λ n, u64_add n 1) |>
     <| rejections ::= (λ n, if rejected then u64_add n 1 else n) |>
     <| step_index ::= λ n, u64_add n 1 |>, e).

Definition emit (step : SyntheticStep.t) (b : t) (e : E) : t * E :=
  let index := emissions b in
  let f := SyntheticConfig.faults (config b) in
  let '(b, e) := mutate_structure index b e in
  let timestamp := clock_ns b in
  let b := b <| clock_ns ::= λ now, now + SyntheticStep.spacing_ns step |> in
  let topology := match registrar with
                  | Some r => StructureRegistrar.topology_generation r e
                  | None => 1
                  end in
  let '(e, sequence) := IngestionSink.next_sequence sink e in
  let o := inject_replay f index (last_observation b)
             (inject_evidence f index (observe_step step timestamp topology sequence)) in
  let e := skip_sequences f index e in
  let '(b, e) := publish o b e in
  publish_counter (Observation.topology_generation o) b e.

(** The current step; the script repeats. *)
Definition current_step (b : t) : option SyntheticStep.t :=
  let size := zlen (expanded b) in
  if size =? 0 then None else expanded b !! Z.to_nat (step_index b mod size).

Definition budget_spent (b : t) : bool :=
  let budget := SyntheticConfig.observation_budget (config b) in
  negb (budget =? 0) && (budget <=? emissions b).

(** The loop of [poll], with as many rounds as the budget. *)
Fixpoint emit_many (rounds : nat) (b : t) (e : E) : option (t * E) :=
  match rounds with
  | O => Some (b, e)
  | S rounds =>
      if budget_spent b then Some (b, e)
      else
        step ← current_step b;
        let '(b, e) := emit step b e in
        emit_many rounds b e
  end.
End emission.

Definition poll (ctx : CollectorContext.t E) (be : t * E) : option ((t * E) * result unit) :=
  let '(b, e) := be in
  match CollectorContext.sink ctx, started b with
  | Some sink, true =>
      let budget := if CollectorContext.budget_per_poll ctx =? 0 then 64
                    else CollectorContext.budget_per_poll ctx in
      '(b, e) ← emit_many sink (CollectorContext.registrar ctx) (Z.to_nat budget) b e;
      Some ((b, e), ok_status)
  | _, _ => Some ((b, e), fail ErrorCode.Busy "synthetic backend is not started")
  end.
End backend.
End SyntheticBackend.
