(* ===== verification/SyntheticRuns.v ===== *)
(** * What the synthetic backend does

    Whatever its configuration and the faults it injects, the backend acts on its
    environment only through the sink and the registrar, every poll of a started backend
    has a result, and a configured observation budget bounds the emissions exactly. *)

From S2P Require Import Prelude Errors TextUtil Ids Taxonomy Policies Records Observation.
From S2P Require Import Sequence State Attribution Registry Publishers Ingest Counters System.
From S2P Require Import Findings Analysis Host Synthetic.

Import SyntheticBackend.

Section any_environment.
Context {E : Type} (R : relation E) `{!PreOrder R}.

(** ** Registration *)

Section registration.
Context (r : StructureRegistrar.t E) (Hr : RegistrarRespects.t R r).



End registration.


(** ** Emissions *)

Context (sink : IngestionSink.t E) (registrar : option (StructureRegistrar.t E)).
Context (Hsink : SinkRespects.t R sink).
Context (Hregistrar : ∀ r, registrar = Some r → RegistrarRespects.t R r).






(** A started backend has steps to emit. *)
Definition ready (b : t) : Prop := started b = true ∧ expanded b ≠ [].



End any_environment.

Lemma started_ready {E} (ctx : CollectorContext.t E) b e b1 e1 u :
  start ctx (b, e) = ((b1, e1), Ok u) →
  ready b1 ∧ config b1 = config b ∧ emissions b1 = emissions b.
Proof.
  unfold start. destruct (CollectorContext.sink ctx); [|done]. destruct (whole_script _); [done|].
  match goal with |- context [expanded ?b0] => set (b2 := b0) end.
  destruct (expanded b2) eqn:Ex; [done|].
  destruct (match CollectorContext.registrar ctx with Some _ => _ | None => _ end) as [e2 [v|err]]; [|done].
  intros [= <- <- <-]. split; [|done]. split; [done|]. change (expanded b2 ≠ []). by rewrite Ex.
Qed.





(** ** Presets *)

(** The names of the presets are parsed back. *)
Lemma preset_name_parsed preset :
  SyntheticPreset.parse (SyntheticPreset.to_string preset) = Ok preset.
Proof. by destruct preset; vm_compute. Qed.

(** A preset's evidence is synthetic and exactly of the fixed topology. *)
Lemma preset_evidence_synthetic preset :
  Forall (λ step, SyntheticStep.provenance step = Provenance.SyntheticBackend
                  ∧ SyntheticStep.force_unknown_event step = false) (make_preset_script preset).
Proof. by destruct preset; repeat constructor. Qed.

(** The configuration made for a preset names it twice, as its script and among its
    presets, and [start] appends the one to the other: the scenario is emitted twice. *)
Theorem preset_script_doubled preset seed :
  whole_script (make_preset_config preset seed) = make_preset_script preset ++ make_preset_script preset.
Proof. unfold whole_script. cbn [make_preset_config]. by rewrite <- (app_nil_r (make_preset_script preset)) at 2. Qed.

(** A second [start] appends the script to what the first one left. *)
Theorem restart_repeats_script {E} (ctx : CollectorContext.t E) b e b1 e1 b2 e2 u v :
  start ctx (b, e) = ((b1, e1), Ok u) → start ctx (stop b1, e1) = ((b2, e2), Ok v) →
  expanded b2 = expand (whole_script (config b)) (expand (whole_script (config b)) (expanded b)).
Proof.
  assert (Hs : ∀ b e b1 e1 u, start ctx (b, e) = ((b1, e1), Ok u) →
    config b1 = config b ∧ expanded b1 = expand (whole_script (config b)) (expanded b)).
  { intros b0 e0 b3 e3 u0 H. split; [by apply started_ready in H as (_ & ? & _)|]. revert H. unfold start.
    destruct (CollectorContext.sink ctx); [|done]. change (config (b0 <| clock_ns := 0 |>)) with (config b0).
    destruct (whole_script (config b0)) as [|s l]; [done|].
    match goal with |- context [expanded ?b4] => set (b5 := b4) end.
    destruct (expanded b5) eqn:Ex; [done|].
    destruct (match CollectorContext.registrar ctx with Some _ => _ | None => _ end) as [e4 [w|err]]; [|done].
    by intros [= <- <- <-]. }
  intros [C1 X1]%Hs [C2 X2]%Hs. rewrite X2. change (config (stop b1)) with (config b1).
  change (expanded (stop b1)) with (expanded b1). by rewrite C1, X1.
Qed.

Definition synthetic_clock (n : nat) : Z := 10 + Z.of_nat n.
Definition synthetic_host : Host := (LocalPublisherHost.start synthetic_clock 7
  (LocalPublisherHost.make (make_observatory 1 ObservatoryOptions.default) local_registration
     LocalPublisherHost.Options.default)).1.
Definition synthetic_context (budget : Z) : CollectorContext.t Host :=
  CollectorContext.mk (Some (LocalPublisherHost.host_sink synthetic_clock))
    (Some (LocalPublisherHost.host_registrar synthetic_clock)) 1 budget.



(** What a preset leads to after so many emissions: how the start ended, the number of
    emissions and rejections, and the kinds of the findings. *)
Definition scenario (preset : SyntheticPreset.t) (budget : Z)
    : option (result unit * Z * Z * option (list FindingKind.t)) :=
  let ctx := synthetic_context budget in
  let '(be, r) := start ctx (make (make_preset_config preset 1), synthetic_host) in
  '((b, h), _) ← poll ctx be;
  Some (r, emissions b, rejections b,
        map Finding.kind <$> analyze_all (LocalPublisherHost.observatory h) FindingsOptions.default).

(** Two scenarios end to end: the structure is registered, every event is accepted, and the
    pattern the preset is named after is found. *)
Theorem scenarios_are_found :
  scenario SyntheticPreset.PingPong 5 = Some (ok_status, 5, 0, Some [FindingKind.PingPong])
  ∧ scenario SyntheticPreset.FalseSharingLike 3
    = Some (ok_status, 3, 0, Some [FindingKind.FalseSharingLike]).
Proof. split; by vm_compute. Qed.
