(* ===== verification/Files.v ===== *)
(** * Files

    [read_file_bounded], [remove_file] and [write_file_atomic] of [src/platform.cpp], over
    a model of the C library's streams.  The files are a map from paths to contents: what
    any process sees when it opens them.  A stream that is written has a buffer in front of
    its file: [fwrite] takes bytes into it and writes a prefix of what it holds, or nothing,
    to the file; [fflush] writes the rest, or a prefix of it and fails; [fclose] writes what
    is left as far as it can.  How each call ends is given by a device.  Every change of the
    files is remembered, because a process that dies leaves one of the states passed
    through, its buffers lost.  What a loss of power leaves is not modelled: the program
    never syncs a file. *)

From S2P Require Import Prelude Errors TextUtil.

Abbreviation FileStore := (gmap string (list Z)).

(** The files, and the states they went through, the latest first. *)
Module Disk.
Record t := mk { files : FileStore; passed : list FileStore }.
#[global] Instance eta : Eta t := fun d => mk (files d) (passed d).
Definition change (f : FileStore → FileStore) (d : t) : t :=
  mk (f (files d)) (files d :: passed d).
End Disk.

(** How the calls of the C library end: which paths open; the [i]-th [fwrite] or [fread]
    of [n] bytes takes [puts i n] or gives [gets i n] of them; of [n] bytes in the buffer
    the [i]-th [fwrite] writes [spills i n] to the file, [fflush] [flush_puts n] and
    [fclose] [close_puts n]; and whether renaming and removing succeed. *)
Module Device.
Record t := mk {
  opens_write : string → bool; opens_read : string → bool;
  puts : nat → nat → nat; gets : nat → nat → nat;
  spills : nat → nat → nat; flush_puts : nat → nat; close_puts : nat → nat;
  renames : bool; removes : bool;
}.
(** No call transfers more than it was asked to. *)
Definition lawful (dev : t) : Prop := ∀ i n, (puts dev i n ≤ n ∧ gets dev i n ≤ n)%nat.
(** A device on which nothing fails; how much [fwrite] leaves in the buffer is open. *)
Definition sound (dev : t) : Prop :=
  (∀ path, opens_write dev path = true ∧ opens_read dev path = true)
  ∧ (∀ i n, (0 < n → 0 < puts dev i n ∧ 0 < gets dev i n)%nat)
  ∧ (∀ n, flush_puts dev n = n ∧ close_puts dev n = n) ∧ renames dev = true.
End Device.

(** A stream opened for writing. *)
Module Stream.
Record t := mk { path : string; pending : list Z }.
End Stream.

Section files.
Context (dev : Device.t).

(** ** The C library *)

(** The first [n] pending bytes of a stream go to its file. *)
Definition write_through (n : nat) (f : Stream.t) (d : Disk.t) : Stream.t * Disk.t :=
  (Stream.mk (Stream.path f) (drop n (Stream.pending f)),
   Disk.change (alter (λ content, content ++ take n (Stream.pending f)) (Stream.path f)) d).

(** [fopen(path, "wb")] empties the file. *)
Definition fopen_write (path : string) (d : Disk.t) : option (Stream.t * Disk.t) :=
  if Device.opens_write dev path
  then Some (Stream.mk path [], Disk.change <[path := []]> d) else None.
(** [fwrite] returns how many bytes it took, not how many reached the file. *)
Definition fwrite (i : nat) (data : list Z) (f : Stream.t) (d : Disk.t) : (Stream.t * Disk.t) * nat :=
  let put := Device.puts dev i (length data) in
  let f := Stream.mk (Stream.path f) (Stream.pending f ++ take put data) in
  (write_through (Device.spills dev i (length (Stream.pending f))) f d, put).
(** [fflush] succeeds when nothing is left in the buffer. *)
Definition fflush (f : Stream.t) (d : Disk.t) : (Stream.t * Disk.t) * bool :=
  let put := Device.flush_puts dev (length (Stream.pending f)) in
  (write_through put f d, (length (Stream.pending f) <=? put)%nat).
(** [fclose] flushes and ends the stream; its result is not looked at. *)
Definition fclose (f : Stream.t) (d : Disk.t) : Disk.t :=
  (write_through (Device.close_puts dev (length (Stream.pending f))) f d).2.
(** [std::filesystem::rename] replaces the target in one step, or does nothing. *)
Definition rename (from to : string) (d : Disk.t) : option Disk.t :=
  match Device.renames dev, Disk.files d !! from with
  | true, Some content => Some (Disk.change (λ fs, <[to := content]> (delete from fs)) d)
  | _, _ => None
  end.

(** ** The operations *)

Definition remove_file (path : string) (d : Disk.t) : Disk.t * result unit :=
  if Device.removes dev then (Disk.change (delete path) d, ok_status)
  else (d, fail_ctx ErrorCode.IoError "cannot remove file" path).

(** The loop over [fwrite], which stops when a call takes nothing. *)
Fixpoint write_loop (fuel : nat) (i written : nat) (data : list Z) (f : Stream.t) (d : Disk.t)
    : option ((Stream.t * Disk.t) * nat) :=
  match fuel with
  | O => None
  | S fuel =>
      if (written <? length data)%nat
      then
        let '(f, d, put) := fwrite i (drop written data) f d in
        if (put =? 0)%nat then Some ((f, d), written) else write_loop fuel (S i) (written + put) data f d
      else Some ((f, d), written)
  end.

Definition temporary (path : string) : string := path +:+ ".tmp".

Definition write_file_atomic (path : string) (data : list Z) (d : Disk.t)
    : option (Disk.t * result unit) :=
  match fopen_write (temporary path) d with
  | None => Some (d, fail_ctx ErrorCode.IoError "cannot open temporary state file" (temporary path))
  | Some (f, d) =>
      '(f, d, written) ← write_loop (S (length data)) 0 0 data f d;
      let short_write := negb (written =? length data)%nat in
      let '(f, d, flushed) := fflush f d in
      let d := fclose f d in
      if short_write || negb flushed
      then
        let '(d, _) := remove_file (temporary path) d in
        Some (d, fail_ctx ErrorCode.IoError "short write to temporary state file" (temporary path))
      else
        match rename (temporary path) path d with
        | None =>
            let '(d, _) := remove_file (temporary path) d in
            Some (d, fail_ctx ErrorCode.IoError "atomic replacement failed" path)
        | Some d => Some (d, ok_status)
        end
  end.

(** The loop over [fread] on a file of the size that was asked for. *)
Fixpoint read_loop (fuel : nat) (i : nat) (read : list Z) (content : list Z) : option (list Z) :=
  match fuel with
  | O => None
  | S fuel =>
      if (length read <? length content)%nat
      then
        let got := Device.gets dev i (length content - length read) in
        if (got =? 0)%nat then Some read
        else read_loop fuel (S i) (read ++ take got (drop (length read) content)) content
      else Some read
  end.

Definition read_file_bounded (path : string) (max_bytes : Z) (d : Disk.t) : option (result (list Z)) :=
  match Disk.files d !! path with
  | None => Some (fail_ctx ErrorCode.NotFound "cannot stat file" path)
  | Some content =>
      if max_bytes <? zlen content
      then Some (fail_ctx ErrorCode.TooLarge "file exceeds the accepted size bound" path)
      else if negb (Device.opens_read dev path)
      then Some (fail_ctx ErrorCode.IoError "cannot open file" path)
      else
        data ← read_loop (S (length content)) 0 [] content;
        Some (if (length data =? length content)%nat then Ok data
              else fail_ctx ErrorCode.Truncated "file ended before its declared length" path)
  end.

(** ** What they do *)

(** Every state passed through from [d] to [d'] satisfies [P]. *)
Definition always (P : FileStore → Prop) (d d' : Disk.t) : Prop :=
  ∃ news, Disk.passed d' = news ++ Disk.passed d ∧ Forall P news ∧ P (Disk.files d').

Lemma always_refl P d : P (Disk.files d) → always P d d.
Proof. by exists []. Qed.
Lemma always_trans P d1 d2 d3 : always P d1 d2 → always P d2 d3 → always P d1 d3.
Proof.
  intros (n1 & E1 & F1 & _) (n2 & E2 & F2 & H2). exists (n2 ++ n1). rewrite E2, E1, app_assoc.
  split_and!; [done|by apply Forall_app|done].
Qed.
Lemma always_change P f d : P (Disk.files d) → P (f (Disk.files d)) → always P d (Disk.change f d).
Proof. intros H1 H2. exists [Disk.files d]. by split_and!; [|constructor|]. Qed.
Lemma always_weaken (P Q : FileStore → Prop) d d' : (∀ fs, P fs → Q fs) → always P d d' → always Q d d'.
Proof. intros HPQ (n & E & F & H). exists n. split_and!; [done|by eapply Forall_impl|by apply HPQ]. Qed.

(** The paths other than one are as in [fs0]. *)
Definition agrees_but (path : string) (fs0 fs : FileStore) : Prop := ∀ p, p ≠ path → fs !! p = fs0 !! p.

(** A stream to [path] has taken the first [w] bytes of [data]: its file and its buffer
    hold them, one after the other. *)
Definition taken (data : list Z) (w : nat) (f : Stream.t) (d : Disk.t) : Prop :=
  ∃ content, Disk.files d !! Stream.path f = Some content ∧ content ++ Stream.pending f = take w data.

Lemma write_through_spec fs0 data w n f d :
  taken data w f d → agrees_but (Stream.path f) fs0 (Disk.files d) →
  taken data w (write_through n f d).1 (write_through n f d).2
  ∧ always (agrees_but (Stream.path f) fs0) d (write_through n f d).2.
Proof.
  intros (content & Hc & Ht) Ha. split.
  - exists (content ++ take n (Stream.pending f)). cbn. rewrite lookup_alter_eq, Hc. split; [done|].
    by rewrite <- app_assoc, take_drop.
  - apply always_change; [done|]. intros p Hp. rewrite lookup_alter_ne by done. by apply Ha.
Qed.

Lemma write_loop_spec fs0 path data fuel : Device.lawful dev → ∀ i written f d,
  (length data - written < fuel)%nat → (written ≤ length data)%nat → Stream.path f = path →
  taken data written f d → agrees_but path fs0 (Disk.files d) →
  ∃ f' d' w, write_loop fuel i written data f d = Some ((f', d'), w) ∧ (written ≤ w ≤ length data)%nat
    ∧ Stream.path f' = path ∧ taken data w f' d' ∧ always (agrees_but path fs0) d d'
    ∧ (Device.sound dev → w = length data).
Proof.
  intros Hlaw. induction fuel as [|fuel IH]; intros i written f d Hf Hw <- Hd Ha; [lia|]. cbn [write_loop].
  destruct (Nat.ltb_spec written (length data)) as [Hlt|Hge].
  2: { exists f, d, written. split_and!; try done; [by apply always_refl|intros _; lia]. }
  unfold fwrite. rewrite length_drop. pose proof (Hlaw i (length data - written)%nat) as [Hput _].
  set (put := Device.puts dev i (length data - written)) in *. cbn [Stream.path Stream.pending].
  set (f1 := Stream.mk _ _). set (n := Device.spills dev i _).
  assert (Hd1 : taken data (written + put) f1 d).
  { destruct Hd as (content & Hc & Ht). exists content. split; [done|]. cbn. by rewrite app_assoc, Ht, take_take_drop. }
  destruct (write_through_spec fs0 _ _ n _ _ Hd1 Ha) as [Hd2 Hal]. pose proof Hal as (_ & _ & _ & Ha2).
  destruct (write_through n f1 d) as [f2 d2] eqn:Ewt. cbn [fst snd] in *.
  assert (Hp2 : Stream.path f2 = Stream.path f) by by injection Ewt as <- _.
  destruct (Nat.eqb_spec put 0) as [Hz|Hz].
  - exists f2, d2, written. rewrite Hz, Nat.add_0_r in Hd2. split_and!; try done.
    intros (_ & Hs & _). destruct (Hs i (length data - written)%nat) as [Hp _]; lia.
  - destruct (IH (S i) (written + put)%nat f2 d2) as (f' & d' & w & -> & Hr & Hp' & Hc & Hal' & Hs); try done; [lia..|].
    exists f', d', w. split_and!; try done; [lia..|]. by eapply always_trans.
Qed.

Lemma temporary_ne path : temporary path ≠ path.
Proof.
  intros E. apply (f_equal String.length) in E. unfold temporary in E.
  pose proof (slen_app path ".tmp") as Hl. unfold slen in Hl. rewrite E in Hl. cbn in Hl. lia.
Qed.

Lemma remove_spec fs0 path d :
  agrees_but path fs0 (Disk.files d) → always (agrees_but path fs0) d (remove_file path d).1.
Proof.
  intros Ha. unfold remove_file. case_match; [|by apply always_refl]. apply always_change; [done|].
  intros p Hp. rewrite lookup_delete_ne by done. by apply Ha.
Qed.

Lemma read_loop_spec (content : list Z) fuel : Device.lawful dev → ∀ i n,
  (length content - n < fuel)%nat → (n ≤ length content)%nat →
  ∃ m, read_loop fuel i (take n content) content = Some (take m content) ∧ (m ≤ length content)%nat
    ∧ (Device.sound dev → m = length content).
Proof.
  intros Hlaw. induction fuel as [|fuel IH]; intros i n Hf Hn; [lia|]. cbn [read_loop].
  rewrite length_take, Nat.min_l by lia. destruct (Nat.ltb_spec n (length content)) as [Hlt|Hge].
  2: { exists n. split_and!; try done. intros _. lia. }
  pose proof (Hlaw i (length content - n)%nat) as [_ Hget].
  set (got := Device.gets dev i (length content - n)) in *.
  destruct (Nat.eqb_spec got 0) as [Hz|Hz].
  - exists n. split_and!; try done. intros (_ & Hs & _). destruct (Hs i (length content - n)%nat) as [_ Hp]; lia.
  - rewrite take_take_drop. apply IH; lia.
Qed.

(** Reading gives the content of the file or refuses, and a sound device gives it. *)
Lemma read_file_bounded_spec path max_bytes d :
  Device.lawful dev →
  ∃ r, read_file_bounded path max_bytes d = Some r
    ∧ (∀ data, r = Ok data → Disk.files d !! path = Some data ∧ zlen data ≤ max_bytes)
    ∧ (∀ data, Device.sound dev → Disk.files d !! path = Some data → zlen data ≤ max_bytes → r = Ok data).
Proof.
  intros Hlaw. unfold read_file_bounded. destruct (Disk.files d !! path) as [content|] eqn:Ec; [|by eexists].
  destruct (Z.ltb_spec max_bytes (zlen content)) as [Hm|Hm].
  { eexists. split; [done|]. split; [done|]. intros data _ [= <-]. lia. }
  destruct (Device.opens_read dev path) eqn:Eo; cbn [negb].
  2: { eexists. split; [done|]. split; [done|]. intros data (Hs & _) _ _. destruct (Hs path). congruence. }
  destruct (read_loop_spec content (S (length content)) Hlaw 0 0) as (m & Hr & Hm' & Hs); [lia..|].
  change (take 0 content) with (@nil Z) in Hr. rewrite Hr. cbn [mbind option_bind].
  rewrite length_take, Nat.min_l by lia. eexists. split; [done|].
  destruct (Nat.eqb_spec m (length content)) as [->|Hne].
  - rewrite take_ge by lia. split; [by intros ? [= <-]|by intros ? _ [= <-] _].
  - split; [done|]. intros data Hsound _ _. by destruct Hne; apply Hs.
Qed.
End files.

(** Flushing and closing a stream; when the flush succeeds the file holds all that was
    taken. *)
Lemma close_spec dev fs0 path data w f d f' d' flushed :
  fflush dev f d = ((f', d'), flushed) → Stream.path f = temporary path → taken data w f d →
  agrees_but (temporary path) fs0 (Disk.files d) →
  always (agrees_but (temporary path) fs0) d (fclose dev f' d')
  ∧ (flushed = true → Disk.files (fclose dev f' d') !! temporary path = Some (take w data))
  ∧ ((∀ n, Device.flush_puts dev n = n ∧ Device.close_puts dev n = n) → flushed = true).
Proof.
  unfold fflush, fclose. set (n := Device.flush_puts dev _). intros E Hp Ht Ha. rewrite <- Hp in Ha |- *.
  destruct (write_through_spec fs0 _ _ n _ _ Ht Ha) as [Ht' Hal].
  destruct (write_through n f d) as [f1 d1] eqn:Ewt. injection E as <- <- <-. cbn [fst snd] in *.
  assert (Hp1 : Stream.path f1 = Stream.path f ∧ Stream.pending f1 = drop n (Stream.pending f))
    by by injection Ewt as <- <-.
  destruct Hp1 as [Hp1 Hn].
  set (m := Device.close_puts dev _). pose proof Hal as (_ & _ & _ & Ha').
  rewrite <- Hp1 in Ha', Hal |- *.
  destruct (write_through_spec fs0 _ _ m _ _ Ht' Ha') as [Ht'' Hal'']. split_and!.
  - by eapply always_trans.
  - intros Hl%Nat.leb_le. destruct Ht'' as (content & Hc & Hcp). cbn in Hc, Hcp |- *.
    rewrite Hn, (drop_ge (Stream.pending f)) in Hcp by done. rewrite drop_nil, app_nil_r in Hcp. by rewrite Hc, Hcp.
  - intros H. apply Nat.leb_le. unfold n. destruct (H (length (Stream.pending f))) as [-> _]. done.
Qed.

Lemma write_file_atomic_spec (dev : Device.t) (path : string) (data : list Z) (d : Disk.t) :
  Device.lawful dev →
  let old := Disk.files d in
  ∃ d' r, write_file_atomic dev path data d = Some (d', r)
    ∧ Disk.files d' !! path = match r with Ok _ => Some data | Err _ => old !! path end
    ∧ always (λ fs, (fs !! path = old !! path ∨ fs !! path = Some data)
                    ∧ ∀ p, p ≠ path → p ≠ temporary path → fs !! p = old !! p) d d'
    ∧ (Device.sound dev → r = ok_status).
Proof.
  intros Hlaw old. pose proof (temporary_ne path) as Hne. unfold write_file_atomic, fopen_write.
  set (P := λ fs : FileStore, _ ∧ _).
  assert (HP : ∀ fs, agrees_but (temporary path) old fs → P fs).
  { intros fs Ha. split; [left; by apply Ha|]. intros p _ Hp. by apply Ha. }
  destruct (Device.opens_write dev (temporary path)) eqn:Eo.
  2: { do 2 eexists. split; [reflexivity|]. split; [done|]. split; [by apply always_refl, HP|].
       intros (Hs & _). destruct (Hs (temporary path)). congruence. }
  set (d1 := Disk.change _ d). set (f1 := Stream.mk _ _).
  assert (Ha1 : agrees_but (temporary path) old (Disk.files d1)) by (intros p Hp; by apply lookup_insert_ne).
  assert (Hal1 : always (agrees_but (temporary path) old) d d1) by by apply always_change.
  destruct (write_loop_spec dev old (temporary path) data (S (length data)) Hlaw 0 0 f1 d1)
    as (f2 & d2 & w & -> & Hw & Hp2 & Ht2 & Hal2 & Hs); [lia..|done| |done|].
  { exists []. by split; [apply lookup_insert_eq|]. }
  cbn [mbind option_bind]. pose proof (always_trans _ _ _ _ Hal1 Hal2) as Hal.
  pose proof Hal as (_ & _ & _ & Ha2).
  destruct (fflush dev f2 d2) as [[f3 d3] flushed] eqn:Ef. cbn zeta. set (d4 := fclose dev f3 d3).
  destruct (close_spec dev old path data w f2 d2 f3 d3 flushed Ef Hp2 Ht2 Ha2)
    as (Hal3 & Hc & Hfs). fold d4 in Hal3, Hc.
  pose proof (always_trans _ _ _ _ Hal Hal3) as Hall. clear Hal Hal1 Hal2 Hal3.
  pose proof Hall as (_ & _ & _ & Ha4).
  assert (Hgive_up : ∀ e, (Device.sound dev → False) →
    ∃ d' r, (let '(d, _) := remove_file dev (temporary path) d4 in Some (d, Err e)) = Some (d', r)
      ∧ Disk.files d' !! path = match r with Ok _ => Some data | Err _ => old !! path end
      ∧ always P d d' ∧ (Device.sound dev → r = ok_status)).
  { intros e Hun. pose proof (remove_spec dev old (temporary path) d4 Ha4) as Hr.
    destruct (remove_file dev (temporary path) d4) as [d5 u]. cbn [fst] in Hr.
    pose proof (always_trans _ _ _ _ Hall Hr) as Hall'. exists d5, (Err e). split_and!; [done| | |by intros ?%Hun].
    - destruct Hr as (_ & _ & _ & Ha5). by apply Ha5.
    - by apply (always_weaken _ _ _ _ HP). }
  destruct (Nat.eqb_spec w (length data)) as [->|Hshort]; cbn [negb orb].
  2: { apply Hgive_up. intros Hsound. by apply Hshort, Hs. }
  destruct flushed; cbn [negb].
  2: { apply Hgive_up. intros (_ & _ & Hfl & _). by specialize (Hfs Hfl). }
  specialize (Hc eq_refl). rewrite take_ge in Hc by lia.
  unfold rename. rewrite Hc. destruct (Device.renames dev) eqn:Er.
  2: { apply Hgive_up. intros (_ & _ & _ & ?). congruence. }
  do 2 eexists. split; [reflexivity|]. split; [by apply lookup_insert_eq|]. split; [|done].
  eapply always_trans; [by apply (always_weaken _ _ _ _ HP)|]. apply always_change; [by apply HP|].
  split; [right; by apply lookup_insert_eq|]. intros p Hp Hpt.
  rewrite lookup_insert_ne, lookup_delete_ne by done. by apply Ha4.
Qed.

(** The states of the files on the way from [d] to [d'], one of which a process that dies
    on this way leaves. *)
Definition crash_states (d d' : Disk.t) : list FileStore :=
  Disk.files d' :: take (length (Disk.passed d') - length (Disk.passed d)) (Disk.passed d').

Lemma always_crash P d d' fs : always P d d' → fs ∈ crash_states d d' → P fs.
Proof.
  intros (news & E & Hn & Hf) Hin. unfold crash_states in Hin. rewrite E in Hin.
  rewrite length_app, Nat.add_sub, take_app_length in Hin.
  apply elem_of_cons in Hin as [->|Hin]; [done|]. by eapply Forall_forall in Hn.
Qed.

(** Claim C23.  The state file is replaced atomically, although the bytes pass through a
    buffer: on a device that transfers no more than it is asked to, but may fail at any
    call, [write_file_atomic] terminates; at whatever moment the process dies, and whatever
    other process looks, the target holds either its old content or the new content in
    full, and every other file but the temporary one is untouched; success means the new
    content, failure the old one; and a device on which nothing fails succeeds.  (Nothing
    is said of a loss of power, for which the file would have to be synced.) *)
Theorem state_file_replaced_atomically (dev : Device.t) (path : string) (data : list Z) (d : Disk.t) :
  Device.lawful dev →
  let old := Disk.files d in
  ∃ d' r, write_file_atomic dev path data d = Some (d', r)
    ∧ Disk.files d' !! path = match r with Ok _ => Some data | Err _ => old !! path end
    ∧ (∀ fs, fs ∈ crash_states d d' →
         (fs !! path = old !! path ∨ fs !! path = Some data)
         ∧ ∀ p, p ≠ path → p ≠ temporary path → fs !! p = old !! p)
    ∧ (Device.sound dev → r = ok_status).
Proof.
  intros Hlaw old. destruct (write_file_atomic_spec dev path data d Hlaw) as (d' & r & Hw & Hf & Ha & Hs).
  exists d', r. split; [exact Hw|]. split; [exact Hf|]. split; [|exact Hs].
  intros fs Hin. exact (always_crash _ _ _ _ Ha Hin).
Qed.

(** *** A device that fails late *)

(** Writing in pieces of at most three bytes; the rename fails. *)
Definition reluctant : Device.t :=
  Device.mk (λ _, true) (λ _, true) (λ _ n, Nat.min 3 n) (λ _ n, Nat.min 3 n) (λ _ n, Nat.min 2 n)
    (λ n, n) (λ n, n) false true.
Lemma reluctant_lawful : Device.lawful reluctant.
Proof. intros i n. split; apply Nat.le_min_r. Qed.

Lemma state_file_replaced_atomically_witness :
  ∃ d', write_file_atomic reluctant "state" [1; 2; 3; 4; 5] (Disk.mk {["state"%string := [9]]} [])
          = Some (d', fail_ctx ErrorCode.IoError "atomic replacement failed" "state")
    ∧ Disk.files d' !! "state"%string = Some [9].
Proof.
  destruct (state_file_replaced_atomically reluctant "state" [1; 2; 3; 4; 5]
    (Disk.mk {["state"%string := [9]]} []) reluctant_lawful) as (d' & r & Hw & Hf & _).
  exists d'. assert (Hr : r = fail_ctx ErrorCode.IoError "atomic replacement failed" "state").
  { apply (f_equal (option_map snd)) in Hw. vm_compute in Hw. injection Hw as <-. reflexivity. }
  subst r. split; [exact Hw|]. rewrite Hf. reflexivity.
Defined.
