(* ===== verification/Coordinator.v ===== *)
(** * The coordinator

    The server of [src/coordinator.cpp]: sessions, the dispatch of frames to
    handlers, the acknowledgements sent back, and the service loop that turns
    received bytes into frames.

    Sockets are modelled by what crosses them: the frames sent in a session are
    the list [sent], the bytes received are the argument of [service_session],
    and [is_open] says whether the socket is still valid.  The successive clock
    readings of a handler are the argument [clk].  [save] stands for the outcome
    of writing the durable state (a file written by [src/persistence.cpp]); it
    reports the number of bytes written or an error.  A handler has no result
    ([None]) when the analysis it runs has none. *)

From S2P Require Import Prelude Errors TextUtil Ids Taxonomy Float64 Policies Cost Records Observation.
From S2P Require Import Aggregate Sequence State Attribution Registry Publishers Ingest Counters.
From S2P Require Import Reconcile Snapshot System Findings Analysis.
From S2P Require Import Codec Protocol Transport Wire WireResults WireSnapshot.

(** ** Authorization *)

Definition role_may_send (role : ClientRole.t) (type : MessageType.t) : bool :=
  match type with
  | MessageType.Hello | MessageType.Heartbeat => true
  | MessageType.RegisterPublisher | MessageType.PublishEvent | MessageType.PublishBatch
  | MessageType.PublishCounter =>
      bool_decide (role = ClientRole.Publisher) || bool_decide (role = ClientRole.Admin)
  | MessageType.QuerySnapshot | MessageType.QueryFindings | MessageType.QueryAttribution =>
      bool_decide (role = ClientRole.Client) || bool_decide (role = ClientRole.Admin)
  | MessageType.RegisterResource | MessageType.RegisterRegion
  | MessageType.RegisterCoherenceDomain | MessageType.SetTopologyLink | MessageType.Fence
  | MessageType.SaveState | MessageType.BumpTopology | MessageType.RetireRegion =>
      bool_decide (role = ClientRole.Admin)
  | _ => false
  end.

(** ** Sessions *)

Module Session.
Record t := mk {
  id : Z; is_open : bool; role : ClientRole.t; hello_done : bool;
  publisher_registered : bool; publisher_id : string; publisher_boot : Z; peer : string;
  buffer : list Z;
}.
#[global] Instance eta : Eta t := fun s =>
  mk (id s) (is_open s) (role s) (hello_done s) (publisher_registered s) (publisher_id s)
    (publisher_boot s) (peer s) (buffer s).
(** A session as [accept_connection] makes it. *)
Definition fresh (id : Z) (peer : string) : t :=
  mk id true ClientRole.Publisher false false "" 0 peer [].
End Session.

(** What a handler works on. *)
Module World.
Record t := mk {
  observatory : State.t; session : Session.t; protocol_rejections : Z; sent : list Frame.t;
}.
#[global] Instance eta : Eta t := fun w =>
  mk (observatory w) (session w) (protocol_rejections w) (sent w).
End World.

(** ** Helpers *)

Definition send_frame (f : Frame.t) (w : World.t) : World.t :=
  w <| World.sent ::= λ l, l ++ [f] |>.
(** A response frame with what the writer produced, whether or not it succeeded. *)
Definition respond (type : MessageType.t) (m : action PayloadWriter.t unit) (w : World.t) : World.t :=
  send_frame (Frame.mk type frame_flags.kResponse 0 (m []).2) w.

Definition ack_type (status : AckStatus.t) : MessageType.t :=
  match status with
  | AckStatus.Accepted | AckStatus.PartiallyAccepted => MessageType.Ack
  | _ => MessageType.Error
  end.

Definition ack_payload (s : State.t) (status : AckStatus.t) (detail : string)
    (accepted rejected duplicates late missing : Z) : AckPayload.t :=
  AckPayload.mk status (State.coordinator_epoch s) (State.observation_epoch s) detail
    accepted rejected duplicates late missing 0 0 0.
Definition send_counts (status : AckStatus.t) (detail : string)
    (accepted rejected duplicates late missing : Z) (w : World.t) : World.t :=
  respond (ack_type status)
    (write_ack (ack_payload (World.observatory w) status detail accepted rejected duplicates late
                  missing)) w.
Definition send_ack (status : AckStatus.t) (detail : string) (w : World.t) : World.t :=
  send_counts status detail 0 0 0 0 0 w.

Definition closed_detail (peer : string) : string :=
  "publisher transport connection ended (" +:+ peer +:+ ")".

Definition close_session (clk : nat → Z) (w : World.t) : World.t :=
  let s := World.session w in
  let w :=
    if Session.publisher_registered s then
      let w := match fence_publisher_boot (clk 2%nat) (Session.publisher_id s)
                       (Session.publisher_boot s) FenceReason.ConnectionClosed
                       (closed_detail (Session.peer s)) (World.observatory w) with
               | Ok (o, _) => w <| World.observatory := o |>
               | Err _ => w
               end in
      w <| World.session ::= λ s, s <| Session.publisher_registered := false |> |>
    else w in
  w <| World.session ::= λ s, s <| Session.is_open := false |> |>.

Definition fail_session (clk : nat → Z) (code : ErrorCode.t) (detail : string) (w : World.t) : World.t :=
  let w := w <| World.protocol_rejections ::= λ n, u64_add n 1 |> in
  close_session clk (send_ack (ack_status_for code) detail w).
Definition fail_with (clk : nat → Z) (e : Error.t) (w : World.t) : World.t :=
  fail_session clk (Error.code e) (Error.describe e) w.

(** [send_ack(ack_status_for(e.code()), e.describe())]. *)
Definition nack (e : Error.t) (w : World.t) : World.t :=
  send_ack (ack_status_for (Error.code e)) (Error.describe e) w.

(** Reading a payload: the first read that fails ends the session. *)
Definition parse {A} (clk : nat → Z) (r : action PayloadReader.t A) (frame : Frame.t)
    (k : A → PayloadReader.t → World.t → World.t) (w : World.t) : World.t :=
  match r (PayloadReader.mk (Frame.payload frame) 0) with
  | (Ok a, reader) => k a reader w
  | (Err e, _) => fail_with clk e w
  end.
(** ... with [require_exhausted] as the last read, or ... *)
Definition parse_all {A} (clk : nat → Z) (r : action PayloadReader.t A) (frame : Frame.t)
    (k : A → World.t → World.t) (w : World.t) : World.t :=
  parse clk (a ← r; _ ← PayloadReader.require_exhausted; mret a) frame (λ a _, k a) w.
(** ... with the check [reader.exhausted()] after a record was read. *)
Definition parse_record {A} (clk : nat → Z) (what : string) (r : action PayloadReader.t A)
    (frame : Frame.t) (k : A → World.t → World.t) (w : World.t) : World.t :=
  parse clk r frame (λ a reader w,
    if PayloadReader.exhausted reader then k a w
    else fail_session clk ErrorCode.TrailingBytes ("trailing bytes in " +:+ what) w) w.

(** The state part of a successful result. *)
Definition state_of {A} (r : result (State.t * A)) : result State.t :=
  match r with Ok p => Ok p.1 | Err e => Err e end.

(** The acknowledgement of an operation on the observatory. *)
Definition acknowledge (done : string) (r : result State.t) (w : World.t) : World.t :=
  match r with
  | Ok o => send_ack AckStatus.Accepted done (w <| World.observatory := o |>)
  | Err e => nack e w
  end.

Section handlers.
Context (endpoint : string) (state_path : string) (save : State.t → result Z) (clk : nat → Z).

Definition handle_hello (frame : Frame.t) (w : World.t) : World.t :=
  parse_all clk (version ← PayloadReader.u16; role ← PayloadReader.u8;
                 _ ← PayloadReader.text Limits.kMaxNameLength; mret (version, role)) frame
    (λ '(version, role) w,
       if negb (version =? kWireProtocolVersion)
       then fail_session clk ErrorCode.UnsupportedVersion "unsupported protocol version" w
       else if role >? ClientRole.code ClientRole.Admin
       then fail_session clk ErrorCode.InvalidArgument "unknown client role" w
       else if Session.hello_done (World.session w)
       then fail_session clk ErrorCode.ProtocolError "duplicate HELLO" w
       else
         let w := w <| World.session ::= λ s,
                     s <| Session.role := ClientRole.of_code role |>
                       <| Session.hello_done := true |> |> in
         let o := World.observatory w in
         respond MessageType.HelloAck
           (PayloadWriter.u16 kWireProtocolVersion;;
            PayloadWriter.u64 (State.coordinator_epoch o);;
            PayloadWriter.u64 (State.observation_epoch o);;
            PayloadWriter.u64 (State.topology_generation o);;
            unchecked (PayloadWriter.text "coherence-observatory" Limits.kMaxNameLength);;
            unchecked (PayloadWriter.text endpoint Limits.kMaxRegionAnnotationLength);;
            PayloadWriter.u8 (ClientRole.code (ClientRole.of_code role))) w) w.

Definition handle_heartbeat (frame : Frame.t) (w : World.t) : World.t :=
  match Frame.payload frame with
  | [] => send_ack AckStatus.Accepted "heartbeat" w
  | _ => fail_session clk ErrorCode.TrailingBytes "HEARTBEAT must have an empty payload" w
  end.

Definition handle_register_publisher (frame : Frame.t) (w : World.t) : World.t :=
  parse_record clk "REGISTER_PUBLISHER" read_publisher_registration frame (λ registration w,
    let '(o, view) := register_publisher (clk 0%nat) (clk 1%nat) registration (World.observatory w) in
    let w := w <| World.observatory := o |> in
    match view with
    | Ok v =>
        send_ack AckStatus.Accepted "publisher registered"
          (w <| World.session ::= λ s,
             s <| Session.publisher_registered := true |>
               <| Session.publisher_id := PublisherView.id v |>
               <| Session.publisher_boot := PublisherView.boot v |> |>)
    | Err e => nack e w
    end) w.

Definition handle_publish_event (frame : Frame.t) (w : World.t) : World.t :=
  parse_record clk "PUBLISH_EVENT" read_observation frame (λ observation w,
    let '(o, outcome) := ingest (clk 0%nat) observation (World.observatory w) in
    let w := w <| World.observatory := o |> in
    let disposition := IngestionOutcome.disposition outcome in
    let status := match disposition with
                  | IngestionDisposition.Duplicate => AckStatus.PartiallyAccepted
                  | IngestionDisposition.Rejected => ack_status_for (IngestionOutcome.code outcome)
                  | _ => AckStatus.Accepted
                  end in
    send_counts status (IngestionOutcome.detail outcome) 1 0
      (if decide (disposition = IngestionDisposition.Duplicate) then 1 else 0)
      (if decide (disposition = IngestionDisposition.AcceptedLate) then 1 else 0)
      (IngestionOutcome.missing_sequences outcome) w) w.

(** The loop over the events of a batch stops at the first that does not parse. *)
Definition handle_publish_batch (frame : Frame.t) (w : World.t) : World.t :=
  parse clk PayloadReader.u32 frame (λ count reader w,
    if (count =? 0) || (count >? Limits.kMaxBatchEvents)
    then fail_session clk ErrorCode.TooMany "batch count out of range" w
    else
      match read_n (Z.to_nat count) read_observation reader with
      | (Err e, _) => fail_with clk e w
      | (Ok observations, reader) =>
          if negb (PayloadReader.exhausted reader)
          then fail_session clk ErrorCode.TrailingBytes "trailing bytes in PUBLISH_BATCH" w
          else
            let '(o, outcome) := ingest_batch (clk 0%nat) observations (World.observatory w) in
            let w := w <| World.observatory := o |> in
            match outcome with
            | Err e => nack e w
            | Ok batch =>
                send_counts (if BatchOutcome.rejected batch =? 0 then AckStatus.Accepted
                             else AckStatus.PartiallyAccepted) "batch"
                  (u64_add (BatchOutcome.accepted batch) (BatchOutcome.accepted_late batch))
                  (BatchOutcome.rejected batch) (BatchOutcome.duplicates batch)
                  (BatchOutcome.accepted_late batch) (BatchOutcome.missing_sequences batch) w
            end
      end) w.

Definition handle_publish_counter (frame : Frame.t) (w : World.t) : World.t :=
  parse_record clk "PUBLISH_COUNTER" read_counter_publication frame (λ publication w,
    let '(o, outcome) := ingest_counter (clk 0%nat) publication (World.observatory w) in
    let w := w <| World.observatory := o |> in
    match outcome with
    | Err e => nack e w
    | Ok c => send_counts AckStatus.Accepted (CounterOutcome.detail c) 1 0 0 0 0 w
    end) w.

(** *** Queries *)

Definition requested (flags : Z) : FindingsOptions.t :=
  FindingsOptions.mk (Z.testbit flags 0) (Z.testbit flags 1) (Z.testbit flags 2)
    (Z.testbit flags 3) (Z.testbit flags 4) (Z.testbit flags 5) Limits.kMaxFindings.

(** [Observatory::snapshot] with the analysis it runs. *)
Definition take_snapshot (now : Z) (options : FindingsOptions.t) (s : State.t)
  : option (State.t * Snapshot.t Finding.t) :=
  let s := s <| State.snapshot_generation ::= next_id |> in
  found ← analyze_all s options;
  Some (s, build now found s).

(** Reading the one byte of a query. *)
Definition read_flags (frame : Frame.t) : result Z :=
  ((v ← PayloadReader.u8; _ ← PayloadReader.require_exhausted; mret v)
     (PayloadReader.mk (Frame.payload frame) 0)).1.

(** The response, unless it could not be serialized. *)
Definition respond_or_fail (type : MessageType.t) (what : string) (m : action PayloadWriter.t unit)
    (w : World.t) : World.t :=
  match m [] with
  | (Ok _, payload) => send_frame (Frame.mk type frame_flags.kResponse 0 payload) w
  | (Err e, _) =>
      send_ack AckStatus.InternalError (what +:+ " serialization failed: " +:+ Error.describe e)
        (w <| World.protocol_rejections ::= λ n, u64_add n 1 |>)
  end.

Definition handle_query_snapshot (frame : Frame.t) (w : World.t) : option World.t :=
  match read_flags frame with
  | Err e => Some (fail_with clk e w)
  | Ok flags =>
      out ← take_snapshot (clk 0%nat) (requested flags) (World.observatory w);
      Some (respond_or_fail MessageType.SnapshotResponse "snapshot" (write_snapshot out.2)
              (w <| World.observatory := out.1 |>))
  end.

(** [Observatory::findings] never fails, so only its [ok] branch is reachable. *)
Definition handle_query_findings (frame : Frame.t) (w : World.t) : option World.t :=
  match read_flags frame with
  | Err e => Some (fail_with clk e w)
  | Ok flags =>
      found ← analyze_all (World.observatory w) (requested flags);
      Some (respond_or_fail MessageType.FindingsResponse "finding"
              (write_counted write_finding (capped Limits.kMaxQueryResults found)) w)
  end.

Definition handle_query_attribution (frame : Frame.t) (w : World.t) : World.t :=
  parse_all clk (PayloadReader.text Limits.kMaxNameLength) frame (λ region w,
    match parse_name region with
    | Err _ => send_ack AckStatus.Malformed "invalid region identity" w
    | Ok region =>
        let a := match attribute_region region (World.observatory w) with
                 | Ok a => a
                 | Err _ => AttributionResult.empty
                 end in
        respond MessageType.AttributionResponse (write_attribution a) w
    end) w.

(** *** Administration *)

(** One resource: read its record, then register it. *)
Definition register_resource {A} (r : action PayloadReader.t A) (register : Z → A → State.t → result State.t)
    (reader : PayloadReader.t) (s : State.t) : result (result State.t * PayloadReader.t) :=
  match r reader with
  | (Ok record, reader) => Ok (register (clk 0%nat) record s, reader)
  | (Err e, _) => Err e
  end.

(** The [switch] over the kind; the registration takes effect before the trailing
    bytes are checked. *)
Definition handle_register_resource (frame : Frame.t) (w : World.t) : World.t :=
  parse clk PayloadReader.u8 frame (λ kind reader w,
    if kind >? ResourceKind.code ResourceKind.CoherenceDomain
    then fail_session clk ErrorCode.InvalidArgument "resource kind out of range" w
    else
      let s := World.observatory w in
      let registration :=
        match ResourceKind.of_code kind with
        | ResourceKind.Node => register_resource read_node register_node reader s
        | ResourceKind.Processor => register_resource read_processor register_processor reader s
        | ResourceKind.Accelerator => register_resource read_accelerator register_accelerator reader s
        | ResourceKind.MemoryDomain =>
            register_resource read_memory_domain register_memory_domain reader s
        | ResourceKind.CoherenceDomain =>
            register_resource read_coherence_domain register_coherence_domain reader s
        | _ => Err (Error.mk ErrorCode.InvalidArgument "unknown resource kind" "")
        end in
      match ResourceKind.of_code kind, registration with
      | ResourceKind.Unknown, _ =>
          fail_session clk ErrorCode.InvalidArgument "unknown resource kind" w
      | _, Err e => fail_with clk e w
      | _, Ok (r, reader) =>
          let registered := match r with Ok s => w <| World.observatory := s |> | Err _ => w end in
          if negb (PayloadReader.exhausted reader)
          then fail_session clk ErrorCode.TrailingBytes "trailing bytes in REGISTER_RESOURCE" registered
          else acknowledge "resource registered" r w
      end) w.

Definition handle_register_region (frame : Frame.t) (w : World.t) : World.t :=
  parse_record clk "REGISTER_REGION" read_region frame (λ record w,
    acknowledge "region registered" (register_region (clk 0%nat) record (World.observatory w)) w) w.

Definition handle_register_coherence_domain (frame : Frame.t) (w : World.t) : World.t :=
  parse_record clk "REGISTER_COHERENCE_DOMAIN" read_coherence_domain frame (λ record w,
    acknowledge "coherence domain registered"
      (register_coherence_domain (clk 0%nat) record (World.observatory w)) w) w.

Definition handle_set_topology_link (frame : Frame.t) (w : World.t) : World.t :=
  parse_record clk "SET_TOPOLOGY_LINK" read_topology_link frame (λ link w,
    acknowledge "topology link stored" (set_topology_link link (World.observatory w)) w) w.

Definition handle_fence (frame : Frame.t) (w : World.t) : World.t :=
  parse_all clk (publisher ← PayloadReader.text Limits.kMaxNameLength; reason ← PayloadReader.u8;
                 detail ← PayloadReader.text Limits.kMaxRegionAnnotationLength;
                 mret (publisher, reason, detail)) frame
    (λ '(publisher, reason, detail) w,
       if reason >? fence_reason_code FenceReason.SupersededByNewBoot
       then fail_session clk ErrorCode.InvalidArgument "fence reason out of range" w
       else
         match parse_name publisher with
         | Err _ => send_ack AckStatus.Malformed "invalid publisher identity" w
         | Ok publisher =>
             acknowledge "publisher fenced"
               (state_of (fence_publisher (clk 0%nat) publisher (fence_reason_of_code reason) detail
                          (World.observatory w))) w
         end) w.

Definition handle_bump_topology (frame : Frame.t) (w : World.t) : World.t :=
  parse_all clk (PayloadReader.text Limits.kMaxRegionAnnotationLength) frame (λ reason w,
    acknowledge "topology generation advanced"
      (state_of (bump_topology_generation (clk 0%nat) reason (World.observatory w))) w) w.

Definition handle_retire_region (frame : Frame.t) (w : World.t) : World.t :=
  parse_all clk (region ← PayloadReader.text Limits.kMaxNameLength; generation ← PayloadReader.u64;
                 reason ← PayloadReader.text Limits.kMaxRegionAnnotationLength;
                 mret (region, generation, reason)) frame
    (λ '(region, generation, reason) w,
       match parse_name region with
       | Err _ => send_ack AckStatus.Malformed "invalid region identity" w
       | Ok region =>
           acknowledge "region retired"
             (retire_region (clk 0%nat) region generation reason (World.observatory w)) w
       end) w.

Definition handle_save_state (frame : Frame.t) (w : World.t) : World.t :=
  match Frame.payload frame with
  | _ :: _ => fail_session clk ErrorCode.TrailingBytes "SAVE_STATE must have an empty payload" w
  | [] =>
      if sempty state_path
      then send_ack AckStatus.Unsupported "no durable state path is configured" w
      else
        match save (World.observatory w) with
        | Err e => nack e w
        | Ok bytes_written =>
            send_ack AckStatus.Accepted ("state saved (" +:+ format_u64 bytes_written +:+ " bytes)") w
        end
  end.

(** *** Dispatch *)

Definition not_allowed (role : ClientRole.t) (type : MessageType.t) : string :=
  "role " +:+ ClientRole.to_string role +:+ " may not send " +:+ MessageType.to_string type.

Definition handle (frame : Frame.t) (w : World.t) : option World.t :=
  match Frame.type frame with
  | MessageType.Heartbeat => Some (handle_heartbeat frame w)
  | MessageType.RegisterPublisher => Some (handle_register_publisher frame w)
  | MessageType.PublishEvent => Some (handle_publish_event frame w)
  | MessageType.PublishBatch => Some (handle_publish_batch frame w)
  | MessageType.PublishCounter => Some (handle_publish_counter frame w)
  | MessageType.QuerySnapshot => handle_query_snapshot frame w
  | MessageType.QueryFindings => handle_query_findings frame w
  | MessageType.QueryAttribution => Some (handle_query_attribution frame w)
  | MessageType.RegisterResource => Some (handle_register_resource frame w)
  | MessageType.RegisterRegion => Some (handle_register_region frame w)
  | MessageType.RegisterCoherenceDomain => Some (handle_register_coherence_domain frame w)
  | MessageType.SetTopologyLink => Some (handle_set_topology_link frame w)
  | MessageType.Fence => Some (handle_fence frame w)
  | MessageType.SaveState => Some (handle_save_state frame w)
  | MessageType.BumpTopology => Some (handle_bump_topology frame w)
  | MessageType.RetireRegion => Some (handle_retire_region frame w)
  | _ => Some (fail_session clk ErrorCode.UnknownMessageType "unhandled message type" w)
  end.

Definition dispatch (frame : Frame.t) (w : World.t) : option World.t :=
  let s := World.session w in
  if decide (Frame.type frame = MessageType.Hello) then Some (handle_hello frame w)
  else if negb (Session.hello_done s)
  then Some (fail_session clk ErrorCode.ProtocolError "HELLO must precede other messages" w)
  else if negb (role_may_send (Session.role s) (Frame.type frame))
  then Some (fail_session clk ErrorCode.Unauthorized
               (not_allowed (Session.role s) (Frame.type frame)) w)
  else handle frame w.
End handlers.

(** ** The service loop *)

Section service.
Context (endpoint : string) (state_path : string) (save : State.t → result Z).
(** The clock readings of the [i]-th frame of a call. *)
Context (clk : nat → nat → Z).

(** The loop that takes complete frames off the buffer ([take_frame] is the code
    both loops share) and dispatches them; the flag tells whether the session was
    erased.  Each frame takes at least 36 bytes off the buffer. *)
Fixpoint drain (fuel : nat) (i : nat) (w : World.t) : option (World.t * bool) :=
  match fuel with
  | O => None
  | S fuel =>
      match take_frame (Session.buffer (World.session w)) with
      | None => Some (w, false)
      | Some (Err e, _) => Some (fail_with (clk i) e w, true)
      | Some (Ok frame, rest) =>
          let closed := negb (Session.is_open (World.session w)) in
          w ← dispatch endpoint state_path save (clk i) frame
                (w <| World.session ::= λ s, s <| Session.buffer := rest |> |>);
          if negb (Session.is_open (World.session w)) || closed then Some (w, true)
          else drain fuel (S i) w
      end
  end.

Definition drain_all (w : World.t) : option (World.t * bool) :=
  drain (S (length (Session.buffer (World.session w)))) 0 w.

Definition receive (received : result (list Z)) (w : World.t) : option (World.t * bool) :=
  match received with
  | Err e => if decide (Error.code e = ErrorCode.Busy) then Some (w, false)
             else Some (close_session (clk 0%nat) w, true)
  | Ok [] => Some (close_session (clk 0%nat) w, true)
  | Ok chunk =>
      let w := w <| World.session ::= λ s, s <| Session.buffer ::= λ b, b ++ chunk |> |> in
      if zlen (Session.buffer (World.session w)) >? kReceiveBound
      then Some (fail_session (clk 0%nat) ErrorCode.TooLarge
                   "receive buffer exceeds the frame bound" w, true)
      else drain_all w
  end.
End service.

(** ** The server *)

Module Server.
Record t := mk {
  observatory : State.t; sessions : gmap Z Session.t; next_session_id : Z;
  protocol_rejections : Z; sent : list (Z * Frame.t);
}.
#[global] Instance eta : Eta t := fun s =>
  mk (observatory s) (sessions s) (next_session_id s) (protocol_rejections s) (sent s).
Definition start (o : State.t) : t := mk o ∅ 1 0 [].
End Server.

Definition enter (session : Session.t) (s : Server.t) : World.t :=
  World.mk (Server.observatory s) session (Server.protocol_rejections s) [].
(** The server after a session was served, and perhaps erased. *)
Definition leave (id : Z) (w : World.t) (erased : bool) (s : Server.t) : Server.t :=
  Server.mk (World.observatory w)
    (if erased then delete id (Server.sessions s) else <[id := World.session w]> (Server.sessions s))
    (Server.next_session_id s) (World.protocol_rejections w)
    (Server.sent s ++ ((λ f, (id, f)) <$> World.sent w)).

Module CoordinatorOptions.
Record t := mk {
  max_connections : Z; state_path : string; endpoint : string; save : State.t → result Z;
}.
End CoordinatorOptions.

Definition accept_connection (options : CoordinatorOptions.t) (peer : string) (s : Server.t) : Server.t :=
  if CoordinatorOptions.max_connections options <=? zsize (Server.sessions s) then s
  else
    let id := Server.next_session_id s in
    s <| Server.next_session_id ::= λ n, u64_add n 1 |>
      <| Server.sessions ::= λ m, match m !! id with Some _ => m | None => <[id := Session.fresh id peer]> m end |>.

Definition service_session (options : CoordinatorOptions.t) (clk : nat → nat → Z) (id : Z)
    (received : result (list Z)) (s : Server.t) : option Server.t :=
  match Server.sessions s !! id with
  | None => Some s
  | Some session =>
      '(w, erased) ← receive (CoordinatorOptions.endpoint options)
        (CoordinatorOptions.state_path options) (CoordinatorOptions.save options) clk received
        (enter session s);
      Some (leave id w erased s)
  end.

(** The loop that closes every remaining session when the server stops. *)
Definition close_one (clk : nat → Z) (s : Server.t) (id : Z) : Server.t :=
  match Server.sessions s !! id with
  | None => s
  | Some session => leave id (close_session clk (enter session s)) true s
  end.
Definition close_all (clk : nat → Z) (s : Server.t) : Server.t :=
  foldl (close_one clk) s (entries (Server.sessions s)).*1.

(** What the I/O thread does, one step at a time. *)
Inductive Event :=
| Accepted (peer : string)
| Readable (id : Z) (received : result (list Z)) (clk : nat → nat → Z)
| Stopped (clk : nat → Z).

Definition step (options : CoordinatorOptions.t) (e : Event) (s : Server.t) : option Server.t :=
  match e with
  | Accepted peer => Some (accept_connection options peer s)
  | Readable id received clk => service_session options clk id received s
  | Stopped clk => Some (close_all clk s)
  end.

Fixpoint serve (options : CoordinatorOptions.t) (events : list Event) (s : Server.t) : option Server.t :=
  match events with
  | [] => Some s
  | e :: events => s ← step options e s; serve options events s
  end.

(** ** What a session may do *)

(** The kinds of operations the handlers of a role perform: publishers publish, clients
    take snapshots, administrators administer, and a publisher's boot is fenced when its
    connection closes.  This describes the handlers; that a publisher acts for itself
    only, as [protocol.hpp] has it, is not so ([publisher_speaks_for_another]). *)
Definition performs (role : ClientRole.t) (op : Operation) : Prop :=
  match op with
  | System.RegisterPublisher _ _ _ | Ingest _ _ | IngestBatch _ _ | IngestCounter _ _ =>
      role = ClientRole.Publisher ∨ role = ClientRole.Admin
  | TakeSnapshot _ => role = ClientRole.Client ∨ role = ClientRole.Admin
  | FencePublisherBoot _ _ _ reason _ =>
      role = ClientRole.Admin ∨ (role = ClientRole.Publisher ∧ reason = FenceReason.ConnectionClosed)
  | SetCapability _ | SetCostModel _ | System.Reconcile _ => False
  | _ => role = ClientRole.Admin
  end.

(** Only a session that said HELLO as a publisher or an administrator holds a
    publisher. *)
Definition session_ok (s : Session.t) : Prop :=
  Session.publisher_registered s = true →
  Session.hello_done s = true
  ∧ (Session.role s = ClientRole.Publisher ∨ Session.role s = ClientRole.Admin).

(** From [w] to [w'] with operations of the kinds the role of the session performs. *)
Definition within_role (w w' : World.t) : Prop :=
  let s := World.session w in
  let s' := World.session w' in
  session_ok s →
  session_ok s' ∧ Session.hello_done s' = Session.hello_done s ∧ Session.role s' = Session.role s
  ∧ Session.buffer s' = Session.buffer s ∧ Session.id s' = Session.id s
  ∧ ∃ ops, Forall (performs (Session.role s)) ops
      ∧ World.observatory w' = run ops (World.observatory w).

Create HintDb coordinator.

#[global] Instance within_role_refl : Reflexive within_role.
Proof. intros w Hs. split_and!; try done. exists []. by split; [constructor|]. Qed.
#[global] Instance within_role_trans : Transitive within_role.
Proof.
  intros w1 w2 w3 H12 H23 Hs. destruct (H12 Hs) as (Hs2 & Hh2 & Hr2 & Hb2 & Hi2 & ops & Hp & Ho).
  destruct (H23 Hs2) as (Hs3 & Hh3 & Hr3 & Hb3 & Hi3 & ops' & Hp' & Ho').
  split_and!; [done|congruence..|]. exists (ops ++ ops'). split.
  - apply Forall_app_2; [done|]. by rewrite <-Hr2.
  - rewrite Ho', Ho. unfold run. by rewrite foldl_app.
Qed.

(** Two worlds with one observatory and one session. *)
Lemma within_role_same w w1 w2 :
  World.observatory w2 = World.observatory w1 → World.session w2 = World.session w1 →
  within_role w w1 → within_role w w2.
Proof. intros Ho Hs H. unfold within_role. by rewrite Hs, Ho. Qed.

Lemma within_role_exec op w :
  performs (Session.role (World.session w)) op →
  within_role w (w <| World.observatory := exec op (World.observatory w) |>).
Proof. intros Hp Hs. split_and!; try done. exists [op]. by rewrite Forall_singleton. Qed.

Lemma send_counts_within status detail a r d l m w w' :
  within_role w w' → within_role w (send_counts status detail a r d l m w').
Proof. by apply within_role_same. Qed.
Lemma send_ack_within status detail w w' : within_role w w' → within_role w (send_ack status detail w').
Proof. apply send_counts_within. Qed.
Lemma nack_within e w w' : within_role w w' → within_role w (nack e w').
Proof. apply send_counts_within. Qed.
Lemma respond_within type m w w' : within_role w w' → within_role w (respond type m w').
Proof. by apply within_role_same. Qed.
Lemma respond_or_fail_within type what m w w' :
  within_role w w' → within_role w (respond_or_fail type what m w').
Proof. unfold respond_or_fail. destruct (m []) as [[] payload]; by apply within_role_same. Qed.

(** Closing fences the session's own boot, with a reason open to publishers. *)
Lemma close_session_within clk w w' : within_role w w' → within_role w (close_session clk w').
Proof.
  intros H. etransitivity; [exact H|]. clear w H. rename w' into w. unfold close_session.
  destruct (Session.publisher_registered (World.session w)) eqn:Hreg.
  2: { intros Hs. split_and!; try done. exists []. by split; [constructor|]. }
  intros Hs. destruct (Hs Hreg) as [Hh Hr].
  assert (performs (Session.role (World.session w))
    (FencePublisherBoot (clk 2%nat) (Session.publisher_id (World.session w))
       (Session.publisher_boot (World.session w)) FenceReason.ConnectionClosed
       (closed_detail (Session.peer (World.session w))))) as Hp.
  { cbn. destruct Hr; [by right|by left]. }
  set (op := FencePublisherBoot _ _ _ _ _) in Hp.
  assert (exec op (World.observatory w) = exec op (World.observatory w)) as He by done.
  unfold op in He at 1. cbn [exec] in He.
  destruct (fence_publisher_boot _ _ _ _ _ _) as [[o v]|]; cbn;
    (split_and!; try done; exists [op]; split; [by apply Forall_singleton|exact He]).
Qed.

Lemma fail_session_within clk code detail w w' :
  within_role w w' → within_role w (fail_session clk code detail w').
Proof. intros H. apply close_session_within, send_counts_within. by eapply within_role_same. Qed.
Lemma fail_with_within clk e w w' : within_role w w' → within_role w (fail_with clk e w').
Proof. unfold fail_with. apply fail_session_within. Qed.

Lemma parse_within {A} clk (r : action PayloadReader.t A) frame k w :
  (∀ a reader, within_role w (k a reader w)) → within_role w (parse clk r frame k w).
Proof. intros H. unfold parse. destruct (r _) as [[a|e] reader]; [apply H|by apply fail_with_within]. Qed.
Lemma parse_all_within {A} clk (r : action PayloadReader.t A) frame k w :
  (∀ a, within_role w (k a w)) → within_role w (parse_all clk r frame k w).
Proof. intros H. by apply parse_within. Qed.
Lemma parse_record_within {A} clk what (r : action PayloadReader.t A) frame k w :
  (∀ a, within_role w (k a w)) → within_role w (parse_record clk what r frame k w).
Proof.
  intros H. apply parse_within. intros a reader. destruct (PayloadReader.exhausted reader); [done|].
  by apply fail_session_within.
Qed.

#[global] Hint Resolve send_counts_within send_ack_within nack_within respond_within respond_or_fail_within
  close_session_within fail_session_within fail_with_within parse_within parse_all_within
  parse_record_within within_role_exec : coordinator.
#[global] Hint Extern 1 (within_role ?w ?w) => reflexivity : coordinator.

(** An operation that fails leaves the state alone. *)
Lemma acknowledge_within done op r w :
  performs (Session.role (World.session w)) op →
  exec op (World.observatory w) = commit (World.observatory w) r →
  within_role w (acknowledge done r w).
Proof.
  intros Hp He. unfold acknowledge. destruct r as [o|e]; [|auto with coordinator].
  cbn in He. rewrite <-He. apply send_counts_within. by apply within_role_exec.
Qed.

Section handlers_within.
Context (endpoint : string) (state_path : string) (save : State.t → result Z) (clk : nat → Z).

Ltac within := repeat first [progress intros | case_match | progress auto with coordinator].

Lemma handle_heartbeat_within frame w : within_role w (handle_heartbeat clk frame w).
Proof. unfold handle_heartbeat. within. Qed.

Lemma handle_register_publisher_within frame w :
  Session.hello_done (World.session w) = true →
  Session.role (World.session w) = ClientRole.Publisher ∨ Session.role (World.session w) = ClientRole.Admin →
  within_role w (handle_register_publisher clk frame w).
Proof.
  intros Hh Hr. apply parse_record_within. intros g. cbn.
  pose proof (within_role_exec (System.RegisterPublisher (clk 0%nat) (clk 1%nat) g) w Hr) as H.
  cbn [exec] in H. destruct (register_publisher _ _ g _) as [o [v|e]]; cbn [fst] in H; [|auto with coordinator].
  apply send_counts_within. etransitivity; [exact H|]. intros Hs. split_and!; try done.
  exists []. by split; [constructor|].
Qed.

Section publishing.
Context (w : World.t).
Context (Hr : Session.role (World.session w) = ClientRole.Publisher
              ∨ Session.role (World.session w) = ClientRole.Admin).

Lemma handle_publish_event_within frame : within_role w (handle_publish_event clk frame w).
Proof.
  apply parse_record_within. intros o.
  pose proof (within_role_exec (Ingest (clk 0%nat) o) w Hr) as H. cbn [exec] in H.
  destruct (ingest _ o _) as [o' out]. cbn [fst] in H. auto with coordinator.
Qed.

Lemma handle_publish_batch_within frame : within_role w (handle_publish_batch clk frame w).
Proof.
  apply parse_within. intros count reader. destruct (_ || _); [auto with coordinator|].
  destruct (read_n _ _ reader) as [[os|e] reader']; [|auto with coordinator].
  destruct (negb _); [auto with coordinator|].
  pose proof (within_role_exec (IngestBatch (clk 0%nat) os) w Hr) as H. cbn [exec] in H.
  destruct (ingest_batch _ os _) as [o' [out|e]]; cbn [fst] in H; auto with coordinator.
Qed.

Lemma handle_publish_counter_within frame : within_role w (handle_publish_counter clk frame w).
Proof.
  apply parse_record_within. intros p.
  pose proof (within_role_exec (IngestCounter (clk 0%nat) p) w Hr) as H. cbn [exec] in H.
  destruct (ingest_counter _ p _) as [o' [out|e]]; cbn [fst] in H; auto with coordinator.
Qed.
End publishing.

Section querying.
Context (w : World.t).
Context (Hr : Session.role (World.session w) = ClientRole.Client
              ∨ Session.role (World.session w) = ClientRole.Admin).

Lemma handle_query_snapshot_within frame w' :
  handle_query_snapshot clk frame w = Some w' → within_role w w'.
Proof.
  unfold handle_query_snapshot, take_snapshot.
  destruct (read_flags frame) as [flags|e]; [|intros [= <-]; auto with coordinator].
  cbn zeta. destruct (analyze_all _ _) as [found|]; [|done]. intros [= <-].
  apply respond_or_fail_within. cbn [fst].
  exact (within_role_exec (TakeSnapshot (clk 0%nat)) w Hr).
Qed.

Lemma handle_query_findings_within frame w' :
  handle_query_findings clk frame w = Some w' → within_role w w'.
Proof.
  unfold handle_query_findings.
  destruct (read_flags frame) as [flags|e]; [|intros [= <-]; auto with coordinator].
  destruct (analyze_all _ _) as [found|]; [|done]. intros [= <-]. auto with coordinator.
Qed.

Lemma handle_query_attribution_within frame : within_role w (handle_query_attribution clk frame w).
Proof. apply parse_all_within. within. Qed.
End querying.

Section administration.
Context (w : World.t) (Hr : Session.role (World.session w) = ClientRole.Admin).

Lemma register_resource_within {A} (r : action PayloadReader.t A) register op reader :
  (∀ record, performs ClientRole.Admin (op record)
     ∧ exec (op record) (World.observatory w)
       = commit (World.observatory w) (register (clk 0%nat) record (World.observatory w))) →
  match register_resource clk r register reader (World.observatory w) with
  | Ok (Ok s, _) => within_role w (w <| World.observatory := s |>)
  | _ => True
  end.
Proof.
  intros H. unfold register_resource. destruct (r reader) as [[record|e] reader']; [|done].
  destruct (H record) as [Hp He]. destruct (register _ record _) as [s|]; [|done]. cbn in He.
  rewrite <-He. apply within_role_exec. by rewrite Hr.
Qed.

Lemma handle_register_resource_within frame : within_role w (handle_register_resource clk frame w).
Proof.
  apply parse_within. intros kind reader. destruct (_ >? _); [auto with coordinator|]. cbn zeta.
  assert (∀ registration : result (result State.t * PayloadReader.t),
    match registration with
    | Ok (Ok s, _) => within_role w (w <| World.observatory := s |>)
    | _ => True
    end →
    within_role w match registration with
      | Err e => fail_with clk e w
      | Ok (r, reader) =>
          let registered := match r with Ok s => w <| World.observatory := s |> | Err _ => w end in
          if negb (PayloadReader.exhausted reader)
          then fail_session clk ErrorCode.TrailingBytes "trailing bytes in REGISTER_RESOURCE" registered
          else acknowledge "resource registered" r w
      end) as Hgen.
  { intros [[[s|e] reader']|e] H; cbn zeta; [| |auto with coordinator];
      destruct (negb _); unfold acknowledge; auto with coordinator. }
  destruct (ResourceKind.of_code kind); try (by auto with coordinator); apply Hgen.
  - by apply (register_resource_within _ _ (System.RegisterNode (clk 0%nat))).
  - by apply (register_resource_within _ _ (System.RegisterProcessor (clk 0%nat))).
  - by apply (register_resource_within _ _ (System.RegisterAccelerator (clk 0%nat))).
  - by apply (register_resource_within _ _ (System.RegisterMemoryDomain (clk 0%nat))).
  - by apply (register_resource_within _ _ (System.RegisterCoherenceDomain (clk 0%nat))).
Qed.

Lemma handle_register_region_within frame : within_role w (handle_register_region clk frame w).
Proof.
  apply parse_record_within. intros r.
  apply (acknowledge_within _ (System.RegisterRegion (clk 0%nat) r)); [exact Hr|done].
Qed.
Lemma handle_register_coherence_domain_within frame :
  within_role w (handle_register_coherence_domain clk frame w).
Proof.
  apply parse_record_within. intros r.
  apply (acknowledge_within _ (System.RegisterCoherenceDomain (clk 0%nat) r)); [exact Hr|done].
Qed.
Lemma handle_set_topology_link_within frame : within_role w (handle_set_topology_link clk frame w).
Proof.
  apply parse_record_within. intros l. apply (acknowledge_within _ (System.SetTopologyLink l)); [exact Hr|done].
Qed.

Lemma handle_fence_within frame : within_role w (handle_fence clk frame w).
Proof.
  apply parse_all_within. intros [[publisher reason] detail].
  destruct (_ >? _); [auto with coordinator|].
  destruct (parse_name publisher) as [id|]; [|auto with coordinator].
  unfold fence_publisher. destruct (State.publishers _ !! id) as [p|]; [|cbn; auto with coordinator].
  apply (acknowledge_within _ (FencePublisherBoot (clk 0%nat) id
    (PublisherView.boot (PublisherState.view p)) (fence_reason_of_code reason) detail)); [by left|].
  cbn [exec]. by destruct (fence_publisher_boot _ _ _ _ _ _) as [[]|].
Qed.

Lemma handle_bump_topology_within frame : within_role w (handle_bump_topology clk frame w).
Proof.
  apply parse_all_within. intros reason.
  apply (acknowledge_within _ (System.BumpTopology (clk 0%nat) reason)); [exact Hr|]. cbn [exec].
  by destruct (bump_topology_generation _ _ _) as [[]|].
Qed.

Lemma handle_retire_region_within frame : within_role w (handle_retire_region clk frame w).
Proof.
  apply parse_all_within. intros [[region generation] reason].
  destruct (parse_name region) as [id|]; [|auto with coordinator].
  apply (acknowledge_within _ (System.RetireRegion (clk 0%nat) id generation reason)); [exact Hr|done].
Qed.
End administration.

Lemma handle_save_state_within frame w : within_role w (handle_save_state state_path save clk frame w).
Proof. unfold handle_save_state. within. Qed.
End handlers_within.

(** ** Serving frames *)

(** A session that said HELLO keeps its role; one that did not does nothing. *)
Definition served (w w' : World.t) : Prop :=
  let s := World.session w in
  let s' := World.session w' in
  session_ok s →
  session_ok s' ∧ Session.id s' = Session.id s ∧ Session.buffer s' = Session.buffer s
  ∧ (Session.hello_done s = true → Session.hello_done s' = true ∧ Session.role s' = Session.role s)
  ∧ ∃ ops, Forall (performs (Session.role s')) ops
      ∧ (Session.hello_done s' = false → ops = [])
      ∧ World.observatory w' = run ops (World.observatory w).

#[global] Instance served_refl : Reflexive served.
Proof. intros w Hs. split_and!; try done. exists []. by split_and!; [constructor|..]. Qed.
#[global] Instance served_trans : Transitive served.
Proof.
  intros w1 w2 w3 H12 H23 Hs. destruct (H12 Hs) as (Hs2 & Hi2 & Hb2 & Hh2 & ops & Hp & Hno & Ho).
  destruct (H23 Hs2) as (Hs3 & Hi3 & Hb3 & Hh3 & ops' & Hp' & Hno' & Ho').
  split_and!; [done|congruence|congruence|naive_solver congruence|]. exists (ops ++ ops'). split_and!.
  - apply Forall_app_2; [|done]. destruct (Session.hello_done (World.session w2)) eqn:E.
    + by destruct (Hh3 eq_refl) as [_ ->].
    + rewrite Hno by done. constructor.
  - intros E. rewrite Hno' by done. destruct (Session.hello_done (World.session w2)) eqn:E2; [|by rewrite Hno].
    destruct (Hh3 eq_refl). congruence.
  - rewrite Ho', Ho. unfold run. by rewrite foldl_app.
Qed.

Lemma within_role_served w w' :
  Session.hello_done (World.session w) = true → within_role w w' → served w w'.
Proof.
  intros Hh H Hs. destruct (H Hs) as (Hs' & Hh' & Hr & Hb & Hi & ops & Hp & Ho).
  split_and!; [done|done|done|by rewrite Hh'|]. exists ops. rewrite Hr, Hh', Hh. by split_and!.
Qed.

(** Failing or closing a session that has not said HELLO fences nothing. *)
Lemma close_session_silent clk w :
  Session.publisher_registered (World.session w) = false →
  World.observatory (close_session clk w) = World.observatory w.
Proof. intros H. unfold close_session. by rewrite H. Qed.

Lemma close_session_served clk w w' : served w w' → served w (close_session clk w').
Proof.
  intros H. etransitivity; [exact H|]. clear w H. rename w' into w.
  destruct (Session.hello_done (World.session w)) eqn:Hh.
  { apply within_role_served; [done|]. by apply close_session_within. }
  intros Hs. assert (Session.publisher_registered (World.session w) = false) as Hreg.
  { destruct (Session.publisher_registered _) eqn:E; [|done]. destruct (Hs E). congruence. }
  unfold close_session. rewrite Hreg. split_and!; try done. exists []. by split_and!; [constructor|..].
Qed.

Lemma served_same w w1 w2 :
  World.observatory w2 = World.observatory w1 → World.session w2 = World.session w1 →
  served w w1 → served w w2.
Proof. intros Ho Hs H. unfold served. by rewrite Hs, Ho. Qed.

Lemma fail_session_served clk code detail w w' :
  served w w' → served w (fail_session clk code detail w').
Proof. intros H. apply close_session_served. by eapply served_same. Qed.

Lemma fail_with_served clk e w w' : served w w' → served w (fail_with clk e w').
Proof. unfold fail_with. apply fail_session_served. Qed.

Lemma parse_served {A} clk (r : action PayloadReader.t A) frame k w :
  (∀ a reader, served w (k a reader w)) → served w (parse clk r frame k w).
Proof. intros H. unfold parse. destruct (r _) as [[a|e] reader]; [apply H|by apply fail_with_served]. Qed.

Section dispatching.
Context (endpoint : string) (state_path : string) (save : State.t → result Z) (clk : nat → Z).

Lemma handle_hello_served frame w : served w (handle_hello endpoint clk frame w).
Proof.
  apply parse_served. intros [v r] reader.
  destruct (negb _); [by apply fail_session_served|].
  destruct (_ >? _); [by apply fail_session_served|].
  destruct (Session.hello_done (World.session w)) eqn:Hh; [by apply fail_session_served|].
  cbn zeta. intros Hs. cbn. rewrite Hh. split_and!; try done.
  - intros E. destruct (Hs E). congruence.
  - exists []. by split_and!; [constructor|..].
Qed.

Lemma handle_served frame w w' :
  Session.hello_done (World.session w) = true →
  role_may_send (Session.role (World.session w)) (Frame.type frame) = true →
  handle state_path save clk frame w = Some w' → served w w'.
Proof.
  intros Hh Hr H. apply within_role_served; [done|]. revert Hr H. unfold handle, role_may_send.
  destruct (Frame.type frame); rewrite ?orb_true_iff, ?bool_decide_eq_true; intros Hr H;
    try (injection H as <-);
    auto using handle_heartbeat_within, handle_register_publisher_within, handle_publish_event_within,
      handle_publish_batch_within, handle_publish_counter_within, handle_query_attribution_within,
      handle_register_resource_within, handle_register_region_within,
      handle_register_coherence_domain_within, handle_set_topology_link_within, handle_fence_within,
      handle_bump_topology_within, handle_retire_region_within, handle_save_state_within
      with coordinator; try done.
  - by eapply handle_query_snapshot_within.
  - by eapply handle_query_findings_within.
Qed.

Lemma dispatch_served frame w w' :
  dispatch endpoint state_path save clk frame w = Some w' → served w w'.
Proof.
  unfold dispatch. case_decide; [intros [= <-]; apply handle_hello_served|].
  destruct (Session.hello_done (World.session w)) eqn:Hh; cbn [negb].
  2: { intros [= <-]. by apply fail_session_served. }
  destruct (role_may_send _ _) eqn:Hr; cbn [negb].
  2: { intros [= <-]. by apply fail_session_served. }
  by apply handle_served.
Qed.

(** With a sound invalidation policy every frame is answered. *)
Lemma dispatch_total frame w :
  invariant (World.observatory w) → sound_policy (invalidation_policy_of (World.observatory w)) →
  is_Some (dispatch endpoint state_path save clk frame w).
Proof.
  intros Hi Hp. pose proof (ok_journal _ (inv_evidence _ Hi)) as Hj.
  assert (zlen (State.journal (World.observatory w)) ≤ u64_max) as Hj'
    by (unfold Limits.kMaxObservationJournal, u64_max in *; lia). clear Hj.
  unfold dispatch. case_decide; [eauto|]. destruct (negb _); [eauto|]. destruct (negb _); [eauto|].
  unfold handle. destruct (Frame.type frame); eauto.
  - unfold handle_query_snapshot, take_snapshot. destruct (read_flags frame) as [flags|]; [|eauto].
    cbn zeta. edestruct (analyze_all_total ((World.observatory w) <| State.snapshot_generation ::= next_id |>)
      (requested flags)) as [found ->]; [exact Hp|exact Hj'|]. cbn. eauto.
  - unfold handle_query_findings. destruct (read_flags frame) as [flags|]; [|eauto].
    destruct (analyze_all_total (World.observatory w) (requested flags) Hp Hj') as [found ->]. cbn. eauto.
Qed.
End dispatching.

(** *** Draining the buffer *)

Definition set_buffer (b : list Z) (w : World.t) : World.t :=
  w <| World.session ::= λ s, s <| Session.buffer := b |> |>.

(** What arrives does not change what may be done. *)
Lemma served_buffer b w w' : served w w' → served (set_buffer b w) (set_buffer b w').
Proof. intros H Hs. destruct (H Hs) as (? & ? & _ & ? & ?). by split_and!. Qed.
Lemma set_buffer_twice b c w : set_buffer b (set_buffer c w) = set_buffer b w.
Proof. done. Qed.
Lemma set_buffer_id w : set_buffer (Session.buffer (World.session w)) w = w.
Proof. by destruct w as [? []]. Qed.

Lemma close_session_closed clk w : Session.is_open (World.session (close_session clk w)) = false.
Proof. done. Qed.

(** A session after a call: closed if and only if erased, and then nothing but an
    incomplete frame is left in the buffer of one that stays. *)
Definition settled (w : World.t) (erased : bool) : Prop :=
  Session.is_open (World.session w) = negb erased
  ∧ (erased = false → take_frame (Session.buffer (World.session w)) = None).

Section draining.
Context (endpoint : string) (state_path : string) (save : State.t → result Z) (clk : nat → nat → Z).
Local Abbreviation drain := (drain endpoint state_path save clk).
Local Abbreviation receive := (receive endpoint state_path save clk).

Lemma drain_spec fuel : ∀ i w w' erased,
  session_ok (World.session w) → Session.is_open (World.session w) = true →
  drain fuel i w = Some (w', erased) →
  settled w' erased ∧ zlen (Session.buffer (World.session w')) ≤ zlen (Session.buffer (World.session w))
  ∧ served (set_buffer (Session.buffer (World.session w')) w) w'.
Proof.
  induction fuel as [|fuel IH]; intros i w w' erased Hs Hopen; [done|]. cbn [Coordinator.drain].
  destruct (take_frame _) as [[[f|e] rest]|] eqn:Ht.
  - rewrite Hopen. cbn [negb]. fold (set_buffer rest w).
    destruct (dispatch _ _ _ _ _ _) as [w1|] eqn:Hd; [|done]. cbn [mbind option_bind].
    apply dispatch_served in Hd as Hd'. destruct (Hd' Hs) as (Hs1 & _ & Hb1 & _). cbn in Hb1.
    apply take_frame_shrinks in Ht. rewrite orb_false_r.
    destruct (Session.is_open (World.session w1)) eqn:Ho1; cbn [negb].
    + intros H. destruct (IH _ _ _ _ Hs1 Ho1 H) as (Hset & Hlen & Hserved).
      split_and!; [done|unfold zlen in *; rewrite Hb1 in Hlen; lia|].
      etransitivity; [|exact Hserved]. exact (served_buffer _ _ _ Hd').
    + intros [= <- <-]. rewrite Hb1. split_and!; [by split|unfold zlen; lia|exact Hd'].
  - intros [= <- <-].
    assert (served w (fail_with (clk i) e w)) as Hf by by apply fail_with_served.
    destruct (Hf Hs) as (_ & _ & Hb & _). rewrite Hb, set_buffer_id. split_and!; [by split|lia|done].
  - intros [= <- <-]. rewrite set_buffer_id. split_and!; [by split|lia|done].
Qed.

(** The invariant and the policy survive whatever a session does. *)
Lemma served_invariant w w' :
  session_ok (World.session w) → served w w' → invariant (World.observatory w) →
  invariant (World.observatory w')
  ∧ invalidation_policy_of (World.observatory w') = invalidation_policy_of (World.observatory w).
Proof.
  intros Hs H Hi. destruct (H Hs) as (_ & _ & _ & _ & ops & _ & _ & ->). split; [by apply run_ok|by apply run_policy].
Qed.

Lemma drain_total fuel : ∀ i w,
  session_ok (World.session w) → invariant (World.observatory w) →
  sound_policy (invalidation_policy_of (World.observatory w)) →
  (length (Session.buffer (World.session w)) < fuel)%nat → is_Some (drain fuel i w).
Proof.
  induction fuel as [|fuel IH]; intros i w Hs Hi Hp Hf; [lia|]. cbn [Coordinator.drain].
  destruct (take_frame _) as [[[f|e] rest]|] eqn:Ht; [|eauto..]. apply take_frame_shrinks in Ht.
  fold (set_buffer rest w).
  destruct (dispatch_total endpoint state_path save (clk i) f (set_buffer rest w) Hi Hp) as [w1 Hd].
  rewrite Hd. cbn [mbind option_bind]. destruct (_ || _); [eauto|].
  apply dispatch_served in Hd. destruct (served_invariant (set_buffer rest w) w1 Hs Hd Hi) as [Hi1 Hp1].
  destruct (Hd Hs) as (Hs1 & _ & Hb1 & _). apply IH; [done|done|by rewrite Hp1|]. rewrite Hb1. cbn. lia.
Qed.

Lemma receive_spec received w w' erased :
  session_ok (World.session w) → Session.is_open (World.session w) = true →
  take_frame (Session.buffer (World.session w)) = None →
  zlen (Session.buffer (World.session w)) ≤ kReceiveBound →
  receive received w = Some (w', erased) →
  settled w' erased ∧ (erased = false → zlen (Session.buffer (World.session w')) ≤ kReceiveBound)
  ∧ ∃ b, served (set_buffer b w) w'.
Proof.
  intros Hs Ho Ht Hl. unfold Coordinator.receive.
  assert (∃ b, served (set_buffer b w) (close_session (clk 0%nat) w)) as Hclose.
  { exists (Session.buffer (World.session w)). rewrite set_buffer_id. by apply close_session_served. }
  destruct received as [[|x chunk]|e].
  - intros [= <- <-]. by split_and!.
  - cbn zeta. fold (set_buffer (Session.buffer (World.session w) ++ x :: chunk) w).
    change (w <| World.session ::= _ |>) with (set_buffer (Session.buffer (World.session w) ++ x :: chunk) w).
    set (w1 := set_buffer _ w). destruct (Z.gtb_spec (zlen (Session.buffer (World.session w1))) kReceiveBound).
    + intros [= <- <-]. split_and!; [done|done|].
      exists (Session.buffer (World.session w) ++ x :: chunk). by apply fail_session_served.
    + intros H'. apply drain_spec in H' as (Hset & Hlen & Hserved); [|done|done].
      split_and!; [done|lia|]. exists (Session.buffer (World.session w')). exact Hserved.
  - case_decide; intros [= <- <-]; [|by split_and!]. split_and!; [by split|done|].
    exists (Session.buffer (World.session w)). by rewrite set_buffer_id.
Qed.

Lemma receive_total received w :
  session_ok (World.session w) → invariant (World.observatory w) →
  sound_policy (invalidation_policy_of (World.observatory w)) → is_Some (receive received w).
Proof.
  intros Hs Hi Hp. unfold Coordinator.receive. destruct received as [[|x chunk]|e]; [eauto| |case_decide; eauto].
  cbn zeta. destruct (_ >? _); [eauto|]. unfold drain_all. apply drain_total; [done..|lia].
Qed.
End draining.

(** ** Serving *)

(** Every session is open, known by its number, holds a publisher only if its role allows
    one, and no complete frame waits in its buffer, which is within the receive bound. *)
Definition session_served (id : Z) (s : Session.t) : Prop :=
  Session.id s = id ∧ Session.is_open s = true ∧ session_ok s
  ∧ take_frame (Session.buffer s) = None ∧ zlen (Session.buffer s) ≤ kReceiveBound.

Record server_ok (options : CoordinatorOptions.t) (s : Server.t) : Prop := {
  sv_sessions : map_Forall session_served (Server.sessions s);
  sv_connections : zsize (Server.sessions s) ≤ Z.max 0 (CoordinatorOptions.max_connections options);
}.

Lemma server_ok_start options o : server_ok options (Server.start o).
Proof. constructor; [apply map_Forall_empty|]. cbn. unfold zsize. rewrite map_size_empty. lia. Qed.

Section serving.
Context (options : CoordinatorOptions.t).

(** What a step does: it keeps [server_ok] and runs operations. *)
Definition stepped (s s' : Server.t) : Prop :=
  server_ok options s → server_ok options s'
  ∧ ∃ ops, Server.observatory s' = run ops (Server.observatory s).

#[global] Instance stepped_refl : Reflexive stepped.
Proof. intros s Hs. split; [done|by exists []]. Qed.
#[global] Instance stepped_trans : Transitive stepped.
Proof.
  intros s1 s2 s3 H12 H23 Hs. destruct (H12 Hs) as [Hs2 [ops Ho]].
  destruct (H23 Hs2) as [Hs3 [ops' Ho']]. split; [done|]. exists (ops ++ ops').
  rewrite Ho', Ho. unfold run. by rewrite foldl_app.
Qed.

Lemma accept_stepped peer s : stepped s (accept_connection options peer s).
Proof.
  intros [Hss Hc]. unfold accept_connection.
  destruct (Z.leb_spec (CoordinatorOptions.max_connections options) (zsize (Server.sessions s)));
    [split; [done|by exists []]|].
  split; [|by exists []]. constructor; cbn;
    destruct (Server.sessions s !! _) eqn:E; try done.
  - apply map_Forall_insert_2; [|done]. by split_and!.
  - rewrite zsize_insert_None by done. lia.
Qed.

Lemma leave_stepped id session w erased s :
  Server.sessions s !! id = Some session →
  settled w erased → (erased = false → zlen (Session.buffer (World.session w)) ≤ kReceiveBound) →
  (∃ b, served (set_buffer b (enter session s)) w) →
  stepped s (leave id w erased s).
Proof.
  intros He [Hopen Ht] Hl [b Hserved] [Hss Hc]. destruct (Hss _ _ He) as (Hid & _ & Hok & _).
  destruct (Hserved Hok) as (Hok' & Hid' & _ & _ & ops & _ & _ & Ho).
  split; [|by exists ops]. destruct erased; constructor; cbn.
  - by apply map_Forall_delete.
  - unfold zsize in *. rewrite map_size_delete, He. lia.
  - apply map_Forall_insert_2; [|done]. split_and!; auto. by rewrite Hid'.
  - by rewrite (zsize_insert_Some _ _ _ _ He).
Qed.

Lemma service_stepped clk id received s s' :
  service_session options clk id received s = Some s' → stepped s s'.
Proof.
  unfold service_session. destruct (Server.sessions s !! id) as [session|] eqn:E; [|by intros [= <-]].
  destruct (receive _ _ _ _ _ _) as [[w erased]|] eqn:Hr; [|done]. intros [= <-] Hs.
  destruct (sv_sessions _ _ Hs _ _ E) as (_ & Hopen & Hok & Ht & Hl).
  apply receive_spec in Hr as (Hset & Hlen & Hserved); [|done..].
  by apply (leave_stepped id session w erased s).
Qed.

Lemma close_one_stepped clk s id : stepped s (close_one clk s id).
Proof.
  intros Hs. unfold close_one. destruct (Server.sessions s !! id) as [session|] eqn:E; [|by apply stepped_refl].
  apply (leave_stepped id session); [done|done|done| |done].
  exists (Session.buffer session). change session with (World.session (enter session s)) at 1.
  rewrite set_buffer_id. by apply close_session_served.
Qed.

Lemma close_all_stepped clk s : stepped s (close_all clk s).
Proof.
  unfold close_all. generalize (entries (Server.sessions s)).*1. intros ids. revert s.
  induction ids as [|id ids IH]; intros s; [done|]. etransitivity; [apply close_one_stepped|apply IH].
Qed.

Lemma step_stepped e s s' : step options e s = Some s' → stepped s s'.
Proof.
  destruct e; cbn [step].
  - intros [= <-]. apply accept_stepped.
  - apply service_stepped.
  - intros [= <-]. apply close_all_stepped.
Qed.

Lemma serve_stepped events : ∀ s s', serve options events s = Some s' → stepped s s'.
Proof.
  induction events as [|e events IH]; intros s s'; cbn [serve]; [by intros [= <-]|].
  destruct (step options e s) as [s1|] eqn:E; [|done]. intros H.
  etransitivity; [by eapply step_stepped|by apply IH].
Qed.

Lemma step_total e s :
  server_ok options s → invariant (Server.observatory s) →
  sound_policy (invalidation_policy_of (Server.observatory s)) → is_Some (step options e s).
Proof.
  intros Hs Hi Hp. destruct e; cbn [step]; [eauto| |eauto]. unfold service_session.
  destruct (Server.sessions s !! id) as [session|] eqn:E; [|eauto].
  destruct (sv_sessions _ _ Hs _ _ E) as (_ & _ & Hok & _).
  destruct (receive_total (CoordinatorOptions.endpoint options) (CoordinatorOptions.state_path options)
    (CoordinatorOptions.save options) clk received (enter session s) Hok Hi Hp) as [[w erased] ->].
  cbn. eauto.
Qed.

Lemma serve_has_result events : ∀ s,
  server_ok options s → invariant (Server.observatory s) →
  sound_policy (invalidation_policy_of (Server.observatory s)) → is_Some (serve options events s).
Proof.
  induction events as [|e events IH]; intros s Hs Hi Hp; cbn [serve]; [eauto|].
  destruct (step_total e s Hs Hi Hp) as [s1 Hs1]. rewrite Hs1. cbn [mbind option_bind].
  apply step_stepped in Hs1. destruct (Hs1 Hs) as [Hs1' [ops Ho]].
  apply IH; rewrite ?Ho; [done|by apply run_ok|by rewrite run_policy].
Qed.
End serving.

(** After the server stopped no session is left. *)
Lemma close_one_sessions clk s id : Server.sessions (close_one clk s id) = delete id (Server.sessions s).
Proof.
  unfold close_one. destruct (Server.sessions s !! id) eqn:E; [done|]. by rewrite delete_id.
Qed.

Lemma close_ids_lookup clk ids : ∀ s id,
  Server.sessions (foldl (close_one clk) s ids) !! id
  = if decide (id ∈ ids) then None else Server.sessions s !! id.
Proof.
  induction ids as [|i ids IH]; intros s id; cbn [foldl]; [done|].
  rewrite IH, close_one_sessions. destruct (decide (id = i)) as [->|Hne].
  - rewrite lookup_delete_eq. repeat case_decide; set_solver.
  - rewrite lookup_delete_ne by done. repeat case_decide; set_solver.
Qed.

Lemma close_all_sessions clk s : Server.sessions (close_all clk s) = ∅.
Proof.
  apply map_eq. intros id. unfold close_all. rewrite close_ids_lookup, lookup_empty. case_decide as Hin; [done|].
  destruct (Server.sessions s !! id) as [session|] eqn:E; [|done]. contradict Hin.
  apply list_elem_of_fmap. exists (id, session). by rewrite elem_of_entries.
Qed.

(** *** Properties of the server *)

Lemma make_observatory_policy now options :
  invalidation_policy_of (make_observatory now options) = ObservatoryOptions.invalidation_policy options.
Proof.
  change (ObservatoryOptions.invalidation_policy (normalize_options options)
    = ObservatoryOptions.invalidation_policy options).
  unfold normalize_options. repeat case_match; done.
Qed.

(** Claim C11. The server never gets stuck: whatever connections are accepted, whatever
    bytes arrive in whatever pieces, and however the server is stopped, every step of
    the I/O thread terminates with a result when the burst policy is sound.  In that
    state every remaining session is open, no complete frame is left waiting in its
    buffer, which is within the receive bound, and there are no more sessions than
    [max_connections]. *)
Theorem serve_total (now : Z) (options : ObservatoryOptions.t) (settings : CoordinatorOptions.t)
    (events : list Event) :
  sound_policy (ObservatoryOptions.invalidation_policy options) →
  ∃ s, serve settings events (Server.start (make_observatory now options)) = Some s
    ∧ server_ok settings s.
Proof.
  intros Hp. pose proof (server_ok_start settings (make_observatory now options)) as Hs.
  destruct (serve_has_result settings events _ Hs) as [s E];
    [apply make_observatory_invariant|cbn [Server.observatory Server.start]; by rewrite make_observatory_policy|].
  exists s. split; [done|]. by apply (serve_stepped settings events _ _ E).
Qed.

(** Claim C2. The coordinator refines the observatory: the state behind any server, after
    any history of connections and bytes, is one that a sequence of operations of the
    observatory produces from construction, so it satisfies the global invariant; and
    once the server has stopped no session is left. *)
Theorem serve_refines_observatory (now : Z) (options : ObservatoryOptions.t)
    (settings : CoordinatorOptions.t) (events : list Event) (s : Server.t) :
  serve settings events (Server.start (make_observatory now options)) = Some s →
  (∃ ops, Server.observatory s = run ops (make_observatory now options))
  ∧ invariant (Server.observatory s)
  ∧ ∀ clk, Server.sessions (close_all clk s) = ∅.
Proof.
  intros H. pose proof (server_ok_start settings (make_observatory now options)) as Hs.
  destruct (serve_stepped settings events _ _ H Hs) as [_ [ops Ho]].
  split_and!; [by exists ops| |intros; apply close_all_sessions].
  rewrite Ho. apply run_ok, make_observatory_invariant.
Qed.

(** A session of role CLIENT can only take snapshots. *)
Lemma client_run ops : ∀ o,
  Forall (performs ClientRole.Client) ops → ∃ g, run ops o = o <| State.snapshot_generation := g |>.
Proof.
  induction ops as [|op ops IH]; intros o Hp.
  { exists (State.snapshot_generation o). by destruct o. }
  apply Forall_cons_1 in Hp as [Hop Hp]. destruct (IH (exec op o) Hp) as [g Hg]. exists g.
  cbn [run foldl]. unfold run in Hg. rewrite Hg.
  destruct op; cbn in Hop; try done; naive_solver.
Qed.

(** Only an administrator's session touches the structure. *)
Lemma structure_run role ops : ∀ o,
  role ≠ ClientRole.Admin → Forall (performs role) ops → structure (run ops o) = structure o.
Proof.
  induction ops as [|op ops IH]; intros o Hr Hp; [done|]. apply Forall_cons_1 in Hp as [Hop Hp].
  cbn [run foldl]. etransitivity; [apply (IH _ Hr Hp)|].
  destruct op; cbn in Hop; try done; by apply publishing_structure.
Qed.

(** Claim C7. Only administrators change structural state: whatever a session receives, one
    that has not completed HELLO changes nothing; the role is fixed by HELLO; a session of
    role CLIENT changes nothing but the snapshot generation; and one of role PUBLISHER
    changes none of the registries, the links, the epochs and generations, the
    capabilities, the options with the cost model and the history.  (In whose name a
    publisher publishes is not restricted.) *)
Theorem frames_act_within_role (settings : CoordinatorOptions.t) (clk : nat → nat → Z) (id : Z)
    (received : result (list Z)) (s : Server.t) (session : Session.t) (w : World.t) (erased : bool) :
  server_ok settings s → Server.sessions s !! id = Some session →
  receive (CoordinatorOptions.endpoint settings) (CoordinatorOptions.state_path settings)
    (CoordinatorOptions.save settings) clk received (enter session s) = Some (w, erased) →
  (Session.hello_done session = true → Session.role (World.session w) = Session.role session)
  ∧ (Session.hello_done (World.session w) = false → World.observatory w = Server.observatory s)
  ∧ (Session.role (World.session w) = ClientRole.Client →
     ∃ g, World.observatory w = (Server.observatory s) <| State.snapshot_generation := g |>)
  ∧ (Session.role (World.session w) ≠ ClientRole.Admin →
     structure (World.observatory w) = structure (Server.observatory s)).
Proof.
  intros Hs Hid Hr. destruct (sv_sessions _ _ Hs _ _ Hid) as (_ & Hopen & Hok & Ht & Hl).
  apply receive_spec in Hr as (_ & _ & b & Hserved); [|done..].
  destruct (Hserved Hok) as (_ & _ & _ & Hrole & ops & Hp & Hno & Ho).
  change (World.observatory (set_buffer b (enter session s))) with (Server.observatory s) in Ho.
  split; [intros Hh; by apply Hrole|]. split; [intros Hh; by rewrite Ho, Hno|]. split; [intros Hc; rewrite Hc in Hp; rewrite Ho; by apply client_run|].
  intros Ha. rewrite Ho. by eapply structure_run.
Qed.





(** *** Concrete sessions *)

Definition payload_of (m : action PayloadWriter.t unit) : list Z := (m []).2.
Definition frame_bytes (type : MessageType.t) (m : action PayloadWriter.t unit) : list Z :=
  Frame.encode (Frame.mk type 0 1 (payload_of m)).

Definition hello_bytes (role : ClientRole.t) : list Z :=
  frame_bytes MessageType.Hello
    (PayloadWriter.u16 kWireProtocolVersion;; PayloadWriter.u8 (ClientRole.code role);;
     PayloadWriter.text "tool" Limits.kMaxNameLength).
Definition register_bytes (id : string) (boot : Z) : list Z :=
  frame_bytes MessageType.RegisterPublisher (write_publisher_registration (sample_registration id boot)).

Definition settings : CoordinatorOptions.t :=
  CoordinatorOptions.mk 8 "" "127.0.0.1:7000" (λ _, Ok 0).
Definition fresh_server : Server.t := Server.start (make_observatory 1 ObservatoryOptions.default).
Definition clock (i j : nat) : Z := 10 + Z.of_nat (10 * i + j).
Definition arrives (id : Z) (bytes : list Z) : Event := Readable id (Ok bytes) clock.

(** A publisher that says HELLO, registers and loses its connection. *)
Definition one_publisher : list Event :=
  [Accepted "127.0.0.1:40000"; arrives 1 (hello_bytes ClientRole.Publisher);
   arrives 1 (register_bytes "pub.a" 1)].

Lemma serve_total_witness :
  ∃ s, serve settings one_publisher fresh_server = Some s ∧ server_ok settings s.
Proof. apply (serve_total 1 ObservatoryOptions.default settings one_publisher). by vm_compute. Defined.

(** The server after a history, or a fresh one. *)
Definition after (events : list Event) : Server.t :=
  match serve settings events fresh_server with Some s => s | None => fresh_server end.
Definition published : Server.t := Eval vm_compute in after one_publisher.
Lemma published_served : serve settings one_publisher fresh_server = Some published.
Proof. by vm_compute. Qed.

Lemma serve_refines_observatory_witness :
  invariant (Server.observatory published) ∧ Server.sessions (close_all (λ _, 5) published) = ∅.
Proof.
  destruct (serve_refines_observatory 1 ObservatoryOptions.default settings one_publisher published)
    as (_ & Hi & Hc); [exact published_served|]. split; [exact Hi|apply Hc].
Defined.

Lemma published_ok : server_ok settings published.
Proof.
  destruct (serve_stepped settings one_publisher fresh_server published) as [H _];
    [exact published_served|apply server_ok_start|exact H].
Qed.

Definition publisher_session : Session.t :=
  default (Session.fresh 1 "") (Server.sessions published !! 1).

Lemma frames_act_within_role_witness :
  Session.role (World.session (close_session (clock 0) (enter publisher_session published)))
  = ClientRole.Publisher.
Proof.
  destruct (frames_act_within_role settings clock 1 (Ok []) published publisher_session
    (close_session (clock 0) (enter publisher_session published)) true) as (H & _).
  - exact published_ok.
  - by vm_compute.
  - reflexivity.
  - rewrite H by (by vm_compute). by vm_compute.
Defined.


(** The boot under which a publisher is registered, and whether it is live. *)
Definition live (id : string) (s : Server.t) : option bool :=
  (λ p, PublisherView.current (PublisherState.view p) && negb (PublisherView.fenced (PublisherState.view p)))
    <$> State.publishers (Server.observatory s) !! id.
Definition answers (id : Z) (s : Server.t) : list MessageType.t :=
  omap (λ e, if e.1 =? id then Some (Frame.type e.2) else None) (Server.sent s).

(** One connection, two publishers: a session that registers a second publisher
    forgets the first.  When the connection ends only the second is fenced; the first
    stays live, with no session left that could ever fence it. *)
Theorem second_registration_escapes_fence :
  let s := after (one_publisher ++ [arrives 1 (register_bytes "pub.b" 1); Readable 1 (Ok []) clock]) in
  Server.sessions s = ∅ ∧ live "pub.b" s = Some false ∧ live "pub.a" s = Some true.
Proof. by vm_compute. Qed.

Definition two_publishers : list Event :=
  one_publisher ++
  [Accepted "127.0.0.1:40001"; arrives 2 (hello_bytes ClientRole.Publisher);
   arrives 2 (register_bytes "pub.b" 1)].
Definition event_bytes : list Z := frame_bytes MessageType.PublishEvent (write_observation sample_observation).

(** A publisher is not held to its own identity: a session registered as one
    publisher publishes an event in the name of another, whose boot it need not have
    registered; the event is accepted, journalled and accounted under that name. *)
Theorem publisher_speaks_for_another :
  let s := after (two_publishers ++ [arrives 2 event_bytes]) in
  last (answers 2 s) = Some MessageType.Ack
  ∧ (Session.publisher_id <$> Server.sessions s !! 2) = Some "pub.b"
  ∧ (Observation.source_publisher ∘ JournalEntry.observation <$> last (State.journal (Server.observatory s)))
    = Some "pub.a".
Proof. by vm_compute. Qed.

Definition node_with_trailing_byte : list Z :=
  frame_bytes MessageType.RegisterResource
    (PayloadWriter.u8 (ResourceKind.code ResourceKind.Node);;
     write_node (NodeRecord.mk "node.b" "second node" 0);; PayloadWriter.u8 0).

(** A refused frame takes effect: a REGISTER_RESOURCE frame with a trailing byte
    is answered with an error, counted as a protocol rejection and costs the
    administrator the connection, yet the resource it carries is registered. *)
Theorem refused_resource_is_registered :
  let s := after [Accepted "127.0.0.1:40000"; arrives 1 (hello_bytes ClientRole.Admin);
                  arrives 1 node_with_trailing_byte] in
  last (answers 1 s) = Some MessageType.Error ∧ Server.protocol_rejections s = 1
  ∧ Server.sessions s = ∅ ∧ is_Some (State.nodes (Server.observatory s) !! "node.b").
Proof. vm_compute. split_and!; try done. eauto. Qed.
