(* ===== verification/StateFile.v ===== *)
(** * The durable state file

    The format of [src/persistence.cpp]: the sections of the file, how each is
    written by [save_state] and staged by the [stage_*] functions, the envelope
    and [parse_state].  A section body is written by a payload writer and read by
    a payload reader, as in [Codec]; a conversion the code does after its last
    read is attached to the read it converts, and every check stands where the
    code has it.

    The status of [PayloadWriter::text] is discarded everywhere in [save_state]
    ([unchecked]): a text over its bound is left out of the file. *)

From S2P Require Import Prelude Errors TextUtil Ids Taxonomy Float64 Cost Records Aggregate Sequence State.
From S2P Require Import Attribution Codec Protocol Wire WireSnapshot.

Definition kStateMagic : list Z := string_bytes "COBSST01".
Definition kStateTrailerMagic : list Z := string_bytes "COBSEND1".
Definition state_magic : string := "COBSST01".

Module SectionType.
Inductive t :=
  | Meta | Nodes | Processors | Accelerators | MemoryDomains | CoherenceDomains | Regions
  | Topology | PublisherWatermarks | Capabilities | CostModel | HistoricalAggregates | History.

Definition all : list t :=
  [Meta; Nodes; Processors; Accelerators; MemoryDomains; CoherenceDomains; Regions; Topology;
   PublisherWatermarks; Capabilities; CostModel; HistoricalAggregates; History].

Definition code (t : t) : Z :=
  match t with
  | Meta => 1 | Nodes => 2 | Processors => 3 | Accelerators => 4 | MemoryDomains => 5
  | CoherenceDomains => 6 | Regions => 7 | Topology => 8 | PublisherWatermarks => 9
  | Capabilities => 10 | CostModel => 11 | HistoricalAggregates => 12 | History => 13
  end.

(** The [switch] on the raw type; [None] is its [default] case. *)
Definition of_code (raw : Z) : option t := if raw <=? 0 then None else all !! Z.to_nat (raw - 1).
End SectionType.

Definition build_section (type : SectionType.t) (body : list Z) : list Z :=
  put_u32 (SectionType.code type) ++ put_u32 0 ++ put_u64 (zlen body + 4)
    ++ body ++ put_u32 (crc32 body).

(** ** Options *)

Module PersistenceOptions.
Record t := mk {
  max_bytes : Z; include_history : bool; atomic_replace : bool; max_history_records : Z;
}.
Definition default : t := mk Limits.kMaxPersistenceBytes true true Limits.kMaxHistoryRecords.
End PersistenceOptions.

(** ** Staging storage *)

Module StagedState.
Record t := mk {
  has_meta : bool; observer_id : string; node_id : string; display_name : string;
  topology_generation : Z; evidence_generation : Z; time_bucket_ns : Z;
  source_coordinator_epoch : Z; source_observation_epoch : Z;
  nodes : gmap string NodeRecord.t;
  processors : gmap string ProcessorRecord.t;
  accelerators : gmap string AcceleratorRecord.t;
  memory_domains : gmap string MemoryDomainRecord.t;
  coherence_domains : gmap string CoherenceDomainRecord.t;
  regions : gmap string RegionRecord.t;
  links : list TopologyLink.t;
  watermarks : gmap string PublisherWatermark.t;
  capabilities : gmap string Capability.t;
  cost_model : CostModel.t; has_cost_model : bool;
  historical_aggregates : gmap AggregateKey.t AggregateValue.t;
  history : list HistoricalEvidence.t;
  seen_sections : list Z; record_count : Z;
}.
#[global] Instance eta : Eta t := λ s,
  mk (has_meta s) (observer_id s) (node_id s) (display_name s) (topology_generation s)
    (evidence_generation s) (time_bucket_ns s) (source_coordinator_epoch s)
    (source_observation_epoch s) (nodes s) (processors s) (accelerators s) (memory_domains s)
    (coherence_domains s) (regions s) (links s) (watermarks s) (capabilities s) (cost_model s)
    (has_cost_model s) (historical_aggregates s) (history s) (seen_sections s) (record_count s).
Definition empty : t :=
  mk false "" "" "" 0 0 1000000000 0 0 ∅ ∅ ∅ ∅ ∅ ∅ [] ∅ ∅ unset_cost_model false ∅ [] [] 0.
End StagedState.

(** ** Pieces of the readers *)

(** [return fail(ErrorCode::CorruptState, ...)] when [b]. *)
Definition corrupt_if (b : bool) (message : string) : action PayloadReader.t unit :=
  lift (reject_if b ErrorCode.CorruptState message).
Definition corrupt_if_ctx (b : bool) (message context : string) : action PayloadReader.t unit :=
  lift (reject_if_ctx b ErrorCode.CorruptState message context).

(** [XId::parse(id)], any failure of which is reported as corruption. *)
Definition corrupt_identity (message id : string) : action PayloadReader.t unit :=
  corrupt_if_ctx (negb (is_ok (parse_name id))) message id.

(** The loop of a section: [n] records, each refused when its key was read before. *)
Fixpoint read_entries {K V R} `{Countable K} (n : nat) (read : action PayloadReader.t R)
    (key : R → K) (value : R → V) (duplicate : string) (shown : K → string) (m : gmap K V)
    : action PayloadReader.t (gmap K V) :=
  match n with
  | O => mret m
  | S n =>
      record ← read;
      corrupt_if_ctx (bool_decide (is_Some (m !! key record))) duplicate (shown (key record));;
      read_entries n read key value duplicate shown (<[key record := value record]> m)
  end.

(** A counted table of records. *)
Definition read_table {K V R} `{Countable K} (bound : Z) (too_many : string)
    (read : action PayloadReader.t R) (key : R → K) (value : R → V) (duplicate : string)
    (shown : K → string) (staged : gmap K V) : action PayloadReader.t (gmap K V) :=
  count ← PayloadReader.u64;
  corrupt_if (bound <? count) too_many;;
  read_entries (Z.to_nat count) read key value duplicate shown staged.

(** ** Writing a table *)

(** [writer.u64(map.size())] and the loop over the map. *)
Definition save_table {K R} `{Countable K} `{KeyOrder K} (w : R → action PayloadWriter.t unit)
    (m : gmap K R) : action PayloadWriter.t unit :=
  PayloadWriter.u64 (zsize m);; write_all (λ e : K * R, w e.2) (entries m).

Definition save_name (s : string) : action PayloadWriter.t unit :=
  unchecked (PayloadWriter.text s Limits.kMaxNameLength).
Definition save_annotation (s : string) : action PayloadWriter.t unit :=
  unchecked (PayloadWriter.text s Limits.kMaxRegionAnnotationLength).
Definition read_name : action PayloadReader.t string := PayloadReader.text Limits.kMaxNameLength.
Definition read_annotation : action PayloadReader.t string :=
  PayloadReader.text Limits.kMaxRegionAnnotationLength.

(** ** Meta *)

Definition save_meta (s : State.t) : action PayloadWriter.t unit :=
  PayloadWriter.u32 1;;
  save_name (ObservatoryOptions.observer_id (State.options s));;
  save_name (ObservatoryOptions.node_id (State.options s));;
  save_annotation (ObservatoryOptions.display_name (State.options s));;
  PayloadWriter.u64 (State.topology_generation s);;
  PayloadWriter.u64 (State.evidence_generation s);;
  write_nanos (ObservatoryOptions.time_bucket_ns (State.options s));;
  PayloadWriter.u64 (State.coordinator_epoch s);;
  PayloadWriter.u64 (State.observation_epoch s).

(** An identity that may be absent: [if (!id.empty()) { current = parse(id) }]. *)
Definition optional_identity (current id : string) : action PayloadReader.t string :=
  if sempty id then mret current else lift (parse_name id).

Definition stage_meta (staged : StagedState.t) : action PayloadReader.t StagedState.t :=
  schema_version ← PayloadReader.u32;
  lift (reject_if_ctx (negb (schema_version =? 1)) ErrorCode.UnsupportedStateVersion
          "unsupported state schema version" (format_u64 schema_version));;
  observer ← read_name;
  node ← read_name;
  display ← read_annotation;
  topology ← PayloadReader.u64;
  evidence ← PayloadReader.u64;
  bucket ← PayloadReader.u64;
  coordinator ← PayloadReader.u64;
  observation ← PayloadReader.u64;
  observer_id ← optional_identity (StagedState.observer_id staged) observer;
  node_id ← optional_identity (StagedState.node_id staged) node;
  corrupt_if (Limits.kMaxTimestampNs <? bucket) "time bucket width out of range";;
  PayloadReader.require_exhausted;;
  mret (staged <| StagedState.observer_id := observer_id |>
               <| StagedState.node_id := node_id |>
               <| StagedState.display_name := display |>
               <| StagedState.topology_generation := topology |>
               <| StagedState.evidence_generation := evidence |>
               <| StagedState.time_bucket_ns := bucket |>
               <| StagedState.source_coordinator_epoch := coordinator |>
               <| StagedState.source_observation_epoch := observation |>
               <| StagedState.has_meta := true |>).

(** ** Nodes *)

Definition save_node (record : NodeRecord.t) : action PayloadWriter.t unit :=
  save_name (NodeRecord.id record);;
  save_annotation (NodeRecord.display_name record);;
  write_nanos (NodeRecord.registered_at_ns record).

Definition load_node : action PayloadReader.t NodeRecord.t :=
  id ← read_name;
  display_name ← read_annotation;
  registered ← read_nanos;
  corrupt_identity "invalid node identity" id;;
  mret (NodeRecord.mk id display_name registered).

Definition stage_nodes (staged : StagedState.t) : action PayloadReader.t StagedState.t :=
  nodes ← read_table Limits.kMaxNodeCount "node count exceeds the bound" load_node
            NodeRecord.id id "duplicate node identity" id (StagedState.nodes staged);
  PayloadReader.require_exhausted;;
  mret (staged <| StagedState.nodes := nodes |>).

(** ** Processors *)

Definition save_processor (record : ProcessorRecord.t) : action PayloadWriter.t unit :=
  save_name (ProcessorRecord.id record);;
  save_name (ProcessorRecord.node record);;
  save_name (ProcessorRecord.local_memory_domain record);;
  PayloadWriter.u64 (ProcessorRecord.generation record);;
  PayloadWriter.u32 (ProcessorRecord.logical_processor_count record);;
  PayloadWriter.u32 (ProcessorRecord.physical_core_count record);;
  PayloadWriter.u32 (ProcessorRecord.numa_node_index record);;
  PayloadWriter.u8_bool (ProcessorRecord.numa_node_index_known record);;
  PayloadWriter.u8_bool (ProcessorRecord.retired record);;
  write_nanos (ProcessorRecord.registered_at_ns record).

Definition load_processor : action PayloadReader.t ProcessorRecord.t :=
  id ← read_name;
  node ← read_name;
  local_domain ← read_name;
  generation ← PayloadReader.u64;
  logical ← PayloadReader.u32;
  physical ← PayloadReader.u32;
  numa ← PayloadReader.u32;
  numa_known ← read_bool;
  retired ← read_bool;
  registered ← read_nanos;
  corrupt_identity "invalid processor identity" id;;
  corrupt_if_ctx (generation =? 0) "processor generation must be non-zero" id;;
  mret (ProcessorRecord.mk id node generation logical physical numa numa_known local_domain
          retired registered).

Definition stage_processors (staged : StagedState.t) : action PayloadReader.t StagedState.t :=
  processors ← read_table Limits.kMaxProcessorCount "processor count exceeds the bound"
                 load_processor ProcessorRecord.id id "duplicate processor identity" id (StagedState.processors staged);
  PayloadReader.require_exhausted;;
  mret (staged <| StagedState.processors := processors |>).

(** ** Accelerators *)

Definition save_accelerator (record : AcceleratorRecord.t) : action PayloadWriter.t unit :=
  save_name (AcceleratorRecord.id record);;
  save_name (AcceleratorRecord.node record);;
  save_name (AcceleratorRecord.vendor record);;
  save_annotation (AcceleratorRecord.vendor_uuid record);;
  save_name (AcceleratorRecord.local_memory_domain record);;
  PayloadWriter.u64 (AcceleratorRecord.generation record);;
  PayloadWriter.u8_bool (AcceleratorRecord.peer_coherent_capable record);;
  PayloadWriter.u8_bool (AcceleratorRecord.peer_coherent_capability_known record);;
  PayloadWriter.u8_bool (AcceleratorRecord.retired record);;
  write_nanos (AcceleratorRecord.registered_at_ns record).

Definition load_accelerator : action PayloadReader.t AcceleratorRecord.t :=
  id ← read_name;
  node ← read_name;
  vendor ← read_name;
  vendor_uuid ← read_annotation;
  local_domain ← read_name;
  generation ← PayloadReader.u64;
  peer_capable ← read_bool;
  peer_known ← read_bool;
  retired ← read_bool;
  registered ← read_nanos;
  corrupt_identity "invalid accelerator identity" id;;
  corrupt_if_ctx (generation =? 0) "accelerator generation must be non-zero" id;;
  mret (AcceleratorRecord.mk id node generation vendor vendor_uuid local_domain peer_capable
          peer_known retired registered).

Definition stage_accelerators (staged : StagedState.t) : action PayloadReader.t StagedState.t :=
  accelerators ← read_table Limits.kMaxAcceleratorCount "accelerator count exceeds the bound"
                   load_accelerator AcceleratorRecord.id id "duplicate accelerator identity" id (StagedState.accelerators staged);
  PayloadReader.require_exhausted;;
  mret (staged <| StagedState.accelerators := accelerators |>).

(** ** Memory domains *)

Definition save_memory_domain (record : MemoryDomainRecord.t) : action PayloadWriter.t unit :=
  save_name (MemoryDomainRecord.id record);;
  save_name (MemoryDomainRecord.node record);;
  save_name (MemoryDomainRecord.coherence_domain record);;
  PayloadWriter.u64 (MemoryDomainRecord.generation record);;
  PayloadWriter.u8 (MemoryDomainKind.code (MemoryDomainRecord.kind record));;
  PayloadWriter.u8_bool (MemoryDomainRecord.coherent_with_host record);;
  PayloadWriter.u8_bool (MemoryDomainRecord.coherent_with_host_known record);;
  PayloadWriter.u8_bool (MemoryDomainRecord.capacity_known record);;
  PayloadWriter.u8_bool (MemoryDomainRecord.retired record);;
  PayloadWriter.u64 (MemoryDomainRecord.capacity_bytes record);;
  write_nanos (MemoryDomainRecord.registered_at_ns record).

Definition load_memory_domain : action PayloadReader.t MemoryDomainRecord.t :=
  id ← read_name;
  node ← read_name;
  coherence ← read_name;
  generation ← PayloadReader.u64;
  kind ← PayloadReader.u8;
  coherent ← read_bool;
  coherent_known ← read_bool;
  capacity_known ← read_bool;
  retired ← read_bool;
  capacity ← PayloadReader.u64;
  registered ← read_nanos;
  corrupt_if_ctx (6 <? kind) "memory domain kind out of range" id;;
  corrupt_identity "invalid memory domain identity" id;;
  corrupt_if_ctx (generation =? 0) "memory domain generation must be non-zero" id;;
  mret (MemoryDomainRecord.mk id generation node (MemoryDomainKind.of_code kind) coherence
          coherent coherent_known capacity capacity_known retired registered).

Definition stage_memory_domains (staged : StagedState.t) : action PayloadReader.t StagedState.t :=
  memory_domains ← read_table Limits.kMaxMemoryDomainCount "memory domain count exceeds the bound"
                     load_memory_domain MemoryDomainRecord.id id "duplicate memory domain identity" id (StagedState.memory_domains staged);
  PayloadReader.require_exhausted;;
  mret (staged <| StagedState.memory_domains := memory_domains |>).

(** ** Coherence domains *)

Definition save_member (member : ResourceRef.t) : action PayloadWriter.t unit :=
  PayloadWriter.u8 (ResourceKind.code (ResourceRef.kind member));;
  save_name (ResourceRef.id member);;
  PayloadWriter.u64 (ResourceRef.generation member).

Definition save_coherence_domain (record : CoherenceDomainRecord.t) : action PayloadWriter.t unit :=
  save_name (CoherenceDomainRecord.id record);;
  save_annotation (CoherenceDomainRecord.protocol_family record);;
  PayloadWriter.u64 (CoherenceDomainRecord.generation record);;
  PayloadWriter.u8_bool (CoherenceDomainRecord.retired record);;
  PayloadWriter.u64 (zlen (CoherenceDomainRecord.members record));;
  write_all save_member (CoherenceDomainRecord.members record);;
  write_nanos (CoherenceDomainRecord.registered_at_ns record).

Definition load_member (domain : string) : action PayloadReader.t ResourceRef.t :=
  kind ← PayloadReader.u8;
  id ← read_name;
  generation ← PayloadReader.u64;
  corrupt_if_ctx (5 <? kind) "coherence domain member kind out of range" domain;;
  mret (ResourceRef.mk (ResourceKind.of_code kind) id generation).

Definition load_coherence_domain : action PayloadReader.t CoherenceDomainRecord.t :=
  id ← read_name;
  protocol_family ← read_annotation;
  generation ← PayloadReader.u64;
  retired ← read_bool;
  member_count ← PayloadReader.u64;
  corrupt_if_ctx (Limits.kMaxTopologyLinkCount <? member_count)
    "coherence domain member count exceeds the bound" id;;
  members ← read_n (Z.to_nat member_count) (load_member id);
  registered ← read_nanos;
  corrupt_identity "invalid coherence domain identity" id;;
  corrupt_if_ctx (generation =? 0) "coherence domain generation must be non-zero" id;;
  mret (CoherenceDomainRecord.mk id generation protocol_family members retired registered).

Definition stage_coherence_domains (staged : StagedState.t) : action PayloadReader.t StagedState.t :=
  coherence_domains ← read_table Limits.kMaxCoherenceDomainCount
    "coherence domain count exceeds the bound" load_coherence_domain CoherenceDomainRecord.id id
    "duplicate coherence domain identity" id (StagedState.coherence_domains staged);
  PayloadReader.require_exhausted;;
  mret (staged <| StagedState.coherence_domains := coherence_domains |>).

(** ** Regions *)

Definition save_region (record : RegionRecord.t) : action PayloadWriter.t unit :=
  save_name (RegionRecord.id record);;
  save_annotation (RegionRecord.owner record);;
  save_annotation (RegionRecord.annotation record);;
  save_name (RegionRecord.memory_domain record);;
  save_name (RegionRecord.coherence_domain record);;
  save_name (RegionRecord.workload record);;
  PayloadWriter.u64 (RegionRecord.generation record);;
  PayloadWriter.u64 (RegionRecord.memory_domain_generation record);;
  PayloadWriter.u64 (RegionRecord.opaque_handle record);;
  PayloadWriter.u64 (RegionRecord.size_bytes record);;
  PayloadWriter.u64 (RegionRecord.page_size_bytes record);;
  PayloadWriter.u64 (RegionRecord.allocation_generation record);;
  PayloadWriter.u64 (RegionRecord.mapping_generation record);;
  PayloadWriter.u8 (SharingScope.code (RegionRecord.sharing_scope record));;
  PayloadWriter.u8_bool (RegionRecord.size_known record);;
  PayloadWriter.u8_bool (RegionRecord.page_size_known record);;
  PayloadWriter.u8_bool (RegionRecord.retired record);;
  write_nanos (RegionRecord.registered_at_ns record);;
  write_nanos (RegionRecord.retired_at_ns record).

Definition load_region : action PayloadReader.t RegionRecord.t :=
  id ← read_name;
  owner ← read_annotation;
  annotation ← read_annotation;
  domain ← read_name;
  coherence ← read_name;
  workload ← read_name;
  generation ← PayloadReader.u64;
  domain_generation ← PayloadReader.u64;
  handle ← PayloadReader.u64;
  size ← PayloadReader.u64;
  page_size ← PayloadReader.u64;
  allocation_generation ← PayloadReader.u64;
  mapping_generation ← PayloadReader.u64;
  scope ← PayloadReader.u8;
  size_known ← read_bool;
  page_known ← read_bool;
  retired ← read_bool;
  registered ← read_nanos;
  retired_at ← read_nanos;
  corrupt_if_ctx (5 <? scope) "region sharing scope out of range" id;;
  corrupt_identity "invalid region identity" id;;
  corrupt_if_ctx (generation =? 0) "region generation must be non-zero" id;;
  mret {|
    RegionRecord.id := id; RegionRecord.generation := generation;
    RegionRecord.opaque_handle := handle; RegionRecord.owner := owner;
    RegionRecord.memory_domain := domain;
    RegionRecord.memory_domain_generation := domain_generation;
    RegionRecord.coherence_domain := coherence;
    RegionRecord.sharing_scope := SharingScope.of_code scope;
    RegionRecord.size_bytes := size; RegionRecord.size_known := size_known;
    RegionRecord.page_size_bytes := page_size; RegionRecord.page_size_known := page_known;
    RegionRecord.allocation_generation := allocation_generation;
    RegionRecord.mapping_generation := mapping_generation;
    RegionRecord.workload := workload; RegionRecord.annotation := annotation;
    RegionRecord.retired := retired; RegionRecord.registered_at_ns := registered;
    RegionRecord.retired_at_ns := retired_at; RegionRecord.loaded_from_state := true |}.

Definition stage_regions (staged : StagedState.t) : action PayloadReader.t StagedState.t :=
  regions ← read_table Limits.kMaxRegionCount "region count exceeds the bound" load_region
              RegionRecord.id id "duplicate region identity" id (StagedState.regions staged);
  PayloadReader.require_exhausted;;
  mret (staged <| StagedState.regions := regions |>).

(** [entry.second.loaded_from_state = true]. *)
Definition mark_loaded (r : RegionRecord.t) : RegionRecord.t :=
  r <| RegionRecord.loaded_from_state := true |>.

(** ** Topology *)

Definition save_link (link : TopologyLink.t) : action PayloadWriter.t unit :=
  PayloadWriter.u8 (ResourceKind.code (ResourceRef.kind (TopologyLink.from link)));;
  save_name (ResourceRef.id (TopologyLink.from link));;
  PayloadWriter.u64 (ResourceRef.generation (TopologyLink.from link));;
  PayloadWriter.u8 (ResourceKind.code (ResourceRef.kind (TopologyLink.to link)));;
  save_name (ResourceRef.id (TopologyLink.to link));;
  PayloadWriter.u64 (ResourceRef.generation (TopologyLink.to link));;
  PayloadWriter.u8 (Locality.code (TopologyLink.locality link));;
  PayloadWriter.u8 (Provenance.code (TopologyLink.provenance link));;
  PayloadWriter.i64 (TopologyLink.latency_ns link);;
  PayloadWriter.u64 (TopologyLink.bandwidth_bytes_per_second link).

Definition save_topology (s : State.t) : action PayloadWriter.t unit :=
  PayloadWriter.u64 (State.topology_generation s);;
  PayloadWriter.u64 (zlen (TopologyRecord.links (State.topology s)));;
  write_all save_link (TopologyRecord.links (State.topology s)).

Definition load_link : action PayloadReader.t TopologyLink.t :=
  from_kind ← PayloadReader.u8;
  from_id ← read_name;
  from_generation ← PayloadReader.u64;
  to_kind ← PayloadReader.u8;
  to_id ← read_name;
  to_generation ← PayloadReader.u64;
  locality ← PayloadReader.u8;
  provenance ← PayloadReader.u8;
  latency ← PayloadReader.i64;
  bandwidth ← PayloadReader.u64;
  corrupt_if ((5 <? from_kind) || (5 <? to_kind)) "topology link resource kind out of range";;
  corrupt_if (kLocalityCount <=? locality) "topology link locality out of range";;
  corrupt_if (9 <? provenance) "topology link provenance out of range";;
  mret {|
    TopologyLink.from := ResourceRef.mk (ResourceKind.of_code from_kind) from_id from_generation;
    TopologyLink.to := ResourceRef.mk (ResourceKind.of_code to_kind) to_id to_generation;
    TopologyLink.locality := Locality.of_code locality;
    TopologyLink.latency_ns := latency;
    TopologyLink.bandwidth_bytes_per_second := bandwidth;
    TopologyLink.provenance := Provenance.of_code provenance |}.

Definition stage_topology (staged : StagedState.t) : action PayloadReader.t StagedState.t :=
  generation ← PayloadReader.u64;
  count ← PayloadReader.u64;
  corrupt_if (Limits.kMaxTopologyLinkCount <? count) "topology link count exceeds the bound";;
  links ← read_n (Z.to_nat count) load_link;
  PayloadReader.require_exhausted;;
  mret (staged <| StagedState.links ::= λ l, l ++ links |>
               <| StagedState.topology_generation := generation |>).

(** ** Publisher watermarks *)

(** [static_cast] between [FenceReason] and the byte of the file, whose range is
    checked before the cast. *)
Definition fence_reasons : list FenceReason.t :=
  [FenceReason.NotFenced; FenceReason.ConnectionClosed; FenceReason.Administrative;
   FenceReason.LivenessDeadline; FenceReason.CoordinatorRestart; FenceReason.SupersededByNewBoot].
Definition fence_reason_code (r : FenceReason.t) : Z :=
  match r with
  | FenceReason.NotFenced => 0 | FenceReason.ConnectionClosed => 1
  | FenceReason.Administrative => 2 | FenceReason.LivenessDeadline => 3
  | FenceReason.CoordinatorRestart => 4 | FenceReason.SupersededByNewBoot => 5
  end.
Definition fence_reason_of_code (raw : Z) : FenceReason.t :=
  default FenceReason.NotFenced (fence_reasons !! Z.to_nat raw).

Definition save_watermark (w : PublisherWatermark.t) : action PayloadWriter.t unit :=
  save_name (PublisherWatermark.publisher w);;
  PayloadWriter.u64 (PublisherWatermark.boot w);;
  PayloadWriter.u64 (PublisherWatermark.high_watermark w);;
  PayloadWriter.u8_bool (PublisherWatermark.has_watermark w);;
  PayloadWriter.u8_bool (PublisherWatermark.fenced w);;
  PayloadWriter.u8 (fence_reason_code (PublisherWatermark.fence_reason w));;
  PayloadWriter.u64 (PublisherWatermark.boot_incarnations w);;
  write_nanos (PublisherWatermark.last_seen_ns w).

(** The watermark that stands for a live publisher. *)
Definition live_watermark (p : PublisherState.t) : PublisherWatermark.t := {|
  PublisherWatermark.publisher := PublisherView.id (PublisherState.view p);
  PublisherWatermark.boot := PublisherView.boot (PublisherState.view p);
  PublisherWatermark.high_watermark := PublisherState.high_watermark p;
  PublisherWatermark.has_watermark := PublisherState.has_watermark p;
  PublisherWatermark.fence_reason := PublisherView.fence_reason (PublisherState.view p);
  PublisherWatermark.fenced := PublisherView.fenced (PublisherState.view p);
  PublisherWatermark.boot_incarnations := PublisherState.boot_incarnations p;
  PublisherWatermark.last_seen_ns := PublisherView.last_seen_ns (PublisherState.view p) |}.

Definition publisher_key (p : PublisherState.t) : string :=
  boot_key (PublisherView.id (PublisherState.view p)) (PublisherView.boot (PublisherState.view p)).

(** One round of the loop over [state.publishers]: an existing entry is kept. *)
Definition add_live_watermark (ws : gmap string PublisherWatermark.t)
    (e : string * PublisherState.t) : gmap string PublisherWatermark.t :=
  let key := publisher_key e.2 in
  match ws !! key with
  | Some _ => ws
  | None => <[key := live_watermark e.2]> ws
  end.
Definition saved_watermarks (s : State.t) : gmap string PublisherWatermark.t :=
  foldl add_live_watermark (State.watermarks s) (entries (State.publishers s)).

Definition watermark_key (w : PublisherWatermark.t) : string :=
  boot_key (PublisherWatermark.publisher w) (PublisherWatermark.boot w).

Definition load_watermark : action PayloadReader.t PublisherWatermark.t :=
  publisher ← read_name;
  boot ← PayloadReader.u64;
  high ← PayloadReader.u64;
  has ← read_bool;
  fenced ← read_bool;
  fence_reason ← PayloadReader.u8;
  incarnations ← PayloadReader.u64;
  last_seen ← read_nanos;
  corrupt_if (5 <? fence_reason) "publisher watermark fence reason out of range";;
  corrupt_identity "invalid publisher identity" publisher;;
  corrupt_if_ctx (boot =? 0) "publisher watermark boot must be non-zero" publisher;;
  mret (PublisherWatermark.mk publisher boot high has (fence_reason_of_code fence_reason) fenced
          incarnations last_seen).

Definition stage_watermarks (staged : StagedState.t) : action PayloadReader.t StagedState.t :=
  watermarks ← read_table Limits.kMaxPublisherWatermarks
    "publisher watermark count exceeds the bound" load_watermark watermark_key id
    "duplicate publisher watermark" id (StagedState.watermarks staged);
  PayloadReader.require_exhausted;;
  mret (staged <| StagedState.watermarks := watermarks |>).

(** ** Capabilities *)

Definition save_capability (c : Capability.t) : action PayloadWriter.t unit :=
  save_name (Capability.key c);;
  PayloadWriter.u8 (CapabilityStatus.code (Capability.status c));;
  unchecked (PayloadWriter.text (Capability.detail c) 512);;
  unchecked (PayloadWriter.text (Capability.mechanism c) 128).

Definition load_capability : action PayloadReader.t Capability.t :=
  key ← read_name;
  status ← PayloadReader.u8;
  detail ← PayloadReader.text 512;
  mechanism ← PayloadReader.text 128;
  corrupt_if_ctx (2 <? status) "capability status out of range" key;;
  corrupt_if (sempty key) "capability key must not be empty";;
  mret (Capability.mk key (CapabilityStatus.of_code status) detail mechanism).

Definition stage_capabilities (staged : StagedState.t) : action PayloadReader.t StagedState.t :=
  capabilities ← read_table 256 "capability count exceeds the bound" load_capability
    Capability.key id "duplicate capability key" id (StagedState.capabilities staged);
  PayloadReader.require_exhausted;;
  mret (staged <| StagedState.capabilities := capabilities |>).

(** ** Cost model *)

Definition save_cost_model (m : CostModel.t) : action PayloadWriter.t unit :=
  unchecked (PayloadWriter.text (CostModel.id m) 96);;
  PayloadWriter.u32 (CostModel.version m);;
  PayloadWriter.f64 (CostModel.remote_read_latency_ns m);;
  PayloadWriter.f64 (CostModel.remote_write_latency_ns m);;
  PayloadWriter.f64 (CostModel.invalidation_latency_ns m);;
  PayloadWriter.f64 (CostModel.ownership_transfer_latency_ns m);;
  PayloadWriter.f64 (CostModel.retry_latency_ns m);;
  PayloadWriter.f64 (CostModel.conflict_stall_ns m);;
  PayloadWriter.f64 (CostModel.bandwidth_bytes_per_ns m);;
  PayloadWriter.f64 (CostModel.cxl_multiplier m);;
  PayloadWriter.f64 (CostModel.pooled_multiplier m);;
  PayloadWriter.f64 (CostModel.remote_node_multiplier m).

Definition load_cost_model : action PayloadReader.t CostModel.t :=
  id ← PayloadReader.text 96;
  version ← PayloadReader.u32;
  remote_read ← PayloadReader.f64;
  remote_write ← PayloadReader.f64;
  invalidation ← PayloadReader.f64;
  ownership_transfer ← PayloadReader.f64;
  retry ← PayloadReader.f64;
  conflict_stall ← PayloadReader.f64;
  bandwidth ← PayloadReader.f64;
  cxl ← PayloadReader.f64;
  pooled ← PayloadReader.f64;
  remote_node ← PayloadReader.f64;
  let model := CostModel.mk id version true remote_read remote_write invalidation
                 ownership_transfer retry conflict_stall bandwidth cxl pooled remote_node in
  match validate_cost_model model with
  | Ok _ => mret model
  | Err e => lift (fail_ctx ErrorCode.CorruptState "cost model in state file is invalid"
                     (Error.describe e))
  end.

Definition stage_cost_model (staged : StagedState.t) : action PayloadReader.t StagedState.t :=
  model ← load_cost_model;
  PayloadReader.require_exhausted;;
  mret (staged <| StagedState.cost_model := model |> <| StagedState.has_cost_model := true |>).

(** ** Historical aggregates *)

Definition save_bucket (e : AggregateKey.t * AggregateValue.t) : action PayloadWriter.t unit :=
  PayloadWriter.u8 (AggregateDimension.code (AggregateKey.dimension e.1));;
  save_annotation (AggregateKey.value e.1);;
  PayloadWriter.u64 (AggregateValue.observations e.2);;
  PayloadWriter.u64 (AggregateValue.bytes e.2);;
  PayloadWriter.u64 (AggregateValue.invalidations e.2);;
  PayloadWriter.u64 (AggregateValue.ownership_transfers e.2);;
  PayloadWriter.u8 (Precision.code (AggregateValue.weakest_precision e.2));;
  PayloadWriter.u8_bool (AggregateValue.synthetic_contribution e.2).

(** The buckets the loop writes before [written >= max_history_records] ends it. *)
Definition saved_buckets (options : PersistenceOptions.t) (s : State.t)
    : list (AggregateKey.t * AggregateValue.t) :=
  take (Z.to_nat (PersistenceOptions.max_history_records options))
    (entries (AggregateStore.buckets (State.historical_aggregates s))).
Definition saved_history (options : PersistenceOptions.t) (s : State.t)
    : list HistoricalEvidence.t :=
  take (Z.to_nat (PersistenceOptions.max_history_records options)) (State.history s).

(** A count and the records behind it. *)
Definition save_counted {A} (w : A → action PayloadWriter.t unit) (l : list A)
    : action PayloadWriter.t unit :=
  PayloadWriter.u64 (zlen l);; write_all w l.

Definition load_bucket : action PayloadReader.t (AggregateKey.t * AggregateValue.t) :=
  dimension ← PayloadReader.u8;
  corrupt_if (kAggregateDimensionCount <=? dimension)
    "historical aggregate dimension out of range";;
  value ← read_annotation;
  observations ← PayloadReader.u64;
  bytes ← PayloadReader.u64;
  invalidations ← PayloadReader.u64;
  ownership_transfers ← PayloadReader.u64;
  precision ← PayloadReader.u8;
  corrupt_if (6 <? precision) "historical aggregate precision out of range";;
  synthetic ← read_bool;
  mret (AggregateKey.mk (default AggregateDimension.kCount (AggregateDimension.of_code dimension))
          value,
        AggregateValue.empty
          <| AggregateValue.observations := observations |>
          <| AggregateValue.bytes := bytes |>
          <| AggregateValue.invalidations := invalidations |>
          <| AggregateValue.ownership_transfers := ownership_transfers |>
          <| AggregateValue.weakest_precision := Precision.of_code precision |>
          <| AggregateValue.has_observations := negb (observations =? 0) |>
          <| AggregateValue.synthetic_contribution := synthetic |>).

Definition stage_historical_aggregates (staged : StagedState.t)
    : action PayloadReader.t StagedState.t :=
  count ← PayloadReader.u64;
  corrupt_if (Limits.kMaxHistoryAggregates <? count)
    "historical aggregate count exceeds the bound";;
  buckets ← read_entries (Z.to_nat count) load_bucket fst snd
              "duplicate historical aggregate key" AggregateKey.value
              (StagedState.historical_aggregates staged);
  PayloadReader.require_exhausted;;
  mret (staged <| StagedState.historical_aggregates := buckets |>
               <| StagedState.record_count ::= λ n, u64_add n count |>).

(** ** History *)

Definition save_history_record (r : HistoricalEvidence.t) : action PayloadWriter.t unit :=
  save_name (HistoricalEvidence.region r);;
  PayloadWriter.u8 (EventType.code (HistoricalEvidence.event_type r));;
  PayloadWriter.u8 (Precision.code (HistoricalEvidence.precision r));;
  PayloadWriter.u8 (Provenance.code (HistoricalEvidence.provenance r));;
  PayloadWriter.u64 (HistoricalEvidence.observations r);;
  PayloadWriter.u64 (HistoricalEvidence.bytes r);;
  write_nanos (HistoricalEvidence.last_timestamp_ns r);;
  PayloadWriter.u64 (HistoricalEvidence.source_coordinator_epoch r).

Definition load_history_record : action PayloadReader.t HistoricalEvidence.t :=
  region ← read_name;
  type ← PayloadReader.u8;
  precision ← PayloadReader.u8;
  provenance ← PayloadReader.u8;
  observations ← PayloadReader.u64;
  bytes ← PayloadReader.u64;
  last ← read_nanos;
  source_coordinator_epoch ← PayloadReader.u64;
  corrupt_if (kEventTypeCount <=? type) "history event type out of range";;
  corrupt_if ((6 <? precision) || (9 <? provenance)) "history classification out of range";;
  mret (HistoricalEvidence.mk region (EventType.of_code type) observations bytes last
          (Precision.of_code precision) (Provenance.of_code provenance) source_coordinator_epoch).

Definition stage_history (options : PersistenceOptions.t) (staged : StagedState.t)
    : action PayloadReader.t StagedState.t :=
  count ← PayloadReader.u64;
  corrupt_if (PersistenceOptions.max_history_records options <? count)
    "history record count exceeds the configured bound";;
  records ← read_n (Z.to_nat count) load_history_record;
  PayloadReader.require_exhausted;;
  mret (staged <| StagedState.history ::= λ l, l ++ records |>
               <| StagedState.record_count ::= λ n, u64_add n count |>).

(** ** Parsing a file *)

(** The [switch] of [parse_state]. *)
Definition stage_section (options : PersistenceOptions.t) (type : SectionType.t)
    (staged : StagedState.t) : action PayloadReader.t StagedState.t :=
  match type with
  | SectionType.Meta => stage_meta staged
  | SectionType.Nodes => stage_nodes staged
  | SectionType.Processors => stage_processors staged
  | SectionType.Accelerators => stage_accelerators staged
  | SectionType.MemoryDomains => stage_memory_domains staged
  | SectionType.CoherenceDomains => stage_coherence_domains staged
  | SectionType.Regions => stage_regions staged
  | SectionType.Topology => stage_topology staged
  | SectionType.PublisherWatermarks => stage_watermarks staged
  | SectionType.Capabilities => stage_capabilities staged
  | SectionType.CostModel => stage_cost_model staged
  | SectionType.HistoricalAggregates => stage_historical_aggregates staged
  | SectionType.History => stage_history options staged
  end.

Definition take_z (n : Z) (l : list Z) : list Z := take (Z.to_nat n) l.
Definition drop_z (n : Z) (l : list Z) : list Z := drop (Z.to_nat n) l.

(** One round of the section loop at [payload + offset], of which [rest] is what
    remains: the staged state and what follows the section. *)
Definition parse_section (options : PersistenceOptions.t) (rest : list Z) (staged : StagedState.t)
    : result (StagedState.t * list Z) :=
  reject_if (zlen rest <? Limits.kStateSectionHeaderSize) ErrorCode.Truncated
    "state section header is truncated";;
  let raw_type := get_u32 rest in
  let section_flags := get_u32 (drop_z 4 rest) in
  let section_length := get_u64 (drop_z 8 rest) in
  reject_if (negb (section_flags =? 0)) ErrorCode.CorruptState "unknown state section flags";;
  reject_if (section_length <? 4) ErrorCode.CorruptState "state section length is too small";;
  reject_if (zlen rest - Limits.kStateSectionHeaderSize <? section_length) ErrorCode.Truncated
    "state section body is truncated";;
  let body_size := section_length - 4 in
  let body := take_z body_size (drop_z Limits.kStateSectionHeaderSize rest) in
  let body_crc := get_u32 (drop_z (Limits.kStateSectionHeaderSize + body_size) rest) in
  reject_if_ctx (negb (crc32 body =? body_crc)) ErrorCode.IntegrityFailure
    "state section checksum mismatch" (format_u64 raw_type);;
  reject_if_ctx (bool_decide (raw_type ∈ StagedState.seen_sections staged)) ErrorCode.CorruptState
    "duplicate state section" (format_u64 raw_type);;
  match SectionType.of_code raw_type with
  | None => fail_ctx ErrorCode.CorruptState "unknown state section type" (format_u64 raw_type)
  | Some type =>
      staged ← (stage_section options type
                  (staged <| StagedState.seen_sections ::= cons raw_type |>)
                  (PayloadReader.mk body 0)).1;
      Ok (staged, drop_z (Limits.kStateSectionHeaderSize + section_length) rest)
  end.

(** [while (offset < payload_length)]: a section takes at least twenty bytes, so
    as many rounds as there are bytes suffice ([parse_sections_rounds]). *)
Fixpoint parse_sections (rounds : nat) (options : PersistenceOptions.t) (rest : list Z)
    (staged : StagedState.t) : result StagedState.t :=
  match rounds, rest with
  | O, _ | _, [] => Ok staged
  | S rounds, _ =>
      parse_section options rest staged ≫= λ '(staged, rest), parse_sections rounds options rest staged
  end.

(** The referential checks: each loop stops at the first offending entry. *)
Definition dangling {R T} (target : R → string) (known : gmap string T) (e : string * R) : bool :=
  negb (sempty (target e.2)) && bool_decide (known !! target e.2 = None).
Definition check_references {R T} (target : R → string) (known : gmap string T) (message : string)
    (m : gmap string R) : result unit :=
  match List.find (dangling target known) (entries m) with
  | Some e => fail_ctx ErrorCode.CorruptState message e.1
  | None => Ok tt
  end.

(** [ResourceRef::empty()] *)
Definition resource_empty (r : ResourceRef.t) : bool := sempty (ResourceRef.id r).

Definition check_staged (declared_records : Z) (staged : StagedState.t) : result unit :=
  reject_if (negb (StagedState.has_meta staged)) ErrorCode.CorruptState
    "state file has no meta section";;
  reject_if_ctx (negb (declared_records =? StagedState.record_count staged)) ErrorCode.CorruptState
    "state record count does not match its payload"
    ("declared=" +:+ format_u64 declared_records +:+ " actual="
       +:+ format_u64 (StagedState.record_count staged));;
  check_references RegionRecord.memory_domain (StagedState.memory_domains staged)
    "region references an unknown memory domain" (StagedState.regions staged);;
  check_references MemoryDomainRecord.coherence_domain (StagedState.coherence_domains staged)
    "memory domain references an unknown coherence domain" (StagedState.memory_domains staged);;
  check_references ProcessorRecord.node (StagedState.nodes staged)
    "processor references an unknown node" (StagedState.processors staged);;
  reject_if (existsb (λ l, resource_empty (TopologyLink.from l) || resource_empty (TopologyLink.to l))
               (StagedState.links staged)) ErrorCode.CorruptState "topology link endpoint is empty".

(** [copy] with its checksum field zeroed. *)
Definition zero_header_crc (header : list Z) : list Z :=
  take 48 header ++ put_u32 0 ++ drop 52 header.

Definition parse_state (options : PersistenceOptions.t) (data : list Z) : result StagedState.t :=
  let size := zlen data in
  reject_if (size <? Limits.kStateHeaderSize + Limits.kStateTrailerSize) ErrorCode.EmptyState
    "state file is shorter than its fixed envelope";;
  reject_if (negb (bool_decide (take 8 data = kStateMagic))) ErrorCode.InvalidMagic
    "state file magic mismatch";;
  let version := get_u32 (drop_z 8 data) in
  reject_if_ctx (negb (version =? Limits.kStateVersion)) ErrorCode.UnsupportedStateVersion
    "unsupported state file version" (format_u64 version);;
  let flags := get_u32 (drop_z 12 data) in
  reject_if_ctx (negb (flags =? 0)) ErrorCode.CorruptState "unknown state file flags"
    (format_u64 flags);;
  let payload_length := get_u64 (drop_z 16 data) in
  let declared_coordinator := get_u64 (drop_z 24 data) in
  let declared_observation := get_u64 (drop_z 32 data) in
  let declared_records := get_u64 (drop_z 40 data) in
  let header_crc := get_u32 (drop_z 48 data) in
  reject_if (negb (crc32 (zero_header_crc (take_z Limits.kStateHeaderSize data)) =? header_crc))
    ErrorCode.IntegrityFailure "state header checksum mismatch";;
  reject_if (PersistenceOptions.max_bytes options <? payload_length) ErrorCode.TooLarge
    "state payload exceeds the accepted bound";;
  let expected := wrap64 (Limits.kStateHeaderSize + payload_length + Limits.kStateTrailerSize) in
  reject_if_ctx (size <? expected) ErrorCode.Truncated "state file is truncated"
    ("expected=" +:+ format_u64 expected +:+ " actual=" +:+ format_u64 size);;
  reject_if (expected <? size) ErrorCode.CorruptState "trailing bytes follow the state payload";;
  let payload := take_z payload_length (drop_z Limits.kStateHeaderSize data) in
  let trailer := drop_z (Limits.kStateHeaderSize + payload_length) data in
  reject_if (negb (bool_decide (take 8 trailer = kStateTrailerMagic))) ErrorCode.InvalidMagic
    "state trailer magic mismatch";;
  let payload_crc := get_u32 (drop_z 8 trailer) in
  reject_if (negb (crc32 payload =? payload_crc)) ErrorCode.IntegrityFailure
    "state payload checksum mismatch";;
  staged ← parse_sections (length payload) options payload
             (StagedState.empty
                <| StagedState.source_coordinator_epoch := declared_coordinator |>
                <| StagedState.source_observation_epoch := declared_observation |>);
  check_staged declared_records staged;;
  Ok staged.

(** ** Building a file *)

(** What a writer has collected ([writer.data()]). *)
Definition written (w : action PayloadWriter.t unit) : list Z := (w []).2.

Definition state_sections (options : PersistenceOptions.t) (s : State.t)
    : list (SectionType.t * list Z) :=
  [(SectionType.Meta, written (save_meta s));
   (SectionType.Nodes, written (save_table save_node (State.nodes s)));
   (SectionType.Processors, written (save_table save_processor (State.processors s)));
   (SectionType.Accelerators, written (save_table save_accelerator (State.accelerators s)));
   (SectionType.MemoryDomains, written (save_table save_memory_domain (State.memory_domains s)));
   (SectionType.CoherenceDomains,
      written (save_table save_coherence_domain (State.coherence_domains s)));
   (SectionType.Regions, written (save_table save_region (State.regions s)));
   (SectionType.Topology, written (save_topology s));
   (SectionType.PublisherWatermarks, written (save_table save_watermark (saved_watermarks s)));
   (SectionType.Capabilities, written (save_table save_capability (State.capabilities s)));
   (SectionType.CostModel,
      written (save_cost_model (ObservatoryOptions.cost_model (State.options s))))]
  ++ (if PersistenceOptions.include_history options then
        [(SectionType.HistoricalAggregates, written (save_counted save_bucket (saved_buckets options s)));
         (SectionType.History, written (save_counted save_history_record (saved_history options s)))]
      else []).

Definition state_payload (options : PersistenceOptions.t) (s : State.t) : list Z :=
  concat ((λ x, build_section x.1 x.2) <$> state_sections options s).

(** The number of history records and buckets written. *)
Definition saved_record_count (options : PersistenceOptions.t) (s : State.t) : Z :=
  if PersistenceOptions.include_history options
  then zlen (saved_history options s) + zlen (saved_buckets options s) else 0.

(** The header around its checksum field, which is computed over the header with
    the field zeroed. *)
Definition state_header_fields (payload_size coordinator observation records : Z) : list Z :=
  kStateMagic ++ put_u32 Limits.kStateVersion ++ put_u32 0 ++ put_u64 payload_size
    ++ put_u64 coordinator ++ put_u64 observation ++ put_u64 records.
Definition state_header (payload_size coordinator observation records : Z) : list Z :=
  let fields := state_header_fields payload_size coordinator observation records in
  let reserved := put_u32 0 ++ put_u64 0 in
  fields ++ put_u32 (crc32 (fields ++ put_u32 0 ++ reserved)) ++ reserved.

Definition state_file (options : PersistenceOptions.t) (s : State.t) : list Z :=
  let payload := state_payload options s in
  state_header (zlen payload) (State.coordinator_epoch s) (State.observation_epoch s)
    (saved_record_count options s)
    ++ payload ++ kStateTrailerMagic ++ put_u32 (crc32 payload) ++ put_u32 0.
