(* ===== verification/StateRoundTrip.v ===== *)
(** * What is saved can be staged

    The records of the state file read back what was written, table by table and
    section by section, and [parse_state] of a file built by [state_file] stages
    exactly the durable part of the state ([parse_state_file]).  [durable] says
    when a state fits the format. *)

From S2P Require Import Prelude Errors TextUtil Ids Taxonomy Float64 Cost Records Aggregate Sequence State.
From S2P Require Import Attribution Codec Protocol Transport Wire WireSnapshot StateFile.

(** ** When a record fits *)

Definition short (s : string) : Prop := slen s ≤ Limits.kMaxNameLength.
Definition annotation_fits (s : string) : Prop := slen s ≤ Limits.kMaxRegionAnnotationLength.

Definition durable_node (r : NodeRecord.t) : Prop :=
  valid_token (NodeRecord.id r) ∧ annotation_fits (NodeRecord.display_name r)
  ∧ in_i64 (NodeRecord.registered_at_ns r).

Definition durable_processor (r : ProcessorRecord.t) : Prop :=
  valid_token (ProcessorRecord.id r) ∧ short (ProcessorRecord.node r)
  ∧ short (ProcessorRecord.local_memory_domain r)
  ∧ in_uint 64 (ProcessorRecord.generation r) ∧ ProcessorRecord.generation r ≠ 0
  ∧ in_uint 32 (ProcessorRecord.logical_processor_count r)
  ∧ in_uint 32 (ProcessorRecord.physical_core_count r)
  ∧ in_uint 32 (ProcessorRecord.numa_node_index r)
  ∧ in_i64 (ProcessorRecord.registered_at_ns r).

Definition durable_accelerator (r : AcceleratorRecord.t) : Prop :=
  valid_token (AcceleratorRecord.id r) ∧ short (AcceleratorRecord.node r)
  ∧ short (AcceleratorRecord.vendor r) ∧ annotation_fits (AcceleratorRecord.vendor_uuid r)
  ∧ short (AcceleratorRecord.local_memory_domain r)
  ∧ in_uint 64 (AcceleratorRecord.generation r) ∧ AcceleratorRecord.generation r ≠ 0
  ∧ in_i64 (AcceleratorRecord.registered_at_ns r).

Definition durable_memory_domain (r : MemoryDomainRecord.t) : Prop :=
  valid_token (MemoryDomainRecord.id r) ∧ short (MemoryDomainRecord.node r)
  ∧ short (MemoryDomainRecord.coherence_domain r)
  ∧ in_uint 64 (MemoryDomainRecord.generation r) ∧ MemoryDomainRecord.generation r ≠ 0
  ∧ enum_fits MemoryDomainKind.code MemoryDomainKind.of_code 7 (MemoryDomainRecord.kind r)
  ∧ in_uint 64 (MemoryDomainRecord.capacity_bytes r)
  ∧ in_i64 (MemoryDomainRecord.registered_at_ns r).

Definition durable_ref (r : ResourceRef.t) : Prop :=
  enum_fits ResourceKind.code ResourceKind.of_code 6 (ResourceRef.kind r)
  ∧ short (ResourceRef.id r) ∧ in_uint 64 (ResourceRef.generation r).

Definition durable_coherence_domain (r : CoherenceDomainRecord.t) : Prop :=
  valid_token (CoherenceDomainRecord.id r) ∧ annotation_fits (CoherenceDomainRecord.protocol_family r)
  ∧ in_uint 64 (CoherenceDomainRecord.generation r) ∧ CoherenceDomainRecord.generation r ≠ 0
  ∧ Forall durable_ref (CoherenceDomainRecord.members r)
  ∧ zlen (CoherenceDomainRecord.members r) ≤ Limits.kMaxTopologyLinkCount
  ∧ in_i64 (CoherenceDomainRecord.registered_at_ns r).

Definition durable_region (r : RegionRecord.t) : Prop :=
  valid_token (RegionRecord.id r) ∧ annotation_fits (RegionRecord.owner r)
  ∧ annotation_fits (RegionRecord.annotation r) ∧ short (RegionRecord.memory_domain r)
  ∧ short (RegionRecord.coherence_domain r) ∧ short (RegionRecord.workload r)
  ∧ in_uint 64 (RegionRecord.generation r) ∧ RegionRecord.generation r ≠ 0
  ∧ in_uint 64 (RegionRecord.memory_domain_generation r)
  ∧ in_uint 64 (RegionRecord.opaque_handle r) ∧ in_uint 64 (RegionRecord.size_bytes r)
  ∧ in_uint 64 (RegionRecord.page_size_bytes r)
  ∧ in_uint 64 (RegionRecord.allocation_generation r)
  ∧ in_uint 64 (RegionRecord.mapping_generation r)
  ∧ enum_fits SharingScope.code SharingScope.of_code 6 (RegionRecord.sharing_scope r)
  ∧ in_i64 (RegionRecord.registered_at_ns r) ∧ in_i64 (RegionRecord.retired_at_ns r).

Definition durable_link (l : TopologyLink.t) : Prop :=
  durable_ref (TopologyLink.from l) ∧ durable_ref (TopologyLink.to l)
  ∧ resource_empty (TopologyLink.from l) = false ∧ resource_empty (TopologyLink.to l) = false
  ∧ enum_fits Locality.code Locality.of_code kLocalityCount (TopologyLink.locality l)
  ∧ enum_fits Provenance.code Provenance.of_code 10 (TopologyLink.provenance l)
  ∧ in_i64 (TopologyLink.latency_ns l) ∧ in_uint 64 (TopologyLink.bandwidth_bytes_per_second l).

Definition durable_watermark (w : PublisherWatermark.t) : Prop :=
  valid_token (PublisherWatermark.publisher w)
  ∧ in_uint 64 (PublisherWatermark.boot w) ∧ PublisherWatermark.boot w ≠ 0
  ∧ in_uint 64 (PublisherWatermark.high_watermark w)
  ∧ in_uint 64 (PublisherWatermark.boot_incarnations w)
  ∧ in_i64 (PublisherWatermark.last_seen_ns w).

Definition durable_capability (c : Capability.t) : Prop :=
  0 < slen (Capability.key c) ∧ short (Capability.key c)
  ∧ enum_fits CapabilityStatus.code CapabilityStatus.of_code 3 (Capability.status c)
  ∧ slen (Capability.detail c) ≤ 512 ∧ slen (Capability.mechanism c) ≤ 128.

Definition durable_cost_model (m : CostModel.t) : Prop :=
  validate_cost_model m = Ok tt ∧ CostModel.defined m = true
  ∧ in_uint 32 (CostModel.version m)
  ∧ valid_double (CostModel.remote_read_latency_ns m) = true
  ∧ valid_double (CostModel.remote_write_latency_ns m) = true
  ∧ valid_double (CostModel.invalidation_latency_ns m) = true
  ∧ valid_double (CostModel.ownership_transfer_latency_ns m) = true
  ∧ valid_double (CostModel.retry_latency_ns m) = true
  ∧ valid_double (CostModel.conflict_stall_ns m) = true
  ∧ valid_double (CostModel.bandwidth_bytes_per_ns m) = true
  ∧ valid_double (CostModel.cxl_multiplier m) = true
  ∧ valid_double (CostModel.pooled_multiplier m) = true
  ∧ valid_double (CostModel.remote_node_multiplier m) = true.

Definition durable_bucket (e : AggregateKey.t * AggregateValue.t) : Prop :=
  AggregateKey.dimension e.1 ≠ AggregateDimension.kCount ∧ annotation_fits (AggregateKey.value e.1)
  ∧ in_uint 64 (AggregateValue.observations e.2) ∧ in_uint 64 (AggregateValue.bytes e.2)
  ∧ in_uint 64 (AggregateValue.invalidations e.2)
  ∧ in_uint 64 (AggregateValue.ownership_transfers e.2)
  ∧ enum_fits Precision.code Precision.of_code 7 (AggregateValue.weakest_precision e.2).

Definition durable_history (r : HistoricalEvidence.t) : Prop :=
  short (HistoricalEvidence.region r)
  ∧ enum_fits EventType.code EventType.of_code kEventTypeCount (HistoricalEvidence.event_type r)
  ∧ enum_fits Precision.code Precision.of_code 7 (HistoricalEvidence.precision r)
  ∧ enum_fits Provenance.code Provenance.of_code 10 (HistoricalEvidence.provenance r)
  ∧ in_uint 64 (HistoricalEvidence.observations r) ∧ in_uint 64 (HistoricalEvidence.bytes r)
  ∧ in_i64 (HistoricalEvidence.last_timestamp_ns r)
  ∧ in_uint 64 (HistoricalEvidence.source_coordinator_epoch r).

(** What a historical bucket keeps across a restart: four totals, the weakest
    precision and whether anything synthetic went into it. *)
Definition bucket_durable_form (v : AggregateValue.t) : AggregateValue.t :=
  AggregateValue.empty
    <| AggregateValue.observations := AggregateValue.observations v |>
    <| AggregateValue.bytes := AggregateValue.bytes v |>
    <| AggregateValue.invalidations := AggregateValue.invalidations v |>
    <| AggregateValue.ownership_transfers := AggregateValue.ownership_transfers v |>
    <| AggregateValue.weakest_precision := AggregateValue.weakest_precision v |>
    <| AggregateValue.has_observations := negb (AggregateValue.observations v =? 0) |>
    <| AggregateValue.synthetic_contribution := AggregateValue.synthetic_contribution v |>.

(** ** Round trips of the records *)

Lemma reads_ret_eq {A} (a b : A) : a = b → reads (mret a) [] b.
Proof. intros ->. apply reads_ret. Qed.

Lemma reads_corrupt_if {A} b m (k : action _ A) a :
  b = false → reads k [] a → reads (corrupt_if b m;; k) [] a.
Proof. by intros ->. Qed.
Lemma reads_corrupt_if_ctx {A} b m x (k : action _ A) a :
  b = false → reads k [] a → reads (corrupt_if_ctx b m x;; k) [] a.
Proof. by intros ->. Qed.
Lemma codes_corrupt_if {A} b m w (k : action _ A) a :
  b = false → codes w k a → codes w (corrupt_if b m;; k) a.
Proof. by intros ->. Qed.
Lemma codes_corrupt_if_ctx {A} b m x w (k : action _ A) a :
  b = false → codes w k a → codes w (corrupt_if_ctx b m x;; k) a.
Proof. by intros ->. Qed.
Lemma reads_corrupt_identity {A} m id (k : action _ A) a :
  valid_token id → reads k [] a → reads (corrupt_identity m id;; k) [] a.
Proof. intros Hv. apply reads_corrupt_if_ctx. by rewrite parse_name_valid. Qed.

Lemma codes_save_name s : short s → codes (save_name s) read_name s.
Proof. intros Hs. apply codes_unchecked, codes_text; [done|by vm_compute]. Qed.
Lemma codes_save_token s : valid_token s → codes (save_name s) read_name s.
Proof. intros [[_ Hs] _]. by apply codes_save_name. Qed.
Lemma codes_save_annotation s : annotation_fits s → codes (save_annotation s) read_annotation s.
Proof. intros Hs. apply codes_unchecked, codes_text; [done|by vm_compute]. Qed.
Lemma codes_enum_byte {E} (code : E → Z) of_code max e :
  enum_fits code of_code max e → max ≤ 256 → codes (PayloadWriter.u8 (code e)) PayloadReader.u8 (code e).
Proof. intros [Hr _] Hm. apply codes_u8. unfold is_byte. lia. Qed.

Create HintDb state_codes.
#[export] Hint Resolve codes_save_name codes_save_token codes_save_annotation codes_u8 codes_u32
  codes_u64 codes_i64 codes_f64 codes_bool codes_nanos : state_codes.
#[export] Hint Extern 2 (codes (PayloadWriter.u8 _) PayloadReader.u8 _) =>
  eapply codes_enum_byte; [eassumption|by vm_compute] : state_codes.

(** Discharges a check that the record passes. *)
Ltac solve_check :=
  repeat match goal with
         | |- (_ || _) = false => apply orb_false_intro
         | |- (_ <? _) = false => apply Z.ltb_ge
         | |- (_ <=? _) = false => apply Z.leb_gt
         | |- (_ =? _) = false => apply Z.eqb_neq
         end; unfold enum_fits, kLocalityCount, kEventTypeCount in *; done || lia.

Ltac solve_state_codes :=
  simpl; intros;
  repeat match goal with H : _ ∧ _ |- _ => destruct H end;
  repeat first
    [ apply codes_corrupt_if; [solve [solve_check]|]
    | apply codes_corrupt_if_ctx; [solve [solve_check]|]
    | eapply codes_bind; [solve [eauto 3 with state_codes nocore]|]
    | eapply codes_last; [solve [eauto 3 with state_codes nocore]|]
    | apply reads_corrupt_identity; [assumption|]
    | apply reads_corrupt_if; [solve [solve_check]|]
    | apply reads_corrupt_if_ctx; [solve [solve_check]|] ];
  try (apply reads_ret_eq; simpl;
       repeat match goal with H : enum_fits _ _ _ _ |- _ => destruct H as [_ H]; rewrite ?H; clear H end;
       reflexivity).

Lemma codes_save_node r : durable_node r → codes (save_node r) load_node r.
Proof. unfold save_node, load_node, durable_node. destruct r; solve_state_codes. Qed.

Lemma codes_save_processor r : durable_processor r → codes (save_processor r) load_processor r.
Proof. unfold save_processor, load_processor, durable_processor. destruct r; solve_state_codes. Qed.

Lemma codes_save_accelerator r : durable_accelerator r → codes (save_accelerator r) load_accelerator r.
Proof. unfold save_accelerator, load_accelerator, durable_accelerator. destruct r; solve_state_codes. Qed.

Lemma codes_save_memory_domain r :
  durable_memory_domain r → codes (save_memory_domain r) load_memory_domain r.
Proof.
  unfold save_memory_domain, load_memory_domain, durable_memory_domain. destruct r; solve_state_codes.
Qed.

Lemma codes_save_member domain r : durable_ref r → codes (save_member r) (load_member domain) r.
Proof. unfold save_member, load_member, durable_ref. destruct r; solve_state_codes. Qed.

Lemma codes_save_members domain l :
  Forall durable_ref l → codes (write_all save_member l) (read_n (length l) (load_member domain)) l.
Proof.
  intros Hl. rewrite <- (list_fmap_id l) at 3. apply (codes_all _ _ id).
  eapply Forall_impl; [exact Hl|]. intros r Hr. by apply codes_save_member.
Qed.

Lemma codes_save_coherence_domain r :
  durable_coherence_domain r → codes (save_coherence_domain r) load_coherence_domain r.
Proof.
  unfold save_coherence_domain, load_coherence_domain, durable_coherence_domain.
  destruct r as [id generation family members retired at_ns]. simpl.
  intros (Hid & Hf & Hg & Hg0 & Hm & Hn & Ht).
  assert (in_uint 64 (zlen members)) as Hlen.
  { pose proof (zlen_nonneg members). unfold in_uint, Limits.kMaxTopologyLinkCount in *. lia. }
  do 5 (eapply codes_bind; [solve [eauto 3 with state_codes nocore]|]).
  apply codes_corrupt_if_ctx; [solve_check|].
  eapply codes_bind; [unfold zlen; rewrite Nat2Z.id; by apply codes_save_members|].
  solve_state_codes.
Qed.

Lemma codes_save_region r : durable_region r → codes (save_region r) load_region (mark_loaded r).
Proof.
  unfold save_region, load_region, durable_region, mark_loaded. destruct r; solve_state_codes.
Qed.

Lemma codes_save_link l : durable_link l → codes (save_link l) load_link l.
Proof.
  unfold save_link, load_link, durable_link, durable_ref.
  destruct l as [[] []]; solve_state_codes.
Qed.

Lemma state_fence_reason_fits r : enum_fits fence_reason_code fence_reason_of_code 6 r.
Proof. by destruct r. Qed.

Lemma codes_save_watermark w : durable_watermark w → codes (save_watermark w) load_watermark w.
Proof.
  unfold save_watermark, load_watermark, durable_watermark.
  pose proof (state_fence_reason_fits (PublisherWatermark.fence_reason w)) as Hr.
  destruct w; simpl in Hr; solve_state_codes.
Qed.

Lemma codes_save_capability c : durable_capability c → codes (save_capability c) load_capability c.
Proof.
  unfold save_capability, load_capability, durable_capability.
  destruct c as [key status detail mechanism]. simpl. intros (Hk & Hs & He & Hd & Hm).
  apply slen_pos in Hk.
  do 2 (eapply codes_bind; [solve [eauto 3 with state_codes nocore]|]).
  eapply codes_bind; [apply codes_unchecked, codes_text; [exact Hd|by vm_compute]|].
  eapply codes_last; [apply codes_unchecked, codes_text; [exact Hm|by vm_compute]|].
  solve_state_codes.
Qed.

Lemma cost_model_id_fits m : validate_cost_model m = Ok tt → slen (CostModel.id m) ≤ 96.
Proof.
  unfold validate_cost_model. cbn zeta. intros H. apply seq_Ok in H as [_ H].
  apply seq_Ok in H as [H _]. apply reject_if_Ok, Z.ltb_ge in H. done.
Qed.

Lemma codes_save_cost_model m : durable_cost_model m → codes (save_cost_model m) load_cost_model m.
Proof.
  unfold durable_cost_model. intros (Hv & Hd & Hr). pose proof (cost_model_id_fits m Hv) as Hid.
  unfold save_cost_model, load_cost_model. destruct m; simpl in *. subst.
  eapply codes_bind; [apply codes_unchecked, codes_text; [exact Hid|by vm_compute]|].
  repeat match goal with H : _ ∧ _ |- _ => destruct H end.
  repeat first
    [ eapply codes_bind; [solve [eauto 3 with state_codes nocore]|]
    | eapply codes_last; [solve [eauto 3 with state_codes nocore]|] ].
  rewrite Hv. apply reads_ret.
Qed.

Lemma dimension_of_code d :
  d ≠ AggregateDimension.kCount →
  0 ≤ AggregateDimension.code d < kAggregateDimensionCount
  ∧ AggregateDimension.of_code (AggregateDimension.code d) = Some d.
Proof. by destruct d. Qed.

Lemma codes_save_bucket e :
  durable_bucket e → codes (save_bucket e) load_bucket (e.1, bucket_durable_form e.2).
Proof.
  unfold save_bucket, load_bucket, durable_bucket, bucket_durable_form.
  destruct e as [[d text] v]. simpl. intros (Hd & Hr).
  destruct (dimension_of_code d Hd) as [Hc Ho].
  assert (is_byte (AggregateDimension.code d)) as Hb
    by (unfold is_byte, kAggregateDimensionCount in *; lia).
  eapply codes_bind; [by apply codes_u8|]. apply codes_corrupt_if; [solve_check|]. rewrite Ho.
  solve_state_codes.
Qed.

Lemma codes_save_history_record r :
  durable_history r → codes (save_history_record r) load_history_record r.
Proof.
  unfold save_history_record, load_history_record, durable_history. destruct r; solve_state_codes.
Qed.

(** ** Tables *)

Section tables.
Context {K V R W : Type} `{Countable K}.
Context (w : K * V → action PayloadWriter.t unit) (read : action PayloadReader.t R).
Context (key : R → K) (value : R → W) (form : K * V → R).
Context (duplicate : string) (shown : K → string).
Implicit Types (l : list (K * V)) (m : gmap K W).

(** The entries read back, in front of what the table held before. *)
Lemma codes_entries l m :
  NoDup l.*1 → Forall (λ e, m !! e.1 = None) l →
  Forall (λ e, codes (w e) read (form e) ∧ key (form e) = e.1) l →
  codes (write_all w l) (read_entries (length l) read key value duplicate shown m)
    (list_to_map ((λ e, (e.1, value (form e))) <$> l) ∪ m).
Proof.
  revert m. induction l as [|e l IH]; intros m Hd Hm Hl; simpl.
  { rewrite (left_id_L ∅ (∪)). apply (codes_ret (A := gmap K W)). }
  apply Forall_cons in Hl as [[He Hk] Hl]. apply Forall_cons in Hm as [Hme Hm].
  apply NoDup_cons in Hd as [Hnin Hd].
  eapply codes_bind; [exact He|]. rewrite Hk.
  apply codes_corrupt_if_ctx; [by rewrite Hme|].
  rewrite <- insert_union_l, insert_union_r.
  - apply IH; [done| |done]. apply Forall_forall. intros e' He'.
    rewrite lookup_insert_ne; [by eapply Forall_forall in Hm|].
    intros Heq. apply Hnin. rewrite Heq. by apply list_elem_of_fmap_2.
  - apply not_elem_of_list_to_map_1. intros Hin. apply Hnin.
    rewrite <- list_fmap_compose in Hin. exact Hin.
Qed.
End tables.

Lemma list_to_map_entries {K V} `{Countable K} `{KeyOrder K} (m : gmap K V) :
  list_to_map (entries m) = m.
Proof.
  rewrite <- (list_to_map_to_list m) at 2. apply list_to_map_proper; [apply NoDup_entries|].
  apply entries_perm.
Qed.

Lemma list_to_map_entries_fmap {K V W} `{Countable K} `{KeyOrder K} (g : V → W) (m : gmap K V) :
  list_to_map ((λ e, (e.1, g e.2)) <$> entries m) = g <$> m.
Proof. by rewrite <- entries_fmap, list_to_map_entries. Qed.

(** What [map_Forall] says of the entries in order. *)
Lemma entries_Forall {K V} `{Countable K} `{KeyOrder K} (P : K → V → Prop) (m : gmap K V) :
  map_Forall P m → Forall (λ e, P e.1 e.2) (entries m).
Proof.
  intros HP. apply Forall_forall. intros [k v] Hin. apply HP. by apply elem_of_entries.
Qed.

Lemma codes_table {K V} `{Countable K} `{KeyOrder K} bound too_many (w : V → action _ unit) read
    (key : V → K) (form : V → V) duplicate shown (m : gmap K V) :
  zsize m ≤ bound → bound < 2 ^ 64 →
  map_Forall (λ k v, key (form v) = k ∧ codes (w v) read (form v)) m →
  codes (save_table w m) (read_table bound too_many read key id duplicate shown ∅) (form <$> m).
Proof.
  intros Hn Hb Hm. unfold save_table, read_table.
  pose proof (zsize_nonneg m).
  eapply codes_bind; [apply codes_u64; unfold in_uint; lia|].
  apply codes_corrupt_if; [by apply Z.ltb_ge|].
  rewrite <- list_to_map_entries_fmap, <- (right_id_L ∅ (∪) (list_to_map _)).
  rewrite <- entries_length. unfold zlen. rewrite Nat2Z.id.
  apply (codes_entries (λ e, w e.2) read key id (λ e, form e.2)); [apply NoDup_entries|by apply Forall_true|].
  apply entries_Forall in Hm. eapply Forall_impl; [exact Hm|]. by intros [k v] [].
Qed.

(** A table whose records are read back as they are. *)
Lemma codes_table_id {K V} `{Countable K} `{KeyOrder K} bound too_many (w : V → action _ unit) read
    (key : V → K) duplicate shown (m : gmap K V) :
  zsize m ≤ bound → bound < 2 ^ 64 →
  map_Forall (λ k v, key v = k ∧ codes (w v) read v) m →
  codes (save_table w m) (read_table bound too_many read key id duplicate shown ∅) m.
Proof. intros Hn Hb Hm. rewrite <- (map_fmap_id m) at 2. by apply (codes_table _ _ _ _ key id). Qed.

(** ** Sections

    [finishes w r a]: reading up to its end what [w] wrote, [r] succeeds with
    [a]. *)

Definition completes {A} (bs : list Z) (r : action PayloadReader.t A) (a : A) : Prop :=
  ∀ pre, (r (PayloadReader.mk (pre ++ bs) (length pre))).1 = Ok a.
Definition finishes {A} (w : action PayloadWriter.t unit) (r : action PayloadReader.t A) (a : A)
  : Prop := ∃ bs, is_bytes bs ∧ writes w bs ∧ completes bs r a.

Lemma completes_ret {A} (a : A) : completes [] (mret a) a.
Proof. by intros pre. Qed.

Lemma completes_exhausted {A} (k : action _ A) a :
  completes [] k a → completes [] (PayloadReader.require_exhausted;; k) a.
Proof.
  intros Hk pre. specialize (Hk pre). unfold mbind, action_bind, PayloadReader.require_exhausted,
    PayloadReader.exhausted, PayloadReader.size. simpl.
  by rewrite app_nil_r, Nat.eqb_refl in *.
Qed.

Lemma completes_bind {A B} (r : action _ A) (k : A → action _ B) bs cs a b :
  reads r bs a → completes cs (k a) b → completes (bs ++ cs) (r ≫= k) b.
Proof.
  intros Hr Hk pre. unfold mbind, action_bind. rewrite Hr.
  specialize (Hk (pre ++ bs)). by rewrite length_app, <- app_assoc in Hk.
Qed.

Lemma finishes_bind {A B} w (r : action _ A) a w' (k : A → action _ B) b :
  codes w r a → finishes w' (k a) b → finishes (w ≫= λ _, w') (r ≫= k) b.
Proof.
  intros (bs & Hb & Hw & Hr) (cs & Hc & Hw' & Hr'). exists (bs ++ cs). split_and!.
  - by apply Forall_app.
  - by apply writes_bind.
  - by eapply completes_bind.
Qed.

Lemma finishes_last {A B} w (r : action _ A) a (k : A → action _ B) b :
  codes w r a → completes [] (k a) b → finishes w (r ≫= k) b.
Proof.
  intros (bs & Hb & Hw & Hr) Hk. exists bs. split_and!; [done..|].
  rewrite <- (app_nil_r bs). by eapply completes_bind.
Qed.

Lemma finishes_corrupt_if {A} b m w (k : action _ A) a :
  b = false → finishes w k a → finishes w (corrupt_if b m;; k) a.
Proof. by intros ->. Qed.

Lemma completes_corrupt_if {A} b m (k : action _ A) a :
  b = false → completes [] k a → completes [] (corrupt_if b m;; k) a.
Proof. by intros ->. Qed.
Lemma completes_lift {A B} (x : A) (k : A → action _ B) b :
  completes [] (k x) b → completes [] (lift (Ok x) ≫= k) b.
Proof. done. Qed.
Lemma finishes_lift {A B} w (x : A) (k : A → action _ B) b :
  finishes w (k x) b → finishes w (lift (Ok x) ≫= k) b.
Proof. done. Qed.

(** A table and nothing behind it. *)
Lemma finishes_table {A B} w (r : action _ A) a (g : A → B) :
  codes w r a → finishes w (x ← r; PayloadReader.require_exhausted;; mret (g x)) (g a).
Proof. intros Hc. eapply finishes_last; [exact Hc|]. apply completes_exhausted, completes_ret. Qed.

Lemma finishes_written {A} w (r : action _ A) a :
  finishes w r a → is_bytes (written w) ∧ (r (PayloadReader.mk (written w) 0)).1 = Ok a.
Proof.
  intros (bs & Hb & Hw & Hr). unfold written. rewrite Hw. simpl. split; [done|]. apply (Hr []).
Qed.

(** ** When a state fits the file *)

Definition known {R T} (target : R → string) (m : gmap string T) (r : R) : Prop :=
  sempty (target r) = true ∨ is_Some (m !! target r).

Record durable (options : PersistenceOptions.t) (s : State.t) : Prop := {
  dur_observer : name_fits (ObservatoryOptions.observer_id (State.options s));
  dur_node : name_fits (ObservatoryOptions.node_id (State.options s));
  dur_display : annotation_fits (ObservatoryOptions.display_name (State.options s));
  dur_bucket : 0 ≤ ObservatoryOptions.time_bucket_ns (State.options s) ≤ Limits.kMaxTimestampNs;
  dur_generations : in_uint 64 (State.topology_generation s) ∧ in_uint 64 (State.evidence_generation s);
  dur_epochs : in_uint 64 (State.coordinator_epoch s) ∧ in_uint 64 (State.observation_epoch s);
  dur_nodes : map_Forall (λ k r, NodeRecord.id r = k ∧ durable_node r) (State.nodes s)
    ∧ zsize (State.nodes s) ≤ Limits.kMaxNodeCount;
  dur_processors : map_Forall (λ k r, ProcessorRecord.id r = k ∧ durable_processor r)
      (State.processors s)
    ∧ zsize (State.processors s) ≤ Limits.kMaxProcessorCount;
  dur_accelerators : map_Forall (λ k r, AcceleratorRecord.id r = k ∧ durable_accelerator r)
      (State.accelerators s)
    ∧ zsize (State.accelerators s) ≤ Limits.kMaxAcceleratorCount;
  dur_memory_domains : map_Forall (λ k r, MemoryDomainRecord.id r = k ∧ durable_memory_domain r)
      (State.memory_domains s)
    ∧ zsize (State.memory_domains s) ≤ Limits.kMaxMemoryDomainCount;
  dur_coherence_domains : map_Forall (λ k r, CoherenceDomainRecord.id r = k
      ∧ durable_coherence_domain r) (State.coherence_domains s)
    ∧ zsize (State.coherence_domains s) ≤ Limits.kMaxCoherenceDomainCount;
  dur_regions : map_Forall (λ k r, RegionRecord.id r = k ∧ durable_region r) (State.regions s)
    ∧ zsize (State.regions s) ≤ Limits.kMaxRegionCount;
  dur_links : Forall durable_link (TopologyRecord.links (State.topology s))
    ∧ zlen (TopologyRecord.links (State.topology s)) ≤ Limits.kMaxTopologyLinkCount;
  dur_watermarks : map_Forall (λ k w, watermark_key w = k ∧ durable_watermark w) (saved_watermarks s)
    ∧ zsize (saved_watermarks s) < 2 ^ 64;
  dur_capabilities : map_Forall (λ k c, Capability.key c = k ∧ durable_capability c)
      (State.capabilities s)
    ∧ zsize (State.capabilities s) < 2 ^ 64;
  dur_cost_model : durable_cost_model (ObservatoryOptions.cost_model (State.options s));
  dur_buckets : Forall durable_bucket (saved_buckets options s);
  dur_history : Forall durable_history (saved_history options s);
  dur_options : 0 ≤ PersistenceOptions.max_history_records options < 2 ^ 62
    ∧ PersistenceOptions.max_bytes options < 2 ^ 63;
  dur_size : zlen (state_payload options s) ≤ PersistenceOptions.max_bytes options;
}.

(** What loading asks for beyond that: the tables whose bound the running
    observatory does not enforce, and the references the load checks. *)
Definition within_bounds (options : PersistenceOptions.t) (s : State.t) : Prop :=
  zsize (saved_watermarks s) ≤ Limits.kMaxPublisherWatermarks
  ∧ zsize (State.capabilities s) ≤ 256
  ∧ (PersistenceOptions.include_history options = true →
     zlen (saved_buckets options s) ≤ Limits.kMaxHistoryAggregates).
Definition references_known (s : State.t) : Prop :=
  map_Forall (λ _, known RegionRecord.memory_domain (State.memory_domains s)) (State.regions s)
  ∧ map_Forall (λ _, known MemoryDomainRecord.coherence_domain (State.coherence_domains s))
      (State.memory_domains s)
  ∧ map_Forall (λ _, known ProcessorRecord.node (State.nodes s)) (State.processors s).
Definition loadable (options : PersistenceOptions.t) (s : State.t) : Prop :=
  within_bounds options s ∧ references_known s.

#[global] Instance known_dec {R T} (target : R → string) (m : gmap string T) r :
  Decision (known target m r).
Proof. unfold known. apply _. Defined.
#[global] Instance within_bounds_dec options s : Decision (within_bounds options s).
Proof. unfold within_bounds. apply _. Defined.
#[global] Instance references_known_dec s : Decision (references_known s).
Proof. unfold references_known. apply _. Defined.
#[global] Instance loadable_dec options s : Decision (loadable options s).
Proof. unfold loadable. apply _. Defined.

(** What is staged of a saved state. *)
Definition staged_of (options : PersistenceOptions.t) (s : State.t) : StagedState.t := {|
  StagedState.has_meta := true;
  StagedState.observer_id := ObservatoryOptions.observer_id (State.options s);
  StagedState.node_id := ObservatoryOptions.node_id (State.options s);
  StagedState.display_name := ObservatoryOptions.display_name (State.options s);
  StagedState.topology_generation := State.topology_generation s;
  StagedState.evidence_generation := State.evidence_generation s;
  StagedState.time_bucket_ns := ObservatoryOptions.time_bucket_ns (State.options s);
  StagedState.source_coordinator_epoch := State.coordinator_epoch s;
  StagedState.source_observation_epoch := State.observation_epoch s;
  StagedState.nodes := State.nodes s;
  StagedState.processors := State.processors s;
  StagedState.accelerators := State.accelerators s;
  StagedState.memory_domains := State.memory_domains s;
  StagedState.coherence_domains := State.coherence_domains s;
  StagedState.regions := mark_loaded <$> State.regions s;
  StagedState.links := TopologyRecord.links (State.topology s);
  StagedState.watermarks := saved_watermarks s;
  StagedState.capabilities := State.capabilities s;
  StagedState.cost_model := ObservatoryOptions.cost_model (State.options s);
  StagedState.has_cost_model := true;
  StagedState.historical_aggregates :=
    if PersistenceOptions.include_history options
    then list_to_map (prod_map id bucket_durable_form <$> saved_buckets options s) else ∅;
  StagedState.history :=
    if PersistenceOptions.include_history options then saved_history options s else [];
  StagedState.seen_sections := reverse ((λ x, SectionType.code x.1) <$> state_sections options s);
  StagedState.record_count := saved_record_count options s |}.

(** ** Each section is staged *)

Section sections.
Context (options : PersistenceOptions.t) (s : State.t) (Hs : durable options s).
Implicit Types staged : StagedState.t.

Lemma meta_finishes staged :
  StagedState.observer_id staged = "" → StagedState.node_id staged = "" →
  finishes (save_meta s) (stage_meta staged)
    (staged <| StagedState.observer_id := ObservatoryOptions.observer_id (State.options s) |>
            <| StagedState.node_id := ObservatoryOptions.node_id (State.options s) |>
            <| StagedState.display_name := ObservatoryOptions.display_name (State.options s) |>
            <| StagedState.topology_generation := State.topology_generation s |>
            <| StagedState.evidence_generation := State.evidence_generation s |>
            <| StagedState.time_bucket_ns := ObservatoryOptions.time_bucket_ns (State.options s) |>
            <| StagedState.source_coordinator_epoch := State.coordinator_epoch s |>
            <| StagedState.source_observation_epoch := State.observation_epoch s |>
            <| StagedState.has_meta := true |>).
Proof.
  intros Ho Hn. destruct Hs as [Ho' Hn' Hd Hb [Ht He] [Hc Hobs] _ _ _ _ _ _ _ _ _ _ _ _ _ _].
  assert (∀ i, name_fits i → short i) as Hshort.
  { intros i [->|Hi]; [by vm_compute|]. by destruct Hi as [[_ ?] _]. }
  assert (wrap64 (ObservatoryOptions.time_bucket_ns (State.options s))
          = ObservatoryOptions.time_bucket_ns (State.options s)) as Hw.
  { apply Z.mod_small. unfold Limits.kMaxTimestampNs, two64 in *. lia. }
  unfold save_meta, stage_meta, write_nanos. rewrite Hw.
  eapply finishes_bind; [by apply codes_u32|]. apply (finishes_lift _ tt).
  do 2 (eapply finishes_bind; [by apply codes_save_name, Hshort|]).
  eapply finishes_bind; [by apply codes_save_annotation|].
  do 2 (eapply finishes_bind; [by apply codes_u64|]).
  eapply finishes_bind; [apply codes_u64; unfold in_uint, Limits.kMaxTimestampNs in *; lia|].
  eapply finishes_bind; [by apply codes_u64|].
  eapply finishes_last; [by apply codes_u64|].
  assert (∀ c i, name_fits i → c = "" → optional_identity c i = lift (Ok i)) as Hopt.
  { intros c i [->|Hi] ->; [done|]. unfold optional_identity.
    rewrite (proj1 (slen_pos i)) by apply Hi. by rewrite parse_name_valid. }
  rewrite !Hopt by done.
  do 2 apply completes_lift. apply completes_corrupt_if; [apply Z.ltb_ge; lia|].
  apply completes_exhausted, completes_ret.
Qed.

(** The sections that are one table. *)
Ltac table_section setter fits coded :=
  intros E; rewrite E; apply (finishes_table _ _ _ setter);
  destruct fits as [Hm Hn];
  first [apply codes_table_id; [done|by vm_compute|] | apply codes_table; [done|by vm_compute|]];
  eapply map_Forall_impl; [exact Hm|]; cbv beta; intros k r Hr; split; [apply Hr|apply coded, Hr].

Lemma nodes_finish staged :
  StagedState.nodes staged = ∅ →
  finishes (save_table save_node (State.nodes s)) (stage_nodes staged)
    (staged <| StagedState.nodes := State.nodes s |>).
Proof.
  unfold stage_nodes.
  table_section (λ m, staged <| StagedState.nodes := m |>) (dur_nodes _ _ Hs) codes_save_node.
Qed.

Lemma processors_finish staged :
  StagedState.processors staged = ∅ →
  finishes (save_table save_processor (State.processors s)) (stage_processors staged)
    (staged <| StagedState.processors := State.processors s |>).
Proof.
  unfold stage_processors.
  table_section (λ m, staged <| StagedState.processors := m |>) (dur_processors _ _ Hs) codes_save_processor.
Qed.

Lemma accelerators_finish staged :
  StagedState.accelerators staged = ∅ →
  finishes (save_table save_accelerator (State.accelerators s)) (stage_accelerators staged)
    (staged <| StagedState.accelerators := State.accelerators s |>).
Proof.
  unfold stage_accelerators.
  table_section (λ m, staged <| StagedState.accelerators := m |>) (dur_accelerators _ _ Hs) codes_save_accelerator.
Qed.

Lemma memory_domains_finish staged :
  StagedState.memory_domains staged = ∅ →
  finishes (save_table save_memory_domain (State.memory_domains s)) (stage_memory_domains staged)
    (staged <| StagedState.memory_domains := State.memory_domains s |>).
Proof.
  unfold stage_memory_domains.
  table_section (λ m, staged <| StagedState.memory_domains := m |>) (dur_memory_domains _ _ Hs) codes_save_memory_domain.
Qed.

Lemma coherence_domains_finish staged :
  StagedState.coherence_domains staged = ∅ →
  finishes (save_table save_coherence_domain (State.coherence_domains s))
    (stage_coherence_domains staged)
    (staged <| StagedState.coherence_domains := State.coherence_domains s |>).
Proof.
  unfold stage_coherence_domains.
  table_section (λ m, staged <| StagedState.coherence_domains := m |>) (dur_coherence_domains _ _ Hs) codes_save_coherence_domain.
Qed.

Lemma regions_finish staged :
  StagedState.regions staged = ∅ →
  finishes (save_table save_region (State.regions s)) (stage_regions staged)
    (staged <| StagedState.regions := mark_loaded <$> State.regions s |>).
Proof.
  unfold stage_regions.
  table_section (λ m, staged <| StagedState.regions := m |>) (dur_regions _ _ Hs) codes_save_region.
Qed.

Lemma watermarks_finish (Hl : zsize (saved_watermarks s) ≤ Limits.kMaxPublisherWatermarks) staged :
  StagedState.watermarks staged = ∅ →
  finishes (save_table save_watermark (saved_watermarks s)) (stage_watermarks staged)
    (staged <| StagedState.watermarks := saved_watermarks s |>).
Proof.
  unfold stage_watermarks.
  table_section (λ m, staged <| StagedState.watermarks := m |>) (conj (proj1 (dur_watermarks _ _ Hs)) Hl) codes_save_watermark.
Qed.

Lemma capabilities_finish (Hl : zsize (State.capabilities s) ≤ 256) staged :
  StagedState.capabilities staged = ∅ →
  finishes (save_table save_capability (State.capabilities s)) (stage_capabilities staged)
    (staged <| StagedState.capabilities := State.capabilities s |>).
Proof.
  unfold stage_capabilities.
  table_section (λ m, staged <| StagedState.capabilities := m |>) (conj (proj1 (dur_capabilities _ _ Hs)) Hl) codes_save_capability.
Qed.

Lemma cost_model_finishes staged :
  finishes (save_cost_model (ObservatoryOptions.cost_model (State.options s)))
    (stage_cost_model staged)
    (staged <| StagedState.cost_model := ObservatoryOptions.cost_model (State.options s) |>
            <| StagedState.has_cost_model := true |>).
Proof.
  apply (finishes_table _ _ _ (λ m, staged <| StagedState.cost_model := m |>
                                           <| StagedState.has_cost_model := true |>)).
  apply codes_save_cost_model, Hs.
Qed.

Lemma zlen_uint {A} (l : list A) bound : zlen l ≤ bound → bound < 2 ^ 64 → in_uint 64 (zlen l).
Proof. pose proof (zlen_nonneg l). unfold in_uint. lia. Qed.

Lemma topology_finishes staged :
  StagedState.links staged = [] →
  finishes (save_topology s) (stage_topology staged)
    (staged <| StagedState.links := TopologyRecord.links (State.topology s) |>
            <| StagedState.topology_generation := State.topology_generation s |>).
Proof.
  destruct staged. simpl. intros ->. destruct (dur_links _ _ Hs) as [Hl Hn]. unfold save_topology, stage_topology.
  eapply finishes_bind; [apply codes_u64, (dur_generations _ _ Hs)|].
  eapply finishes_bind; [apply codes_u64; by eapply zlen_uint|].
  apply finishes_corrupt_if; [by apply Z.ltb_ge|]. rewrite zlen_nat.
  eapply finishes_last.
  - apply (codes_all _ _ id). eapply Forall_impl; [exact Hl|]. intros l. apply codes_save_link.
  - rewrite list_fmap_id. apply completes_exhausted, completes_ret.
Qed.

Lemma historical_aggregates_finish (Hn : zlen (saved_buckets options s) ≤ Limits.kMaxHistoryAggregates)
    staged :
  StagedState.historical_aggregates staged = ∅ →
  finishes (save_counted save_bucket (saved_buckets options s)) (stage_historical_aggregates staged)
    (staged <| StagedState.historical_aggregates :=
                 list_to_map (prod_map id bucket_durable_form <$> saved_buckets options s) |>
            <| StagedState.record_count ::= λ n, u64_add n (zlen (saved_buckets options s)) |>).
Proof.
  intros E. pose proof (dur_buckets _ _ Hs) as Hl.
  unfold save_counted, stage_historical_aggregates. rewrite E.
  eapply finishes_bind; [apply codes_u64; by eapply zlen_uint|].
  apply finishes_corrupt_if; [by apply Z.ltb_ge|]. rewrite zlen_nat.
  eapply finishes_last.
  - apply (codes_entries save_bucket load_bucket fst snd (λ e, (e.1, bucket_durable_form e.2)));
      [|by apply Forall_true|].
    + unfold saved_buckets. rewrite fmap_take.
      eapply sublist_NoDup; [|apply sublist_take]. apply NoDup_entries.
    + eapply Forall_impl; [exact Hl|]. intros e He. split; [by apply codes_save_bucket|done].
  - rewrite (right_id_L ∅ (∪)). apply completes_exhausted, completes_ret.
Qed.

Lemma history_finishes staged :
  StagedState.history staged = [] →
  finishes (save_counted save_history_record (saved_history options s)) (stage_history options staged)
    (staged <| StagedState.history := saved_history options s |>
            <| StagedState.record_count ::= λ n, u64_add n (zlen (saved_history options s)) |>).
Proof.
  destruct staged. simpl. intros ->. destruct (dur_options _ _ Hs) as [Hm _].
  assert (zlen (saved_history options s) ≤ PersistenceOptions.max_history_records options) as Hn.
  { unfold saved_history, zlen. rewrite length_take. lia. }
  unfold save_counted, stage_history.
  eapply finishes_bind; [apply codes_u64; eapply zlen_uint; [done|lia]|].
  apply finishes_corrupt_if; [by apply Z.ltb_ge|]. rewrite zlen_nat.
  eapply finishes_last.
  - apply (codes_all _ _ id). eapply Forall_impl; [apply (dur_history _ _ Hs)|].
    intros l. apply codes_save_history_record.
  - rewrite list_fmap_id. apply completes_exhausted, completes_ret.
Qed.

(** A table over its bound is refused by its count. *)
Lemma u64_first n bs :
  in_uint 64 n →
  PayloadReader.u64 (PayloadReader.mk (put_le 8 n ++ bs) 0)
    = (Ok n, PayloadReader.mk (put_le 8 n ++ bs) 8).
Proof. intros Hn. apply (reads_u64 n Hn [] bs). Qed.

Lemma written_count {A} (w : A → action PayloadWriter.t unit) n l :
  Forall (λ a, ∃ bs, writes (w a) bs) l →
  ∃ bs, written (PayloadWriter.u64 n;; write_all w l) = put_le 8 n ++ bs.
Proof.
  intros Hl. assert (∃ bs, writes (write_all w l) bs) as [bs Hbs].
  { induction Hl as [|a l [bs Ha] _ [cs IH]]; [exists []; apply writes_ret|].
    exists (bs ++ cs). by apply writes_bind. }
  exists bs. unfold written.
  by rewrite (writes_bind (PayloadWriter.u64 n) (λ _, write_all w l) (put_le 8 n) bs).
Qed.

Lemma codes_writes {A} w (r : action _ A) a : codes w r a → ∃ bs, writes w bs.
Proof. intros (bs & _ & Hw & _). by exists bs. Qed.

Lemma watermarks_refused staged :
  Limits.kMaxPublisherWatermarks < zsize (saved_watermarks s) →
  (stage_watermarks staged
     (PayloadReader.mk (written (save_table save_watermark (saved_watermarks s))) 0)).1
  = fail ErrorCode.CorruptState "publisher watermark count exceeds the bound".
Proof.
  intros Hn. destruct (dur_watermarks _ _ Hs) as [Hm Hmax].
  destruct (written_count (λ e : string * PublisherWatermark.t, save_watermark e.2)
    (zsize (saved_watermarks s)) (entries (saved_watermarks s))) as [bs E].
  { apply entries_Forall in Hm. eapply Forall_impl; [exact Hm|]. intros e [_ He].
    by eapply codes_writes, codes_save_watermark. }
  unfold save_table. rewrite E. unfold stage_watermarks, read_table, mbind, action_bind.
  rewrite u64_first by (unfold in_uint, Limits.kMaxPublisherWatermarks in *; lia).
  by rewrite (proj2 (Z.ltb_lt _ _)).
Qed.

Lemma capabilities_refused staged :
  256 < zsize (State.capabilities s) →
  (stage_capabilities staged
     (PayloadReader.mk (written (save_table save_capability (State.capabilities s))) 0)).1
  = fail ErrorCode.CorruptState "capability count exceeds the bound".
Proof.
  intros Hn. destruct (dur_capabilities _ _ Hs) as [Hm Hmax].
  destruct (written_count (λ e : string * Capability.t, save_capability e.2)
    (zsize (State.capabilities s)) (entries (State.capabilities s))) as [bs E].
  { apply entries_Forall in Hm. eapply Forall_impl; [exact Hm|]. intros e [_ He].
    by eapply codes_writes, codes_save_capability. }
  unfold save_table. rewrite E. unfold stage_capabilities, read_table, mbind, action_bind.
  rewrite u64_first by (unfold in_uint; lia).
  by rewrite (proj2 (Z.ltb_lt _ _)).
Qed.

Lemma historical_aggregates_refused staged :
  Limits.kMaxHistoryAggregates < zlen (saved_buckets options s) →
  (stage_historical_aggregates staged
     (PayloadReader.mk (written (save_counted save_bucket (saved_buckets options s))) 0)).1
  = fail ErrorCode.CorruptState "historical aggregate count exceeds the bound".
Proof.
  intros Hn. destruct (dur_options _ _ Hs) as [Hmax _].
  assert (zlen (saved_buckets options s) ≤ PersistenceOptions.max_history_records options) as Hle.
  { unfold saved_buckets, zlen. rewrite length_take. lia. }
  destruct (written_count save_bucket (zlen (saved_buckets options s)) (saved_buckets options s))
    as [bs E].
  { eapply Forall_impl; [apply (dur_buckets _ _ Hs)|]. intros e He.
    by eapply codes_writes, codes_save_bucket. }
  unfold save_counted. rewrite E. unfold stage_historical_aggregates, mbind, action_bind.
  rewrite u64_first by (unfold in_uint, Limits.kMaxHistoryAggregates in *; lia).
  by rewrite (proj2 (Z.ltb_lt _ _)).
Qed.
End sections.

(** ** The section loop *)

Lemma parse_section_shrinks options rest staged staged' rest' :
  parse_section options rest staged = Ok (staged', rest') → (length rest' < length rest)%nat.
Proof.
  unfold parse_section. rewrite seq_Ok, reject_if_Ok, Z.ltb_ge. intros [Hh H]. cbn zeta in H.
  repeat match type of H with
         | (_ ;; _) = Ok _ => apply seq_Ok in H as [? H]
         end.
  destruct (SectionType.of_code _) as [type|]; [|done].
  apply bind_Ok in H as (x & _ & [= _ <-]).
  generalize dependent (get_u64 (drop_z 8 rest)). intros n. intros. unfold drop_z at 1. rewrite length_drop.
  match goal with H : reject_if (_ <? 4) _ _ = _ |- _ => apply reject_if_Ok, Z.ltb_ge in H end.
  unfold zlen, Limits.kStateSectionHeaderSize in *. lia.
Qed.

(** More rounds than bytes change nothing. *)
Lemma parse_sections_rounds options n rest staged :
  (length rest ≤ n)%nat →
  parse_sections n options rest staged = parse_sections (length rest) options rest staged.
Proof.
  revert rest staged. induction n as [n IH] using lt_wf_ind. intros rest staged Hn.
  destruct rest as [|b rest]; [by destruct n|].
  destruct n as [|n]; simpl in Hn; [lia|]. cbn [parse_sections length].
  destruct (parse_section options (b :: rest) staged) as [[staged' rest']|e] eqn:E; [|done].
  apply parse_section_shrinks in E. simpl in E. cbn.
  rewrite (IH n ltac:(lia) rest' staged') by lia.
  by rewrite (IH (length rest) ltac:(lia) rest' staged') by lia.
Qed.

(** One round, without the bookkeeping of rounds. *)
Lemma parse_sections_step options rest staged staged' rest' :
  parse_section options rest staged = Ok (staged', rest') →
  parse_sections (length rest) options rest staged
    = parse_sections (length rest') options rest' staged'.
Proof.
  intros H. pose proof (parse_section_shrinks _ _ _ _ _ H) as Hlt.
  destruct rest as [|b rest]; [simpl in Hlt; lia|]. cbn [parse_sections length]. rewrite H. cbn.
  apply parse_sections_rounds. simpl in Hlt. lia.
Qed.

Lemma zlen_put_le n v : zlen (put_le n v) = Z.of_nat n.
Proof. unfold zlen. by rewrite put_le_length. Qed.

Lemma drop_z_app (n : Z) (l k : list Z) : zlen l ≤ n → drop_z n (l ++ k) = drop_z (n - zlen l) k.
Proof.
  intros Hn. pose proof (zlen_nonneg l). unfold drop_z.
  rewrite drop_app_ge by (rewrite <- zlen_nat; lia). f_equal. rewrite <- zlen_nat. lia.
Qed.
Lemma take_z_app (n : Z) (l k : list Z) : zlen l = n → take_z n (l ++ k) = l.
Proof. intros <-. unfold take_z. rewrite zlen_nat. apply take_app_length. Qed.

(** Skips the fixed fields in front of an offset. *)
Ltac skip_fields :=
  repeat (rewrite drop_z_app by (rewrite zlen_put_le; lia); rewrite zlen_put_le);
  match goal with |- context [drop_z ?n ?l] => replace n with 0 by lia; change (drop_z 0 l) with l end.

Lemma section_type_of_code t : SectionType.of_code (SectionType.code t) = Some t.
Proof. by destruct t. Qed.

(** The fields of a built section, at the offsets the parser looks. *)
Lemma built_section_fields type body rest :
  zlen body + 4 < 2 ^ 64 →
  let section := build_section type body ++ rest in
  zlen section = 16 + (zlen body + 4) + zlen rest
  ∧ get_u32 section = SectionType.code type ∧ get_u32 (drop_z 4 section) = 0
  ∧ get_u64 (drop_z 8 section) = zlen body + 4
  ∧ drop_z 16 section = body ++ put_u32 (crc32 body) ++ rest.
Proof.
  intros Hlen. cbn zeta. unfold build_section, put_u32, put_u64. rewrite <- !app_assoc.
  pose proof (zlen_nonneg body). split_and!.
  - rewrite !zlen_app, !zlen_put_le. lia.
  - apply get_put_le. by destruct type.
  - skip_fields. by apply get_put_le.
  - skip_fields. apply get_put_le. unfold in_uint. lia.
  - by skip_fields.
Qed.

(** A built section is recognised and its body staged. *)
Lemma parse_built_section options type body rest staged :
  zlen body + 4 < 2 ^ 64 →
  SectionType.code type ∉ StagedState.seen_sections staged →
  parse_section options (build_section type body ++ rest) staged
  = staged' ← (stage_section options type
                 (staged <| StagedState.seen_sections ::= cons (SectionType.code type) |>)
                 (PayloadReader.mk body 0)).1;
    Ok (staged', rest).
Proof.
  intros Hlen Hnew. pose proof (zlen_nonneg body). pose proof (zlen_nonneg rest).
  destruct (built_section_fields type body rest Hlen) as (Hsz & Ht & Hf & Hl & Hd).
  assert (Hskip : ∀ n, 0 ≤ n → drop_z (16 + n) (build_section type body ++ rest)
                     = drop_z n (body ++ put_u32 (crc32 body) ++ rest)).
  { intros n Hn. rewrite <- Hd. unfold drop_z. rewrite drop_drop. f_equal. lia. }
  unfold parse_section, Limits.kStateSectionHeaderSize. cbn zeta. rewrite Hsz, Ht, Hf, Hl, Hd.
  rewrite !(proj2 (Z.ltb_ge _ _)) by lia. cbn [reject_if negb Z.eqb].
  rewrite !Hskip by lia. replace (zlen body + 4 - 4) with (zlen body) by lia.
  rewrite take_z_app, !(drop_z_app _ body), Z.sub_diag, Z.add_simpl_l by (done || lia).
  change (drop_z 0 ?l) with l.
  assert (get_u32 (put_u32 (crc32 body) ++ rest) = crc32 body) as -> by apply get_put_le, crc32_range.
  rewrite Z.eqb_refl, bool_decide_eq_false_2 by done. cbn [negb reject_if_ctx].
  rewrite section_type_of_code. unfold put_u32.
  by rewrite drop_z_app, zlen_put_le by by rewrite zlen_put_le.
Qed.

(** Staging the bodies of sections in order, up to the first that fails. *)
Inductive stages (options : PersistenceOptions.t)
    : list (SectionType.t * list Z) → StagedState.t → result StagedState.t → Prop :=
| stages_nil staged : stages options [] staged (Ok staged)
| stages_cons type body sections staged staged1 r :
    SectionType.code type ∉ StagedState.seen_sections staged →
    (stage_section options type
       (staged <| StagedState.seen_sections ::= cons (SectionType.code type) |>)
       (PayloadReader.mk body 0)).1 = Ok staged1 →
    stages options sections staged1 r →
    stages options ((type, body) :: sections) staged r
| stages_fail type body sections staged e :
    SectionType.code type ∉ StagedState.seen_sections staged →
    (stage_section options type
       (staged <| StagedState.seen_sections ::= cons (SectionType.code type) |>)
       (PayloadReader.mk body 0)).1 = Err e →
    stages options ((type, body) :: sections) staged (Err e).

Lemma stages_parse options sections staged r :
  stages options sections staged r →
  Forall (λ x, zlen x.2 + 4 < 2 ^ 64) sections →
  let payload := concat ((λ x, build_section x.1 x.2) <$> sections) in
  parse_sections (length payload) options payload staged = r.
Proof.
  induction 1 as [staged|type body sections staged staged1 r Hnew Hstage _ IH
                 |type body sections staged e Hnew Hstage]; intros Hlen; [done|..];
    apply Forall_cons in Hlen as [Hb Hlen]; cbn zeta in *; cbn [fmap list_fmap concat fst snd];
    pose proof (parse_built_section options type body
      (concat ((λ x, build_section x.1 x.2) <$> sections)) staged Hb Hnew) as Hp;
    rewrite Hstage in Hp; cbn [mbind result_bind] in Hp.
  - rewrite (parse_sections_step _ _ _ _ _ Hp). by apply IH.
  - assert (∃ b rest, build_section type body
      ++ concat ((λ x, build_section x.1 x.2) <$> sections) = b :: rest) as (b & rest & E)
      by (eexists _, _; reflexivity).
    rewrite E in *. cbn [length parse_sections]. by rewrite Hp.
Qed.

(** Every section is shorter than the payload. *)
Lemma sections_sized sections n :
  zlen (concat ((λ x, build_section x.1 x.2) <$> sections)) ≤ n →
  n < 2 ^ 64 → Forall (λ x, zlen x.2 + 4 < 2 ^ 64) sections.
Proof.
  intros Hn Hmax. induction sections as [|[t b] sections IH]; [constructor|].
  cbn [fmap list_fmap concat fst snd] in Hn. rewrite zlen_app in Hn.
  assert (zlen (build_section t b) = 20 + zlen b) as E.
  { unfold build_section, put_u32, put_u64. rewrite !zlen_app, !zlen_put_le. lia. }
  pose proof (zlen_nonneg b). pose proof (zlen_nonneg (concat ((λ x, build_section x.1 x.2) <$> sections))).
  constructor; [simpl; lia|]. apply IH. unfold fmap in *. lia.
Qed.

#[global] Arguments written : simpl never.
#[global] Arguments save_table : simpl never.

Lemma finishes_stage {A} w (r : action _ A) a :
  finishes w r a → (r (PayloadReader.mk (written w) 0)).1 = Ok a.
Proof. intros H. by apply finishes_written. Qed.

(** The next section is staged by [finish], a section lemma. *)
Ltac next_section finish :=
  eapply stages_cons;
  [apply (bool_decide_unpack _); vm_compute; exact I
  |eapply finishes_stage, finish; reflexivity
  |].

Ltac structural_sections Hs :=
  next_section (meta_finishes _ _ Hs); next_section (nodes_finish _ _ Hs);
  next_section (processors_finish _ _ Hs); next_section (accelerators_finish _ _ Hs);
  next_section (memory_domains_finish _ _ Hs); next_section (coherence_domains_finish _ _ Hs);
  next_section (regions_finish _ _ Hs); next_section (topology_finishes _ _ Hs).

(** The next section is refused. *)
Ltac last_section refused :=
  eapply stages_fail;
  [apply (bool_decide_unpack _); vm_compute; exact I|apply refused; assumption].

Definition staging_start (s : State.t) : StagedState.t :=
  StagedState.empty
    <| StagedState.source_coordinator_epoch := State.coordinator_epoch s |>
    <| StagedState.source_observation_epoch := State.observation_epoch s |>.

Lemma stages_saved options s :
  durable options s → within_bounds options s →
  stages options (state_sections options s) (staging_start s) (Ok (staged_of options s)).
Proof.
  intros Hs (Hw & Hc & Hbuckets). unfold state_sections, staged_of. cbn [app]. structural_sections Hs.
  next_section (watermarks_finish _ _ Hs Hw).
  next_section (capabilities_finish _ _ Hs Hc).
  next_section (cost_model_finishes _ _ Hs).
  unfold saved_record_count, state_sections.
  destruct (PersistenceOptions.include_history options) eqn:Eh; [|apply stages_nil].
  pose proof (Hbuckets eq_refl) as Hb.
  next_section (historical_aggregates_finish _ _ Hs Hb). next_section (history_finishes _ _ Hs).
  destruct (dur_options _ _ Hs) as [Hm _].
  pose proof (zlen_nonneg (saved_buckets options s)). pose proof (zlen_nonneg (saved_history options s)).
  assert (zlen (saved_history options s) ≤ PersistenceOptions.max_history_records options)
    by (unfold saved_history, zlen; rewrite length_take; lia).
  unfold Limits.kMaxHistoryAggregates in *.
  replace (zlen (saved_history options s) + zlen (saved_buckets options s))
    with (u64_add (u64_add 0 (zlen (saved_buckets options s))) (zlen (saved_history options s)));
    [apply stages_nil|].
  rewrite (u64_add_small 0) by (unfold in_u64, u64_max; lia).
  rewrite u64_add_small by (unfold in_u64, u64_max; lia). lia.
Qed.

(** What stands in a file over the bounds of the load. *)
Lemma stages_refused options s :
  durable options s →
  ¬ within_bounds options s →
  ∃ e, Error.code e = ErrorCode.CorruptState
    ∧ stages options (state_sections options s) (staging_start s) (Err e).
Proof.
  unfold within_bounds. intros Hs Hn. unfold state_sections. cbn [app].
  destruct (decide (Limits.kMaxPublisherWatermarks < zsize (saved_watermarks s))) as [Hw|Hw%Z.nlt_ge].
  { eexists. split; [|structural_sections Hs; last_section (watermarks_refused _ _ Hs)]. done. }
  destruct (decide (256 < zsize (State.capabilities s))) as [Hc|Hc%Z.nlt_ge].
  { eexists. split; [|structural_sections Hs; next_section (watermarks_finish _ _ Hs Hw);
                      last_section (capabilities_refused _ _ Hs)]. done. }
  destruct (PersistenceOptions.include_history options); [|by destruct Hn].
  assert (Limits.kMaxHistoryAggregates < zlen (saved_buckets options s)) as Hb.
  { apply Z.nle_gt. intros Hb. by apply Hn. }
  eexists. split; [|structural_sections Hs; next_section (watermarks_finish _ _ Hs Hw);
                    next_section (capabilities_finish _ _ Hs Hc); next_section (cost_model_finishes _ _ Hs);
                    last_section (historical_aggregates_refused _ _ Hs)]. done.
Qed.

(** ** The envelope *)

Lemma header_fields_length size coordinator observation records :
  zlen (state_header_fields size coordinator observation records) = 48.
Proof. unfold state_header_fields, put_u32, put_u64. by rewrite !zlen_app, !zlen_put_le. Qed.

(** The header's fields, at the offsets the parser looks. *)
Lemma header_layout size coordinator observation records post :
  in_uint 64 size → in_uint 64 coordinator → in_uint 64 observation → in_uint 64 records →
  let data := state_header_fields size coordinator observation records ++ post in
  take 8 data = kStateMagic
  ∧ get_u32 (drop_z 8 data) = Limits.kStateVersion ∧ get_u32 (drop_z 12 data) = 0
  ∧ get_u64 (drop_z 16 data) = size
  ∧ get_u64 (drop_z 24 data) = coordinator ∧ get_u64 (drop_z 32 data) = observation
  ∧ get_u64 (drop_z 40 data) = records
  ∧ drop_z 48 data = post.
Proof.
  intros Hs Hc Ho Hr. cbn zeta. unfold state_header_fields, put_u32, put_u64. rewrite <- !app_assoc.
  assert (Hm : zlen kStateMagic = 8) by done.
  split_and!;
    try (rewrite drop_z_app by (rewrite Hm; lia); rewrite Hm; skip_fields;
         solve [reflexivity | apply get_put_le; assumption | apply get_put_le; unfold in_uint; lia]).
  apply take_app_length'. reflexivity.
Qed.

(** The checksum field, what precedes and what follows it. *)
Lemma header_split fields c post :
  zlen fields = 48 → in_uint 32 c →
  let reserved := put_u32 0 ++ put_u64 0 in
  let data := fields ++ put_u32 c ++ reserved ++ post in
  zlen data = 64 + zlen post ∧ get_u32 (drop_z 48 data) = c ∧ drop_z 64 data = post
  ∧ zero_header_crc (take_z 64 data) = fields ++ put_u32 0 ++ reserved.
Proof.
  intros Hf Hc. cbn zeta. unfold put_u32, put_u64. rewrite <- !app_assoc.
  assert (Hf' : length fields = 48%nat) by (unfold zlen in Hf; lia). split_and!.
  - rewrite !zlen_app, !zlen_put_le, Hf. lia.
  - rewrite drop_z_app, Hf by lia. by apply get_put_le.
  - rewrite drop_z_app, Hf by lia. by skip_fields.
  - rewrite !(app_assoc fields), !(app_assoc _ _ post), take_z_app
      by (rewrite !zlen_app, !zlen_put_le, Hf; lia).
    unfold zero_header_crc. rewrite <- !app_assoc.
    rewrite take_app_length' by done. f_equal. f_equal.
    rewrite (drop_app_ge fields) by lia. rewrite Hf'. by rewrite drop_app_length'.
Qed.

(** ** The referential checks *)

Lemma check_references_ok {R T} (target : R → string) (m : gmap string T) message (rs : gmap string R) :
  check_references target m message rs = Ok tt ↔ map_Forall (λ _, known target m) rs.
Proof.
  unfold check_references. destruct (List.find _ _) as [[k r]|] eqn:E; split; try done.
  - intros Hk. apply List.find_some in E as [Hin Hd].
    apply list_elem_of_In, elem_of_entries in Hin. specialize (Hk _ _ Hin).
    unfold dangling in Hd. simpl in Hd. apply andb_true_iff in Hd as [Hn Hu].
    apply bool_decide_eq_true in Hu. destruct Hk as [Hk|[x Hk]]; [by rewrite Hk in Hn|congruence].
  - intros _ k r Hkr. unfold known.
    assert (dangling target m (k, r) = false) as Hd.
    { eapply List.find_none; [exact E|]. by apply list_elem_of_In, elem_of_entries. }
    unfold dangling in Hd. simpl in Hd. destruct (sempty (target r)); [by left|right].
    apply bool_decide_eq_false in Hd. by apply not_eq_None_Some.
Qed.

Lemma check_staged_saved options s :
  durable options s →
  check_staged (saved_record_count options s) (staged_of options s) = Ok tt ↔ references_known s.
Proof.
  intros Hs. unfold check_staged, references_known. cbn [staged_of StagedState.has_meta StagedState.record_count negb].
  rewrite Z.eqb_refl. cbn [negb reject_if reject_if_ctx].
  rewrite !seq_Ok, !check_references_ok, reject_if_Ok. cbn. rewrite map_Forall_fmap.
  assert (existsb (λ l, resource_empty (TopologyLink.from l) || resource_empty (TopologyLink.to l))
    (TopologyRecord.links (State.topology s)) = false) as Hl.
  { destruct (dur_links _ _ Hs) as [Hl _].
    induction Hl as [|l ls Hl _ IH]; [done|]. destruct Hl as (_ & _ & E1 & E2 & _).
    cbn [existsb]. by rewrite E1, E2. }
  rewrite Hl. split; [by intros (_ & _ & H1 & H2 & H3 & _)|by intros (H1 & H2 & H3)].
Qed.

(** Its failures report corruption. *)
Lemma check_staged_code n staged e :
  check_staged n staged = Err e → Error.code e = ErrorCode.CorruptState.
Proof.
  unfold check_staged, check_references, reject_if, reject_if_ctx, fail, fail_ctx. intros H.
  repeat match type of H with
         | context [if ?b then _ else _] => destruct b; [by injection H as <-|]; cbn in H
         | context [match List.find ?f ?l with _ => _ end] =>
             destruct (List.find f l); [by injection H as <-|]; cbn in H
         end. done.
Qed.

(** ** A saved file is staged as it was saved *)

Lemma saved_record_count_uint options s :
  durable options s → in_uint 64 (saved_record_count options s).
Proof.
  intros Hs. unfold saved_record_count. destruct (PersistenceOptions.include_history options); [|done].
  destruct (dur_options _ _ Hs) as [Hm _].
  pose proof (zlen_nonneg (saved_buckets options s)). pose proof (zlen_nonneg (saved_history options s)).
  assert (zlen (saved_history options s) ≤ PersistenceOptions.max_history_records options
    ∧ zlen (saved_buckets options s) ≤ PersistenceOptions.max_history_records options)
    by (unfold saved_history, saved_buckets, zlen; rewrite !length_take; lia).
  unfold in_uint in *. lia.
Qed.

Definition state_trailer (payload : list Z) : list Z :=
  kStateTrailerMagic ++ put_u32 (crc32 payload) ++ put_u32 0.

Lemma trailer_layout payload :
  zlen (state_trailer payload) = 16 ∧ take 8 (state_trailer payload) = kStateTrailerMagic
  ∧ get_u32 (drop_z 8 (state_trailer payload)) = crc32 payload.
Proof.
  unfold state_trailer, put_u32. split_and!.
  - by rewrite !zlen_app, !zlen_put_le.
  - by apply take_app_length'.
  - rewrite drop_z_app by done. apply get_put_le, crc32_range.
Qed.

(** The envelope of a built file is accepted: what is left is its sections. *)
Lemma parse_envelope options payload coordinator observation records :
  zlen payload ≤ PersistenceOptions.max_bytes options → PersistenceOptions.max_bytes options < 2 ^ 63 →
  in_uint 64 coordinator → in_uint 64 observation → in_uint 64 records →
  parse_state options
    (state_header (zlen payload) coordinator observation records ++ payload ++ state_trailer payload)
  = (staged ← parse_sections (length payload) options payload
       (StagedState.empty <| StagedState.source_coordinator_epoch := coordinator |>
                          <| StagedState.source_observation_epoch := observation |>);
     check_staged records staged;; Ok staged).
Proof.
  intros Hsize Hmax Hc Ho Hr. pose proof (zlen_nonneg payload) as H0.
  assert (Hp : in_uint 64 (zlen payload)) by (unfold in_uint; lia).
  destruct (trailer_layout payload) as (Ht & T1 & T2).
  set (trailer := state_trailer payload) in *. clearbody trailer.
  unfold state_header. set (fields := state_header_fields _ _ _ _).
  set (c := crc32 (fields ++ put_u32 0 ++ _)).
  rewrite <- !app_assoc, (app_assoc (put_u32 0)).
  destruct (header_layout (zlen payload) coordinator observation records
    (put_u32 c ++ (put_u32 0 ++ put_u64 0) ++ payload ++ trailer) Hp Hc Ho Hr)
    as (L1 & L2 & L3 & L4 & L5 & L6 & L7 & _).
  destruct (header_split fields c (payload ++ trailer) (header_fields_length _ _ _ _)
    (crc32_range _)) as (S1 & S2 & S3 & S4).
  fold fields in L1, L2, L3, L4, L5, L6, L7.
  set (data := fields ++ put_u32 c ++ (put_u32 0 ++ put_u64 0) ++ payload ++ trailer) in *.
  clearbody data. rewrite zlen_app, Ht in S1.
  assert (Hd : drop_z (64 + zlen payload) data = trailer).
  { assert (drop_z (64 + zlen payload) data = drop_z (zlen payload) (drop_z 64 data)) as ->.
    { unfold drop_z. rewrite drop_drop. f_equal. lia. }
    rewrite S3, drop_z_app, Z.sub_diag by lia. done. }
  unfold parse_state. cbn zeta. unfold Limits.kStateHeaderSize, Limits.kStateTrailerSize.
  rewrite L1, L2, L3, L4, L5, L6, L7, S1, S2, S4.
  rewrite (wrap64_small (64 + zlen payload + 16)) by (unfold in_u64, u64_max; lia).
  rewrite Hd, S3, take_z_app, T1, T2 by done.
  rewrite !(proj2 (Z.ltb_ge _ _)) by lia.
  rewrite !bool_decide_eq_true_2 by done. fold c. by rewrite !Z.eqb_refl.
Qed.

(** Parsing a saved file is staging its sections and checking the references. *)
Lemma parse_saved options s r :
  durable options s → stages options (state_sections options s) (staging_start s) r →
  parse_state options (state_file options s)
  = staged ← r; check_staged (saved_record_count options s) staged;; Ok staged.
Proof.
  intros Hs Hstages. destruct (dur_options _ _ Hs) as [_ Hmax]. pose proof (dur_size _ _ Hs) as Hsize.
  destruct (dur_epochs _ _ Hs) as [Hc Ho].
  pose proof (stages_parse _ _ _ _ Hstages (sections_sized _ _ Hsize ltac:(lia))) as Hp.
  cbn zeta in Hp. fold (state_payload options s) in Hp.
  unfold state_file. fold (state_trailer (state_payload options s)).
  unfold staging_start in Hp.
  by rewrite parse_envelope, Hp; [|done..|by apply saved_record_count_uint].
Qed.

Lemma parse_state_file options s :
  durable options s → loadable options s →
  parse_state options (state_file options s) = Ok (staged_of options s).
Proof.
  intros Hs [Hb Hr]. rewrite (parse_saved _ _ _ Hs (stages_saved _ _ Hs Hb)). cbn [mbind result_bind].
  by rewrite (proj2 (check_staged_saved _ _ Hs)).
Qed.

Lemma parse_state_file_refused options s :
  durable options s → ¬ loadable options s →
  code_of (parse_state options (state_file options s)) = ErrorCode.CorruptState.
Proof.
  intros Hs Hn. destruct (decide (within_bounds options s)) as [Hb|Hb].
  - rewrite (parse_saved _ _ _ Hs (stages_saved _ _ Hs Hb)). cbn [mbind result_bind].
    destruct (check_staged _ _) as [[]|e] eqn:E; [|by eapply check_staged_code].
    destruct Hn. split; [done|]. by apply (check_staged_saved options).
  - destruct (stages_refused _ _ Hs Hb) as (e & He & Hstages).
    by rewrite (parse_saved _ _ _ Hs Hstages).
Qed.

(** ** Deciding whether a state fits *)

#[global] Instance all_chars_dec (P : Ascii.ascii → Prop) `{∀ c, Decision (P c)} s : Decision (all_chars P s).
Proof. induction s as [|c s IH]; simpl; apply _. Defined.
#[global] Instance valid_token_dec s : Decision (valid_token s).
Proof. unfold valid_token. apply _. Defined.
#[global] Instance name_fits_dec s : Decision (name_fits s).
Proof. unfold name_fits. apply _. Defined.
#[global] Instance short_dec s : Decision (short s).
Proof. unfold short. apply _. Defined.
#[global] Instance annotation_fits_dec s : Decision (annotation_fits s).
Proof. unfold annotation_fits. apply _. Defined.
#[global] Instance in_i64_dec v : Decision (in_i64 v).
Proof. unfold in_i64. apply _. Defined.
#[global] Instance enum_fits_dec {E} `{EqDecision E} (code : E → Z) of_code max e :
  Decision (enum_fits code of_code max e).
Proof. unfold enum_fits. apply _. Defined.
#[global] Instance durable_node_dec r : Decision (durable_node r).
Proof. unfold durable_node. apply _. Defined.
#[global] Instance durable_processor_dec r : Decision (durable_processor r).
Proof. unfold durable_processor. apply _. Defined.
#[global] Instance durable_accelerator_dec r : Decision (durable_accelerator r).
Proof. unfold durable_accelerator. apply _. Defined.
#[global] Instance durable_memory_domain_dec r : Decision (durable_memory_domain r).
Proof. unfold durable_memory_domain. apply _. Defined.
#[global] Instance durable_ref_dec r : Decision (durable_ref r).
Proof. unfold durable_ref. apply _. Defined.
#[global] Instance durable_coherence_domain_dec r : Decision (durable_coherence_domain r).
Proof. unfold durable_coherence_domain. apply _. Defined.
#[global] Instance durable_region_dec r : Decision (durable_region r).
Proof. unfold durable_region. apply _. Defined.
#[global] Instance durable_link_dec l : Decision (durable_link l).
Proof. unfold durable_link. apply _. Defined.
#[global] Instance durable_watermark_dec w : Decision (durable_watermark w).
Proof. unfold durable_watermark. apply _. Defined.
#[global] Instance durable_capability_dec c : Decision (durable_capability c).
Proof. unfold durable_capability. apply _. Defined.
#[global] Instance result_unit_ok_dec (r : result unit) : Decision (r = Ok tt).
Proof. destruct r as [[]|e]; [left; reflexivity|right; discriminate]. Defined.
#[global] Instance durable_cost_model_dec m : Decision (durable_cost_model m).
Proof. unfold durable_cost_model. apply _. Defined.
#[global] Instance durable_bucket_dec e : Decision (durable_bucket e).
Proof. unfold durable_bucket. apply _. Defined.
#[global] Instance durable_history_dec r : Decision (durable_history r).
Proof. unfold durable_history. apply _. Defined.

#[global] Typeclasses Opaque valid_token name_fits short annotation_fits in_i64 in_uint enum_fits
  is_byte is_bytes known within_bounds references_known loadable durable_node durable_processor
  durable_accelerator durable_memory_domain durable_ref durable_coherence_domain durable_region
  durable_link durable_watermark durable_capability durable_cost_model durable_bucket
  durable_history.

(** Checks that a concrete state fits, field by field. *)
Ltac check_durable := constructor; apply (bool_decide_unpack _); vm_compute; exact I.
