(* ===== verification/Persistence.v ===== *)
(** * Saving and loading

    [detail::save_state] and [detail::load_state] of [src/persistence.cpp], which
    the [Observatory] methods of the same names call under the mutex.  The file
    system is a parameter: what [write_file_atomic], [fopen] and [fwrite] report
    on a save, and the bytes (or the failure) [read_file_bounded] returns on a
    load. *)

From S2P Require Import Prelude Errors Checked TextUtil Ids Taxonomy Cost Records Observation Aggregate Sequence State.
From S2P Require Import Attribution Registry Publishers Ingest Counters System Codec Protocol Transport Wire.
From S2P Require Import StateFile StateRoundTrip.

Module PersistenceReport.
Record t := mk {
  bytes_written : Z; bytes_read : Z; sections : Z; regions : Z; processors : Z;
  accelerators : Z; memory_domains : Z; coherence_domains : Z; topology_links : Z;
  publisher_watermarks : Z; history_records : Z; history_aggregates : Z;
  source_coordinator_epoch : Z; next_coordinator_epoch : Z; atomic_replacement : bool;
}.
End PersistenceReport.

(** What the file system answers: the status of [write_file_atomic], or, without
    atomic replacement, whether [fopen] succeeded and how many bytes [fwrite]
    put. *)
Record FileSystem := mkFileSystem {
  write_file_atomic : list Z → result unit;
  fopen_succeeds : bool;
  fwrite_count : list Z → Z;
  path_string : string;
}.

Definition write_output (fs : FileSystem) (options : PersistenceOptions.t) (output : list Z)
    : result unit :=
  if PersistenceOptions.atomic_replace options then write_file_atomic fs output
  else
    reject_if_ctx (negb (fopen_succeeds fs)) ErrorCode.IoError "cannot open state file"
      (path_string fs);;
    reject_if_ctx (negb (fwrite_count fs output =? zlen output)) ErrorCode.IoError
      "short write to state file" (path_string fs).

Definition save_state (fs : FileSystem) (options : PersistenceOptions.t) (s : State.t)
    : result PersistenceReport.t :=
  let output := state_file options s in
  let history := PersistenceOptions.include_history options in
  write_output fs options output;;
  Ok {| PersistenceReport.bytes_written := zlen output;
        PersistenceReport.bytes_read := 0;
        PersistenceReport.sections := zlen (state_sections options s);
        PersistenceReport.regions := zsize (State.regions s);
        PersistenceReport.processors := zsize (State.processors s);
        PersistenceReport.accelerators := zsize (State.accelerators s);
        PersistenceReport.memory_domains := zsize (State.memory_domains s);
        PersistenceReport.coherence_domains := zsize (State.coherence_domains s);
        PersistenceReport.topology_links := zlen (TopologyRecord.links (State.topology s));
        PersistenceReport.publisher_watermarks := zsize (saved_watermarks s);
        PersistenceReport.history_records :=
          if history then zlen (saved_history options s) else 0;
        PersistenceReport.history_aggregates :=
          if history then zlen (saved_buckets options s) else 0;
        PersistenceReport.source_coordinator_epoch := State.coordinator_epoch s;
        PersistenceReport.next_coordinator_epoch := State.coordinator_epoch s;
        PersistenceReport.atomic_replacement := PersistenceOptions.atomic_replace options |}.

(** ** Recovery *)

Definition or_else (staged current : string) : string := if sempty staged then current else staged.

Definition recover_options (staged : StagedState.t) (o : ObservatoryOptions.t) : ObservatoryOptions.t :=
  o <| ObservatoryOptions.observer_id ::= or_else (StagedState.observer_id staged) |>
    <| ObservatoryOptions.node_id ::= or_else (StagedState.node_id staged) |>
    <| ObservatoryOptions.display_name ::= or_else (StagedState.display_name staged) |>
    <| ObservatoryOptions.time_bucket_ns ::= λ current,
         if 0 <? StagedState.time_bucket_ns staged then StagedState.time_bucket_ns staged else current |>
    <| ObservatoryOptions.cost_model ::= λ current,
         if StagedState.has_cost_model staged then StagedState.cost_model staged else current |>.

(** A watermark read from a file bars nobody and belongs to the restart. *)
Definition restart_watermark (w : PublisherWatermark.t) : PublisherWatermark.t :=
  w <| PublisherWatermark.fenced := false |>
    <| PublisherWatermark.fence_reason := FenceReason.CoordinatorRestart |>.

Definition recover_watermarks (staged : StagedState.t) : gmap string PublisherWatermark.t :=
  let ws := restart_watermark <$> StagedState.watermarks staged in
  trim_watermarks (size ws) ws.

(** The part of [load_state] behind the acceptance of the file; [now1] and [now2]
    are its two clock readings. *)
Definition recover (now1 now2 : Z) (staged : StagedState.t) (s : State.t) : State.t :=
  let epoch := next_id (StagedState.source_coordinator_epoch staged) in
  let s :=
    s <| State.coordinator_epoch := epoch |>
      <| State.observation_epoch := u64_add (StagedState.source_observation_epoch staged) 1 |>
      <| State.options ::= recover_options staged |>
      <| State.nodes := StagedState.nodes staged |>
      <| State.processors := StagedState.processors staged |>
      <| State.accelerators := StagedState.accelerators staged |>
      <| State.memory_domains := StagedState.memory_domains staged |>
      <| State.coherence_domains := StagedState.coherence_domains staged |>
      <| State.regions := mark_loaded <$> StagedState.regions staged |>
      <| State.topology := TopologyRecord.mk (StagedState.topology_generation staged)
           (StagedState.links staged) now1 true |>
      <| State.topology_generation := StagedState.topology_generation staged |>
      <| State.evidence_generation := or_one (StagedState.evidence_generation staged) |>
      <| State.watermarks := recover_watermarks staged |>
      <| State.capabilities ::= λ current, StagedState.capabilities staged ∪ current |>
      <| State.historical_aggregates ::= AggregateStore.restore (StagedState.historical_aggregates staged) |>
      <| State.history := StagedState.history staged |>
      <| State.historical_observation_count := StagedState.record_count staged |>
      <| State.history_source_epoch := StagedState.source_coordinator_epoch staged |>
      <| State.aggregates ::= AggregateStore.clear |>
      <| State.journal := [] |>
      <| State.region_evidence := ∅ |>
      <| State.region_evidence_order := [] |>
      <| State.counters := ∅ |>
      <| State.publishers := ∅ |>
      <| State.stale := [] |> in
  record_stale
    (StaleEvidenceRecord.empty
       <| StaleEvidenceRecord.kind := StaleEvidenceRecord.StaleEpoch |>
       <| StaleEvidenceRecord.observed_at_ns := now2 |>
       <| StaleEvidenceRecord.detail :=
            "coordinator epoch advanced to " +:+ format_u64 epoch +:+
            " by durable recovery; prior publishers are not current and must re-register" |>) s.

Definition load_report (data : list Z) (staged : StagedState.t) : PersistenceReport.t := {|
  PersistenceReport.bytes_written := 0;
  PersistenceReport.bytes_read := zlen data;
  PersistenceReport.sections := 0;
  PersistenceReport.regions := zsize (StagedState.regions staged);
  PersistenceReport.processors := zsize (StagedState.processors staged);
  PersistenceReport.accelerators := zsize (StagedState.accelerators staged);
  PersistenceReport.memory_domains := zsize (StagedState.memory_domains staged);
  PersistenceReport.coherence_domains := zsize (StagedState.coherence_domains staged);
  PersistenceReport.topology_links := zlen (StagedState.links staged);
  PersistenceReport.publisher_watermarks := zsize (StagedState.watermarks staged);
  PersistenceReport.history_records := zlen (StagedState.history staged);
  PersistenceReport.history_aggregates := zsize (StagedState.historical_aggregates staged);
  PersistenceReport.source_coordinator_epoch := StagedState.source_coordinator_epoch staged;
  PersistenceReport.next_coordinator_epoch := next_id (StagedState.source_coordinator_epoch staged);
  PersistenceReport.atomic_replacement := true |}.

(** [file] is what [read_file_bounded] returns. *)
Definition load_state (now1 now2 : Z) (file : result (list Z)) (options : PersistenceOptions.t)
    (s : State.t) : State.t * result PersistenceReport.t :=
  match file with
  | Err e => (s, Err e)
  | Ok data =>
      match parse_state options data with
      | Err e => (s, Err e)
      | Ok staged => (recover now1 now2 staged s, Ok (load_report data staged))
      end
  end.

(** ** Damage

    The facts the parser checks of the envelope of [data]; the payload length is
    determined by the size of the file. *)

Record intact (data : list Z) : Prop := {
  intact_size : (80 ≤ length data)%nat;
  intact_magic : take 8 data = kStateMagic;
  intact_header : crc32 (zero_header_crc (take 64 data)) = get_le 4 (drop 48 data);
  intact_end : take 8 (drop (length data - 16) data) = kStateTrailerMagic;
  intact_payload : crc32 (take (length data - 80) (drop 64 data))
                     = get_le 4 (drop (length data - 8) data);
}.

Lemma parse_state_intact options data staged :
  is_bytes data → PersistenceOptions.max_bytes options < 2 ^ 63 →
  parse_state options data = Ok staged → intact data.
Proof.
  intros Hb Hmax. unfold parse_state. cbn zeta. intros H.
  repeat match type of H with
         | (reject_if _ _ _ ;; _) = Ok _ => apply seq_Ok in H as [?%reject_if_Ok H]
         | (reject_if_ctx _ _ _ _ ;; _) = Ok _ => apply seq_Ok in H as [?%reject_if_ctx_Ok H]
         end.
  clear H. unfold Limits.kStateHeaderSize, Limits.kStateTrailerSize, take_z, drop_z in *.
  change (Z.to_nat 64) with 64%nat in *. change (Z.to_nat 48) with 48%nat in *.
  change (Z.to_nat 16) with 16%nat in *. change (Z.to_nat 8) with 8%nat in *.
  assert (Hlen : (80 ≤ length data)%nat) by (unfold zlen in *; lia).
  assert (Hn : in_uint 64 (get_u64 (drop 16 data))).
  { apply get_le_range; [by apply is_bytes_drop|rewrite length_drop; lia]. }
  set (n := get_u64 (drop 16 data)) in *. clearbody n.
  rewrite wrap64_small in * by (unfold in_u64, u64_max, in_uint in *; lia).
  assert (Hsize : n = Z.of_nat (length data - 80)) by (unfold zlen, in_uint in *; lia).
  rewrite Hsize in *. rewrite drop_drop in *.
  replace (Z.to_nat (Z.of_nat (length data - 80))) with (length data - 80)%nat in * by lia.
  replace (Z.to_nat (64 + Z.of_nat (length data - 80))) with (length data - 16)%nat in * by lia.
  replace (length data - 16 + 8)%nat with (length data - 8)%nat in * by lia.
  rewrite negb_false_iff, ?bool_decide_eq_true, ?Z.eqb_eq in *.
  by constructor.
Qed.

(** A field read from a buffer with one byte replaced. *)
Lemma get_le_insert_other n k i c l :
  (k + n ≤ length l)%nat → (i < k ∨ k + n ≤ i)%nat →
  get_le n (drop k (<[i := c]> l)) = get_le n (drop k l).
Proof.
  intros Hl [Hi|Hi]; [by rewrite drop_insert_lt|].
  rewrite drop_insert_ge by lia.
  rewrite <- get_le_take, take_insert_ge, get_le_take; [done|rewrite ?length_insert, ?length_drop; lia..].
Qed.

Lemma get_le_insert_same n k i c l :
  is_bytes l → is_byte c → (k ≤ i < k + n)%nat → (k + n ≤ length l)%nat →
  get_le n (drop k (<[i := c]> l)) = get_le n (drop k l) → l !! i = Some c.
Proof.
  intros Hb Hc Hi Hl E. apply (f_equal (put_le n)) in E.
  rewrite !put_get_le in E; try (rewrite ?length_drop, ?length_insert; lia);
    [|by apply is_bytes_drop|apply is_bytes_drop, Forall_insert; done].
  apply (f_equal (lookup (i - k)%nat)) in E.
  rewrite !lookup_take_lt, !lookup_drop in E by lia.
  replace (k + (i - k))%nat with i in E by lia.
  rewrite list_lookup_insert_eq in E by lia. done.
Qed.

Lemma crc32_insert i c l :
  is_bytes l → is_byte c → (i < length l)%nat → crc32 (<[i := c]> l) = crc32 l → l !! i = Some c.
Proof.
  intros Hb Hc Hi E. destruct (lookup_lt_is_Some_2 _ _ Hi) as [b Hlb].
  rewrite insert_take_drop in E by done. rewrite <- (take_drop_middle l i b Hlb) in E at 3.
  apply crc32_single_byte in E as ->; [done..|]. by eapply Forall_lookup_1 in Hlb.
Qed.

(** The header with one byte replaced, outside and inside its checksum field. *)
Lemma zero_header_insert i c h :
  length h = 64%nat → (i < 48 ∨ 52 ≤ i)%nat →
  zero_header_crc (<[i := c]> h) = <[i := c]> (zero_header_crc h).
Proof.
  intros Hh Hi. unfold zero_header_crc. destruct Hi as [Hi|Hi].
  - rewrite take_insert_lt, drop_insert_lt by lia.
    by rewrite (insert_app_l (take 48 h)) by (rewrite length_take; lia).
  - rewrite take_insert_ge, drop_insert_ge by lia.
    rewrite (insert_app_r_alt (take 48 h)), (insert_app_r_alt (put_u32 0))
      by (unfold put_u32; rewrite ?length_take, ?put_le_length; lia).
    do 3 f_equal. unfold put_u32. rewrite length_take, put_le_length. lia.
Qed.
Lemma zero_header_insert_crc i c h :
  (48 ≤ i < 52)%nat → zero_header_crc (<[i := c]> h) = zero_header_crc h.
Proof. intros Hi. unfold zero_header_crc. by rewrite take_insert_ge, drop_insert_lt by lia. Qed.

Lemma zero_header_lookup i h :
  length h = 64%nat → (i < 48 ∨ 52 ≤ i)%nat → zero_header_crc h !! i = h !! i.
Proof.
  intros Hh Hi. unfold zero_header_crc.
  assert (Hl : length (take 48 h) = 48%nat) by (rewrite length_take; lia).
  assert (Hz : length (put_u32 0) = 4%nat) by apply put_le_length.
  destruct Hi as [Hi|Hi]; [by rewrite lookup_app_l, lookup_take_lt by lia|].
  rewrite lookup_app_r, lookup_app_r, lookup_drop by lia. f_equal. lia.
Qed.

Lemma zero_header_bytes h : is_bytes h → is_bytes (zero_header_crc h).
Proof.
  intros Hh. unfold zero_header_crc, is_bytes. rewrite !Forall_app.
  split_and!; [by apply is_bytes_take|apply put_le_bytes|by apply is_bytes_drop].
Qed.

(** Of two intact files that differ in at most one byte, the byte lies in the
    reserved field at the end or does not differ. *)
Lemma intact_one_byte data i c :
  is_bytes data → is_byte c → (i < length data - 4)%nat →
  intact data → intact (<[i := c]> data) → data !! i = Some c.
Proof.
  intros Hb Hc Hi [Hsz Hm Hh He Hp] [_ Hm' Hh' He' Hp'].
  rewrite length_insert in *. set (n := length data) in *.
  destruct (decide (i < 8)%nat) as [H8|H8].
  { rewrite <- (lookup_take_lt data 8) by lia. rewrite Hm, <- Hm', lookup_take_lt by lia.
    apply list_lookup_insert_eq. lia. }
  destruct (decide (i < 64)%nat) as [H64|H64].
  { rewrite take_insert_lt in Hh' by lia.
    assert (Hl : length (take 64 data) = 64%nat) by (rewrite length_take; lia).
    destruct (decide (48 ≤ i < 52)%nat) as [Hcrc|Hcrc].
    - rewrite zero_header_insert_crc, Hh in Hh' by done.
      apply (get_le_insert_same 4 48); [done..|lia|done].
    - rewrite zero_header_insert, get_le_insert_other, <- Hh in Hh' by lia.
      apply crc32_insert in Hh'; [|by apply zero_header_bytes, is_bytes_take|done|].
      + rewrite zero_header_lookup, lookup_take_lt in Hh' by lia. done.
      + unfold zero_header_crc. rewrite !length_app, length_take, length_drop, Hl. simpl. lia. }
  destruct (decide (n - 16 ≤ i < n - 8)%nat) as [Hmagic|Hmagic].
  { rewrite drop_insert_ge, take_insert_lt, He in He' by lia.
    apply (f_equal (lookup (i - (n - 16))%nat)) in He'.
    rewrite list_lookup_insert_eq in He' by (change (length kStateTrailerMagic) with 8%nat; lia).
    rewrite <- He, lookup_take_lt, lookup_drop in He' by lia.
    by replace (n - 16 + (i - (n - 16)))%nat with i in He' by lia. }
  destruct (decide (i < n - 16)%nat) as [Hin|Hout].
  - rewrite drop_insert_ge, take_insert_lt, get_le_insert_other, <- Hp in Hp' by lia.
    apply crc32_insert in Hp'; [|by apply is_bytes_take, is_bytes_drop|done|].
    + rewrite lookup_take_lt, lookup_drop in Hp' by lia.
      by replace (64 + (i - 64))%nat with i in Hp' by lia.
    + rewrite length_take, length_drop. lia.
  - rewrite drop_insert_ge, take_insert_ge, Hp in Hp' by lia.
    apply (get_le_insert_same 4 (n - 8)); [done..|lia|lia|done].
Qed.

(** ** Restarts *)

Lemma recover_watermarks_saved options s :
  loadable options s →
  recover_watermarks (staged_of options s) = restart_watermark <$> saved_watermarks s.
Proof.
  intros [(Hw & _) _]. unfold recover_watermarks. cbn [staged_of StagedState.watermarks].
  apply trim_watermarks_id. unfold zsize in *. by rewrite map_size_fmap.
Qed.

Lemma load_saved now1 now2 options s s0 :
  durable options s → loadable options s →
  load_state now1 now2 (Ok (state_file options s)) options s0
  = (recover now1 now2 (staged_of options s) s0, Ok (load_report (state_file options s) (staged_of options s))).
Proof. intros Hs Hl. unfold load_state. by rewrite parse_state_file. Qed.

(** The state a restart leaves: [s] saved, and loaded into [s0]. *)
Definition restart (now1 now2 : Z) (options : PersistenceOptions.t) (s s0 : State.t) : State.t :=
  (load_state now1 now2 (Ok (state_file options s)) options s0).1.

Lemma mark_loaded_twice (m : gmap string RegionRecord.t) : mark_loaded <$> (mark_loaded <$> m) = mark_loaded <$> m.
Proof. rewrite <- map_fmap_compose. by apply map_fmap_ext. Qed.

(** A load read what the save wrote and counted the same records. *)
Definition same_counts (w r : PersistenceReport.t) : Prop :=
  PersistenceReport.bytes_read r = PersistenceReport.bytes_written w
  ∧ PersistenceReport.regions r = PersistenceReport.regions w
  ∧ PersistenceReport.processors r = PersistenceReport.processors w
  ∧ PersistenceReport.accelerators r = PersistenceReport.accelerators w
  ∧ PersistenceReport.memory_domains r = PersistenceReport.memory_domains w
  ∧ PersistenceReport.coherence_domains r = PersistenceReport.coherence_domains w
  ∧ PersistenceReport.topology_links r = PersistenceReport.topology_links w
  ∧ PersistenceReport.publisher_watermarks r = PersistenceReport.publisher_watermarks w
  ∧ PersistenceReport.history_records r = PersistenceReport.history_records w
  ∧ PersistenceReport.history_aggregates r = PersistenceReport.history_aggregates w
  ∧ PersistenceReport.source_coordinator_epoch r = PersistenceReport.source_coordinator_epoch w.

Lemma saved_buckets_count options s :
  zsize (list_to_map (M := gmap AggregateKey.t AggregateValue.t)
           (prod_map id bucket_durable_form <$> saved_buckets options s))
  = zlen (saved_buckets options s).
Proof.
  unfold zsize, zlen. rewrite <- length_map_to_list, map_to_list_to_map; [by rewrite length_fmap|].
  rewrite <- list_fmap_compose. unfold saved_buckets. rewrite fmap_take.
  eapply sublist_NoDup; [|apply sublist_take]. apply NoDup_entries.
Qed.

Lemma saved_report_counts fs options s w :
  save_state fs options s = Ok w → same_counts w (load_report (state_file options s) (staged_of options s)).
Proof.
  unfold save_state. cbn zeta. rewrite seq_Ok. intros [_ [= <-]].
  unfold same_counts, load_report. cbn -[state_file saved_buckets].
  split_and!; try done; try (unfold zsize; by rewrite map_size_fmap).
  - by destruct (PersistenceOptions.include_history options).
  - destruct (PersistenceOptions.include_history options); [apply saved_buckets_count|done].
Qed.

(** Whose a watermark is and how far it got. *)
Definition watermark_position (w : PublisherWatermark.t) :=
  (PublisherWatermark.publisher w, PublisherWatermark.boot w, PublisherWatermark.has_watermark w,
   PublisherWatermark.high_watermark w).

(** Claim C9.  A state that fits the format and passes the load's own checks
    survives a save and a load into any observatory: the load reads the bytes and
    counts the records the save reported, the registries, the links, the
    generations and the cost model come back as they were saved (regions marked
    as loaded), both epochs advance by one, capabilities are merged over those present,
    every watermark keeps the publisher, the boot and the position it was saved with (what
    becomes of its fence is not claimed: see [fenced_boot_readmitted_after_restart]), the
    saved history is the history, and nothing that was current before (publishers,
    counters, aggregates, journal, region evidence) is current after. *)
Theorem saved_state_recovered (now1 now2 : Z) (options : PersistenceOptions.t) (s s0 : State.t) :
  durable options s → loadable options s →
  (∃ r, (load_state now1 now2 (Ok (state_file options s)) options s0).2 = Ok r
     ∧ ∀ fs w, save_state fs options s = Ok w → same_counts w r) ∧
  let s' := restart now1 now2 options s s0 in
  (State.nodes s' = State.nodes s ∧ State.processors s' = State.processors s
   ∧ State.accelerators s' = State.accelerators s
   ∧ State.memory_domains s' = State.memory_domains s
   ∧ State.coherence_domains s' = State.coherence_domains s
   ∧ State.regions s' = mark_loaded <$> State.regions s
   ∧ TopologyRecord.links (State.topology s') = TopologyRecord.links (State.topology s)
   ∧ State.topology_generation s' = State.topology_generation s
   ∧ ObservatoryOptions.cost_model (State.options s') = ObservatoryOptions.cost_model (State.options s))
  ∧ (State.coordinator_epoch s' = next_id (State.coordinator_epoch s)
     ∧ State.observation_epoch s' = next_id (State.observation_epoch s))
  ∧ (∀ k, State.capabilities s' !! k
          = match State.capabilities s !! k with Some c => Some c | None => State.capabilities s0 !! k end)
  ∧ watermark_position <$> State.watermarks s' = watermark_position <$> saved_watermarks s
  ∧ (PersistenceOptions.include_history options = true → State.history s' = saved_history options s)
  ∧ (State.publishers s' = ∅ ∧ State.counters s' = ∅ ∧ AggregateStore.buckets (State.aggregates s') = ∅
     ∧ State.journal s' = [] ∧ State.region_evidence s' = ∅ ∧ State.region_evidence_order s' = []).
Proof.
  intros Hs Hl. unfold restart. rewrite load_saved by done. split.
  { eexists. split; [reflexivity|]. intros fs w Hw. by apply (saved_report_counts fs). }
  cbn zeta. cbn [fst]. split_and!; try done.
  - apply mark_loaded_twice.
  - intros k. cbn. rewrite lookup_union. by destruct (State.capabilities s !! k), (State.capabilities s0 !! k).
  - cbn. rewrite (recover_watermarks_saved options) by done. rewrite <- map_fmap_compose. by apply map_fmap_ext.
  - intros Hh. cbn. by rewrite Hh.
Qed.

Lemma known_refers {R T} (target : R → string) (m : gmap string T) r :
  refers m (target r) → known target m r.
Proof.
  unfold refers, known. intros Hr. destruct (target r) as [|c name]; [by left|right]. by apply Hr.
Qed.

(** The registries already guarantee two of the three referential checks. *)
Lemma registry_references s :
  registry_ok s →
  references_known s ↔ map_Forall (λ _, known ProcessorRecord.node (State.nodes s)) (State.processors s).
Proof.
  intros Hr. split; [by intros (_ & _ & H)|]. intros Hp. split_and!; [..|done].
  - intros k r Hk. destruct (reg_regions _ Hr k r Hk) as (_ & _ & Hd & _).
    apply known_refers. intros Hne. destruct (Hd Hne) as (d & Ed & _). by exists d.
  - intros k r Hk. destruct (reg_memory_domains _ Hr k r Hk) as (_ & _ & Hc). by apply known_refers.
Qed.

(** Claim C24.  Which saved states can be loaded.  A state of the running
    observatory whose fields fit the format loads if and only if its watermarks
    (with those of the live publishers) and its capabilities number at most 256,
    its historical buckets at most 4096, and every processor names a registered
    node; otherwise the load refuses the file the save reported as written, as
    corrupt, and leaves the loading observatory as it was. *)
Theorem saved_state_loads_iff (now1 now2 : Z) (options : PersistenceOptions.t) (s s0 : State.t) :
  durable options s → registry_ok s →
  let '(s', r) := load_state now1 now2 (Ok (state_file options s)) options s0 in
  if decide (within_bounds options s
             ∧ map_Forall (λ _, known ProcessorRecord.node (State.nodes s)) (State.processors s))
  then is_ok r = true
  else s' = s0 ∧ code_of r = ErrorCode.CorruptState.
Proof.
  intros Hs Hr. pose proof (registry_references s Hr) as Href. case_decide as Hd.
  - rewrite load_saved; [done..|]. split; [apply Hd|apply Href, Hd].
  - assert (¬ loadable options s) as Hn by (intros [Hb Hk]; apply Hd; split; [done|exact (proj1 Href Hk)]).
    pose proof (parse_state_file_refused options s Hs Hn) as Hc. unfold load_state.
    destruct (parse_state options (state_file options s)) as [staged|e]; [done|]. by split.
Qed.

Lemma zsize_empty {K V} `{Countable K} n : 0 ≤ n → zsize (∅ : gmap K V) ≤ n.
Proof. intros Hn. unfold zsize. by rewrite map_size_empty. Qed.

Lemma recover_evidence_ok now1 now2 staged s : evidence_ok (recover now1 now2 staged s).
Proof.
  apply record_stale_ok. constructor.
  - by apply Z.leb_le.
  - by apply Z.leb_le.
  - unfold store_bounded. by apply zsize_empty, Z.leb_le.
  - split_and!; [constructor| |by apply zsize_empty, Z.leb_le].
    intros k. cbn. rewrite lookup_empty. split; [by intros Hk%elem_of_nil|by intros []].
  - apply map_Forall_empty.
Qed.

Lemma recover_publishers_ok now1 now2 staged s : publishers_ok (recover now1 now2 staged s).
Proof.
  constructor; [apply map_Forall_empty|by apply zsize_empty, Z.leb_le|].
  apply trim_watermarks_bound. unfold zsize. lia.
Qed.

(** Restoring the registries of a well-formed state leaves them well formed. *)
Lemma recover_registry_ok now1 now2 options s s0 :
  registry_ok s → registry_ok (recover now1 now2 (staged_of options s) s0).
Proof.
  intros [Hp Ha Hm Hc Hr Hl Hb]. constructor; cbn; try done; rewrite mark_loaded_twice.
  - by apply map_Forall_fmap.
  - unfold zsize in *. by rewrite map_size_fmap.
Qed.

Lemma recover_invariant now1 now2 options s s0 :
  invariant s → invariant (recover now1 now2 (staged_of options s) s0).
Proof.
  intros Hi. constructor; [apply recover_registry_ok, Hi|apply recover_evidence_ok|apply recover_publishers_ok|].
  by apply zsize_empty, Z.leb_le.
Qed.

Lemma recover_grows now1 now2 options s s0 :
  registry_grows s (recover now1 now2 (staged_of options s) s0).
Proof.
  unfold registry_grows. cbn. split_and!; try apply gen_grows_refl.
  rewrite mark_loaded_twice. intros k r Hk. exists (mark_loaded r).
  rewrite lookup_fmap, Hk. split; [done|]. by right.
Qed.

(** Claim C14.  A restart keeps the global invariant and rolls no registry back: if a
    state that satisfies the invariant fits the format and passes the load's checks, the
    observatory that loads the saved file is well formed, and it stays well formed and
    keeps every registered entity, no generation lower and no retired region revived,
    through whatever operations follow.  (Watermarks and fences can roll back:
    [second_restart_accepts_replay], [fenced_boot_readmitted_after_restart].) *)
Theorem restart_keeps_invariant (now1 now2 : Z) (options : PersistenceOptions.t) (s s0 : State.t)
    (ops : list Operation) :
  durable options s → loadable options s → invariant s →
  let s' := run ops (restart now1 now2 options s s0) in
  invariant s' ∧ registry_grows s s'.
Proof.
  intros Hs Hl Hi. unfold restart. rewrite load_saved by done. cbn zeta. cbn [fst].
  pose proof (recover_invariant now1 now2 options s s0 Hi) as Hi'.
  destruct (run_ok ops _ Hi') as [Hr Hg]. split; [done|].
  eapply registry_grows_trans; [apply recover_grows|done].
Qed.

(** *** Replays after a restart *)

(** The watermark saved for a live publisher that has no entry of its own in the
    table. *)
Lemma saved_watermarks_keeps l : ∀ ws k w,
  ws !! k = Some w → foldl add_live_watermark ws l !! k = Some w.
Proof.
  induction l as [|e l IH]; intros ws k w Hk; [done|]. apply IH. unfold add_live_watermark.
  destruct (ws !! publisher_key e.2) eqn:E; [done|]. rewrite lookup_insert_ne; [done|congruence].
Qed.

Lemma saved_watermarks_live l : ∀ ws id p,
  (id, p) ∈ l → ws !! publisher_key p = None →
  ∃ e, e ∈ l ∧ publisher_key e.2 = publisher_key p
    ∧ foldl add_live_watermark ws l !! publisher_key p = Some (live_watermark e.2).
Proof.
  induction l as [|e l IH]; intros ws id p Hin Hnone; [by apply elem_of_nil in Hin|].
  destruct (decide (publisher_key e.2 = publisher_key p)) as [Hk|Hk].
  - exists e. split_and!; [by left|done|]. cbn [foldl]. apply saved_watermarks_keeps.
    unfold add_live_watermark. by rewrite Hk, Hnone, lookup_insert_eq.
  - apply elem_of_cons in Hin as [<-|Hin]; [done|].
    destruct (IH (add_live_watermark ws e) id p Hin) as (e' & He' & Hk' & Hl).
    { unfold add_live_watermark. destruct (ws !! publisher_key e.2); [done|]. by rewrite lookup_insert_ne. }
    exists e'. split_and!; [by right|done|done].
Qed.

(** The saved watermark of a live publisher is its own. *)
Lemma live_watermark_saved options s id p :
  durable options s → publishers_ok s →
  State.publishers s !! id = Some p → 0 ≤ PublisherView.boot (PublisherState.view p) →
  State.watermarks s !! publisher_key p = None →
  saved_watermarks s !! publisher_key p = Some (live_watermark p).
Proof.
  intros Hs Hp Hid Hboot Hnone.
  destruct (saved_watermarks_live (entries (State.publishers s)) (State.watermarks s) id p)
    as ([id' q] & Hq & Hk & Hl); [by apply elem_of_entries|done|]. apply elem_of_entries in Hq.
  destruct (pub_entries _ Hp _ _ Hid) as [Ei _]. destruct (pub_entries _ Hp _ _ Hq) as [Eq _].
  destruct (dur_watermarks _ _ Hs) as [Hw _]. destruct (Hw _ _ Hl) as [_ (_ & Hb & _)]. simpl in *.
  unfold publisher_key in Hk. apply boot_key_inj in Hk as [Hk _]; [|apply Hb|done].
  assert (id' = id) as -> by congruence. assert (q = p) as -> by congruence. done.
Qed.

(** The publisher [id] runs under a watermark restored from a file, which stands
    at [high] or above. *)
Definition guards (id : string) (boot high : Z) (s : State.t) : Prop :=
  ∃ p, State.publishers s !! id = Some p ∧ PublisherView.boot (PublisherState.view p) = boot
    ∧ PublisherState.has_watermark p = true ∧ PublisherState.durable_watermark p = true
    ∧ high ≤ PublisherState.high_watermark p.

(** Registering again after a restart installs the guard. *)
Lemma registration_guards now1 now2 g s s' v w :
  State.publishers s = ∅ →
  State.watermarks s !! boot_key (PublisherRegistration.id g) (PublisherRegistration.boot g) = Some w →
  PublisherWatermark.boot w = PublisherRegistration.boot g →
  PublisherWatermark.has_watermark w = true →
  register_publisher now1 now2 g s = (s', Ok v) →
  guards (PublisherRegistration.id g) (PublisherRegistration.boot g) (PublisherWatermark.high_watermark w) s'.
Proof.
  intros Hp Hw Hb Hh Hr. pose proof (register_publisher_cases now1 now2 g s) as Hc.
  rewrite Hr in Hc. destruct Hc as [(_ & e & [=])|(s1 & Ha & [(_ & _ & e & [=])|(_ & Hs' & _)])].
  assert (s1 = s) as ->.
  { unfold admit_boot in Ha. rewrite Hp, lookup_empty in Ha. by apply seq_Ok in Ha as [_ [= <-]]. }
  rewrite Hs'. unfold install_publisher. rewrite Hp, lookup_empty, Hw. cbn [default].
  rewrite Hb, Z.eqb_refl. set (p := if negb _ then _ else _).
  assert (PublisherState.has_watermark p = false
    ∧ PublisherView.boot (PublisherState.view p) = PublisherRegistration.boot g) as [Hpw Hpb]
    by (unfold p; by case_match).
  exists (restore_watermark w p). cbn. rewrite lookup_insert_eq.
  unfold restore_watermark. by rewrite Hh, Hpw.
Qed.

Lemma ingest_guards now o s id boot high :
  guards id boot high s → guards id boot high (ingest now o s).1.
Proof.
  intros (p & Ep & Hb & Hw & Hd & Hh). unfold ingest. pose proof (ingest_cases now o s) as H.
  destruct (ingest_locked now o s) as [s' r]. cbn [fst].
  destruct H as [(_ & _ & Hr & _)|(_ & q & Eq & _ & _ & _ & E)].
  - pose proof (f_equal (.!! id) Hr) as E. cbn in E. rewrite !lookup_fmap, Ep in E.
    destruct (State.publishers s' !! id) as [p'|] eqn:Ep'; [|done].
    cbn in E. injection E as E1 E2 E3 _ _ _ _ E8 _ _ _ _. exists p'.
    rewrite E1, E2, E3, E8. by split_and!.
  - apply (f_equal fst) in E. cbn [fst] in E. subst s'. unfold guards. rewrite accept_publishers.
    destruct (decide (Observation.source_publisher o = id)) as [<-|Hne].
    + rewrite Ep in Eq. injection Eq as <-. rewrite lookup_insert_eq.
      set (d := account_sequence _ _ _) in *.
      destruct (accepted_publisher_window now o (content_hash o) d p) as (_ & W2 & W3 & W4).
      destruct (accepted_publisher_view now o (content_hash o) d p) as (_ & V1 & _).
      destruct (commit_sequence_fields (Observation.sequence o) (content_hash o) p) as (_ & Eh & _).
      exists (accepted_publisher now o (content_hash o) d p).
      rewrite W2, W3, W4, V1, Eh, Hw. split_and!; try done. lia.
    + exists p. rewrite lookup_insert_ne by done. by split_and!.
Qed.

Lemma ingest_all_guards now os : ∀ s id boot high,
  guards id boot high s → guards id boot high (ingest_all now os s).
Proof.
  induction os as [|o os IH]; intros s id boot high H; [done|]. by apply IH, ingest_guards.
Qed.

(** Under the guard, nothing at or below the restored watermark is accepted. *)
Lemma guards_refuse now o s id boot high s' r :
  guards id boot high s → Observation.source_publisher o = id → Observation.sequence o ≤ high →
  ingest now o s = (s', r) → refused r ∧ same_evidence s s'.
Proof.
  intros (p & Ep & _ & Hw & Hd & Hh) Hid Hseq E. pose proof (ingest_cases now o s) as H.
  unfold ingest in E. rewrite E in H. destruct H as [(H1 & H2 & _)|(_ & q & Eq & _ & Hm & _)]; [done|].
  exfalso. rewrite Hid, Ep in Eq. injection Eq as <-. revert Hm. unfold account_sequence.
  by rewrite Hw, Hd, (proj2 (Z.leb_le _ _)) by lia.
Qed.

(** Claim C8.  No replay across a restart.  Let a publisher be live under a boot
    for which the watermark table holds no older entry.  After the state is saved
    and loaded, whenever that boot registers again and whatever is ingested then,
    every observation of that publisher at or below the highest sequence accepted
    before the restart is refused and leaves the evidence untouched. *)
Theorem restart_refuses_replay (clk : nat → Z) (options : PersistenceOptions.t) (s s0 s2 : State.t)
    (g : PublisherRegistration.t) (v : PublisherView.t) (p : PublisherState.t)
    (os : list Observation.t) (o : Observation.t) :
  durable options s → loadable options s → publishers_ok s →
  State.publishers s !! PublisherRegistration.id g = Some p →
  PublisherView.boot (PublisherState.view p) = PublisherRegistration.boot g →
  0 ≤ PublisherRegistration.boot g → PublisherState.has_watermark p = true →
  State.watermarks s !! publisher_key p = None →
  register_publisher (clk 2%nat) (clk 3%nat) g (restart (clk 0%nat) (clk 1%nat) options s s0) = (s2, Ok v) →
  Observation.source_publisher o = PublisherRegistration.id g →
  Observation.sequence o ≤ PublisherState.high_watermark p →
  let s3 := ingest_all (clk 4%nat) os s2 in
  let '(s4, r) := ingest (clk 5%nat) o s3 in
  refused r ∧ same_evidence s3 s4.
Proof.
  intros Hs Hl Hp Hid Hb Hb0 Hw Hnone Hreg Ho Hseq s3.
  destruct (pub_entries _ Hp _ _ Hid) as [Ei _].
  assert (Hk : publisher_key p = boot_key (PublisherRegistration.id g) (PublisherRegistration.boot g))
    by (unfold publisher_key; congruence).
  pose proof (live_watermark_saved options s _ p Hs Hp Hid ltac:(lia) Hnone) as Hsaved.
  unfold restart in Hreg. rewrite load_saved in Hreg by done. cbn [fst] in Hreg.
  eapply (registration_guards _ _ g _ _ _ (restart_watermark (live_watermark p))) in Hreg; try done.
  - destruct (ingest (clk 5%nat) o s3) as [s4 r] eqn:E.
    eapply guards_refuse; [by apply ingest_all_guards|done|done|exact E].
  - cbn. rewrite (recover_watermarks_saved options), lookup_fmap, <- Hk, Hsaved by done. done.
Qed.

(** ** Damaged files *)

(** Claim C22.  Take any file the load accepts and change any one byte of it other
    than the four reserved bytes at its end: the load refuses the file and leaves
    the observatory as it was. *)
Theorem damaged_state_refused (now1 now2 : Z) (options : PersistenceOptions.t) (data : list Z)
    (i : nat) (b : Z) (s : State.t) :
  is_bytes data → PersistenceOptions.max_bytes options < 2 ^ 63 →
  is_ok (parse_state options data) = true →
  (i < length data - 4)%nat → is_byte b → data !! i ≠ Some b →
  let '(s', r) := load_state now1 now2 (Ok (<[i := b]> data)) options s in
  s' = s ∧ is_ok r = false.
Proof.
  intros Hd Hmax Hok Hi Hb Hne. unfold load_state.
  destruct (parse_state options (<[i := b]> data)) as [staged'|e] eqn:E'; [|done].
  destruct (parse_state options data) as [staged|e] eqn:E; [|done]. destruct Hne.
  apply intact_one_byte; [done..| |].
  - by eapply parse_state_intact.
  - eapply parse_state_intact; [by apply Forall_insert|done|exact E'].
Qed.

(** ** Concrete restarts *)

Definition durable_ops : list Operation :=
  [RegisterNode 1 (NodeRecord.mk "node0" "rack 3" 0);
   RegisterMemoryDomain 1 (MemoryDomainRecord.mk "numa0" 1 "node0" (MemoryDomainKind.of_code 0) ""
     false false 0 false false 0);
   RegisterProcessor 1 (ProcessorRecord.mk "cpu0" "node0" 1 8 4 0 true "numa0" false 0);
   SetCapability (Capability.mk "cxl" CapabilityStatus.Unsupported "no device" "probe");
   RegisterPublisher 2 3 (sample_registration "pub.a" 1)].

(** An observation of "pub.a", by sequence and coordinator epoch. *)
Definition numbered (sequence epoch : Z) : Observation.t :=
  sample_observation <| Observation.sequence := sequence |> <| Observation.event_id := sequence |>
                     <| Observation.coordinator_epoch := epoch |>.

Definition first_run : State.t := run (durable_ops ++ [Ingest 5 (numbered 10 1)]) sample_state.
Definition resumed (s : State.t) : State.t :=
  register "pub.a" 1 (restart 6 7 PersistenceOptions.default s sample_state).

Lemma first_run_durable : durable PersistenceOptions.default first_run.
Proof. check_durable. Qed.
Lemma first_run_loadable : loadable PersistenceOptions.default first_run.
Proof. apply (bool_decide_unpack _). vm_compute. exact I. Qed.
Lemma first_run_invariant : invariant first_run.
Proof. apply run_ok, make_observatory_invariant. Qed.

Lemma saved_state_recovered_witness :
  is_Some (State.processors (restart 6 7 PersistenceOptions.default first_run sample_state) !! "cpu0"%string)
  ∧ State.coordinator_epoch (restart 6 7 PersistenceOptions.default first_run sample_state) = 2.
Proof.
  destruct (saved_state_recovered 6 7 PersistenceOptions.default first_run sample_state
    first_run_durable first_run_loadable) as (_ & (_ & Hp & _) & (He & _) & _).
  rewrite Hp, He. split; [apply (bool_decide_unpack _); vm_compute; exact I|vm_compute; reflexivity].
Defined.

Lemma saved_state_loads_iff_witness :
  is_ok (load_state 6 7 (Ok (state_file PersistenceOptions.default first_run))
           PersistenceOptions.default sample_state).2 = true.
Proof.
  pose proof (saved_state_loads_iff 6 7 PersistenceOptions.default first_run sample_state
    first_run_durable (inv_registry _ first_run_invariant)) as H.
  destruct (load_state _ _ _ _ _) as [s' r]. cbn [snd].
  rewrite decide_True in H; [exact H|]. destruct first_run_loadable as [Hb (_ & _ & Hr)]. by split.
Defined.

Lemma restart_keeps_invariant_witness :
  invariant (run [BumpTopology 9 "restart"] (restart 6 7 PersistenceOptions.default first_run sample_state)).
Proof.
  refine (proj1 (restart_keeps_invariant 6 7 PersistenceOptions.default first_run sample_state
    [BumpTopology 9 "restart"] first_run_durable first_run_loadable first_run_invariant)).
Defined.

Lemma damaged_state_refused_witness :
  is_ok (load_state 6 7 (Ok (<[70%nat := 255]> (state_file PersistenceOptions.default first_run)))
           PersistenceOptions.default sample_state).2 = false.
Proof.
  pose proof (damaged_state_refused 6 7 PersistenceOptions.default
    (state_file PersistenceOptions.default first_run) 70 255 sample_state) as H.
  destruct (load_state _ _ _ _ _) as [s' r]. cbn [snd]. apply H.
  - apply (bool_decide_unpack _). vm_compute. exact I.
  - reflexivity.
  - vm_compute. reflexivity.
  - apply Nat.ltb_lt. vm_compute. reflexivity.
  - unfold is_byte. lia.
  - vm_compute. discriminate.
Defined.

Lemma restart_refuses_replay_witness :
  refused (ingest 9 (numbered 10 2)
             (ingest_all 8 [numbered 11 2]
                (register_publisher 2 3 (sample_registration "pub.a" 1)
                   (restart 6 7 PersistenceOptions.default first_run sample_state)).1)).2.
Proof.
  destruct (State.publishers first_run !! "pub.a"%string) as [p|] eqn:Ep;
    [|vm_compute in Ep; discriminate Ep].
  assert (Hr : is_ok (register_publisher 2 3 (sample_registration "pub.a" 1)
    (restart 6 7 PersistenceOptions.default first_run sample_state)).2 = true)
    by (vm_compute; reflexivity).
  destruct (register_publisher 2 3 (sample_registration "pub.a" 1)
    (restart 6 7 PersistenceOptions.default first_run sample_state)) as [s2 r] eqn:Er.
  destruct r as [v|e]; [|discriminate Hr]. cbn [fst].
  pose proof (restart_refuses_replay (λ n, match n with
      | O => 6 | 1%nat => 7 | 2%nat => 2 | 3%nat => 3 | 4%nat => 8 | _ => 9 end)
    PersistenceOptions.default first_run sample_state s2 (sample_registration "pub.a" 1) v p
    [numbered 11 2] (numbered 10 2) first_run_durable first_run_loadable
    (inv_publishers _ first_run_invariant) Ep) as H.
  destruct (ingest 9 (numbered 10 2) (ingest_all 8 [numbered 11 2] s2)) as [s4 o] eqn:Eo.
  vm_compute in Ep. injection Ep as <-. cbn zeta beta iota in H. rewrite Eo in H.
  refine (proj1 (H _ _ _ _ Er _ _)); try reflexivity; try (vm_compute; discriminate).
Defined.

(** *** Where the protection ends *)

(** The same observatory after a second run, in which sequence 20 was accepted. *)
Definition second_run : State.t := (ingest 5 (numbered 20 2) (resumed first_run)).1.

(**  The protection covers one restart only.  A publisher that resumes
    under its old boot keeps the watermark entry it was restored from, and a save
    prefers that entry to the publisher's own position: sequence 20, accepted in
    the second run and refused when sent again there, is accepted once more after
    the second restart, although the state was saved after the first
    acceptance. *)
Theorem second_restart_accepts_replay :
  let third_run := resumed second_run in
  IngestionOutcome.disposition (ingest 5 (numbered 20 2) (resumed first_run)).2 = IngestionDisposition.Accepted
  ∧ IngestionOutcome.disposition (ingest 5 (numbered 20 2) second_run).2 = IngestionDisposition.Rejected
  ∧ IngestionOutcome.disposition (ingest 5 (numbered 10 3) third_run).2 = IngestionDisposition.Rejected
  ∧ IngestionOutcome.disposition (ingest 5 (numbered 20 3) third_run).2 = IngestionDisposition.Accepted.
Proof. cbn zeta. split_and!; vm_compute; reflexivity. Qed.

(**  Once a watermark has been restored, the publisher loses late
    delivery for good: a sequence that was never seen, above the restored
    watermark and inside the retention window, is refused as a replay where a
    publisher that never restarted has it accepted as late; and the mark is not
    cleared when a new boot, for which nothing was restored, takes over. *)
Theorem late_events_refused_after_restart :
  let before := (ingest 5 (numbered 20 1) first_run).1 in
  let boot2 := (numbered 15 2) <| Observation.publisher_boot := 2 |> in
  let successor :=
    (ingest 5 ((numbered 20 2) <| Observation.publisher_boot := 2 |>)
       (register "pub.a" 2 (resumed first_run))).1 in
  IngestionOutcome.disposition (ingest 5 (numbered 15 1) before).2 = IngestionDisposition.AcceptedLate
  ∧ IngestionOutcome.code (ingest 5 (numbered 15 2) second_run).2 = ErrorCode.StaleSequence
  ∧ IngestionOutcome.code (ingest 5 boot2 successor).2 = ErrorCode.StaleSequence.
Proof. cbn zeta. split_and!; vm_compute; reflexivity. Qed.

(** A fenced boot comes back with the restart: its watermark is restored
    unfenced, so the boot that was refused before is admitted. *)
Theorem fenced_boot_readmitted_after_restart :
  let fenced := fence "pub.a" first_run in
  let again := register_publisher 2 3 (sample_registration "pub.a" 1) in
  is_ok (again fenced).2 = false
  ∧ is_ok (again (restart 6 7 PersistenceOptions.default fenced sample_state)).2 = true.
Proof. cbn zeta. split; vm_compute; reflexivity. Qed.

(** Registering a processor does not ask whether its node is registered, but the
    load does: one such registration and the saved state can no longer be
    loaded. *)
Theorem unregistered_node_blocks_recovery :
  let s := run [RegisterProcessor 1 (ProcessorRecord.mk "cpu9" "node9" 1 8 4 0 true "" false 0)] first_run in
  is_ok (register_processor 1 (ProcessorRecord.mk "cpu9" "node9" 1 8 4 0 true "" false 0) first_run) = true
  ∧ code_of (load_state 6 7 (Ok (state_file PersistenceOptions.default s))
               PersistenceOptions.default sample_state).2 = ErrorCode.CorruptState.
Proof. cbn zeta. split; vm_compute; reflexivity. Qed.

(** A publisher that fills the watermark table and stays live has one watermark
    more saved than the load accepts. *)
Theorem full_watermark_table_blocks_recovery :
  let s := register "pub" 257 (restart_publisher 256 1 sample_state) in
  zsize (State.watermarks s) = Limits.kMaxPublisherWatermarks
  ∧ zsize (saved_watermarks s) = Limits.kMaxPublisherWatermarks + 1
  ∧ code_of (load_state 6 7 (Ok (state_file PersistenceOptions.default s))
               PersistenceOptions.default sample_state).2 = ErrorCode.CorruptState.
Proof. cbn zeta. split_and!; vm_compute; reflexivity. Qed.

(** A display name over 96 bytes is left out of the file without notice, and the
    file cannot be loaded. *)
Theorem long_display_name_blocks_recovery :
  let s := make_observatory 0 (ObservatoryOptions.default
             <| ObservatoryOptions.display_name := String.concat "" (replicate 97 "x"%string) |>) in
  is_ok (load_state 6 7 (Ok (state_file PersistenceOptions.default s))
           PersistenceOptions.default sample_state).2 = false.
Proof. vm_compute. reflexivity. Qed.

(** Nothing of what was current reaches the file: two states that differ only in
    their aggregates, journal, region evidence, counters and stale records are
    saved as the same bytes. *)
Theorem activity_is_not_saved (options : PersistenceOptions.t) (s : State.t) a j re ro cs st :
  state_file options (s <| State.aggregates := a |> <| State.journal := j |>
                        <| State.region_evidence := re |> <| State.region_evidence_order := ro |>
                        <| State.counters := cs |> <| State.stale := st |>)
  = state_file options s.
Proof. reflexivity. Qed.
