(* ===== verification/Lifecycle.v ===== *)
(** * The life of a coordinator

    The I/O loop, [start] and [stop] of [src/coordinator.cpp] with the state file they load
    and save: the turns of the loop are events of [Coordinator], and what is saved when a
    coordinator stops is what the next one starts from.

    What the operating system answers are arguments: the outcome of opening the
    listener, who connects, which sockets are readable and what they deliver, and the
    device of [Files] the state file is on. *)

From S2P Require Import Prelude Errors TextUtil Ids Taxonomy Policies Cost Records Observation.
From S2P Require Import Aggregate Sequence State Attribution Registry Publishers Ingest Counters.
From S2P Require Import Reconcile Snapshot System Findings Analysis Codec Protocol Transport Wire WireResults WireSnapshot.
From S2P Require Import StateFile StateRoundTrip Persistence Coordinator Files.

(** ** The state file on a disk *)

(** What [save_state] does to the disk, and what it reports. *)
Definition save_to_disk (dev : Device.t) (path : string) (options : PersistenceOptions.t) (s : State.t)
    (d : Disk.t) : option (Disk.t * result PersistenceReport.t) :=
  let output := state_file options s in
  if PersistenceOptions.atomic_replace options
  then
    '(d, written) ← write_file_atomic dev path output d;
    Some (d, save_state (mkFileSystem (λ _, written) true (λ o, zlen o) path) options s)
  else
    match fopen_write dev path d with
    | None => Some (d, save_state (mkFileSystem (λ _, ok_status) false (λ _, 0) path) options s)
    | Some (f, d) =>
        let '(f, d, put) := fwrite dev 0 output f d in
        let d := fclose dev f d in
        Some (d, save_state (mkFileSystem (λ _, ok_status) true (λ _, Z.of_nat put) path) options s)
    end.

Definition load_from_disk (dev : Device.t) (path : string) (options : PersistenceOptions.t)
    (now1 now2 : Z) (s : State.t) (d : Disk.t) : option (State.t * result PersistenceReport.t) :=
  file ← read_file_bounded dev path (PersistenceOptions.max_bytes options) d;
  Some (load_state now1 now2 file options s).

(** ** The server *)

Module ServerOptions.
Record t := mk {
  bind_host : string; max_connections : Z; state_path : string; save_on_shutdown : bool;
  load_on_start : bool; persistence : PersistenceOptions.t;
}.
End ServerOptions.

Module CoordinatorServer.
Record t := mk {
  server : Server.t; running : bool; stop_requested : bool; endpoint : string;
  connection_count : Z;
}.
#[global] Instance eta : Eta t := fun c =>
  mk (server c) (running c) (stop_requested c) (endpoint c) (connection_count c).
Definition make (o : State.t) : t := mk (Server.start o) false false "" 0.

Section coordinator.
Context (options : ServerOptions.t).

(** [listening] is the port of the new listener, or why there is none. *)
Definition start (dev : Device.t) (now1 now2 : Z) (listening : result Z) (d : Disk.t) (c : t)
    : option (t * result unit) :=
  if running c then Some (c, fail ErrorCode.AlreadyExists "coordinator is already running")
  else
    '(o, loaded) ←
      (if ServerOptions.load_on_start options && negb (sempty (ServerOptions.state_path options))
       then
         '(o, r) ← load_from_disk dev (ServerOptions.state_path options)
                     (ServerOptions.persistence options) now1 now2 (Server.observatory (server c)) d;
         Some (o, match r with
                  | Ok _ => ok_status
                  | Err e => if decide (Error.code e = ErrorCode.NotFound) then ok_status else Err e
                  end)
       else Some (Server.observatory (server c), ok_status));
    let c := c <| server ::= λ s, s <| Server.observatory := o |> |> in
    Some match loaded, listening with
         | Err e, _ => (c, Err e)
         | Ok _, Err e => (c, Err e)
         | Ok _, Ok port =>
             (c <| endpoint := ServerOptions.bind_host options +:+ ":" +:+ format_u64 port |>
                <| stop_requested := false |> <| running := true |>, ok_status)
         end.

(** *** The I/O loop *)

(** What one turn finds: a connection waiting, the sockets that are readable and what
    they deliver, the clock readings of each session, and how saving ends. *)
Record Turn := mkTurn {
  connection : option string; readable : Z → bool; delivered : Z → result (list Z);
  readings : Z → nat → nat → Z; saving : State.t → result Z;
}.

Definition service_options (turn : Turn) (c : t) : CoordinatorOptions.t :=
  CoordinatorOptions.mk (ServerOptions.max_connections options) (ServerOptions.state_path options)
    (endpoint c) (saving turn).

(** The sessions that are still there and readable, one after the other. *)
Fixpoint service_ready (so : CoordinatorOptions.t) (turn : Turn) (ids : list Z) (s : Server.t)
    : option Server.t :=
  match ids with
  | [] => Some s
  | id :: ids =>
      match Server.sessions s !! id with
      | None => service_ready so turn ids s
      | Some _ =>
          if readable turn id
          then s ← service_session so (readings turn id) id (delivered turn id) s;
               service_ready so turn ids s
          else service_ready so turn ids s
      end
  end.

Definition take_turn (turn : Turn) (c : t) : option t :=
  let so := service_options turn c in
  let s := match connection turn with
           | Some peer => accept_connection so peer (server c)
           | None => server c
           end in
  s ← service_ready so turn (entries (Server.sessions s)).*1 s;
  Some (c <| server := s |> <| connection_count := zsize (Server.sessions s) |>).

(** The loop until a stop is requested, and the closing of what remains. *)
Fixpoint io_loop (turns : list Turn) (closing : nat → Z) (c : t) : option t :=
  match turns with
  | [] => Some (c <| server ::= close_all closing |> <| connection_count := 0 |>)
  | turn :: turns => c ← take_turn turn c; io_loop turns closing c
  end.

(** [stop], with the turns the I/O thread still takes before it sees the request. *)
Definition stop (dev : Device.t) (turns : list Turn) (closing : nat → Z) (d : Disk.t) (c : t)
    : option ((t * Disk.t) * result unit) :=
  if negb (running c) then Some ((c, d), ok_status)
  else
    c ← io_loop turns closing (c <| running := false |> <| stop_requested := true |>);
    if ServerOptions.save_on_shutdown options && negb (sempty (ServerOptions.state_path options))
    then
      '(d, saved) ← save_to_disk dev (ServerOptions.state_path options)
                      (ServerOptions.persistence options) (Server.observatory (server c)) d;
      Some ((c, d), match saved with Ok _ => ok_status | Err e => Err e end)
    else Some ((c, d), ok_status).
End coordinator.
End CoordinatorServer.

Import CoordinatorServer.

(** ** The loop runs events *)

Section loop.
Context (options : ServerOptions.t).

(** The events of a turn.  A session that is gone by the time it is served is skipped,
    and so is the event of one. *)
Definition turn_events (turn : Turn) (ids : list Z) : list Event :=
  (λ id, Readable id (delivered turn id) (readings turn id)) <$> filter (λ id, readable turn id = true) ids.

Lemma service_ready_serves so turn ids : ∀ s,
  service_ready so turn ids s = serve so (turn_events turn ids) s.
Proof.
  induction ids as [|id ids IH]; intros s; [done|]. cbn [service_ready]. unfold turn_events.
  rewrite filter_cons. destruct (Server.sessions s !! id) as [session|] eqn:E.
  - destruct (readable turn id) eqn:Er; [rewrite decide_True by done|by rewrite decide_False by done].
    cbn [fmap list_fmap serve step]. destruct (service_session _ _ _ _ _); [apply IH|done].
  - rewrite IH. case_decide; [|done]. cbn [fmap list_fmap serve step]. unfold service_session. by rewrite E.
Qed.

(** What holds of a coordinator that is at work. *)
Record at_work (c : t) : Prop := {
  work_server : ∀ so, CoordinatorOptions.max_connections so = ServerOptions.max_connections options →
    server_ok so (server c);
  work_invariant : invariant (Server.observatory (server c));
  work_policy : sound_policy (invalidation_policy_of (Server.observatory (server c)));
}.

(** From one coordinator to another by operations of the observatory. *)
Definition operated (c c' : t) : Prop :=
  ∃ ops, Server.observatory (server c') = run ops (Server.observatory (server c)).

Lemma server_ok_options so so' s :
  CoordinatorOptions.max_connections so = CoordinatorOptions.max_connections so' →
  server_ok so s → server_ok so' s.
Proof. intros E [H1 H2]. constructor; [exact H1|by rewrite <- E]. Qed.

Lemma take_turn_works turn c :
  at_work c → ∃ c', take_turn options turn c = Some c' ∧ at_work c' ∧ operated c c'.
Proof.
  intros [Hs Hi Hp]. unfold take_turn. set (so := service_options options turn c).
  set (s1 := match connection turn with Some _ => _ | None => _ end).
  assert (stepped so (server c) s1) as H1 by (unfold s1; destruct (connection turn); [apply accept_stepped|done]).
  destruct (H1 (Hs so eq_refl)) as [Hs1 [ops1 E1]].
  rewrite service_ready_serves. destruct (serve_has_result so (turn_events turn (entries (Server.sessions s1)).*1) s1)
    as [s2 E2]; [done|by rewrite E1; apply run_ok|by rewrite E1, run_policy|].
  rewrite E2. cbn [mbind option_bind]. eexists. split; [done|].
  destruct (serve_stepped so _ _ _ E2 Hs1) as [Hs2 [ops2 E3]].
  assert (Eo : Server.observatory s2 = run (ops1 ++ ops2) (Server.observatory (server c)))
    by (rewrite E3, E1; unfold run; by rewrite foldl_app).
  split; [|by exists (ops1 ++ ops2)]. constructor; cbn.
  - intros so' Hso. by apply (server_ok_options so).
  - rewrite Eo. by apply run_ok.
  - by rewrite Eo, run_policy.
Qed.

Lemma io_loop_works closing turns : ∀ c,
  at_work c →
  ∃ c', io_loop options turns closing c = Some c' ∧ at_work c' ∧ operated c c'
    ∧ Server.sessions (server c') = ∅ ∧ connection_count c' = 0
    ∧ running c' = running c ∧ stop_requested c' = stop_requested c.
Proof.
  induction turns as [|turn turns IH]; intros c Hc; cbn [io_loop].
  - destruct Hc as [Hs Hi Hp]. eexists. split; [done|].
    set (so0 := CoordinatorOptions.mk (ServerOptions.max_connections options) "" "" (λ _, Ok 0)).
    destruct (close_all_stepped so0 closing (server c) (Hs so0 eq_refl)) as [Hs' [ops Eo]].
    split_and!; [|by exists ops|apply close_all_sessions|done..].
    constructor; cbn.
    + intros so Hso. by eapply server_ok_options; [|exact Hs'].
    + rewrite Eo. by apply run_ok.
    + by rewrite Eo, run_policy.
  - destruct (take_turn_works turn c Hc) as (c1 & E1 & Hc1 & ops1 & Eo1). rewrite E1. cbn [mbind option_bind].
    destruct (IH c1 Hc1) as (c' & E' & Hc' & [ops2 Eo2] & Hse & Hcc & Hr & Hst). exists c'.
    assert (running c1 = running c ∧ stop_requested c1 = stop_requested c) as [Hr1 Hst1].
    { unfold take_turn in E1. destruct (service_ready _ _ _ _); [|done]. by injection E1 as <-. }
    split_and!; try done; [|congruence..].
    exists (ops1 ++ ops2). rewrite Eo2, Eo1. unfold run. by rewrite foldl_app.
Qed.

(** *** Saving and loading *)

Lemma save_state_report fs po s r : save_state fs po s = Ok r → write_output fs po (state_file po s) = ok_status.
Proof. unfold save_state. destruct (write_output _ _ _) as [[]|]; done. Qed.

(** A save terminates.  When it replaces the file atomically, success means that the file
    is the saved state and failure that it is the old one; otherwise success means so only
    where closing the stream loses nothing. *)
Lemma save_to_disk_spec dev path po s d :
  Device.lawful dev →
  ∃ d' r, save_to_disk dev path po s d = Some (d', r)
    ∧ (is_ok r = true → PersistenceOptions.atomic_replace po = true ∨ Device.sound dev →
       Disk.files d' !! path = Some (state_file po s))
    ∧ (is_ok r = false → PersistenceOptions.atomic_replace po = true →
       Disk.files d' !! path = Disk.files d !! path)
    ∧ (Device.sound dev → PersistenceOptions.atomic_replace po = true → is_ok r = true).
Proof.
  intros Hlaw. unfold save_to_disk. set (output := state_file po s).
  destruct (PersistenceOptions.atomic_replace po) eqn:Eat.
  - destruct (write_file_atomic_spec dev path output d Hlaw) as (d' & w & -> & Hf & _ & Hs).
    cbn [mbind option_bind]. do 2 eexists. split; [reflexivity|].
    unfold save_state, write_output. rewrite Eat. cbn [write_file_atomic].
    destruct w as [[]|e]; cbn [is_ok]; split_and!; try done. intros Hsound. by apply Hs in Hsound.
  - unfold fopen_write. destruct (Device.opens_write dev path).
    + unfold fwrite, fclose, write_through. cbn [Stream.path Stream.pending app fst snd].
      do 2 eexists. split; [reflexivity|]. split_and!; try done.
      unfold save_state, write_output. rewrite Eat. cbn [fopen_succeeds fwrite_count negb reject_if_ctx].
      unfold zlen. fold output. pose proof (Hlaw 0%nat (length output)) as [Hput _].
      destruct (Z.eqb_spec (Z.of_nat (Device.puts dev 0 (length output))) (Z.of_nat (length output))) as [E|E];
        [|done]. apply Nat2Z.inj in E. intros _ [?|(_ & _ & Hcl & _)]; [congruence|]. clearbody output. cbn.
      rewrite !lookup_alter_eq, lookup_insert_eq. cbn. rewrite (proj2 (Hcl _)), E, (take_ge output) by lia.
      by rewrite (take_ge (drop _ _)), take_drop by done.
    + do 2 eexists. split; [reflexivity|]. unfold save_state, write_output. rewrite Eat. by split_and!.
Qed.
End loop.

Lemma restart_invariant now1 now2 po s s0 :
  durable po s → loadable po s → invariant s → invariant (restart now1 now2 po s s0).
Proof.
  intros Hs Hl Hi. unfold restart. rewrite load_saved by done. by apply recover_invariant.
Qed.
Lemma restart_policy now1 now2 po s s0 :
  durable po s → loadable po s → invalidation_policy_of (restart now1 now2 po s s0) = invalidation_policy_of s0.
Proof. intros Hs Hl. unfold restart. by rewrite load_saved. Qed.

(** ** Claims *)

(** Claim C12.  Stopping is orderly: whatever the I/O thread still does, and whatever fails
    on the disk, stopping a coordinator that is at work ends; every session is closed, the
    observatory was changed by its operations only and keeps its invariant; with saving and
    atomic replacement configured, success means that the state file holds exactly the
    final state, failure leaves the file as it was, and nothing fails on a sound device.
    Without atomic replacement success means that the file holds the final state only on a
    sound device: the result of closing the stream is not looked at. *)
Theorem stop_closes_and_saves (options : ServerOptions.t) (dev : Device.t) (turns : list Turn)
    (closing : nat → Z) (d : Disk.t) (c : CoordinatorServer.t) :
  at_work options c → running c = true → Device.lawful dev →
  ∃ c' d' r, stop options dev turns closing d c = Some ((c', d'), r)
    ∧ running c' = false ∧ Server.sessions (server c') = ∅
    ∧ operated c c' ∧ invariant (Server.observatory (server c'))
    ∧ let path := ServerOptions.state_path options in
      let po := ServerOptions.persistence options in
      if ServerOptions.save_on_shutdown options && negb (sempty path)
      then (is_ok r = true → PersistenceOptions.atomic_replace po = true ∨ Device.sound dev →
              Disk.files d' !! path = Some (state_file po (Server.observatory (server c'))))
           ∧ (is_ok r = false → PersistenceOptions.atomic_replace po = true →
              Disk.files d' !! path = Disk.files d !! path)
           ∧ (Device.sound dev → PersistenceOptions.atomic_replace po = true → r = ok_status)
      else d' = d ∧ r = ok_status.
Proof.
  intros Hc Hr Hlaw. unfold stop. rewrite Hr. cbn [negb].
  set (c1 := c <| running := false |> <| stop_requested := true |>).
  assert (Hc1 : at_work options c1) by (destruct Hc; by constructor).
  destruct (io_loop_works options closing turns c1 Hc1) as (c' & -> & Hw & Ho & Hse & _ & Hrun & _).
  cbn [mbind option_bind]. cbn zeta. destruct (ServerOptions.save_on_shutdown options && _).
  - destruct (save_to_disk_spec dev (ServerOptions.state_path options) (ServerOptions.persistence options)
      (Server.observatory (server c')) d Hlaw) as (d' & r & -> & H1 & H2 & H3).
    cbn [mbind option_bind]. do 3 eexists. split; [reflexivity|]. destruct Hw as [_ Hi _].
    destruct r as [r|e]; split_and!; try done. intros Hs Ha. by specialize (H3 Hs Ha).
  - do 3 eexists. split; [reflexivity|]. destruct Hw. by split_and!.
Qed.

(** Claim C10.  A coordinator resumes where its predecessor stopped: with saving at shutdown
    and loading at start configured, atomic replacement and devices on which nothing fails,
    stopping a coordinator at work succeeds; if its final state fits the format and passes
    the load's checks, a new process that starts on the same disk succeeds too, is running,
    and its observatory is the restart of exactly that state (of which [Persistence] shows
    what it restores and refuses); and it is at work again, so the next stop and start go
    the same way. *)
Theorem coordinator_resumes (options : ServerOptions.t) (dev dev' : Device.t) (turns : list Turn)
    (closing : nat → Z) (d : Disk.t) (c : CoordinatorServer.t) (now1 now2 port : Z) (o0 : State.t) :
  let path := ServerOptions.state_path options in
  let po := ServerOptions.persistence options in
  at_work options c → running c = true → Device.lawful dev → Device.sound dev →
  Device.lawful dev' → Device.sound dev' → path ≠ ""%string →
  ServerOptions.save_on_shutdown options = true → ServerOptions.load_on_start options = true →
  PersistenceOptions.atomic_replace po = true → sound_policy (invalidation_policy_of o0) →
  ∃ c1 d', stop options dev turns closing d c = Some ((c1, d'), ok_status)
    ∧ let s := Server.observatory (server c1) in
      (durable po s → loadable po s → zlen (state_file po s) ≤ PersistenceOptions.max_bytes po →
       ∃ c2, start options dev' now1 now2 (Ok port) d' (make o0) = Some (c2, ok_status)
         ∧ running c2 = true ∧ Server.observatory (server c2) = restart now1 now2 po s o0
         ∧ at_work options c2).
Proof.
  intros path po Hc Hr Hlaw Hs Hlaw' Hs' Hp Hsave Hload Hat Hpol.
  assert (Hpath : sempty path = false) by (destruct (sempty path) eqn:E; [by apply sempty_spec in E|done]).
  unfold stop. rewrite Hr, Hsave. cbn [negb]. fold path po. rewrite Hpath. cbn [negb andb].
  set (c0 := c <| running := false |> <| stop_requested := true |>).
  assert (Hc0 : at_work options c0) by (destruct Hc; by constructor).
  destruct (io_loop_works options closing turns c0 Hc0) as (c1 & -> & [_ Hi _] & _).
  cbn [mbind option_bind].
  destruct (save_to_disk_spec dev path po (Server.observatory (server c1)) d Hlaw) as (d' & r & -> & Hfile & _ & Hok).
  specialize (Hok Hs Hat). destruct r as [r|e]; [|done]. specialize (Hfile eq_refl (or_introl Hat)).
  cbn [mbind option_bind]. exists c1, d'. split; [reflexivity|]. cbn zeta.
  generalize dependent (Server.observatory (server c1)). intros s Hi Hfile Hd Hl Hz.
  unfold start. cbn [running make]. rewrite Hload. fold path po. rewrite Hpath. cbn [negb andb].
  unfold load_from_disk.
  destruct (read_file_bounded_spec dev' path (PersistenceOptions.max_bytes po) d' Hlaw') as (file & -> & _ & Hread).
  rewrite (Hread _ Hs' Hfile Hz). cbn [mbind option_bind].
  change (Server.observatory (server (make o0))) with o0.
  pose proof (restart_invariant now1 now2 po s o0 Hd Hl Hi) as Hi'.
  pose proof (restart_policy now1 now2 po s o0 Hd Hl) as Hp'.
  unfold restart in Hi', Hp' |- *. rewrite (load_saved now1 now2 po s o0 Hd Hl) in Hi', Hp' |- *.
  cbn [fst] in Hi', Hp' |- *. cbn [mbind option_bind]. set (o := recover _ _ _ _) in *.
  eexists. split; [reflexivity|]. split; [reflexivity|]. split; [reflexivity|].
  constructor; [intros so _; change (server_ok so (Server.start o)); apply server_ok_start|exact Hi'|].
  change (sound_policy (invalidation_policy_of o)). by rewrite Hp'.
Qed.

(** *** A concrete life *)

Definition reliable : Device.t :=
  Device.mk (λ _, true) (λ _, true) (λ _ n, n) (λ _ n, n) (λ _ _, 0%nat) (λ n, n) (λ n, n) true true.
Lemma reliable_lawful : Device.lawful reliable.
Proof. intros i n. by split. Qed.
Lemma reliable_sound : Device.sound reliable.
Proof. split_and!; try done. Qed.

Definition lasting : ServerOptions.t :=
  ServerOptions.mk "127.0.0.1" 8 "observatory.state" true true PersistenceOptions.default.
(** A coordinator at work on the state of [Persistence]'s first run. *)
Definition working : CoordinatorServer.t :=
  CoordinatorServer.mk (Server.start first_run) true false "127.0.0.1:7000" 0.
Definition empty_disk : Disk.t := Disk.mk ∅ [].

Lemma working_at_work : at_work lasting working.
Proof.
  constructor.
  - intros so _. apply server_ok_start.
  - exact first_run_invariant.
  - vm_compute. split; discriminate.
Qed.

(** Without connections, stopping changes nothing of the observatory. *)
Lemma working_stopped closing d c' d' r :
  stop lasting reliable [] closing d working = Some ((c', d'), r) → Server.observatory (server c') = first_run.
Proof.
  unfold stop. change (running working) with true. cbn [negb io_loop mbind option_bind].
  set (c1 := _ <| server ::= close_all closing |> <| connection_count := 0 |>).
  assert (E : Server.observatory (server c1) = first_run) by reflexivity. clearbody c1.
  case_match; [|by intros [= <- _ _]].
  destruct (save_to_disk _ _ _ _ _) as [[d1 saved]|]; [|done]. cbn [mbind option_bind]. by intros [= <- _ _].
Qed.

Lemma stop_closes_and_saves_witness :
  ∃ c' d', stop lasting reliable [] (λ _, 5) empty_disk working = Some ((c', d'), ok_status)
    ∧ Disk.files d' !! "observatory.state"%string = Some (state_file PersistenceOptions.default first_run).
Proof.
  destruct (stop_closes_and_saves lasting reliable [] (λ _, 5) empty_disk working working_at_work eq_refl
    reliable_lawful) as (c' & d' & r & Hstop & _ & _ & _ & _ & H).
  destruct H as (Hf & _ & Hs). pose proof (Hs reliable_sound eq_refl) as ->.
  exists c', d'. split; [exact Hstop|]. rewrite <- (working_stopped _ _ _ _ _ Hstop). exact (Hf eq_refl (or_introl eq_refl)).
Defined.

(** A disk that is full when the stream is closed: without atomic replacement the save
    reports success and the state file is empty. *)
Definition full_disk : Device.t :=
  Device.mk (λ _, true) (λ _, true) (λ _ n, n) (λ _ n, n) (λ _ _, 0%nat) (λ _, 0%nat) (λ _, 0%nat) true true.
Lemma plain_save_loses_state :
  ∃ d' r, save_to_disk full_disk "observatory.state"
            (PersistenceOptions.mk Limits.kMaxPersistenceBytes true false Limits.kMaxHistoryRecords) first_run empty_disk
          = Some (d', Ok r) ∧ Disk.files d' !! "observatory.state"%string = Some [].
Proof.
  set (po := PersistenceOptions.mk _ true false _).
  unfold save_to_disk. change (PersistenceOptions.atomic_replace po) with false. cbn match.
  unfold fopen_write. cbn [Device.opens_write full_disk]. unfold fwrite, fclose, write_through.
  cbn [Device.puts Device.spills Device.close_puts full_disk Stream.path Stream.pending fst snd].
  unfold save_state, write_output. change (PersistenceOptions.atomic_replace po) with false.
  cbn [fopen_succeeds fwrite_count negb reject_if_ctx]. unfold zlen. rewrite Z.eqb_refl.
  generalize (state_file po first_run). intros output. do 2 eexists. split; [reflexivity|]. cbn.
  rewrite !lookup_alter_eq, lookup_insert_eq. reflexivity.
Qed.

Lemma coordinator_resumes_witness :
  ∃ c1 d' c2,
    stop lasting reliable [] (λ _, 5) empty_disk working = Some ((c1, d'), ok_status)
    ∧ start lasting reliable 6 7 (Ok 7001) d' (make sample_state) = Some (c2, ok_status)
    ∧ Server.observatory (server c2) = restart 6 7 PersistenceOptions.default first_run sample_state.
Proof.
  destruct (coordinator_resumes lasting reliable reliable [] (λ _, 5) empty_disk working 6 7 7001 sample_state
    working_at_work eq_refl reliable_lawful reliable_sound reliable_lawful reliable_sound) as (c1 & d' & Hstop & H);
    [discriminate|reflexivity|reflexivity|reflexivity|vm_compute; split; discriminate|].
  cbn zeta in H. rewrite (working_stopped _ _ _ _ _ Hstop) in H.
  destruct H as (c2 & Hstart & _ & Ho & _).
  - exact first_run_durable.
  - exact first_run_loadable.
  - vm_compute. discriminate.
  - exists c1, d', c2. exact (conj Hstop (conj Hstart Ho)).
Defined.
