(* ===== verification/Client.v ===== *)
(** * Clients

    [src/client.cpp]: the publisher, the query client and the administration client
    that talk to a coordinator.  A client is synchronous: one request, one response.

    The network is the argument [net]: what connecting, sending and closing do to a
    world [N] beyond the socket, and which deliveries that causes on the connection.
    A socket holds what was delivered and not received yet; receiving is
    [receive_frame] of [Transport] on it.  A call has no result ([None]) when it waits
    for a response that never comes, or when the peer has none.  A fresh boot identity
    ([make_publisher_boot_id], from the clocks, the process and a counter) is the
    argument [fresh] of [connect]. *)

From S2P Require Import Prelude Errors TextUtil Ids Taxonomy Float64 Policies Cost Records Observation.
From S2P Require Import Aggregate Sequence State Attribution Registry Publishers Ingest Counters.
From S2P Require Import Reconcile Snapshot Findings Codec Protocol Transport Wire WireResults WireSnapshot.
From S2P Require Import Persistence Host.

(** ** Sockets and the network *)

Module Socket.
Record t := mk { handle : Z; pending : list (result (list Z)) }.
#[global] Instance eta : Eta t := fun s => mk (handle s) (pending s).
End Socket.

Module Network.
Record t (N : Type) := mk {
  tcp_connect : string → Z → Z → N → N * result Socket.t;
  socket_send_all : Z → list Z → N → option ((N * list (result (list Z))) * result unit);
  socket_close : Z → N → option N;
}.
#[global] Arguments mk {N} _ _ _.
#[global] Arguments tcp_connect {N} _ _ _ _ _.
#[global] Arguments socket_send_all {N} _ _ _ _.
#[global] Arguments socket_close {N} _ _ _.
End Network.

(** ** Helpers of the file *)

Definition bit_if (b : bool) (mask flags : Z) : Z := if b then Z.lor flags mask else flags.
Definition findings_flags (options : FindingsOptions.t) : Z :=
  let flags := 0 in
  let flags := bit_if (FindingsOptions.compute_hotspots options) 0x01 flags in
  let flags := bit_if (FindingsOptions.compute_ping_pong options) 0x02 flags in
  let flags := bit_if (FindingsOptions.compute_false_sharing options) 0x04 flags in
  let flags := bit_if (FindingsOptions.compute_invalidation options) 0x08 flags in
  let flags := bit_if (FindingsOptions.compute_remote_access options) 0x10 flags in
  bit_if (FindingsOptions.include_operational options) 0x20 flags.

Module HelloInfo.
Record t := mk {
  coordinator_epoch : Z; observation_epoch : Z; topology_generation : Z; server_name : string;
  endpoint : string; role : ClientRole.t;
}.
#[global] Instance eta : Eta t := fun h =>
  mk (coordinator_epoch h) (observation_epoch h) (topology_generation h) (server_name h)
    (endpoint h) (role h).
Definition empty : t := mk 0 0 0 "" "" ClientRole.Publisher.
End HelloInfo.

Definition ack_to_status (ack : AckPayload.t) : result unit :=
  match AckPayload.status ack with
  | AckStatus.Accepted | AckStatus.PartiallyAccepted => ok_status
  | status =>
      fail match status with
           | AckStatus.Unauthorized => ErrorCode.Unauthorized
           | AckStatus.StaleEpoch => ErrorCode.StaleEpoch
           | AckStatus.StaleBoot => ErrorCode.StaleBoot
           | AckStatus.StaleGeneration => ErrorCode.StaleGeneration
           | AckStatus.StaleSequence => ErrorCode.StaleSequence
           | AckStatus.Capacity => ErrorCode.Capacity
           | AckStatus.Unsupported => ErrorCode.UnsupportedCapability
           | AckStatus.Malformed => ErrorCode.InvalidArgument
           | AckStatus.Rejected => ErrorCode.Conflict
           | _ => ErrorCode.Internal
           end (AckPayload.detail ack)
  end.

(** [tick] and [wall] are the two clocks, [sequence] the process-wide counter. *)
Definition make_publisher_boot_id (tick wall process_identity sequence : Z) : Z :=
  let value := mix64 (Z.lxor tick (mix64 (Z.lxor wall (mix64 (u64_add process_identity sequence))))) in
  if value =? 0 then 1 else value.

Module ClientOptions.
Record t := mk {
  host : string; port : Z; client_name : string; connect_timeout_ms : Z; receive_timeout_ms : Z;
  max_response_bytes : Z;
}.
Definition default : t := mk "127.0.0.1" 0 "" 5000 30000 Limits.kMaxFramePayload.
End ClientOptions.

(** ** The shared connection *)

Module BaseClient.
Record t := mk {
  socket_ : option Socket.t; buffer_ : list Z; options_ : ClientOptions.t; hello_ : HelloInfo.t;
  frame_sequence_ : Z;
}.
#[global] Instance eta : Eta t := fun c =>
  mk (socket_ c) (buffer_ c) (options_ c) (hello_ c) (frame_sequence_ c).
Definition make : t := mk None [] ClientOptions.default HelloInfo.empty 0.

(** Reading the acknowledgement of HELLO: the names are stored as they are read. *)
Definition read_hello (role : ClientRole.t) (response : Frame.t) (info : HelloInfo.t)
    : HelloInfo.t * result unit :=
  if negb (bool_decide (Frame.type response = MessageType.HelloAck))
  then (info, fail ErrorCode.ProtocolError "coordinator did not acknowledge HELLO")
  else
    match (version ← PayloadReader.u16; coordinator ← PayloadReader.u64;
           observation ← PayloadReader.u64; topology ← PayloadReader.u64;
           mret (version, coordinator, observation, topology))
            (PayloadReader.mk (Frame.payload response) 0) with
    | (Err e, _) => (info, Err e)
    | (Ok (version, coordinator, observation, topology), reader) =>
        match PayloadReader.text Limits.kMaxNameLength reader with
        | (Err e, _) => (info, Err e)
        | (Ok name, reader) =>
            let info := info <| HelloInfo.server_name := name |> in
            match PayloadReader.text Limits.kMaxRegionAnnotationLength reader with
            | (Err e, _) => (info, Err e)
            | (Ok endpoint, reader) =>
                let info := info <| HelloInfo.endpoint := endpoint |> in
                match (role_value ← PayloadReader.u8; _ ← PayloadReader.require_exhausted;
                       mret role_value) reader with
                | (Err e, _) => (info, Err e)
                | (Ok role_value, _) =>
                    if negb (version =? kWireProtocolVersion)
                    then (info, fail ErrorCode.UnsupportedVersion
                                  "coordinator speaks an unsupported version")
                    else if negb (role_value =? ClientRole.code role)
                    then (info, fail ErrorCode.Unauthorized "coordinator refused the requested role")
                    else (info <| HelloInfo.coordinator_epoch := coordinator |>
                               <| HelloInfo.observation_epoch := observation |>
                               <| HelloInfo.topology_generation := topology |>
                               <| HelloInfo.role := role |>, ok_status)
                end
            end
        end
    end.

(** What [exchange] makes of the response. *)
Definition read_response (response : Frame.t) : result AckPayload.t :=
  match Frame.type response with
  | MessageType.Ack | MessageType.Error =>
      ((ack ← read_ack; _ ← PayloadReader.require_exhausted; mret ack)
         (PayloadReader.mk (Frame.payload response) 0)).1
  | type => fail_ctx ErrorCode.ProtocolError "expected an acknowledgement" (MessageType.to_string type)
  end.

(** [request.frame_sequence = ++frame_sequence_]. *)
Definition number_frame (c : t) : t * Z :=
  let n := u64_add (frame_sequence_ c) 1 in (c <| frame_sequence_ := n |>, n).

Section connection.
Context {N : Type} (net : Network.t N).

Definition close_socket (c : t) (n : N) : option (t * N) :=
  match socket_ c with
  | None => Some (c, n)
  | Some s =>
      n ← Network.socket_close net (Socket.handle s) n;
      Some (c <| socket_ := None |>, n)
  end.

Definition send_frame (f : Frame.t) (c : t) (n : N) : option ((t * N) * result unit) :=
  match socket_ c with
  | None => Some ((c, n), fail ErrorCode.ConnectionClosed "socket is closed")
  | Some s =>
      '((n, arrivals), status) ← Network.socket_send_all net (Socket.handle s) (Frame.encode f) n;
      Some ((c <| socket_ := Some (s <| Socket.pending ::= λ l, l ++ arrivals |>) |>, n), status)
  end.

Definition receive_frame (c : t) : option (t * result Frame.t) :=
  match socket_ c with
  | None =>
      match Transport.receive_frame [Err (Error.mk ErrorCode.ConnectionClosed "socket is closed" "")]
              (buffer_ c) with
      | Waiting _ => None
      | Returned r buffer _ => Some (c <| buffer_ := buffer |>, r)
      end
  | Some s =>
      match Transport.receive_frame (Socket.pending s) (buffer_ c) with
      | Waiting _ => None
      | Returned r buffer pending =>
          Some (c <| buffer_ := buffer |> <| socket_ := Some (s <| Socket.pending := pending |>) |>, r)
      end
  end.

(** Sending a request and receiving the next frame. *)
Definition request_response (request : Frame.t) (c : t) (n : N) : option ((t * N) * result Frame.t) :=
  '((c, n), sent) ← send_frame request c n;
  match sent with
  | Err e => Some ((c, n), Err e)
  | Ok _ => '(c, response) ← receive_frame c; Some ((c, n), response)
  end.

Definition exchange (request : Frame.t) (c : t) (n : N) : option ((t * N) * result AckPayload.t) :=
  '((c, n), response) ← request_response request c n;
  Some ((c, n), response ← response; read_response response).

Definition send_hello (role : ClientRole.t) (name : string) (c : t) (n : N)
    : option ((t * N) * result unit) :=
  match (PayloadWriter.u16 kWireProtocolVersion;; PayloadWriter.u8 (ClientRole.code role);;
         PayloadWriter.text name Limits.kMaxNameLength) [] with
  | (Err e, _) => Some ((c, n), Err e)
  | (Ok _, payload) =>
      '((c, n), response) ← request_response (Frame.mk MessageType.Hello frame_flags.kNone 0 payload) c n;
      match response with
      | Err e => Some ((c, n), Err e)
      | Ok response =>
          let '(info, status) := read_hello role response (hello_ c) in
          Some ((c <| hello_ := info |>, n), status)
      end
  end.

(** The new socket replaces, and closes, one that is still open. *)
Definition connect_role (options : ClientOptions.t) (role : ClientRole.t) (name : string) (c : t)
    (n : N) : option ((t * N) * result unit) :=
  let '(n, connected) := Network.tcp_connect net (ClientOptions.host options)
    (ClientOptions.port options) (ClientOptions.connect_timeout_ms options) n in
  match connected with
  | Err e => Some ((c, n), Err e)
  | Ok socket =>
      '(c, n) ← close_socket c n;
      let c := c <| socket_ := Some socket |> <| buffer_ := [] |> <| options_ := options |> in
      let label := if sempty name then ClientOptions.client_name options else name in
      let label := if sempty label then "coherence-client"%string else label in
      '((c, n), hello) ← send_hello role label c n;
      match hello with
      | Ok _ => Some ((c, n), ok_status)
      | Err e => '(c, n) ← close_socket c n; Some ((c, n), Err e)
      end
  end.
End connection.
End BaseClient.

(** ** The publisher *)

Module ObservationPublisher.
Record t := mk {
  base : BaseClient.t; connected : bool; registration : PublisherRegistration.t;
  next_sequence_ : Z; loss : LossReport.t; rejected : Z; accepted : Z;
}.
#[global] Instance eta : Eta t := fun p =>
  mk (base p) (connected p) (registration p) (next_sequence_ p) (loss p) (rejected p) (accepted p).
Definition make : t :=
  mk BaseClient.make false (PublisherRegistration.mk "" 0 "" "" "" 0 1 1 Provenance.SyntheticBackend) 1
    LossReport.empty 0 0.

(** The stamps shared by [publish] and [publish_batch]: a sequence is taken from the
    counter without advancing it. *)
Definition next_sequence (p : t) : Z := next_id (next_sequence_ p).

Definition stamp_authority (p : t) (o : Observation.t) : Observation.t :=
  let g := registration p in
  let fill := LocalPublisherHost.fill in
  o <| Observation.source_publisher ::= λ s, if sempty s then PublisherRegistration.id g else s |>
    <| Observation.publisher_boot ::= fill (PublisherRegistration.boot g) |>
    <| Observation.coordinator_epoch := PublisherRegistration.coordinator_epoch g |>
    <| Observation.topology_generation ::=
         fill (HelloInfo.topology_generation (BaseClient.hello_ (base p))) |>
    <| Observation.sampling_epoch ::= fill (PublisherRegistration.sampling_epoch g) |>
    <| Observation.evidence_generation ::= fill (PublisherRegistration.evidence_generation g) |>.

Definition take_sequence (sequence : Z) (p : t) : t * Z :=
  if is_zero sequence then (p, next_sequence p)
  else if next_sequence_ p <=? sequence then (p <| next_sequence_ := next_id sequence |>, sequence)
  else (p, sequence).

Definition stamp_event (o : Observation.t) (p : t) : t * Observation.t :=
  let o := (stamp_authority p o) <| Observation.event_id ::= LocalPublisherHost.fill (next_sequence_ p) |> in
  let '(p, n) := take_sequence (Observation.sequence o) p in
  (p, o <| Observation.sequence := n |>).

Definition stamp_counter (c : CounterPublication.t) (p : t) : t * CounterPublication.t :=
  let g := registration p in
  let fill := LocalPublisherHost.fill in
  let c := c <| CounterPublication.publisher ::= λ s, if sempty s then PublisherRegistration.id g else s |>
    <| CounterPublication.publisher_boot ::= fill (PublisherRegistration.boot g) |>
    <| CounterPublication.coordinator_epoch := PublisherRegistration.coordinator_epoch g |>
    <| CounterPublication.topology_generation ::=
         fill (HelloInfo.topology_generation (BaseClient.hello_ (base p))) |>
    <| CounterPublication.evidence_generation ::= fill (PublisherRegistration.evidence_generation g) |>
    <| CounterPublication.sampling_epoch ::= fill (PublisherRegistration.sampling_epoch g) |> in
  let '(p, n) := take_sequence (CounterPublication.sequence c) p in
  (p, c <| CounterPublication.sequence := n |>).

(** A request frame carries the next frame number. *)
Definition number_frame (p : t) : t * Z :=
  let '(c, n) := BaseClient.number_frame (base p) in (p <| base := c |>, n).

Definition lost_connection : IngestionOutcome.t :=
  IngestionOutcome.rejected ErrorCode.ConnectionClosed "publisher is not connected".

(** The outcome an acknowledgement stands for, and the counters of the publisher. *)
Definition outcome_of (ack : AckPayload.t) : IngestionOutcome.t :=
  let outcome disposition code counted :=
    IngestionOutcome.mk disposition code (AckPayload.detail ack) counted (AckPayload.missing ack)
      AttributionOutcome.Unattributed "" in
  match AckPayload.status ack with
  | AckStatus.Accepted => outcome IngestionDisposition.Accepted ErrorCode.Ok true
  | AckStatus.PartiallyAccepted => outcome IngestionDisposition.Duplicate ErrorCode.Duplicate false
  | _ => outcome IngestionDisposition.Rejected (code_of (ack_to_status ack)) false
  end.
Definition tally (ack : AckPayload.t) (p : t) : t :=
  match AckPayload.status ack with
  | AckStatus.Accepted => p <| accepted ::= incr |>
  | AckStatus.PartiallyAccepted =>
      p <| loss ::= (λ l, l <| LossReport.rejected_duplicates ::= λ n, u64_add n 1 |>) |>
        <| rejected ::= incr |>
  | _ => p <| rejected ::= incr |>
  end.

Section publisher.
Context {N : Type} (net : Network.t N).

Definition exchange (request : Frame.t) (p : t) (n : N) : option ((t * N) * result AckPayload.t) :=
  '((c, n), ack) ← BaseClient.exchange net request (base p) n;
  Some ((p <| base := c |>, n), ack).

Definition close_socket (p : t) (n : N) : option (t * N) :=
  '(c, n) ← BaseClient.close_socket net (base p) n; Some (p <| base := c |>, n).

Definition connect (fresh : Z) (options : ClientOptions.t) (registration_ : PublisherRegistration.t)
    (p : t) (n : N) : option ((t * N) * result unit) :=
  if connected p
  then Some ((p, n), fail ErrorCode.AlreadyExists "publisher is already connected")
  else
    let effective := registration_ <| PublisherRegistration.boot ::= LocalPublisherHost.fill fresh |> in
    '((c, n), hello) ← BaseClient.connect_role net options ClientRole.Publisher
                         (PublisherRegistration.display_name effective) (base p) n;
    let p := p <| base := c |> in
    match hello with
    | Err e => Some ((p, n), Err e)
    | Ok _ =>
        let '(p, number) := number_frame p in
        match write_publisher_registration effective [] with
        | (Err e, _) => '(p, n) ← close_socket p n; Some ((p, n), Err e)
        | (Ok _, payload) =>
            '((p, n), ack) ← exchange (Frame.mk MessageType.RegisterPublisher frame_flags.kAckRequired
                                         number payload) p n;
            match ack ≫= λ ack, ack_to_status ack;; Ok ack with
            | Err e => '(p, n) ← close_socket p n; Some ((p, n), Err e)
            | Ok ack =>
                Some ((p <| registration := effective <| PublisherRegistration.coordinator_epoch :=
                              AckPayload.coordinator_epoch ack |> |>
                         <| connected := true |>, n), ok_status)
            end
        end
    end.

Definition publish (o : Observation.t) (p : t) (n : N) : option ((t * N) * result IngestionOutcome.t) :=
  if negb (connected p) then Some ((p, n), Ok lost_connection)
  else
    let '(p, o) := stamp_event o p in
    let '(p, number) := number_frame p in
    match write_observation o [] with
    | (Err e, _) => Some ((p, n), Ok (IngestionOutcome.rejected (Error.code e) (Error.describe e)))
    | (Ok _, payload) =>
        '((p, n), ack) ← exchange (Frame.mk MessageType.PublishEvent frame_flags.kAckRequired
                                     number payload) p n;
        match ack with
        | Err e => Some ((p <| connected := false |>, n),
                         Ok (IngestionOutcome.rejected (Error.code e) (Error.describe e)))
        | Ok ack => Some ((tally ack p, n), Ok (outcome_of ack))
        end
    end.

Definition refused_counter (code : ErrorCode.t) (detail : string) : CounterOutcome.t :=
  CounterOutcome.empty <| CounterOutcome.code := code |> <| CounterOutcome.detail := detail |>.

Definition publish_counter (c : CounterPublication.t) (p : t) (n : N)
    : option ((t * N) * result CounterOutcome.t) :=
  if negb (connected p)
  then Some ((p, n), Ok (refused_counter ErrorCode.ConnectionClosed "publisher is not connected"))
  else
    let '(p, c) := stamp_counter c p in
    let '(p, number) := number_frame p in
    match write_counter_publication c [] with
    | (Err e, _) => Some ((p, n), Ok (refused_counter (Error.code e) (Error.describe e)))
    | (Ok _, payload) =>
        '((p, n), ack) ← exchange (Frame.mk MessageType.PublishCounter frame_flags.kAckRequired
                                     number payload) p n;
        match ack with
        | Err e => Some ((p <| connected := false |>, n),
                         Ok (refused_counter (Error.code e) (Error.describe e)))
        | Ok ack =>
            if decide (AckPayload.status ack = AckStatus.Accepted)
            then Some ((p, n), Ok (CounterOutcome.empty <| CounterOutcome.accepted := true |>
                                     <| CounterOutcome.detail := AckPayload.detail ack |>))
            else Some ((p <| rejected ::= incr |>, n),
                       Ok (refused_counter (code_of (ack_to_status ack)) (AckPayload.detail ack)))
        end
    end.

(** The loop that stamps and writes the events of a batch; the first that cannot be
    written ends it. *)
Fixpoint write_batch (os : list Observation.t) (p : t) (payload : list Z) : (t * list Z) * result unit :=
  match os with
  | [] => ((p, payload), ok_status)
  | o :: os =>
      let '(p, o) := stamp_event o p in
      match write_observation o payload with
      | (Err e, payload) => ((p, payload), fail (Error.code e) (Error.describe e))
      | (Ok _, payload) => write_batch os p payload
      end
  end.

Definition publish_batch (os : list Observation.t) (p : t) (n : N)
    : option ((t * N) * result BatchOutcome.t) :=
  if decide (os = []) then Some ((p, n), Ok BatchOutcome.empty)
  else if Limits.kMaxBatchEvents <? zlen os
  then Some ((p, n), fail ErrorCode.TooLarge "batch exceeds the maximum event count")
  else if negb (connected p)
  then Some ((p, n), fail ErrorCode.ConnectionClosed "publisher is not connected")
  else
    let '((p, payload), written) := write_batch os p (PayloadWriter.u32 (zlen os) []).2 in
    match written with
    | Err e => Some ((p, n), Err e)
    | Ok _ =>
        let '(p, number) := number_frame p in
        '((p, n), ack) ← exchange (Frame.mk MessageType.PublishBatch frame_flags.kAckRequired
                                     number payload) p n;
        match ack with
        | Err e => Some ((p <| connected := false |>, n), fail (Error.code e) (Error.describe e))
        | Ok ack =>
            Some ((p, n),
              match ack_to_status ack with
              | Err e => fail (Error.code e) (AckPayload.detail ack)
              | Ok _ => Ok (BatchOutcome.mk (AckPayload.accepted ack) (AckPayload.late ack)
                              (AckPayload.duplicates ack) (AckPayload.rejected ack)
                              (AckPayload.missing ack) [])
              end)
        end
    end.

Definition heartbeat (p : t) (n : N) : option ((t * N) * result unit) :=
  if negb (connected p)
  then Some ((p, n), fail ErrorCode.ConnectionClosed "publisher is not connected")
  else
    let '(p, number) := number_frame p in
    '((p, n), ack) ← exchange (Frame.mk MessageType.Heartbeat frame_flags.kAckRequired number []) p n;
    match ack with
    | Err e => Some ((p <| connected := false |>, n), Err e)
    | Ok ack => Some ((p, n), ack_to_status ack)
    end.

Definition close (p : t) (n : N) : option (t * N) :=
  '(p, n) ← close_socket p n; Some (p <| connected := false |>, n).
End publisher.
End ObservationPublisher.

(** ** The query client *)

Module ObservationClient.
Record t := mk { base : BaseClient.t; connected : bool }.
#[global] Instance eta : Eta t := fun q => mk (base q) (connected q).
Definition make : t := mk BaseClient.make false.

(** The response to a query: its type, then its payload to the end. *)
Definition read_answer {A} (type : MessageType.t) (expected : string)
    (r : action PayloadReader.t A) (response : Frame.t) : result A :=
  if negb (bool_decide (Frame.type response = type))
  then fail ErrorCode.ProtocolError ("expected " +:+ expected)
  else ((a ← r; _ ← PayloadReader.require_exhausted; mret a)
          (PayloadReader.mk (Frame.payload response) 0)).1.

Definition too_many_findings (count : Z) : Error.t :=
  Error.mk ErrorCode.TooMany "finding response count exceeds the bound" "".

Section client.
Context {N : Type} (net : Network.t N).

Definition connect (options : ClientOptions.t) (q : t) (n : N) : option ((t * N) * result unit) :=
  if connected q then Some ((q, n), fail ErrorCode.AlreadyExists "client is already connected")
  else
    '((c, n), hello) ← BaseClient.connect_role net options ClientRole.Client
                         (ClientOptions.client_name options) (base q) n;
    Some ((q <| base := c |> <| connected := is_ok hello |>, n), hello).

(** One query: its frame, and how the response is read. *)
Definition query {A} (type : MessageType.t) (write : action PayloadWriter.t unit)
    (read : Frame.t → result A) (q : t) (n : N) : option ((t * N) * result A) :=
  if negb (connected q)
  then Some ((q, n), fail ErrorCode.ConnectionClosed "client is not connected")
  else
    let '(c, number) := BaseClient.number_frame (base q) in
    let q := q <| base := c |> in
    match write [] with
    | (Err e, _) => Some ((q, n), Err e)
    | (Ok _, payload) =>
        '((c, n), response) ← BaseClient.request_response net
            (Frame.mk type frame_flags.kAckRequired number payload) (base q) n;
        Some ((q <| base := c |>, n), response ← response; read response)
    end.

Definition query_snapshot (options : FindingsOptions.t)
    : t → N → option ((t * N) * result (Snapshot.t Finding.t)) :=
  query MessageType.QuerySnapshot (PayloadWriter.u8 (findings_flags options))
    (read_answer MessageType.SnapshotResponse "SNAPSHOT_RESPONSE" read_snapshot).

Definition query_findings (options : FindingsOptions.t)
    : t → N → option ((t * N) * result (list Finding.t)) :=
  query MessageType.QueryFindings (PayloadWriter.u8 (findings_flags options))
    (read_answer MessageType.FindingsResponse "FINDINGS_RESPONSE"
       (read_counted Limits.kMaxQueryResults too_many_findings read_finding)).

Definition query_attribution (region : string) : t → N → option ((t * N) * result AttributionResult.t) :=
  query MessageType.QueryAttribution (PayloadWriter.text region Limits.kMaxNameLength)
    (read_answer MessageType.AttributionResponse "ATTRIBUTION_RESPONSE" read_attribution).

Definition close (q : t) (n : N) : option (t * N) :=
  '(c, n) ← BaseClient.close_socket net (base q) n;
  Some (q <| base := c |> <| connected := false |>, n).
End client.
End ObservationClient.

(** ** The administration client *)

Module ObservatoryAdminClient.
Record t := mk { base : BaseClient.t; connected : bool }.
#[global] Instance eta : Eta t := fun a => mk (base a) (connected a).
Definition make : t := mk BaseClient.make false.

(** The kind of a resource, then its record. *)
Definition write_resource (kind : ResourceKind.t) (record : action PayloadWriter.t unit)
    : action PayloadWriter.t unit :=
  PayloadWriter.u8 (ResourceKind.code kind);; record.

Section admin.
Context {N : Type} (net : Network.t N).

Definition connect (options : ClientOptions.t) (a : t) (n : N) : option ((t * N) * result unit) :=
  if connected a then Some ((a, n), fail ErrorCode.AlreadyExists "admin client is already connected")
  else
    '((c, n), hello) ← BaseClient.connect_role net options ClientRole.Admin
                         (ClientOptions.client_name options) (base a) n;
    Some ((a <| base := c |> <| connected := is_ok hello |>, n), hello).

Definition simple (type : MessageType.t) (payload : list Z) (a : t) (n : N)
    : option ((t * N) * result AckPayload.t) :=
  if negb (connected a)
  then Some ((a, n), fail ErrorCode.ConnectionClosed "admin client is not connected")
  else
    let '(c, number) := BaseClient.number_frame (base a) in
    '((c, n), ack) ← BaseClient.exchange net
        (Frame.mk type frame_flags.kAckRequired number payload) c n;
    Some ((a <| base := c |>, n), ack).

(** A request whose acknowledgement is read as a result of type [A]. *)
Definition request {A} (type : MessageType.t) (write : action PayloadWriter.t unit)
    (read : AckPayload.t → A) (a : t) (n : N) : option ((t * N) * result A) :=
  match write [] with
  | (Err e, _) => Some ((a, n), Err e)
  | (Ok _, payload) =>
      '((a, n), ack) ← simple type payload a n;
      Some ((a, n), ack ← ack; ack_to_status ack;; Ok (read ack))
  end.

Definition admin_request (type : MessageType.t) (fill : action PayloadWriter.t unit)
    : t → N → option ((t * N) * result unit) := request type fill (λ _, tt).

Definition register_node (record : NodeRecord.t) :=
  admin_request MessageType.RegisterResource (write_resource ResourceKind.Node (write_node record)).
Definition register_processor (record : ProcessorRecord.t) :=
  admin_request MessageType.RegisterResource
    (write_resource ResourceKind.Processor (write_processor record)).
Definition register_accelerator (record : AcceleratorRecord.t) :=
  admin_request MessageType.RegisterResource
    (write_resource ResourceKind.Accelerator (write_accelerator record)).
Definition register_memory_domain (record : MemoryDomainRecord.t) :=
  admin_request MessageType.RegisterResource
    (write_resource ResourceKind.MemoryDomain (write_memory_domain record)).
Definition register_coherence_domain (record : CoherenceDomainRecord.t) :=
  admin_request MessageType.RegisterResource
    (write_resource ResourceKind.CoherenceDomain (write_coherence_domain record)).
Definition register_region (record : RegionRecord.t) :=
  admin_request MessageType.RegisterRegion (write_region record).
Definition retire_region (region : string) (generation : Z) (reason : string) :=
  admin_request MessageType.RetireRegion
    (PayloadWriter.text region Limits.kMaxNameLength;; PayloadWriter.u64 generation;;
     PayloadWriter.text reason Limits.kMaxRegionAnnotationLength).
Definition set_topology_link (link : TopologyLink.t) :=
  admin_request MessageType.SetTopologyLink (write_topology_link link).
Definition fence_publisher (publisher : string) (reason : FenceReason.t) (detail_text : string) :=
  admin_request MessageType.Fence
    (PayloadWriter.text publisher Limits.kMaxNameLength;;
     PayloadWriter.u8 (fence_reason_code reason);;
     PayloadWriter.text detail_text Limits.kMaxRegionAnnotationLength).

(** The generation reported is the observation epoch of the acknowledgement. *)
Definition bump_topology (reason : string) : t → N → option ((t * N) * result Z) :=
  request MessageType.BumpTopology (PayloadWriter.text reason Limits.kMaxRegionAnnotationLength)
    AckPayload.observation_epoch.

Definition save_state : t → N → option ((t * N) * result PersistenceReport.t) :=
  request MessageType.SaveState (mret tt) (λ ack,
    let epoch := AckPayload.coordinator_epoch ack in
    PersistenceReport.mk 0 0 0 0 0 0 0 0 0 0 0 0 epoch epoch true).

Definition set_capability (capability : Capability.t) : result unit :=
  fail ErrorCode.UnsupportedCapability
    "capability mutation is available only on an in-process observatory".

Definition close (a : t) (n : N) : option (t * N) :=
  '(c, n) ← BaseClient.close_socket net (base a) n;
  Some (a <| base := c |> <| connected := false |>, n).
End admin.
End ObservatoryAdminClient.
