(* ===== verification/Remote.v ===== *)
(** * Clients of a coordinator

    The network between the clients of [Client] and the server of [Coordinator]: what
    a client sends is cut into chunks and served by the I/O thread, what the server
    answers is cut into chunks and delivered.  Over this network a call of a client is
    the operation of the observatory it stands for. *)

From S2P Require Import Prelude Errors TextUtil Ids Taxonomy Float64 Policies Cost Records Observation.
From S2P Require Import Aggregate Sequence State Attribution Registry Publishers Ingest Counters.
From S2P Require Import Reconcile Snapshot System Findings Analysis Codec Protocol Transport Wire WireResults WireSnapshot.
From S2P Require Import Sizes Persistence Host Coordinator Client.

(** ** Refusals have a code

    An acknowledgement says "accepted" when its code is [Ok]; no refusal has that code. *)

Definition coded {A} (r : result A) : Prop := ∀ e, r = Err e → Error.code e ≠ ErrorCode.Ok.

Lemma coded_ok {A} (a : A) : coded (Ok a).
Proof. done. Qed.
Lemma coded_fail {A} c m : c ≠ ErrorCode.Ok → coded (A := A) (fail c m).
Proof. by intros Hc e [= <-]. Qed.
Lemma coded_fail_ctx {A} c m x : c ≠ ErrorCode.Ok → coded (A := A) (fail_ctx c m x).
Proof. by intros Hc e [= <-]. Qed.
Lemma coded_seq {A} (r : result unit) (k : result A) : coded r → coded k → coded (r;; k).
Proof. intros Hr Hk. destruct r as [[]|e]; [done|]. intros e' [= <-]. by apply Hr. Qed.
Lemma coded_reject_if b c m : c ≠ ErrorCode.Ok → coded (reject_if b c m).
Proof. intros Hc. destruct b; [by apply coded_fail|done]. Qed.
Lemma coded_reject_if_ctx b c m x : c ≠ ErrorCode.Ok → coded (reject_if_ctx b c m x).
Proof. intros Hc. destruct b; [by intros e [= <-]|done]. Qed.
Lemma coded_relabel w r : coded r → coded (relabel w r).
Proof. intros Hr. destruct r as [|e]; [done|]. intros e' [= <-]. by apply (Hr e). Qed.
Lemma coded_on_some {A} (o : option A) f : (∀ a, coded (f a)) → coded (on_some o f).
Proof. intros Hf. destruct o; [apply Hf|done]. Qed.

Ltac solve_coded :=
  repeat first
    [ apply coded_ok | apply coded_seq | apply coded_reject_if; done | apply coded_reject_if_ctx; done
    | apply coded_relabel | apply coded_on_some; intros ? | apply coded_fail; done | apply coded_fail_ctx; done
    | assumption | case_match ].

Lemma coded_token_chars s : coded (validate_token_chars s).
Proof. induction s; cbn [validate_token_chars]; solve_coded. Qed.
Lemma coded_observation o : coded (validate_observation_structure o).
Proof.
  unfold validate_observation_structure, validate_endpoints, validate_enum_ranges, validate_quantities,
    validate_claims, validate_bound_name, validate_resource_ref.
  solve_coded; apply coded_token_chars.
Qed.

(** ** The network *)

(** A server and the number of calls of [recv] so far, which times them. *)
Module Cluster.
Record t := mk { server : Server.t; calls : nat }.
#[global] Instance eta : Eta t := fun s => mk (server s) (calls s).
End Cluster.

Section network.
Context (settings : CoordinatorOptions.t) (clk : nat → nat → nat → Z) (peer : string).
Context (cut : list Z → list (list Z)).

(** What a session received, one chunk after the other. *)
Fixpoint deliver (h : Z) (chunks : list (list Z)) (s : Cluster.t) : option Cluster.t :=
  match chunks with
  | [] => Some s
  | chunk :: chunks =>
      server ← service_session settings (clk (Cluster.calls s)) h (Ok chunk) (Cluster.server s);
      deliver h chunks (Cluster.mk server (S (Cluster.calls s)))
  end.

(** What was sent to a session between two states of the server, and how it arrives;
    a session that is gone closed its end. *)
Definition sent_to (h : Z) (before after : Server.t) : list Frame.t :=
  (filter (λ e, e.1 = h) (drop (length (Server.sent before)) (Server.sent after))).*2.
Definition arrivals (h : Z) (before after : Server.t) : list (result (list Z)) :=
  (Ok <$> cut (concat (Frame.encode <$> sent_to h before after)))
  ++ match Server.sessions after !! h with None => [Ok []] | Some _ => [] end.

Definition coordinator_network : Network.t Cluster.t := {|
  Network.tcp_connect _ _ _ s :=
    let server := Cluster.server s in
    let s := s <| Cluster.server := accept_connection settings peer server |> in
    if CoordinatorOptions.max_connections settings <=? zsize (Server.sessions server)
    then (s, Ok (Socket.mk 0 [Ok []]))
    else (s, Ok (Socket.mk (Server.next_session_id server) []));
  Network.socket_send_all h bytes s :=
    match Server.sessions (Cluster.server s) !! h with
    | None => Some ((s, []), fail ErrorCode.ConnectionClosed "send failed")
    | Some _ =>
        s' ← deliver h (cut bytes) s;
        Some ((s', arrivals h (Cluster.server s) (Cluster.server s')), ok_status)
    end;
  Network.socket_close h s :=
    server ← service_session settings (clk (Cluster.calls s)) h (Ok []) (Cluster.server s);
    Some (Cluster.mk server (S (Cluster.calls s)));
|}.

(** Cutting a stream loses nothing and makes chunks that [recv] can deliver. *)
Definition cut_ok : Prop := ∀ l, concat (cut l) = l ∧ Forall chunk_ok (cut l).

Lemma cut_nil : cut_ok → cut [] = [].
Proof.
  intros H. destruct (H []) as [Hc Hf]. destruct (cut []) as [|c l]; [done|].
  apply Forall_cons in Hf as [[Hne _] _]. by apply app_nil in Hc as [-> _].
Qed.

(** ** One request *)

Local Abbreviation endpoint := (CoordinatorOptions.endpoint settings).
Local Abbreviation state_path := (CoordinatorOptions.state_path settings).
Local Abbreviation save := (CoordinatorOptions.save settings).

(** The session [h] with so much input. *)
Definition with_input (b : list Z) (session : Session.t) : Session.t := session <| Session.buffer := b |>.

Lemma take_frame_nil : take_frame [] = None.
Proof. done. Qed.

(** Input short of a frame is kept. *)
Lemma service_partial k h chunk f more s session :
  frame_ok f → Server.sessions s !! h = Some session → chunk ≠ [] →
  (Session.buffer session ++ chunk) ++ more = Frame.encode f →
  (length (Session.buffer session ++ chunk) < length (Frame.encode f))%nat →
  service_session settings k h (Ok chunk) s
  = Some (s <| Server.sessions ::= <[h := with_input (Session.buffer session ++ chunk) session]> |>).
Proof.
  intros Hf Hs Hne Heq Hlt. unfold service_session. rewrite Hs. unfold Coordinator.receive.
  destruct chunk as [|x chunk]; [done|]. cbn zeta.
  set (b := Session.buffer session ++ x :: chunk) in *.
  assert (Hb : zlen b ≤ kReceiveBound).
  { destruct Hf as (_ & _ & _ & _ & _ & _ & Hmax). pose proof (zlen_encode f) as Hz.
    change Limits.kMaxFramePayload with 1048576 in Hmax. change kReceiveBound with 1048612.
    unfold zlen in *. lia. }
  match goal with |- context [World.session ?w] => set (w1 := w) end.
  change (Session.buffer (World.session w1)) with b.
  rewrite Z.gtb_ltb, (proj2 (Z.ltb_ge _ _)) by done. unfold drain_all.
  change (Session.buffer (World.session w1)) with b. cbn [drain].
  change (Session.buffer (World.session w1)) with b.
  rewrite (take_frame_incomplete f [] b more) by (done || constructor || by rewrite app_nil_r).
  cbn [mbind option_bind]. unfold leave. cbn -[insert]. by rewrite app_nil_r.
Qed.

(** The last piece of a frame has it dispatched. *)
Lemma service_complete k h chunk f s session w' :
  frame_ok f → Server.sessions s !! h = Some session → chunk ≠ [] →
  Session.buffer session ++ chunk = Frame.encode f → Session.is_open session = true →
  dispatch endpoint state_path save (k 0%nat) f (enter (with_input [] session) s) = Some w' →
  Session.is_open (World.session w') = true → Session.buffer (World.session w') = [] →
  service_session settings k h (Ok chunk) s = Some (leave h w' false s).
Proof.
  intros Hf Hs Hne Heq Hopen Hd Hopen' Hb'. unfold service_session. rewrite Hs. unfold Coordinator.receive.
  destruct chunk as [|x chunk]; [done|]. cbn zeta.
  match goal with |- context [World.session ?w] => set (w1 := w) end.
  assert (E1 : Session.buffer (World.session w1) = Frame.encode f) by exact Heq.
  pose proof (zlen_encode f) as Hz. destruct Hf as (Hf1 & Hf2 & Hf3 & Hf4 & Hf5 & Hf6 & Hmax) eqn:Hf'.
  clear Hf'. rewrite E1, Z.gtb_ltb, (proj2 (Z.ltb_ge _ _)).
  2: { change Limits.kMaxFramePayload with 1048576 in Hmax. change kReceiveBound with 1048612. lia. }
  unfold drain_all. rewrite E1. cbn [drain]. rewrite E1.
  rewrite (take_frame_complete f [] (Frame.encode f) []) by (by rewrite ?app_nil_r || constructor || done).
  rewrite drop_all.
  change (w1 <| World.session ::= _ |>) with (enter (with_input [] session) s).
  rewrite Hd. cbn [mbind option_bind].
  change (Session.is_open (World.session w1)) with (Session.is_open session). rewrite Hopen, Hopen'.
  cbn [negb orb]. rewrite encode_length. cbn [Nat.add drain]. rewrite Hb'. by cbn [take_frame].
Qed.

(** A frame sent to an idle session is dispatched once, however it is cut. *)
Lemma deliver_frame h f w' chunks : ∀ session s,
  frame_ok f → Forall chunk_ok chunks →
  Server.sessions (Cluster.server s) !! h = Some session → Session.is_open session = true →
  Session.buffer session ++ concat chunks = Frame.encode f →
  (length (Session.buffer session) < length (Frame.encode f))%nat →
  dispatch endpoint state_path save (clk (Cluster.calls s + length chunks - 1) 0%nat) f
    (enter (with_input [] session) (Cluster.server s)) = Some w' →
  Session.is_open (World.session w') = true → Session.buffer (World.session w') = [] →
  deliver h chunks s
  = Some (Cluster.mk (leave h w' false (Cluster.server s)) (Cluster.calls s + length chunks)).
Proof.
  induction chunks as [|chunk chunks IH]; intros session s Hf Hc Hs Hopen Heq Hlt Hd Hopen' Hb'.
  { exfalso. cbn in Heq. rewrite app_nil_r in Heq. rewrite Heq in Hlt. lia. }
  apply Forall_cons in Hc as [[Hne Hsz] Hc]. cbn [concat] in Heq. cbn [deliver length].
  destruct (decide (chunks = [])) as [->|Hmore].
  - cbn [concat] in Heq. rewrite app_nil_r in Heq.
    cbn [length] in Hd. rewrite Nat.add_sub in Hd.
    rewrite (service_complete _ h chunk f (Cluster.server s) session w') by done.
    cbn [mbind option_bind deliver length]. by rewrite Nat.add_comm.
  - assert (Hcat : concat chunks ≠ []).
    { destruct chunks as [|c l]; [done|]. apply Forall_cons in Hc as [[Hn _] _]. cbn. intros [-> _]%app_nil. done. }
    assert (Hlt' : (length (Session.buffer session ++ chunk) < length (Frame.encode f))%nat).
    { apply (f_equal length) in Heq. rewrite !length_app in Heq. rewrite length_app.
      destruct (concat chunks); [done|]. cbn in Heq. lia. }
    rewrite app_assoc in Heq.
    rewrite (service_partial _ h chunk f (concat chunks) (Cluster.server s) session) by done.
    cbn [mbind option_bind].
    set (session1 := with_input (Session.buffer session ++ chunk) session).
    erewrite (IH session1); [| done | done | | done | exact Heq | exact Hlt' | | done | done ].
    + f_equal. unfold leave. cbn -[insert]. rewrite insert_insert_eq. f_equal. lia.
    + cbn. by rewrite lookup_insert_eq.
    + cbn [Cluster.calls Cluster.server]. cbn [length] in Hd.
      replace (S (Cluster.calls s) + length chunks - 1)%nat with (Cluster.calls s + S (length chunks) - 1)%nat by lia.
      exact Hd.
Qed.

(** *** The response *)

Lemma sent_to_leave h w erased s : sent_to h s (leave h w erased s) = World.sent w.
Proof.
  unfold sent_to, leave. cbn [Server.sent]. rewrite drop_app_length.
  induction (World.sent w) as [|f l IH]; [done|]. cbn [fmap list_fmap]. rewrite filter_cons_True by done.
  cbn [fmap list_fmap snd]. by rewrite IH.
Qed.

(** A client [c] whose connection is the idle session [h] of the server. *)
Record attached (h : Z) (role : ClientRole.t) (c : BaseClient.t) (s : Cluster.t) (session : Session.t)
    : Prop := {
  at_socket : BaseClient.socket_ c = Some (Socket.mk h []);
  at_buffer : BaseClient.buffer_ c = [];
  at_session : Server.sessions (Cluster.server s) !! h = Some session;
  at_open : Session.is_open session = true;
  at_hello : Session.hello_done session = true;
  at_role : Session.role session = role;
  at_input : Session.buffer session = [];
}.

(** The clock readings while a frame is handled, and the cluster afterwards. *)
Definition reading (s : Cluster.t) (f : Frame.t) : nat → Z :=
  clk (Cluster.calls s + length (cut (Frame.encode f)) - 1) 0%nat.
Definition served_frame (h : Z) (s : Cluster.t) (f : Frame.t) (w : World.t) : Cluster.t :=
  Cluster.mk (leave h w false (Cluster.server s)) (Cluster.calls s + length (cut (Frame.encode f))).

Lemma with_no_input session : Session.buffer session = [] → with_input [] session = session.
Proof. by destruct session; cbn; intros ->. Qed.

Lemma request_response_served h role c s session f w g :
  cut_ok → frame_ok f → frame_fits g → attached h role c s session →
  dispatch endpoint state_path save (reading s f) f (enter session (Cluster.server s)) = Some w →
  World.sent w = [g] → Session.is_open (World.session w) = true → Session.buffer (World.session w) = [] →
  BaseClient.request_response coordinator_network f c s = Some ((c, served_frame h s f w), Ok g).
Proof.
  intros Hcut Hf Hg [Hsock Hbuf Hs Hopen _ _ Hin] Hd Hsent Ho Hb.
  destruct (Hcut (Frame.encode f)) as [Hcat Hck].
  unfold BaseClient.request_response, BaseClient.send_frame. rewrite Hsock. cbn -[deliver arrivals].
  rewrite Hs. rewrite (deliver_frame h f w _ session s); try done.
  2: { by rewrite Hin. }
  2: { rewrite Hin, encode_length. cbn. lia. }
  2: { by rewrite with_no_input. }
  cbn [mbind option_bind]. unfold BaseClient.receive_frame. cbn -[arrivals leave].
  assert (Ea : arrivals h (Cluster.server s) (leave h w false (Cluster.server s)) = Ok <$> cut (Frame.encode g)).
  { unfold arrivals. rewrite sent_to_leave, Hsent. cbn [fmap list_fmap concat]. rewrite app_nil_r.
    unfold leave. cbn [Server.sessions]. by rewrite lookup_insert_eq, app_nil_r. }
  rewrite Ea, Hbuf. destruct (Hcut (Frame.encode g)) as [Hcat' Hck'].
  destruct (receive_one g [] (cut (Frame.encode g)) []) as (b & l & -> & Hl & Hrest);
    [done|constructor|done|by rewrite app_nil_r|].
  apply app_nil in Hrest as [-> Hl'].
  assert (l = []) as ->.
  { destruct l as [|c' l]; [done|]. apply Forall_cons in Hl as [[Hne _] _]. by apply app_nil in Hl' as [-> _]. }
  cbn [mbind option_bind]. unfold served_frame. do 3 f_equal.
  destruct c as [so bu op he fs]. cbn in *. by subst.
Qed.

(** *** Acknowledgements *)

Definition ack_frame (ack : AckPayload.t) : Frame.t :=
  Frame.mk (ack_type (AckPayload.status ack)) frame_flags.kResponse 0 (write_ack ack []).2.

Lemma codes_whole {A} w (r : action PayloadReader.t A) a :
  codes w r a →
  w [] = (Ok tt, (w []).2) ∧ is_bytes (w []).2
  ∧ r (PayloadReader.mk (w []).2 0) = (Ok a, PayloadReader.mk (w []).2 (length (w []).2)).
Proof.
  intros (bs & Hb & Hw & Hr). specialize (Hw []). rewrite Hw. split; [done|]. split; [done|].
  specialize (Hr [] []). simpl in Hr. by rewrite app_nil_r in Hr.
Qed.
Lemma read_to_end {A} w (r : action PayloadReader.t A) a :
  codes w r a →
  ((a ← r; _ ← PayloadReader.require_exhausted; mret a) (PayloadReader.mk (w []).2 0)).1 = Ok a.
Proof.
  intros (_ & _ & Hr)%codes_whole. unfold mbind, action_bind. rewrite Hr.
  unfold PayloadReader.require_exhausted, PayloadReader.exhausted. cbn. by rewrite Nat.eqb_refl.
Qed.

Lemma frame_fits_payload type flags sequence payload n :
  is_known_message_type (MessageType.code type) = true → MessageType.of_code (MessageType.code type) = type →
  in_uint 32 flags → Z.ldiff flags frame_flags.kKnownMask = 0 → in_uint 64 sequence →
  is_bytes payload → zlen payload ≤ n → n + kChunkSize ≤ Limits.kMaxFramePayload + 1 →
  frame_fits (Frame.mk type flags sequence payload).
Proof. 
  intros. change kChunkSize with 16384 in *. change Limits.kMaxFramePayload with 1048576 in *.
  split; [split_and!; try done|]; cbn [Frame.payload]; change Limits.kMaxFramePayload with 1048576;
  change kChunkSize with 16384; lia.
Qed.

Lemma ack_frame_fits ack : ack_fits ack → frame_fits (ack_frame ack).
Proof.
  intros Hf. apply codes_ack in Hf as (_ & Hb & _)%codes_whole.
  apply (frame_fits_payload _ _ _ _ 342); [by destruct (AckPayload.status ack)..|done|done|done|done| |by vm_compute].
  apply sized_payload, sized_ack.
Qed.

Lemma read_ack_frame ack : ack_fits ack → BaseClient.read_response (ack_frame ack) = Ok ack.
Proof.
  intros Hf. unfold BaseClient.read_response, ack_frame. cbn [Frame.type Frame.payload].
  pose proof (read_to_end _ _ _ (codes_ack ack Hf)) as Hr.
  destruct (AckPayload.status ack); exact Hr.
Qed.

(** A request that is acknowledged. *)
Lemma exchange_served h role c s session f w ack :
  cut_ok → frame_ok f → ack_fits ack → attached h role c s session →
  dispatch endpoint state_path save (reading s f) f (enter session (Cluster.server s)) = Some w →
  World.sent w = [ack_frame ack] → Session.is_open (World.session w) = true →
  Session.buffer (World.session w) = [] →
  BaseClient.exchange coordinator_network f c s = Some ((c, served_frame h s f w), Ok ack).
Proof.
  intros Hcut Hf Ha Hat Hd Hsent Ho Hb. unfold BaseClient.exchange.
  rewrite (request_response_served h role c s session f w (ack_frame ack)); try done; [|by apply ack_frame_fits].
  cbn [mbind option_bind result_bind]. by rewrite read_ack_frame.
Qed.

(** *** The state of a session after a request *)

Lemma attached_served h role c s session f w :
  attached h role c s session → World.session w = session →
  attached h role c (served_frame h s f w) session.
Proof.
  intros [] Hw. constructor; try done. cbn. by rewrite Hw, lookup_insert_eq.
Qed.

Lemma number_frame_attached h role c s session :
  attached h role c s session → attached h role (BaseClient.number_frame c).1 s session.
Proof. by intros []. Qed.

(** ** Publishing *)

(** A publisher that is connected through the idle session [h]. *)
Definition publishing (h : Z) (p : ObservationPublisher.t) (s : Cluster.t) (session : Session.t) : Prop :=
  ObservationPublisher.connected p = true ∧ attached h ClientRole.Publisher (ObservationPublisher.base p) s session.

Definition event_status (out : IngestionOutcome.t) : AckStatus.t :=
  match IngestionOutcome.disposition out with
  | IngestionDisposition.Duplicate => AckStatus.PartiallyAccepted
  | IngestionDisposition.Rejected => ack_status_for (IngestionOutcome.code out)
  | _ => AckStatus.Accepted
  end.
Definition event_ack (o : State.t) (out : IngestionOutcome.t) : AckPayload.t :=
  ack_payload o (event_status out) (IngestionOutcome.detail out) 1 0
    (if decide (IngestionOutcome.disposition out = IngestionDisposition.Duplicate) then 1 else 0)
    (if decide (IngestionOutcome.disposition out = IngestionDisposition.AcceptedLate) then 1 else 0)
    (IngestionOutcome.missing_sequences out).

(** What a publisher is told of an outcome. *)
Definition reported_code (c : ErrorCode.t) : ErrorCode.t :=
  match c with
  | ErrorCode.Ok | ErrorCode.Unauthorized | ErrorCode.StaleEpoch | ErrorCode.StaleBoot
  | ErrorCode.StaleGeneration | ErrorCode.StaleSequence | ErrorCode.Capacity
  | ErrorCode.UnsupportedCapability => c
  | ErrorCode.RetiredEntity => ErrorCode.StaleGeneration
  | ErrorCode.TooMany => ErrorCode.Capacity
  | _ => ErrorCode.InvalidArgument
  end.
(** What the acknowledgement tells of an outcome: whether the event was accepted (on time or
    late), a duplicate or rejected, and if rejected the protocol's code for the reason; the
    detail and the number of missing sequences.  Whether an accepted event was counted and
    how it was attributed is not carried: the client fills those fields in. *)
Definition answers (out told : IngestionOutcome.t) : Prop :=
  (IngestionOutcome.disposition told = IngestionDisposition.Accepted ↔
     IngestionOutcome.disposition out = IngestionDisposition.Accepted
     ∨ IngestionOutcome.disposition out = IngestionDisposition.AcceptedLate)
  ∧ (IngestionOutcome.disposition told = IngestionDisposition.Duplicate ↔
     IngestionOutcome.disposition out = IngestionDisposition.Duplicate)
  ∧ (IngestionOutcome.disposition told = IngestionDisposition.Rejected ↔
     IngestionOutcome.disposition out = IngestionDisposition.Rejected)
  ∧ (IngestionOutcome.disposition out = IngestionDisposition.Rejected →
     IngestionOutcome.code told = reported_code (IngestionOutcome.code out))
  ∧ IngestionOutcome.detail told = IngestionOutcome.detail out
  ∧ IngestionOutcome.missing_sequences told = IngestionOutcome.missing_sequences out.

Lemma ingest_rejected_code now o s :
  IngestionOutcome.disposition (ingest now o s).2 = IngestionDisposition.Rejected →
  IngestionOutcome.code (ingest now o s).2 ≠ ErrorCode.Ok.
Proof.
  unfold ingest, ingest_locked. destruct (validate_observation_structure o) as [[]|e] eqn:Ev.
  2: { intros _. by apply (coded_observation o). }
  destruct (State.publishers s !! _) as [p|]; [|done].
  destruct (refuse_authority s p o) as [[c d]|] eqn:Ea.
  { intros _. cbn. revert Ea. unfold refuse_authority. by repeat case_match; intros [= <- <-]. }
  destruct (conflicting_event _ _ _ _); [done|].
  destruct (SequenceDecision.disposition _) eqn:Ed.
  - unfold accept_observation. destruct (apply_attributed _ _ _). cbn [snd IngestionOutcome.disposition]. by rewrite Ed.
  - unfold accept_observation. destruct (apply_attributed _ _ _). cbn [snd IngestionOutcome.disposition]. by rewrite Ed.
  - done.
  - case_decide as Hd; cbn [snd IngestionOutcome.code IngestionOutcome.rejected]; intros _; [by rewrite Hd|].
    revert Ed. unfold account_sequence, refuse. repeat case_match; done.
Qed.

Lemma outcome_of_event_ack now o s :
  let out := (ingest now o s).2 in
  answers out (ObservationPublisher.outcome_of (event_ack (ingest now o s).1 out)).
Proof.
  cbn zeta. pose proof (ingest_rejected_code now o s) as Hc. destruct (ingest now o s) as [st out].
  cbn [fst snd] in *. unfold ObservationPublisher.outcome_of, answers, event_ack, ack_payload, event_status.
  destruct (IngestionOutcome.disposition out) eqn:Ed; try (cbn; split_and!; try done; naive_solver).
  specialize (Hc eq_refl). cbn [AckPayload.status]. unfold ack_to_status.
  cbn [AckPayload.status AckPayload.detail AckPayload.missing].
  destruct (IngestionOutcome.code out); try done; cbn; split_and!; try done; naive_solver.
Qed.

(** *** What the server does with a request *)

(** A frame whose payload is one record is read as that record. *)
Lemma parse_record_coded {A} k what w (r : action PayloadReader.t A) a type flags n cont world :
  codes w r a →
  parse_record k what r (Frame.mk type flags n (w []).2) cont world = cont a world.
Proof.
  intros (_ & _ & Hr)%codes_whole. unfold parse_record, parse. cbn [Frame.payload]. rewrite Hr.
  unfold PayloadReader.exhausted, PayloadReader.size. cbn. by rewrite Nat.eqb_refl.
Qed.
Lemma parse_all_coded {A} k w (r : action PayloadReader.t A) a type flags n cont world :
  codes w r a → parse_all k r (Frame.mk type flags n (w []).2) cont world = cont a world.
Proof.
  intros Hc. apply read_to_end in Hc. unfold parse_all, parse. cbn [Frame.payload].
  destruct ((a ← r; _ ← _; mret a) _) as [res reader]. cbn [fst] in Hc. by subst res.
Qed.

Lemma dispatch_allowed k f session s role :
  Session.hello_done session = true → Session.role session = role →
  Frame.type f ≠ MessageType.Hello → role_may_send role (Frame.type f) = true →
  dispatch endpoint state_path save k f (enter session s) = handle state_path save k f (enter session s).
Proof.
  intros Hh Hr Hf Hm. unfold dispatch. rewrite decide_False by done.
  change (World.session (enter session s)) with session. by rewrite Hh, Hr, Hm.
Qed.

(** The world after a handler that answers with one acknowledgement. *)
Definition acked (o : State.t) (session : Session.t) (s : Server.t) (ack : AckPayload.t) : World.t :=
  World.mk o session (Server.protocol_rejections s) [ack_frame ack].

Lemma dispatch_event k n o session s :
  Session.hello_done session = true → Session.role session = ClientRole.Publisher → observation_fits o →
  dispatch endpoint state_path save k
    (Frame.mk MessageType.PublishEvent frame_flags.kAckRequired n (write_observation o []).2)
    (enter session s)
  = let '(st, out) := ingest (k 0%nat) (observation_wire_form o) (Server.observatory s) in
    Some (acked st session s (event_ack st out)).
Proof.
  intros Hh Hr Ho. erewrite dispatch_allowed by done. unfold handle. cbn [Frame.type].
  unfold handle_publish_event. erewrite parse_record_coded by by apply codes_observation.
  change (World.observatory (enter session s)) with (Server.observatory s).
  by destruct (ingest _ _ _) as [st out].
Qed.

Lemma number_frame_uint c : in_uint 64 (BaseClient.number_frame c).2.
Proof. cbn. pose proof (u64_add_range (BaseClient.frame_sequence_ c) 1) as H. unfold in_u64, u64_max in H. unfold in_uint. lia. Qed.

Lemma request_frame_fits type n payload m :
  is_known_message_type (MessageType.code type) = true → MessageType.of_code (MessageType.code type) = type →
  in_uint 64 n → is_bytes payload → zlen payload ≤ m → m + kChunkSize ≤ Limits.kMaxFramePayload + 1 →
  frame_ok (Frame.mk type frame_flags.kAckRequired n payload).
Proof. intros. by eapply (frame_fits_payload type frame_flags.kAckRequired n payload m). Qed.

Lemma stamp_event_base o p : ObservationPublisher.base (ObservationPublisher.stamp_event o p).1 = ObservationPublisher.base p.
Proof.
  unfold ObservationPublisher.stamp_event, ObservationPublisher.take_sequence. by repeat case_match; simplify_eq.
Qed.

(** The frame an event goes out in. *)
Definition event_frame (p : ObservationPublisher.t) (o : Observation.t) : Frame.t :=
  Frame.mk MessageType.PublishEvent frame_flags.kAckRequired
    (BaseClient.number_frame (ObservationPublisher.base p)).2 (write_observation o []).2.

Lemma stamp_event_connected o p :
  ObservationPublisher.connected (ObservationPublisher.stamp_event o p).1 = ObservationPublisher.connected p.
Proof.
  unfold ObservationPublisher.stamp_event, ObservationPublisher.take_sequence. by repeat case_match; simplify_eq.
Qed.
Lemma tally_frame ack p :
  ObservationPublisher.base (ObservationPublisher.tally ack p) = ObservationPublisher.base p
  ∧ ObservationPublisher.connected (ObservationPublisher.tally ack p) = ObservationPublisher.connected p.
Proof. unfold ObservationPublisher.tally. by destruct (AckPayload.status ack). Qed.

Lemma observation_payload_fits o :
  observation_fits o → is_bytes (write_observation o []).2 ∧ zlen (write_observation o []).2 ≤ 2378.
Proof.
  intros Ho. split; [by apply codes_observation, codes_whole in Ho as (_ & Hb & _)|].
  apply sized_payload, sized_observation. unfold observation_fits in Ho. destruct_and! Ho.
  match goal with H : BoundedMetadata.wf _ |- _ => apply H end.
Qed.
End network.

(** Claim C3.  Publishing through a connection is ingesting: when a publisher is connected
    through an idle session of a coordinator and hands over an event whose stamped form
    fits the wire, and the acknowledgement of its ingestion fits it too, the call returns,
    however the network cuts both streams; the coordinator has ingested exactly that event
    (with its metadata in canonical order), the publisher is told whether it was accepted,
    a duplicate or refused, with the protocol's code for the reason, the detail and the
    number of missing sequences, and both sides are ready for the next event.  Whether an
    accepted event was counted and how it was attributed is not in the acknowledgement,
    and the claim says nothing of what the client puts in these fields. *)
Theorem publish_is_ingest (settings : CoordinatorOptions.t) (clk : nat → nat → nat → Z) (peer : string)
    (cut : list Z → list (list Z)) (h : Z) (p : ObservationPublisher.t) (s : Cluster.t)
    (session : Session.t) (o : Observation.t) :
  cut_ok cut → publishing h p s session →
  let '(p1, o1) := ObservationPublisher.stamp_event o p in
  let now := reading clk cut s (event_frame p1 o1) 0 in
  let '(st, out) := ingest now (observation_wire_form o1) (Server.observatory (Cluster.server s)) in
  observation_fits o1 → ack_fits (event_ack st out) →
  ∃ p' s' told, ObservationPublisher.publish (coordinator_network settings clk peer cut) o p s
             = Some ((p', s'), Ok told)
    ∧ answers out told
    ∧ Server.observatory (Cluster.server s') = st ∧ publishing h p' s' session.
Proof.
  intros Hcut [Hcon Hat]. pose proof (stamp_event_base o p) as Eb. pose proof (stamp_event_connected o p) as Ec.
  destruct (ObservationPublisher.stamp_event o p) as [p1 o1] eqn:Es. cbn [fst] in Eb, Ec.
  cbn zeta. destruct (ingest _ _ _) as [st out] eqn:Ei. intros Ho Ha.
  assert (Hout : answers out (ObservationPublisher.outcome_of (event_ack st out))).
  { pose proof (outcome_of_event_ack (reading clk cut s (event_frame p1 o1) 0) (observation_wire_form o1)
      (Server.observatory (Cluster.server s))) as H. cbn zeta in H. by rewrite Ei in H. }
  pose proof (observation_payload_fits o1 Ho) as [Hb Hz].
  destruct (codes_whole _ _ _ (codes_observation o1 Ho)) as (Hw & _ & _).
  pose proof (number_frame_attached h ClientRole.Publisher (ObservationPublisher.base p1) s session) as Hat1.
  rewrite Eb in Hat1. specialize (Hat1 Hat).
  unfold ObservationPublisher.publish. rewrite Hcon, Es. cbn [negb]. unfold ObservationPublisher.number_frame.
  destruct (BaseClient.number_frame (ObservationPublisher.base p1)) as [c1 n] eqn:En. rewrite Hw.
  unfold ObservationPublisher.exchange. cbn [ObservationPublisher.base].
  assert (Ef : event_frame p1 o1
    = Frame.mk MessageType.PublishEvent frame_flags.kAckRequired n (write_observation o1 []).2)
    by (unfold event_frame; by rewrite En).
  rewrite Ef in Ei.
  rewrite Eb in En. rewrite En in Hat1. cbn [fst] in Hat1.
  rewrite (exchange_served settings clk peer cut h ClientRole.Publisher c1 s session _
    (acked st session (Cluster.server s) (event_ack st out)) (event_ack st out) Hcut);
    [| | exact Ha | exact Hat1 | | reflexivity | apply Hat | apply Hat].
  - cbn [mbind option_bind]. do 3 eexists. split; [reflexivity|]. split; [exact Hout|]. split; [reflexivity|].
    destruct (tally_frame (event_ack st out) (p1 <| ObservationPublisher.base := c1 |>)) as [E1 E2].
    split; [exact (eq_trans E2 (eq_trans Ec Hcon))|].
    refine (eq_rect_r (λ c, attached h ClientRole.Publisher c _ session) _ E1). by apply attached_served.
  - eapply (request_frame_fits _ _ _ 2378); try done.
    pose proof (number_frame_uint (ObservationPublisher.base p)) as Hn. by rewrite En in Hn.
  - rewrite dispatch_event by (apply Hat || done). by rewrite Ei.
Qed.

(** *** A concrete network *)

(** It delivers a stream in pieces of at most 64 bytes. *)
Fixpoint pieces (fuel : nat) (l : list Z) : list (list Z) :=
  match fuel, l with
  | S fuel, _ :: _ => take 64 l :: pieces fuel (drop 64 l)
  | _, _ => []
  end.
Definition split_stream (l : list Z) : list (list Z) := pieces (length l) l.

Lemma pieces_ok fuel : ∀ l,
  (length l ≤ fuel)%nat → concat (pieces fuel l) = l ∧ Forall chunk_ok (pieces fuel l).
Proof.
  induction fuel as [|fuel IH]; intros [|x l] Hl; cbn [length] in Hl; try (by split; [|constructor]); [lia|].
  cbn [pieces concat]. destruct (IH (drop 64 (x :: l))) as [Hc Hf].
  { rewrite length_drop. cbn [length]. lia. }
  rewrite Hc, take_drop. split; [done|]. constructor; [|done].
  split; [done|]. unfold zlen. rewrite length_take. change kChunkSize with 16384. lia.
Qed.
Lemma split_stream_ok : cut_ok split_stream.
Proof. intros l. by apply pieces_ok. Qed.

Definition ticks (i j k : nat) : Z := 1000 + Z.of_nat (100 * i + 10 * j + k).
Definition local_network : Network.t Cluster.t :=
  coordinator_network settings ticks "127.0.0.1:40000" split_stream.
Definition idle_cluster : Cluster.t := Cluster.mk fresh_server 0.

(** A publisher that connects, and what came of it. *)
Definition connected_publisher : ObservationPublisher.t * Cluster.t := Eval vm_compute in
  match ObservationPublisher.connect local_network 7 ClientOptions.default (sample_registration "pub.a" 1)
          ObservationPublisher.make idle_cluster with
  | Some (ps, Ok _) => ps
  | _ => (ObservationPublisher.make, idle_cluster)
  end.
Lemma publisher_connects :
  ObservationPublisher.connect local_network 7 ClientOptions.default (sample_registration "pub.a" 1)
    ObservationPublisher.make idle_cluster = Some (connected_publisher, ok_status).
Proof. by vm_compute. Qed.

Definition remote_session (s : Cluster.t) : Session.t :=
  default (Session.fresh 1 "") (Server.sessions (Cluster.server s) !! 1).
Lemma publisher_attached :
  publishing 1 connected_publisher.1 connected_publisher.2 (remote_session connected_publisher.2).
Proof. split; [reflexivity|]. by constructor; vm_compute. Qed.

Definition remote_event : Observation.t :=
  Observation.empty <| Observation.type := EventType.RemoteRead |>
    <| Observation.timestamp_ns := 5 |> <| Observation.bytes := 64 |>.

Definition stamped_event : Observation.t := Eval vm_compute in
  (ObservationPublisher.stamp_event remote_event connected_publisher.1).2.
Lemma remote_event_stamped :
  ObservationPublisher.stamp_event remote_event connected_publisher.1 = (connected_publisher.1, stamped_event).
Proof. by vm_compute. Qed.
Lemma stamped_event_fits : observation_fits stamped_event.
Proof.
  unfold observation_fits, in_uint, in_i64, enum_fits, resource_fits, name_fits, option_fits.
  cbn. split_and!; try done; try (right; apply validate_identity_token_ok; by vm_compute);
    try (apply validate_identity_token_ok; by vm_compute); try lia.
  by repeat split; try constructor.
Qed.

Lemma publish_is_ingest_witness :
  ∃ p' s' told, ObservationPublisher.publish local_network remote_event connected_publisher.1 connected_publisher.2
                  = Some ((p', s'), Ok told)
    ∧ IngestionOutcome.disposition told = IngestionDisposition.Accepted
    ∧ publishing 1 p' s' (remote_session connected_publisher.2).
Proof.
  pose proof (publish_is_ingest settings ticks "127.0.0.1:40000" split_stream 1 connected_publisher.1
    connected_publisher.2 (remote_session connected_publisher.2) remote_event split_stream_ok
    publisher_attached) as H.
  rewrite remote_event_stamped in H. cbn zeta iota beta in H.
  destruct (ingest _ _ _) as [st out] eqn:Ei in H.
  assert (Eo : IngestionOutcome.disposition out = IngestionDisposition.Accepted).
  { apply (f_equal snd) in Ei. cbn [snd] in Ei. subst out. by vm_compute. }
  destruct (H stamped_event_fits) as (p' & s' & told & Hp & Ht & _ & Ha).
  - apply (f_equal (λ r, event_ack r.1 r.2)) in Ei. cbn [fst snd] in Ei. rewrite <- Ei.
    unfold ack_fits, enum_fits, in_uint. vm_compute. repeat split; discriminate.
  - exists p', s', told. split; [exact Hp|]. split; [|exact Ha]. apply Ht. by left.
Defined.

(** A publisher that hands over events one after the other. *)
Fixpoint publish_each (os : list Observation.t) (p : ObservationPublisher.t) (s : Cluster.t)
    : list (result IngestionOutcome.t) :=
  match os with
  | [] => []
  | o :: os =>
      match ObservationPublisher.publish local_network o p s with
      | Some ((p, s), r) => r :: publish_each os p s
      | None => []
      end
  end.

(** The remote publisher numbers the events that come without a sequence, but
    never advances its counter: of three events handed over one after the other the first is
    accepted, the second, whose content differs, is refused as a conflicting duplicate of it,
    and a repetition of the first is taken for a duplicate. *)
Theorem unnumbered_events_collide :
  (λ r, match r with
        | Ok out => Some (IngestionOutcome.disposition out, IngestionOutcome.code out)
        | Err _ => None
        end)
    <$> publish_each [remote_event; remote_event <| Observation.bytes := 128 |>; remote_event]
          connected_publisher.1 connected_publisher.2
  = [Some (IngestionDisposition.Accepted, ErrorCode.Ok);
     Some (IngestionDisposition.Rejected, ErrorCode.InvalidArgument);
     Some (IngestionDisposition.Duplicate, ErrorCode.Duplicate)].
Proof. by vm_compute. Qed.
