(* ===== verification/RemoteAdmin.v ===== *)
(** * Administration over a connection

    The requests of [ObservatoryAdminClient] as one family of calls, the operations of
    the observatory they stand for, and that a call over the network of [Remote] is the
    operation. *)

From S2P Require Import Prelude Errors TextUtil Ids Taxonomy Float64 Policies Cost Records Observation.
From S2P Require Import Aggregate Sequence State Attribution Registry Publishers Ingest Counters.
From S2P Require Import Reconcile Snapshot System Findings Analysis Codec Protocol Transport Wire WireResults WireSnapshot.
From S2P Require Import Sizes Persistence Host Coordinator Client Remote.

(** ** The calls *)

Inductive AdminCall :=
| AdminNode (r : NodeRecord.t)
| AdminProcessor (r : ProcessorRecord.t)
| AdminAccelerator (r : AcceleratorRecord.t)
| AdminMemoryDomain (r : MemoryDomainRecord.t)
| AdminCoherenceDomain (r : CoherenceDomainRecord.t)
| AdminRegion (r : RegionRecord.t)
| AdminRetire (region : string) (generation : Z) (reason : string)
| AdminLink (l : TopologyLink.t)
| AdminFence (publisher : string) (reason : FenceReason.t) (detail : string)
| AdminBump (reason : string).

(** How a call ended, without the value it returns. *)
Definition outcome_only {N A} (r : option ((ObservatoryAdminClient.t * N) * result A))
    : option ((ObservatoryAdminClient.t * N) * result unit) :=
  '(an, x) ← r; Some (an, _ ← x; ok_status).

Definition call {N} (net : Network.t N) (c : AdminCall)
    : ObservatoryAdminClient.t → N → option ((ObservatoryAdminClient.t * N) * result unit) :=
  match c with
  | AdminNode r => ObservatoryAdminClient.register_node net r
  | AdminProcessor r => ObservatoryAdminClient.register_processor net r
  | AdminAccelerator r => ObservatoryAdminClient.register_accelerator net r
  | AdminMemoryDomain r => ObservatoryAdminClient.register_memory_domain net r
  | AdminCoherenceDomain r => ObservatoryAdminClient.register_coherence_domain net r
  | AdminRegion r => ObservatoryAdminClient.register_region net r
  | AdminRetire region generation reason =>
      ObservatoryAdminClient.retire_region net region generation reason
  | AdminLink l => ObservatoryAdminClient.set_topology_link net l
  | AdminFence publisher reason detail =>
      ObservatoryAdminClient.fence_publisher net publisher reason detail
  | AdminBump reason => λ a n, outcome_only (ObservatoryAdminClient.bump_topology net reason a n)
  end.

(** The operation of the observatory. *)
Definition operation (c : AdminCall) (now : Z) (s : State.t) : result State.t :=
  match c with
  | AdminNode r => register_node now r s
  | AdminProcessor r => register_processor now r s
  | AdminAccelerator r => register_accelerator now r s
  | AdminMemoryDomain r => register_memory_domain now r s
  | AdminCoherenceDomain r => register_coherence_domain now r s
  | AdminRegion r => register_region now r s
  | AdminRetire region generation reason => retire_region now region generation reason s
  | AdminLink l => set_topology_link l s
  | AdminFence publisher reason detail => state_of (fence_publisher now publisher reason detail s)
  | AdminBump reason => state_of (bump_topology_generation now reason s)
  end.

(** What fits the wire. *)
Definition call_fits (c : AdminCall) : Prop :=
  match c with
  | AdminNode r => node_fits r
  | AdminProcessor r => processor_fits r
  | AdminAccelerator r => accelerator_fits r
  | AdminMemoryDomain r => memory_domain_fits r
  | AdminCoherenceDomain r => coherence_domain_fits r
  | AdminRegion r => region_fits r
  | AdminRetire region generation reason =>
      valid_token region ∧ in_uint 64 generation ∧ slen reason ≤ Limits.kMaxRegionAnnotationLength
  | AdminLink l => topology_link_fits l
  | AdminFence publisher reason detail =>
      valid_token publisher ∧ slen detail ≤ Limits.kMaxRegionAnnotationLength
  | AdminBump reason => slen reason ≤ Limits.kMaxRegionAnnotationLength
  end.

(** ** The frames they go out in *)

Definition call_type (c : AdminCall) : MessageType.t :=
  match c with
  | AdminNode _ | AdminProcessor _ | AdminAccelerator _ | AdminMemoryDomain _
  | AdminCoherenceDomain _ => MessageType.RegisterResource
  | AdminRegion _ => MessageType.RegisterRegion
  | AdminRetire _ _ _ => MessageType.RetireRegion
  | AdminLink _ => MessageType.SetTopologyLink
  | AdminFence _ _ _ => MessageType.Fence
  | AdminBump _ => MessageType.BumpTopology
  end.

Definition call_payload (c : AdminCall) : action PayloadWriter.t unit :=
  let resource := ObservatoryAdminClient.write_resource in
  match c with
  | AdminNode r => resource ResourceKind.Node (write_node r)
  | AdminProcessor r => resource ResourceKind.Processor (write_processor r)
  | AdminAccelerator r => resource ResourceKind.Accelerator (write_accelerator r)
  | AdminMemoryDomain r => resource ResourceKind.MemoryDomain (write_memory_domain r)
  | AdminCoherenceDomain r => resource ResourceKind.CoherenceDomain (write_coherence_domain r)
  | AdminRegion r => write_region r
  | AdminRetire region generation reason =>
      PayloadWriter.text region Limits.kMaxNameLength;; PayloadWriter.u64 generation;;
      PayloadWriter.text reason Limits.kMaxRegionAnnotationLength
  | AdminLink l => write_topology_link l
  | AdminFence publisher reason detail =>
      PayloadWriter.text publisher Limits.kMaxNameLength;;
      PayloadWriter.u8 (fence_reason_code reason);;
      PayloadWriter.text detail Limits.kMaxRegionAnnotationLength
  | AdminBump reason => PayloadWriter.text reason Limits.kMaxRegionAnnotationLength
  end.

Definition call_done (c : AdminCall) : string :=
  match call_type c with
  | MessageType.RegisterResource => "resource registered"
  | MessageType.RegisterRegion => "region registered"
  | MessageType.RetireRegion => "region retired"
  | MessageType.SetTopologyLink => "topology link stored"
  | MessageType.BumpTopology => "topology generation advanced"
  | _ => "publisher fenced"
  end.

Lemma request_outcome_only {N A} (net : Network.t N) type write (read : AckPayload.t → A) a n :
  outcome_only (ObservatoryAdminClient.request net type write read a n)
  = ObservatoryAdminClient.request net type write (λ _, tt) a n.
Proof.
  unfold outcome_only, ObservatoryAdminClient.request. destruct (write []) as [[[]|e] payload]; [|done].
  destruct (ObservatoryAdminClient.simple net type payload a n) as [[[a' n'] ack]|]; [|done].
  cbn [mbind option_bind]. destruct ack as [ack|]; [|done]. cbn [mbind result_bind].
  by destruct (ack_to_status ack) as [[]|].
Qed.
Lemma call_is_request {N} (net : Network.t N) c a n :
  call net c a n = ObservatoryAdminClient.request net (call_type c) (call_payload c) (λ _, tt) a n.
Proof. destruct c; try done. apply request_outcome_only. Qed.

(** What a call that fits writes: a kind or not, then one record. *)
Lemma codes_retire region generation reason :
  call_fits (AdminRetire region generation reason) →
  codes (call_payload (AdminRetire region generation reason))
    (region ← PayloadReader.text Limits.kMaxNameLength; generation ← PayloadReader.u64;
     reason ← PayloadReader.text Limits.kMaxRegionAnnotationLength;
     mret (region, generation, reason)) (region, generation, reason).
Proof. intros ([Hr _] & Hg & Hd). assert (slen region ≤ Limits.kMaxNameLength) by apply Hr. cbn [call_payload]. solve_codes. Qed.
Lemma codes_fence publisher reason detail :
  call_fits (AdminFence publisher reason detail) →
  codes (call_payload (AdminFence publisher reason detail))
    (publisher ← PayloadReader.text Limits.kMaxNameLength; reason ← PayloadReader.u8;
     detail ← PayloadReader.text Limits.kMaxRegionAnnotationLength;
     mret (publisher, reason, detail)) (publisher, fence_reason_code reason, detail).
Proof.
  intros ([Hr _] & Hd). assert (slen publisher ≤ Limits.kMaxNameLength) by apply Hr.
  assert (is_byte (fence_reason_code reason)) by (destruct reason; unfold is_byte; cbn; lia).
  cbn [call_payload]. solve_codes.
Qed.

Lemma sized_coherence_domain r :
  zlen (CoherenceDomainRecord.members r) ≤ Limits.kMaxTopologyLinkCount → sized 320000 (write_coherence_domain r).
Proof.
  intros Hm. change Limits.kMaxTopologyLinkCount with 4096 in Hm.
  assert (sized 315396 (write_list write_resource_ref (CoherenceDomainRecord.members r))).
  { pose proof (zlen_nonneg (CoherenceDomainRecord.members r)). unfold write_list.
    eapply sized_le; [apply sized_bind; [apply sized_u32|apply (sized_all 77); [done|apply sized_resource_ref]|]|]; lia. }
  unfold write_coherence_domain. solve_sized.
Qed.
Lemma sized_call c : call_fits c → sized 330000 (call_payload c).
Proof.
  pose proof sized_node. pose proof sized_processor. pose proof sized_accelerator.
  pose proof sized_memory_domain. pose proof sized_coherence_domain.
  destruct c; cbn [call_payload call_fits]; unfold ObservatoryAdminClient.write_resource; intros Hf;
    try solve [eapply sized_le; [apply sized_bind; [apply sized_u8|eauto|done]|done]].
  - eapply sized_le; [apply sized_bind; [apply sized_u8|apply sized_coherence_domain, Hf|done]|done].
  - by eapply sized_le; [apply sized_region|].
  - solve_sized.
  - by eapply sized_le; [apply sized_topology_link|].
  - solve_sized.
  - eapply sized_le; [by apply sized_text|done].
Qed.

Lemma codes_resource {A} kind w (r : action PayloadReader.t A) a :
  is_byte (ResourceKind.code kind) → codes w r a →
  codes (ObservatoryAdminClient.write_resource kind w) (k ← PayloadReader.u8; a ← r; mret (k, a))
    (ResourceKind.code kind, a).
Proof.
  intros Hk Hc. unfold ObservatoryAdminClient.write_resource. eapply codes_bind; [by apply codes_u8|].
  eapply codes_last; [exact Hc|apply reads_ret].
Qed.

Lemma call_written c :
  call_fits c → call_payload c [] = (Ok tt, (call_payload c []).2) ∧ is_bytes (call_payload c []).2.
Proof.
  intros Hf.
  assert (∃ A (r : action PayloadReader.t A) a, codes (call_payload c) r a) as (A & r & a & Hc).
  { destruct c; do 3 eexists; cbn [call_fits] in Hf.
    1-5: cbn [call_payload]; eapply codes_resource; [unfold is_byte; cbn; lia|].
    - by apply codes_node.
    - by apply codes_processor.
    - by apply codes_accelerator.
    - by apply codes_memory_domain.
    - by apply codes_coherence_domain.
    - by apply codes_region.
    - by apply codes_retire.
    - by apply codes_topology_link.
    - by apply codes_fence.
    - by apply codes_text. }
  apply codes_whole in Hc as (Hw & Hb & _). by split.
Qed.

(** ** What the server does with them *)

(** The acknowledgement of an operation. *)
Definition call_ack (c : AdminCall) (s : State.t) (r : result State.t) : AckPayload.t :=
  match r with
  | Ok o => ack_payload o AckStatus.Accepted (call_done c) 0 0 0 0 0
  | Err e => ack_payload s (ack_status_for (Error.code e)) (Error.describe e) 0 0 0 0 0
  end.
Definition state_after (s : State.t) (r : result State.t) : State.t :=
  match r with Ok o => o | Err _ => s end.

Section dispatching.
Context (settings : CoordinatorOptions.t) (k : nat → Z).
Local Abbreviation endpoint := (CoordinatorOptions.endpoint settings).
Local Abbreviation state_path := (CoordinatorOptions.state_path settings).
Local Abbreviation save := (CoordinatorOptions.save settings).

Lemma acknowledge_acked done r session s :
  acknowledge done r (enter session s)
  = acked (state_after (Server.observatory s) r) session s
      match r with
      | Ok o => ack_payload o AckStatus.Accepted done 0 0 0 0 0
      | Err e => ack_payload (Server.observatory s) (ack_status_for (Error.code e)) (Error.describe e) 0 0 0 0 0
      end.
Proof. by destruct r. Qed.

(** A resource: its kind selects the record that is read and registered. *)
Lemma register_resource_coded {A} kind w (r : action PayloadReader.t A) a register s :
  is_byte (ResourceKind.code kind) → codes w r a →
  let payload := (ObservatoryAdminClient.write_resource kind w []).2 in
  PayloadReader.u8 (PayloadReader.mk payload 0) = (Ok (ResourceKind.code kind), PayloadReader.mk payload 1)
  ∧ register_resource k r register (PayloadReader.mk payload 1) s
    = Ok (register (k 0%nat) a s, PayloadReader.mk payload (length payload)).
Proof.
  intros Hk (bs & Hb & Hw & Hr). cbn zeta. unfold ObservatoryAdminClient.write_resource.
  assert (E : ((PayloadWriter.u8 (ResourceKind.code kind);; w) []).2 = [ResourceKind.code kind] ++ bs).
  { pose proof (Hw [ResourceKind.code kind]) as E. unfold mbind, action_bind. cbn. by rewrite E. }
  rewrite E. split.
  - pose proof (reads_u8 (ResourceKind.code kind) [] bs) as E8. cbn in E8. exact E8.
  - unfold register_resource. specialize (Hr [ResourceKind.code kind] []). rewrite app_nil_r in Hr.
    cbn [length] in Hr. rewrite Hr. by rewrite length_app.
Qed.

Lemma handle_resource_coded {A} kind w (r : action PayloadReader.t A) a register n session s :
  is_byte (ResourceKind.code kind) → codes w r a →
  (∀ reader o, match kind with
     | ResourceKind.Node => register_resource k read_node register_node reader o
     | ResourceKind.Processor => register_resource k read_processor register_processor reader o
     | ResourceKind.Accelerator => register_resource k read_accelerator register_accelerator reader o
     | ResourceKind.MemoryDomain => register_resource k read_memory_domain register_memory_domain reader o
     | ResourceKind.CoherenceDomain =>
         register_resource k read_coherence_domain register_coherence_domain reader o
     | _ => Err (Error.mk ErrorCode.InvalidArgument "unknown resource kind" "")
     end = register_resource k r register reader o) →
  ResourceKind.of_code (ResourceKind.code kind) = kind → kind ≠ ResourceKind.Unknown →
  ResourceKind.code kind ≤ ResourceKind.code ResourceKind.CoherenceDomain →
  handle_register_resource k
    (Frame.mk MessageType.RegisterResource frame_flags.kAckRequired n
       (ObservatoryAdminClient.write_resource kind w []).2) (enter session s)
  = acknowledge "resource registered" (register (k 0%nat) a (Server.observatory s)) (enter session s).
Proof.
  intros Hk Hc Hsel Hof Hne Hle.
  destruct (register_resource_coded kind w r a register (Server.observatory s) Hk Hc) as [E8 Er].
  cbn zeta in E8, Er. unfold handle_register_resource, parse. cbn [Frame.payload]. rewrite E8.
  rewrite Z.gtb_ltb, (proj2 (Z.ltb_ge _ _)) by done. cbn zeta. rewrite Hof.
  change (World.observatory (enter session s)) with (Server.observatory s).
  rewrite Hsel, Er. destruct kind; try done.
  all: unfold PayloadReader.exhausted, PayloadReader.size; cbn [PayloadReader.position_ PayloadReader.data_];
    by rewrite Nat.eqb_refl.
Qed.

Lemma dispatch_call n c session s :
  Session.hello_done session = true → Session.role session = ClientRole.Admin → call_fits c →
  let o := Server.observatory s in
  let r := operation c (k 0%nat) o in
  dispatch endpoint state_path save k
    (Frame.mk (call_type c) frame_flags.kAckRequired n (call_payload c []).2) (enter session s)
  = Some (acked (state_after o r) session s (call_ack c o r)).
Proof.
  intros Hh Hr Hf. cbn zeta.
  rewrite (dispatch_allowed settings k _ session s ClientRole.Admin) by (done || by destruct c).
  destruct c; cbn [call_fits] in Hf; cbn [call_type call_payload operation]; unfold handle; cbn [Frame.type]; f_equal.
  - rewrite (handle_resource_coded ResourceKind.Node _ read_node r register_node);
      [apply acknowledge_acked|by vm_compute|by apply codes_node|done..].
  - rewrite (handle_resource_coded ResourceKind.Processor _ read_processor r register_processor);
      [apply acknowledge_acked|by vm_compute|by apply codes_processor|done..].
  - rewrite (handle_resource_coded ResourceKind.Accelerator _ read_accelerator r register_accelerator);
      [apply acknowledge_acked|by vm_compute|by apply codes_accelerator|done..].
  - rewrite (handle_resource_coded ResourceKind.MemoryDomain _ read_memory_domain r register_memory_domain);
      [apply acknowledge_acked|by vm_compute|by apply codes_memory_domain|done..].
  - rewrite (handle_resource_coded ResourceKind.CoherenceDomain _ read_coherence_domain r register_coherence_domain);
      [apply acknowledge_acked|by vm_compute|by apply codes_coherence_domain|done..].
  - unfold handle_register_region. erewrite parse_record_coded by by apply codes_region.
    apply acknowledge_acked.
  - unfold handle_retire_region. erewrite parse_all_coded by exact (codes_retire _ _ _ Hf).
    cbn beta iota. rewrite parse_name_valid by apply Hf. apply acknowledge_acked.
  - unfold handle_set_topology_link. erewrite parse_record_coded by by apply codes_topology_link.
    apply acknowledge_acked.
  - unfold handle_fence. erewrite parse_all_coded by exact (codes_fence _ _ _ Hf).
    cbn beta iota. rewrite parse_name_valid by apply Hf.
    assert (Er : fence_reason_of_code (fence_reason_code reason) = reason) by by destruct reason.
    rewrite Er. destruct reason; apply acknowledge_acked.
  - unfold handle_bump_topology. erewrite parse_all_coded by by apply codes_text.
    apply acknowledge_acked.
Qed.
End dispatching.

(** ** What the caller is told *)

(** The result of an operation as the protocol reports it. *)
Definition told (r : result State.t) : result unit :=
  match r with
  | Ok _ => ok_status
  | Err e => fail (reported_code (Error.code e)) (Error.describe e)
  end.

Lemma coded_bind {A B} (r : result A) (f : A → result B) : coded r → (∀ a, coded (f a)) → coded (a ← r; f a).
Proof. intros Hr Hf. destruct r as [a|e]; [apply Hf|]. intros e' [= <-]. by apply Hr. Qed.
Lemma coded_check_slot {V} (m : gmap string V) id n f what : (∀ v, coded (f v)) → coded (check_slot m id n f what).
Proof. intros Hf. unfold check_slot. case_match; [apply Hf|solve_coded]. Qed.
Lemma coded_members s l : coded (check_members s l).
Proof. induction l; cbn [check_members]; solve_coded. Qed.
Lemma coded_region_domain s r : coded (resolve_region_domain s r).
Proof. unfold resolve_region_domain. solve_coded. Qed.

Lemma coded_state_of {A} (r : result (State.t * A)) : coded r → coded (state_of r).
Proof. destruct r as [|e]; [done|]. intros Hr e' [= <-]. by apply (Hr e). Qed.

Lemma coded_operation c now s : coded (operation c now s).
Proof.
  destruct c; cbn [operation];
    unfold register_node, register_processor, register_accelerator, register_memory_domain,
      register_coherence_domain, register_region, retire_region, set_topology_link, fence_publisher,
      fence_publisher_boot, bump_topology_generation, validate_identity_token, require_registered, check_accelerator_identity,
      check_region_identity, validate_generation_rollback;
    repeat first [ apply coded_state_of | apply coded_token_chars | apply coded_members | apply coded_check_slot; intros ?
                 | apply coded_bind; [apply coded_region_domain|intros ?] | progress solve_coded ].
Qed.

Lemma told_call_ack c s r : coded r → ack_to_status (call_ack c s r) = told r.
Proof.
  intros Hc. destruct r as [o|e]; [done|]. specialize (Hc e eq_refl).
  unfold call_ack, ack_payload, ack_to_status, told. cbn [AckPayload.status AckPayload.detail].
  by destruct (Error.code e).
Qed.

(** Claim C4.  Administering through a connection is administering: when an
    administrator is connected through an idle session of a coordinator, each of its
    calls that changes the observatory - registering a node, a processor, an accelerator,
    a memory domain, a coherence domain or a region, retiring a region, storing a topology
    link, fencing a publisher, advancing the topology - returns however the network cuts
    both streams, provided its arguments and the acknowledgement fit the wire; the
    observatory of the coordinator is the one that the operation itself gives, unchanged
    when the operation refuses, the caller is told that the operation succeeded or was
    refused, with the code the protocol has for the refusal, and both sides are ready for
    the next call.  Nothing is claimed of the number that advancing the topology returns
    beside its success, which is not the generation; saving the state changes nothing in
    the observatory and is not among these calls, nor is [set_capability], which the
    client refuses itself. *)
Theorem administration_is_local (settings : CoordinatorOptions.t) (clk : nat → nat → nat → Z) (peer : string)
    (cut : list Z → list (list Z)) (h : Z) (a : ObservatoryAdminClient.t) (s : Cluster.t)
    (session : Session.t) (c : AdminCall) :
  cut_ok cut → ObservatoryAdminClient.connected a = true →
  attached h ClientRole.Admin (ObservatoryAdminClient.base a) s session → call_fits c →
  let now := reading clk cut s
    (Frame.mk (call_type c) frame_flags.kAckRequired
       (BaseClient.number_frame (ObservatoryAdminClient.base a)).2 (call_payload c []).2) 0 in
  let o := Server.observatory (Cluster.server s) in
  let r := operation c now o in
  ack_fits (call_ack c o r) →
  ∃ a' s', call (coordinator_network settings clk peer cut) c a s = Some ((a', s'), told r)
    ∧ Server.observatory (Cluster.server s') = state_after o r
    ∧ ObservatoryAdminClient.connected a' = true
    ∧ attached h ClientRole.Admin (ObservatoryAdminClient.base a') s' session.
Proof.
  intros Hcut Hcon Hat Hf. cbn zeta. set (f := Frame.mk _ _ _ _). set (r := operation _ _ _). intros Ha.
  pose proof (number_frame_attached h ClientRole.Admin _ s session Hat) as Hat1.
  pose proof (number_frame_uint (ObservatoryAdminClient.base a)) as Hn.
  destruct (call_written c Hf) as [Hw Hb].
  pose proof (dispatch_call settings (reading clk cut s f) (BaseClient.number_frame (ObservatoryAdminClient.base a)).2
    c session (Cluster.server s) (at_hello _ _ _ _ _ Hat) (at_role _ _ _ _ _ Hat) Hf) as Hd.
  cbn zeta in Hd. fold f in Hd. fold r in Hd.
  rewrite call_is_request. unfold ObservatoryAdminClient.request, ObservatoryAdminClient.simple.
  rewrite Hw, Hcon. cbn [negb].
  destruct (BaseClient.number_frame (ObservatoryAdminClient.base a)) as [c1 n] eqn:En. cbn [fst snd] in *.
  fold f. rewrite (exchange_served settings clk peer cut h ClientRole.Admin c1 s session f
    (acked (state_after (Server.observatory (Cluster.server s)) r) session (Cluster.server s)
       (call_ack c (Server.observatory (Cluster.server s)) r))
    (call_ack c (Server.observatory (Cluster.server s)) r) Hcut);
    [| | exact Ha | exact Hat1 | exact Hd | reflexivity | apply Hat | apply Hat].
  - cbn [mbind option_bind result_bind]. rewrite told_call_ack by apply coded_operation.
    do 2 eexists. split; [by destruct (told r) as [[]|]|]. split; [done|]. split; [done|].
    by apply attached_served.
  - apply (request_frame_fits _ _ _ 330000); try done; [by destruct c..|].
    by apply sized_payload, sized_call.
Qed.

(** *** A concrete administrator *)

Definition connected_admin : ObservatoryAdminClient.t * Cluster.t := Eval vm_compute in
  match ObservatoryAdminClient.connect local_network ClientOptions.default ObservatoryAdminClient.make
          idle_cluster with
  | Some (ps, Ok _) => ps
  | _ => (ObservatoryAdminClient.make, idle_cluster)
  end.
Lemma admin_attached :
  attached 1 ClientRole.Admin (ObservatoryAdminClient.base connected_admin.1) connected_admin.2
    (remote_session connected_admin.2).
Proof. by constructor; vm_compute. Qed.

Lemma administration_is_local_witness :
  ∃ a' s', ObservatoryAdminClient.register_node local_network sample_node connected_admin.1 connected_admin.2
             = Some ((a', s'), ok_status)
    ∧ State.nodes (Server.observatory (Cluster.server s')) !! "node0"%string = Some sample_node.
Proof.
  pose proof (administration_is_local settings ticks "127.0.0.1:40000" split_stream 1 connected_admin.1
    connected_admin.2 (remote_session connected_admin.2) (AdminNode sample_node) split_stream_ok
    eq_refl admin_attached sample_node_fits) as H.
  cbn zeta in H. destruct (operation _ _ _) as [o|e] eqn:Eo in H;
    [|apply (f_equal is_ok) in Eo; vm_compute in Eo; discriminate Eo].
  destruct H as (a' & s' & Hc & Ho & _).
  - rewrite <- Eo. unfold ack_fits, enum_fits, in_uint. vm_compute. repeat split; discriminate.
  - exists a', s'. split; [exact Hc|]. rewrite Ho. unfold state_after. cbn [operation] in Eo.
    refine (eq_trans (eq_sym (f_equal (λ r, match r with Ok o => State.nodes o !! "node0"%string
      | Err _ => None end) Eo)) _). by vm_compute.
Defined.

(** [bump_topology] of the admin client reports a topology generation, but what
    it returns is the observation epoch of the acknowledgement: on a fresh coordinator the
    first bump returns 1 and leaves the topology at generation 2. *)
Theorem bump_topology_reports_epoch :
  (λ r, (r.2, State.topology_generation (Server.observatory (Cluster.server r.1.2))))
    <$> ObservatoryAdminClient.bump_topology local_network "reconfigured" connected_admin.1 connected_admin.2
  = Some (Ok 1, 2).
Proof. by vm_compute. Qed.
