(* ===== verification/RemoteQuery.v ===== *)
(** * Queries over a connection

    The three queries of [ObservationClient] as one family, the operations of the
    observatory they stand for, and that asking over the network of [Remote] is the
    operation, up to what the wire format carries of the answer: findings and attribution
    results with their lists capped, of a snapshot what [WireSnapshot.carried] lists. *)

From S2P Require Import Prelude Errors TextUtil Ids Taxonomy Float64 Policies Cost Records Observation.
From S2P Require Import Aggregate Sequence State Attribution Registry Publishers Ingest Counters.
From S2P Require Import Reconcile Snapshot System Findings Analysis Codec Protocol Transport Wire WireResults WireSnapshot.
From S2P Require Import Sizes Persistence Host Coordinator Client Remote.

(** ** The queries, indexed by what they answer *)

Inductive Query : Type → Type :=
| AskSnapshot (options : FindingsOptions.t) : Query (Snapshot.t Finding.t)
| AskFindings (options : FindingsOptions.t) : Query (list Finding.t)
| AskAttribution (region : string) : Query AttributionResult.t.

Definition ask {N A} (net : Network.t N) (q : Query A)
    : ObservationClient.t → N → option ((ObservationClient.t * N) * result A) :=
  match q with
  | AskSnapshot options => ObservationClient.query_snapshot net options
  | AskFindings options => ObservationClient.query_findings net options
  | AskAttribution region => ObservationClient.query_attribution net region
  end.

(** The options that reach the server: the bound on the number of findings does not. *)
Definition served_options (o : FindingsOptions.t) : FindingsOptions.t :=
  FindingsOptions.mk (FindingsOptions.compute_hotspots o) (FindingsOptions.compute_ping_pong o)
    (FindingsOptions.compute_false_sharing o) (FindingsOptions.compute_invalidation o)
    (FindingsOptions.compute_remote_access o) (FindingsOptions.include_operational o)
    Limits.kMaxFindings.

(** The operation of the observatory. *)
Definition answer {A} (q : Query A) (now : Z) (s : State.t) : option (State.t * A) :=
  match q in Query A return option (State.t * A) with
  | AskSnapshot options => take_snapshot now (served_options options) s
  | AskFindings options =>
      found ← analyze_all s (served_options options); Some (s, capped Limits.kMaxQueryResults found)
  | AskAttribution region => Some (s, attribute_region_state s region)
  end.

Definition query_fits {A} (q : Query A) : Prop :=
  match q with AskAttribution region => valid_token region | _ => True end.

(** What an answer must satisfy to be sent, and what is received of it. *)
Definition answer_fits {A} (q : Query A) : A → Prop :=
  match q in Query A return A → Prop with
  | AskSnapshot _ => snapshot_fits
  | AskFindings _ => list_fits Limits.kMaxQueryResults finding_fits
  | AskAttribution _ => attribution_fits
  end.
Definition answer_wire_form {A} (q : Query A) : A → A :=
  match q in Query A return A → A with
  | AskSnapshot _ => snapshot_wire_form
  | AskFindings _ => λ l, finding_wire_form <$> l
  | AskAttribution _ => attribution_wire_form
  end.

(** What is received of an answer: findings and attribution results with their lists
    capped, of a snapshot what the format carries. *)
Definition received {A} (q : Query A) : A → A → Prop :=
  match q in Query A return A → A → Prop with
  | AskSnapshot _ => λ x y, carried x y ∧ left_out y
  | AskFindings _ => λ l l', l' = finding_wire_form <$> l
  | AskAttribution _ => λ a a', a' = attribution_wire_form a
  end.
Lemma wire_form_received {A} (q : Query A) (a : A) : received q a (answer_wire_form q a).
Proof. destruct q; [split; [apply snapshot_wire_carried|by constructor]|done|done]. Qed.

(** ** The frames *)

Definition query_type {A} (q : Query A) : MessageType.t :=
  match q with
  | AskSnapshot _ => MessageType.QuerySnapshot
  | AskFindings _ => MessageType.QueryFindings
  | AskAttribution _ => MessageType.QueryAttribution
  end.
Definition query_payload {A} (q : Query A) : action PayloadWriter.t unit :=
  match q with
  | AskSnapshot options | AskFindings options => PayloadWriter.u8 (findings_flags options)
  | AskAttribution region => PayloadWriter.text region Limits.kMaxNameLength
  end.
Definition answer_type {A} (q : Query A) : MessageType.t :=
  match q with
  | AskSnapshot _ => MessageType.SnapshotResponse
  | AskFindings _ => MessageType.FindingsResponse
  | AskAttribution _ => MessageType.AttributionResponse
  end.
Definition answer_payload {A} (q : Query A) : A → action PayloadWriter.t unit :=
  match q in Query A return A → action PayloadWriter.t unit with
  | AskSnapshot _ => write_snapshot
  | AskFindings _ => write_counted write_finding
  | AskAttribution _ => write_attribution
  end.
Definition answer_reader {A} (q : Query A) : action PayloadReader.t A :=
  match q in Query A return action PayloadReader.t A with
  | AskSnapshot _ => read_snapshot
  | AskFindings _ => read_counted Limits.kMaxQueryResults ObservationClient.too_many_findings read_finding
  | AskAttribution _ => read_attribution
  end.
Definition answer_name {A} (q : Query A) : string :=
  match q with
  | AskSnapshot _ => "SNAPSHOT_RESPONSE"
  | AskFindings _ => "FINDINGS_RESPONSE"
  | AskAttribution _ => "ATTRIBUTION_RESPONSE"
  end.

Lemma ask_is_query {N A} (net : Network.t N) (q : Query A) :
  ask net q = ObservationClient.query net (query_type q) (query_payload q)
                (ObservationClient.read_answer (answer_type q) (answer_name q) (answer_reader q)).
Proof. by destruct q. Qed.

Lemma codes_answer {A} (q : Query A) a :
  answer_fits q a → codes (answer_payload q a) (answer_reader q) (answer_wire_form q a).
Proof.
  destruct q; cbn [answer_fits]; intros Hf.
  - by apply codes_snapshot.
  - by apply codes_findings.
  - by apply codes_attribution.
Qed.

(** The flags of a query select the analyses it asks for. *)
Lemma requested_flags o : requested (findings_flags o) = served_options o.
Proof. by destruct o as [[] [] [] [] [] [] m]. Qed.
Lemma findings_flags_byte o : is_byte (findings_flags o).
Proof. destruct o as [[] [] [] [] [] [] m]; vm_compute; (split; [discriminate|reflexivity]). Qed.

Lemma query_written {A} (q : Query A) :
  query_fits q →
  query_payload q [] = (Ok tt, (query_payload q []).2) ∧ is_bytes (query_payload q []).2
  ∧ zlen (query_payload q []).2 ≤ 100.
Proof.
  intros Hf.
  assert (∃ B (r : action PayloadReader.t B) b, codes (query_payload q) r b) as (B & r & b & Hc).
  { destruct q; do 3 eexists; cbn [query_payload]; [apply codes_u8, findings_flags_byte..|].
    apply codes_text; [apply Hf|done]. }
  apply codes_whole in Hc as (Hw & Hb & _). split; [done|]. split; [done|].
  apply sized_payload. destruct q; cbn [query_payload].
  1-2: by eapply sized_le; [apply sized_u8|].
  by eapply sized_le; [by apply sized_text|].
Qed.

(** ** What the server does with them *)

Definition answer_frame {A} (q : Query A) (a : A) : Frame.t :=
  Frame.mk (answer_type q) frame_flags.kResponse 0 (answer_payload q a []).2.

Section serving.
Context (settings : CoordinatorOptions.t) (k : nat → Z).

(** The world after a query: the snapshot is numbered, nothing else changes. *)
Definition answered {A} (q : Query A) (session : Session.t) (s : Server.t) (r : State.t * A) : World.t :=
  World.mk r.1 session (Server.protocol_rejections s) [answer_frame q r.2].

Lemma read_flags_written type n o :
  read_flags (Frame.mk type frame_flags.kAckRequired n (PayloadWriter.u8 (findings_flags o) []).2)
  = Ok (findings_flags o).
Proof. exact (read_to_end _ _ _ (codes_u8 _ (findings_flags_byte o))). Qed.

Lemma respond_or_fail_written {A} (q : Query A) a what w :
  answer_fits q a →
  respond_or_fail (answer_type q) what (answer_payload q a) w = send_frame (answer_frame q a) w.
Proof.
  intros (Hw & _ & _)%codes_answer%codes_whole. unfold respond_or_fail. by rewrite Hw.
Qed.

Lemma dispatch_query {A} n (q : Query A) session s r :
  Session.hello_done session = true → Session.role session = ClientRole.Client → query_fits q →
  answer q (k 0%nat) (Server.observatory s) = Some r → answer_fits q r.2 →
  dispatch (CoordinatorOptions.endpoint settings) (CoordinatorOptions.state_path settings)
    (CoordinatorOptions.save settings) k
    (Frame.mk (query_type q) frame_flags.kAckRequired n (query_payload q []).2) (enter session s)
  = Some (answered q session s r).
Proof.
  intros Hh Hr Hf Ha Hfit. rewrite (dispatch_allowed settings k _ session s ClientRole.Client) by (done || by destruct q).
  destruct q as [o|o|region]; cbn [query_type query_payload]; unfold handle; cbn [Frame.type].
  - unfold handle_query_snapshot. rewrite read_flags_written, requested_flags.
    change (World.observatory (enter session s)) with (Server.observatory s).
    cbn [answer] in Ha. rewrite Ha. cbn [mbind option_bind].
    by rewrite (respond_or_fail_written (AskSnapshot o) r.2) by done.
  - unfold handle_query_findings. rewrite read_flags_written, requested_flags.
    change (World.observatory (enter session s)) with (Server.observatory s).
    cbn [answer] in Ha. destruct (analyze_all _ _) as [found|]; [|done]. injection Ha as <-.
    cbn [mbind option_bind]. by rewrite (respond_or_fail_written (AskFindings o) (capped Limits.kMaxQueryResults found)) by done.
  - unfold handle_query_attribution.
    erewrite parse_all_coded by (apply codes_text; [apply Hf|done]). rewrite parse_name_valid by done.
    change (World.observatory (enter session s)) with (Server.observatory s).
    unfold attribute_region. rewrite (proj2 (validate_identity_token_ok region) Hf).
    injection Ha as <-. reflexivity.
Qed.
End serving.

(** With a sound invalidation policy every query has an answer. *)
Lemma answer_total {A} (q : Query A) now s :
  invariant s → sound_policy (invalidation_policy_of s) → is_Some (answer q now s).
Proof.
  intros Hi Hp. pose proof (ok_journal _ (inv_evidence _ Hi)) as Hj.
  assert (zlen (State.journal s) ≤ u64_max) as Hj'
    by (unfold Limits.kMaxObservationJournal, u64_max in *; lia). clear Hj.
  destruct q as [o|o|region]; cbn [answer]; [| |eauto].
  - unfold take_snapshot. cbn zeta.
    edestruct (analyze_all_total (s <| State.snapshot_generation ::= next_id |>) (served_options o))
      as [found ->]; [exact Hp|exact Hj'|]. cbn. eauto.
  - destruct (analyze_all_total s (served_options o) Hp Hj') as [found ->]. cbn. eauto.
Qed.

(** Claim C5.  Asking through a connection is asking the observatory: when a client is
    connected through an idle session of a coordinator whose observatory keeps its
    invariant and whose burst policy is sound, each of its three queries has an answer; if
    the answer fits the wire and leaves room in a frame, the call returns what the format
    carries of that answer, however the network cuts both streams; the observatory has done
    what the local operation does, and both sides are ready for the next query.  The flags
    of the query select exactly the analyses asked for; the bound on the number of findings
    is not sent and the server's own applies.  Of findings and attribution results the
    format carries all but the ends of long lists; of a snapshot it carries neither nodes,
    links, cost model nor historical evidence, only the first buckets, and of a bucket not
    the lines, pages, regions touched and counter total. *)
Theorem query_is_local {A : Type} (settings : CoordinatorOptions.t) (clk : nat → nat → nat → Z) (peer : string)
    (cut : list Z → list (list Z)) (h : Z) (c : ObservationClient.t) (s : Cluster.t)
    (session : Session.t) (q : Query A) :
  cut_ok cut → ObservationClient.connected c = true →
  attached h ClientRole.Client (ObservationClient.base c) s session → query_fits q →
  let now := reading clk cut s
    (Frame.mk (query_type q) frame_flags.kAckRequired
       (BaseClient.number_frame (ObservationClient.base c)).2 (query_payload q []).2) 0 in
  let o := Server.observatory (Cluster.server s) in
  invariant o → sound_policy (invalidation_policy_of o) →
  ∃ st a, answer q now o = Some (st, a)
    ∧ (answer_fits q a → zlen (answer_payload q a []).2 + kChunkSize ≤ Limits.kMaxFramePayload + 1 →
       ∃ c' s' b, ask (coordinator_network settings clk peer cut) q c s = Some ((c', s'), Ok b)
         ∧ received q a b
         ∧ Server.observatory (Cluster.server s') = st
         ∧ ObservationClient.connected c' = true
         ∧ attached h ClientRole.Client (ObservationClient.base c') s' session).
Proof.
  intros Hcut Hcon Hat Hf. cbn zeta. set (f := Frame.mk _ _ _ _). intros Hi Hp.
  destruct (answer_total q (reading clk cut s f 0) _ Hi Hp) as [[st a] Ea].
  exists st, a. split; [exact Ea|]. intros Hfit Hroom.
  pose proof (number_frame_attached h ClientRole.Client _ s session Hat) as Hat1.
  pose proof (number_frame_uint (ObservationClient.base c)) as Hn.
  destruct (query_written q Hf) as (Hw & Hb & Hz).
  destruct (codes_whole _ _ _ (codes_answer q a Hfit)) as (_ & Hab & _).
  pose proof (dispatch_query settings (reading clk cut s f) (BaseClient.number_frame (ObservationClient.base c)).2
    q session (Cluster.server s) (st, a) (at_hello _ _ _ _ _ Hat) (at_role _ _ _ _ _ Hat) Hf Ea Hfit) as Hd.
  fold f in Hd. rewrite ask_is_query. unfold ObservationClient.query. rewrite Hcon. cbn [negb].
  destruct (BaseClient.number_frame (ObservationClient.base c)) as [c1 n] eqn:En. cbn [fst snd] in *.
  rewrite Hw. fold f. change (ObservationClient.base (c <| ObservationClient.base := c1 |>)) with c1.
  rewrite (request_response_served settings clk peer cut h ClientRole.Client c1 s session f
    (answered q session (Cluster.server s) (st, a)) (answer_frame q a) Hcut);
    [| | | exact Hat1 | exact Hd | reflexivity | apply Hat | apply Hat].
  - cbn [mbind option_bind result_bind]. unfold ObservationClient.read_answer, answer_frame.
    cbn [Frame.type Frame.payload]. rewrite bool_decide_true by done. cbn [negb].
    rewrite (read_to_end _ _ _ (codes_answer q a Hfit)).
    do 3 eexists. split; [reflexivity|]. split; [apply wire_form_received|]. split; [done|]. split; [done|].
    by apply attached_served.
  - apply (request_frame_fits _ _ _ 100); try done; by destruct q.
  - apply (frame_fits_payload _ _ _ _ (zlen (answer_payload q a []).2));
      [by destruct q|by destruct q|done|done|done|exact Hab|apply Z.le_refl|exact Hroom].
Qed.

(** *** A concrete client *)

Definition connected_client : ObservationClient.t * Cluster.t := Eval vm_compute in
  match ObservationClient.connect local_network ClientOptions.default ObservationClient.make idle_cluster with
  | Some (ps, Ok _) => ps
  | _ => (ObservationClient.make, idle_cluster)
  end.
Lemma client_attached :
  attached 1 ClientRole.Client (ObservationClient.base connected_client.1) connected_client.2
    (remote_session connected_client.2).
Proof. by constructor; vm_compute. Qed.
Lemma connected_client_observatory :
  Server.observatory (Cluster.server connected_client.2) = make_observatory 1 ObservatoryOptions.default.
Proof. by vm_compute. Qed.

Definition unknown_region : AttributionResult.t := Eval vm_compute in
  attribute_region_state (make_observatory 1 ObservatoryOptions.default) "buffer.a".
Lemma unknown_region_fits : attribution_fits unknown_region.
Proof.
  unfold attribution_fits, in_uint, in_i64, enum_fits, name_fits, option_fits, list_fits, bindings_fit.
  cbn. split_and!; try done; try lia; try (by left); try (right; apply validate_identity_token_ok; by vm_compute).
  all: by repeat constructor.
Qed.

Lemma query_is_local_witness :
  ∃ c' s', ObservationClient.query_attribution local_network "buffer.a" connected_client.1 connected_client.2
             = Some ((c', s'), Ok (attribution_wire_form unknown_region))
    ∧ Server.observatory (Cluster.server s') = make_observatory 1 ObservatoryOptions.default.
Proof.
  destruct (query_is_local settings ticks "127.0.0.1:40000" split_stream 1 connected_client.1
    connected_client.2 (remote_session connected_client.2) (AskAttribution "buffer.a") split_stream_ok
    eq_refl client_attached) as (st & a & Ea & H).
  - apply validate_identity_token_ok. by vm_compute.
  - rewrite connected_client_observatory. apply make_observatory_invariant.
  - rewrite connected_client_observatory. vm_compute. split; discriminate.
  - cbn [answer] in Ea. rewrite connected_client_observatory in Ea. injection Ea as <- <-.
    destruct H as (c' & s' & b & Hq & -> & Ho & _); [exact unknown_region_fits|by vm_compute|].
    exists c', s'. split; [exact Hq|exact Ho].
Defined.
